(* ===== verification/_CoqProject ===== *)
-Q . S2P
Prelude.v
Riscv.v
Headers.v
Mem.v
Strings.v
Printf.v
KPrintf.v
Kalloc.v
Vm.v
VmTree.v
VmInv.v
VmOps.v
VmUser.v
VmCopy.v
VmFree.v
VmSafe.v
VmProps.v
Sleeplock.v
Spinlock.v
Block.v
Bio.v
BioList.v
BioRep.v
BioProps.v
Virtio.v
Log.v
LogSteps.v
LogSafe.v
LogCrash.v
LogOps.v
LogDemo.v
State.v
Sched.v
SchedProps.v
Copy.v
UserMem.v
Fs.v
FsBase.v
FsAlloc.v
FsInode.v
FsFile.v
FsRw.v
FsDir.v
FsName.v
FsDemo.v
Console.v
Pipe.v
PipeProps.v
FileTable.v
Proc.v
Exec.v
Args.v
Sysfile.v
Sysproc.v
Trap.v
Boot.v
Grep.v
Usys.v
User.v
GrepMain.v
Sh.v
ShParse.v
ShGrammar.v
ShRun.v
Umalloc.v
Mkfs.v
MkfsImage.v
MkfsAppend.v
MkfsProps.v
MkfsBoot.v
