(* ===== verification/Prelude.v ===== *)
(** * xv6-riscv with copy-on-write fork: verification development

    The program is the xv6 teaching kernel for RISC-V, with copy-on-write
    [fork], lazy [sbrk] and reference-counted pages, and its user programs
    (kernel/ and user/ under src/), with mkfs/, which makes the disk image the
    kernel starts from. The kernel is a page allocator and a
    virtual-memory system; spinlocks, sleep locks and a process table with
    sleeping, waking and scheduling; a disk driver, a buffer cache, a
    write-ahead log and a file system stacked on it; open files, pipes and the
    console; and traps, interrupts and system calls, which call all the rest.
    This library translates that code, function by function, and proves what
    makes its parts correct.

    ** How code is modelled

    A C function is a Rocq function of type [M S A] (this file): it takes the
    context of the calling CPU (the spinlocks it holds, the process it runs,
    the messages and wake-ups so far) and the state of its component, and it
    returns a value, panics, runs out of fuel, or gives up the CPU with the
    rest of the function as a continuation. Integers are [Z] with the wrap of
    their C type written out ([u32], [i32], [u64] and so on). Memory is bytes by
    physical address; page tables, the free list and trap frames live in it.
    Disk blocks, buffers and strings outside that memory are lists of bytes.
    Tables are finite maps from the index of an entry, and a pointer to an
    entry is its index. Every definition is executable. Loops that are not
    structural carry fuel, computed from the sizes involved so that a run with
    the sizes the C types allow never exhausts it; wait loops go through
    [wakes] wake-ups, which is a parameter, so that the theorems hold for any
    number of them.

    A user program is a tree of system calls (file Usys) that an interpreter
    runs: one for a single process and its files, one for a tree of processes
    and their descriptors. The boot of the harts is a step relation, and
    mkfs a function from the host's files to an image.

    Code that is not in the repository is a parameter: the addresses the
    linker chooses ([Linker], [Ksyms], [KData]), the virtio device (a
    hypothesis in file Virtio), what reads of a device register return
    (arguments of the interrupt handlers), how many bytes a [read] returns,
    the files of the host that mkfs copies.

    ** Files

    - Riscv: kernel/riscv.h, kernel/memlayout.h, kernel/param.h. Headers: the
      constants that the kernel shares with user programs. Mem, Strings:
      kernel/string.c on byte memory. Printf: what kernel/printf.c and
      user/printf.c print. KPrintf: the lock and the panic of kernel/printf.c
      and the output of kernel/uart.c with interleaved threads.
    - Kalloc: kernel/kalloc.c. Vm: kernel/vm.c. VmTree, VmInv, VmOps, VmUser,
      VmCopy, VmFree: page tables as trees, the invariant that ties reference
      counts to mappings, and what each operation does to them. VmSafe, VmProps:
      the results.
    - Spinlock: kernel/spinlock.c with interleaved CPUs. Sleeplock:
      kernel/sleeplock.c.
    - Block: the interface between the buffer cache and its clients, as
      classes [BlockOps] and [BlockLaws]. Bio: kernel/bio.c. BioList, BioRep,
      BioProps: its list, its representation and the instance of the
      interface. Virtio: kernel/virtio_disk.c.
    - Log: kernel/log.c, on any implementation of Block. LogSteps, LogSafe,
      LogCrash, LogOps: its proofs. LogDemo: the log on the cache of Bio.
    - State: the structures of kernel/proc.h, kernel/file.h, kernel/fs.h and
      the whole kernel state. Sched, Copy, Proc: kernel/proc.c. SchedProps:
      sleeping, waking and scheduling. UserMem: the memory of a process as
      system calls see it, the interface between VmCopy and the code that
      copies to and from user space. Fs: kernel/fs.c. FsBase: blocks inside a
      transaction, the interface of the file system's proofs to the log and the
      cache; FsAlloc, FsInode, FsFile, FsRw, FsDir, FsName: the bitmap, inodes
      on disk, the blocks of a file, reading and writing, directories and the
      inode table, paths; FsDemo: witnesses. Console:
      kernel/console.c, kernel/uart.c. Pipe, FileTable: kernel/pipe.c,
      kernel/file.c; PipeProps: pipes as queues. Exec: kernel/exec.c. Args, Sysfile,
      Sysproc: kernel/syscall.c, kernel/sysfile.c, kernel/sysproc.c. Trap:
      kernel/trap.c, kernel/plic.c. Boot: kernel/start.c, kernel/main.c.
    - Usys: system calls and user/ulib.c. User: the small programs of user/.
      Grep, GrepMain: user/grep.c. Umalloc: user/umalloc.c. Sh: the parser of user/sh.c;
      ShParse: that it terminates and reads back what is printed; ShGrammar:
      the language it accepts; ShRun: the rest of user/sh.c and the processes
      it makes.
    - Mkfs: mkfs/mkfs.c. MkfsImage, MkfsAppend: the files of the image and what
      appending does to them; MkfsProps: the image as a whole; MkfsBoot: the
      kernel on it.

    ** What the theorems show

    - Virtual memory ([cow_isolation], [cow_noninterference], [vm_no_leak] in
      VmSafe; one theorem for each operation in VmProps): whatever sequence of
      forks, faults, stores, copies, resizes and releases happens with sizes up
      to TRAPFRAME, which the kernel does not check, no page that a process can
      write is shared, no operation changes what another address space sees,
      reference counts are exact, and no page is lost. When memory runs out a
      growth is undone; a fork leaves the child empty and the parent with the
      same contents, though perhaps copy-on-write. The allocator below it is
      specified on every branch (Kalloc).
    - Locks: in every interleaving at most one CPU is inside a critical
      section with its interrupts off, and the lock words implement the
      acquire and release the rest of the library uses (Spinlock); a sleep
      lock excludes and hands over (Sleeplock). A sleeping process is made
      runnable by a wake-up of its channel or a kill and by nothing else, and
      the scheduler resumes it where it slept (SchedProps).
    - Pipes: the ring buffer with its wrapping counters is a queue; a write
      appends and a read takes from the front, in order, across any number of
      sleeps, and each sleeps only when it has to (PipeProps).
    - Storage: the driver and a device that follows the specification do the
      transfer the cache asks for (Virtio); the cache implements the block
      interface and recycles the least recently used buffer (BioProps); a
      commit interrupted at any disk write is all or nothing, recovery
      restores exactly what was committed, and may itself be interrupted
      (LogCrash); the reservation of [begin_op] suffices for operations that
      call [log_write] at most MAXOPBLOCKS times, and the last [end_op] commits
      unless the log pins every buffer (LogOps).
    - Files: a block that is allocated was free and is zeroed (FsAlloc); an
      inode survives being written and read back (FsInode); a write of data of
      the kernel changes the bytes it covers and nothing else on the disk, and a
      read returns them (FsRw); a directory is searched for the first entry with a name (FsDir).
      The image that mkfs makes is a file system that satisfies the invariants
      these theorems assume (MkfsProps), and on it the kernel finds every file
      by its name and reads the bytes of the host's file (MkfsBoot).
    - Boot: in every interleaving of the harts none reaches its scheduler before
      what it needs is initialised (Boot).
    - User programs: the shell's parser terminates, and undoes the printing of
      commands (ShParse); it parses every text of its grammar, spaced in any
      way, to the command it means (ShGrammar); and running a command line
      executes the programs it names, each with the descriptors that pipes and
      redirections call for (ShRun). The allocator hands out blocks that do not
      overlap, and keeps its free list sorted and merged, for requests whose
      size fits the int that [sbrk] takes (Umalloc). [wc] counts (User).
    - Output and search: [printint] prints its argument within its buffer,
      the two [printf]s agree (Printf), the pattern matcher agrees with the
      meaning of patterns (Grep) and the program [grep] writes the matching
      lines of its files however they are read, as long as they fit its buffer
      (GrepMain). Concurrent calls of [printf] do not mix, and a panic is printed
      without waiting for the lock and freezes [printf], though not
      [uartwrite] (KPrintf).
    - Defects of the code are stated as theorems about it where they are
      small: [vmfault_above_maxva] and [copyout_guard_page] in VmProps, the
      unterminated last line in GrepMain, the lost byte of [piperead_fifo], the
      log that fills the cache in [end_op_spec], the root directory that is one
      block too long in [mkfs_spec].

    Theorems with hypotheses have a witness in a module [Demo] that applies
    them to a concrete state.

    ** What is not modelled

    The assembly for entry, traps and context switches: it saves and restores
    registers, and a context switch is the suspension of a thread in the
    execution monad. The test drivers user/usertests.c, user/cowtest.c and
    user/grind.c: they call the system calls with fixed arguments and compare
    the results. What mkfs prints, and failures of the host to seek in or write
    the image; the host is little-endian. Pages of a user heap are those of
    its break: an access beyond them kills the process (Umalloc). In the
    interpreter of a tree of processes (ShRun), [pipe] and [dup] fail only for
    lack of a descriptor. Memory is sequentially consistent. *)

From Stdlib Require Export ZArith Lia.
From stdpp Require Export base gmap strings list fin_maps sets.

Global Open Scope Z_scope.

(** ** Kernel object names

    Spinlocks and wait channels are C addresses; what the code uses of an
    address is only its identity, so each lock object of the kernel is a
    constructor. [LBuf] and [LInode] are the inner spinlocks of the sleep
    locks of a buffer and of an in-memory inode. *)

Inductive lock :=
| LKmem | LBcache | LLog | LItable | LFtable | LWait | LPid | LCons | LTicks
| LVdisk | LTx | LPr
| LProc (i : Z) | LPipe (pa : Z) | LBuf (i : Z) | LInode (i : Z).

#[export] Instance lock_eq_dec : EqDecision lock.
Proof. solve_decision. Defined.

Definition lock_encode (l : lock) : Z * Z :=
  match l with
  | LKmem => (0, 0) | LBcache => (1, 0) | LLog => (2, 0) | LItable => (3, 0)
  | LFtable => (4, 0) | LWait => (5, 0) | LPid => (6, 0) | LCons => (7, 0)
  | LTicks => (8, 0) | LVdisk => (9, 0) | LTx => (10, 0) | LPr => (11, 0)
  | LProc i => (12, i) | LPipe i => (13, i) | LBuf i => (14, i)
  | LInode i => (15, i)
  end.

Definition lock_decode (p : Z * Z) : option lock :=
  match p with
  | (0, _) => Some LKmem | (1, _) => Some LBcache | (2, _) => Some LLog
  | (3, _) => Some LItable | (4, _) => Some LFtable | (5, _) => Some LWait
  | (6, _) => Some LPid | (7, _) => Some LCons | (8, _) => Some LTicks
  | (9, _) => Some LVdisk | (10, _) => Some LTx | (11, _) => Some LPr
  | (12, i) => Some (LProc i) | (13, i) => Some (LPipe i)
  | (14, i) => Some (LBuf i) | (15, i) => Some (LInode i)
  | _ => None
  end.

#[export] Instance lock_countable : Countable lock.
Proof. apply (inj_countable lock_encode lock_decode). by intros []. Defined.

(** The channels [sleep] and [wakeup] are called on: the address of a process,
    of the log, of [ticks], of the two counters of a pipe, of a sleep lock, of
    a buffer waiting for the disk, of the descriptor table, of [cons.r] and of
    [tx_chan]. *)
Inductive chan :=
| ChProc (i : Z) | ChLog | ChTicks | ChPipeR (pa : Z) | ChPipeW (pa : Z)
| ChBufLock (i : Z) | ChInodeLock (i : Z) | ChBuf (i : Z) | ChDesc | ChConsR
| ChTx.

#[export] Instance chan_eq_dec : EqDecision chan.
Proof. solve_decision. Defined.

(** Calls whose effect belongs to another component than the one under study
    are recorded in order: a [wakeup] of a channel and a console [printf]. *)
Inductive event :=
| EvWakeup (c : chan)
| EvPrint (s : string).

(** ** The execution monad

    A C function of the kernel is a function of the execution context of the
    calling CPU (the spinlocks it holds, the events so far, the slot [me] of
    the process it runs and that process's [pid]) and of the state of the
    component. It returns, or panics, or (only for loops that need fuel) runs
    out of fuel, or gives up the CPU: then the rest of the function is a
    continuation, to be run when the process is scheduled again, in the state
    it finds at that time. *)
Record ctx := Ctx { held : gset lock; trace : list event; me : Z; mypid : Z }.

(** Why a thread gives up the CPU: a call of [sleep], with the condition lock
    released, or (in proc.c itself) a call of [sched]. *)
Inductive wait :=
| WSleep (ch : chan) (l : lock)
| WSched.

Inductive outcome (S A : Type) :=
| Ok (a : A) (c : ctx) (s : S)
| Panic (msg : string)
| Blocked (w : wait) (c : ctx) (s : S) (k : ctx -> S -> outcome S A)
| NoFuel.
Arguments Ok {S A} a c s.
Arguments Panic {S A} msg.
Arguments Blocked {S A} w c s k.
Arguments NoFuel {S A}.

Definition M (S A : Type) := ctx -> S -> outcome S A.

Fixpoint obind {S A B} (k : A -> M S B) (o : outcome S A) : outcome S B :=
  match o with
  | Ok a c s => k a c s
  | Panic msg => Panic msg
  | Blocked w c s r => Blocked w c s (fun c' s' => obind k (r c' s'))
  | NoFuel => NoFuel
  end.

#[export] Instance M_ret S : MRet (M S) := fun A a c s => Ok a c s.
#[export] Instance M_bind S : MBind (M S) := fun A B k m c s => obind k (m c s).

Definition panic {S A} (msg : string) : M S A := fun _ _ => Panic msg.
Definition nofuel {S A} : M S A := fun _ _ => NoFuel.
Definition get {S} : M S S := fun c s => Ok s c s.
Definition put {S} (s' : S) : M S unit := fun c _ => Ok tt c s'.
Definition gets {S A} (f : S -> A) : M S A := fun c s => Ok (f s) c s.
Definition modify {S} (f : S -> S) : M S unit := fun c s => Ok tt c (f s).

Definition emit {S} (e : event) : M S unit :=
  fun c s => Ok tt (Ctx (held c) (trace c ++ [e]) (me c) (mypid c)) s.
Definition wakeup {S} (ch : chan) : M S unit := emit (EvWakeup ch).
Definition kprintf {S} (msg : string) : M S unit := emit (EvPrint msg).

Definition hold (l : lock) (c : ctx) : ctx := Ctx ({[l]} ∪ held c) (trace c) (me c) (mypid c).
Definition unhold (l : lock) (c : ctx) : ctx := Ctx (held c ∖ {[l]}) (trace c) (me c) (mypid c).

(** [acquire] and [release] as one CPU sees them: both panic on misuse
    ([holding] in spinlock.c). Spinlock.v models the lock words themselves and
    relates the two. *)
Definition acquire {S} (l : lock) : M S unit := fun c s =>
  if decide (l ∈ held c) then Panic "acquire" else Ok tt (hold l c) s.
Definition release {S} (l : lock) : M S unit := fun c s =>
  if decide (l ∈ held c) then Ok tt (unhold l c) s else Panic "release".

(** [sleep ch l] releases the condition lock and blocks; when woken it takes
    the lock again before it returns. Another spinlock held meanwhile is the
    panic of [sched]. *)
Definition sleep {S} (ch : chan) (l : lock) : M S unit := fun c s =>
  if decide (l ∈ held c) then
    if decide (held c = {[l]}) then Blocked (WSleep ch l) (unhold l c) s (acquire l) else Panic "sched locks"
  else Panic "release".

(** A loop around [sleep] runs once more each time the process is woken; a wait
    is followed through [wakes] wake-ups at most. *)
Class Wakes := { wakes : nat }.

(** Run a component's code on its part of a larger state. *)
Fixpoint ozoom {S T A} (view : T -> S) (upd : S -> T -> T) (t : T) (o : outcome S A) : outcome T A :=
  match o with
  | Ok a c s => Ok a c (upd s t)
  | Panic msg => Panic msg
  | Blocked w c s r => Blocked w c (upd s t) (fun c' t' => ozoom view upd t' (r c' (view t')))
  | NoFuel => NoFuel
  end.
Definition zoom {S T A} (view : T -> S) (upd : S -> T -> T) (m : M S A) : M T A :=
  fun c t => ozoom view upd t (m c (view t)).

(** [for_each l f] is a [for] loop with a known list of indices. *)
Fixpoint for_each {S A} (l : list A) (f : A -> M S unit) : M S unit :=
  match l with
  | [] => mret tt
  | x :: l => f x;; for_each l f
  end.

(** ** Machine integers *)

Definition u8 (x : Z) : Z := x mod 2 ^ 8.
Definition u16 (x : Z) : Z := x mod 2 ^ 16.
Definition u32 (x : Z) : Z := x mod 2 ^ 32.
Definition u64 (x : Z) : Z := x mod 2 ^ 64.
Definition i16 (x : Z) : Z := (x + 2 ^ 15) mod 2 ^ 16 - 2 ^ 15.
Definition i32 (x : Z) : Z := (x + 2 ^ 31) mod 2 ^ 32 - 2 ^ 31.
Definition i64 (x : Z) : Z := (x + 2 ^ 63) mod 2 ^ 64 - 2 ^ 63.

(** ** Lists and sets *)

Lemma size_list_le (l : list Z) : (size (list_to_set l : gset Z) <= length l)%nat.
Proof.
  induction l as [|x l IH]; [done|]. cbn [list_to_set length]. rewrite size_union_alt, size_singleton.
  assert (size (list_to_set l ∖ {[x]} : gset Z) <= size (list_to_set l : gset Z))%nat by (apply subseteq_size; set_solver). lia.
Qed.

(** ** Lemmas on the monad *)

Lemma bind_ok {S A B} (m : M S A) (k : A -> M S B) c s a c' s' :
  m c s = Ok a c' s' -> (m ≫= k) c s = k a c' s'.
Proof. intros H. unfold mbind, M_bind. by rewrite H. Qed.

Lemma bind_panic {S A B} (m : M S A) (k : A -> M S B) c s msg :
  m c s = Panic msg -> (m ≫= k) c s = Panic msg.
Proof. intros H. unfold mbind, M_bind. by rewrite H. Qed.

Lemma bind_blocked {S A B} (m : M S A) (k : A -> M S B) c s w c' s' r :
  m c s = Blocked w c' s' r -> (m ≫= k) c s = Blocked w c' s' (r ≫= k).
Proof. intros H. unfold mbind, M_bind. by rewrite H. Qed.

Lemma bind_bind_ok {S A B C} (m : M S A) (f : A -> M S B) (g : B -> M S C) c s b c' s' :
  (m ≫= f) c s = Ok b c' s' -> (m ≫= (fun a => f a ≫= g)) c s = g b c' s'.
Proof. unfold mbind, M_bind. destruct (m c s); cbn [obind]; try done. by intros ->. Qed.

Lemma ctx_eta c : Ctx (held c) (trace c) (me c) (mypid c) = c.
Proof. by destruct c. Qed.

Lemma unhold_hold l c : l ∉ held c -> unhold l (hold l c) = c.
Proof.
  intros H. destruct c as [h t m p]. unfold unhold, hold; simpl in *. f_equal. set_solver.
Qed.

Lemma held_hold l c : held (hold l c) = {[l]} ∪ held c.
Proof. done. Qed.

Lemma acquire_ok {S} l c (s : S) : l ∉ held c -> acquire l c s = Ok tt (hold l c) s.
Proof. intros. unfold acquire. by rewrite decide_False. Qed.

Lemma acquire_held {S} l c (s : S) : l ∈ held c -> acquire l c s = Panic "acquire".
Proof. intros. unfold acquire. by rewrite decide_True. Qed.

Lemma release_ok {S} l c (s : S) : l ∉ held c -> release l (hold l c) s = Ok tt c s.
Proof.
  intros. unfold release. rewrite decide_True by (simpl; set_solver). by rewrite unhold_hold.
Qed.

Lemma release_not_held {S} l c (s : S) : l ∉ held c -> release l c s = Panic "release".
Proof. intros. unfold release. by rewrite decide_False. Qed.

Lemma zoom_ok {S T A} (view : T -> S) upd (m : M S A) c t a c' s' :
  m c (view t) = Ok a c' s' -> zoom view upd m c t = Ok a c' (upd s' t).
Proof. intros H. unfold zoom. by rewrite H. Qed.

(** A critical section: a body that neither touches the lock set nor blocks,
    bracketed by [acquire] and [release], runs as if it were alone. *)
Lemma locked_ok {S A B} l (body : M S A) (k : A -> M S B) c s a s' :
  l ∉ held c ->
  body (hold l c) s = Ok a (hold l c) s' ->
  (acquire l;; a ← body; release l;; k a) c s = k a c s'.
Proof.
  intros Hl Hb. rewrite (bind_ok _ _ _ _ _ _ _ (acquire_ok l c s Hl)), (bind_ok _ _ _ _ _ _ _ Hb).
  by rewrite (bind_ok _ _ _ _ _ _ _ (release_ok l c s' Hl)).
Qed.

(** [mstep H] runs the first action of a sequence with the equation [H] of
    its outcome; [msimpl] runs the primitive state actions; [mlock] runs an
    [acquire] or a [release] whose side condition is in the context. *)
Tactic Notation "mstep" constr(H) := rewrite (bind_ok _ _ _ _ _ _ _ H).
Tactic Notation "mstep" constr(H) "in" hyp(E) := rewrite (bind_ok _ _ _ _ _ _ _ H) in E.
Ltac munfold := unfold mbind, M_bind, mret, M_ret, get, put, gets, modify, panic; cbn [obind].
Ltac mlock :=
  repeat first
    [ rewrite acquire_ok by (done || set_solver)
    | rewrite release_ok by (done || set_solver) ].
(** [list_mem] solves membership in an explicit list. *)
Ltac list_mem := repeat first [done | apply elem_of_cons; first [by left | right]].
Ltac inv_ok H := injection H; clear H; intros; subst.

(** ** Generic lemmas *)

Lemma u64_id x : 0 <= x < 2 ^ 64 -> u64 x = x.
Proof. intros. unfold u64. by apply Z.mod_small. Qed.

Lemma u32_id x : 0 <= x < 2 ^ 32 -> u32 x = x.
Proof. intros. unfold u32. by apply Z.mod_small. Qed.

Lemma u8_id x : 0 <= x < 2 ^ 8 -> u8 x = x.
Proof. intros. unfold u8. by apply Z.mod_small. Qed.

Lemma u64_bound x : 0 <= u64 x < 2 ^ 64.
Proof. unfold u64. apply Z.mod_pos_bound. lia. Qed.

Lemma u32_bound x : 0 <= u32 x < 2 ^ 32.
Proof. unfold u32. apply Z.mod_pos_bound. lia. Qed.

Lemma i32_id x : - 2 ^ 31 <= x < 2 ^ 31 -> i32 x = x.
Proof. intros. unfold i32. rewrite Z.mod_small; lia. Qed.

Lemma i32_bound x : - 2 ^ 31 <= i32 x < 2 ^ 31.
Proof. unfold i32. pose proof (Z.mod_pos_bound (x + 2 ^ 31) (2 ^ 32)). lia. Qed.

Create HintDb xv6.
#[export] Hint Resolve u64_bound u32_bound i32_bound : xv6.
