(* ===== verification/Riscv.v ===== *)
(** * Machine constants and address arithmetic

    The macros of kernel/riscv.h (pages, page-table entries, Sv39 indices),
    kernel/memlayout.h and kernel/param.h, with the arithmetic the page-table
    code relies on: rounding, index extraction and the packing of a physical
    address and its flags into a page-table entry. The symbols the linker
    script defines are the fields of a class. *)

From S2P Require Import Prelude.

(** ** kernel/param.h *)
Definition NPROC : Z := 64.
Definition NCPU : Z := 8.
Definition NOFILE : Z := 16.
Definition NFILE : Z := 100.
Definition NINODE : Z := 50.
Definition NDEV : Z := 10.
Definition ROOTDEV : Z := 1.
Definition MAXARG : Z := 32.
Definition MAXOPBLOCKS : Z := 10.
Definition LOGBLOCKS : Z := MAXOPBLOCKS * 3.
Definition NBUF : Z := MAXOPBLOCKS * 3.
Definition FSSIZE : Z := 2000.
Definition MAXPATH : Z := 128.
Definition USERSTACK : Z := 1.

(** ** kernel/riscv.h: pages and page-table entries *)
Definition PGSIZE : Z := 4096.
Definition PGSHIFT : Z := 12.

Definition PGROUNDUP (sz : Z) : Z := Z.land (u64 (sz + PGSIZE - 1)) (Z.lnot (PGSIZE - 1)).
Definition PGROUNDDOWN (a : Z) : Z := Z.land a (Z.lnot (PGSIZE - 1)).

Definition PTE_V : Z := Z.shiftl 1 0.
Definition PTE_R : Z := Z.shiftl 1 1.
Definition PTE_W : Z := Z.shiftl 1 2.
Definition PTE_X : Z := Z.shiftl 1 3.
Definition PTE_U : Z := Z.shiftl 1 4.
Definition PTE_COW : Z := Z.shiftl 1 8.

Definition PA2PTE (pa : Z) : Z := u64 (Z.shiftl (Z.shiftr pa 12) 10).
Definition PTE2PA (pte : Z) : Z := u64 (Z.shiftl (Z.shiftr pte 10) 12).
Definition PTE_FLAGS (pte : Z) : Z := Z.land pte 0x3FF.

Definition PXMASK : Z := 0x1FF.
Definition PXSHIFT (level : Z) : Z := PGSHIFT + 9 * level.
Definition PX (level va : Z) : Z := Z.land (Z.shiftr va (PXSHIFT level)) PXMASK.

Definition MAXVA : Z := Z.shiftl 1 (9 + 9 + 9 + 12 - 1).

Definition SATP_SV39 : Z := Z.shiftl 8 60.
Definition MAKE_SATP (pagetable : Z) : Z := Z.lor SATP_SV39 (Z.shiftr pagetable 12).

Definition SSTATUS_SPP : Z := Z.shiftl 1 8.
Definition SSTATUS_SPIE : Z := Z.shiftl 1 5.
Definition SSTATUS_SIE : Z := Z.shiftl 1 1.

(** [flag v f] is the C test [(v & f) != 0]. *)
Definition flag (v f : Z) : bool := negb (Z.land v f =? 0).

(** ** kernel/memlayout.h *)
Definition UART0 : Z := 0x10000000.
Definition UART0_IRQ : Z := 10.
Definition VIRTIO0 : Z := 0x10001000.
Definition VIRTIO0_IRQ : Z := 1.
Definition PLIC : Z := 0x0c000000.
Definition KERNBASE : Z := 0x80000000.
Definition PHYSTOP : Z := KERNBASE + 128 * 1024 * 1024.
Definition TRAMPOLINE : Z := MAXVA - PGSIZE.
Definition KSTACK (p : Z) : Z := TRAMPOLINE - (p + 1) * 2 * PGSIZE.
Definition TRAPFRAME : Z := TRAMPOLINE - PGSIZE.

(** Addresses fixed by kernel.ld and trampoline.S. *)
Class Linker := {
  kend : Z;        (* first address after the kernel, [end] in C *)
  etext : Z;       (* end of kernel code *)
  trampoline : Z;  (* the trampoline page, in the kernel's text *)
}.

(** What kernel.ld guarantees of them. *)
Class LinkerOk {LK : Linker} : Prop := {
  etext_aligned : etext mod PGSIZE = 0;
  etext_range : KERNBASE < etext;
  trampoline_aligned : trampoline mod PGSIZE = 0;
  trampoline_range : KERNBASE <= trampoline < etext;
  kend_range : etext <= kend <= PHYSTOP;
}.

(** [klia] is [lia] with the layout constants computed. *)
Ltac consts :=
  change MAXVA with 274877906944 in *; change PGSIZE with 4096 in *;
  change TRAMPOLINE with 274877902848 in *; change TRAPFRAME with 274877898752 in *;
  change KERNBASE with 2147483648 in *; change PHYSTOP with 2281701376 in *.
Ltac klia := consts; lia.

(** ** Rounding *)

Lemma land_lnot_pow2 a n : 0 <= n -> Z.land a (Z.lnot (2 ^ n - 1)) = a - a mod 2 ^ n.
Proof.
  intros Hn. rewrite <- Z.ldiff_land.
  replace (2 ^ n - 1) with (Z.ones n) by (rewrite Z.ones_equiv; lia).
  rewrite Z.ldiff_ones_r by done. rewrite Z.shiftl_mul_pow2, Z.shiftr_div_pow2 by done.
  pose proof (Z.div_mod a (2 ^ n)). lia.
Qed.

Lemma PGROUNDDOWN_eq a : PGROUNDDOWN a = a - a mod PGSIZE.
Proof. apply (land_lnot_pow2 a 12). lia. Qed.

Lemma PGROUNDUP_eq a : 0 <= a -> a + PGSIZE <= 2 ^ 64 ->
  PGROUNDUP a = (a + (PGSIZE - 1)) - (a + (PGSIZE - 1)) mod PGSIZE.
Proof.
  intros. unfold PGROUNDUP, PGSIZE in *. rewrite u64_id by lia.
  rewrite (land_lnot_pow2 _ 12) by lia. f_equal; [lia|]. f_equal. lia.
Qed.

Lemma PGROUNDDOWN_aligned a : PGROUNDDOWN a mod PGSIZE = 0.
Proof.
  rewrite PGROUNDDOWN_eq. unfold PGSIZE. rewrite Zminus_mod_idemp_r, Z.sub_diag. done.
Qed.

Lemma PGROUNDDOWN_bound a : PGROUNDDOWN a <= a < PGROUNDDOWN a + PGSIZE.
Proof.
  rewrite PGROUNDDOWN_eq. pose proof (Z.mod_pos_bound a PGSIZE). unfold PGSIZE in *. lia.
Qed.

Lemma PGROUNDDOWN_id a : a mod PGSIZE = 0 -> PGROUNDDOWN a = a.
Proof. rewrite PGROUNDDOWN_eq. lia. Qed.

Lemma PGROUNDDOWN_unique p a : p mod PGSIZE = 0 -> p <= a < p + PGSIZE -> PGROUNDDOWN a = p.
Proof.
  intros Hp Ha. rewrite PGROUNDDOWN_eq. unfold PGSIZE in *.
  replace a with (p + (a - p)) by lia.
  rewrite Z.add_mod, Hp, Z.add_0_l, Z.mod_mod by lia. rewrite (Z.mod_small (a - p)); lia.
Qed.

Lemma PGROUNDUP_aligned a : 0 <= a -> a + PGSIZE <= 2 ^ 64 -> PGROUNDUP a mod PGSIZE = 0.
Proof.
  intros. rewrite PGROUNDUP_eq by done. unfold PGSIZE.
  rewrite Zminus_mod_idemp_r, Z.sub_diag. done.
Qed.

Lemma PGROUNDUP_bound a : 0 <= a -> a + PGSIZE <= 2 ^ 64 ->
  a <= PGROUNDUP a < a + PGSIZE.
Proof.
  intros. rewrite PGROUNDUP_eq by done.
  pose proof (Z.mod_pos_bound (a + (PGSIZE - 1)) PGSIZE). unfold PGSIZE in *. lia.
Qed.

Lemma PGROUNDUP_id a : 0 <= a -> a + PGSIZE <= 2 ^ 64 -> a mod PGSIZE = 0 -> PGROUNDUP a = a.
Proof.
  intros H1 H2 H3. pose proof (PGROUNDUP_bound a H1 H2). pose proof (PGROUNDUP_aligned a H1 H2).
  unfold PGSIZE in *. Z.div_mod_to_equations. lia.
Qed.

(** ** Sv39 indices *)

Lemma PX_eq level va : 0 <= level -> PX level va = (va / 2 ^ (12 + 9 * level)) mod 512.
Proof.
  intros. unfold PX, PXSHIFT, PGSHIFT, PXMASK.
  rewrite Z.shiftr_div_pow2 by lia. apply (Z.land_ones _ 9). lia.
Qed.

Lemma PX_bound level va : 0 <= level -> 0 <= PX level va < 512.
Proof. intros. rewrite PX_eq by done. apply Z.mod_pos_bound. lia. Qed.

(** The virtual page number, and the numbers of the level-1 and level-2
    regions that contain it. *)
Definition vpn (va : Z) : Z := va / PGSIZE.

Lemma PX0_vpn va : PX 0 va = vpn va mod 512.
Proof. by rewrite PX_eq. Qed.

Lemma PX1_vpn va : PX 1 va = (vpn va / 512) mod 512.
Proof. rewrite PX_eq by lia. unfold vpn, PGSIZE. by rewrite Z.div_div by lia. Qed.

Lemma PX2_vpn va : 0 <= va < MAXVA -> PX 2 va = vpn va / 512 / 512.
Proof.
  intros. rewrite PX_eq by lia. unfold vpn, PGSIZE. rewrite !Z.div_div by lia.
  change (2 ^ (12 + 9 * 2)) with (4096 * (512 * 512)).
  rewrite Z.mod_small; [done|].
  split; [by apply Z.div_pos; lia|]. apply Z.div_lt_upper_bound; klia.
Qed.

(** ** Page-table entries *)

Lemma shiftl_shiftr_round a n k : 0 <= n -> 0 <= k ->
  Z.shiftl (Z.shiftr a n) k = (a / 2 ^ n) * 2 ^ k.
Proof. intros. by rewrite Z.shiftl_mul_pow2, Z.shiftr_div_pow2. Qed.

Lemma PA2PTE_eq pa : 0 <= pa < 2 ^ 56 -> PA2PTE pa = pa / PGSIZE * 1024.
Proof.
  intros. unfold PA2PTE, PGSIZE. rewrite shiftl_shiftr_round by lia.
  change (2 ^ 12) with 4096. change (2 ^ 10) with 1024.
  rewrite u64_id; [done|]. Z.div_mod_to_equations. lia.
Qed.

(** A multiple of 1024 and ten flag bits occupy disjoint bits. *)
Lemma land_low a f : 0 <= f < 1024 -> a mod 1024 = 0 -> Z.land a f = 0.
Proof.
  intros Hf Ha. apply Z.bits_inj'. intros n Hn. rewrite Z.land_spec, Z.bits_0.
  destruct (Z.lt_ge_cases n 10).
  - replace a with (a / 1024 * 2 ^ 10) by (change (2 ^ 10) with 1024; Z.div_mod_to_equations; lia).
    by rewrite Z.mul_pow2_bits_low by lia.
  - rewrite <- (Z.mod_small f 1024), (Z.mod_pow2_bits_high f 10) by lia.
    by rewrite andb_false_r.
Qed.

Lemma lor_low a f : 0 <= f < 1024 -> a mod 1024 = 0 -> Z.lor a f = a + f.
Proof.
  intros Hf Ha. rewrite <- Z.lxor_lor, <- Z.add_nocarry_lxor by (by apply land_low). done.
Qed.

Lemma land_add_low a f g : 0 <= f < 1024 -> 0 <= g < 1024 -> a mod 1024 = 0 ->
  Z.land (a + f) g = Z.land f g.
Proof.
  intros Hf Hg Ha. rewrite <- lor_low by done.
  by rewrite Z.land_lor_distr_l, (land_low a g), Z.lor_0_l.
Qed.

(** A page-aligned physical address. *)
Definition phys_page (pa : Z) : Prop := pa mod PGSIZE = 0 /\ 0 <= pa < 2 ^ 56.

Lemma PA2PTE_low pa : 0 <= pa < 2 ^ 56 -> PA2PTE pa mod 1024 = 0.
Proof. intros. rewrite PA2PTE_eq by done. apply Z.mod_mul. lia. Qed.

Lemma PA2PTE_bound pa : 0 <= pa < 2 ^ 56 -> 0 <= PA2PTE pa < 2 ^ 54.
Proof.
  intros. rewrite PA2PTE_eq by done. unfold PGSIZE. Z.div_mod_to_equations. lia.
Qed.

(** Unpacking what was packed: the address and the ten low bits of an entry
    built by [PA2PTE(pa) | flags]. *)
Lemma pte_pack pa f : phys_page pa -> 0 <= f < 1024 ->
  PTE2PA (Z.lor (PA2PTE pa) f) = pa /\ PTE_FLAGS (Z.lor (PA2PTE pa) f) = f.
Proof.
  intros [Ha Hp] Hf. rewrite lor_low by (done || by apply PA2PTE_low).
  split.
  - unfold PTE2PA. rewrite shiftl_shiftr_round by lia.
    rewrite PA2PTE_eq by done. change (2 ^ 10) with 1024. change (2 ^ 12) with 4096.
    rewrite Z.div_add_l, (Z.div_small f) by lia. unfold PGSIZE in *.
    rewrite u64_id; Z.div_mod_to_equations; lia.
  - unfold PTE_FLAGS. rewrite land_add_low by (lia || by apply PA2PTE_low).
    change 0x3FF with (Z.ones 10). rewrite Z.land_ones by lia. by apply Z.mod_small.
Qed.

Lemma pte_pack_flag pa f g : phys_page pa -> 0 <= f < 1024 -> 0 <= g < 1024 ->
  Z.land (Z.lor (PA2PTE pa) f) g = Z.land f g.
Proof.
  intros [Ha Hp] Hf Hg. rewrite lor_low by (done || by apply PA2PTE_low).
  apply land_add_low; [done..|]. by apply PA2PTE_low.
Qed.

Lemma pte_pack_bound pa f : phys_page pa -> 0 <= f < 1024 ->
  0 <= Z.lor (PA2PTE pa) f < 2 ^ 64.
Proof.
  intros [Ha Hp] Hf. rewrite lor_low by (done || by apply PA2PTE_low).
  pose proof (PA2PTE_bound pa Hp). lia.
Qed.

(** Every entry decomposes into its address and its flags. *)
Lemma pte_split v : 0 <= v < 2 ^ 54 -> v = Z.lor (PA2PTE (PTE2PA v)) (PTE_FLAGS v).
Proof.
  intros Hv. unfold PTE_FLAGS. change 0x3FF with (Z.ones 10). rewrite Z.land_ones by lia.
  change (2 ^ 10) with 1024.
  assert (PTE2PA v = v / 1024 * 4096) as HE.
  { unfold PTE2PA. rewrite shiftl_shiftr_round by lia.
    change (2 ^ 10) with 1024. change (2 ^ 12) with 4096.
    rewrite u64_id; [done|]. Z.div_mod_to_equations; lia. }
  assert (0 <= v / 1024 * 4096 < 2 ^ 56) by (Z.div_mod_to_equations; lia).
  rewrite HE, lor_low.
  - rewrite PA2PTE_eq by done. unfold PGSIZE. rewrite Z.div_mul by lia.
    Z.div_mod_to_equations; lia.
  - apply Z.mod_pos_bound. lia.
  - by apply PA2PTE_low.
Qed.
