(* ===== verification/Headers.v ===== *)
(** * Constants shared by the kernel and the user programs

    The open modes of kernel/fcntl.h, the file types of kernel/stat.h, the modes
    of [sbrk] of kernel/vm.h, the length of a name of kernel/fs.h and the
    console's device number of kernel/file.h. *)

From S2P Require Import Prelude.

(** ** kernel/fcntl.h *)
Definition O_RDONLY : Z := 0x000.
Definition O_WRONLY : Z := 0x001.
Definition O_RDWR : Z := 0x002.
Definition O_CREATE : Z := 0x200.
Definition O_TRUNC : Z := 0x400.

(** ** kernel/stat.h *)
Definition T_DIR : Z := 1.
Definition T_FILE : Z := 2.
Definition T_DEVICE : Z := 3.

(** ** kernel/vm.h *)
Definition SBRK_EAGER : Z := 1.
Definition SBRK_LAZY : Z := 2.

(** ** kernel/fs.h and kernel/file.h *)
Definition DIRSIZ : Z := 14.
Definition CONSOLE : Z := 1.
