(* ===== verification/Mem.v ===== *)
(** * Byte-addressed memory and kernel/string.c

    Physical memory is a finite map from addresses to bytes; an address that
    was never written reads as zero, and every read is a byte. Words are
    little-endian. The second half translates kernel/string.c statement by
    statement on this memory: pointers are addresses, so the overlap test of
    [memmove] is the comparison the code makes. *)

From S2P Require Import Prelude.

(** ** Loads and stores *)

Definition ld8 (m : gmap Z Z) (a : Z) : Z := u8 (default 0 (m !! a)).
Definition st8 (m : gmap Z Z) (a v : Z) : gmap Z Z := <[a := u8 v]> m.

Fixpoint ldn (n : nat) (m : gmap Z Z) (a : Z) : Z :=
  match n with
  | O => 0
  | S n => ld8 m a + 256 * ldn n m (a + 1)
  end.

Fixpoint stn (n : nat) (m : gmap Z Z) (a v : Z) : gmap Z Z :=
  match n with
  | O => m
  | S n => stn n (st8 m a v) (a + 1) (v / 256)
  end.

Abbreviation ld64 := (ldn 8).
Abbreviation st64 := (stn 8).
Abbreviation ld32 := (ldn 4).
Abbreviation st32 := (stn 4).

(** The [n] bytes at [a], as a list, and a list stored at [a]. *)
Fixpoint ldbytes (m : gmap Z Z) (a : Z) (n : nat) : list Z :=
  match n with
  | O => []
  | S n => ld8 m a :: ldbytes m (a + 1) n
  end.

Fixpoint stbytes (m : gmap Z Z) (a : Z) (l : list Z) : gmap Z Z :=
  match l with
  | [] => m
  | b :: l => stbytes (st8 m a b) (a + 1) l
  end.

(** ** kernel/string.c *)

(** [for(i = 0; i < n; i++) cdst[i] = c;] *)
Fixpoint memset_loop (m : gmap Z Z) (cdst c i : Z) (k : nat) : gmap Z Z :=
  match k with
  | O => m
  | S k => memset_loop (st8 m (cdst + i) c) cdst c (i + 1) k
  end.
Definition memset (m : gmap Z Z) (dst c n : Z) : gmap Z Z :=
  memset_loop m dst c 0 (Z.to_nat n).

Fixpoint memcmp_loop (m : gmap Z Z) (s1 s2 : Z) (n : nat) : Z :=
  match n with
  | O => 0
  | S n =>
      if negb (ld8 m s1 =? ld8 m s2) then ld8 m s1 - ld8 m s2
      else memcmp_loop m (s1 + 1) (s2 + 1) n
  end.
Definition memcmp (m : gmap Z Z) (v1 v2 n : Z) : Z := memcmp_loop m v1 v2 (Z.to_nat n).

(** [while(n-- > 0) *d++ = *s++;] and [while(n-- > 0) *--d = *--s;] *)
Fixpoint copy_forward (m : gmap Z Z) (d s : Z) (n : nat) : gmap Z Z :=
  match n with
  | O => m
  | S n => copy_forward (st8 m d (ld8 m s)) (d + 1) (s + 1) n
  end.
Fixpoint copy_backward (m : gmap Z Z) (d s : Z) (n : nat) : gmap Z Z :=
  match n with
  | O => m
  | S n => copy_backward (st8 m (d - 1) (ld8 m (s - 1))) (d - 1) (s - 1) n
  end.

Definition memmove (m : gmap Z Z) (dst src n : Z) : gmap Z Z :=
  if n =? 0 then m
  else if (src <? dst) && (dst <? src + n)
  then copy_backward m (dst + n) (src + n) (Z.to_nat n)
  else copy_forward m dst src (Z.to_nat n).

Definition memcpy (m : gmap Z Z) (dst src n : Z) : gmap Z Z := memmove m dst src n.

Fixpoint strncmp_loop (m : gmap Z Z) (p q : Z) (n : nat) : Z :=
  match n with
  | O => 0
  | S n' =>
      if negb (ld8 m p =? 0) && (ld8 m p =? ld8 m q)
      then strncmp_loop m (p + 1) (q + 1) n'
      else ld8 m p - ld8 m q
  end.
Definition strncmp (m : gmap Z Z) (p q n : Z) : Z := strncmp_loop m p q (Z.to_nat n).

(** [while(n-- > 0) *s++ = 0;] *)
Fixpoint zero_fill (m : gmap Z Z) (s : Z) (n : nat) : gmap Z Z :=
  match n with
  | O => m
  | S n => zero_fill (st8 m s 0) (s + 1) n
  end.

(** Copy while [n-- > 0] up to and including the NUL, then the padding loop. *)
Fixpoint strncpy_loop (m : gmap Z Z) (s t : Z) (n : nat) : gmap Z Z :=
  match n with
  | O => m
  | S n =>
      let ch := ld8 m t in
      let m := st8 m s ch in
      if ch =? 0 then zero_fill m (s + 1) n
      else strncpy_loop m (s + 1) (t + 1) n
  end.
Definition strncpy (m : gmap Z Z) (s t n : Z) : gmap Z Z := strncpy_loop m s t (Z.to_nat n).

(** Copy while [--n > 0] up to and including the NUL, then [*s = 0;]; [k] is
    the number of iterations that [--n > 0] still allows. When the NUL was
    copied, [s] is already one past it. *)
Fixpoint safestrcpy_loop (m : gmap Z Z) (s t : Z) (k : nat) : gmap Z Z :=
  match k with
  | O => st8 m s 0
  | S k =>
      let ch := ld8 m t in
      let m := st8 m s ch in
      if ch =? 0 then st8 m (s + 1) 0
      else safestrcpy_loop m (s + 1) (t + 1) k
  end.
Definition safestrcpy (m : gmap Z Z) (s t n : Z) : gmap Z Z :=
  if n <=? 0 then m else safestrcpy_loop m s t (Z.to_nat (n - 1)).

(** [for(n = 0; s[n]; n++) ;] the scan stops at the first NUL; [fuel] bounds
    it for a pointer that has none. *)
Fixpoint strlen_loop (fuel : nat) (m : gmap Z Z) (s n : Z) : option Z :=
  match fuel with
  | O => None
  | S fuel => if ld8 m (s + n) =? 0 then Some n else strlen_loop fuel m s (n + 1)
  end.
Definition strlen (fuel : nat) (m : gmap Z Z) (s : Z) : option Z := strlen_loop fuel m s 0.

(** ** Bytes *)

Lemma ld8_bound m a : 0 <= ld8 m a < 256.
Proof. unfold ld8, u8. apply (Z.mod_pos_bound _ 256). lia. Qed.

Lemma ld8_st8 m a v x : ld8 (st8 m a v) x = if decide (a = x) then u8 v else ld8 m x.
Proof.
  unfold ld8, st8. rewrite lookup_insert. case_decide; [|done]. simpl.
  unfold u8. by rewrite Z.mod_mod by lia.
Qed.

Lemma ld8_st8_eq m a v : ld8 (st8 m a v) a = u8 v.
Proof. rewrite ld8_st8. by rewrite decide_True. Qed.

Lemma ld8_st8_ne m a v x : a <> x -> ld8 (st8 m a v) x = ld8 m x.
Proof. intros. rewrite ld8_st8. by rewrite decide_False. Qed.

Lemma u8_ld8 m a : u8 (ld8 m a) = ld8 m a.
Proof. apply u8_id. apply ld8_bound. Qed.

(** ** Words *)

Lemma ldn_bound n m a : 0 <= ldn n m a < 256 ^ Z.of_nat n.
Proof.
  revert a. induction n as [|n IH]; intros a; [simpl; lia|].
  cbn [ldn]. specialize (IH (a + 1)). pose proof (ld8_bound m a).
  rewrite Nat2Z.inj_succ, Z.pow_succ_r by lia. lia.
Qed.

Lemma ldn_ext n m m' a :
  (forall x, a <= x < a + Z.of_nat n -> ld8 m x = ld8 m' x) -> ldn n m a = ldn n m' a.
Proof.
  revert a. induction n as [|n IH]; intros a H; [done|].
  cbn [ldn]. rewrite (H a), (IH (a + 1)); [done| |lia]. intros x Hx. apply H. lia.
Qed.

Lemma ld8_stn_out n m a v x :
  ~ a <= x < a + Z.of_nat n -> ld8 (stn n m a v) x = ld8 m x.
Proof.
  revert m a v. induction n as [|n IH]; intros m a v H; [done|].
  cbn [stn]. rewrite IH by lia. apply ld8_st8_ne. lia.
Qed.

Lemma ld8_stn_in n m m' a v x :
  a <= x < a + Z.of_nat n -> ld8 (stn n m a v) x = ld8 (stn n m' a v) x.
Proof.
  revert m m' a v. induction n as [|n IH]; intros m m' a v Hx; [lia|]. cbn [stn].
  destruct (decide (x = a)) as [->|]; [|apply IH; lia].
  rewrite !ld8_stn_out by lia. by rewrite !ld8_st8_eq.
Qed.

Lemma ldn_stn_eq n m a v : ldn n (stn n m a v) a = v mod 256 ^ Z.of_nat n.
Proof.
  revert m a v. induction n as [|n IH]; intros m a v; [by rewrite Z.mod_1_r|].
  cbn [ldn stn]. rewrite IH. rewrite ld8_stn_out by lia. rewrite ld8_st8_eq.
  rewrite Nat2Z.inj_succ, Z.pow_succ_r by lia. unfold u8.
  rewrite Z.rem_mul_r by lia. done.
Qed.

Lemma ldn_stn_ne n k m a b v :
  a + Z.of_nat n <= b \/ b + Z.of_nat k <= a -> ldn k (stn n m a v) b = ldn k m b.
Proof. intros H. apply ldn_ext. intros x Hx. apply ld8_stn_out. lia. Qed.

Lemma ld64_bound m a : 0 <= ld64 m a < 2 ^ 64.
Proof. apply (ldn_bound 8). Qed.

Lemma ld64_st64_eq m a v : 0 <= v < 2 ^ 64 -> ld64 (st64 m a v) a = v.
Proof. intros H. rewrite ldn_stn_eq. by apply Z.mod_small. Qed.

(** Aligned words are equal or disjoint. *)
Lemma ld64_st64 m a b v : 0 <= v < 2 ^ 64 -> a mod 8 = 0 -> b mod 8 = 0 ->
  ld64 (st64 m a v) b = if decide (a = b) then v else ld64 m b.
Proof.
  intros Hv Ha Hb. case_decide; [subst; by apply ld64_st64_eq|].
  apply ldn_stn_ne. Z.div_mod_to_equations. lia.
Qed.

(** ** Byte strings *)

Lemma length_ldbytes m a n : length (ldbytes m a n) = n.
Proof. revert a. induction n; intros; simpl; auto. Qed.

Lemma lookup_ldbytes m a n i :
  (i < n)%nat -> ldbytes m a n !! i = Some (ld8 m (a + Z.of_nat i)).
Proof.
  revert a i. induction n as [|n IH]; intros a i H; [lia|].
  destruct i; simpl; [by rewrite Z.add_0_r|]. rewrite IH by lia. do 2 f_equal. lia.
Qed.

Lemma ldbytes_ext m m' a n :
  (forall x, a <= x < a + Z.of_nat n -> ld8 m x = ld8 m' x) -> ldbytes m a n = ldbytes m' a n.
Proof.
  revert a. induction n as [|n IH]; intros a H; [done|]. simpl. f_equal; [apply H; lia|].
  apply IH. intros x Hx. apply H. lia.
Qed.

Lemma ld8_stbytes_out m a l x :
  ~ a <= x < a + Z.of_nat (length l) -> ld8 (stbytes m a l) x = ld8 m x.
Proof.
  revert m a. induction l as [|b l IH]; intros m a H; [done|]. cbn [stbytes length] in *.
  rewrite IH by lia. apply ld8_st8_ne. lia.
Qed.

Lemma ldbytes_stbytes m a l : Forall (fun b => 0 <= b < 256) l ->
  ldbytes (stbytes m a l) a (length l) = l.
Proof.
  revert m a. induction l as [|b l IH]; intros m a H; [done|].
  inversion_clear H as [|? ? Hb Hl]. cbn [ldbytes stbytes length].
  f_equal; [|by apply IH]. rewrite ld8_stbytes_out by lia. rewrite ld8_st8_eq. by apply u8_id.
Qed.

(** ** memset *)

Lemma ld8_memset_loop m d c i k x :
  ld8 (memset_loop m d c i k) x =
  if decide (d + i <= x < d + i + Z.of_nat k) then u8 c else ld8 m x.
Proof.
  revert m i. induction k as [|k IH]; intros m i; simpl.
  - rewrite decide_False; [done|lia].
  - rewrite IH, ld8_st8. repeat case_decide; try done; lia.
Qed.

Lemma ld8_memset m d c n x : 0 <= n ->
  ld8 (memset m d c n) x = if decide (d <= x < d + n) then u8 c else ld8 m x.
Proof.
  intros. unfold memset. rewrite ld8_memset_loop. rewrite Z2Nat.id by done.
  rewrite Z.add_0_r. done.
Qed.

Lemma ldn_memset_zero k m d n a : 0 <= n -> d <= a -> a + Z.of_nat k <= d + n ->
  ldn k (memset m d 0 n) a = 0.
Proof.
  intros Hn. revert a. induction k as [|k IH]; intros a H1 H2; [done|].
  cbn [ldn]. rewrite IH by lia. rewrite ld8_memset by done.
  rewrite decide_True by lia. done.
Qed.

Lemma ldn_memset_out k m d c n a : 0 <= n -> a + Z.of_nat k <= d \/ d + n <= a ->
  ldn k (memset m d c n) a = ldn k m a.
Proof.
  intros Hn H. apply ldn_ext. intros x Hx. rewrite ld8_memset by done.
  rewrite decide_False; [done|lia].
Qed.

(** ** memmove *)

Lemma ld8_copy_forward m d s n x : d <= s \/ s + Z.of_nat n <= d ->
  ld8 (copy_forward m d s n) x =
  if decide (d <= x < d + Z.of_nat n) then ld8 m (s + (x - d)) else ld8 m x.
Proof.
  revert m d s. induction n as [|n IH]; intros m d s H; cbn [copy_forward].
  - rewrite decide_False; [done|lia].
  - rewrite IH by lia. rewrite !ld8_st8, u8_ld8.
    repeat case_decide; try lia; try done; f_equal; lia.
Qed.

Lemma ld8_copy_backward m d s n x : s <= d ->
  ld8 (copy_backward m d s n) x =
  if decide (d - Z.of_nat n <= x < d) then ld8 m (s - (d - x)) else ld8 m x.
Proof.
  revert m d s. induction n as [|n IH]; intros m d s H; cbn [copy_backward].
  - rewrite decide_False; [done|lia].
  - rewrite IH by lia. rewrite !ld8_st8, u8_ld8.
    repeat case_decide; try lia; try done; f_equal; lia.
Qed.

Lemma ld8_memmove m d s n x : 0 <= n ->
  ld8 (memmove m d s n) x = if decide (d <= x < d + n) then ld8 m (s + (x - d)) else ld8 m x.
Proof.
  intros Hn. unfold memmove. destruct (Z.eqb_spec n 0).
  { rewrite decide_False; [done|lia]. }
  destruct (_ && _) eqn:E.
  - rewrite ld8_copy_backward by lia. rewrite Z2Nat.id by done.
    repeat case_decide; try lia; try done; f_equal; lia.
  - rewrite ld8_copy_forward by lia. by rewrite Z2Nat.id by done.
Qed.

Lemma ldbytes_memmove m d s n : 0 <= n ->
  ldbytes (memmove m d s n) d (Z.to_nat n) = ldbytes m s (Z.to_nat n).
Proof.
  intros Hn. apply list_eq_same_length with (Z.to_nat n); rewrite ?length_ldbytes; [done..|].
  intros i x y Hi. rewrite !lookup_ldbytes by done. intros [= <-] [= <-].
  rewrite ld8_memmove by done. rewrite decide_True by lia. f_equal. lia.
Qed.

(** From here on the byte loops are used through the lemmas above. *)
#[global] Opaque ldn stn ldbytes stbytes memset memmove.
