(* ===== verification/Strings.v ===== *)
(** * Contracts of kernel/string.c

    [memmove] on overlapping ranges, and the C-string functions against the
    NUL-terminated strings they are meant to handle. *)

From S2P Require Import Prelude Mem.

(** A NUL-terminated string [l] at address [a]. *)
Record cstr (m : gmap Z Z) (a : Z) (l : list Z) : Prop := {
  cs_byte : forall i b, l !! i = Some b -> ld8 m (a + Z.of_nat i) = b /\ b <> 0;
  cs_nul : ld8 m (a + Z.of_nat (length l)) = 0;
}.

Lemma cstr_nil m a : ld8 m a = 0 -> cstr m a [].
Proof. intros H. split; [done|]. by rewrite Z.add_0_r. Qed.

Lemma cstr_cons m a b l : cstr m a (b :: l) <-> ld8 m a = b /\ b <> 0 /\ cstr m (a + 1) l.
Proof.
  split.
  - intros [Hb Hn]. destruct (Hb 0%nat b eq_refl) as [H0 H1]. rewrite Z.add_0_r in H0.
    split_and!; [done..|]. split.
    + intros i x Hi. destruct (Hb (S i) x Hi) as [<- ?]. split; [f_equal; lia|done].
    + rewrite <- Hn. f_equal. simpl. lia.
  - intros (H0 & H1 & [Hb Hn]). split.
    + intros [|i] x Hi; simpl in Hi; [injection Hi as <-; by rewrite Z.add_0_r|].
      destruct (Hb i x Hi) as [<- ?]. split; [f_equal; lia|done].
    + rewrite <- Hn. f_equal. simpl. lia.
Qed.

Lemma cstr_ext m m' a l : (forall x, a <= x <= a + Z.of_nat (length l) -> ld8 m' x = ld8 m x) ->
  cstr m a l -> cstr m' a l.
Proof.
  intros He [Hb Hn]. split.
  - intros i b Hi. pose proof (lookup_lt_Some _ _ _ Hi). rewrite He by lia. by apply Hb.
  - rewrite He by lia. done.
Qed.

(** ** safestrcpy *)

Lemma safestrcpy_loop_out k : forall m s t x, ~ s <= x <= s + Z.of_nat k ->
  ld8 (safestrcpy_loop m s t k) x = ld8 m x.
Proof.
  induction k as [|k IH]; intros m s t x Hx; simpl.
  - apply ld8_st8_ne. lia.
  - destruct (ld8 m t =? 0).
    + rewrite !ld8_st8_ne by lia. done.
    + rewrite IH by lia. apply ld8_st8_ne. lia.
Qed.

Lemma safestrcpy_loop_ok k : forall m s t l, cstr m t l ->
  (s + Z.of_nat k < t \/ t + Z.of_nat (length l) < s) ->
  cstr (safestrcpy_loop m s t k) s (take k l).
Proof.
  induction k as [|k IH]; intros m s t l Hl Hd; simpl.
  { rewrite take_0. apply cstr_nil, ld8_st8_eq. }
  destruct l as [|b l].
  - destruct Hl as [_ Hn]. simpl in Hn. rewrite Z.add_0_r in Hn. rewrite Hn. simpl.
    apply cstr_nil. rewrite ld8_st8_ne by lia. apply ld8_st8_eq.
  - apply cstr_cons in Hl as (E & Hb & Hl). rewrite E. destruct (Z.eqb_spec b 0); [done|].
    rewrite firstn_cons. apply cstr_cons. simpl in Hd. split_and!; [|done|].
    + rewrite safestrcpy_loop_out by lia. rewrite ld8_st8_eq. rewrite <- E. apply u8_id, ld8_bound.
    + apply IH; [|lia]. eapply cstr_ext; [|exact Hl]. intros x Hx. apply ld8_st8_ne. lia.
Qed.

(** [safestrcpy] into a buffer of [n] bytes that does not overlap the
    source string stores as much of the string as fits, always terminated, and
    writes nothing outside the buffer. *)
Theorem safestrcpy_spec m s t n l : cstr m t l -> 0 < n ->
  (s + n <= t \/ t + Z.of_nat (length l) < s) ->
  cstr (safestrcpy m s t n) s (take (Z.to_nat (n - 1)) l) /\
  forall x, ~ s <= x < s + n -> ld8 (safestrcpy m s t n) x = ld8 m x.
Proof.
  intros Hl Hn Hd. unfold safestrcpy. destruct (Z.leb_spec n 0); [lia|]. split.
  - apply safestrcpy_loop_ok; [done|lia].
  - intros x Hx. apply safestrcpy_loop_out. lia.
Qed.

(** [memmove] copies correctly whatever the overlap of source and
    destination: each destination byte becomes the byte the source held before
    the call, and no other byte changes. *)
Theorem memmove_spec m dst src n : 0 <= n ->
  (forall i, 0 <= i < n -> ld8 (memmove m dst src n) (dst + i) = ld8 m (src + i)) /\
  (forall x, ~ dst <= x < dst + n -> ld8 (memmove m dst src n) x = ld8 m x).
Proof.
  intros Hn. split; intros; rewrite ld8_memmove by done.
  - rewrite decide_True by lia. f_equal. lia.
  - by rewrite decide_False by lia.
Qed.

(** ** strlen and strncmp *)

Lemma strlen_loop_ok l : forall fuel m s n, cstr m (s + n) l -> (length l < fuel)%nat ->
  strlen_loop fuel m s n = Some (n + Z.of_nat (length l)).
Proof.
  induction l as [|b l IH]; intros [|fuel] m s n Hl Hf; simpl in Hf; try lia; cbn [strlen_loop].
  - destruct Hl as [_ Hn]. simpl in Hn. rewrite Z.add_0_r in Hn. rewrite Hn. simpl. f_equal. lia.
  - apply cstr_cons in Hl as (-> & Hb & Hl). destruct (Z.eqb_spec b 0); [done|].
    rewrite IH; [f_equal; simpl; lia| |lia]. by rewrite Z.add_assoc.
Qed.

(** Bytes compared as the kernel does, up to a NUL or the bound. *)
Lemma strncmp_loop_eq a : forall n m p q b, cstr m p a -> cstr m q b ->
  (strncmp_loop m p q n = 0 <-> take n a = take n b).
Proof.
  induction a as [|x a IH]; intros [|n] m p q b Ha Hb; simpl; try done.
  - destruct Ha as [_ Hn]. simpl in Hn. rewrite Z.add_0_r in Hn. rewrite Hn. simpl.
    destruct b as [|y b]; simpl.
    + destruct Hb as [_ Hn']. simpl in Hn'. rewrite Z.add_0_r in Hn'. rewrite Hn'. done.
    + apply cstr_cons in Hb as (-> & Hy & _). split; [lia|done].
  - apply cstr_cons in Ha as (-> & Hx & Ha). destruct (Z.eqb_spec x 0); [done|]. simpl.
    destruct b as [|y b]; simpl.
    + destruct Hb as [_ Hn']. simpl in Hn'. rewrite Z.add_0_r in Hn'. rewrite Hn'.
      destruct (Z.eqb_spec x 0); [done|]. split; [lia|done].
    + apply cstr_cons in Hb as (-> & Hy & Hb). destruct (Z.eqb_spec x y) as [->|Hne].
      * rewrite IH by done. split; [by intros ->|by intros [=]].
      * split; [lia|]. intros [= ? ?]. done.
Qed.

(** [strncmp] of two strings returns 0 exactly when they agree up to the
    bound, and [strlen] returns the length of its string. *)
Theorem strncmp_strlen_spec m p q a b n : cstr m p a -> cstr m q b ->
  (strncmp m p q n = 0 <-> take (Z.to_nat n) a = take (Z.to_nat n) b) /\
  strlen (S (length a)) m p = Some (Z.of_nat (length a)).
Proof.
  intros Ha Hb. split; [by apply strncmp_loop_eq|].
  unfold strlen. rewrite (strlen_loop_ok a); [done|by rewrite Z.add_0_r|lia].
Qed.

Module Demo.
(** "ab" at address 16 and "abc" at address 32. *)
Definition m : gmap Z Z := st8 (st8 (st8 (st8 (st8 ∅ 16 97) 17 98) 32 97) 33 98) 34 99.

Lemma ab : cstr m 16 [97; 98].
Proof. split; [intros [|[|i]] b [= <-]; vm_compute; split; congruence|vm_compute; done]. Qed.

Lemma abc : cstr m 32 [97; 98; 99].
Proof. split; [intros [|[|[|i]]] b [= <-]; vm_compute; split; congruence|vm_compute; done]. Qed.

Lemma safestrcpy_spec_witness : cstr (safestrcpy m 64 32 3) 64 [97; 98].
Proof. apply (safestrcpy_spec m 64 32 3 [97; 98; 99] abc); [lia|simpl; lia]. Defined.

Lemma memmove_spec_witness : ld8 (memmove m 33 32 3) (33 + 2) = 99.
Proof. rewrite (proj1 (memmove_spec m 33 32 3 ltac:(lia))) by lia. vm_compute. reflexivity. Defined.

Lemma strncmp_strlen_spec_witness : strncmp m 16 32 2 = 0 /\ strlen 3 m 16 = Some 2.
Proof.
  destruct (strncmp_strlen_spec m 16 32 _ _ 2 ab abc) as [H1 H2].
  split; [apply H1; reflexivity|exact H2].
Defined.
End Demo.
