(* ===== verification/Printf.v ===== *)
(** * Formatted output: kernel/printf.c and user/printf.c

    What [printf] sends to the console, or [vprintf] to a descriptor, as a
    list of bytes. Conversions take their arguments in order; an argument is
    a 64-bit slot or a string. The theorems are that [printint] prints the
    number it is given and stays inside its buffer, and that the two loops over
    the format print the same bytes apart from the case of hexadecimal
    digits. *)

From S2P Require Import Prelude.
From Stdlib Require Import Ascii.

(** Characters by their codes. *)
Definition ch_percent : Z := 37.
Definition ch_minus : Z := 45.
Definition ch_0 : Z := 48.
Definition ch_c : Z := 99.
Definition ch_d : Z := 100.
Definition ch_l : Z := 108.
Definition ch_p : Z := 112.
Definition ch_s : Z := 115.
Definition ch_u : Z := 117.
Definition ch_x : Z := 120.

(** The bytes of a string literal. *)
Fixpoint str (s : string) : list Z :=
  match s with
  | String.EmptyString => []
  | String.String c s => Z.of_N (N_of_ascii c) :: str s
  end.

(** The arguments: integers as the bits of their slot, strings or a null
    pointer. *)
Inductive vararg := VInt (v : Z) | VStr (s : option (list Z)).

(** ["(null)"] *)
Definition null_str : list Z := [40; 110; 117; 108; 108; 41].

Definition u64_digits : nat := 16.

Section printf.
(** [digits[]]: the character of a digit. *)
Variable digit : Z -> Z.

(** [do { buf[i++] = digits[x % base]; } while((x /= base) != 0);] the buffer
    from its first byte on. *)
Fixpoint digits_loop (fuel : nat) (x base : Z) : option (list Z) :=
  match fuel with
  | O => None
  | S fuel =>
      let d := digit (x mod base) in
      let x := x / base in
      if negb (x =? 0) then (d ::.) <$> digits_loop fuel x base else Some [d]
  end.

(** The bytes of [buf], and what is printed of them: the last first. *)
Definition printint_buf (xx base : Z) (sign : bool) : option (list Z) :=
  let neg := sign && (xx <? 0) in
  let x := if neg then u64 (- xx) else u64 xx in
  buf ← digits_loop 64 x base;
  Some (if neg then buf ++ [ch_minus] else buf).
Definition printint (xx base : Z) (sign : bool) : option (list Z) := reverse <$> printint_buf xx base sign.

(** [for (i = 0; i < sizeof(uint64) * 2; i++, x <<= 4) ... x >> 60] *)
Fixpoint printptr_loop (k : nat) (x : Z) : list Z :=
  match k with
  | O => []
  | S k => digit (Z.shiftr x 60) :: printptr_loop k (u64 (Z.shiftl x 4))
  end.
Definition printptr (x : Z) : list Z := ch_0 :: ch_x :: printptr_loop u64_digits x.

(** One conversion, on the characters [c0], [c1] and [c2] after the percent
    sign: what is printed, the arguments left, and by how much [i] moves. *)
Definition int_arg (conv : Z -> Z) (base : Z) (sign : bool) (skip : nat) (ap : list vararg) : option (list Z * list vararg * nat) :=
  match ap with
  | VInt v :: ap => out ← printint (conv v) base sign; Some (out, ap, skip)
  | _ => None
  end.
Definition convert (c0 c1 c2 : Z) (ap : list vararg) : option (list Z * list vararg * nat) :=
  if c0 =? ch_d then int_arg i32 10 true 0 ap
  else if (c0 =? ch_l) && (c1 =? ch_d) then int_arg i64 10 true 1 ap
  else if (c0 =? ch_l) && (c1 =? ch_l) && (c2 =? ch_d) then int_arg i64 10 true 2 ap
  else if c0 =? ch_u then int_arg u32 10 false 0 ap
  else if (c0 =? ch_l) && (c1 =? ch_u) then int_arg i64 10 false 1 ap
  else if (c0 =? ch_l) && (c1 =? ch_l) && (c2 =? ch_u) then int_arg i64 10 false 2 ap
  else if c0 =? ch_x then int_arg u32 16 false 0 ap
  else if (c0 =? ch_l) && (c1 =? ch_x) then int_arg i64 16 false 1 ap
  else if (c0 =? ch_l) && (c1 =? ch_l) && (c2 =? ch_x) then int_arg i64 16 false 2 ap
  else if c0 =? ch_p then match ap with VInt v :: ap => Some (printptr (u64 v), ap, 0%nat) | _ => None end
  else if c0 =? ch_c then match ap with VInt v :: ap => Some ([u8 v], ap, 0%nat) | _ => None end
  else if c0 =? ch_s then match ap with VStr s :: ap => Some (default null_str s, ap, 0%nat) | _ => None end
  else if c0 =? ch_percent then Some ([ch_percent], ap, 0%nat)
  else Some ([ch_percent; c0], ap, 0%nat).

(** The format is a string: its bytes are not 0, and it is followed by one. *)
Definition fmt_at (fmt : list Z) (i : nat) : Z := default 0 (fmt !! i).
(** [c1 = c2 = 0; if(c0) c1 = fmt[i+1]; if(c1) c2 = fmt[i+2];] *)
Definition next_chars (fmt : list Z) (i : nat) : Z * Z * Z :=
  let c0 := fmt_at fmt i in
  let c1 := if c0 =? 0 then 0 else fmt_at fmt (i + 1) in
  let c2 := if c1 =? 0 then 0 else fmt_at fmt (i + 2) in
  (c0, c1, c2).

(** [printf] of the kernel. Each turn moves [i], so that a turn per byte of the
    format is enough. *)
Fixpoint printf_loop (fuel : nat) (fmt : list Z) (i : nat) (ap : list vararg) : option (list Z) :=
  match fuel with
  | O => None
  | S fuel =>
      let cx := fmt_at fmt i in
      if cx =? 0 then Some []
      else if negb (cx =? ch_percent) then (cx ::.) <$> printf_loop fuel fmt (S i) ap
      else
        let i := S i in
        let '(c0, c1, c2) := next_chars fmt i in
        if c0 =? 0 then Some []
        else
          r ← convert c0 c1 c2 ap;
          let '(out, ap, skip) := r in
          (out ++.) <$> printf_loop fuel fmt (S (i + skip)) ap
  end.
Definition printf (fmt : list Z) (ap : list vararg) : option (list Z) := printf_loop (S (length fmt)) fmt 0 ap.

(** [vprintf] of the user library: [percent] is [state == '%']. *)
Fixpoint vprintf_loop (fuel : nat) (fmt : list Z) (i : nat) (percent : bool) (ap : list vararg) : option (list Z) :=
  match fuel with
  | O => None
  | S fuel =>
      let '(c0, c1, c2) := next_chars fmt i in
      if c0 =? 0 then Some []
      else if negb percent then
        if c0 =? ch_percent then vprintf_loop fuel fmt (S i) true ap
        else (c0 ::.) <$> vprintf_loop fuel fmt (S i) false ap
      else
        r ← convert c0 c1 c2 ap;
        let '(out, ap, skip) := r in
        (out ++.) <$> vprintf_loop fuel fmt (S (i + skip)) false ap
  end.
Definition vprintf (fmt : list Z) (ap : list vararg) : option (list Z) := vprintf_loop (S (length fmt)) fmt 0 false ap.
End printf.

(** ["0123456789abcdef"] and ["0123456789ABCDEF"]. *)
Definition digits_lower (d : Z) : Z := if d <? 10 then 48 + d else 87 + d.
Definition digits_upper (d : Z) : Z := if d <? 10 then 48 + d else 55 + d.

(** ** Numbers *)

(** The value of digits, the least significant first. *)
Definition value (base : Z) (ds : list Z) : Z := foldr (fun d v => d + base * v) 0 ds.

(** The digits of [x] in [base], the least significant first: no more than
    needed, and a single zero for zero. *)
Definition numeral (base x : Z) (ds : list Z) : Prop :=
  value base ds = x /\ Forall (fun d => 0 <= d < base) ds /\ ds <> [] /\ (last ds = Some 0 -> ds = [0]).

Lemma digits_loop_run digit base : 2 <= base -> forall fuel x n, 0 <= x < base ^ Z.of_nat n -> (0 < n <= fuel)%nat ->
  exists ds, digits_loop digit fuel x base = Some (digit <$> ds) /\ numeral base x ds /\ (length ds <= n)%nat.
Proof.
  intros Hb. induction fuel as [|fuel IH]; intros x n Hx Hn; [lia|]. cbn [digits_loop]. cbv zeta.
  pose proof (Z.mod_pos_bound x base ltac:(lia)) as Hm. pose proof (Z.div_mod x base ltac:(lia)) as Hd.
  destruct (x / base =? 0) eqn:E; cbn [negb].
  - apply Z.eqb_eq in E. exists [x mod base]. split; [done|]. split; [|cbn; lia].
    split_and!; cbn; [lia|by apply Forall_singleton|done|]. by intros [= ->].
  - apply Z.eqb_neq in E. assert (0 <= x / base) by (apply Z.div_pos; lia).
    destruct n as [|n]; [lia|]. rewrite Nat2Z.inj_succ, Z.pow_succ_r in Hx by lia.
    assert (x / base < base ^ Z.of_nat n) by (apply Z.div_lt_upper_bound; lia).
    assert (Hn0 : (0 < n)%nat) by (destruct n; [cbn in *; lia|lia]).
    destruct (IH (x / base) n) as (ds & -> & (Hv & Hf & Hne & Hl) & Hlen); [lia..|].
    exists (x mod base :: ds). split; [done|]. split; [|cbn; lia]. split_and!; [change (x mod base + base * value base ds = x); lia|by constructor|done|].
    destruct ds as [|d ds]; [done|]. rewrite last_cons_cons. intros Hz. specialize (Hl Hz). simplify_eq. cbn in Hv. lia.
Qed.

(** C38: [printint] prints exactly its argument. For every 64-bit [xx], in base
    10 or 16, signed or not, it prints a minus sign when the argument is signed
    and negative and then the digits of the magnitude, the most significant
    first and without leading zeros; the magnitude of the least integer is
    right although its negation overflows, and the 20 bytes of [buf] are
    enough. *)
Theorem printint_spec digit xx base sign : - 2 ^ 63 <= xx < 2 ^ 63 -> base = 10 \/ base = 16 ->
  let neg := sign && (xx <? 0) in
  exists ds buf, printint_buf digit xx base sign = Some buf /\ (length buf <= 20)%nat /\
    printint digit xx base sign = Some ((if neg then [ch_minus] else []) ++ (digit <$> reverse ds)) /\
    numeral base (if neg then - xx else u64 xx) ds.
Proof.
  intros Hx Hb neg.
  assert (Hm : exists x, (if neg then u64 (- xx) else u64 xx) = x /\ x = (if neg then - xx else u64 xx) /\ 0 <= x < 2 ^ 64 /\ (neg = true -> x <= 2 ^ 63)).
  { eexists. split; [done|]. unfold neg. destruct (sign && (xx <? 0)) eqn:E.
    - apply andb_true_iff in E as [_ E%Z.ltb_lt]. rewrite u64_id by lia. lia.
    - split; [done|]. split; [apply u64_bound|done]. }
  destruct Hm as (x & Hx1 & Hx2 & Hxb & Hneg).
  assert (Hn : exists n, x < base ^ Z.of_nat n /\ (0 < n)%nat /\ (n + (if neg then 1 else 0) <= 20)%nat).
  { destruct neg.
    - exists 19%nat. split; [|lia]. specialize (Hneg eq_refl). destruct Hb as [-> | ->]; lia.
    - exists 20%nat. split; [|lia]. destruct Hb as [-> | ->]; lia. }
  destruct Hn as (n & Hn1 & Hn2 & Hn3).
  destruct (digits_loop_run digit base ltac:(lia) 64 x n ltac:(lia) ltac:(lia)) as (ds & Hd & Hnum & Hlen).
  exists ds, (if neg then (digit <$> ds) ++ [ch_minus] else digit <$> ds).
  assert (Hbuf : printint_buf digit xx base sign = Some (if neg then (digit <$> ds) ++ [ch_minus] else digit <$> ds)).
  { unfold printint_buf. fold neg. cbv zeta. by rewrite Hx1, Hd. }
  split_and!; [done| | |by rewrite <- Hx2].
  - destruct neg; rewrite ?length_app, length_fmap; cbn; lia.
  - unfold printint. rewrite Hbuf. cbn. f_equal. rewrite fmap_reverse. destruct neg; [|done]. by rewrite reverse_snoc.
Qed.

(** ** The two loops *)

Lemma fmt_at_ge fmt i : (length fmt <= i)%nat -> fmt_at fmt i = 0.
Proof. intros H. unfold fmt_at. by rewrite lookup_ge_None_2. Qed.

(** The loops agree from every position, given a turn for each byte left. *)
Lemma loops_agree digit fmt : forall n i ap fuel fuel', (length fmt - i <= n)%nat -> (n < fuel)%nat -> (n < fuel')%nat ->
  printf_loop digit fuel fmt i ap = vprintf_loop digit fuel' fmt i false ap.
Proof.
  induction n as [n IH] using lt_wf_ind. intros i ap fuel fuel' Hn Hf Hf'.
  destruct fuel as [|fuel], fuel' as [|fuel']; [lia..|]. cbn [printf_loop vprintf_loop]. unfold next_chars at 2.
  destruct (fmt_at fmt i =? 0) eqn:E0; [done|]. cbn [negb].
  assert (Hi : (i < length fmt)%nat) by (destruct (decide (i < length fmt)%nat); [done|]; rewrite fmt_at_ge in E0 by lia; done).
  destruct (fmt_at fmt i =? ch_percent) eqn:Ep; cbn [negb].
  2: { f_equal. apply (IH (n - 1)%nat); lia. }
  destruct fuel' as [|fuel']; [lia|]. cbn [vprintf_loop].
  destruct (next_chars fmt (S i)) as [[c0 c1] c2] eqn:En. destruct (c0 =? 0) eqn:Ec; [done|]. cbn [negb].
  assert (Hs : (S i < length fmt)%nat).
  { unfold next_chars in En. destruct (decide (S i < length fmt)%nat); [done|]. rewrite fmt_at_ge in En by lia.
    injection En as <- _ _. done. }
  destruct (convert digit c0 c1 c2 ap) as [[[out ap'] skip]|]; [|done]. cbn.
  f_equal. apply (IH (n - 2)%nat); lia.
Qed.

(** The kernel's [printf] and the user library's [vprintf] print the same
    bytes for every format and every list of arguments, given the same digits,
    and need one turn of their loops for each byte of the format at most:
    lookahead, unknown conversions and a trailing percent sign included. *)
Theorem printf_vprintf_agree digit fmt ap : printf digit fmt ap = vprintf digit fmt ap.
Proof. apply (loops_agree digit fmt (length fmt)); lia. Qed.

Module Demo.
(** The least integer in decimal, and a mixed format. *)
Lemma printint_spec_witness : exists ds, printint digits_lower (- 2 ^ 63) 10 true = Some (ch_minus :: (digits_lower <$> reverse ds)) /\
  numeral 10 (2 ^ 63) ds.
Proof.
  destruct (printint_spec digits_lower (- 2 ^ 63) 10 true) as (ds & buf & _ & _ & H & Hn); [lia|by left|].
  exists ds. split; [exact H|exact Hn].
Defined.
End Demo.
