(* ===== verification/KPrintf.v ===== *)
(** * Printing and panicking: kernel/printf.c with the output of kernel/uart.c

    The threads of control of the kernel that print to the console, interleaved
    at every access to the flags [panicking] and [panicked], to the lock [pr]
    and to the transmitter: [printf] and [panic] through [uartputc_sync], and
    [uartwrite], which sends what user processes write. Before a panic the
    messages of [printf] do not mix; a thread that panics prints its message
    without waiting for the lock, even when it is the one that holds it; and once
    it has frozen the console no thread prints more than the byte it is in the
    middle of sending, while [uartwrite], which does not look at [panicked],
    goes on. *)

From S2P Require Import Prelude Printf.

(** ** The threads *)

(** Where [printf] returns to: its caller, or [panic], which prints the message
    [s] next, or which stops after it. *)
Inductive back := ToCaller | ToPanic (s : list Z) | ToFreeze.

(** Where a thread is, with the bytes it has still to print: in other code; at
    the beginning of [printf]; in [acquire]; in the loop over the format; in
    [uartputc_sync] before the test of [panicked], before the byte is sent, and
    after it; in an endless loop; in the loop of [uartwrite]. *)
Inductive at_ :=
| Run
| Enter (bs : list Z) (r : back)
| Lock (bs : list Z) (r : back)
| Next (bs : list Z) (r : back)
| Sync (bs : list Z) (r : back)
| Send (bs : list Z) (r : back)
| Sent (bs : list Z) (r : back)
| Stop
| Write (bs : list Z).

(** The globals of printf.c, the bytes that [uartputc_sync] has sent with the
    threads that sent them, for each thread where it is and how often it has
    turned interrupts off without turning them on again; and for [uartwrite],
    [tx_busy] and the bytes it has sent. *)
Record pst := Pst {
  panicking : bool; panicked : bool; owner : option Z; tx : list (Z * Z); ats : gmap Z at_; offs : gmap Z Z;
  tx_busy : bool; written : list (Z * Z);
}.

Definition at_of (s : pst) (i : Z) : at_ := default Run (ats s !! i).
Definition off (s : pst) (i : Z) : Z := default 0 (offs s !! i).
Definition go (i : Z) (p : at_) (s : pst) : pst := Pst (panicking s) (panicked s) (owner s) (tx s) (<[i := p]> (ats s)) (offs s) (tx_busy s) (written s).
Definition nest (i n : Z) (s : pst) : pst := Pst (panicking s) (panicked s) (owner s) (tx s) (ats s) (<[i := off s i + n]> (offs s)) (tx_busy s) (written s).
Definition own (o : option Z) (s : pst) : pst := Pst (panicking s) (panicked s) o (tx s) (ats s) (offs s) (tx_busy s) (written s).
Definition send (i c : Z) (s : pst) : pst := Pst (panicking s) (panicked s) (owner s) (tx s ++ [(i, c)]) (ats s) (offs s) (tx_busy s) (written s).

Definition busy (b : bool) (s : pst) : pst := Pst (panicking s) (panicked s) (owner s) (tx s) (ats s) (offs s) b (written s).
Definition write (i c : Z) (s : pst) : pst :=
  Pst (panicking s) (panicked s) (owner s) (tx s) (ats s) (offs s) (tx_busy s) (written s ++ [(i, c)]).

(** The bytes of a [printf] of the kernel; every format ends. *)
Definition bytes (fmt : list Z) (ap : list vararg) : list Z := default [] (printf digits_lower fmt ap).

(** [panic(msg)] up to its first [printf]. *)
Definition panic_begin (i : Z) (msg : list Z) (s : pst) : pst :=
  go i (Enter (bytes (str "panic: ") []) (ToPanic msg)) (Pst true (panicked s) (owner s) (tx s) (ats s) (offs s) (tx_busy s) (written s)).

(** After a [printf]: the second [printf] of [panic], and its end. *)
Definition panic_next (i : Z) (r : back) (s : pst) : pst :=
  match r with
  | ToCaller => go i Run s
  | ToPanic msg => go i (Enter (bytes (str "%s" ++ [10]) [VStr (Some msg)]) ToFreeze) s
  | ToFreeze => go i Stop (Pst (panicking s) true (owner s) (tx s) (ats s) (offs s) (tx_busy s) (written s))
  end.

(** One access of [uartputc_sync(c)]: the test of [panicking] and [push_off],
    the test of [panicked], the byte when the transmitter is idle, the second
    test of [panicking] and [pop_off]. *)
Definition sync_step (i : Z) (s : pst) : option pst :=
  match at_of s i with
  | Next (c :: bs) r => Some (go i (Sync (c :: bs) r) (if panicking s then s else nest i 1 s))
  | Sync bs r => Some (go i (if panicked s then Stop else Send bs r) s)
  | Send (c :: bs) r => Some (go i (Sent bs r) (send i c s))
  | Sent bs r => Some (go i (Next bs r) (if panicking s then s else nest i (-1) s))
  | _ => None
  end.

(** One access of [printf] outside [uartputc_sync]: the test of [panicking] and
    the beginning of [acquire], a turn of its loop, and at the end of the format
    the test and [release]. *)
Definition printf_step (i : Z) (s : pst) : option pst :=
  match at_of s i with
  | Enter bs r =>
      if panicking s then Some (go i (Next bs r) s)
      else
        let s := nest i 1 s in
        if bool_decide (owner s = Some i) then Some (panic_begin i (str "acquire") s) else Some (go i (Lock bs r) s)
  | Lock bs r => match owner s with None => Some (go i (Next bs r) (own (Some i) s)) | Some _ => None end
  | Next [] r =>
      if panicking s then Some (panic_next i r s)
      else if negb (bool_decide (owner s = Some i)) then Some (panic_begin i (str "release") s)
      else Some (panic_next i r (nest i (-1) (own None s)))
  | _ => None
  end.

(** One turn of the loop of [uartwrite], under [tx_lock]; while the transmitter
    is busy the thread sleeps. *)
Definition write_step (i : Z) (s : pst) : option pst :=
  match at_of s i with
  | Write [] => Some (go i Run s)
  | Write (c :: bs) => if tx_busy s then None else Some (go i (Write bs) (busy true (write i c s)))
  | _ => None
  end.

Definition advance (i : Z) (s : pst) : option pst :=
  match printf_step i s with
  | Some s => Some s
  | None => match sync_step i s with Some s => Some s | None => write_step i s end
  end.

(** A thread in other code may call [printf] or [uartwrite]; any thread that has
    not stopped may panic, in the middle of a [printf] too; and [uartintr] finds
    that the transmitter is done. *)
Inductive step : pst -> Z -> pst -> Prop :=
| st_printf s i fmt ap bs : at_of s i = Run -> printf digits_lower fmt ap = Some bs -> step s i (go i (Enter bs ToCaller) s)
| st_uartwrite s i bs : at_of s i = Run -> step s i (go i (Write bs) s)
| st_uartintr s i : step s i (busy false s)
| st_panic s i msg : at_of s i <> Stop -> step s i (panic_begin i msg s)
| st_advance s i s' : advance i s = Some s' -> step s i s'.

(** ** Before a panic *)

Definition pst0 : pst := Pst false false None [] ∅ ∅ false [].

(** A message whose [printf] takes the lock in this step. *)
Definition taken (i : Z) (s s' : pst) : list (Z * list Z) :=
  match at_of s i, at_of s' i with Lock bs _, Next _ _ => [(i, bs)] | _, _ => [] end.
(** The states that can be reached, with the messages so far in the order in
    which they took the lock. *)
Inductive reach : list (Z * list Z) -> pst -> Prop :=
| reach_0 : reach [] pst0
| reach_step l s i s' : reach l s -> step s i s' -> reach (l ++ taken i s s') s'.

(** The bytes of messages, with their threads. *)
Definition tag (m : Z * list Z) : list (Z * Z) := (m.1,.) <$> m.2.
Definition whole (l : list (Z * list Z)) : list (Z * Z) := mjoin (tag <$> l).

Lemma messages_snoc l m : whole (l ++ [m]) = whole l ++ tag m.
Proof. unfold whole. rewrite fmap_app, join_app. cbn. by rewrite app_nil_r. Qed.

(** The bytes left to print inside the lock, and how often interrupts are off. *)
Definition printing (p : at_) : option (list Z) :=
  match p with Next bs _ | Sync bs _ | Send bs _ | Sent bs _ => Some bs | _ => None end.
Definition depth (p : at_) : Z := match p with Lock _ _ | Next _ _ => 1 | Sync _ _ | Send _ _ | Sent _ _ => 2 | _ => 0 end.
Definition plain (p : at_) : Prop :=
  match p with
  | Run | Write _ => True
  | Enter _ r | Lock _ r | Next _ r | Sync _ r | Send _ r | Sent _ r => r = ToCaller
  | Stop => False
  end.

(** The output is the whole messages before [m], and [m] but for what is left. *)
Definition output (l : list (Z * list Z)) (s : pst) : Prop :=
  match owner s with
  | None => tx s = whole l
  | Some i => exists l0 done left, printing (at_of s i) = Some left /\ l = l0 ++ [(i, done ++ left)] /\ tx s = whole l0 ++ tag (i, done)
  end.
Record calm (l : list (Z * list Z)) (s : pst) : Prop := {
  calm_panicked : panicked s = false;
  calm_plain i : plain (at_of s i);
  calm_owner i : is_Some (printing (at_of s i)) -> owner s = Some i;
  calm_off i : off s i = depth (at_of s i);
  calm_output : output l s;
}.

(** *** Lookups *)

Lemma at_go i p s j : at_of (go i p s) j = if decide (j = i) then p else at_of s j.
Proof. unfold at_of, go. cbn. case_decide; subst; by simplify_map_eq. Qed.
Lemma at_go_eq i p s : at_of (go i p s) i = p.
Proof. rewrite at_go. by rewrite decide_True. Qed.
Lemma off_nest i n s j : off (nest i n s) j = if decide (j = i) then off s i + n else off s j.
Proof. unfold off, nest. cbn. case_decide; subst; by simplify_map_eq. Qed.
Lemma off_go i p s j : off (go i p s) j = off s j.
Proof. done. Qed.
Lemma at_nest i n s j : at_of (nest i n s) j = at_of s j.
Proof. done. Qed.
Lemma at_own o s j : at_of (own o s) j = at_of s j.
Proof. done. Qed.
Lemma at_send i c s j : at_of (send i c s) j = at_of s j.
Proof. done. Qed.
Lemma off_own o s j : off (own o s) j = off s j.
Proof. done. Qed.
Lemma off_send i c s j : off (send i c s) j = off s j.
Proof. done. Qed.

Lemma at_busy b s j : at_of (busy b s) j = at_of s j.
Proof. done. Qed.
Lemma at_write i c s j : at_of (write i c s) j = at_of s j.
Proof. done. Qed.

Create Rewrite HintDb kpr.
#[export] Hint Rewrite at_go off_nest off_go at_nest at_own at_send off_own off_send at_busy at_write : kpr.
Ltac kpr := cbn [panicking panicked owner tx go nest own send busy write] in *; autorewrite with kpr in *.

(** The flags are never cleared. *)
Lemma advance_cases i s s' : advance i s = Some s' -> printf_step i s = Some s' \/ sync_step i s = Some s' \/ write_step i s = Some s'.
Proof. unfold advance. destruct (printf_step i s), (sync_step i s); naive_solver. Qed.

Lemma step_panicking s i s' : step s i s' -> panicking s' = false -> panicking s = false.
Proof.
  intros [s0 j fmt ap bs _ _|s0 j bs _|s0 j|s0 j msg _|s0 j s1 H] Hp; [done..|].
  apply advance_cases in H as [H|[H|H]]; unfold printf_step, sync_step, write_step, panic_next in H; repeat case_match; simplify_eq/=; congruence.
Qed.

(** *** The steps before a panic *)

(** A thread moves and keeps what it has left to print. *)
Lemma output_go l s i p : printing p = printing (at_of s i) -> output l s -> output l (go i p s).
Proof.
  intros Hp. unfold output. kpr. destruct (owner s) as [j|]; [|done]. intros (l0 & done & left & H & Hl & Ht).
  exists l0, done, left. split_and!; [|done..]. kpr. case_decide; subst; congruence.
Qed.
Lemma output_nest l s i n : output l s -> output l (nest i n s).
Proof. done. Qed.

Lemma calm_go l s i p n : calm l s -> plain p -> printing p = printing (at_of s i) -> depth p = depth (at_of s i) + n ->
  calm l (go i p (nest i n s)).
Proof.
  intros [H1 H2 H3 H4 H5] Hp Hpr Hd. split; kpr.
  - done.
  - intros j. kpr. case_decide; [done|apply H2].
  - intros j. kpr. case_decide; [subst; rewrite Hpr|]; apply H3.
  - intros j. kpr. case_decide; [|apply H4]. rewrite H4. lia.
  - apply output_go; [done|]. by apply output_nest.
Qed.
Lemma nest_0 l s i p : calm l (go i p (nest i 0 s)) -> calm l (go i p s).
Proof.
  intros [H1 H2 H3 H4 H5]. split; try done. intros j. specialize (H4 j). kpr. case_decide; subst; lia.
Qed.
Lemma calm_go_0 l s i p : calm l s -> plain p -> printing p = printing (at_of s i) -> depth p = depth (at_of s i) -> calm l (go i p s).
Proof. intros. apply nest_0, calm_go; [done..|lia]. Qed.

(** A byte is sent. *)
Lemma calm_send l s i c bs r : calm l s -> at_of s i = Send (c :: bs) r -> calm l (go i (Sent bs r) (send i c s)).
Proof.
  intros [H1 H2 H3 H4 H5] Ha. pose proof (H2 i) as Hpl. rewrite Ha in Hpl. assert (Ho : owner s = Some i) by (apply H3; by rewrite Ha). split; kpr.
  - done.
  - intros j. kpr. case_decide; [done|apply H2].
  - intros j. kpr. case_decide; [by subst|]. apply H3.
  - intros j. kpr. case_decide; [subst; rewrite H4, Ha; done|apply H4].
  - unfold output in *. kpr. rewrite Ho in *. destruct H5 as (l0 & done & left & H & -> & ->). rewrite Ha in H. cbn in H. injection H as <-.
    exists l0, (done ++ [c]), bs. kpr. rewrite decide_True by (by apply eq_refl). split_and!; [easy|by rewrite <- app_assoc|].
    unfold tag. cbn. by rewrite fmap_app, <- app_assoc.
Qed.

(** The lock is taken, and it is released. *)
Lemma calm_take l s i bs r : calm l s -> at_of s i = Lock bs r -> owner s = None -> calm (l ++ [(i, bs)]) (go i (Next bs r) (own (Some i) s)).
Proof.
  intros [H1 H2 H3 H4 H5] Ha Ho. pose proof (H2 i) as Hpl. rewrite Ha in Hpl. split; kpr.
  - done.
  - intros j. kpr. case_decide; [done|apply H2].
  - intros j. kpr. case_decide; [by subst|]. intros Hj. apply H3 in Hj. congruence.
  - intros j. kpr. case_decide; [subst; rewrite H4, Ha; done|apply H4].
  - unfold output in *. kpr. rewrite Ho in H5. exists l, [], bs. kpr. rewrite decide_True by (by apply eq_refl). rewrite H5. by rewrite app_nil_r.
Qed.
Lemma calm_release l s i r : calm l s -> at_of s i = Next [] r -> calm l (go i Run (nest i (-1) (own None s))).
Proof.
  intros [H1 H2 H3 H4 H5] Ha. assert (Ho : owner s = Some i) by (apply H3; by rewrite Ha). split; kpr.
  - done.
  - intros j. kpr. case_decide; [done|apply H2].
  - intros j. kpr. case_decide; [by intros [? ?]|]. intros Hj. apply H3 in Hj. congruence.
  - intros j. kpr. case_decide; [subst; rewrite H4, Ha; done|apply H4].
  - unfold output in *. kpr. rewrite Ho in H5. destruct H5 as (l0 & done & left & H & -> & ->). rewrite Ha in H. cbn in H. injection H as <-.
    by rewrite messages_snoc, app_nil_r.
Qed.

(** [uartwrite] and [uartintr] touch nothing of [printf]. *)
Lemma calm_busy l s b : calm l s -> calm l (busy b s).
Proof. by intros [H1 H2 H3 H4 H5]. Qed.
Lemma calm_write l s i c : calm l s -> calm l (write i c s).
Proof. by intros [H1 H2 H3 H4 H5]. Qed.
Lemma taken_busy i s b : taken i s (busy b s) = [].
Proof. unfold taken. rewrite at_busy. by destruct (at_of s i). Qed.

Lemma calm_step l s i s' : calm l s -> panicking s = false -> panicking s' = false -> step s i s' -> calm (l ++ taken i s s') s'.
Proof.
  intros Hc Hp Hp' Hs. pose proof (calm_plain _ _ Hc i) as Hpl. destruct Hs as [s i fmt ap bs Ha _|s i bs Ha|s i|s i msg _|s i s' H]; [| | |done|].
  { unfold taken. rewrite Ha, app_nil_r. apply calm_go_0; rewrite ?Ha; done. }
  { unfold taken. rewrite Ha, app_nil_r. apply calm_go_0; rewrite ?Ha; done. }
  { rewrite taken_busy, app_nil_r. by apply calm_busy. }
  apply advance_cases in H as [H|[H|H]]; unfold printf_step, sync_step, write_step in H; unfold taken; try rewrite Hp in H;
    destruct (at_of s i) as [|bs r|bs r|[|c bs] r|bs r|[|c bs] r|bs r| |[|c bs]] eqn:Ha; cbn in Hpl; try done; try subst r.
  - case_bool_decide; simplify_eq/=. rewrite app_nil_r. apply calm_go; rewrite ?Ha; done.
  - destruct (owner s) eqn:Ho; [done|]. simplify_eq/=. rewrite at_go_eq. by apply calm_take.
  - case_bool_decide; simplify_eq/=. rewrite app_nil_r. by eapply calm_release.
  - simplify_eq/=. rewrite app_nil_r. apply calm_go; rewrite ?Ha; done.
  - rewrite (calm_panicked _ _ Hc) in H. simplify_eq/=. rewrite app_nil_r. apply calm_go_0; rewrite ?Ha; done.
  - simplify_eq/=. rewrite app_nil_r. by apply calm_send.
  - simplify_eq/=. rewrite app_nil_r. apply calm_go; rewrite ?Ha; done.
  - simplify_eq/=. rewrite app_nil_r. apply calm_go_0; rewrite ?Ha; done.
  - destruct (tx_busy s); [done|]. simplify_eq/=. rewrite app_nil_r. apply calm_go_0; [by apply calm_busy, calm_write|..]; rewrite ?at_busy, ?at_write, ?Ha; done.
Qed.

Lemma reach_calm l s : reach l s -> panicking s = false -> calm l s.
Proof.
  induction 1 as [|l s i s' _ IH Hs]; intros Hp.
  - split; try done. by intros i [? ?].
  - pose proof (step_panicking s i s' Hs Hp) as Hp0. apply calm_step; auto.
Qed.

(** C29: Before a panic, the messages of [printf] do not mix, in any
    interleaving of the threads: the bytes sent are whole messages, in the order
    in which their threads took the lock, followed by a prefix of the message of
    the thread that holds the lock. No thread stops, and a thread outside
    [printf] holds neither the lock nor interrupts off on its account. *)
Theorem printf_atomic l s : reach l s -> panicking s = false ->
  match owner s with
  | None => tx s = whole l
  | Some i => exists l0 done left, l = l0 ++ [(i, done ++ left)] /\ tx s = whole l0 ++ tag (i, done)
  end /\
  forall i, at_of s i <> Stop /\ (at_of s i = Run -> owner s <> Some i /\ off s i = 0).
Proof.
  intros Hr Hp. destruct (reach_calm l s Hr Hp) as [H1 H2 H3 H4 H5]. unfold output in H5. split.
  - destruct (owner s); [|done]. destruct H5 as (l0 & done & left & _ & H). by exists l0, done, left.
  - intros i. pose proof (H2 i) as Hpl. split; [by intros E; rewrite E in Hpl|]. intros E. split; [|by rewrite H4, E].
    intros Ho. rewrite Ho in H5. destruct H5 as (? & ? & ? & H & _). by rewrite E in H.
Qed.

(** ** A panic *)

Definition sent_by (i : Z) (t : list (Z * Z)) : list Z := snd <$> filter (fun x => x.1 = i) t.
Lemma sent_by_snoc i j c t : sent_by i (t ++ [(j, c)]) = sent_by i t ++ (if decide (j = i) then [c] else []).
Proof. unfold sent_by. rewrite filter_app, fmap_app. f_equal. rewrite filter_cons. cbn. by case_decide. Qed.

(** What a panic has still to print, and in how many steps. *)
Definition rest_of (r : back) : list Z := match r with ToPanic msg => msg ++ [10] | _ => [] end.
Definition rest_steps (r : back) : nat := match r with ToPanic msg => 6 + 4 * length msg | _ => 0 end.
Definition left_of (p : at_) : list Z :=
  match p with Enter bs r | Next bs r | Sync bs r | Send bs r | Sent bs r => bs ++ rest_of r | _ => [] end.
Definition todo (p : at_) : nat :=
  match p with
  | Enter bs r => 2 + 4 * length bs + rest_steps r
  | Next bs r => 1 + 4 * length bs + rest_steps r
  | Sync bs r => 4 * length bs + rest_steps r
  | Send bs r => 4 * length bs - 1 + rest_steps r
  | Sent bs r => 2 + 4 * length bs + rest_steps r
  | _ => 0
  end.
Definition in_panic (p : at_) : Prop :=
  match p with
  | Enter _ r | Next _ r | Sent _ r => r <> ToCaller
  | Sync bs r | Send bs r => r <> ToCaller /\ bs <> []
  | Stop => True
  | _ => False
  end.

(** Steps of all threads, of which [n] are made by thread [i]; it only goes on
    with what it does. *)
Inductive runs (i : Z) : nat -> pst -> pst -> Prop :=
| runs_0 s : runs i 0 s s
| runs_own n s1 s2 s3 : runs i n s1 s2 -> advance i s2 = Some s3 -> runs i (S n) s1 s3
| runs_other n s1 s2 j s3 : runs i n s1 s2 -> j <> i -> step s2 j s3 -> runs i n s1 s3.

(** A step of another thread, as the panicking thread sees it. *)
Lemma thread_other s j s' i : step s j s' -> j <> i ->
  at_of s' i = at_of s i /\ sent_by i (tx s') = sent_by i (tx s) /\ (panicking s = true -> panicking s' = true) /\ (panicked s = true -> panicked s' = true).
Proof.
  intros [s0 k fmt ap bs _ _|s0 k bs _|s0 k|s0 k msg _|s0 k s1 H] Hj.
  - kpr. by rewrite decide_False.
  - kpr. by rewrite decide_False.
  - done.
  - unfold panic_begin. kpr. by rewrite decide_False.
  - apply advance_cases in H as [H|[H|H]]; unfold printf_step, sync_step, write_step, panic_next, panic_begin in H; repeat case_match; simplify_eq; kpr;
      rewrite ?decide_False by done; rewrite ?sent_by_snoc, ?decide_False, ?app_nil_r by done; done.
Qed.

(** Thread [i] is in a panic and its output will be [total]. *)
Record owes (i : Z) (total : list Z) (s : pst) : Prop := {
  owes_panicking : panicking s = true;
  owes_in : in_panic (at_of s i);
  owes_stop : at_of s i = Stop -> panicked s = true;
  owes_left : exists left, sent_by i (tx s) ++ left = total /\ (at_of s i <> Stop -> left = left_of (at_of s i));
}.

Lemma owes_other i total s j s' : owes i total s -> step s j s' -> j <> i -> owes i total s'.
Proof.
  intros [H1 H2 H3 H4] Hs Hj. destruct (thread_other s j s' i Hs Hj) as (Ha & Ht & Hp & Hf). split; rewrite ?Ha, ?Ht; auto.
Qed.
Lemma owes_go i total s p : owes i total s -> at_of s i <> Stop -> in_panic p -> p <> Stop -> left_of p = left_of (at_of s i) -> owes i total (go i p s).
Proof.
  intros [H1 H2 H3 (left & Hl & Hs)] Hn Hi Hp He. split; rewrite ?at_go_eq; try done.
  exists left. split; [done|]. intros _. rewrite He. by apply Hs.
Qed.
Lemma owes_freeze i total s (s' : pst) : owes i total s -> panicking s' = true -> panicked s' = true -> tx s' = tx s -> owes i total (go i Stop s').
Proof.
  intros [H1 H2 H3 (left & Hl & Hs)] Hp Hf Ht. split; rewrite ?at_go_eq; try done. exists left. cbn. by rewrite Ht.
Qed.
Lemma owes_send i total s c bs r : owes i total s -> at_of s i = Send (c :: bs) r -> owes i total (go i (Sent bs r) (send i c s)).
Proof.
  intros [H1 H2 H3 (left & Hl & Hs)] Ha. rewrite Ha in *. split; rewrite ?at_go_eq; try done; [by destruct H2|].
  exists (bs ++ rest_of r). split; [|done]. cbn [go send tx]. rewrite sent_by_snoc, decide_True, <- app_assoc by done. cbn. rewrite <- Hl. f_equal. by rewrite Hs.
Qed.

(** The panicking thread always has a step to make, one fewer each time. *)
Lemma owes_own i total s : owes i total s -> at_of s i <> Stop -> exists s', advance i s = Some s' /\ owes i total s' /\
  (todo (at_of s' i) < todo (at_of s i))%nat /\ (panicked s = false -> panicked s' = true -> left_of (at_of s i) = []).
Proof.
  intros Ho Hn. pose proof (owes_panicking _ _ _ Ho) as Hp. pose proof (owes_in _ _ _ Ho) as Hi. unfold advance, printf_step, sync_step. rewrite Hp.
  destruct (at_of s i) as [|bs r|bs r|[|c bs] r|[|c bs] r|[|c bs] r|bs r| |bs] eqn:Ha; cbn in Hi; try done; try naive_solver.
  - eexists. split; [done|]. rewrite at_go_eq. split; [|split; [cbn; lia|cbn; congruence]]. apply owes_go; rewrite ?Ha; done.
  - eexists. split; [done|]. destruct r as [|msg|]; cbn [panic_next]; [done|..]; rewrite at_go_eq.
    + change (bytes (str "%s" ++ [10]) [VStr (Some msg)]) with (msg ++ [10]).
      split; [|split; [cbn; rewrite length_app; cbn; lia|cbn; congruence]]. apply owes_go; rewrite ?Ha; try done. cbn. by rewrite app_nil_r.
    + split; [|split; [cbn; lia|done]]. by apply (owes_freeze i total s).
  - eexists. split; [done|]. rewrite at_go_eq. split; [|split; [cbn; lia|cbn; congruence]]. apply owes_go; rewrite ?Ha; done.
  - eexists. split; [done|]. rewrite at_go_eq. destruct (panicked s) eqn:Hf.
    + split; [by apply (owes_freeze i total s)|]. split; [cbn; lia|done].
    + split; [|split; [cbn; lia|cbn; congruence]]. apply owes_go; rewrite ?Ha; naive_solver.
  - eexists. split; [done|]. rewrite at_go_eq. split; [by apply owes_send|]. split; [cbn; lia|cbn; congruence].
  - eexists. split; [done|]. rewrite at_go_eq. split; [|split; [cbn; lia|cbn; congruence]]. apply owes_go; rewrite ?Ha; done.
Qed.

Lemma advance_stop i s s' : advance i s = Some s' -> at_of s i <> Stop.
Proof. intros H E. unfold advance, printf_step, sync_step, write_step in H. by rewrite E in H. Qed.

Lemma runs_owes i total n s s' : runs i n s s' -> owes i total s -> owes i total s' /\ (n + todo (at_of s' i) <= todo (at_of s i))%nat.
Proof.
  induction 1 as [s|n s1 s2 s3 _ IH Ha|n s1 s2 j s3 _ IH Hj Hs]; intros Ho; [by split|..]; destruct (IH Ho) as [Ho2 Ht].
  - destruct (owes_own i total s2 Ho2 (advance_stop _ _ _ Ha)) as (s3' & Ha' & Ho3 & Hlt & _). simplify_eq. split; [done|lia].
  - split; [by eapply owes_other|]. by rewrite (proj1 (thread_other s2 j s3 i Hs Hj)).
Qed.

(** ** The frozen console *)

Inductive steps : pst -> pst -> Prop :=
| steps_0 s : steps s s
| steps_1 s1 s2 i s3 : steps s1 s2 -> step s2 i s3 -> steps s1 s3.

Definition sending (p : at_) : option Z := match p with Send (c :: _) _ => Some c | _ => None end.

(** Once frozen, a step sends no byte but one that was past the test. *)
Lemma frozen_step s i s' j : panicked s = true -> step s i s' -> panicked s' = true /\
  (sent_by j (tx s') = sent_by j (tx s) /\ (sending (at_of s' j) = sending (at_of s j) \/ sending (at_of s' j) = None) \/
   exists c, sending (at_of s j) = Some c /\ sent_by j (tx s') = sent_by j (tx s) ++ [c] /\ sending (at_of s' j) = None).
Proof.
  intros Hf Hs. destruct (decide (i = j)) as [->|Hne].
  2: { destruct (thread_other s i s' j Hs Hne) as (-> & -> & _ & H). auto. }
  destruct Hs as [s0 k fmt ap bs _ _|s0 k bs _|s0 k|s0 k msg _|s0 k s1 H].
  - rewrite at_go_eq. auto.
  - rewrite at_go_eq. auto.
  - rewrite at_busy. auto.
  - unfold panic_begin. rewrite at_go_eq. auto.
  - apply advance_cases in H as [H|[H|H]]; unfold printf_step, sync_step, write_step, panic_next, panic_begin in H; rewrite ?Hf in H; repeat case_match; simplify_eq;
      rewrite at_go_eq; cbn [go nest own send busy write tx panicked]; (split; [done|]);
      first [left; split; [done|by right] | right; eexists; split; [done|]; rewrite sent_by_snoc, decide_True by done; done].
Qed.
Lemma frozen s s' : steps s s' -> panicked s = true -> panicked s' = true /\ forall j,
  sent_by j (tx s') = sent_by j (tx s) /\ (sending (at_of s' j) = sending (at_of s j) \/ sending (at_of s' j) = None) \/
  exists c, sending (at_of s j) = Some c /\ sent_by j (tx s') = sent_by j (tx s) ++ [c] /\ sending (at_of s' j) = None.
Proof.
  induction 1 as [s|s1 s2 i s3 _ IH Hs]; intros Hf; [auto|]. destruct (IH Hf) as [Hf2 H2].
  split; [exact (proj1 (frozen_step s2 i s3 i Hf2 Hs))|]. intros j. destruct (frozen_step s2 i s3 j Hf2 Hs) as [_ H3].
  destruct (H2 j) as [[E2 S2]|(c & S1 & E2 & S2)], H3 as [[E3 S3]|(c' & S2' & E3 & S3)]; rewrite ?E3, ?E2; [left; intuition congruence|right; exists c'; intuition congruence|right; exists c; intuition congruence|congruence].
Qed.

(** C28: A panic in any state, also in the middle of a [printf] that holds the
    lock, and whatever the other threads do. The bytes the thread sends are
    always a prefix of its message; until the console is frozen the thread is
    never blocked, by the lock or otherwise, it freezes the console after
    [36 + 4 * length msg] steps of its own at the latest, and when it is the
    one to freeze it its whole message is out. Once the console is frozen every
    thread sends at most one more byte through [uartputc_sync], the one that it
    was about to send; but [uartwrite] still sends whenever the transmitter is
    not busy. *)
Theorem panic_spec i msg s n s' : runs i n (panic_begin i msg s) s' ->
  (exists left, sent_by i (tx s') ++ left = sent_by i (tx s) ++ str "panic: " ++ msg ++ [10] /\
    (panicked s' = false -> (n < 36 + 4 * length msg)%nat /\ exists s'', advance i s' = Some s'' /\ (panicked s'' = true -> left = []))) /\
  (panicked s' = true -> forall s'', steps s' s'' -> forall j, sent_by j (tx s'') = sent_by j (tx s') \/
    exists c bs r, at_of s' j = Send (c :: bs) r /\ sent_by j (tx s'') = sent_by j (tx s') ++ [c]) /\
  (panicked s' = true -> forall j c bs, at_of s' j = Write (c :: bs) -> tx_busy s' = false ->
    exists s'', advance j s' = Some s'' /\ written s'' = written s' ++ [(j, c)]).
Proof.
  intros Hr. split_and!.
  - destruct (runs_owes i (sent_by i (tx s) ++ str "panic: " ++ msg ++ [10]) n _ _ Hr) as [Ho Ht].
    { split; unfold panic_begin; rewrite ?at_go_eq; try done. eexists. split; [reflexivity|done]. }
    pose proof Ho as [_ _ Hst (left & Hl & Hleft)]. exists left. split; [done|]. intros Hf.
    assert (Hn : at_of s' i <> Stop) by (intros E; apply Hst in E; congruence).
    destruct (owes_own _ _ _ Ho Hn) as (s'' & Ha & _ & Hlt & Hout). unfold panic_begin in Ht. rewrite at_go_eq in Ht. change (bytes (str "panic: ") []) with (str "panic: ") in Ht.
    cbn [todo rest_steps] in Ht. change (length (str "panic: ")) with 7%nat in Ht.
    split; [lia|]. exists s''. split; [done|]. intros Hf'. rewrite Hleft by done. by apply Hout.
  - intros Hf s'' Hs j. destruct (frozen s' s'' Hs Hf) as [_ H]. destruct (H j) as [[E _]|(c & Hc & E & _)]; [by left|right].
    unfold sending in Hc. destruct (at_of s' j) as [| | | | |[|? bs] r| | |]; try done. injection Hc as ->. by exists c, bs, r.
  - intros _ j c bs Ha Hb. unfold advance, printf_step, sync_step, write_step. rewrite Ha, Hb. by eexists.
Qed.

Module Demo.
(** Thread [i] calls [printf] with a format, or goes on. *)
Definition move (m : Z * option (list Z)) (s : pst) : option pst :=
  match m with
  | (i, Some fmt) => match at_of s i, printf digits_lower fmt [] with Run, Some bs => Some (go i (Enter bs ToCaller) s) | _, _ => None end
  | (i, None) => advance i s
  end.
Fixpoint play (ms : list (Z * option (list Z))) (l : list (Z * list Z)) (s : pst) : option (list (Z * list Z) * pst) :=
  match ms with
  | [] => Some (l, s)
  | m :: ms => s' ← move m s; play ms (l ++ taken m.1 s s') s'
  end.

Lemma move_step m s s' : move m s = Some s' -> step s m.1 s'.
Proof.
  destruct m as [i [fmt|]]; cbn [move fst]; [|by constructor]. destruct (at_of s i) eqn:Ha; try done. destruct (printf digits_lower fmt []) eqn:Hb; [|done].
  intros [= <-]. by eapply st_printf.
Qed.
Lemma play_reach ms : forall l s l' s', reach l s -> play ms l s = Some (l', s') -> reach l' s'.
Proof.
  induction ms as [|m ms IH]; intros l s l' s' Hr Hp; cbn in Hp; [by simplify_eq|].
  apply bind_Some in Hp as (s1 & Hm & Hp). eapply IH; [|exact Hp]. eapply reach_step; [exact Hr|by apply move_step].
Qed.
Lemma play_runs i k : forall l s l' s', play (replicate k (i, None)) l s = Some (l', s') -> forall n s0, runs i n s0 s -> runs i (k + n) s0 s'.
Proof.
  induction k as [|k IH]; intros l s l' s' Hp n s0 Hr; cbn in Hp; [by simplify_eq|].
  apply bind_Some in Hp as (s1 & Hm & Hp). replace (S k + n)%nat with (k + S n)%nat by lia. eapply IH; [exact Hp|]. by eapply runs_own.
Qed.

(** Thread 0 prints "a"; thread 1 the first byte of "bc", while thread 2 waits
    for the lock. *)
Definition script : list (Z * option (list Z)) :=
  [(0, Some [97]); (1, Some [98; 99])] ++ replicate 7 (0, None) ++ replicate 2 (1, None) ++ [(2, Some [100]); (2, None)] ++ replicate 3 (1, None).
Definition played : list (Z * list Z) * pst := default ([], pst0) (play script [] pst0).
Lemma printf_atomic_witness : tx played.2 = [(0, 97); (1, 98)] /\ at_of played.2 2 = Lock [100] ToCaller /\
  (exists l0 done left, played.1 = l0 ++ [(1, done ++ left)] /\ tx played.2 = whole l0 ++ tag (1, done)) /\ off played.2 0 = 0.
Proof.
  split; [by vm_compute|]. split; [by vm_compute|].
  destruct (printf_atomic played.1 played.2) as [H1 H2].
  - apply (play_reach script [] pst0); [constructor|by vm_compute].
  - by vm_compute.
  - split; [exact H1|]. apply (H2 0). by vm_compute.
Defined.

(** Thread 1 panics with "x" there, in the middle of its message, and finishes
    the panic alone; thread 2 prints nothing. *)
Definition final : pst := (default ([], pst0) (play (replicate 40 (1, None)) [] (panic_begin 1 [120] played.2))).2.
Lemma panic_spec_witness : sent_by 1 (tx final) = 98 :: str "panic: x" ++ [10] /\ forall s'', steps final s'' -> sent_by 2 (tx s'') = [].
Proof.
  split; [by vm_compute|]. intros s'' Hs.
  destruct (panic_spec 1 [120] played.2 40 final) as (_ & H & _).
  - apply (play_runs 1 40 [] (panic_begin 1 [120] played.2) (default ([], pst0) (play (replicate 40 (1, None)) [] (panic_begin 1 [120] played.2))).1) with (n := 0%nat); [by vm_compute|constructor].
  - destruct (H ltac:(by vm_compute) s'' Hs 2) as [E|(c & bs & r & E & _)]; [rewrite E; by vm_compute|]. vm_compute in E. discriminate E.
Defined.
End Demo.
