(* ===== verification/Kalloc.v ===== *)
(** * Physical page allocator: kernel/kalloc.c

    The allocator's state is the memory itself (free pages are linked through
    their first word), the head of the free list and the reference counts that
    copy-on-write needs. [kmem_inv] says that the list threads distinct pages,
    that they are exactly the pages whose count is zero, and that no count is
    negative; every operation is specified against it. *)

From S2P Require Import Prelude Riscv Mem.

(** ** State and operations *)

Record pmem := Pmem { mem : gmap Z Z; freelist : Z; refcnt : gmap Z Z }.

Definition set_mem (f : gmap Z Z -> gmap Z Z) (s : pmem) : pmem :=
  Pmem (f (mem s)) (freelist s) (refcnt s).
Definition set_freelist (p : Z) (s : pmem) : pmem := Pmem (mem s) p (refcnt s).
Definition set_refcnt (i v : Z) (s : pmem) : pmem :=
  Pmem (mem s) (freelist s) (<[i := v]> (refcnt s)).

(** [kmem.refcnt[pa / PGSIZE]] *)
Definition ref (s : pmem) (pa : Z) : Z := default 0 (refcnt s !! (pa / PGSIZE)).

(** Memory accesses of kernel code. *)
Definition load64 (a : Z) : M pmem Z := gets (fun s => ld64 (mem s) a).
Definition store64 (a v : Z) : M pmem unit := modify (set_mem (fun m => st64 m a v)).
Definition kmemset (a ch n : Z) : M pmem unit := modify (set_mem (fun m => memset m a ch n)).
Definition kmemmove (d s n : Z) : M pmem unit := modify (set_mem (fun m => memmove m d s n)).

Section kalloc.
Context `{LK : Linker}.

Definition kfree (pa : Z) : M pmem unit :=
  if negb (pa mod PGSIZE =? 0) || (pa <? kend) || (PHYSTOP <=? pa) then panic "kfree"
  else
    acquire LKmem;;
    modify (fun s => set_refcnt (pa / PGSIZE) (i32 (ref s pa - 1)) s);;
    r ← gets (fun s => ref s pa);
    if r =? 0 then
      release LKmem;;
      kmemset pa 1 PGSIZE;;
      acquire LKmem;;
      head ← gets freelist;
      store64 pa head;;
      modify (set_freelist pa);;
      release LKmem
    else
      release LKmem.

Definition kalloc : M pmem Z :=
  acquire LKmem;;
  r ← gets freelist;
  (if negb (r =? 0) then
     next ← load64 r;
     modify (set_freelist next);;
     modify (fun s => set_refcnt (r / PGSIZE) (i32 (ref s r + 1)) s)
   else mret tt);;
  release LKmem;;
  (if negb (r =? 0) then kmemset r 5 PGSIZE else mret tt);;
  mret r.

Definition inc_refcnt (pa : Z) : M pmem unit :=
  acquire LKmem;;
  modify (fun s => set_refcnt (pa / PGSIZE) (i32 (ref s pa + 1)) s);;
  release LKmem.

(** [for (; p + PGSIZE <= pa_end; p += PGSIZE)]; [fuel] counts iterations. *)
Fixpoint freerange_loop (fuel : nat) (p pa_end : Z) : M pmem unit :=
  if p + PGSIZE <=? pa_end then
    match fuel with
    | O => nofuel
    | S fuel =>
        acquire LKmem;;
        modify (set_refcnt (p / PGSIZE) 1);;
        release LKmem;;
        kfree p;;
        freerange_loop fuel (p + PGSIZE) pa_end
    end
  else mret tt.

Definition freerange (pa_start pa_end : Z) : M pmem unit :=
  freerange_loop (Z.to_nat (pa_end / PGSIZE)) (PGROUNDUP pa_start) pa_end.

Definition kinit : M pmem unit := freerange kend PHYSTOP.

(** ** The invariant *)

(** A page the allocator manages. *)
Definition valid_page (pa : Z) : Prop :=
  pa mod PGSIZE = 0 /\ kend <= pa /\ pa + PGSIZE <= PHYSTOP.

#[global] Instance valid_page_dec pa : Decision (valid_page pa).
Proof. unfold valid_page. apply _. Defined.

(** The list threaded from [p] through the first word of each page. *)
Fixpoint chain (m : gmap Z Z) (p : Z) (l : list Z) : Prop :=
  match l with
  | [] => p = 0
  | q :: l => p = q /\ chain m (ld64 m q) l
  end.

Record kmem_inv (s : pmem) (free : list Z) : Prop := {
  inv_chain : chain (mem s) (freelist s) free;
  inv_nodup : NoDup free;
  inv_valid : Forall valid_page free;
  inv_free : forall pa, valid_page pa -> ref s pa = 0 <-> pa ∈ free;
  inv_ref : forall pa, valid_page pa -> 0 <= ref s pa < 2 ^ 31;
}.

(** ** Pages and memory *)

(** Two memories agree on every page that satisfies [P]. *)
Definition agree (P : Z -> Prop) (m m' : gmap Z Z) : Prop :=
  forall x, P (PGROUNDDOWN x) -> ld8 m' x = ld8 m x.

Lemma agree_refl P m : agree P m m.
Proof. done. Qed.

Lemma agree_trans P m1 m2 m3 : agree P m1 m2 -> agree P m2 m3 -> agree P m1 m3.
Proof. intros H1 H2 x Hx. rewrite H2, H1 by done. done. Qed.

Lemma agree_weaken (P Q : Z -> Prop) m m' :
  (forall x, Q x -> P x) -> agree P m m' -> agree Q m m'.
Proof. intros H1 H2 x Hx. apply H2. auto. Qed.

Lemma page_word q x : q mod 8 = 0 -> q <= x < q + 8 -> PGROUNDDOWN x = PGROUNDDOWN q.
Proof.
  intros Hq Hx. apply PGROUNDDOWN_unique; [apply PGROUNDDOWN_aligned|].
  rewrite PGROUNDDOWN_eq. consts. Z.div_mod_to_equations. lia.
Qed.

Lemma agree_ld64 (P : Z -> Prop) m m' q :
  agree P m m' -> q mod 8 = 0 -> P (PGROUNDDOWN q) -> ld64 m' q = ld64 m q.
Proof.
  intros HA Hq HP. apply ldn_ext. intros x Hx. apply HA. by rewrite (page_word q).
Qed.

Lemma page_ne p x : p mod PGSIZE = 0 -> PGROUNDDOWN x <> p -> ~ p <= x < p + PGSIZE.
Proof. intros Hp Hx Hr. by apply Hx, PGROUNDDOWN_unique. Qed.

Lemma agree_memset m p ch : p mod PGSIZE = 0 -> agree (.≠ p) m (memset m p ch PGSIZE).
Proof.
  intros Hp x Hx. rewrite ld8_memset by done.
  rewrite decide_False; [done|]. by apply page_ne.
Qed.

Lemma agree_memmove m p q : p mod PGSIZE = 0 -> agree (.≠ p) m (memmove m p q PGSIZE).
Proof.
  intros Hp x Hx. rewrite ld8_memmove by done.
  rewrite decide_False; [done|]. by apply page_ne.
Qed.

Lemma agree_st64 m a v p : a mod 8 = 0 -> PGROUNDDOWN a = p -> agree (.≠ p) m (st64 m a v).
Proof.
  intros Ha <- x Hx. apply ld8_stn_out. intros Hr. apply Hx. by apply page_word.
Qed.

Lemma aligned_8 p : p mod PGSIZE = 0 -> p mod 8 = 0.
Proof. consts. intros. Z.div_mod_to_equations. lia. Qed.

Lemma aligned_word p i : p mod PGSIZE = 0 -> (p + 8 * i) mod 8 = 0.
Proof. consts. intros. Z.div_mod_to_equations. lia. Qed.

Lemma page_entry p i : p mod PGSIZE = 0 -> 0 <= i < 512 -> PGROUNDDOWN (p + 8 * i) = p.
Proof. intros. apply PGROUNDDOWN_unique; [done|]. klia. Qed.

Lemma valid_page_aligned pa : valid_page pa -> pa mod PGSIZE = 0.
Proof. by intros []. Qed.

Lemma valid_page_phys `{!LinkerOk} pa : valid_page pa -> phys_page pa.
Proof.
  intros (? & ? & ?). pose proof kend_range. pose proof etext_range.
  split; [done|]. klia.
Qed.

Lemma valid_page_pos `{!LinkerOk} pa : valid_page pa -> KERNBASE < pa < PHYSTOP.
Proof.
  intros (? & ? & ?). pose proof kend_range. pose proof etext_range. klia.
Qed.

(** ** Reference counts *)

Lemma ref_set_eq s p v : ref (set_refcnt (p / PGSIZE) v s) p = v.
Proof. unfold ref, set_refcnt; simpl. by rewrite lookup_insert_eq. Qed.

Lemma ref_set_ne s p q v : p mod PGSIZE = 0 -> q mod PGSIZE = 0 -> p <> q ->
  ref (set_refcnt (p / PGSIZE) v s) q = ref s q.
Proof.
  intros Hp Hq Hne. unfold ref, set_refcnt; simpl. rewrite lookup_insert_ne; [done|].
  intros E. apply Hne. consts. Z.div_mod_to_equations. lia.
Qed.

Lemma ref_set_mem f s p : ref (set_mem f s) p = ref s p.
Proof. done. Qed.

Lemma ref_set_freelist h s p : ref (set_freelist h s) p = ref s p.
Proof. done. Qed.

(** ** The free list *)

Lemma chain_ext m m' p l :
  (forall q, q ∈ l -> ld64 m' q = ld64 m q) -> chain m p l -> chain m' p l.
Proof.
  revert p. induction l as [|q l IH]; intros p H; [done|]. intros [-> Hc].
  split; [done|]. rewrite H by set_solver. apply IH; [|done]. set_solver.
Qed.

Lemma chain_agree (P : Z -> Prop) m m' p l :
  agree P m m' -> Forall valid_page l -> (forall q, q ∈ l -> P q) ->
  chain m p l -> chain m' p l.
Proof.
  intros HA Hv HP. apply chain_ext. intros q Hq. rewrite Forall_forall in Hv.
  pose proof (valid_page_aligned q (Hv q Hq)).
  apply (agree_ld64 P); [done|by apply aligned_8|]. rewrite PGROUNDDOWN_id by done. by apply HP.
Qed.

Lemma inv_not_free s free pa : kmem_inv s free -> valid_page pa -> 0 < ref s pa -> pa ∉ free.
Proof. intros Hi Hv Hr Hin. apply (inv_free s free Hi) in Hin; [lia|done]. Qed.

(** A change of memory that spares the free pages keeps the invariant. *)
Lemma inv_mem s s' free :
  kmem_inv s free -> freelist s' = freelist s -> refcnt s' = refcnt s ->
  agree (fun q => q ∈ free) (mem s) (mem s') -> kmem_inv s' free.
Proof.
  intros [Hc Hn Hv Hf Hr] Hfl Hrc HA. split; try done.
  - rewrite Hfl. by apply (chain_agree (fun q => q ∈ free) (mem s)).
  - intros pa Hp. unfold ref. rewrite Hrc. by apply Hf.
  - intros pa Hp. unfold ref. rewrite Hrc. by apply Hr.
Qed.

Lemma inv_refcnt s free p v :
  kmem_inv s free -> valid_page p -> 0 < ref s p -> 0 < v < 2 ^ 31 ->
  kmem_inv (set_refcnt (p / PGSIZE) v s) free.
Proof.
  intros Hi Hp Hr Hv. pose proof (inv_not_free s free p Hi Hp Hr) as Hnf.
  destruct Hi as [Hc Hn Hval Hf Hb]. pose proof (valid_page_aligned p Hp).
  split; try done; intros q Hq; destruct (decide (p = q)) as [->|Hne];
    rewrite ?ref_set_eq, ?ref_set_ne by (done || by apply valid_page_aligned);
    [|by apply Hf|lia|by apply Hb].
  split; [lia|done].
Qed.

(** ** What the operations compute *)

(** The state after allocating the head [p] of the free list. *)
Definition alloc_state (s : pmem) (p : Z) : pmem :=
  set_mem (fun m => memset m p 5 PGSIZE)
    (set_refcnt (p / PGSIZE) 1 (set_freelist (ld64 (mem s) p) s)).

(** The state after the last reference to [p] is dropped. *)
Definition free_state (s : pmem) (p : Z) : pmem :=
  set_freelist p
    (set_mem (fun m => st64 m p (freelist s))
       (set_mem (fun m => memset m p 1 PGSIZE)
          (set_refcnt (p / PGSIZE) 0 s))).

Lemma kalloc_run `{!LinkerOk} s p l c : kmem_inv s (p :: l) -> LKmem ∉ held c ->
  kalloc c s = Ok p c (alloc_state s p).
Proof.
  intros Hi Hl. destruct (inv_chain s _ Hi) as [Hhd Hch].
  pose proof (inv_valid s _ Hi) as Hv. inversion_clear Hv as [|? ? Hp Hv'].
  pose proof (valid_page_pos p Hp).
  assert (ref s p = 0) as Hr by (apply (inv_free s _ Hi p Hp); set_solver).
  unfold kalloc, load64, kmemset. munfold. rewrite acquire_ok by done. simpl.
  rewrite Hhd. destruct (Z.eqb_spec p 0); [klia|]. simpl.
  rewrite release_ok by done. simpl.
  rewrite ref_set_freelist, Hr. done.
Qed.

Lemma kalloc_empty s c : kmem_inv s [] -> LKmem ∉ held c -> kalloc c s = Ok 0 c s.
Proof.
  intros Hi Hl. pose proof (inv_chain s _ Hi) as Hc. simpl in Hc.
  unfold kalloc. munfold. rewrite acquire_ok by done. simpl. rewrite Hc. simpl.
  by rewrite release_ok.
Qed.

Lemma alloc_state_inv `{!LinkerOk} s p l : kmem_inv s (p :: l) -> kmem_inv (alloc_state s p) l.
Proof.
  intros Hi. destruct Hi as [[_ Hc] Hn Hv Hf Hb].
  inversion_clear Hv as [|? ? Hp Hv']. inversion_clear Hn as [|? ? Hpl Hn'].
  pose proof (valid_page_aligned p Hp) as Ha.
  assert (forall q, valid_page q -> p <> q -> ref (alloc_state s p) q = ref s q) as Hne.
  { intros q Hq Hpq. unfold alloc_state. rewrite ref_set_mem, ref_set_ne; try done.
    by apply valid_page_aligned. }
  assert (ref (alloc_state s p) p = 1) as He by apply ref_set_eq.
  split; try done.
  - apply (chain_agree (.≠ p) (mem s)); [by apply agree_memset|done| |done].
    intros q Hq ->. done.
  - intros q Hq. destruct (decide (p = q)) as [<-|Hpq].
    + rewrite He. split; [lia|done].
    + rewrite Hne, Hf by done. set_solver.
  - intros q Hq. destruct (decide (p = q)) as [<-|Hpq]; [rewrite He; lia|].
    rewrite Hne by done. by apply Hb.
Qed.

Lemma kfree_guard `{!LinkerOk} p : valid_page p ->
  negb (p mod PGSIZE =? 0) || (p <? kend) || (PHYSTOP <=? p) = false.
Proof.
  intros (Ha & Hk & Hs). rewrite Ha. simpl.
  destruct (Z.ltb_spec p kend); [lia|]. destruct (Z.leb_spec PHYSTOP p); klia.
Qed.

Lemma kfree_shared `{!LinkerOk} s p c : valid_page p -> LKmem ∉ held c ->
  1 < ref s p < 2 ^ 31 ->
  kfree p c s = Ok tt c (set_refcnt (p / PGSIZE) (ref s p - 1) s).
Proof.
  intros Hp Hl Hr. unfold kfree. rewrite kfree_guard by done. munfold.
  rewrite acquire_ok by done. simpl.
  rewrite i32_id by lia. rewrite ref_set_eq.
  destruct (Z.eqb_spec (ref s p - 1) 0); [lia|]. by rewrite release_ok.
Qed.

Lemma kfree_last `{!LinkerOk} s p c : valid_page p -> LKmem ∉ held c -> ref s p = 1 ->
  kfree p c s = Ok tt c (free_state s p).
Proof.
  intros Hp Hl Hr. unfold kfree. rewrite kfree_guard by done. munfold.
  rewrite acquire_ok by done. simpl.
  rewrite Hr. change (i32 (1 - 1)) with 0. rewrite ref_set_eq. simpl.
  rewrite release_ok by done. simpl. rewrite acquire_ok by done. simpl.
  by rewrite release_ok.
Qed.

Lemma free_state_chain `{!LinkerOk} s p l : valid_page p -> 0 <= freelist s < 2 ^ 64 ->
  Forall valid_page l -> p ∉ l ->
  chain (mem s) (freelist s) l -> chain (mem (free_state s p)) p (p :: l).
Proof.
  intros Hp Hb Hv Hpl Hc. pose proof (valid_page_aligned p Hp) as Ha.
  split; [done|]. simpl. rewrite ld64_st64_eq by done.
  apply (chain_agree (.≠ p) (mem s)); [|done|set_solver|done].
  eapply agree_trans; [by apply agree_memset|].
  apply agree_st64; [by apply aligned_8|by apply PGROUNDDOWN_id].
Qed.

Lemma chain_head_bound `{!LinkerOk} s l : Forall valid_page l ->
  chain (mem s) (freelist s) l -> 0 <= freelist s < 2 ^ 64.
Proof.
  intros Hv Hc. destruct l as [|q l]; simpl in Hc; [lia|]. destruct Hc as [-> _].
  inversion_clear Hv as [|? ? Hq _]. pose proof (valid_page_pos q Hq). klia.
Qed.

Lemma free_state_inv `{!LinkerOk} s p l : kmem_inv s l -> valid_page p -> ref s p = 1 ->
  kmem_inv (free_state s p) (p :: l).
Proof.
  intros Hi Hp Hr. pose proof (inv_not_free s l p Hi Hp ltac:(lia)) as Hpl.
  destruct Hi as [Hc Hn Hv Hf Hb].
  assert (forall q, valid_page q -> p <> q -> ref (free_state s p) q = ref s q) as Hne.
  { intros q Hq Hpq. unfold free_state. rewrite ref_set_freelist, !ref_set_mem, ref_set_ne;
      try done; by apply valid_page_aligned. }
  assert (ref (free_state s p) p = 0) as He by apply ref_set_eq.
  split.
  - apply free_state_chain; try done. by apply (chain_head_bound s l).
  - by constructor.
  - by constructor.
  - intros q Hq. destruct (decide (p = q)) as [<-|Hpq]; [rewrite He; set_solver|].
    rewrite Hne, Hf by done. set_solver.
  - intros q Hq. destruct (decide (p = q)) as [<-|Hpq]; [rewrite He; lia|].
    rewrite Hne by done. by apply Hb.
Qed.

(** A page that leaves the allocator differs from the others only on itself. *)
Lemma alloc_state_agree s p : p mod PGSIZE = 0 -> agree (.≠ p) (mem s) (mem (alloc_state s p)).
Proof. intros. by apply agree_memset. Qed.

Lemma free_state_agree s p : p mod PGSIZE = 0 -> agree (.≠ p) (mem s) (mem (free_state s p)).
Proof.
  intros. eapply agree_trans; [by apply agree_memset|].
  apply agree_st64; [by apply aligned_8|by apply PGROUNDDOWN_id].
Qed.

(** ** Initialisation *)

(** What [freerange] has built when it is about to free [p]: all the pages
    below [p], linked, with count zero. *)
Record range_inv (s : pmem) (free : list Z) (p : Z) : Prop := {
  rng_chain : chain (mem s) (freelist s) free;
  rng_nodup : NoDup free;
  rng_mem : forall q, q ∈ free <-> valid_page q /\ q < p;
  rng_ref : forall q, q ∈ free -> ref s q = 0;
}.

Lemma range_inv_valid s free p : range_inv s free p -> Forall valid_page free.
Proof. intros Hi. apply Forall_forall. intros q Hq. by apply (rng_mem s free p Hi). Qed.

Lemma range_inv_step `{!LinkerOk} s free p : valid_page p -> range_inv s free p ->
  range_inv (free_state (set_refcnt (p / PGSIZE) 1 s) p) (p :: free) (p + PGSIZE).
Proof.
  intros Hp Hi. pose proof (range_inv_valid s free p Hi) as Hv.
  destruct Hi as [Hc Hn Hm Hr].
  assert (p ∉ free) as Hpf by (intros Hin; apply Hm in Hin; lia).
  split.
  - apply free_state_chain; try done. by apply (chain_head_bound _ free).
  - by constructor.
  - intros q. rewrite elem_of_cons, Hm. split.
    + intros [->|[??]]; split; [done|klia|done|klia].
    + intros [Hq Hlt]. destruct (decide (q = p)); [by left|right]. split; [done|].
      pose proof (valid_page_aligned p Hp). pose proof (valid_page_aligned q Hq).
      consts. Z.div_mod_to_equations. lia.
  - intros q Hq. unfold free_state. rewrite ref_set_freelist, !ref_set_mem.
    apply elem_of_cons in Hq as [->|Hq]; [apply ref_set_eq|].
    rewrite !ref_set_ne; try (by apply Hr); try (by apply valid_page_aligned);
      try (apply valid_page_aligned; by apply Hm); set_solver.
Qed.

Lemma freerange_loop_ok `{!LinkerOk} fuel p s free c :
  LKmem ∉ held c -> p mod PGSIZE = 0 -> kend <= p -> (PHYSTOP - p) / PGSIZE <= Z.of_nat fuel ->
  range_inv s free p ->
  exists s' free', freerange_loop fuel p PHYSTOP c s = Ok tt c s' /\
    range_inv s' free' (Z.max p PHYSTOP).
Proof.
  intros Hl. revert p s free. induction fuel as [|fuel IH]; intros p s free Ha Hk Hf Hi;
    cbn [freerange_loop]; destruct (Z.leb_spec (p + PGSIZE) PHYSTOP) as [Hle|Hgt].
  - exfalso. consts. Z.div_mod_to_equations. lia.
  - exists s, free. split; [done|]. by replace (Z.max p PHYSTOP) with p by
      (consts; Z.div_mod_to_equations; lia).
  - assert (valid_page p) as Hp by (split; [done|lia]).
    destruct (IH (p + PGSIZE) (free_state (set_refcnt (p / PGSIZE) 1 s) p) (p :: free)) as (s' & free' & Hrun & Hi').
    + consts. Z.div_mod_to_equations. lia.
    + klia.
    + consts. Z.div_mod_to_equations. lia.
    + by apply range_inv_step.
    + exists s', free'. split; [|by replace (Z.max p PHYSTOP) with (Z.max (p + PGSIZE) PHYSTOP) by klia].
      munfold. rewrite acquire_ok by done. cbn [obind]. rewrite release_ok by done. cbn [obind].
      rewrite kfree_last; [exact Hrun|done|done|]. apply ref_set_eq.
  - exists s, free. split; [done|]. by replace (Z.max p PHYSTOP) with p by
      (consts; Z.div_mod_to_equations; lia).
Qed.

Lemma kinit_run `{!LinkerOk} s c :
  freelist s = 0 -> LKmem ∉ held c ->
  exists s' free, kinit c s = Ok tt c s' /\ kmem_inv s' free /\
    (forall pa, pa ∈ free <-> valid_page pa).
Proof.
  intros Hfl Hl. pose proof kend_range. pose proof etext_range.
  destruct (freerange_loop_ok (Z.to_nat (PHYSTOP / PGSIZE)) (PGROUNDUP kend) s [] c)
    as (s' & free & Hrun & Hi).
  - done.
  - apply PGROUNDUP_aligned; klia.
  - pose proof (PGROUNDUP_bound kend). klia.
  - pose proof (PGROUNDUP_bound kend). consts. Z.div_mod_to_equations. lia.
  - split; [done|constructor| |set_solver]. intros q. split; [set_solver|].
    intros [(Ha & Hk & Hs) Hlt]. exfalso.
    pose proof (PGROUNDUP_bound kend). pose proof (PGROUNDUP_aligned kend).
    consts. Z.div_mod_to_equations. lia.
  - assert (forall pa, pa ∈ free <-> valid_page pa) as Hall.
    { intros pa. rewrite (rng_mem _ _ _ Hi). split; [tauto|]. intros Hp. split; [done|].
      destruct Hp as (? & ? & ?). klia. }
    exists s', free. split; [exact Hrun|split; [|done]].
    split; [apply Hi|apply Hi|by apply (range_inv_valid s' free (Z.max (PGROUNDUP kend) PHYSTOP))| |].
    + intros pa Hp. split; [by intros; apply Hall|]. intros. by apply (rng_ref _ _ _ Hi).
    + intros pa Hp. rewrite (rng_ref _ _ _ Hi) by (by apply Hall). lia.
Qed.

(** ** Properties *)

(** [kinit] builds the free list: from any memory contents and any counts,
    with an empty list, it returns with every page between [end] and [PHYSTOP]
    on the list exactly once, with count zero, and releases its lock. *)
Theorem kinit_spec `{!LinkerOk} s c :
  freelist s = 0 -> LKmem ∉ held c ->
  exists s' free, kinit c s = Ok tt c s' /\ kmem_inv s' free /\
    (forall pa, pa ∈ free <-> valid_page pa).
Proof. apply kinit_run. Qed.

(** [kalloc] on every branch. With an empty list it returns 0 and changes
    nothing. Otherwise it returns the head of the list as an owned page: count
    one, filled with 5s, the rest of the list intact, every other page's bytes
    and count unchanged; the lock is released. *)
Theorem kalloc_spec `{!LinkerOk} s free c :
  kmem_inv s free -> LKmem ∉ held c ->
  exists r s', kalloc c s = Ok r c s' /\
    match free with
    | [] => r = 0 /\ s' = s
    | p :: rest =>
        r = p /\ kmem_inv s' rest /\ ref s' p = 1 /\
        (forall q, valid_page q -> q <> p -> ref s' q = ref s q) /\
        (forall x, p <= x < p + PGSIZE -> ld8 (mem s') x = 5) /\
        agree (.≠ p) (mem s) (mem s')
    end.
Proof.
  intros Hi Hl. destruct free as [|p l].
  { exists 0, s. split; [by apply kalloc_empty|done]. }
  assert (valid_page p) as Hp by (pose proof (inv_valid s _ Hi) as Hv; by inversion Hv).
  pose proof (valid_page_aligned p Hp).
  exists p, (alloc_state s p). split; [by apply (kalloc_run s p l)|].
  split_and!; [done|by apply alloc_state_inv|apply ref_set_eq| | |by apply alloc_state_agree].
  - intros q Hq Hne. unfold alloc_state. rewrite ref_set_mem, ref_set_ne; try done.
    by apply valid_page_aligned.
  - intros x Hx. simpl. rewrite ld8_memset by done. by rewrite decide_True.
Qed.

(** [kfree] on every branch. A pointer that is not a managed page panics.
    A page with more than one reference loses one and keeps its bytes; a page
    with one reference becomes the head of the free list and nothing outside
    it is written; the counts of the other pages never change. *)
Theorem kfree_spec `{!LinkerOk} s free pa c :
  kmem_inv s free -> LKmem ∉ held c ->
  (~ valid_page pa -> kfree pa c s = Panic "kfree") /\
  (valid_page pa -> 0 < ref s pa ->
   exists s', kfree pa c s = Ok tt c s' /\ ref s' pa = ref s pa - 1 /\
     (forall q, valid_page q -> q <> pa -> ref s' q = ref s q) /\
     (1 < ref s pa -> kmem_inv s' free /\ mem s' = mem s) /\
     (ref s pa = 1 -> kmem_inv s' (pa :: free) /\ agree (.≠ pa) (mem s) (mem s'))).
Proof.
  intros Hi Hl. split.
  - intros Hnv. unfold kfree. destruct (_ || _) eqn:E; [done|]. exfalso. apply Hnv.
    apply orb_false_iff in E as [E E3]. apply orb_false_iff in E as [E1 E2].
    apply negb_false_iff, Z.eqb_eq in E1. apply Z.ltb_ge in E2. apply Z.leb_gt in E3.
    split; [done|]. split; [done|]. consts. Z.div_mod_to_equations. lia.
  - intros Hp Hr. pose proof (inv_ref s free Hi pa Hp). pose proof (valid_page_aligned pa Hp).
    destruct (decide (ref s pa = 1)) as [E|E].
    + exists (free_state s pa). split; [by apply kfree_last|].
      split_and!; [rewrite E; apply ref_set_eq| |lia|].
      * intros q Hq Hne. unfold free_state. rewrite ref_set_freelist, !ref_set_mem, ref_set_ne;
          try done. by apply valid_page_aligned.
      * intros _. split; [by apply free_state_inv|by apply free_state_agree].
    + exists (set_refcnt (pa / PGSIZE) (ref s pa - 1) s).
      split; [apply kfree_shared; [done|done|lia]|].
      split_and!; [apply ref_set_eq| | |lia].
      * intros q Hq Hne. rewrite ref_set_ne; try done. by apply valid_page_aligned.
      * intros _. split; [|done]. by apply inv_refcnt; [done|done|lia|lia].
Qed.

(** Freeing the last reference to a page and allocating again gives the
    page back: the same address, the same free list and the same counts. *)
Theorem kfree_kalloc_roundtrip `{!LinkerOk} s free pa c :
  kmem_inv s free -> LKmem ∉ held c -> valid_page pa -> ref s pa = 1 ->
  exists s', (kfree pa;; kalloc) c s = Ok pa c s' /\ kmem_inv s' free /\
    (forall q, valid_page q -> ref s' q = ref s q) /\ agree (.≠ pa) (mem s) (mem s').
Proof.
  intros Hi Hl Hp Hr. pose proof (free_state_inv s pa free Hi Hp Hr) as Hi1.
  pose proof (valid_page_aligned pa Hp).
  exists (alloc_state (free_state s pa) pa). split.
  { rewrite (bind_ok _ _ _ _ _ _ _ (kfree_last s pa c Hp Hl Hr)). by apply (kalloc_run _ pa free). }
  split_and!; [by apply alloc_state_inv| |].
  - intros q Hq. destruct (decide (q = pa)) as [->|Hne].
    + rewrite Hr. apply ref_set_eq.
    + unfold alloc_state, free_state. rewrite ref_set_mem, ref_set_ne, !ref_set_freelist,
        !ref_set_mem, ref_set_ne; try done; by apply valid_page_aligned.
  - eapply agree_trans; [by apply free_state_agree|by apply alloc_state_agree].
Qed.
End kalloc.

(** ** A machine with two managed pages *)
Module Demo.
Definition linker : Linker :=
  {| kend := PHYSTOP - 2 * PGSIZE; etext := KERNBASE + 16 * PGSIZE;
     trampoline := KERNBASE + PGSIZE |}.
#[local] Existing Instance linker.

Definition p1 : Z := PHYSTOP - PGSIZE.
Definition p2 : Z := PHYSTOP - 2 * PGSIZE.
Definition c0 : ctx := Ctx ∅ [] 0 1.

(** Both pages free, and [p1] allocated. *)
Definition both_free : pmem := Pmem (st64 ∅ p1 p2) p1 ∅.
Definition one_used : pmem := Pmem ∅ p2 {[ p1 / PGSIZE := 1 ]}.

Lemma linker_ok : LinkerOk.
Proof. split; vm_compute; intuition discriminate. Qed.

Lemma valid_cases pa : valid_page pa -> pa = p1 \/ pa = p2.
Proof.
  intros (Ha & Hk & Hs). unfold p1, p2. change kend with (PHYSTOP - 2 * PGSIZE) in Hk.
  consts. Z.div_mod_to_equations. lia.
Qed.

Lemma both_free_inv : kmem_inv both_free [p1; p2].
Proof.
  split.
  - vm_compute. done.
  - apply (bool_decide_unpack _). vm_compute. done.
  - apply (bool_decide_unpack _). vm_compute. done.
  - intros pa [-> | ->]%valid_cases; (split; [intros _; set_solver|intros _; vm_compute; done]).
  - intros pa [-> | ->]%valid_cases; vm_compute; intuition congruence.
Qed.

Lemma one_used_inv : kmem_inv one_used [p2].
Proof.
  split.
  - vm_compute. done.
  - apply (bool_decide_unpack _). vm_compute. done.
  - apply (bool_decide_unpack _). vm_compute. done.
  - intros pa [-> | ->]%valid_cases.
    + split; [vm_compute; congruence|]. intros [E|E]%elem_of_cons; [vm_compute in E; congruence|set_solver].
    + split; [set_solver|vm_compute; done].
  - intros pa [-> | ->]%valid_cases; vm_compute; intuition congruence.
Qed.

Lemma kinit_spec_witness :
  exists s' free, kinit c0 (Pmem ∅ 0 ∅) = Ok tt c0 s' /\ kmem_inv s' free /\
    (forall pa, pa ∈ free <-> valid_page pa).
Proof. apply (@kinit_spec linker linker_ok); [reflexivity|set_solver]. Defined.

Lemma kalloc_spec_witness :
  exists r s', kalloc c0 both_free = Ok r c0 s' /\ r = p1 /\ kmem_inv s' [p2].
Proof.
  destruct (@kalloc_spec linker linker_ok both_free [p1; p2] c0) as (r & s' & E & Hr & Hi & _).
  - exact both_free_inv.
  - set_solver.
  - exists r, s'. auto.
Defined.

Lemma kfree_spec_witness :
  kfree 4096 c0 one_used = Panic "kfree" /\
  exists s', kfree p1 c0 one_used = Ok tt c0 s' /\ kmem_inv s' [p1; p2].
Proof.
  destruct (@kfree_spec linker linker_ok one_used [p2] 4096 c0 one_used_inv) as [H1 _]; [set_solver|].
  destruct (@kfree_spec linker linker_ok one_used [p2] p1 c0 one_used_inv) as [_ H2]; [set_solver|].
  split.
  - apply H1. intros [E|E]%valid_cases; vm_compute in E; discriminate.
  - destruct H2 as (s' & E & _ & _ & _ & Hl); [vm_compute; intuition congruence|done|].
    exists s'. split; [done|]. by apply Hl.
Defined.

Lemma kfree_kalloc_roundtrip_witness :
  exists s', (kfree p1;; kalloc) c0 one_used = Ok p1 c0 s' /\ kmem_inv s' [p2].
Proof.
  destruct (@kfree_kalloc_roundtrip linker linker_ok one_used [p2] p1 c0 one_used_inv)
    as (s' & E & Hi & _).
  - set_solver.
  - vm_compute; intuition congruence.
  - reflexivity.
  - exists s'. auto.
Defined.
End Demo.
