(* ===== verification/Vm.v ===== *)
(** * Virtual memory: kernel/vm.c

    The three-level Sv39 page tables live in physical memory: a page-table page
    is an allocated page of 512 words, and every function below reads and
    writes those words. [walk] is the loop of the source over levels 2 and 1;
    the loops over pages carry fuel equal to the number of pages they visit.

    [vmfault] reads [myproc()->sz]; the functions that can reach it take that
    size as the argument [psz]. *)

From S2P Require Import Prelude Riscv Mem Kalloc.

Section vm.
Context `{LK : Linker}.

(** ** Walking a page table *)

(** [for (int level = 2; level > 0; level--)]: the argument is the current
    level; at level 0 the loop is over and the address of the leaf entry is
    returned. *)
Fixpoint walk_loop (level : nat) (pagetable va : Z) (alloc : bool) : M pmem Z :=
  match level with
  | O => mret (pagetable + 8 * PX 0 va)
  | S level' =>
      let pte := pagetable + 8 * PX (Z.of_nat level) va in
      v ← load64 pte;
      if flag v PTE_V then walk_loop level' (PTE2PA v) va alloc
      else if negb alloc then mret 0
      else
        p ← kalloc;
        if p =? 0 then mret 0
        else
          kmemset p 0 PGSIZE;;
          store64 pte (Z.lor (PA2PTE p) PTE_V);;
          walk_loop level' p va alloc
  end.

Definition walk (pagetable va : Z) (alloc : bool) : M pmem Z :=
  if MAXVA <=? va then panic "walk" else walk_loop 2 pagetable va alloc.

Definition walkaddr (pagetable va : Z) : M pmem Z :=
  if MAXVA <=? va then mret 0
  else
    pte ← walk pagetable va false;
    if pte =? 0 then mret 0
    else
      v ← load64 pte;
      if negb (flag v PTE_V) then mret 0
      else if negb (flag v PTE_U) then mret 0
      else mret (PTE2PA v).

Definition ismapped (pagetable va : Z) : M pmem bool :=
  pte ← walk pagetable va false;
  if pte =? 0 then mret false
  else
    v ← load64 pte;
    mret (flag v PTE_V).

(** ** Mappings *)

Fixpoint mappages_loop (fuel : nat) (pagetable a last pa perm : Z) : M pmem Z :=
  match fuel with
  | O => nofuel
  | S fuel =>
      pte ← walk pagetable a true;
      if pte =? 0 then mret (-1)
      else
        v ← load64 pte;
        if flag v PTE_V then panic "mappages: remap"
        else
          store64 pte (Z.lor (Z.lor (PA2PTE pa) perm) PTE_V);;
          if a =? last then mret 0
          else mappages_loop fuel pagetable (u64 (a + PGSIZE)) last (u64 (pa + PGSIZE)) perm
  end.

Definition mappages (pagetable va size pa perm : Z) : M pmem Z :=
  if negb (va mod PGSIZE =? 0) then panic "mappages: va not aligned"
  else if negb (size mod PGSIZE =? 0) then panic "mappages: size not aligned"
  else if size =? 0 then panic "mappages: size"
  else
    mappages_loop (Z.to_nat (size / PGSIZE)) pagetable va (u64 (va + size - PGSIZE)) pa perm.

Definition kvmmap (kpgtbl va pa sz perm : Z) : M pmem unit :=
  r ← mappages kpgtbl va sz pa perm;
  if negb (r =? 0) then panic "kvmmap" else mret tt.

Definition uvmcreate : M pmem Z :=
  pagetable ← kalloc;
  if pagetable =? 0 then mret 0
  else kmemset pagetable 0 PGSIZE;; mret pagetable.

(** [for (a = va; a < va + npages * PGSIZE; a += PGSIZE)] *)
Fixpoint uvmunmap_loop (fuel : nat) (pagetable a stop : Z) (do_free : bool) : M pmem unit :=
  if a <? stop then
    match fuel with
    | O => nofuel
    | S fuel =>
        pte ← walk pagetable a false;
        (if pte =? 0 then mret tt
         else
           v ← load64 pte;
           if negb (flag v PTE_V) then mret tt
           else
             (if do_free then kfree (PTE2PA v) else mret tt);;
             store64 pte 0);;
        uvmunmap_loop fuel pagetable (u64 (a + PGSIZE)) stop do_free
    end
  else mret tt.

Definition uvmunmap (pagetable va npages : Z) (do_free : bool) : M pmem unit :=
  if negb (va mod PGSIZE =? 0) then panic "uvmunmap: not aligned"
  else
    uvmunmap_loop (Z.to_nat npages) pagetable va (u64 (va + u64 (npages * PGSIZE))) do_free.

Definition uvmdealloc (pagetable oldsz newsz : Z) : M pmem Z :=
  if oldsz <=? newsz then mret oldsz
  else
    (if PGROUNDUP newsz <? PGROUNDUP oldsz then
       let npages := i32 (u64 (PGROUNDUP oldsz - PGROUNDUP newsz) / PGSIZE) in
       uvmunmap pagetable (PGROUNDUP newsz) (u64 npages) true
     else mret tt);;
    mret newsz.

Fixpoint uvmalloc_loop (fuel : nat) (pagetable oldsz a newsz xperm : Z) : M pmem Z :=
  if a <? newsz then
    match fuel with
    | O => nofuel
    | S fuel =>
        mem ← kalloc;
        if mem =? 0 then uvmdealloc pagetable a oldsz;; mret 0
        else
          kmemset mem 0 PGSIZE;;
          r ← mappages pagetable a PGSIZE mem (Z.lor (Z.lor PTE_R PTE_U) xperm);
          if negb (r =? 0) then
            kfree mem;; uvmdealloc pagetable a oldsz;; mret 0
          else uvmalloc_loop fuel pagetable oldsz (u64 (a + PGSIZE)) newsz xperm
    end
  else mret newsz.

Definition uvmalloc (pagetable oldsz newsz xperm : Z) : M pmem Z :=
  if newsz <? oldsz then mret oldsz
  else
    let oldsz := PGROUNDUP oldsz in
    uvmalloc_loop (Z.to_nat ((newsz - oldsz) / PGSIZE + 1)) pagetable oldsz oldsz newsz xperm.

(** [freewalk] recurses through page-table pages; [fuel] bounds the depth. *)
Fixpoint freewalk (fuel : nat) (pagetable : Z) : M pmem unit :=
  match fuel with
  | O => nofuel
  | S fuel =>
      for_each (seqZ 0 512) (fun i =>
        pte ← load64 (pagetable + 8 * i);
        if flag pte PTE_V && (Z.land pte (Z.lor (Z.lor PTE_R PTE_W) PTE_X) =? 0) then
          freewalk fuel (PTE2PA pte);;
          store64 (pagetable + 8 * i) 0
        else if flag pte PTE_V then panic "freewalk: leaf"
        else mret tt);;
      kfree pagetable
  end.

(** Page tables have three levels. *)
Definition uvmfree (pagetable sz : Z) : M pmem unit :=
  (if 0 <? sz then uvmunmap pagetable 0 (PGROUNDUP sz / PGSIZE) true else mret tt);;
  freewalk 3 pagetable.

Fixpoint uvmcopy_loop (fuel : nat) (old new i sz : Z) : M pmem Z :=
  if i <? sz then
    match fuel with
    | O => nofuel
    | S fuel =>
        pte ← walk old i false;
        if pte =? 0 then uvmcopy_loop fuel old new (u64 (i + PGSIZE)) sz
        else
          v ← load64 pte;
          if negb (flag v PTE_V) then uvmcopy_loop fuel old new (u64 (i + PGSIZE)) sz
          else
            let pa := PTE2PA v in
            flags ←
              (if flag v PTE_W then
                 store64 pte (Z.land v (Z.lnot PTE_W));;
                 v1 ← load64 pte;
                 store64 pte (Z.lor v1 PTE_COW);;
                 v2 ← load64 pte;
                 mret (PTE_FLAGS v2)
               else mret (PTE_FLAGS v));
            r ← mappages new i PGSIZE pa flags;
            if negb (r =? 0) then
              uvmunmap new 0 (i / PGSIZE) true;; mret (-1)
            else
              inc_refcnt pa;;
              uvmcopy_loop fuel old new (u64 (i + PGSIZE)) sz
    end
  else mret 0.

Definition uvmcopy (old new sz : Z) : M pmem Z :=
  uvmcopy_loop (Z.to_nat (sz / PGSIZE + 1)) old new 0 sz.

Definition uvmclear (pagetable va : Z) : M pmem unit :=
  pte ← walk pagetable va false;
  if pte =? 0 then panic "uvmclear"
  else
    v ← load64 pte;
    store64 pte (Z.land v (Z.lnot PTE_U)).

(** ** Page faults *)

Definition vmfault (psz pagetable va : Z) (read : bool) : M pmem Z :=
  if psz <=? va then mret 0
  else
    let va := PGROUNDDOWN va in
    mapped ← ismapped pagetable va;
    if negb mapped then
      mem ← kalloc;
      if mem =? 0 then mret 0
      else
        kmemset mem 0 PGSIZE;;
        r ← mappages pagetable va PGSIZE mem (Z.lor (Z.lor PTE_W PTE_U) PTE_R);
        if negb (r =? 0) then kfree mem;; mret 0
        else mret mem
    else
      pte ← walk pagetable va false;
      v ← load64 pte;
      let pa := PTE2PA v in
      let flags := PTE_FLAGS v in
      if negb read && flag v PTE_COW then
        mem ← kalloc;
        if mem =? 0 then mret 0
        else
          kmemmove mem pa PGSIZE;;
          let flags := Z.land flags (Z.lnot PTE_COW) in
          let flags := Z.lor flags PTE_W in
          store64 pte (Z.lor (PA2PTE mem) flags);;
          kfree pa;;
          mret mem
      else mret 0.

(** ** Copying between kernel and user memory *)

Fixpoint copyout_loop (fuel : nat) (psz pagetable dstva src len : Z) : M pmem Z :=
  if 0 <? len then
    match fuel with
    | O => nofuel
    | S fuel =>
        let va0 := PGROUNDDOWN dstva in
        if MAXVA <=? va0 then mret (-1)
        else
          pa0 ← walkaddr pagetable va0;
          pa0 ← (if pa0 =? 0 then vmfault psz pagetable va0 false else mret pa0);
          if pa0 =? 0 then mret (-1)
          else
            pte ← walk pagetable va0 false;
            v ← load64 pte;
            pa0 ← (if flag v PTE_COW then vmfault psz pagetable va0 false else mret pa0);
            if pa0 =? 0 then mret (-1)
            else
              v ← load64 pte;
              if negb (flag v PTE_W) then mret (-1)
              else
                let n := PGSIZE - (dstva - va0) in
                let n := if len <? n then len else n in
                kmemmove (pa0 + (dstva - va0)) src n;;
                copyout_loop fuel psz pagetable (u64 (va0 + PGSIZE)) (src + n) (len - n)
    end
  else mret 0.

Definition copyout (psz pagetable dstva src len : Z) : M pmem Z :=
  copyout_loop (Z.to_nat (len / PGSIZE + 2)) psz pagetable dstva src len.

Fixpoint copyin_loop (fuel : nat) (psz pagetable dst srcva len : Z) : M pmem Z :=
  if 0 <? len then
    match fuel with
    | O => nofuel
    | S fuel =>
        let va0 := PGROUNDDOWN srcva in
        pa0 ← walkaddr pagetable va0;
        pa0 ← (if pa0 =? 0 then vmfault psz pagetable va0 false else mret pa0);
        if pa0 =? 0 then mret (-1)
        else
          let n := PGSIZE - (srcva - va0) in
          let n := if len <? n then len else n in
          kmemmove dst (pa0 + (srcva - va0)) n;;
          copyin_loop fuel psz pagetable (dst + n) (u64 (va0 + PGSIZE)) (len - n)
    end
  else mret 0.

Definition copyin (psz pagetable dst srcva len : Z) : M pmem Z :=
  copyin_loop (Z.to_nat (len / PGSIZE + 2)) psz pagetable dst srcva len.

(** The byte loop of [copyinstr] within one page: it returns whether a NUL was
    copied and how many of the [n] bytes were consumed before it. *)
Fixpoint copyinstr_page (n : nat) (dst p : Z) : M pmem (bool * Z) :=
  match n with
  | O => mret (false, 0)
  | S n =>
      ch ← gets (fun s => ld8 (mem s) p);
      if ch =? 0 then
        modify (set_mem (fun m => st8 m dst 0));; mret (true, 0)
      else
        modify (set_mem (fun m => st8 m dst ch));;
        r ← copyinstr_page n (dst + 1) (p + 1);
        mret (r.1, r.2 + 1)
  end.

Fixpoint copyinstr_loop (fuel : nat) (pagetable dst srcva max : Z) (got_null : bool) : M pmem Z :=
  if negb got_null && (0 <? max) then
    match fuel with
    | O => nofuel
    | S fuel =>
        let va0 := PGROUNDDOWN srcva in
        pa0 ← walkaddr pagetable va0;
        if pa0 =? 0 then mret (-1)
        else
          let n := PGSIZE - (srcva - va0) in
          let n := if max <? n then max else n in
          r ← copyinstr_page (Z.to_nat n) dst (pa0 + (srcva - va0));
          copyinstr_loop fuel pagetable (dst + r.2) (u64 (va0 + PGSIZE)) (max - r.2) r.1
    end
  else mret (if got_null then 0 else -1).

Definition copyinstr (pagetable dst srcva max : Z) : M pmem Z :=
  copyinstr_loop (Z.to_nat (max / PGSIZE + 2)) pagetable dst srcva max false.

(** ** The kernel's own page table *)

(** proc.c [proc_mapstacks], called from [kvmmake]. *)
Definition proc_mapstacks (kpgtbl : Z) : M pmem unit :=
  for_each (seqZ 0 NPROC) (fun p =>
    pa ← kalloc;
    if pa =? 0 then panic "kalloc"
    else kvmmap kpgtbl (KSTACK p) pa PGSIZE (Z.lor PTE_R PTE_W)).

Definition kvmmake : M pmem Z :=
  kpgtbl ← kalloc;
  kmemset kpgtbl 0 PGSIZE;;
  kvmmap kpgtbl UART0 UART0 PGSIZE (Z.lor PTE_R PTE_W);;
  kvmmap kpgtbl VIRTIO0 VIRTIO0 PGSIZE (Z.lor PTE_R PTE_W);;
  kvmmap kpgtbl PLIC PLIC 0x4000000 (Z.lor PTE_R PTE_W);;
  kvmmap kpgtbl KERNBASE KERNBASE (u64 (etext - KERNBASE)) (Z.lor PTE_R PTE_X);;
  kvmmap kpgtbl etext etext (u64 (PHYSTOP - etext)) (Z.lor PTE_R PTE_W);;
  kvmmap kpgtbl TRAMPOLINE trampoline PGSIZE (Z.lor PTE_R PTE_X);;
  proc_mapstacks kpgtbl;;
  mret kpgtbl.
End vm.
