(* ===== verification/VmTree.v ===== *)
(** * Page tables as trees

    A page table in memory represents a tree: which page-table pages hang from
    the root at levels 1 and 0, and the valid leaf entries by virtual page
    number. [pt_rep] relates the words of memory to the tree; [walk] is shown
    to follow and to grow it. Everything above (mapping, unmapping, copying,
    faults) is then reasoned about on the finite map of leaves. *)

From S2P Require Import Prelude Riscv Mem Kalloc Vm.

Record ptree := PTree {
  root : Z;
  l1 : gmap Z Z;      (* index in the root -> level-1 page *)
  l0 : gmap Z Z;      (* virtual page number / 512 -> level-0 page *)
  leaves : gmap Z Z;  (* virtual page number -> valid leaf entry *)
}.

Definition set_leaves (f : gmap Z Z -> gmap Z Z) (t : ptree) : ptree :=
  PTree (root t) (l1 t) (l0 t) (f (leaves t)).

(** The page-table pages of a tree. *)
Definition pt_pages (t : ptree) : list Z :=
  root t :: (map_to_list (l1 t)).*2 ++ (map_to_list (l0 t)).*2.

(** The word of a non-leaf slot. *)
Definition entry (o : option Z) : Z :=
  match o with Some p => Z.lor (PA2PTE p) PTE_V | None => 0 end.

(** Number of virtual pages below [MAXVA]. *)
Definition NVPN : Z := MAXVA / PGSIZE.

(** A leaf entry the kernel writes: valid, for a physical page. *)
Definition leaf_ok (pte : Z) : Prop := flag pte PTE_V = true /\ 0 <= pte < 2 ^ 54.

Section tree.
Context `{LK : Linker}.

Record pt_rep (m : gmap Z Z) (t : ptree) : Prop := {
  rep_root : forall i, 0 <= i < 512 -> ld64 m (root t + 8 * i) = entry (l1 t !! i);
  rep_l1 : forall i p, l1 t !! i = Some p ->
    forall j, 0 <= j < 512 -> ld64 m (p + 8 * j) = entry (l0 t !! (512 * i + j));
  rep_l0 : forall k q, l0 t !! k = Some q ->
    forall j, 0 <= j < 512 -> ld64 m (q + 8 * j) = default 0 (leaves t !! (512 * k + j));
  rep_l0_up : forall k q, l0 t !! k = Some q -> is_Some (l1 t !! (k / 512));
  rep_leaf_up : forall v pte, leaves t !! v = Some pte -> is_Some (l0 t !! (v / 512));
  rep_leaf_ok : forall v pte, leaves t !! v = Some pte -> leaf_ok pte;
  rep_l1_dom : forall i p, l1 t !! i = Some p -> 0 <= i < 512;
  rep_nodup : NoDup (pt_pages t);
  rep_valid : Forall valid_page (pt_pages t);
}.

(** A tree in a machine state: represented, and its pages not free. *)
Record tree_ok (s : pmem) (free : list Z) (t : ptree) : Prop := {
  tok_kmem : kmem_inv s free;
  tok_rep : pt_rep (mem s) t;
  tok_ref : forall p, p ∈ pt_pages t -> 0 < ref s p;
}.

(** ** Membership *)

Lemma root_in t : root t ∈ pt_pages t.
Proof. apply elem_of_cons. by left. Qed.

Lemma l1_in t i p : l1 t !! i = Some p -> p ∈ pt_pages t.
Proof.
  intros H. apply elem_of_cons. right. apply elem_of_app. left.
  apply list_elem_of_fmap. exists (i, p). split; [done|]. by apply elem_of_map_to_list.
Qed.

Lemma l0_in t k q : l0 t !! k = Some q -> q ∈ pt_pages t.
Proof.
  intros H. apply elem_of_cons. right. apply elem_of_app. right.
  apply list_elem_of_fmap. exists (k, q). split; [done|]. by apply elem_of_map_to_list.
Qed.

Lemma pt_pages_inv t p : p ∈ pt_pages t ->
  p = root t \/ (exists i, l1 t !! i = Some p) \/ (exists k, l0 t !! k = Some p).
Proof.
  intros [->|H]%elem_of_cons; [by left|right].
  apply elem_of_app in H as [H|H]; apply list_elem_of_fmap in H as ([i x] & -> & Hin);
    apply elem_of_map_to_list in Hin; eauto.
Qed.

Lemma rep_valid_in m t p : pt_rep m t -> p ∈ pt_pages t -> valid_page p.
Proof. intros Hr Hp. pose proof (rep_valid m t Hr) as Hv. rewrite Forall_forall in Hv. auto. Qed.

Lemma rep_aligned m t p : pt_rep m t -> p ∈ pt_pages t -> p mod PGSIZE = 0.
Proof. intros. eapply valid_page_aligned, rep_valid_in; eauto. Qed.

Lemma tok_not_free s free t p : tree_ok s free t -> p ∈ pt_pages t -> p ∉ free.
Proof.
  intros Ht Hp. apply (inv_not_free s); [apply Ht| |by apply (tok_ref s free t)].
  eapply rep_valid_in; [apply Ht|done].
Qed.

(** Words of distinct slots are distinct. *)
Lemma word_inj p q i j : p mod PGSIZE = 0 -> q mod PGSIZE = 0 ->
  0 <= i < 512 -> 0 <= j < 512 -> p + 8 * i = q + 8 * j -> p = q /\ i = j.
Proof. consts. intros. Z.div_mod_to_equations. lia. Qed.

(** The page-table pages at the three levels are different pages. *)
Lemma nodup_l1_root m t i p : pt_rep m t -> l1 t !! i = Some p -> p <> root t.
Proof.
  intros Hr Hp ->. pose proof (rep_nodup m t Hr) as Hn. unfold pt_pages in Hn.
  inversion_clear Hn as [|? ? Hx _]. apply Hx, elem_of_app. left.
  apply list_elem_of_fmap. exists (i, root t). split; [done|]. by apply elem_of_map_to_list.
Qed.

Lemma nodup_l0_root m t i p : pt_rep m t -> l0 t !! i = Some p -> p <> root t.
Proof.
  intros Hr Hp ->. pose proof (rep_nodup m t Hr) as Hn. unfold pt_pages in Hn.
  inversion_clear Hn as [|? ? Hx _]. apply Hx, elem_of_app. right.
  apply list_elem_of_fmap. exists (i, root t). split; [done|]. by apply elem_of_map_to_list.
Qed.

Lemma nodup_l1_l0 m t i k p q : pt_rep m t -> l1 t !! i = Some p -> l0 t !! k = Some q -> p <> q.
Proof.
  intros Hr Hp Hq ->. pose proof (rep_nodup m t Hr) as Hn. unfold pt_pages in Hn.
  inversion_clear Hn as [|? ? _ Hx]. apply NoDup_app in Hx as (_ & Hd & _).
  apply (Hd q).
  - apply list_elem_of_fmap. exists (i, q). split; [done|]. by apply elem_of_map_to_list.
  - apply list_elem_of_fmap. exists (k, q). split; [done|]. by apply elem_of_map_to_list.
Qed.

(** A map whose values do not repeat is injective. *)
Lemma nodup_values_inj (m : gmap Z Z) i j p :
  NoDup (map_to_list m).*2 -> m !! i = Some p -> m !! j = Some p -> i = j.
Proof.
  intros Hn Hi Hj. apply elem_of_map_to_list in Hi, Hj.
  apply list_elem_of_lookup in Hi as [a Ha]. apply list_elem_of_lookup in Hj as [b Hb].
  assert (a = b) as ->.
  { eapply NoDup_lookup; [exact Hn| |]; rewrite list_lookup_fmap.
    - by rewrite Ha. - by rewrite Hb. }
  rewrite Ha in Hb. by injection Hb.
Qed.

Lemma nodup_l1_inj m t i j p : pt_rep m t -> l1 t !! i = Some p -> l1 t !! j = Some p -> i = j.
Proof.
  intros Hr. apply nodup_values_inj. pose proof (rep_nodup m t Hr) as Hn.
  inversion_clear Hn as [|? ? _ Hx]. by apply NoDup_app in Hx as (? & _ & _).
Qed.

Lemma nodup_l0_inj m t i j p : pt_rep m t -> l0 t !! i = Some p -> l0 t !! j = Some p -> i = j.
Proof.
  intros Hr. apply nodup_values_inj. pose proof (rep_nodup m t Hr) as Hn.
  inversion_clear Hn as [|? ? _ Hx]. by apply NoDup_app in Hx as (_ & _ & ?).
Qed.

(** ** Frame: memory outside the tree does not matter *)

Lemma pt_rep_agree m m' t :
  pt_rep m t -> agree (fun q => q ∈ pt_pages t) m m' -> pt_rep m' t.
Proof.
  intros Hr HA.
  assert (forall p j, p ∈ pt_pages t -> 0 <= j < 512 -> ld64 m' (p + 8 * j) = ld64 m (p + 8 * j)) as HW.
  { intros p j Hp Hj. pose proof (rep_aligned m t p Hr Hp).
    eapply agree_ld64; [exact HA|by apply aligned_word|]. by rewrite page_entry. }
  destruct Hr as [H1 H2 H3 H4 H5 H6 H7 H8 H9]. split; try done.
  - intros i Hi. rewrite HW by (done || apply root_in). by apply H1.
  - intros i p Hp j Hj. rewrite HW by (done || by eapply l1_in). by apply H2.
  - intros k q Hq j Hj. rewrite HW by (done || by eapply l0_in). by apply H3.
Qed.

(** ** Reading entries *)

Lemma flag_entry_None : flag (entry None) PTE_V = false.
Proof. done. Qed.

Lemma flag_entry_Some p : phys_page p -> flag (entry (Some p)) PTE_V = true.
Proof. intros Hp. unfold flag, entry. by rewrite pte_pack_flag by (done || lia). Qed.

Lemma PTE2PA_entry p : phys_page p -> PTE2PA (entry (Some p)) = p.
Proof. intros Hp. by apply (pte_pack p PTE_V Hp). Qed.

Lemma entry_bound p : phys_page p -> 0 <= entry (Some p) < 2 ^ 64.
Proof. intros Hp. by apply pte_pack_bound. Qed.

(** The indices [walk] takes from an address, on page numbers. *)
Lemma idx_l0 va : 0 <= va < MAXVA -> 512 * PX 2 va + PX 1 va = vpn va / 512.
Proof.
  intros. rewrite PX2_vpn, PX1_vpn by done. symmetry. apply Z.div_mod. lia.
Qed.

Lemma idx_leaf va : 512 * (vpn va / 512) + PX 0 va = vpn va.
Proof. rewrite PX0_vpn. symmetry. apply Z.div_mod. lia. Qed.

Lemma idx_up va : 0 <= va < MAXVA -> vpn va / 512 / 512 = PX 2 va.
Proof. intros. by rewrite PX2_vpn. Qed.

(** The address of the leaf entry of [va], when its level-0 page exists. *)
Definition leaf_addr (t : ptree) (va : Z) : Z :=
  match l0 t !! (vpn va / 512) with Some q => q + 8 * PX 0 va | None => 0 end.

(** [walk] without allocation reads its way down the tree. *)
Lemma walk_lookup `{!LinkerOk} s t va c :
  pt_rep (mem s) t -> 0 <= va < MAXVA ->
  walk (root t) va false c s = Ok (leaf_addr t va) c s.
Proof.
  intros Hr Hva. unfold walk, leaf_addr. destruct (Z.leb_spec MAXVA va); [lia|].
  cbn [walk_loop]. unfold load64. munfold. change (Z.of_nat 2) with 2. change (Z.of_nat 1) with 1.
  rewrite (rep_root _ _ Hr) by (by apply PX_bound).
  destruct (l1 t !! PX 2 va) as [p|] eqn:E1.
  2: { rewrite flag_entry_None. simpl. destruct (l0 t !! (vpn va / 512)) eqn:E0; [|done].
       apply (rep_l0_up _ _ Hr) in E0. rewrite idx_up, E1 in E0 by done. by destruct E0. }
  assert (phys_page p) by (eapply valid_page_phys, rep_valid_in; [done|by eapply l1_in]).
  rewrite flag_entry_Some, PTE2PA_entry by done.
  rewrite (rep_l1 _ _ Hr _ _ E1) by (by apply PX_bound). rewrite idx_l0 by done.
  destruct (l0 t !! (vpn va / 512)) as [q|] eqn:E0; [|by rewrite flag_entry_None].
  assert (phys_page q) by (eapply valid_page_phys, rep_valid_in; [done|by eapply l0_in]).
  by rewrite flag_entry_Some, PTE2PA_entry.
Qed.

(** The leaf entry of [va], zero when there is none. *)
Definition leaf (t : ptree) (va : Z) : Z := default 0 (leaves t !! vpn va).

Lemma leaf_addr_load m t va : pt_rep m t -> leaf_addr t va <> 0 ->
  ld64 m (leaf_addr t va) = leaf t va.
Proof.
  intros Hr. unfold leaf_addr, leaf. destruct (l0 t !! _) as [q|] eqn:E; [|done]. intros _.
  rewrite (rep_l0 _ _ Hr _ _ E) by (by apply PX_bound). by rewrite idx_leaf.
Qed.

Lemma leaf_addr_pos `{!LinkerOk} m t va q : pt_rep m t ->
  l0 t !! (vpn va / 512) = Some q -> leaf_addr t va = q + 8 * PX 0 va /\ leaf_addr t va <> 0.
Proof.
  intros Hr E. unfold leaf_addr. rewrite E.
  assert (valid_page q) as Hq by (eapply rep_valid_in; [done|by eapply l0_in]).
  pose proof (valid_page_pos q Hq). pose proof (PX_bound 0 va). split; [done|klia].
Qed.

Lemma leaf_addr_zero `{!LinkerOk} m t va : pt_rep m t -> leaf_addr t va = 0 ->
  l0 t !! (vpn va / 512) = None /\ leaves t !! vpn va = None.
Proof.
  intros Hr Hz. destruct (l0 t !! (vpn va / 512)) as [q|] eqn:E.
  - by destruct (leaf_addr_pos m t va q Hr E).
  - split; [done|]. destruct (leaves t !! vpn va) eqn:El; [|done].
    apply (rep_leaf_up _ _ Hr) in El. rewrite E in El. by destruct El.
Qed.

(** ** Growing a tree *)

(** [s'], [free'] and [t'] follow from [s], [free] and [t] by turning the
    pages [new] from the head of the free list into page-table pages; the
    leaves do not change and neither does memory outside. *)
Record grows (s : pmem) (free : list Z) (t : ptree)
    (s' : pmem) (free' : list Z) (t' : ptree) (new : list Z) : Prop := {
  gr_free : free = new ++ free';
  gr_ok : tree_ok s' free' t';
  gr_root : root t' = root t;
  gr_leaves : leaves t' = leaves t;
  gr_l0 : l0 t ⊆ l0 t';
  gr_pages : pt_pages t' ≡ₚ (new ++ pt_pages t);
  gr_new : forall p, p ∈ new -> ref s' p = 1;
  gr_ref : forall q, valid_page q -> q ∉ new -> ref s' q = ref s q;
  gr_mem : agree (fun q => (q ∉ new) /\ (q ∉ pt_pages t)) (mem s) (mem s');
}.

Lemma grows_refl s free t : tree_ok s free t -> grows s free t s free t [].
Proof. intros Ht. split; try done. set_solver. Qed.

Lemma grows_trans s1 f1 t1 s2 f2 t2 n1 s3 f3 t3 n2 :
  grows s1 f1 t1 s2 f2 t2 n1 -> grows s2 f2 t2 s3 f3 t3 n2 ->
  kmem_inv s1 f1 ->
  grows s1 f1 t1 s3 f3 t3 (n1 ++ n2).
Proof.
  intros H1 H2 Hk.
  assert (NoDup (n1 ++ n2 ++ f3)) as Hn.
  { rewrite <- (gr_free _ _ _ _ _ _ _ H2), <- (gr_free _ _ _ _ _ _ _ H1).
    apply Hk. }
  assert (Forall valid_page (n1 ++ n2 ++ f3)) as Hv.
  { rewrite <- (gr_free _ _ _ _ _ _ _ H2), <- (gr_free _ _ _ _ _ _ _ H1). apply Hk. }
  rewrite Forall_forall in Hv.
  apply NoDup_app in Hn as (_ & Hd & _).
  split.
  - rewrite <- app_assoc, <- (gr_free _ _ _ _ _ _ _ H2). apply H1.
  - apply H2.
  - rewrite (gr_root _ _ _ _ _ _ _ H2). apply H1.
  - rewrite (gr_leaves _ _ _ _ _ _ _ H2). apply H1.
  - etrans; [apply H1|apply H2].
  - rewrite (gr_pages _ _ _ _ _ _ _ H2), (gr_pages _ _ _ _ _ _ _ H1).
    rewrite app_assoc, (Permutation_app_comm n2 n1). done.
  - intros p [Hp|Hp]%elem_of_app; [|by apply H2].
    rewrite (gr_ref _ _ _ _ _ _ _ H2); [by apply H1|apply Hv; set_solver|set_solver].
  - intros q Hq Hnq. rewrite (gr_ref _ _ _ _ _ _ _ H2), (gr_ref _ _ _ _ _ _ _ H1); set_solver.
  - eapply agree_trans.
    + eapply agree_weaken; [|apply H1]. set_solver.
    + eapply agree_weaken; [|apply H2]. simpl. intros x [Hx1 Hx2].
      rewrite (gr_pages _ _ _ _ _ _ _ H1). set_solver.
Qed.

(** The state after a page-table page [p] is allocated, zeroed and entered in
    the slot at [a]. *)
Definition new_table (s : pmem) (p a : Z) : pmem :=
  set_mem (fun m => st64 m a (Z.lor (PA2PTE p) PTE_V))
    (set_mem (fun m => memset m p 0 PGSIZE) (alloc_state s p)).

Section new_table.
Context {LKO : LinkerOk} (s : pmem) (p : Z) (rest : list Z) (t : ptree) (pg i : Z).
Hypothesis Htok : tree_ok s (p :: rest) t.
Hypothesis Hpg : pg ∈ pt_pages t.
Hypothesis Hi : 0 <= i < 512.

Lemma new_page_valid : valid_page p.
Proof using Htok. pose proof (inv_valid _ _ (tok_kmem _ _ _ Htok)) as H. by inversion H. Qed.

Lemma new_page_fresh : p ∉ pt_pages t.
Proof using Htok. intros Hp. apply (tok_not_free s (p :: rest) t p Htok Hp), elem_of_cons. by left. Qed.

Lemma new_table_agree :
  agree (fun q => q <> p /\ q <> pg) (mem s) (mem (new_table s p (pg + 8 * i))).
Proof.
  pose proof (valid_page_aligned p new_page_valid).
  pose proof (rep_aligned _ _ _ (tok_rep _ _ _ Htok) Hpg).
  unfold new_table. simpl.
  eapply agree_trans; [apply (agree_weaken (.≠ p)); [by intros ? []|by apply alloc_state_agree]|].
  eapply agree_trans; [apply (agree_weaken (.≠ p)); [by intros ? []|by apply agree_memset]|].
  apply (agree_weaken (.≠ pg)); [by intros ? []|].
  apply agree_st64; [by apply aligned_word|by apply page_entry].
Qed.

Lemma new_table_inv : kmem_inv (new_table s p (pg + 8 * i)) rest.
Proof.
  pose proof (tok_kmem _ _ _ Htok) as Hk.
  pose proof (inv_nodup _ _ Hk) as Hn. apply NoDup_cons in Hn as [Hpr _].
  apply (inv_mem (alloc_state s p)); [by apply alloc_state_inv|done|done|].
  intros x Hx. transitivity (ld8 (mem s) x).
  - apply new_table_agree. split; [set_solver|]. intros E.
    apply (tok_not_free s (p :: rest) t pg Htok Hpg). set_solver.
  - symmetry. apply alloc_state_agree; [apply valid_page_aligned, new_page_valid|set_solver].
Qed.

Lemma new_table_ref q : valid_page q -> q <> p ->
  ref (new_table s p (pg + 8 * i)) q = ref s q.
Proof.
  intros Hq Hne. unfold new_table, alloc_state. rewrite !ref_set_mem, ref_set_ne; try done;
    apply valid_page_aligned; [apply new_page_valid|done].
Qed.

Lemma new_table_ref_new : ref (new_table s p (pg + 8 * i)) p = 1.
Proof. apply ref_set_eq. Qed.

(** Words of the old pages are as before, except the slot; the words of the
    new page are zero. *)
Lemma new_table_old q j : q ∈ pt_pages t -> 0 <= j < 512 ->
  ld64 (mem (new_table s p (pg + 8 * i))) (q + 8 * j) =
  if decide (q = pg /\ j = i) then entry (Some p) else ld64 (mem s) (q + 8 * j).
Proof.
  intros Hq Hj. pose proof (tok_rep _ _ _ Htok) as Hr.
  pose proof (rep_aligned _ _ _ Hr Hpg). pose proof (rep_aligned _ _ _ Hr Hq).
  pose proof (valid_page_phys p new_page_valid). pose proof (valid_page_aligned p new_page_valid).
  unfold new_table. simpl. rewrite ld64_st64 by (by apply entry_bound || by apply aligned_word).
  destruct (decide (pg + 8 * i = q + 8 * j)) as [E|E].
  - apply word_inj in E as [-> ->]; try done. by rewrite decide_True.
  - rewrite decide_False by (intros [-> ->]; done).
    apply (agree_ld64 (.≠ p)); [|by apply aligned_word|].
    + eapply agree_trans; [by apply alloc_state_agree|by apply agree_memset].
    + rewrite page_entry by done. intros ->. by apply new_page_fresh.
Qed.

Lemma new_table_new j : 0 <= j < 512 ->
  ld64 (mem (new_table s p (pg + 8 * i))) (p + 8 * j) = 0.
Proof.
  intros Hj. pose proof (tok_rep _ _ _ Htok) as Hr. pose proof (rep_aligned _ _ _ Hr Hpg).
  pose proof (valid_page_phys p new_page_valid). pose proof (valid_page_aligned p new_page_valid).
  unfold new_table. simpl. rewrite ld64_st64 by (by apply entry_bound || by apply aligned_word).
  rewrite decide_False.
  - apply ldn_memset_zero; [done|lia|]. klia.
  - intros E. apply word_inj in E as [-> _]; try done. by apply new_page_fresh.
Qed.
End new_table.

Definition add_l1 (i p : Z) (t : ptree) : ptree :=
  PTree (root t) (<[i := p]> (l1 t)) (l0 t) (leaves t).
Definition add_l0 (k p : Z) (t : ptree) : ptree :=
  PTree (root t) (l1 t) (<[k := p]> (l0 t)) (leaves t).

Lemma pages_add_l1 i p t : l1 t !! i = None -> pt_pages (add_l1 i p t) ≡ₚ p :: pt_pages t.
Proof.
  intros H. unfold pt_pages, add_l1; simpl. rewrite map_to_list_insert by done. simpl.
  by rewrite Permutation_swap.
Qed.

Lemma pages_add_l0 k p t : l0 t !! k = None -> pt_pages (add_l0 k p t) ≡ₚ p :: pt_pages t.
Proof.
  intros H. unfold pt_pages, add_l0; simpl. rewrite map_to_list_insert by done. simpl.
  rewrite <- Permutation_middle. by rewrite Permutation_swap.
Qed.

Lemma pages_perm_ok m t t' p : pt_rep m t -> pt_pages t' ≡ₚ p :: pt_pages t ->
  valid_page p -> p ∉ pt_pages t -> NoDup (pt_pages t') /\ Forall valid_page (pt_pages t').
Proof.
  intros Hr HP Hv Hn. split; rewrite HP; constructor; try done; apply Hr.
Qed.

(** Entering a fresh page in an empty slot of the root. *)
Lemma new_table_l1 `{!LinkerOk} s p rest t i :
  tree_ok s (p :: rest) t -> 0 <= i < 512 -> l1 t !! i = None ->
  grows s (p :: rest) t (new_table s p (root t + 8 * i)) rest (add_l1 i p t) [p].
Proof.
  intros Ht Hi Hnone. pose proof (tok_rep _ _ _ Ht) as Hr.
  pose proof (new_page_valid s p rest t Ht) as Hv. pose proof (new_page_fresh s p rest t Ht) as Hfr.
  pose proof (pages_add_l1 i p t Hnone) as HP.
  destruct (pages_perm_ok _ t (add_l1 i p t) p Hr HP Hv Hfr) as [Hnd Hval].
  pose proof (new_table_old s p rest t (root t) i Ht (root_in t) Hi) as Hold.
  split; try done.
  - split.
    + by apply (new_table_inv s p rest t (root t) i Ht (root_in t) Hi).
    + split; cbn [root l1 l0 leaves add_l1 add_l0]; [..|done|done].
      * intros j Hj. rewrite Hold by (done || apply root_in). rewrite lookup_insert.
        destruct (decide (i = j)) as [->|Hne]; [by rewrite decide_True|].
        rewrite decide_False by naive_solver. by apply (rep_root _ _ Hr).
      * intros j q Hq k Hk. rewrite lookup_insert in Hq.
        destruct (decide (i = j)) as [<-|Hne].
        -- injection Hq as <-. rewrite (new_table_new s p rest t (root t) i Ht (root_in t) Hi k Hk).
           destruct (l0 t !! (512 * i + k)) as [x|] eqn:E; [|done].
           apply (rep_l0_up _ _ Hr) in E. replace ((512 * i + k) / 512) with i in E
             by (Z.div_mod_to_equations; lia). rewrite Hnone in E. by destruct E.
        -- rewrite Hold by (done || by eapply l1_in). rewrite decide_False.
           ++ by apply (rep_l1 _ _ Hr).
           ++ intros [-> _]. by apply (nodup_l1_root _ _ _ _ Hr Hq).
      * intros k q Hq j Hj. rewrite Hold by (done || by eapply l0_in). rewrite decide_False.
        -- by apply (rep_l0 _ _ Hr).
        -- intros [-> _]. by apply (nodup_l0_root _ _ _ _ Hr Hq).
      * intros k q Hq. apply (rep_l0_up _ _ Hr) in Hq as [x Hx].
        rewrite lookup_insert. case_decide; eauto.
      * apply Hr.
      * apply Hr.
      * intros j q. rewrite lookup_insert. case_decide; [by intros _; subst|apply (rep_l1_dom _ _ Hr)].
    + intros q. rewrite HP. intros [->|Hq]%elem_of_cons.
      * rewrite new_table_ref_new. lia.
      * rewrite (new_table_ref s p rest t (root t) i Ht); [by apply (tok_ref _ _ _ Ht)|..].
        -- by eapply rep_valid_in.
        -- intros ->. done.
  - intros q ->%list_elem_of_singleton. apply new_table_ref_new.
  - intros q Hq Hne. apply (new_table_ref s p rest t (root t) i Ht); set_solver.
  - eapply agree_weaken; [|apply (new_table_agree s p rest t (root t) i Ht (root_in t) Hi)].
    intros x [H1 H2]. split; [set_solver|]. intros ->. apply H2, root_in.
Qed.

(** Entering a fresh page in an empty slot of a level-1 page. *)
Lemma new_table_l0 `{!LinkerOk} s p rest t i j pg :
  tree_ok s (p :: rest) t -> l1 t !! i = Some pg -> 0 <= j < 512 ->
  l0 t !! (512 * i + j) = None ->
  grows s (p :: rest) t (new_table s p (pg + 8 * j)) rest (add_l0 (512 * i + j) p t) [p].
Proof.
  intros Ht Hpg Hj Hnone. pose proof (tok_rep _ _ _ Ht) as Hr.
  pose proof (new_page_valid s p rest t Ht) as Hv. pose proof (new_page_fresh s p rest t Ht) as Hfr.
  pose proof (pages_add_l0 (512 * i + j) p t Hnone) as HP.
  destruct (pages_perm_ok _ t (add_l0 (512 * i + j) p t) p Hr HP Hv Hfr) as [Hnd Hval].
  assert (pg ∈ pt_pages t) as Hin by (by eapply l1_in).
  pose proof (new_table_old s p rest t pg j Ht Hin Hj) as Hold.
  split; try done.
  - split.
    + by apply (new_table_inv s p rest t pg j Ht Hin Hj).
    + split; cbn [root l1 l0 leaves add_l1 add_l0]; [..|done|done].
      * intros k Hk. rewrite Hold by (done || apply root_in). rewrite decide_False.
        -- by apply (rep_root _ _ Hr).
        -- intros [E _]. by apply (nodup_l1_root _ _ _ _ Hr Hpg).
      * intros i' q Hq k Hk. rewrite Hold by (done || by eapply l1_in). rewrite lookup_insert.
        destruct (decide (512 * i + j = 512 * i' + k)) as [E|Hne].
        -- assert (i = i' /\ j = k) as [-> ->] by lia.
           rewrite Hq in Hpg. injection Hpg as ->. by rewrite decide_True.
        -- rewrite decide_False; [by apply (rep_l1 _ _ Hr)|]. intros [-> ->].
           apply Hne. by rewrite (nodup_l1_inj _ _ _ _ _ Hr Hpg Hq).
      * intros k q Hq a Ha. rewrite lookup_insert in Hq.
        destruct (decide (512 * i + j = k)) as [<-|Hne].
        -- injection Hq as <-. rewrite (new_table_new s p rest t pg j Ht Hin Hj a Ha).
           destruct (leaves t !! (512 * (512 * i + j) + a)) as [x|] eqn:E; [|done].
           apply (rep_leaf_up _ _ Hr) in E.
           replace ((512 * (512 * i + j) + a) / 512) with (512 * i + j) in E
             by (Z.div_mod_to_equations; lia). rewrite Hnone in E. by destruct E.
        -- rewrite Hold by (done || by eapply l0_in). rewrite decide_False.
           ++ by apply (rep_l0 _ _ Hr).
           ++ intros [-> _]. by apply (nodup_l1_l0 _ _ _ _ _ _ Hr Hpg Hq).
      * intros k q Hq. rewrite lookup_insert in Hq.
        destruct (decide (512 * i + j = k)) as [<-|Hne]; [|by apply (rep_l0_up _ _ Hr k q)].
        replace ((512 * i + j) / 512) with i by (Z.div_mod_to_equations; lia). by eexists.
      * intros v pte Hl. apply (rep_leaf_up _ _ Hr) in Hl as [x Hx].
        rewrite lookup_insert. case_decide; eauto.
      * apply Hr.
      * apply Hr.
    + intros q. rewrite HP. intros [->|Hq]%elem_of_cons.
      * rewrite new_table_ref_new. lia.
      * rewrite (new_table_ref s p rest t pg j Ht); [by apply (tok_ref _ _ _ Ht)|..].
        -- by eapply rep_valid_in.
        -- intros ->. done.
  - simpl. by apply insert_subseteq.
  - intros q ->%list_elem_of_singleton. apply new_table_ref_new.
  - intros q Hq Hne. apply (new_table_ref s p rest t pg j Ht); set_solver.
  - eapply agree_weaken; [|apply (new_table_agree s p rest t pg j Ht Hin Hj)].
    intros x [H1 H2]. split; [set_solver|]. intros ->. done.
Qed.

(** What [walk] with allocation returns: the address of the leaf slot in the
    grown tree, or 0 when the free list ran out. *)
Definition walk_result (n : nat) (free : list Z) (t' : ptree) (free' : list Z) (va r : Z) : Prop :=
  (r = 0 /\ free' = [] /\ (length free <= n)%nat) \/
  (r = leaf_addr t' va /\ is_Some (l0 t' !! (vpn va / 512)) /\ (length free <= S n + length free')%nat).

(** The part of [walk_loop] that enters a fresh page in the slot at [a]. *)
Lemma kalloc_table_run `{!LinkerOk} {A} s p rest a (d : M pmem A) (k : Z -> M pmem A) c :
  kmem_inv s (p :: rest) -> LKmem ∉ held c ->
  (p ← kalloc;
   if p =? 0 then d
   else kmemset p 0 PGSIZE;; store64 a (Z.lor (PA2PTE p) PTE_V);; k p) c s =
  k p c (new_table s p a).
Proof.
  intros Hk Hl. rewrite (bind_ok _ _ _ _ _ _ _ (kalloc_run s p rest c Hk Hl)).
  pose proof (inv_valid _ _ Hk) as Hv. inversion_clear Hv as [|? ? Hp _].
  pose proof (valid_page_pos p Hp). destruct (Z.eqb_spec p 0); [klia|]. done.
Qed.

Lemma walk_level1 `{!LinkerOk} s free t va pg c :
  tree_ok s free t -> 0 <= va < MAXVA -> LKmem ∉ held c -> l1 t !! PX 2 va = Some pg ->
  exists r s' free' t' new, walk_loop 1 pg va true c s = Ok r c s' /\
    grows s free t s' free' t' new /\ walk_result 0 free t' free' va r.
Proof.
  intros Ht Hva Hl E1. pose proof (tok_rep _ _ _ Ht) as Hr.
  cbn [walk_loop]. change (Z.of_nat 1) with 1. unfold load64 at 1.
  rewrite (bind_ok _ _ c s (ld64 (mem s) (pg + 8 * PX 1 va)) c s) by done.
  rewrite (rep_l1 _ _ Hr _ _ E1) by (by apply PX_bound). rewrite idx_l0 by done.
  destruct (l0 t !! (vpn va / 512)) as [q|] eqn:E0.
  - assert (phys_page q) by (eapply valid_page_phys, rep_valid_in; [done|by eapply l0_in]).
    rewrite flag_entry_Some, PTE2PA_entry by done.
    exists (q + 8 * PX 0 va), s, free, t, []. split; [done|]. split; [by apply grows_refl|].
    right. unfold leaf_addr. rewrite E0. split_and!; [done|eauto|lia].
  - rewrite flag_entry_None. cbn [negb].
    destruct free as [|p rest].
    + rewrite (bind_ok _ _ _ _ _ _ _ (kalloc_empty s c (tok_kmem _ _ _ Ht) Hl)).
      exists 0, s, [], t, []. split; [done|]. split; [by apply grows_refl|]. by left.
    + pose proof (new_table_l0 s p rest t (PX 2 va) (PX 1 va) pg Ht E1) as Hg.
      rewrite idx_l0 in Hg by done. specialize (Hg (PX_bound 1 va ltac:(lia)) E0).
      eexists _, _, rest, _, [p]. split.
      { rewrite (kalloc_table_run s p rest _ _ (fun p => mret (p + 8 * PX 0 va)) c (tok_kmem _ _ _ Ht) Hl). done. }
      split; [exact Hg|].
      assert (l0 (add_l0 (vpn va / 512) p t) !! (vpn va / 512) = Some p) as El by apply lookup_insert_eq.
      right. unfold leaf_addr. rewrite El. split_and!; [done|eauto|simpl; lia].
Qed.

Lemma walk_loop_S level' pagetable va alloc :
  walk_loop (S level') pagetable va alloc =
  (v ← load64 (pagetable + 8 * PX (Z.of_nat (S level')) va);
   if flag v PTE_V then walk_loop level' (PTE2PA v) va alloc
   else if negb alloc then mret 0
   else
     p ← kalloc;
     if p =? 0 then mret 0
     else
       kmemset p 0 PGSIZE;;
       store64 (pagetable + 8 * PX (Z.of_nat (S level')) va) (Z.lor (PA2PTE p) PTE_V);;
       walk_loop level' p va alloc).
Proof. done. Qed.

Lemma walk_alloc `{!LinkerOk} s free t va c :
  tree_ok s free t -> 0 <= va < MAXVA -> LKmem ∉ held c ->
  exists r s' free' t' new, walk (root t) va true c s = Ok r c s' /\
    grows s free t s' free' t' new /\ walk_result 1 free t' free' va r.
Proof.
  intros Ht Hva Hl. pose proof (tok_rep _ _ _ Ht) as Hr.
  unfold walk. destruct (Z.leb_spec MAXVA va); [lia|]. rewrite (walk_loop_S 1).
  change (Z.of_nat 2) with 2. unfold load64 at 1.
  rewrite (bind_ok _ _ c s (ld64 (mem s) (root t + 8 * PX 2 va)) c s) by done.
  rewrite (rep_root _ _ Hr) by (by apply PX_bound).
  destruct (l1 t !! PX 2 va) as [pg|] eqn:E1.
  - assert (phys_page pg) by (eapply valid_page_phys, rep_valid_in; [done|by eapply l1_in]).
    rewrite flag_entry_Some, PTE2PA_entry by done.
    destruct (walk_level1 s free t va pg c Ht Hva Hl E1) as (r & s' & free' & t' & new & Hrun & Hg' & Hres).
    exists r, s', free', t', new. split; [done|]. split; [done|].
    destruct Hres as [(? & ? & ?)|(? & ? & ?)]; [left|right]; split_and!; (assumption || lia).
  - rewrite flag_entry_None. cbn [negb].
    destruct free as [|p rest].
    + rewrite (bind_ok _ _ _ _ _ _ _ (kalloc_empty s c (tok_kmem _ _ _ Ht) Hl)).
      exists 0, s, [], t, []. split; [done|]. split; [by apply grows_refl|]. left. simpl. split_and!; [done..|lia].
    + pose proof (new_table_l1 s p rest t (PX 2 va) Ht (PX_bound 2 va ltac:(lia)) E1) as Hg.
      rewrite (kalloc_table_run s p rest _ _ (fun p => walk_loop 1 p va true) c (tok_kmem _ _ _ Ht) Hl).
      destruct (walk_level1 _ _ _ va p c (gr_ok _ _ _ _ _ _ _ Hg) Hva Hl)
        as (r & s' & free' & t' & new & Hrun & Hg' & Hres).
      { apply lookup_insert_eq. }
      exists r, s', free', t', ([p] ++ new). split; [done|]. split.
      { eapply grows_trans; [exact Hg|exact Hg'|apply Ht]. }
      destruct Hres as [(? & ? & ?)|(? & ? & ?)]; [left|right]; split_and!; (assumption || (simpl; lia)).
Qed.

(** ** Writing a leaf *)

(** The tree after the leaf word of [va] is set to [pte]. *)
Definition put_leaf (va pte : Z) (t : ptree) : ptree :=
  set_leaves (if pte =? 0 then delete (vpn va) else <[vpn va := pte]>) t.

Lemma put_leaf_lookup va pte t v :
  leaves (put_leaf va pte t) !! v =
  if decide (vpn va = v) then (if pte =? 0 then None else Some pte) else leaves t !! v.
Proof.
  unfold put_leaf. simpl. destruct (pte =? 0); [rewrite lookup_delete|rewrite lookup_insert]; done.
Qed.

Lemma store_leaf `{!LinkerOk} s free t va pte :
  tree_ok s free t -> leaf_addr t va <> 0 -> pte = 0 \/ leaf_ok pte ->
  let s' := set_mem (fun m => st64 m (leaf_addr t va) pte) s in
  tree_ok s' free (put_leaf va pte t) /\
  agree (fun q => q ∉ pt_pages t) (mem s) (mem s').
Proof.
  intros Ht Ha Hp s'. pose proof (tok_rep _ _ _ Ht) as Hr.
  destruct (l0 t !! (vpn va / 512)) as [q|] eqn:Eq.
  2: { unfold leaf_addr in Ha. by rewrite Eq in Ha. }
  destruct (leaf_addr_pos _ t va q Hr Eq) as [Ea _].
  pose proof (l0_in t _ _ Eq) as Hin. pose proof (rep_aligned _ _ _ Hr Hin).
  pose proof (PX_bound 0 va ltac:(lia)) as Hpx.
  assert (0 <= pte < 2 ^ 64) as Hb by (destruct Hp as [->|[_ ?]]; lia).
  assert (agree (.≠ q) (mem s) (mem s')) as HA.
  { unfold s'. simpl. apply agree_st64; rewrite Ea; [by apply aligned_word|by apply page_entry]. }
  assert (forall p j, p ∈ pt_pages t -> 0 <= j < 512 -> ld64 (mem s') (p + 8 * j) =
     if decide (p = q /\ j = PX 0 va) then pte else ld64 (mem s) (p + 8 * j)) as HW.
  { intros p j Hpp Hj. pose proof (rep_aligned _ _ _ Hr Hpp). unfold s'. simpl. rewrite Ea.
    rewrite ld64_st64 by (done || by apply aligned_word).
    destruct (decide (q + 8 * PX 0 va = p + 8 * j)) as [E|E].
    - apply word_inj in E as [-> ->]; try done. by rewrite decide_True.
    - rewrite decide_False; [done|]. intros [-> ->]. done. }
  split; [split|].
  - apply (inv_mem s); [apply Ht|done|done|]. eapply agree_weaken; [|exact HA].
    intros x Hx ->. by apply (tok_not_free s free t q Ht Hin).
  - split; try apply Hr; change (root (put_leaf va pte t)) with (root t);
      change (l1 (put_leaf va pte t)) with (l1 t); change (l0 (put_leaf va pte t)) with (l0 t).
    + intros i Hi. rewrite HW by (done || apply root_in). rewrite decide_False.
      * by apply (rep_root _ _ Hr).
      * intros [E _]. by apply (nodup_l0_root _ _ _ _ Hr Eq).
    + intros i p Hi j Hj. rewrite HW by (done || by eapply l1_in). rewrite decide_False.
      * by apply (rep_l1 _ _ Hr).
      * intros [-> _]. by apply (nodup_l1_l0 _ _ _ _ _ _ Hr Hi Eq).
    + intros k p Hk j Hj. rewrite HW by (done || by eapply l0_in).
      rewrite put_leaf_lookup. pose proof (idx_leaf va).
      destruct (decide (p = q /\ j = PX 0 va)) as [[-> ->]|Hne].
      * rewrite (nodup_l0_inj _ _ _ _ _ Hr Hk Eq). rewrite decide_True by lia.
        destruct (Z.eqb_spec pte 0); by subst.
      * rewrite decide_False; [by apply (rep_l0 _ _ Hr)|]. intros E. apply Hne.
        assert (vpn va / 512 = k /\ PX 0 va = j) as [<- <-] by lia.
        rewrite Eq in Hk. by injection Hk.
    + intros v x. rewrite put_leaf_lookup. case_decide; [subst v; rewrite Eq; eauto|].
      apply (rep_leaf_up _ _ Hr).
    + intros v x. rewrite put_leaf_lookup. case_decide; [|apply (rep_leaf_ok _ _ Hr)].
      destruct (Z.eqb_spec pte 0); [done|]. intros [= <-]. by destruct Hp.
  - intros p Hpp. by apply (tok_ref _ _ _ Ht).
  - eapply agree_weaken; [|exact HA]. intros x Hx ->. done.
Qed.
End tree.
