(* ===== verification/VmInv.v ===== *)
(** * Address spaces that share pages

    Several page tables live in memory at once and, after a copy-on-write
    fork, their leaves share physical pages. [vm_inv] ties the allocator's
    reference counts to the leaves of all the page tables: a page's count is
    the number of user leaves that name it plus the references the kernel
    itself holds, and a page that some leaf may write is referenced once. *)

From S2P Require Import Prelude Riscv Mem Kalloc Vm VmTree.

(** User pages lie below the trapframe. *)
Definition UVPN : Z := TRAPFRAME / PGSIZE.

(** ** Counting the leaves that name a page *)

Definition names (pa v pte : Z) : Prop := 0 <= v < UVPN /\ PTE2PA pte = pa.
#[export] Instance names_dec pa v pte : Decision (names pa v pte).
Proof. unfold names. apply _. Defined.

Definition mapcount (pa : Z) (lm : gmap Z Z) : Z :=
  Z.of_nat (size (filter (fun e => names pa e.1 e.2) lm)).

Definition total (pa : Z) (ts : list ptree) : Z :=
  foldr (fun t n => mapcount pa (leaves t) + n) 0 ts.

Definition hits (pa v pte : Z) : Z := if decide (names pa v pte) then 1 else 0.

Lemma mapcount_nonneg pa lm : 0 <= mapcount pa lm.
Proof. unfold mapcount. lia. Qed.

Lemma total_nonneg pa ts : 0 <= total pa ts.
Proof. induction ts as [|t ts IH]; simpl; [lia|]. pose proof (mapcount_nonneg pa (leaves t)). lia. Qed.

Lemma mapcount_insert pa v pte lm : lm !! v = None ->
  mapcount pa (<[v := pte]> lm) = mapcount pa lm + hits pa v pte.
Proof.
  intros Hn. unfold mapcount, hits. rewrite map_filter_insert. simpl. case_decide.
  - rewrite map_size_insert_None; [lia|]. apply map_lookup_filter_None. by left.
  - rewrite delete_id by done. lia.
Qed.

Lemma mapcount_delete pa v pte lm : lm !! v = Some pte ->
  mapcount pa (delete v lm) = mapcount pa lm - hits pa v pte.
Proof.
  intros Hs. rewrite <- (insert_delete_id lm v pte) at 2 by done.
  rewrite mapcount_insert by apply lookup_delete_eq. lia.
Qed.

Lemma mapcount_replace pa v old pte lm : lm !! v = Some old ->
  mapcount pa (<[v := pte]> lm) = mapcount pa lm - hits pa v old + hits pa v pte.
Proof.
  intros Hs. rewrite <- insert_delete_eq.
  rewrite mapcount_insert by apply lookup_delete_eq. by rewrite (mapcount_delete pa v old).
Qed.

Lemma hits_bound pa v pte : 0 <= hits pa v pte <= 1.
Proof. unfold hits. case_decide; lia. Qed.

Lemma hits_one pa v pte : names pa v pte -> hits pa v pte = 1.
Proof. intros. unfold hits. by rewrite decide_True. Qed.

Lemma hits_zero pa v pte : ~ names pa v pte -> hits pa v pte = 0.
Proof. intros. unfold hits. by rewrite decide_False. Qed.

Lemma mapcount_one pa lm v pte : lm !! v = Some pte -> names pa v pte -> 1 <= mapcount pa lm.
Proof.
  intros Hs Hn. pose proof (mapcount_delete pa v pte lm Hs). rewrite hits_one in H by done.
  pose proof (mapcount_nonneg pa (delete v lm)). lia.
Qed.

Lemma mapcount_two pa lm v w x y : lm !! v = Some x -> lm !! w = Some y -> v <> w ->
  names pa v x -> names pa w y -> 2 <= mapcount pa lm.
Proof.
  intros Hv Hw Hne Hx Hy. pose proof (mapcount_delete pa v x lm Hv) as E.
  rewrite hits_one in E by done.
  pose proof (mapcount_one pa (delete v lm) w y). rewrite lookup_delete_ne in H by done.
  specialize (H Hw Hy). lia.
Qed.

Lemma mapcount_pos_inv pa lm : 0 < mapcount pa lm -> exists v pte, lm !! v = Some pte /\ names pa v pte.
Proof.
  intros H. unfold mapcount in H.
  assert (filter (fun e : Z * Z => names pa e.1 e.2) lm <> ∅) as Hne.
  { intros E. rewrite E, map_size_empty in H. lia. }
  apply map_choose in Hne as (v & pte & Hs). apply map_lookup_filter_Some in Hs. eauto.
Qed.

Lemma total_cons pa t ts : total pa (t :: ts) = mapcount pa (leaves t) + total pa ts.
Proof. done. Qed.

Lemma total_app pa ts ts' : total pa (ts ++ ts') = total pa ts + total pa ts'.
Proof. induction ts as [|t ts IH]; simpl; [done|]. rewrite IH. lia. Qed.

Lemma total_perm pa ts ts' : ts ≡ₚ ts' -> total pa ts = total pa ts'.
Proof. induction 1; simpl; lia. Qed.

Lemma total_in pa ts t : t ∈ ts -> mapcount pa (leaves t) <= total pa ts.
Proof.
  induction ts as [|t' ts IH]; [set_solver|]. intros [->|Hin]%elem_of_cons; simpl.
  - pose proof (total_nonneg pa ts). lia.
  - specialize (IH Hin). pose proof (mapcount_nonneg pa (leaves t')). lia.
Qed.

Lemma total_mapped pa ts t v pte : t ∈ ts -> leaves t !! v = Some pte -> names pa v pte ->
  1 <= total pa ts.
Proof.
  intros Ht Hl Hn. pose proof (total_in pa ts t Ht). pose proof (mapcount_one pa _ v pte Hl Hn). lia.
Qed.

(** ** The invariant *)

Section inv.
Context `{LK : Linker}.

(** [ex pa] is the number of references to [pa] that the kernel holds outside
    user mappings: trapframes, pipe buffers, pages in the hands of a caller. *)
Record vm_inv (s : pmem) (free : list Z) (ts : list ptree) (ex : Z -> Z) : Prop := {
  vm_kmem : kmem_inv s free;
  vm_rep : forall t, t ∈ ts -> pt_rep (mem s) t;
  vm_nodup : NoDup (ts ≫= pt_pages);
  vm_pt_ref : forall t p, t ∈ ts -> p ∈ pt_pages t -> ref s p = 1;
  vm_leaf : forall t v pte, t ∈ ts -> leaves t !! v = Some pte -> 0 <= v < UVPN ->
    valid_page (PTE2PA pte) /\ 0 < ref s (PTE2PA pte) /\
    (forall t', t' ∈ ts -> PTE2PA pte ∉ pt_pages t');
  vm_ref : forall pa, valid_page pa -> (forall t, t ∈ ts -> pa ∉ pt_pages t) ->
    ref s pa = total pa ts + ex pa;
  vm_w : forall t v pte, t ∈ ts -> leaves t !! v = Some pte -> 0 <= v < UVPN ->
    flag pte PTE_W = true -> ref s (PTE2PA pte) = 1;
}.

Lemma vm_inv_perm s free ts ts' ex : ts ≡ₚ ts' -> vm_inv s free ts ex -> vm_inv s free ts' ex.
Proof.
  intros HP [H1 H2 H3 H4 H5 H6 H7]. split; try done.
  - intros t. rewrite <- HP. apply H2.
  - by rewrite <- HP.
  - intros t p. rewrite <- HP. apply H4.
  - intros t v pte Ht Hl Hv. rewrite <- HP in Ht. destruct (H5 t v pte Ht Hl Hv) as (? & ? & Hd).
    split_and!; try done. intros t'. rewrite <- HP. apply Hd.
  - intros pa Hp Hd. rewrite <- (total_perm _ _ _ HP). apply H6; [done|].
    intros t. rewrite HP. apply Hd.
  - intros t v pte. rewrite <- HP. apply H7.
Qed.

Lemma vm_tree_ok s free t ts ex : vm_inv s free (t :: ts) ex -> tree_ok s free t.
Proof.
  intros Hv. split; [apply Hv|apply Hv; set_solver|]. intros p Hp.
  rewrite (vm_pt_ref _ _ _ _ Hv t p); [lia|set_solver|done].
Qed.

Lemma vm_pages_disjoint s free t ts ex t' p : vm_inv s free (t :: ts) ex ->
  t' ∈ ts -> p ∈ pt_pages t' -> p ∉ pt_pages t.
Proof.
  intros Hv Ht' Hp Hpt. pose proof (vm_nodup _ _ _ _ Hv) as Hn.
  change (NoDup (pt_pages t ++ (ts ≫= pt_pages))) in Hn. apply NoDup_app in Hn as (_ & Hd & _). apply (Hd p Hpt). apply list_elem_of_bind. eauto.
Qed.

Lemma vm_pages_not_free s free ts ex t p : vm_inv s free ts ex ->
  t ∈ ts -> p ∈ pt_pages t -> p ∉ free.
Proof.
  intros Hv Ht Hp. apply (inv_not_free s); [apply Hv| |].
  - eapply rep_valid_in; [by apply (vm_rep _ _ _ _ Hv)|done].
  - rewrite (vm_pt_ref _ _ _ _ Hv t p); [lia|done..].
Qed.

Lemma vm_leaf_page s free ts ex t v pte : vm_inv s free ts ex ->
  t ∈ ts -> leaves t !! v = Some pte -> 0 <= v < UVPN -> PTE2PA pte ∉ free.
Proof.
  intros Hv Ht Hl Hu. destruct (vm_leaf _ _ _ _ Hv t v pte Ht Hl Hu) as (? & ? & _).
  by apply (inv_not_free s); [apply Hv|..].
Qed.

Lemma vm_inv_ex s free ts ex ex' :
  (forall pa, valid_page pa -> ex pa = ex' pa) -> vm_inv s free ts ex -> vm_inv s free ts ex'.
Proof.
  intros He [H1 H2 H3 H4 H5 H6 H7]. split; try done. intros pa Hp Hd.
  rewrite <- He by done. by apply H6.
Qed.

(** ** Preservation by the elementary steps *)

(** Memory outside the page tables and the free list is not constrained. *)
Lemma vm_mem s s' free ts ex : vm_inv s free ts ex ->
  freelist s' = freelist s -> refcnt s' = refcnt s ->
  agree (fun q => q ∈ free \/ exists t, t ∈ ts /\ q ∈ pt_pages t) (mem s) (mem s') ->
  vm_inv s' free ts ex.
Proof.
  intros Hv Hf Hr HA.
  assert (forall p, ref s' p = ref s p) as HR by (intros p; unfold ref; by rewrite Hr).
  split.
  - apply (inv_mem s); [apply Hv|done|done|]. eapply agree_weaken; [|exact HA]. intros x Hx. by left.
  - intros t Ht. eapply pt_rep_agree; [by apply (vm_rep _ _ _ _ Hv)|].
    eapply agree_weaken; [|exact HA]. intros x Hx. right. eauto.
  - apply Hv.
  - intros t p. rewrite HR. apply Hv.
  - intros t v pte. rewrite HR. apply Hv.
  - intros pa. rewrite HR. apply Hv.
  - intros t v pte. rewrite HR. apply Hv.
Qed.

(** A page-table page is taken from the free list for the first tree. *)
Lemma vm_grows s free t ts ex s' free' t' new :
  vm_inv s free (t :: ts) ex -> grows s free t s' free' t' new ->
  vm_inv s' free' (t' :: ts) ex.
Proof.
  intros Hv Hg. pose proof (gr_free _ _ _ _ _ _ _ Hg) as Hfr.
  assert (forall x, x ∈ new -> x ∈ free) as Hnew by (intros; subst free; set_solver).
  assert (Forall valid_page free) as Hval by apply Hv. rewrite Forall_forall in Hval.
  assert (forall t2 p, t2 ∈ t :: ts -> p ∈ pt_pages t2 -> p ∉ new) as Hdis.
  { intros t2 p Ht2 Hp Hn. by apply (vm_pages_not_free s free (t :: ts) ex t2 p Hv), Hnew. }
  assert (forall p, p ∈ pt_pages t' <-> p ∈ new \/ p ∈ pt_pages t) as Hpg.
  { intros p. rewrite (gr_pages _ _ _ _ _ _ _ Hg). apply elem_of_app. }
  assert (forall t2 v pte, t2 ∈ t' :: ts -> leaves t2 !! v = Some pte ->
     exists t3, t3 ∈ t :: ts /\ leaves t3 !! v = Some pte) as Hlv.
  { intros t2 v pte [->|Hin]%elem_of_cons Hl; [|exists t2; set_solver].
    exists t. rewrite <- (gr_leaves _ _ _ _ _ _ _ Hg). set_solver. }
  split.
  - apply (gr_ok _ _ _ _ _ _ _ Hg).
  - intros t2 [->|Ht2]%elem_of_cons; [apply (gr_ok _ _ _ _ _ _ _ Hg)|].
    eapply pt_rep_agree; [apply (vm_rep _ _ _ _ Hv t2); set_solver|].
    eapply agree_weaken; [|apply Hg]. intros x Hx. split; [apply (Hdis t2); [list_mem|done]|].
    by apply (vm_pages_disjoint s free t ts ex t2 x Hv).
  - change (NoDup (pt_pages t' ++ (ts ≫= pt_pages))). rewrite (gr_pages _ _ _ _ _ _ _ Hg).
    rewrite <- app_assoc. apply NoDup_app. split_and!; [| |apply Hv].
    + pose proof (inv_nodup _ _ (vm_kmem _ _ _ _ Hv)) as Hn. rewrite Hfr in Hn. by apply NoDup_app in Hn as (? & _).
    + intros x Hx Hin. change (x ∈ ((t :: ts) ≫= pt_pages)) in Hin.
      apply list_elem_of_bind in Hin as (t2 & Hp & Ht2). by apply (Hdis t2 x).
  - intros t2 p [->|Ht2]%elem_of_cons Hp.
    + apply Hpg in Hp as [Hp|Hp]; [by apply (gr_new _ _ _ _ _ _ _ Hg)|].
      rewrite (gr_ref _ _ _ _ _ _ _ Hg); [apply (vm_pt_ref _ _ _ _ Hv t); [list_mem|done]| |].
      * eapply rep_valid_in; [apply (vm_rep _ _ _ _ Hv t); set_solver|done].
      * apply (Hdis t); [list_mem|done].
    + rewrite (gr_ref _ _ _ _ _ _ _ Hg); [apply (vm_pt_ref _ _ _ _ Hv t2); [list_mem|done]| |].
      * eapply rep_valid_in; [apply (vm_rep _ _ _ _ Hv t2); set_solver|done].
      * apply (Hdis t2); [list_mem|done].
  - intros t2 v pte Ht2 Hl Hu. destruct (Hlv t2 v pte Ht2 Hl) as (t3 & Ht3 & Hl3).
    pose proof (vm_leaf_page _ _ _ _ t3 v pte Hv Ht3 Hl3 Hu) as Hnf.
    destruct (vm_leaf _ _ _ _ Hv t3 v pte Ht3 Hl3 Hu) as (Hp & Hr & Hd).
    split_and!; [done| |].
    + rewrite (gr_ref _ _ _ _ _ _ _ Hg); [done|done|]. by intros ?%Hnew.
    + intros t4 [->|Ht4]%elem_of_cons; [|apply Hd; set_solver].
      intros [Hn|Hn]%Hpg; [by apply Hnf, Hnew|]. apply (Hd t); [list_mem|done].
  - intros pa Hp Hd. assert (pa ∉ new) as Hn.
    { intros Hn. apply (Hd t'); [set_solver|]. apply Hpg. by left. }
    rewrite (gr_ref _ _ _ _ _ _ _ Hg) by done. simpl. rewrite (gr_leaves _ _ _ _ _ _ _ Hg).
    apply (vm_ref _ _ _ _ Hv pa Hp). intros t2 [->|Ht2]%elem_of_cons.
    + intros Hin. apply (Hd t'); [set_solver|]. apply Hpg. by right.
    + apply Hd. set_solver.
  - intros t2 v pte Ht2 Hl Hu Hw. destruct (Hlv t2 v pte Ht2 Hl) as (t3 & Ht3 & Hl3).
    pose proof (vm_leaf_page _ _ _ _ t3 v pte Hv Ht3 Hl3 Hu) as Hnf.
    destruct (vm_leaf _ _ _ _ Hv t3 v pte Ht3 Hl3 Hu) as (Hp & _ & _).
    rewrite (gr_ref _ _ _ _ _ _ _ Hg); [by apply (vm_w _ _ _ _ Hv t3 v)|done|]. by intros ?%Hnew.
Qed.

(** The references a leaf slot contributes to a page. *)
Definition slot_hits (pa v : Z) (o : option Z) : Z :=
  match o with Some pte => hits pa v pte | None => 0 end.

Lemma mapcount_put_leaf pa va pte t :
  mapcount pa (leaves (put_leaf va pte t)) =
  mapcount pa (leaves t) - slot_hits pa (vpn va) (leaves t !! vpn va)
  + slot_hits pa (vpn va) (if pte =? 0 then None else Some pte).
Proof.
  unfold put_leaf. simpl. destruct (leaves t !! vpn va) as [old|] eqn:E; simpl.
  - destruct (pte =? 0); simpl; [rewrite (mapcount_delete _ _ old) by done; lia|].
    by rewrite (mapcount_replace _ _ old).
  - destruct (pte =? 0); simpl; [rewrite delete_id by done; lia|].
    rewrite mapcount_insert by done. lia.
Qed.

(** What the new word of a user slot must satisfy. *)
Record leaf_fits (s : pmem) (ts : list ptree) (pte : Z) : Prop := {
  fit_ok : leaf_ok pte;
  fit_valid : valid_page (PTE2PA pte);
  fit_ref : 0 < ref s (PTE2PA pte);
  fit_data : forall t, t ∈ ts -> PTE2PA pte ∉ pt_pages t;
  fit_w : flag pte PTE_W = true -> ref s (PTE2PA pte) = 1;
}.

(** Writing a leaf of the first tree moves references between the mappings and
    the kernel's account; what a leaf above user memory names does not matter. *)
Lemma vm_store_any `{!LinkerOk} s free t ts ex va pte :
  vm_inv s free (t :: ts) ex -> leaf_addr t va <> 0 ->
  pte = 0 \/ (leaf_ok pte /\ (0 <= vpn va < UVPN -> leaf_fits s (t :: ts) pte)) ->
  vm_inv (set_mem (fun m => st64 m (leaf_addr t va) pte) s) free (put_leaf va pte t :: ts)
    (fun pa => ex pa + slot_hits pa (vpn va) (leaves t !! vpn va)
               - slot_hits pa (vpn va) (if pte =? 0 then None else Some pte)).
Proof.
  intros Hv Ha Hp. set (s' := set_mem _ s).
  destruct (store_leaf s free t va pte (vm_tree_ok _ _ _ _ _ Hv) Ha) as [Hok HA];
    [destruct Hp as [->|[Hp _]]; [by left|by right]|]. fold s' in Hok, HA.
  assert (forall t2, t2 ∈ put_leaf va pte t :: ts -> exists t3, t3 ∈ t :: ts /\ pt_pages t3 = pt_pages t2) as Hpg.
  { intros t2 [->|Hin]%elem_of_cons; [exists t|exists t2]; (split; [list_mem|done]). }
  assert (forall t3, t3 ∈ t :: ts -> exists t2, t2 ∈ put_leaf va pte t :: ts /\ pt_pages t3 = pt_pages t2) as Hpg'.
  { intros t3 [->|Hin]%elem_of_cons; [exists (put_leaf va pte t)|exists t3]; (split; [list_mem|done]). }
  assert (forall t2 v x, t2 ∈ put_leaf va pte t :: ts -> leaves t2 !! v = Some x -> 0 <= v < UVPN ->
     (leaf_fits s (t :: ts) pte /\ x = pte) \/ exists t3, t3 ∈ t :: ts /\ leaves t3 !! v = Some x) as Hlv.
  { intros t2 v x [->|Hin]%elem_of_cons Hl Hu; [|right; exists t2; split; [list_mem|done]].
    rewrite put_leaf_lookup in Hl. destruct (decide (vpn va = v)) as [Ev|Ev].
    - destruct (Z.eqb_spec pte 0) as [|Hne]; [done|]. injection Hl as <-. left.
      destruct Hp as [|[_ Hp]]; [done|]. split; [|done]. apply Hp. by rewrite Ev.
    - right. exists t. split; [list_mem|done]. }
  split.
  - apply Hok.
  - intros t2 [->|Ht2]%elem_of_cons; [apply Hok|].
    eapply pt_rep_agree; [apply (vm_rep _ _ _ _ Hv t2); list_mem|].
    eapply agree_weaken; [|exact HA]. intros x Hx.
    by apply (vm_pages_disjoint s free t ts ex t2 x Hv).
  - apply Hv.
  - intros t2 p Ht2 Hpp. destruct (Hpg t2 Ht2) as (t3 & Ht3 & E). rewrite <- E in Hpp.
    by apply (vm_pt_ref _ _ _ _ Hv t3).
  - intros t2 v x Ht2 Hl Hu. destruct (Hlv t2 v x Ht2 Hl Hu) as [[Hf ->]|(t3 & Ht3 & Hl3)].
    + split_and!; [apply Hf|apply Hf|]. intros t4 Ht4. destruct (Hpg t4 Ht4) as (t5 & Ht5 & <-).
      by apply (fit_data _ _ _ Hf).
    + destruct (vm_leaf _ _ _ _ Hv t3 v x Ht3 Hl3 Hu) as (? & ? & Hd). split_and!; [done..|].
      intros t4 Ht4. destruct (Hpg t4 Ht4) as (t5 & Ht5 & <-). by apply Hd.
  - intros pa Hpa Hd. rewrite total_cons, mapcount_put_leaf.
    transitivity (total pa (t :: ts) + ex pa); [|rewrite total_cons; lia].
    apply (vm_ref _ _ _ _ Hv); [done|]. intros t3 Ht3.
    destruct (Hpg' t3 Ht3) as (t2 & Ht2 & ->). by apply Hd.
  - intros t2 v x Ht2 Hl Hu Hw. destruct (Hlv t2 v x Ht2 Hl Hu) as [[Hf ->]|(t3 & Ht3 & Hl3)].
    + by apply Hf.
    + by apply (vm_w _ _ _ _ Hv t3 v x).
Qed.

Lemma vm_store_leaf `{!LinkerOk} s free t ts ex va pte :
  vm_inv s free (t :: ts) ex -> leaf_addr t va <> 0 ->
  pte = 0 \/ leaf_fits s (t :: ts) pte ->
  vm_inv (set_mem (fun m => st64 m (leaf_addr t va) pte) s) free (put_leaf va pte t :: ts)
    (fun pa => ex pa + slot_hits pa (vpn va) (leaves t !! vpn va)
               - slot_hits pa (vpn va) (if pte =? 0 then None else Some pte)).
Proof. intros Hv Ha Hp. apply vm_store_any; [done..|]. destruct Hp as [->|Hp]; [by left|right]. split; [apply Hp|done]. Qed.

(** Changing the count of a data page. *)
Lemma vm_set_ref s free ts ex p v :
  vm_inv s free ts ex -> valid_page p -> (forall t, t ∈ ts -> p ∉ pt_pages t) ->
  0 < ref s p -> 0 < v < 2 ^ 31 ->
  (forall t w pte, t ∈ ts -> leaves t !! w = Some pte -> 0 <= w < UVPN ->
     PTE2PA pte = p -> flag pte PTE_W = true -> v = 1) ->
  vm_inv (set_refcnt (p / PGSIZE) v s) free ts
    (fun pa => if decide (pa = p) then ex pa + (v - ref s p) else ex pa).
Proof.
  intros Hv Hp Hd Hr Hb Hw. pose proof (valid_page_aligned p Hp) as Ha.
  assert (forall q, valid_page q -> q <> p -> ref (set_refcnt (p / PGSIZE) v s) q = ref s q) as Hne.
  { intros q Hq Hqp. apply ref_set_ne; [done|by apply valid_page_aligned|done]. }
  split.
  - apply inv_refcnt; [apply Hv|done..].
  - apply Hv.
  - apply Hv.
  - intros t q Ht Hq. rewrite Hne; [by apply (vm_pt_ref _ _ _ _ Hv t)| |].
    + eapply rep_valid_in; [by apply (vm_rep _ _ _ _ Hv)|done].
    + intros ->. by apply (Hd t).
  - intros t w pte Ht Hl Hu. destruct (vm_leaf _ _ _ _ Hv t w pte Ht Hl Hu) as (? & ? & ?).
    split_and!; [done| |done]. destruct (decide (PTE2PA pte = p)) as [E|E].
    + rewrite E, ref_set_eq. lia.
    + by rewrite Hne.
  - intros pa Hpa Hdp. pose proof (vm_ref _ _ _ _ Hv pa Hpa Hdp) as E.
    destruct (decide (pa = p)) as [->|Hpp]; [rewrite ref_set_eq; lia|by rewrite Hne].
  - intros t w pte Ht Hl Hu Hfw. destruct (vm_leaf _ _ _ _ Hv t w pte Ht Hl Hu) as (? & _ & _).
    destruct (decide (PTE2PA pte = p)) as [E|E].
    + rewrite E, ref_set_eq. by apply (Hw t w pte).
    + rewrite Hne by done. by apply (vm_w _ _ _ _ Hv t w pte).
Qed.

(** A page leaves the free list for the kernel. *)
Lemma vm_alloc `{!LinkerOk} s p rest ts ex :
  vm_inv s (p :: rest) ts ex ->
  vm_inv (alloc_state s p) rest ts (fun pa => if decide (pa = p) then ex pa + 1 else ex pa).
Proof.
  intros Hv. pose proof (inv_valid _ _ (vm_kmem _ _ _ _ Hv)) as Hval.
  inversion_clear Hval as [|? ? Hp _]. pose proof (valid_page_aligned p Hp) as Ha.
  assert (ref s p = 0) as Hr0 by (apply (inv_free _ _ (vm_kmem _ _ _ _ Hv)); [done|list_mem]).
  assert (ref (alloc_state s p) p = 1) as Hr1 by apply ref_set_eq.
  assert (forall q, valid_page q -> q <> p -> ref (alloc_state s p) q = ref s q) as Hne.
  { intros q Hq Hqp. unfold alloc_state. rewrite ref_set_mem, ref_set_ne; try done.
    by apply valid_page_aligned. }
  assert (forall t q, t ∈ ts -> q ∈ pt_pages t -> q <> p) as Hpt.
  { intros t q Ht Hq ->. pose proof (vm_pt_ref _ _ _ _ Hv t p Ht Hq). lia. }
  split.
  - apply alloc_state_inv. apply Hv.
  - intros t Ht. eapply pt_rep_agree; [by apply (vm_rep _ _ _ _ Hv)|].
    eapply agree_weaken; [|by apply alloc_state_agree]. intros q Hq. by apply (Hpt t).
  - apply Hv.
  - intros t q Ht Hq. rewrite Hne; [by apply (vm_pt_ref _ _ _ _ Hv t)| |by apply (Hpt t)].
    eapply rep_valid_in; [by apply (vm_rep _ _ _ _ Hv)|done].
  - intros t w pte Ht Hl Hu. destruct (vm_leaf _ _ _ _ Hv t w pte Ht Hl Hu) as (? & ? & ?).
    split_and!; [done| |done]. rewrite Hne; [done..|]. intros E. rewrite E in *. lia.
  - intros pa Hpa Hdp. pose proof (vm_ref _ _ _ _ Hv pa Hpa Hdp) as E.
    destruct (decide (pa = p)) as [->|Hpp]; [rewrite Hr1; lia|by rewrite Hne].
  - intros t w pte Ht Hl Hu Hfw. destruct (vm_leaf _ _ _ _ Hv t w pte Ht Hl Hu) as (? & ? & _).
    rewrite Hne; [by apply (vm_w _ _ _ _ Hv t w pte)|done|]. intros E. rewrite E in *. lia.
Qed.

(** The last step of [kfree] when nothing maps the page any more. *)
Lemma vm_free_last `{!LinkerOk} s free ts ex p :
  vm_inv s free ts ex -> valid_page p -> (forall t, t ∈ ts -> p ∉ pt_pages t) ->
  ref s p = 1 -> total p ts = 0 ->
  vm_inv (free_state s p) (p :: free) ts (fun pa => if decide (pa = p) then ex pa - 1 else ex pa).
Proof.
  intros Hv Hp Hd Hr Ht0. pose proof (valid_page_aligned p Hp) as Ha.
  assert (forall q, valid_page q -> q <> p -> ref (free_state s p) q = ref s q) as Hne.
  { intros q Hq Hqp. unfold free_state. rewrite ref_set_freelist, !ref_set_mem, ref_set_ne; try done.
    by apply valid_page_aligned. }
  assert (forall t w pte, t ∈ ts -> leaves t !! w = Some pte -> 0 <= w < UVPN -> PTE2PA pte <> p) as Hnm.
  { intros t w pte Ht Hl Hu E. pose proof (total_mapped p ts t w pte Ht Hl (conj Hu E)). lia. }
  split.
  - apply free_state_inv; [apply Hv|done|done].
  - intros t Ht. eapply pt_rep_agree; [by apply (vm_rep _ _ _ _ Hv)|].
    eapply agree_weaken; [|by apply free_state_agree]. intros q Hq ->. by apply (Hd t).
  - apply Hv.
  - intros t q Ht Hq. rewrite Hne; [by apply (vm_pt_ref _ _ _ _ Hv t)| |].
    + eapply rep_valid_in; [by apply (vm_rep _ _ _ _ Hv)|done].
    + intros ->. by apply (Hd t).
  - intros t w pte Ht Hl Hu. destruct (vm_leaf _ _ _ _ Hv t w pte Ht Hl Hu) as (? & ? & ?).
    split_and!; [done| |done]. rewrite Hne; [done..|]. by apply (Hnm t w).
  - intros pa Hpa Hdp. pose proof (vm_ref _ _ _ _ Hv pa Hpa Hdp) as E.
    destruct (decide (pa = p)) as [->|Hpp]; [|by rewrite Hne].
    replace (ref (free_state s p) p) with 0 by (symmetry; apply ref_set_eq). lia.
  - intros t w pte Ht Hl Hu Hfw. destruct (vm_leaf _ _ _ _ Hv t w pte Ht Hl Hu) as (? & _ & _).
    rewrite Hne; [by apply (vm_w _ _ _ _ Hv t w pte)|done|]. by apply (Hnm t w).
Qed.

(** [kfree] of a reference the kernel holds. A page that is still mapped
    keeps its contents. *)
Lemma vm_kfree `{!LinkerOk} s free ts ex p c :
  vm_inv s free ts ex -> valid_page p -> (forall t, t ∈ ts -> p ∉ pt_pages t) ->
  1 <= ex p -> LKmem ∉ held c ->
  exists s' free', kfree p c s = Ok tt c s' /\
    vm_inv s' free' ts (fun pa => if decide (pa = p) then ex pa - 1 else ex pa) /\
    agree (fun q => q <> p \/ 0 < total p ts \/ 1 < ex p) (mem s) (mem s') /\
    (free' = free \/ (free' = p :: free /\ total p ts = 0 /\ ex p = 1)).
Proof.
  intros Hv Hp Hd Hex Hl. pose proof (vm_ref _ _ _ _ Hv p Hp Hd) as Hr.
  pose proof (total_nonneg p ts) as Hnn.
  pose proof (inv_ref _ _ (vm_kmem _ _ _ _ Hv) p Hp) as Hb.
  pose proof (valid_page_aligned p Hp) as Ha.
  destruct (decide (ref s p = 1)) as [E1|E1].
  - exists (free_state s p), (p :: free).
    split; [by apply kfree_last|]. split; [apply vm_free_last; [done..|lia]|].
    split; [|right; split; [done|lia]].
    eapply agree_weaken; [|by apply free_state_agree]. intros q [|[|]]; [done|lia|lia].
  - exists (set_refcnt (p / PGSIZE) (ref s p - 1) s), free.
    split; [apply kfree_shared; [done|done|lia]|]. split; [|split; [done|by left]].
    eapply vm_inv_ex; [|apply vm_set_ref; [exact Hv|done|done|lia|lia|]].
    + intros pa _. simpl. case_decide; lia.
    + intros t w pte Ht Hlf Hu <- Hw. pose proof (vm_w _ _ _ _ Hv t w pte Ht Hlf Hu Hw). lia.
Qed.

(** Two different mappings of a page are two references. *)
Lemma total_two pa ts t w x t' w' x' : t ∈ ts -> t' ∈ ts ->
  leaves t !! w = Some x -> leaves t' !! w' = Some x' -> names pa w x -> names pa w' x' ->
  t <> t' \/ w <> w' -> 2 <= total pa ts.
Proof.
  intros Ht Ht' Hl Hl' Hn Hn' Hne. destruct (decide (w = w')) as [<-|Hw].
  - destruct Hne as [Hne|]; [|done]. apply elem_of_Permutation in Ht as [ts' HP].
    rewrite (total_perm _ _ _ HP), total_cons.
    assert (t' ∈ ts') as Hin by (rewrite HP in Ht'; apply elem_of_cons in Ht' as [->|]; done).
    pose proof (mapcount_one pa (leaves t) w x Hl Hn). pose proof (total_mapped pa ts' t' w x' Hin Hl' Hn'). lia.
  - apply elem_of_Permutation in Ht as [ts' HP]. rewrite HP in Ht'. rewrite (total_perm _ _ _ HP), total_cons.
    apply elem_of_cons in Ht' as [->|Hin].
    + pose proof (mapcount_two pa (leaves t) w w' x x' Hl Hl' Hw Hn Hn'). pose proof (total_nonneg pa ts'). lia.
    + pose proof (mapcount_one pa (leaves t) w x Hl Hn). pose proof (total_mapped pa ts' t' w' x' Hin Hl' Hn'). lia.
Qed.

(** ** Counts do not overflow *)

Lemma bind_seqZ_length (ks : list Z) :
  length (ks ≫= fun k => seqZ (512 * k) 512) = (512 * length ks)%nat.
Proof.
  induction ks as [|k ks IH]; [done|].
  change ((k :: ks) ≫= (fun k => seqZ (512 * k) 512))
    with (seqZ (512 * k) 512 ++ (ks ≫= (fun k => seqZ (512 * k) 512))).
  rewrite length_app, length_seqZ, IH. simpl. lia.
Qed.

Lemma leaves_size m t : pt_rep m t -> (size (leaves t) <= 512 * size (l0 t))%nat.
Proof.
  intros Hr. rewrite <- !length_map_to_list, <- (length_fmap fst (map_to_list (leaves t))),
    <- (length_fmap fst (map_to_list (l0 t))), <- bind_seqZ_length.
  apply submseteq_length, NoDup_submseteq; [apply NoDup_fst_map_to_list|].
  intros v ([v' pte] & -> & Hin)%list_elem_of_fmap. apply elem_of_map_to_list in Hin. simpl.
  destruct (rep_leaf_up _ _ Hr _ _ Hin) as [q Hq].
  apply list_elem_of_bind. exists (v' / 512). split.
  - apply elem_of_seqZ. Z.div_mod_to_equations. lia.
  - apply list_elem_of_fmap. exists (v' / 512, q). split; [done|]. by apply elem_of_map_to_list.
Qed.

Lemma valid_pages_length `{!LinkerOk} l : NoDup l -> Forall valid_page l ->
  Z.of_nat (length l) <= 32768.
Proof.
  intros Hn Hv. rewrite Forall_forall in Hv.
  transitivity (Z.of_nat (length ((fun k => k * PGSIZE) <$> seqZ (KERNBASE / PGSIZE) 32768))).
  - apply Nat2Z.inj_le, submseteq_length, NoDup_submseteq; [done|]. intros p Hp. apply list_elem_of_fmap.
    pose proof (valid_page_pos p (Hv p Hp)). pose proof (valid_page_aligned p (Hv p Hp)).
    exists (p / PGSIZE). rewrite elem_of_seqZ. consts. Z.div_mod_to_equations. lia.
  - rewrite length_fmap, length_seqZ. lia.
Qed.

Lemma total_size pa ts : (forall t, t ∈ ts -> exists m, pt_rep m t) ->
  total pa ts <= 512 * Z.of_nat (length (ts ≫= pt_pages)).
Proof.
  induction ts as [|t ts IH]; intros Hr; [done|]. rewrite total_cons.
  change ((t :: ts) ≫= pt_pages) with (pt_pages t ++ (ts ≫= pt_pages)). rewrite length_app.
  destruct (Hr t ltac:(list_mem)) as [m Hm]. pose proof (leaves_size m t Hm) as Hs.
  specialize (IH (fun t' Ht => Hr t' ltac:(list_mem))).
  assert (mapcount pa (leaves t) <= Z.of_nat (size (leaves t))).
  { unfold mapcount. apply Nat2Z.inj_le, map_subseteq_size, map_filter_subseteq. }
  assert (size (l0 t) <= length (pt_pages t))%nat.
  { unfold pt_pages. simpl. rewrite length_app, !length_fmap, !length_map_to_list. lia. }
  lia.
Qed.

Lemma total_bound `{!LinkerOk} s free ts ex pa : vm_inv s free ts ex -> total pa ts <= 2 ^ 24.
Proof.
  intros Hv. pose proof (total_size pa ts) as Ht.
  pose proof (valid_pages_length (ts ≫= pt_pages) (vm_nodup _ _ _ _ Hv)) as Hl.
  assert (Forall valid_page (ts ≫= pt_pages)) as HF.
  { apply Forall_forall. intros p (t & Hp & Hin)%list_elem_of_bind.
    eapply rep_valid_in; [by apply (vm_rep _ _ _ _ Hv)|done]. }
  specialize (Hl HF). specialize (Ht ltac:(intros t Hin; eexists; by apply (vm_rep _ _ _ _ Hv))). lia.
Qed.
End inv.
