(* ===== verification/VmOps.v ===== *)
(** * The operations of kernel/vm.c on shared address spaces

    Each operation that maps, unmaps, copies or faults is shown to preserve
    [vm_inv], whatever branch it takes, and what it does to the bytes user
    code can read is stated on [ubyte]: the operations never change what
    another address space sees. *)

From S2P Require Import Prelude Riscv Mem Kalloc Vm VmTree VmInv.

Section ops.
Context `{LK : Linker}.

(** The byte that virtual address [va] names in a page table, if mapped. *)
Definition ubyte (m : gmap Z Z) (t : ptree) (va : Z) : option Z :=
  pte ← leaves t !! vpn va; Some (ld8 m (PTE2PA pte + va mod PGSIZE)).

(** A user virtual address. *)
Definition uva (va : Z) : Prop := 0 <= va < TRAPFRAME.

Lemma uva_vpn va : uva va -> 0 <= vpn va < UVPN.
Proof.
  unfold uva, vpn, UVPN. intros. consts. change (274877898752 / 4096) with 67108862.
  Z.div_mod_to_equations. lia.
Qed.

(** A page that is neither free nor part of a page table. *)
Definition data_page (free : list Z) (ts : list ptree) (q : Z) : Prop :=
  (q ∉ free) /\ forall t, t ∈ ts -> q ∉ pt_pages t.

Lemma leaf_data_page s free ts ex t v pte : vm_inv s free ts ex ->
  t ∈ ts -> leaves t !! v = Some pte -> 0 <= v < UVPN -> data_page free ts (PTE2PA pte).
Proof.
  intros Hv Ht Hl Hu. split; [by eapply vm_leaf_page|].
  by destruct (vm_leaf _ _ _ _ Hv t v pte Ht Hl Hu) as (_ & _ & ?).
Qed.

Lemma page_offset p va : p mod PGSIZE = 0 -> PGROUNDDOWN (p + va mod PGSIZE) = p.
Proof.
  intros. apply PGROUNDDOWN_unique; [done|]. pose proof (Z.mod_pos_bound va PGSIZE). klia.
Qed.

(** A mapped byte survives a change of memory that spares its page. *)
Lemma ubyte_agree s free ts ex t va (P : Z -> Prop) m' : vm_inv s free ts ex ->
  t ∈ ts -> uva va -> agree P (mem s) m' ->
  (forall pte, leaves t !! vpn va = Some pte -> P (PTE2PA pte)) ->
  ubyte m' t va = ubyte (mem s) t va.
Proof.
  intros Hv Ht Hva HA HP. unfold ubyte. destruct (leaves t !! vpn va) as [pte|] eqn:E; [|done].
  simpl. f_equal. apply HA.
  destruct (vm_leaf _ _ _ _ Hv t _ _ Ht E (uva_vpn va Hva)) as (Hp & _ & _).
  rewrite page_offset by (by apply valid_page_aligned). by apply HP.
Qed.

Lemma ubyte_data s free ts ex t va m' : vm_inv s free ts ex ->
  t ∈ ts -> uva va -> agree (data_page free ts) (mem s) m' ->
  ubyte m' t va = ubyte (mem s) t va.
Proof.
  intros Hv Ht Hva HA. eapply ubyte_agree; [done..|]. intros pte Hl.
  eapply leaf_data_page; [done..|by apply uva_vpn].
Qed.

Lemma grows_data s free t ts s' free' t' new : grows s free t s' free' t' new ->
  agree (data_page free (t :: ts)) (mem s) (mem s').
Proof.
  intros Hg. eapply agree_weaken; [|apply Hg]. intros q [Hf Hd]. split.
  - intros Hn. apply Hf. rewrite (gr_free _ _ _ _ _ _ _ Hg). set_solver.
  - apply Hd. list_mem.
Qed.

(** ** Entries *)

(** The bits [mappages] adds. *)
Lemma lor_perm_bound perm : 0 <= perm < 1024 -> 0 <= Z.lor perm PTE_V < 1024.
Proof.
  intros Hp. split; [apply Z.lor_nonneg; split; [lia|done]|].
  destruct (decide (perm = 0)) as [->|Hne]; [done|].
  apply (Z.log2_lt_cancel _ 1024). rewrite Z.log2_lor by (done || lia).
  change (Z.log2 PTE_V) with 0. rewrite Z.max_l by apply Z.log2_nonneg.
  apply (Z.log2_lt_pow2 perm 10); lia.
Qed.

Lemma pack54 `{!LinkerOk} pa f : valid_page pa -> 0 <= f < 1024 ->
  0 <= Z.lor (PA2PTE pa) f < 2 ^ 54.
Proof.
  intros Hp Hf. pose proof (valid_page_pos pa Hp). destruct (valid_page_phys pa Hp).
  rewrite lor_low by (done || by apply PA2PTE_low). rewrite PA2PTE_eq by done.
  consts. Z.div_mod_to_equations. lia.
Qed.

Lemma land_bound f g : 0 <= f < 1024 -> 0 <= Z.land f g < 1024.
Proof.
  intros Hf. split; [apply Z.land_nonneg; lia|].
  assert (E : Z.land f g = Z.land (Z.land f g) (Z.ones 10)).
  { rewrite <- Z.land_assoc, (Z.land_comm g), Z.land_assoc, Z.land_ones by lia.
    change (2 ^ 10) with 1024. by rewrite (Z.mod_small f) by lia. }
  rewrite E, Z.land_ones by lia. apply Z.mod_pos_bound. lia.
Qed.

Lemma PTE_FLAGS_bound v : 0 <= PTE_FLAGS v < 1024.
Proof.
  unfold PTE_FLAGS. change 0x3FF with (Z.ones 10). rewrite Z.land_ones by lia.
  apply Z.mod_pos_bound. lia.
Qed.

Lemma flag_pack pa f g : phys_page pa -> 0 <= f < 1024 -> 0 <= g < 1024 ->
  flag (Z.lor (PA2PTE pa) f) g = flag f g.
Proof. intros. unfold flag. by rewrite pte_pack_flag. Qed.

(** ** mappages on one page *)

Lemma mappages_page `{!LinkerOk} s free t va pa perm c :
  tree_ok s free t -> va mod PGSIZE = 0 -> 0 <= va < MAXVA -> leaves t !! vpn va = None ->
  LKmem ∉ held c ->
  let pte := Z.lor (PA2PTE pa) (Z.lor perm PTE_V) in
  exists r s' free' t' new, mappages (root t) va PGSIZE pa perm c s = Ok r c s' /\
    ((r = -1 /\ free' = [] /\ (length free <= 1)%nat /\ grows s free t s' free' t' new) \/
     (r = 0 /\ (length free <= 2 + length free')%nat /\ leaf_addr t' va <> 0 /\ exists s1, grows s free t s1 free' t' new /\
        s' = set_mem (fun m => st64 m (leaf_addr t' va) pte) s1)).
Proof.
  intros Ht Hal Hva Hnone Hl pte. unfold mappages. rewrite Hal. change (negb (0 =? 0)) with false.
  change (negb (PGSIZE mod PGSIZE =? 0)) with false. change (PGSIZE =? 0) with false.
  change (Z.to_nat (PGSIZE / PGSIZE)) with 1%nat. cbn iota.
  rewrite u64_id by klia. replace (va + PGSIZE - PGSIZE) with va by lia.
  cbn [mappages_loop].
  destruct (walk_alloc s free t va c Ht Hva Hl) as (r & s1 & free' & t' & new & Hrun & Hg & Hres).
  rewrite (bind_ok _ _ _ _ _ _ _ Hrun). pose proof (tok_rep _ _ _ (gr_ok _ _ _ _ _ _ _ Hg)) as Hr'.
  destruct Hres as [(-> & -> & Hlen)|(-> & [q Hq] & Hlen)].
  - exists (-1), s1, [], t', new. split; [done|]. left. done.
  - destruct (leaf_addr_pos _ t' va q Hr' Hq) as [Ea Hne].
    destruct (Z.eqb_spec (leaf_addr t' va) 0); [done|].
    unfold load64. rewrite (bind_ok _ _ c s1 (ld64 (mem s1) (leaf_addr t' va)) c s1) by done.
    rewrite (leaf_addr_load _ t' va Hr' Hne). unfold leaf.
    rewrite (gr_leaves _ _ _ _ _ _ _ Hg), Hnone.
    change (flag (default 0 None) PTE_V) with false. cbn iota.
    rewrite (bind_ok _ _ c s1 tt c (set_mem (fun m => st64 m (leaf_addr t' va) pte) s1)).
    2: { unfold store64, modify. by rewrite <- Z.lor_assoc. }
    rewrite Z.eqb_refl. exists 0, (set_mem (fun m => st64 m (leaf_addr t' va) pte) s1), free', t', new.
    split; [done|]. right. split_and!; [done|lia|done|eauto].
Qed.

(** ** What an operation on one address space leaves alone *)

(** No user mapping names the page. *)
Definition unmapped (ts : list ptree) (q : Z) : Prop :=
  forall t v pte, t ∈ ts -> leaves t !! v = Some pte -> 0 <= v < UVPN -> PTE2PA pte <> q.

(** A page the kernel holds for itself, managed or not. *)
Definition kheld (free : list Z) (ts : list ptree) (ex : Z -> Z) (q : Z) : Prop :=
  data_page free ts q /\ unmapped ts q /\ (valid_page q -> 1 <= ex q).

Lemma unmapped_sub t t' ts q :
  (forall v pte, leaves t' !! v = Some pte -> leaves t !! v = Some pte \/ PTE2PA pte <> q) ->
  unmapped (t :: ts) q -> unmapped (t' :: ts) q.
Proof.
  intros Hs Hu t2 v pte [->|Ht2]%elem_of_cons Hl Hv.
  - destruct (Hs v pte Hl); [|done]. apply (Hu t v pte); [list_mem|done..].
  - apply (Hu t2 v pte); [list_mem|done..].
Qed.

Lemma unmapped_insert t t' ts v pte q : leaves t' = <[v := pte]> (leaves t) -> PTE2PA pte <> q ->
  unmapped (t :: ts) q -> unmapped (t' :: ts) q.
Proof.
  intros El Hne. apply unmapped_sub. intros w x. rewrite El, lookup_insert.
  case_decide; [intros [= <-]; by right|by left].
Qed.

Lemma unmapped_perm ts ts' q : ts ≡ₚ ts' -> unmapped ts q -> unmapped ts' q.
Proof. intros HP Hu t v pte Ht. rewrite <- HP in Ht. by apply Hu. Qed.

(** An operation that takes [t] to [t'] beside the address spaces [ts]: the
    bytes the others see and the pages the kernel holds do not change. *)
Record frame (ex : Z -> Z) (ts : list ptree) (s : pmem) (free : list Z) (t : ptree)
    (s' : pmem) (free' : list Z) (t' : ptree) : Prop := {
  fr_root : root t' = root t;
  fr_l0 : l0 t ⊆ l0 t';
  fr_upper : forall v, UVPN <= v -> leaves t' !! v = leaves t !! v;
  fr_mem : agree (kheld free (t :: ts) ex) (mem s) (mem s');
  fr_held : forall q, kheld free (t :: ts) ex q -> kheld free' (t' :: ts) ex q;
  fr_others : forall t2 va, t2 ∈ ts -> uva va -> ubyte (mem s') t2 va = ubyte (mem s) t2 va;
}.

Lemma frame_refl ex ts s free t : frame ex ts s free t s free t.
Proof. split; try done. Qed.

Lemma frame_trans ex ts s1 f1 t1 s2 f2 t2 s3 f3 t3 :
  frame ex ts s1 f1 t1 s2 f2 t2 -> frame ex ts s2 f2 t2 s3 f3 t3 -> frame ex ts s1 f1 t1 s3 f3 t3.
Proof.
  intros [R1 L1 U1 M1 H1 O1] [R2 L2 U2 M2 H2 O2].
  split; [congruence|by etransitivity|intros; by rewrite U2, U1| |auto|].
  - eapply agree_trans; [exact M1|]. eapply agree_weaken; [|exact M2]. auto.
  - intros. rewrite O2, O1; done.
Qed.

Lemma frame_data ex ts s free t s' free' t' : vm_inv s free (t :: ts) ex -> root t' = root t ->
  l0 t ⊆ l0 t' -> (forall v, UVPN <= v -> leaves t' !! v = leaves t !! v) ->
  agree (data_page free (t :: ts)) (mem s) (mem s') ->
  (forall q, data_page free (t :: ts) q -> data_page free' (t' :: ts) q) ->
  (forall q, data_page free (t :: ts) q -> unmapped (t :: ts) q -> unmapped (t' :: ts) q) ->
  frame ex ts s free t s' free' t'.
Proof.
  intros Hv Hr Hl0 Hup HA HD HU. split; [done|done|done| | |].
  - eapply agree_weaken; [|exact HA]. by intros q [? _].
  - intros q (? & ? & ?). split_and!; auto.
  - intros t2 va Ht2 Hva. eapply ubyte_data; [exact Hv|list_mem|done|done].
Qed.

Lemma grows_data_page s free t ts s' free' t' new q : grows s free t s' free' t' new ->
  data_page free (t :: ts) q -> data_page free' (t' :: ts) q.
Proof.
  intros Hg [Hf Hd]. rewrite (gr_free _ _ _ _ _ _ _ Hg) in Hf.
  assert (q ∉ new) as Hn by set_solver. split; [set_solver|].
  intros t2 [->|Ht2]%elem_of_cons; [|apply Hd; list_mem].
  rewrite (gr_pages _ _ _ _ _ _ _ Hg). intros [?|?]%elem_of_app; [done|].
  apply (Hd t); [list_mem|done].
Qed.

(** ** mappages on one page of an address space *)

(** The leaf that [mappages] writes for a page. *)
Lemma new_leaf_fits `{!LinkerOk} s free ts pa perm :
  valid_page pa -> 0 <= perm < 1024 -> 0 < ref s pa -> data_page free ts pa ->
  (flag perm PTE_W = true -> ref s pa = 1) ->
  leaf_fits s ts (Z.lor (PA2PTE pa) (Z.lor perm PTE_V)) /\
  PTE2PA (Z.lor (PA2PTE pa) (Z.lor perm PTE_V)) = pa.
Proof.
  intros Hp Hperm Hr [_ Hd] Hw. pose proof (valid_page_phys pa Hp) as Hph.
  pose proof (lor_perm_bound perm Hperm) as Hb.
  assert (PTE2PA (Z.lor (PA2PTE pa) (Z.lor perm PTE_V)) = pa) as E by (by apply pte_pack).
  split; [|done]. split; rewrite ?E; try done.
  - split; [|by apply pack54]. rewrite flag_pack by done.
    unfold flag. rewrite Z.land_lor_distr_l, Z.land_diag. apply negb_true_iff, Z.eqb_neq.
    intros []%Z.lor_eq_0_iff. done.
  - rewrite flag_pack by done. intros Hf. apply Hw. revert Hf. unfold flag.
    rewrite Z.land_lor_distr_l. change (Z.land PTE_V PTE_W) with 0. by rewrite Z.lor_0_r.
Qed.

Lemma pte_nonzero pte : flag pte PTE_V = true -> (pte =? 0) = false.
Proof. intros Hf. apply Z.eqb_neq. by intros ->. Qed.

Lemma put_leaf_upper va x t v : uva va -> UVPN <= v -> leaves (put_leaf va x t) !! v = leaves t !! v.
Proof.
  intros Hva Hv. pose proof (uva_vpn va Hva). rewrite put_leaf_lookup. by rewrite decide_False by lia.
Qed.

Lemma store_data_page t pte va free ts q :
  data_page free (t :: ts) q -> data_page free (put_leaf va pte t :: ts) q.
Proof.
  intros [Hf Hd]. split; [done|]. intros t2 [->|Ht2]%elem_of_cons; [|apply Hd; list_mem].
  apply (Hd t). list_mem.
Qed.

Lemma slot_hits_new pa v pte : 0 <= v < UVPN ->
  slot_hits pa v (Some pte) = if decide (pa = PTE2PA pte) then 1 else 0.
Proof.
  intros Hv. simpl. case_decide; [by apply hits_one|]. apply hits_zero. by intros [_ ?].
Qed.

Lemma vm_mappages `{!LinkerOk} s free t ts ex va pa perm c :
  vm_inv s free (t :: ts) ex -> va mod PGSIZE = 0 -> uva va -> leaves t !! vpn va = None ->
  valid_page pa -> data_page free (t :: ts) pa -> 0 < ref s pa -> 0 <= perm < 1024 ->
  (flag perm PTE_W = true -> ref s pa = 1) -> LKmem ∉ held c ->
  exists r s' free' t', mappages (root t) va PGSIZE pa perm c s = Ok r c s' /\
    root t' = root t /\ l0 t ⊆ l0 t' /\ agree (data_page free (t :: ts)) (mem s) (mem s') /\
    (forall q, data_page free (t :: ts) q -> data_page free' (t' :: ts) q) /\
    ((r = -1 /\ (free' = [] /\ (length free <= 1)%nat) /\ leaves t' = leaves t /\ vm_inv s' free' (t' :: ts) ex) \/
     (r = 0 /\ (length free <= 2 + length free')%nat /\
      leaves t' = <[vpn va := Z.lor (PA2PTE pa) (Z.lor perm PTE_V)]> (leaves t) /\
      vm_inv s' free' (t' :: ts) (fun q => if decide (q = pa) then ex q - 1 else ex q))).
Proof.
  intros Hv Hal Hva Hnone Hp Hpd Href Hperm Hw Hl. assert (0 <= va < MAXVA) as Hm by (unfold uva in Hva; klia).
  destruct (mappages_page s free t va pa perm c (vm_tree_ok _ _ _ _ _ Hv) Hal Hm Hnone Hl)
    as (r & s' & free' & t' & new & Hrun & [(-> & -> & Hlen & Hg)|(-> & Hlen & Ha & s1 & Hg & ->)]).
  { exists (-1), s', [], t'. split; [done|]. split; [apply Hg|]. split; [apply Hg|]. split; [by eapply grows_data|].
    split; [by intros q; eapply grows_data_page|]. left. split_and!; [done..|apply Hg|by eapply vm_grows]. }
  pose proof (vm_grows _ _ _ _ _ _ _ _ _ Hv Hg) as Hv1.
  pose proof (grows_data_page _ _ _ ts _ _ _ _ pa Hg Hpd) as Hpd1.
  assert (pa ∉ new) as Hnn by (destruct Hpd as [Hf _]; rewrite (gr_free _ _ _ _ _ _ _ Hg) in Hf; set_solver).
  assert (ref s1 pa = ref s pa) as Er by (by apply (gr_ref _ _ _ _ _ _ _ Hg)).
  destruct (new_leaf_fits s1 free' (t' :: ts) pa perm) as [Hfit E]; [done|done|lia|done|by rewrite Er|].
  set (pte := Z.lor (PA2PTE pa) (Z.lor perm PTE_V)) in *.
  pose proof (pte_nonzero _ (proj1 (fit_ok _ _ _ Hfit))) as Hnz.
  exists 0, (set_mem (fun m => st64 m (leaf_addr t' va) pte) s1), free', (put_leaf va pte t').
  split; [done|]. split; [apply Hg|]. split; [apply Hg|]. split; [|split].
  - eapply agree_trans; [by eapply grows_data|]. eapply agree_weaken; [|
      apply (store_leaf s1 free' t' va pte (gr_ok _ _ _ _ _ _ _ Hg) Ha); right; apply Hfit].
    intros q Hq. apply (grows_data_page _ _ _ _ _ _ _ _ q Hg Hq). list_mem.
  - intros q Hq. by eapply store_data_page, grows_data_page.
  - right. split; [done|]. split; [done|]. split.
    { unfold put_leaf. simpl. by rewrite Hnz, (gr_leaves _ _ _ _ _ _ _ Hg). }
    eapply vm_inv_ex; [|apply vm_store_leaf; [exact Hv1|done|by right]].
    intros q _. cbv beta. rewrite Hnz, (gr_leaves _ _ _ _ _ _ _ Hg), Hnone.
    rewrite slot_hits_new by (by apply uva_vpn). rewrite E. simpl. case_decide; lia.
Qed.

(** ** Fresh pages *)

Definition bump (ex : Z -> Z) (p d : Z) : Z -> Z :=
  fun q => if decide (q = p) then ex q + d else ex q.

(** A page just taken from the free list and then written. *)
Lemma vm_fresh `{!LinkerOk} s p rest ts ex s1 : vm_inv s (p :: rest) ts ex ->
  freelist s1 = freelist (alloc_state s p) -> refcnt s1 = refcnt (alloc_state s p) ->
  agree (.≠ p) (mem (alloc_state s p)) (mem s1) ->
  valid_page p /\ vm_inv s1 rest ts (bump ex p 1) /\ data_page rest ts p /\ ref s1 p = 1 /\
  agree (data_page (p :: rest) ts) (mem s) (mem s1) /\
  (forall q, data_page (p :: rest) ts q -> data_page rest ts q /\ q <> p).
Proof.
  intros Hv Hf Hr HA. pose proof (inv_valid _ _ (vm_kmem _ _ _ _ Hv)) as Hval.
  inversion_clear Hval as [|? ? Hp _]. pose proof (valid_page_aligned p Hp) as Ha.
  pose proof (inv_nodup _ _ (vm_kmem _ _ _ _ Hv)) as Hn. inversion_clear Hn as [|? ? Hnr _].
  assert (forall t, t ∈ ts -> p ∉ pt_pages t) as Hd.
  { intros t Ht Hpt. apply (vm_pages_not_free _ _ _ _ _ _ Hv Ht Hpt). list_mem. }
  assert (forall q, data_page (p :: rest) ts q -> data_page rest ts q /\ q <> p) as HD.
  { intros q [Hq1 Hq2]. repeat split; [set_solver|done|]. intros ->. apply Hq1. list_mem. }
  split_and!; [done| |done| | |done].
  - eapply vm_mem; [by apply vm_alloc|done|done|]. eapply agree_weaken; [|exact HA].
    intros q [Hq|(t & Ht & Hq)] ->; [done|by apply (Hd t)].
  - unfold ref. rewrite Hr. change (ref (alloc_state s p) p = 1). apply ref_set_eq.
  - eapply agree_trans; [eapply agree_weaken; [|by apply alloc_state_agree]|
      eapply agree_weaken; [|exact HA]]; intros q Hq; by apply HD.
Qed.

Lemma bump_bump ex p d q : bump (bump ex p d) p (- d) q = ex q.
Proof. unfold bump. case_decide; lia. Qed.

(** What a freshly mapped zeroed page looks like through its page table. *)
Lemma ubyte_zero m t p va va2 f : phys_page p -> 0 <= f < 1024 ->
  leaves t !! vpn va = Some (Z.lor (PA2PTE p) f) ->
  (forall x, p <= x < p + PGSIZE -> ld8 m x = 0) -> vpn va2 = vpn va ->
  ubyte m t va2 = Some 0.
Proof.
  intros Hp Hf Hl Hz Ev. unfold ubyte. rewrite Ev, Hl. simpl. f_equal.
  rewrite (proj1 (pte_pack p f Hp Hf)). apply Hz.
  pose proof (Z.mod_pos_bound va2 PGSIZE ltac:(done)). lia.
Qed.

Definition ex_nonneg (ex : Z -> Z) : Prop := forall q, 0 <= ex q.

(** The common part of [vmfault] and [uvmalloc]: a zeroed page is mapped at an
    address that is not mapped, or it is given back. *)
Lemma vm_map_zeroed `{!LinkerOk} {A} s free t ts ex va perm c (F : M pmem A) (K1 : Z -> M pmem A) K2 :
  vm_inv s free (t :: ts) ex -> ex_nonneg ex -> va mod PGSIZE = 0 -> uva va ->
  leaves t !! vpn va = None -> 0 <= perm < 1024 -> LKmem ∉ held c ->
  let prog := (mem ← kalloc;
    if mem =? 0 then F
    else
      kmemset mem 0 PGSIZE;;
      r ← mappages (root t) va PGSIZE mem perm;
      if negb (r =? 0) then kfree mem;; K2 else K1 mem) in
  (free = [] /\ prog c s = F c s) \/
  exists s' free' t', frame ex ts s free t s' free' t' /\ vm_inv s' free' (t' :: ts) ex /\
    ((prog c s = K2 c s' /\ (length free <= 2)%nat /\ leaves t' = leaves t /\
      forall va2, uva va2 -> ubyte (mem s') t' va2 = ubyte (mem s) t va2) \/
     (exists p, prog c s = K1 p c s' /\ valid_page p /\ (length free <= 3 + length free')%nat /\
      leaves t' = <[vpn va := Z.lor (PA2PTE p) (Z.lor perm PTE_V)]> (leaves t) /\
      forall va2, uva va2 -> ubyte (mem s') t' va2 =
        if decide (vpn va2 = vpn va) then Some 0 else ubyte (mem s) t va2)).
Proof.
  intros Hv Hex Hal Hva Hnone Hperm Hl prog. destruct free as [|p rest].
  { left. split; [done|]. unfold prog. by rewrite (bind_ok _ _ _ _ _ _ _ (kalloc_empty s c (vm_kmem _ _ _ _ Hv) Hl)). }
  right. set (s1 := set_mem (fun m => memset m p 0 PGSIZE) (alloc_state s p)).
  destruct (vm_fresh s p rest (t :: ts) ex s1 Hv) as (Hp & Hv1 & Hpd & Hr1 & HA1 & HD1); [done..| |].
  { apply agree_memset. apply valid_page_aligned.
    pose proof (inv_valid _ _ (vm_kmem _ _ _ _ Hv)) as Hval. by inversion_clear Hval. }
  pose proof (valid_page_pos p Hp) as Hpos. pose proof (valid_page_phys p Hp) as Hph.
  pose proof (valid_page_aligned p Hp) as Hpa.
  destruct (vm_mappages s1 rest t ts (bump ex p 1) va p perm c) as
    (r & s2 & free2 & t2 & Hrun & Hroot & Hl0 & HA2 & HD2 & Hres); [done..|lia|done|done|done|].
  assert (prog c s = (if negb (r =? 0) then kfree p;; K2 else K1 p) c s2) as Hprog.
  { unfold prog. rewrite (bind_ok _ _ _ _ _ _ _ (kalloc_run s p rest c (vm_kmem _ _ _ _ Hv) Hl)).
    destruct (Z.eqb_spec p 0); [klia|]. rewrite (bind_ok _ _ _ _ tt c s1) by done.
    by rewrite (bind_ok _ _ _ _ _ _ _ Hrun). }
  assert (agree (data_page (p :: rest) (t :: ts)) (mem s) (mem s2)) as HA.
  { eapply agree_trans; [exact HA1|]. eapply agree_weaken; [|exact HA2]. intros q Hq. by apply HD1. }
  destruct Hres as [(-> & [-> Hlen] & Hlv & Hv2)|(-> & Hlen & Hlv & Hv2)].
  - destruct (vm_kfree s2 [] (t2 :: ts) (bump ex p 1) p c Hv2 Hp) as (s3 & free3 & Hk & Hv3 & HA3 & Hsub).
    { intros t3 Ht3. by apply (HD2 p Hpd). }
    { unfold bump. rewrite decide_True by done. pose proof (Hex p). lia. }
    { done. }
    assert (agree (data_page (p :: rest) (t :: ts)) (mem s) (mem s3)) as HA'.
    { eapply agree_trans; [exact HA|]. eapply agree_weaken; [|exact HA3].
      intros q Hq. left. by apply HD1. }
    exists s3, free3, t2. split; [|split].
    + apply frame_data; [done..|by rewrite Hlv|done| |].
      * intros q Hq. destruct (HD1 q Hq) as [Hq1 Hne].
        destruct (HD2 q Hq1) as [_ Hq2]. split; [|done]. destruct Hsub as [->|[-> _]]; set_solver.
      * intros q _. apply unmapped_sub. rewrite Hlv. by left.
    + eapply vm_inv_ex; [|exact Hv3]. intros q _. apply (bump_bump ex p 1).
    + left. rewrite Hprog. change (negb (-1 =? 0)) with true. cbn iota.
      rewrite (bind_ok _ _ _ _ _ _ _ Hk). split; [done|]. split; [simpl; lia|]. split; [done|]. intros va2 Hva2.
      transitivity (ubyte (mem s3) t va2); [unfold ubyte; by rewrite Hlv|].
      eapply ubyte_data; [exact Hv|list_mem|done|done].
  - exists s2, free2, t2. split; [|split].
    + apply frame_data; [done|done|done| |done| |].
      * intros w Hw. pose proof (uva_vpn va Hva). by rewrite Hlv, lookup_insert_ne by lia.
      * intros q Hq. by apply HD2, HD1.
      * intros q Hq. eapply unmapped_insert; [exact Hlv|].
        rewrite (proj1 (pte_pack p _ Hph (lor_perm_bound perm Hperm))). intros <-. by apply (HD1 p Hq).
    + eapply vm_inv_ex; [|exact Hv2]. intros q _. apply (bump_bump ex p 1).
    + right. exists p. rewrite Hprog. split; [done|]. split; [done|]. split; [simpl; lia|]. split; [done|]. intros va2 Hva2.
      case_decide as Ev.
      * eapply (ubyte_zero _ _ p va); [done|by apply lor_perm_bound|by rewrite Hlv, lookup_insert_eq| |done].
        intros x Hx. rewrite (HA2 x).
        2: { rewrite (PGROUNDDOWN_unique p x) by (done || lia). done. }
        unfold s1. simpl mem. rewrite ld8_memset by done. by rewrite decide_True by lia.
      * transitivity (ubyte (mem s2) t va2); [unfold ubyte; by rewrite Hlv, lookup_insert_ne by congruence|].
        eapply ubyte_data; [exact Hv|list_mem|done|done].
Qed.

(** ** Views under the steps of a copy-on-write fault *)

Lemma kfree_view s free ts ex p m' t va : vm_inv s free ts ex ->
  agree (fun q => q <> p \/ 0 < total p ts \/ 1 < ex p) (mem s) m' ->
  t ∈ ts -> uva va -> ubyte m' t va = ubyte (mem s) t va.
Proof.
  intros Hv HA Ht Hva. eapply ubyte_agree; [done..|]. intros pte Hl.
  destruct (decide (PTE2PA pte = p)) as [E|]; [|by left]. right. left.
  pose proof (total_mapped p ts t (vpn va) pte Ht Hl (conj (uva_vpn va Hva) E)). lia.
Qed.

Lemma store_view `{!LinkerOk} s free t ts ex a x t2 va : vm_inv s free (t :: ts) ex ->
  leaf_addr t a <> 0 -> x = 0 \/ leaf_ok x -> t2 ∈ t :: ts -> uva va ->
  ubyte (st64 (mem s) (leaf_addr t a) x) t2 va = ubyte (mem s) t2 va.
Proof.
  intros Hv Ha Hx Ht2 Hva.
  destruct (store_leaf s free t a x (vm_tree_ok _ _ _ _ _ Hv) Ha Hx) as [_ HA].
  eapply ubyte_agree; [done..|]. intros pte Hl.
  destruct (leaf_data_page _ _ _ _ _ _ _ Hv Ht2 Hl (uva_vpn va Hva)) as [_ Hd]. apply Hd. list_mem.
Qed.

(** The flags of the private copy. *)
Definition cow_flags (v : Z) : Z := Z.lor (Z.land (PTE_FLAGS v) (Z.lnot PTE_COW)) PTE_W.

Lemma cow_flags_bound v : 0 <= cow_flags v < 1024.
Proof.
  unfold cow_flags. pose proof (land_bound (PTE_FLAGS v) (Z.lnot PTE_COW) (PTE_FLAGS_bound v)) as Hb.
  split; [apply Z.lor_nonneg; split; [lia|done]|].
  destruct (decide (Z.land (PTE_FLAGS v) (Z.lnot PTE_COW) = 0)) as [->|Hne]; [done|].
  apply (Z.log2_lt_cancel _ 1024). rewrite Z.log2_lor by (done || lia).
  apply Z.max_lub_lt; [apply (Z.log2_lt_pow2 _ 10); lia|done].
Qed.

Lemma flag_testbit v k : 0 <= k -> flag v (2 ^ k) = Z.testbit v k.
Proof.
  intros Hk. unfold flag. destruct (Z.testbit v k) eqn:E.
  - apply negb_true_iff, Z.eqb_neq. intros E0.
    assert (Z.testbit (Z.land v (2 ^ k)) k = false) as F by (by rewrite E0, Z.bits_0).
    by rewrite Z.land_spec, E, Z.pow2_bits_true in F by done.
  - apply negb_false_iff, Z.eqb_eq, Z.bits_inj'. intros n Hn.
    rewrite Z.land_spec, Z.bits_0, Z.pow2_bits_eqb by done.
    destruct (Z.eqb_spec k n) as [->|]; [by rewrite E|apply andb_false_r].
Qed.

(** Which permissions the private copy has: those of the old mapping, writable
    and no longer copy-on-write. *)
Lemma cow_flags_spec v k : 0 <= k < 10 ->
  flag (cow_flags v) (2 ^ k) =
  if decide (k = 2) then true else if decide (k = 8) then false else flag v (2 ^ k).
Proof.
  intros Hk. rewrite !flag_testbit by lia. unfold cow_flags, PTE_FLAGS.
  change PTE_COW with (2 ^ 8). change PTE_W with (2 ^ 2). change 0x3FF with (Z.ones 10).
  rewrite Z.lor_spec, Z.land_spec, Z.lnot_spec, Z.land_spec, !Z.pow2_bits_eqb by lia.
  rewrite Z.ones_spec_low by lia. rewrite andb_true_r.
  repeat case_decide; subst; [by rewrite orb_true_r|by rewrite andb_false_r|].
  rewrite (proj2 (Z.eqb_neq 8 k)), (proj2 (Z.eqb_neq 2 k)) by lia. simpl.
  by rewrite andb_true_r, orb_false_r.
Qed.

Definition cow_pte (p v : Z) : Z := Z.lor (PA2PTE p) (cow_flags v).

Lemma cow_pte_fits `{!LinkerOk} s free ts p v : valid_page p -> data_page free ts p ->
  ref s p = 1 -> flag v PTE_V = true ->
  leaf_fits s ts (cow_pte p v) /\ PTE2PA (cow_pte p v) = p.
Proof.
  intros Hp [_ Hd] Hr Hf. pose proof (valid_page_phys p Hp) as Hph.
  assert (PTE2PA (cow_pte p v) = p) as E by (apply pte_pack; [done|apply cow_flags_bound]).
  split; [|done]. split; rewrite ?E; try done; [|lia].
  split; [|apply pack54; [done|apply cow_flags_bound]].
  unfold cow_pte. rewrite flag_pack by (done || apply cow_flags_bound).
  change PTE_V with (2 ^ 0) in *. by rewrite cow_flags_spec.
Qed.

(** The program text of the copy-on-write branch of [vmfault]. *)
Definition cow_branch (a v : Z) : M pmem Z :=
  mem ← kalloc;
  if mem =? 0 then mret 0
  else
    kmemmove mem (PTE2PA v) PGSIZE;;
    store64 a (Z.lor (PA2PTE mem) (Z.lor (Z.land (PTE_FLAGS v) (Z.lnot PTE_COW)) PTE_W));;
    kfree (PTE2PA v);;
    mret mem.

Lemma mapped_leaf_addr `{!LinkerOk} s free t va v : tree_ok s free t ->
  leaves t !! vpn va = Some v -> leaf_addr t va <> 0.
Proof.
  intros [_ Hr _] Hleaf. destruct (rep_leaf_up _ _ Hr _ _ Hleaf) as [q Hq]. by eapply leaf_addr_pos.
Qed.

Section cow.
Context `{LKO : !LinkerOk} (s : pmem) (p : Z) (rest : list Z) (t : ptree) (ts : list ptree)
  (ex : Z -> Z) (va v : Z) (c : ctx).
Hypothesis Hv : vm_inv s (p :: rest) (t :: ts) ex.
Hypothesis Hex : ex_nonneg ex.
Hypothesis Hva : uva va.
Hypothesis Hleaf : leaves t !! vpn va = Some v.
Hypothesis Hl : LKmem ∉ held c.

Definition cow_s1 : pmem := set_mem (fun m => memmove m p (PTE2PA v) PGSIZE) (alloc_state s p).
Definition cow_s2 : pmem := set_mem (fun m => st64 m (leaf_addr t va) (cow_pte p v)) cow_s1.
Definition cow_t : ptree := put_leaf va (cow_pte p v) t.

Lemma cow_leaf_addr : leaf_addr t va <> 0.
Proof using LKO Hv Hleaf.
  eapply mapped_leaf_addr; [by eapply vm_tree_ok|done].
Qed.

Lemma cow_fresh : valid_page p /\ vm_inv cow_s1 rest (t :: ts) (bump ex p 1) /\
  data_page rest (t :: ts) p /\ ref cow_s1 p = 1 /\
  agree (data_page (p :: rest) (t :: ts)) (mem s) (mem cow_s1) /\
  (forall q, data_page (p :: rest) (t :: ts) q -> data_page rest (t :: ts) q /\ q <> p).
Proof using LKO Hv.
  apply vm_fresh; [done..|]. apply agree_memmove. apply valid_page_aligned.
  pose proof (inv_valid _ _ (vm_kmem _ _ _ _ Hv)) as Hval. by inversion_clear Hval.
Qed.

Lemma cow_old : data_page (p :: rest) (t :: ts) (PTE2PA v) /\ valid_page (PTE2PA v) /\
  flag v PTE_V = true.
Proof using Hv Hva Hleaf.
  split; [eapply leaf_data_page; [done|list_mem|done|by apply uva_vpn]|].
  split; [eapply vm_leaf; [done|list_mem|done|by apply uva_vpn]|].
  destruct (vm_tree_ok _ _ _ _ _ Hv) as [_ Hr _]. by apply (rep_leaf_ok _ _ Hr _ _ Hleaf).
Qed.

Lemma cow_fits : leaf_fits cow_s1 (t :: ts) (cow_pte p v) /\ PTE2PA (cow_pte p v) = p.
Proof using LKO Hv Hva Hleaf.
  destruct cow_fresh as (Hp & _ & Hpd & Hr & _). destruct cow_old as (_ & _ & Hf).
  by eapply cow_pte_fits.
Qed.

Lemma cow_store : vm_inv cow_s2 rest (cow_t :: ts) (bump ex (PTE2PA v) 1).
Proof using LKO Hv Hva Hleaf.
  destruct cow_fresh as (Hp & Hv1 & Hpd & Hr & _ & HD). destruct cow_fits as [Hfit E].
  destruct cow_old as (Hod & _ & _). destruct (HD _ Hod) as [_ Hne].
  eapply vm_inv_ex; [|apply vm_store_leaf; [exact Hv1|apply cow_leaf_addr|by right]].
  intros q _. cbv beta. rewrite (pte_nonzero _ (proj1 (fit_ok _ _ _ Hfit))), Hleaf.
  rewrite !slot_hits_new by (by apply uva_vpn). rewrite E. unfold bump.
  repeat case_decide; subst; try lia; congruence.
Qed.

Lemma cow_t_lookup v2 :
  leaves cow_t !! v2 = if decide (vpn va = v2) then Some (cow_pte p v) else leaves t !! v2.
Proof using LKO Hv Hva Hleaf.
  unfold cow_t. rewrite put_leaf_lookup. destruct cow_fits as [Hfit _].
  by rewrite (pte_nonzero _ (proj1 (fit_ok _ _ _ Hfit))).
Qed.

Lemma cow_view t2 va2 : t2 ∈ t :: ts -> uva va2 ->
  ubyte (mem cow_s2) t2 va2 = ubyte (mem s) t2 va2.
Proof using LKO Hv Hva Hleaf.
  intros Ht2 Hva2. destruct cow_fresh as (_ & Hv1 & _ & _ & HA & _). destruct cow_fits as [Hfit _].
  transitivity (ubyte (mem cow_s1) t2 va2).
  - eapply store_view; [exact Hv1|apply cow_leaf_addr|right; apply Hfit|done..].
  - eapply ubyte_data; [exact Hv|done|done|exact HA].
Qed.

(** The private copy has the bytes of the shared page. *)
Lemma cow_view_own va2 : uva va2 -> ubyte (mem cow_s2) cow_t va2 = ubyte (mem s) t va2.
Proof using LKO Hv Hva Hleaf.
  intros Hva2. rewrite <- (cow_view t va2) by (done || list_mem).
  unfold ubyte. rewrite cow_t_lookup. case_decide as Ev; [|done]. rewrite <- Ev, Hleaf. cbn [mbind option_bind]. f_equal.
  destruct cow_fresh as (Hp & Hv1 & [_ Hpd] & _ & _ & HD). destruct cow_fits as [Hfit E]. rewrite E.
  destruct cow_old as (Hod & Hvo & _). destruct (HD _ Hod) as [[_ Hd1] Hne].
  destruct (store_leaf cow_s1 rest t va (cow_pte p v) (vm_tree_ok _ _ _ _ _ Hv1) cow_leaf_addr) as [_ HA2];
    [right; apply Hfit|].
  pose proof (Z.mod_pos_bound va2 PGSIZE ltac:(done)) as Hb.
  fold cow_s2 in HA2.
  rewrite (HA2 (p + va2 mod PGSIZE)), (HA2 (PTE2PA v + va2 mod PGSIZE)).
  2: { rewrite page_offset by (by apply valid_page_aligned). apply Hd1. list_mem. }
  2: { rewrite page_offset by (by apply valid_page_aligned). apply Hpd. list_mem. }
  unfold cow_s1. simpl mem. rewrite !ld8_memmove by done. rewrite decide_True by lia.
  replace (p + va2 mod PGSIZE - p) with (va2 mod PGSIZE) by lia.
  rewrite decide_False; [done|]. intros Hin.
  assert (PGROUNDDOWN (PTE2PA v + va2 mod PGSIZE) = p) as F
    by (apply PGROUNDDOWN_unique; [by apply valid_page_aligned|lia]).
  rewrite page_offset in F by (by apply valid_page_aligned). congruence.
Qed.

Lemma cow_run : exists s' free', cow_branch (leaf_addr t va) v c s = Ok p c s' /\
  frame ex ts s (p :: rest) t s' free' cow_t /\ vm_inv s' free' (cow_t :: ts) ex /\
  (length rest <= length free')%nat /\
  (forall va2, uva va2 -> ubyte (mem s') cow_t va2 = ubyte (mem s) t va2).
Proof using LKO Hv Hex Hva Hleaf Hl.
  pose proof cow_store as Hv2. destruct cow_fresh as (Hp & Hv1 & _ & _ & HA1 & HD).
  destruct cow_old as (Hod & Hvo & _). pose proof (valid_page_pos p Hp) as Hpos.
  assert (data_page rest (cow_t :: ts) (PTE2PA v)) as Hod2 by (by apply store_data_page, HD).
  destruct (vm_kfree cow_s2 rest (cow_t :: ts) (bump ex (PTE2PA v) 1) (PTE2PA v) c Hv2 Hvo)
    as (s3 & free3 & Hk & Hv3 & HA3 & Hsub); [apply Hod2| |done|].
  { unfold bump. rewrite decide_True by done. pose proof (Hex (PTE2PA v)). lia. }
  exists s3, free3. split; [|split; [|split; [|split]]].
  - unfold cow_branch. rewrite (bind_ok _ _ _ _ _ _ _ (kalloc_run s p rest c (vm_kmem _ _ _ _ Hv) Hl)).
    destruct (Z.eqb_spec p 0); [klia|]. rewrite (bind_ok _ _ _ _ tt c cow_s1) by done.
    rewrite (bind_ok _ _ _ _ tt c cow_s2) by done. by rewrite (bind_ok _ _ _ _ _ _ _ Hk).
  - assert (forall q, kheld (p :: rest) (t :: ts) ex q ->
      q <> PTE2PA v \/ 1 < bump ex (PTE2PA v) 1 (PTE2PA v)) as Hq1.
    { intros q (_ & Hq & _). left. intros ->. by apply (Hq t _ _ ltac:(list_mem) Hleaf (uva_vpn va Hva)). }
    split; [done|done|intros w; by apply put_leaf_upper| | |].
    + eapply agree_trans; [eapply agree_weaken; [|exact HA1]; by intros q [? _]|].
      destruct cow_fits as [Hfit _].
      eapply agree_trans; [eapply agree_weaken; [|
        apply (store_leaf cow_s1 rest t va (cow_pte p v) (vm_tree_ok _ _ _ _ _ Hv1) cow_leaf_addr);
        right; apply Hfit]; intros q [Hq _]; apply (proj1 (HD q Hq)); list_mem|].
      eapply agree_weaken; [|exact HA3]. intros q Hq. destruct (Hq1 q Hq); auto.
    + intros q Hq. pose proof (Hq1 q Hq) as Hor. destruct Hq as (Hq & Hqu & Hq2).
      destruct (HD q Hq) as [_ Hqp]. split_and!; [| |done].
      2: { revert Hqu. apply unmapped_sub. intros w x. rewrite cow_t_lookup.
           case_decide; [intros [= <-]; right|by left]. destruct cow_fits as [_ ->]. congruence. }
      apply HD in Hq as [Hq _]. apply (store_data_page t (cow_pte p v) va) in Hq as [Hq3 Hq4].
      split; [|done]. destruct Hsub as [->|(-> & _ & E)]; [done|]. destruct Hor; [|lia]. by intros [->|?]%elem_of_cons.
    + intros t2 va2 Ht2 Hva2. rewrite <- (cow_view t2 va2) by (done || list_mem).
      eapply kfree_view; [exact Hv2|exact HA3|list_mem|done].
  - eapply vm_inv_ex; [|exact Hv3]. intros q _. apply (bump_bump ex (PTE2PA v) 1).
  - destruct Hsub as [->|[-> _]]; simpl; lia.
  - intros va2 Hva2. rewrite <- cow_view_own by done.
    eapply kfree_view; [exact Hv2|exact HA3|list_mem|done].
Qed.
End cow.

(** ** Lookups *)

Lemma leaf_flag s free t va : tree_ok s free t -> leaf_addr t va <> 0 ->
  flag (leaf t va) PTE_V = bool_decide (is_Some (leaves t !! vpn va)).
Proof.
  intros [_ Hr _] _. unfold leaf. destruct (leaves t !! vpn va) as [v|] eqn:E; [|done].
  simpl. by destruct (rep_leaf_ok _ _ Hr _ _ E) as [-> _].
Qed.

Lemma unmapped_no_leaf `{!LinkerOk} s free t va : tree_ok s free t -> leaf_addr t va = 0 ->
  leaves t !! vpn va = None.
Proof.
  intros [_ Hr _] E. by apply (leaf_addr_zero _ _ _ Hr E).
Qed.

Lemma ismapped_run `{!LinkerOk} s free t va c : tree_ok s free t -> 0 <= va < MAXVA ->
  ismapped (root t) va c s = Ok (bool_decide (is_Some (leaves t !! vpn va))) c s.
Proof.
  intros Ht Hva. unfold ismapped.
  rewrite (bind_ok _ _ _ _ _ _ _ (walk_lookup s t va c (tok_rep _ _ _ Ht) Hva)).
  destruct (Z.eqb_spec (leaf_addr t va) 0) as [E|E].
  { by rewrite (unmapped_no_leaf _ _ _ _ Ht E). }
  rewrite (bind_ok _ _ c s (ld64 (mem s) (leaf_addr t va)) c s) by done.
  rewrite (leaf_addr_load _ _ _ (tok_rep _ _ _ Ht) E), (leaf_flag _ _ _ _ Ht E). by case_bool_decide.
Qed.

(** The physical page a user address translates to, 0 if it has none. *)
Lemma walkaddr_run `{!LinkerOk} s free t va c : tree_ok s free t -> 0 <= va < MAXVA ->
  walkaddr (root t) va c s = Ok (match leaves t !! vpn va with
    | Some v => if flag v PTE_U then PTE2PA v else 0 | None => 0 end) c s.
Proof.
  intros Ht Hva. unfold walkaddr. destruct (Z.leb_spec MAXVA va); [lia|].
  rewrite (bind_ok _ _ _ _ _ _ _ (walk_lookup s t va c (tok_rep _ _ _ Ht) Hva)).
  destruct (Z.eqb_spec (leaf_addr t va) 0) as [E|E].
  { by rewrite (unmapped_no_leaf _ _ _ _ Ht E). }
  rewrite (bind_ok _ _ c s (ld64 (mem s) (leaf_addr t va)) c s) by done.
  rewrite (leaf_addr_load _ _ _ (tok_rep _ _ _ Ht) E), (leaf_flag _ _ _ _ Ht E). unfold leaf.
  destruct (leaves t !! vpn va) as [v|]; [|done]. simpl. by destruct (flag v PTE_U).
Qed.

(** ** vmfault *)

(** The bytes after a page was faulted in at [va]: zeroes if the page was not
    mapped, the old bytes otherwise. *)
Definition fault_view (m : gmap Z Z) (t : ptree) (va va2 : Z) : option Z :=
  if decide (vpn va2 = vpn va /\ leaves t !! vpn va = None) then Some 0 else ubyte m t va2.

(** The entry that resolves a fault, by the entry that was there before. *)
Definition fault_pte (o : option Z) (read : bool) (p pte : Z) : Prop :=
  match o with
  | None => pte = Z.lor (PA2PTE p) (Z.lor (Z.lor (Z.lor PTE_W PTE_U) PTE_R) PTE_V)
  | Some v => read = false /\ flag v PTE_COW = true /\ pte = cow_pte p v
  end.

Lemma vpn_rounddown va : vpn (PGROUNDDOWN va) = vpn va.
Proof. unfold vpn. rewrite PGROUNDDOWN_eq. consts. Z.div_mod_to_equations. lia. Qed.

Lemma uva_rounddown va : uva va -> uva (PGROUNDDOWN va).
Proof. unfold uva. rewrite PGROUNDDOWN_eq. intros. consts. Z.div_mod_to_equations. lia. Qed.

(** Whether and how a fault at [va] is resolved. *)
Definition fault_result (psz : Z) (t t' : ptree) (va : Z) (read : bool) (m m' : gmap Z Z) (r : Z) : Prop :=
  (r = 0 /\ leaves t' = leaves t /\ forall va2, uva va2 -> ubyte m' t' va2 = ubyte m t va2) \/
  (r <> 0 /\ va < psz /\ valid_page r /\ exists pte,
    leaves t' = <[vpn va := pte]> (leaves t) /\ fault_pte (leaves t !! vpn va) read r pte /\
    forall va2, uva va2 -> ubyte m' t' va2 = fault_view m t va va2).

(** A fault takes three pages at most. Why one is not resolved: the address is
    beyond the size, it is mapped and this is not a store to a copy-on-write
    page, or memory is short. *)
Definition fault_reason (psz : Z) (free free' : list Z) (t : ptree) (va : Z) (read : bool) (r : Z) : Prop :=
  (length free <= 3 + length free')%nat /\
  (r = 0 -> psz <= va \/ (exists v, leaves t !! vpn va = Some v /\ (read = true \/ flag v PTE_COW = false)) \/
    (length free <= 2)%nat).

Lemma vmfault_run `{!LinkerOk} s free t ts ex psz va read c :
  vm_inv s free (t :: ts) ex -> ex_nonneg ex -> 0 <= va -> psz <= TRAPFRAME -> LKmem ∉ held c ->
  exists r s' free' t', vmfault psz (root t) va read c s = Ok r c s' /\
    frame ex ts s free t s' free' t' /\ vm_inv s' free' (t' :: ts) ex /\
    fault_result psz t t' va read (mem s) (mem s') r /\ fault_reason psz free free' t va read r.
Proof.
  intros Hv Hex Hva0 Hsz Hl. unfold vmfault. destruct (Z.leb_spec psz va) as [Hge|Hlt].
  { exists 0, s, free, t. split_and!; [done|apply frame_refl|done|by left|]. split; [lia|by left]. }
  pose proof (vm_tree_ok _ _ _ _ _ Hv) as Ht.
  assert (uva va) as Hva by (unfold uva; lia). pose proof (uva_rounddown va Hva) as Hva'.
  assert (0 <= PGROUNDDOWN va < MAXVA) as Hm by (unfold uva in Hva'; klia).
  rewrite (bind_ok _ _ _ _ _ _ _ (ismapped_run s free t _ c Ht Hm)), vpn_rounddown.
  destruct (leaves t !! vpn va) as [v|] eqn:Ev.
  - rewrite bool_decide_eq_true_2 by done. cbn [negb].
    rewrite (bind_ok _ _ _ _ _ _ _ (walk_lookup s t _ c (tok_rep _ _ _ Ht) Hm)).
    assert (leaves t !! vpn (PGROUNDDOWN va) = Some v) as Ev' by (by rewrite vpn_rounddown).
    rewrite (bind_ok _ _ c s v c s).
    2: { unfold load64, gets. rewrite leaf_addr_load; [|apply Ht|by eapply mapped_leaf_addr].
         unfold leaf. by rewrite Ev'. }
    destruct (negb read && flag v PTE_COW) eqn:Ec.
    2: { exists 0, s, free, t. split_and!; [done|apply frame_refl|done|by left|].
         split; [lia|]. right; left. exists v. split; [done|]. by destruct read, (flag v PTE_COW); auto. }
    change (exists r s' free' t', cow_branch (leaf_addr t (PGROUNDDOWN va)) v c s = Ok r c s' /\
      frame ex ts s free t s' free' t' /\ vm_inv s' free' (t' :: ts) ex /\
      fault_result psz t t' va read (mem s) (mem s') r /\ fault_reason psz free free' t va read r).
    apply andb_true_iff in Ec as [Er%negb_true_iff Ec]. destruct free as [|p rest].
    { exists 0, s, [], t. unfold cow_branch.
      rewrite (bind_ok _ _ _ _ _ _ _ (kalloc_empty s c (vm_kmem _ _ _ _ Hv) Hl)).
      split_and!; [done|apply frame_refl|done|by left|]. split; [simpl; lia|]. right; right. simpl; lia. }
    destruct (cow_run s p rest t ts ex _ v c Hv Hex Hva' Ev' Hl) as (s' & free' & Hrun & Hfr & Hv' & Hlen & Hview).
    destruct (cow_fresh s p rest t ts ex v Hv) as (Hp & _). pose proof (valid_page_pos p Hp).
    exists p, s', free', (cow_t p t (PGROUNDDOWN va) v). split_and!; [done..| |split; [simpl; lia|intros ->; klia]]. right.
    split; [klia|]. split; [done|]. split; [done|]. exists (cow_pte p v). split_and!.
    + apply map_eq. intros k. rewrite (cow_t_lookup s p rest t ts ex _ v Hv Hva' Ev'), vpn_rounddown.
      rewrite lookup_insert. done.
    + by rewrite Ev.
    + intros va2 Hva2. unfold fault_view. rewrite decide_False by (rewrite Ev; naive_solver). by apply Hview.
  - rewrite bool_decide_eq_false_2 by (by intros []). cbn [negb].
    assert (PGROUNDDOWN va mod PGSIZE = 0) as Hal by apply PGROUNDDOWN_aligned.
    destruct (vm_map_zeroed s free t ts ex (PGROUNDDOWN va) (Z.lor (Z.lor PTE_W PTE_U) PTE_R) c
      (mret 0) (fun mem => mret mem) (mret 0) Hv Hex Hal Hva') as [[-> Hrun]|(s' & free' & t' & Hfr & Hv' & Hres)].
    { by rewrite vpn_rounddown. } { done. } { done. }
    { rewrite Hrun. exists 0, s, [], t. split_and!; [done|apply frame_refl|done|by left|].
      split; [simpl; lia|]. right; right. simpl; lia. }
    destruct Hres as [(Hrun & Hlen & Hlv & Hview)|(p & Hrun & Hp & Hlen & Hlv & Hview)]; rewrite Hrun.
    { exists 0, s', free', t'. split_and!; [done..|by left|]. split; [lia|by right; right]. }
    pose proof (valid_page_pos p Hp). exists p, s', free', t'. split_and!; [done..| |split; [lia|intros ->; klia]]. right.
    split; [klia|]. split; [done|]. split; [done|]. rewrite vpn_rounddown in Hlv, Hview.
    eexists. split; [exact Hlv|]. rewrite Ev. split; [done|].
    intros va2 Hva2. rewrite Hview by done. unfold fault_view. rewrite Ev.
    repeat case_decide; naive_solver.
Qed.

(** ** uvmunmap *)

(** Freeing a page and then clearing a leaf elsewhere is the same as clearing
    the leaf first. *)
Lemma free_store_comm s p a x : p mod PGSIZE = 0 -> a mod 8 = 0 -> PGROUNDDOWN a <> p ->
  let s1 := set_mem (fun m => st64 m a x) (free_state s p) in
  let s2 := free_state (set_mem (fun m => st64 m a x) s) p in
  freelist s1 = freelist s2 /\ refcnt s1 = refcnt s2 /\ agree (fun _ => True) (mem s2) (mem s1).
Proof.
  intros Hp Ha Hne s1 s2. split; [done|]. split; [done|]. intros y _.
  assert (~ (a <= y < a + 8 /\ p <= y < p + PGSIZE)) as Hd.
  { intros [H1 H2]. apply Hne, PGROUNDDOWN_unique; [done|].
    consts. Z.div_mod_to_equations. lia. }
  unfold s1, s2, free_state. cbn [mem set_mem set_freelist set_refcnt freelist].
  destruct (decide (a <= y < a + 8)) as [Hy|Hy].
  - rewrite (ld8_stn_out 8 _ p) by (consts; lia). rewrite (ld8_memset _ p) by done.
    rewrite decide_False by lia. by apply ld8_stn_in.
  - rewrite (ld8_stn_out 8 _ a) by lia. destruct (decide (p <= y < p + 8)).
    { by apply ld8_stn_in. }
    rewrite !(ld8_stn_out 8 _ p) by lia. rewrite !ld8_memset by done. case_decide; [done|].
    by rewrite ld8_stn_out by lia.
Qed.

Lemma kfree_store_comm `{!LinkerOk} s p a x c s2 : valid_page p -> a mod 8 = 0 ->
  PGROUNDDOWN a <> p -> LKmem ∉ held c -> 1 <= ref s p < 2 ^ 31 ->
  kfree p c (set_mem (fun m => st64 m a x) s) = Ok tt c s2 ->
  exists s1, kfree p c s = Ok tt c s1 /\ freelist s1 = freelist s2 /\ refcnt s1 = refcnt s2 /\
    agree (fun _ => True) (mem s2) (st64 (mem s1) a x).
Proof.
  intros Hp Ha Hne Hl Hr Hk. pose proof (valid_page_aligned p Hp) as Hal.
  assert (ref (set_mem (fun m => st64 m a x) s) p = ref s p) as Er by apply ref_set_mem.
  destruct (decide (ref s p = 1)) as [E|E].
  - rewrite kfree_last in Hk by (done || lia). injection Hk as <-.
    exists (free_state s p). split; [by apply kfree_last|].
    by apply (free_store_comm s p a x).
  - rewrite kfree_shared in Hk by (done || lia). injection Hk as <-. rewrite Er.
    eexists. split; [apply kfree_shared; (done || lia)|]. done.
Qed.

Lemma leaf_addr_page `{!LinkerOk} s free t va : tree_ok s free t -> leaf_addr t va <> 0 ->
  leaf_addr t va mod 8 = 0 /\ PGROUNDDOWN (leaf_addr t va) ∈ pt_pages t.
Proof.
  intros [_ Hr _] Ha. unfold leaf_addr in *. destruct (l0 t !! _) as [q|] eqn:E; [|done].
  pose proof (l0_in _ _ _ E) as Hq. pose proof (rep_aligned _ _ _ Hr Hq) as Hal.
  pose proof (PX_bound 0 va ltac:(lia)). split.
  - consts. Z.div_mod_to_equations. lia.
  - rewrite (PGROUNDDOWN_unique q); [done|done|consts; lia].
Qed.

(** The body of the loop of [uvmunmap] with [do_free] set. *)
Definition unmap_body (pagetable a : Z) : M pmem unit :=
  pte ← walk pagetable a false;
  if pte =? 0 then mret tt
  else
    v ← load64 pte;
    if negb (flag v PTE_V) then mret tt
    else
      kfree (PTE2PA v);;
      store64 pte 0.

(** Clearing a leaf and dropping the reference it held spares the others. *)
Lemma unmap_frame `{!LinkerOk} s free t ts ex va p s' free' : vm_inv s free (t :: ts) ex -> uva va ->
  leaf_addr t va <> 0 ->
  let sA := set_mem (fun m => st64 m (leaf_addr t va) 0) s in
  let t' := put_leaf va 0 t in
  vm_inv sA free (t' :: ts) (bump ex p 1) -> valid_page p ->
  agree (fun q => q <> p \/ 0 < total p (t' :: ts) \/ 1 < bump ex p 1 p) (mem sA) (mem s') ->
  free' = free \/ (free' = p :: free /\ total p (t' :: ts) = 0 /\ bump ex p 1 p = 1) ->
  frame ex ts s free t s' free' t'.
Proof.
  intros Hv Hva Ha sA t' HvA Hp HA Hsub.
  destruct (store_leaf s free t va 0 (vm_tree_ok _ _ _ _ _ Hv) Ha (or_introl eq_refl)) as [_ HAs].
  assert (forall q, kheld free (t :: ts) ex q -> q <> p \/ 1 < bump ex p 1 p) as Hq1.
  { intros q (_ & _ & Hq). destruct (decide (q = p)) as [->|]; [|by left]. right.
    unfold bump. rewrite decide_True by done. specialize (Hq Hp). lia. }
  split; [done|done|intros w; by apply put_leaf_upper| | |].
  - eapply agree_trans; [eapply agree_weaken; [|exact HAs]; intros q [[_ Hd] _]; apply Hd; list_mem|].
    eapply agree_weaken; [|exact HA]. intros q Hq. destruct (Hq1 q Hq); auto.
  - intros q Hq. pose proof (Hq1 q Hq) as Hor. destruct Hq as (Hq & Hqu & Hq2). split_and!; [| |done].
    2: { revert Hqu. apply unmapped_sub. intros w x. unfold t'. rewrite put_leaf_lookup. case_decide; [done|by left]. }
    apply (store_data_page t 0 va) in Hq as [Hq3 Hq4]. split; [|done].
    destruct Hsub as [->|(-> & _ & E)]; [done|]. destruct Hor; [|lia]. by intros [->|?]%elem_of_cons.
  - intros t2 va2 Ht2 Hva2. transitivity (ubyte (mem sA) t2 va2).
    + eapply kfree_view; [exact HvA|exact HA|list_mem|done].
    + eapply (store_view s free t ts ex va 0); [exact Hv|done|by left|list_mem|done].
Qed.

Lemma unmap_mapped `{!LinkerOk} s free t ts ex va v c : vm_inv s free (t :: ts) ex -> ex_nonneg ex ->
  uva va -> leaves t !! vpn va = Some v -> LKmem ∉ held c ->
  let t' := put_leaf va 0 t in
  exists s' free', (kfree (PTE2PA v);; store64 (leaf_addr t va) 0) c s = Ok tt c s' /\
    frame ex ts s free t s' free' t' /\ vm_inv s' free' (t' :: ts) ex /\
    (forall va2, uva va2 -> ubyte (mem s') t' va2 = ubyte (mem s) t' va2).
Proof.
  intros Hv Hex Hva Ev Hl t'. pose proof (vm_tree_ok _ _ _ _ _ Hv) as Ht.
  pose proof (mapped_leaf_addr _ _ _ _ _ Ht Ev) as Ha. destruct (leaf_addr_page _ _ _ _ Ht Ha) as [Ha8 Hap].
  pose proof (leaf_data_page _ _ _ _ _ _ _ Hv ltac:(list_mem) Ev (uva_vpn va Hva)) as Hpd.
  destruct (vm_leaf _ _ _ _ Hv t _ _ ltac:(list_mem) Ev (uva_vpn va Hva)) as (Hp & Hr & _).
  pose proof (inv_ref _ _ (vm_kmem _ _ _ _ Hv) _ Hp) as Hrb.
  set (p := PTE2PA v) in *. set (sA := set_mem (fun m => st64 m (leaf_addr t va) 0) s).
  assert (vm_inv sA free (t' :: ts) (bump ex p 1)) as HvA.
  { eapply vm_inv_ex; [|apply vm_store_leaf; [exact Hv|done|by left]].
    intros q _. cbv beta. rewrite Ev, slot_hits_new by (by apply uva_vpn). simpl. fold p.
    unfold bump. case_decide; lia. }
  assert (data_page free (t' :: ts) p) as Hpd' by (by apply store_data_page).
  destruct (vm_kfree sA free (t' :: ts) (bump ex p 1) p c HvA Hp) as (s2 & free2 & Hk & Hv2 & HA2 & Hsub);
    [apply Hpd'|unfold bump; rewrite decide_True by done; pose proof (Hex p); lia|done|].
  destruct (kfree_store_comm s p (leaf_addr t va) 0 c s2) as (s1 & Hk1 & Hf1 & Hr1 & HA1);
    [done|done| |done|lia|done|].
  { intros E. rewrite E in Hap. destruct Hpd as [_ Hd]. apply (Hd t); [list_mem|done]. }
  set (s' := set_mem (fun m => st64 m (leaf_addr t va) 0) s1).
  assert (agree (fun q => q <> p \/ 0 < total p (t' :: ts) \/ 1 < bump ex p 1 p) (mem sA) (mem s')) as HA.
  { eapply agree_trans; [exact HA2|]. eapply agree_weaken; [|exact HA1]. done. }
  destruct (store_leaf s free t va 0 Ht Ha (or_introl eq_refl)) as [_ HAs].
  exists s', free2. split; [by rewrite (bind_ok _ _ _ _ _ _ _ Hk1)|]. split; [|split].
  - eapply unmap_frame; done.
  - eapply vm_inv_ex; [|eapply vm_mem; [exact Hv2|done|done|]].
    + intros q _. apply (bump_bump ex p 1).
    + eapply agree_weaken; [|exact HA1]. done.
  - intros va2 Hva2. transitivity (ubyte (mem sA) t' va2).
    + eapply kfree_view; [exact HvA|exact HA|list_mem|done].
    + unfold ubyte. subst t'. rewrite put_leaf_lookup. case_decide as E2; [done|].
      exact (store_view s free t ts ex va 0 t va2 Hv Ha (or_introl eq_refl) ltac:(list_mem) Hva2).
Qed.

Lemma unmap_one `{!LinkerOk} s free t ts ex va c : vm_inv s free (t :: ts) ex -> ex_nonneg ex ->
  uva va -> LKmem ∉ held c ->
  exists s' free' t', unmap_body (root t) va c s = Ok tt c s' /\
    frame ex ts s free t s' free' t' /\ vm_inv s' free' (t' :: ts) ex /\
    leaves t' = delete (vpn va) (leaves t) /\
    (forall va2, uva va2 -> ubyte (mem s') t' va2 =
       if decide (vpn va2 = vpn va) then None else ubyte (mem s) t va2) /\
    pt_pages t' = pt_pages t.
Proof.
  intros Hv Hex Hva Hl. pose proof (vm_tree_ok _ _ _ _ _ Hv) as Ht.
  assert (0 <= va < MAXVA) as Hm by (unfold uva in Hva; klia). unfold unmap_body.
  rewrite (bind_ok _ _ _ _ _ _ _ (walk_lookup s t va c (tok_rep _ _ _ Ht) Hm)).
  destruct (leaves t !! vpn va) as [v|] eqn:Ev.
  2: { exists s, free, t. split_and!; [|apply frame_refl|done|by rewrite delete_id| |done].
       - destruct (Z.eqb_spec (leaf_addr t va) 0) as [E|E]; [done|].
         rewrite (bind_ok _ _ c s (ld64 (mem s) (leaf_addr t va)) c s) by done.
         by rewrite (leaf_addr_load _ _ _ (tok_rep _ _ _ Ht) E), (leaf_flag _ _ _ _ Ht E), Ev.
       - intros va2 _. case_decide as E2; [|done]. unfold ubyte. by rewrite E2, Ev. }
  pose proof (mapped_leaf_addr _ _ _ _ _ Ht Ev) as Ha.
  destruct (Z.eqb_spec (leaf_addr t va) 0) as [?|_]; [done|].
  rewrite (bind_ok _ _ c s (ld64 (mem s) (leaf_addr t va)) c s) by done.
  rewrite (leaf_addr_load _ _ _ (tok_rep _ _ _ Ht) Ha), (leaf_flag _ _ _ _ Ht Ha), Ev.
  unfold leaf. rewrite Ev. cbn [default bool_decide negb].
  destruct (unmap_mapped s free t ts ex va v c Hv Hex Hva Ev Hl) as (s' & free' & Hrun & Hfr & Hv' & Hview).
  exists s', free', (put_leaf va 0 t). split_and!; [done..| |done]. intros va2 Hva2. rewrite Hview by done.
  unfold ubyte. rewrite put_leaf_lookup. repeat case_decide; done || congruence.
Qed.

Lemma vpn_page a : a mod PGSIZE = 0 -> 0 <= a -> forall va, vpn va = vpn a <-> a <= va < a + PGSIZE.
Proof. intros Ha H0 va. unfold vpn. consts. Z.div_mod_to_equations. lia. Qed.

Definition in_range (a stop va : Z) : Prop := a <= va < stop.
#[global] Instance in_range_dec a stop va : Decision (in_range a stop va).
Proof. unfold in_range. apply _. Defined.

Lemma uvmunmap_loop_S n pagetable a stop c s c' s' : a < stop ->
  unmap_body pagetable a c s = Ok tt c' s' ->
  uvmunmap_loop (S n) pagetable a stop true c s =
  uvmunmap_loop n pagetable (u64 (a + PGSIZE)) stop true c' s'.
Proof.
  intros H. cbn [uvmunmap_loop]. apply Z.ltb_lt in H. rewrite H.
  apply (bind_bind_ok _ _ (fun _ => uvmunmap_loop n pagetable (u64 (a + PGSIZE)) stop true)).
Qed.

(** What remains mapped after the pages from [a] to [stop] are unmapped. *)
Definition unmapped_leaves (a stop : Z) (lv : gmap Z Z) : gmap Z Z :=
  filter (fun '(v, _) => ~ (vpn a <= v < vpn stop)) lv.

Lemma unmapped_leaves_nil a lv : unmapped_leaves a a lv = lv.
Proof. apply map_filter_id. intros; lia. Qed.

Lemma unmapped_leaves_step a stop lv : a mod PGSIZE = 0 -> a + PGSIZE <= stop ->
  unmapped_leaves (a + PGSIZE) stop (delete (vpn a) lv) = unmapped_leaves a stop lv.
Proof.
  intros Ha Hs. apply map_eq. intros v. unfold unmapped_leaves. rewrite !map_lookup_filter.
  assert (vpn (a + PGSIZE) = vpn a + 1) as E1 by (unfold vpn; consts; Z.div_mod_to_equations; lia).
  assert (vpn (a + PGSIZE) <= vpn stop) as E2 by (by apply Z.div_le_mono).
  destruct (decide (v = vpn a)) as [->|Hne].
  - rewrite lookup_delete_eq. simpl. destruct (lv !! vpn a); [|done]. simpl.
    rewrite option_guard_False; [done|lia].
  - rewrite lookup_delete_ne by done. destruct (lv !! v) as [x|]; [|done]. simpl.
    destruct (decide (vpn a <= v < vpn stop)).
    + rewrite !option_guard_False by lia. done.
    + rewrite !option_guard_True by lia. done.
Qed.

Lemma uvmunmap_loop_run `{!LinkerOk} n : forall s free t ts ex a stop c,
  vm_inv s free (t :: ts) ex -> ex_nonneg ex -> LKmem ∉ held c ->
  a mod PGSIZE = 0 -> 0 <= a -> stop = a + Z.of_nat n * PGSIZE -> stop <= TRAPFRAME ->
  exists s' free' t', uvmunmap_loop n (root t) a stop true c s = Ok tt c s' /\
    frame ex ts s free t s' free' t' /\ vm_inv s' free' (t' :: ts) ex /\
    leaves t' = unmapped_leaves a stop (leaves t) /\
    (forall va, uva va -> ubyte (mem s') t' va =
       if decide (in_range a stop va) then None else ubyte (mem s) t va) /\
    pt_pages t' = pt_pages t.
Proof.
  induction n as [|n IH]; intros s free t ts ex a stop c Hv Hex Hl Ha H0 Hs Hst.
  { exists s, free, t. cbn [uvmunmap_loop]. destruct (Z.ltb_spec a stop); [lia|].
    replace stop with a by lia. rewrite unmapped_leaves_nil.
    split_and!; [done|apply frame_refl|done..| |done]. intros va _. case_decide as E; [|done]. unfold in_range in E. lia. }
  assert (0 < PGSIZE) as HPG by done.
  assert (uva a) as Hva by (unfold uva; nia).
  destruct (unmap_one s free t ts ex a c Hv Hex Hva Hl) as (s1 & f1 & t1 & Hr1 & Hf1 & Hv1 & Hl1 & Hb1 & Hp1).
  rewrite (uvmunmap_loop_S n (root t) a stop c s c s1 ltac:(nia) Hr1), <- (fr_root _ _ _ _ _ _ _ _ Hf1).
  rewrite u64_id by (unfold uva in Hva; klia).
  assert ((a + PGSIZE) mod PGSIZE = 0) as Ha' by (rewrite Zplus_mod, Ha; done).
  destruct (IH s1 f1 t1 ts ex (a + PGSIZE) stop c Hv1 Hex Hl Ha') as (s2 & f2 & t2 & Hr2 & Hf2 & Hv2 & Hl2 & Hb2 & Hp2);
    [lia|lia|done|].
  exists s2, f2, t2. split; [done|]. split; [by eapply frame_trans|]. split; [done|]. split; [|split; [|congruence]].
  - rewrite Hl2, Hl1. apply unmapped_leaves_step; [done|nia].
  - intros va Hv'. rewrite Hb2, Hb1 by done. pose proof (vpn_page a Ha H0 va) as Hvp.
    unfold in_range. repeat case_decide; try done; nia.
Qed.

Lemma uvmunmap_run `{!LinkerOk} s free t ts ex a npages c :
  vm_inv s free (t :: ts) ex -> ex_nonneg ex -> LKmem ∉ held c ->
  a mod PGSIZE = 0 -> 0 <= a -> 0 <= npages -> a + npages * PGSIZE <= TRAPFRAME ->
  exists s' free' t', uvmunmap (root t) a npages true c s = Ok tt c s' /\
    frame ex ts s free t s' free' t' /\ vm_inv s' free' (t' :: ts) ex /\
    leaves t' = unmapped_leaves a (a + npages * PGSIZE) (leaves t) /\
    (forall va, uva va -> ubyte (mem s') t' va =
       if decide (in_range a (a + npages * PGSIZE) va) then None else ubyte (mem s) t va) /\
    pt_pages t' = pt_pages t.
Proof.
  intros Hv Hex Hl Ha H0 Hn Hst. unfold uvmunmap. rewrite Ha. change (negb (0 =? 0)) with false. cbn iota.
  assert (0 < PGSIZE) by done. rewrite (u64_id (npages * PGSIZE)) by (split; [nia|klia]).
  rewrite u64_id by (split; [nia|klia]). apply uvmunmap_loop_run; [done..| |done].
  by rewrite Z2Nat.id by done.
Qed.
End ops.
