(* ===== verification/VmUser.v ===== *)
(** * Growing, shrinking and copying user address spaces

    [uvmdealloc], [uvmalloc] and [uvmcopy] of kernel/vm.c, lifted from one page
    (file VmOps) to whole ranges: what user code sees afterwards, on success
    and on every failure path. *)

From S2P Require Import Prelude Riscv Mem Kalloc Vm VmTree VmInv VmOps.

Section user.
Context `{LK : Linker}.

(** ** Shrinking *)

Lemma roundup_facts sz : 0 <= sz <= TRAPFRAME ->
  PGROUNDUP sz mod PGSIZE = 0 /\ sz <= PGROUNDUP sz < sz + PGSIZE /\ PGROUNDUP sz <= TRAPFRAME.
Proof.
  intros H. assert (sz + PGSIZE <= 2 ^ 64) as H2 by klia.
  pose proof (PGROUNDUP_aligned sz ltac:(lia) H2). pose proof (PGROUNDUP_bound sz ltac:(lia) H2).
  split_and!; try lia. consts. Z.div_mod_to_equations. lia.
Qed.

Lemma roundup_mono a b : 0 <= a -> a <= b -> b <= TRAPFRAME -> PGROUNDUP a <= PGROUNDUP b.
Proof.
  intros. destruct (roundup_facts a ltac:(lia)) as (? & ? & _).
  destruct (roundup_facts b ltac:(lia)) as (? & ? & _). consts. Z.div_mod_to_equations. lia.
Qed.

Lemma unmapped_leaves_empty a b lv : b <= a -> unmapped_leaves a b lv = lv.
Proof.
  intros H. apply map_filter_id. intros v x _ Hv.
  pose proof (Z.div_le_mono b a PGSIZE ltac:(done) H). unfold vpn in Hv. lia.
Qed.

Lemma uvmdealloc_run `{!LinkerOk} s free t ts ex oldsz newsz c :
  vm_inv s free (t :: ts) ex -> ex_nonneg ex -> LKmem ∉ held c ->
  0 <= oldsz <= TRAPFRAME -> 0 <= newsz <= TRAPFRAME ->
  exists s' free' t', uvmdealloc (root t) oldsz newsz c s = Ok (Z.min oldsz newsz) c s' /\
    frame ex ts s free t s' free' t' /\ vm_inv s' free' (t' :: ts) ex /\
    leaves t' = unmapped_leaves (PGROUNDUP newsz) (PGROUNDUP oldsz) (leaves t) /\
    (forall va, uva va -> ubyte (mem s') t' va =
       if decide (in_range (PGROUNDUP newsz) (PGROUNDUP oldsz) va) then None else ubyte (mem s) t va).
Proof.
  intros Hv Hex Hl Ho Hn. destruct (roundup_facts oldsz Ho) as (Ao & Bo & To).
  destruct (roundup_facts newsz Hn) as (An & Bn & Tn). unfold uvmdealloc.
  destruct (Z.leb_spec oldsz newsz) as [Hle|Hgt].
  { pose proof (roundup_mono oldsz newsz ltac:(lia) Hle ltac:(lia)).
    exists s, free, t. rewrite Z.min_l by done. rewrite unmapped_leaves_empty by done.
    split_and!; [done|apply frame_refl|done..|]. intros va _. case_decide as E; [|done]. unfold in_range in E. lia. }
  rewrite Z.min_r by lia. destruct (Z.ltb_spec (PGROUNDUP newsz) (PGROUNDUP oldsz)) as [Hlt|Hge].
  2: { exists s, free, t. rewrite unmapped_leaves_empty by done.
       split_and!; [done|apply frame_refl|done..|]. intros va _. case_decide as E; [|done]. unfold in_range in E. lia. }
  set (np := (PGROUNDUP oldsz - PGROUNDUP newsz) / PGSIZE).
  assert (PGROUNDUP newsz + np * PGSIZE = PGROUNDUP oldsz) as E.
  { unfold np. consts. Z.div_mod_to_equations. lia. }
  assert (0 <= np < 2 ^ 31) as Hnp by (unfold np; consts; Z.div_mod_to_equations; lia).
  rewrite (u64_id (PGROUNDUP oldsz - PGROUNDUP newsz)) by (split; [lia|klia]). fold np. rewrite (i32_id np), (u64_id np) by lia.
  destruct (uvmunmap_run s free t ts ex (PGROUNDUP newsz) np c Hv Hex Hl An)
    as (s' & free' & t' & Hrun & Hfr & Hv' & Hlv & Hview & _); [lia|lia|lia|].
  rewrite E in Hlv, Hview. exists s', free', t'. rewrite (bind_ok _ _ _ _ _ _ _ Hrun). done.
Qed.

(** ** Growing *)

(** A view with the range from [a] to [stop] replaced by zeroes. *)
Definition zeroed_view (m : gmap Z Z) (t : ptree) (a stop va : Z) : option Z :=
  if decide (in_range a stop va) then Some 0 else ubyte m t va.

(** The leaves [uvmalloc] adds: every page of the range, with the given
    permissions, and no other. *)
Definition grown (xperm a stop : Z) (lv lv' : gmap Z Z) : Prop :=
  forall v, if decide (vpn a <= v < vpn stop)
    then exists p, lv' !! v = Some (Z.lor (PA2PTE p) (Z.lor (Z.lor (Z.lor PTE_R PTE_U) xperm) PTE_V))
    else lv' !! v = lv !! v.

Lemma perm_bound xperm : 0 <= xperm < 1024 -> 0 <= Z.lor (Z.lor PTE_R PTE_U) xperm < 1024.
Proof.
  intros Hx. split; [apply Z.lor_nonneg; split; [done|lia]|].
  destruct (decide (xperm = 0)) as [->|]; [done|].
  apply (Z.log2_lt_cancel _ 1024). rewrite Z.log2_lor by (done || lia).
  apply Z.max_lub_lt; [done|apply (Z.log2_lt_pow2 _ 10); lia].
Qed.

Lemma vpn_aligned_lt a b va : a mod PGSIZE = 0 -> b mod PGSIZE = 0 ->
  (vpn a <= vpn va < vpn b <-> in_range a b va).
Proof. unfold vpn, in_range. intros. consts. Z.div_mod_to_equations. lia. Qed.

Lemma vpn_next a : vpn (a + PGSIZE) = vpn a + 1.
Proof. unfold vpn. consts. Z.div_mod_to_equations. lia. Qed.

(** How a call to [uvmalloc] ends: the whole range is there, or none of it. *)
Definition alloc_result (xperm oldsz a newsz : Z) (t t' : ptree) (m m' : gmap Z Z) (r : Z) : Prop :=
  (r = newsz /\ grown xperm a (PGROUNDUP newsz) (leaves t) (leaves t') /\
   forall va, uva va -> ubyte m' t' va = zeroed_view m t a (PGROUNDUP newsz) va) \/
  (r = 0 /\ leaves t' = unmapped_leaves oldsz a (leaves t) /\
   forall va, uva va -> ubyte m' t' va = if decide (in_range oldsz a va) then None else ubyte m t va).

(** The failure path undoes what was mapped so far. *)
Lemma uvmalloc_undo `{!LinkerOk} s free t ts ex oldsz a c :
  vm_inv s free (t :: ts) ex -> ex_nonneg ex -> LKmem ∉ held c ->
  a mod PGSIZE = 0 -> oldsz mod PGSIZE = 0 -> 0 <= oldsz <= a -> a <= TRAPFRAME ->
  exists s' free' t', (uvmdealloc (root t) a oldsz;; mret 0) c s = Ok 0 c s' /\
    frame ex ts s free t s' free' t' /\ vm_inv s' free' (t' :: ts) ex /\
    leaves t' = unmapped_leaves oldsz a (leaves t) /\
    forall va, uva va -> ubyte (mem s') t' va =
      if decide (in_range oldsz a va) then None else ubyte (mem s) t va.
Proof.
  intros Hv Hex Hl Ha Ho Hoa Hat.
  destruct (uvmdealloc_run s free t ts ex a oldsz c Hv Hex Hl) as
    (s' & free' & t' & Hrun & Hfr & Hv' & Hlv & Hview); [lia|lia|].
  rewrite !PGROUNDUP_id in Hlv, Hview by (done || klia).
  exists s', free', t'. by rewrite (bind_ok _ _ _ _ _ _ _ Hrun).
Qed.

(** A later failure, seen from an earlier iteration. *)
Lemma unmapped_earlier oldsz a lv x : a mod PGSIZE = 0 -> 0 <= oldsz <= a -> lv !! vpn a = None ->
  unmapped_leaves oldsz (a + PGSIZE) (<[vpn a := x]> lv) = unmapped_leaves oldsz a lv.
Proof.
  intros Ha Ho Hn. apply map_eq. intros v. unfold unmapped_leaves. rewrite !map_lookup_filter.
  rewrite vpn_next. pose proof (Z.div_le_mono oldsz a PGSIZE ltac:(done) ltac:(lia)) as Hd.
  fold (vpn oldsz) (vpn a) in Hd. destruct (decide (v = vpn a)) as [->|Hne].
  - rewrite lookup_insert_eq, Hn. simpl. rewrite option_guard_False; [done|lia].
  - rewrite lookup_insert_ne by done. destruct (lv !! v); [|done]. simpl.
    destruct (decide (vpn oldsz <= v < vpn a)).
    + rewrite !option_guard_False by lia. done.
    + rewrite !option_guard_True by lia. done.
Qed.

Lemma grown_step xperm a stop lv lv' p : a mod PGSIZE = 0 -> stop mod PGSIZE = 0 -> a < stop ->
  grown xperm (a + PGSIZE) stop
    (<[vpn a := Z.lor (PA2PTE p) (Z.lor (Z.lor (Z.lor PTE_R PTE_U) xperm) PTE_V)]> lv) lv' ->
  grown xperm a stop lv lv'.
Proof.
  intros Ha Hs Hlt Hg v. specialize (Hg v). rewrite vpn_next in Hg.
  assert (vpn a < vpn stop) by (unfold vpn; consts; Z.div_mod_to_equations; lia).
  destruct (decide (v = vpn a)) as [->|Hne].
  - rewrite decide_False in Hg by lia. rewrite lookup_insert_eq in Hg.
    rewrite decide_True by lia. eauto.
  - rewrite lookup_insert_ne in Hg by done. repeat case_decide; (done || lia).
Qed.

Lemma uvmalloc_loop_run `{!LinkerOk} n : forall s free t ts ex oldsz a newsz xperm c,
  vm_inv s free (t :: ts) ex -> ex_nonneg ex -> LKmem ∉ held c -> 0 <= xperm < 1024 ->
  a mod PGSIZE = 0 -> oldsz mod PGSIZE = 0 -> 0 <= oldsz <= a -> 0 <= newsz <= TRAPFRAME ->
  a <= PGROUNDUP newsz -> newsz - a <= Z.of_nat n * PGSIZE ->
  (forall v, vpn a <= v < vpn (PGROUNDUP newsz) -> leaves t !! v = None) ->
  exists r s' free' t', uvmalloc_loop n (root t) oldsz a newsz xperm c s = Ok r c s' /\
    frame ex ts s free t s' free' t' /\ vm_inv s' free' (t' :: ts) ex /\
    alloc_result xperm oldsz a newsz t t' (mem s) (mem s') r.
Proof.
  induction n as [|n IH]; intros s free t ts ex oldsz a newsz xperm c Hv Hex Hl Hx Ha Ho Hoa Hn Han Hf Hfree;
    destruct (roundup_facts newsz Hn) as (An & Bn & Tn); cbn [uvmalloc_loop].
  all: destruct (Z.ltb_spec a newsz) as [Hlt|Hge]; [|
    exists newsz, s, free, t; split_and!; [done|apply frame_refl|done|]; left;
    replace (PGROUNDUP newsz) with a by (consts; Z.div_mod_to_equations; lia);
    split_and!; [done|intros v; rewrite decide_False by lia; done|];
    intros va _; unfold zeroed_view; rewrite decide_False by (unfold in_range; lia); done].
  { lia. }
  assert (a < PGROUNDUP newsz) as Hlt' by lia.
  assert (a + PGSIZE <= PGROUNDUP newsz) as Hle by (consts; Z.div_mod_to_equations; lia).
  assert (uva a) as Hva by (unfold uva; lia). pose proof (vpn_next a) as Hvn.
  assert (leaves t !! vpn a = None) as Hna.
  { apply Hfree. unfold vpn. split; [lia|]. consts. Z.div_mod_to_equations. lia. }
  destruct (vm_map_zeroed s free t ts ex a (Z.lor (Z.lor PTE_R PTE_U) xperm) c
    (uvmdealloc (root t) a oldsz;; mret 0)
    (fun _ => uvmalloc_loop n (root t) oldsz (u64 (a + PGSIZE)) newsz xperm)
    (uvmdealloc (root t) a oldsz;; mret 0) Hv Hex Ha Hva Hna (perm_bound xperm Hx) Hl)
    as [[-> Hrun]|(s1 & f1 & t1 & Hfr1 & Hv1 & [(Hrun & Hlen1 & Hlv1 & Hview1)|(p & Hrun & Hp & _ & Hlv1 & Hview1)])];
    cbv zeta in Hrun; rewrite Hrun.
  - destruct (uvmalloc_undo s [] t ts ex oldsz a c Hv Hex Hl Ha Ho Hoa) as
      (s2 & f2 & t2 & Hr2 & Hfr2 & Hv2 & Hlv2 & Hview2); [lia|].
    exists 0, s2, f2, t2. split_and!; [done..|]. right. done.
  - rewrite <- (fr_root _ _ _ _ _ _ _ _ Hfr1).
    destruct (uvmalloc_undo s1 f1 t1 ts ex oldsz a c Hv1 Hex Hl Ha Ho Hoa) as
      (s2 & f2 & t2 & Hr2 & Hfr2 & Hv2 & Hlv2 & Hview2); [lia|].
    exists 0, s2, f2, t2. split; [done|]. split; [by eapply frame_trans|]. split; [done|]. right.
    rewrite Hlv2, Hlv1. split_and!; [done..|]. intros va Hu. rewrite Hview2, Hview1; done.
  - rewrite <- (fr_root _ _ _ _ _ _ _ _ Hfr1). rewrite u64_id by klia.
    destruct (IH s1 f1 t1 ts ex oldsz (a + PGSIZE) newsz xperm c) as
      (r & s2 & f2 & t2 & Hr2 & Hfr2 & Hv2 & Hres); try done; try lia.
    { rewrite Zplus_mod, Ha. done. }
    { intros v Hvv. rewrite Hlv1, lookup_insert_ne by lia. apply Hfree. lia. }
    exists r, s2, f2, t2. split; [done|]. split; [by eapply frame_trans|]. split; [done|].
    pose proof (vpn_page a Ha ltac:(lia)) as Hvp. assert (0 < PGSIZE) by done.
    destruct Hres as [(-> & Hg & Hview2)|(-> & Hlv2 & Hview2)]; [left|right]; split; try done; split.
    + rewrite Hlv1 in Hg. by eapply grown_step.
    + intros va Hu. rewrite Hview2 by done. unfold zeroed_view. rewrite Hview1 by done.
      pose proof (Hvp va). unfold in_range. repeat case_decide; try done; lia.
    + rewrite Hlv2, Hlv1. by apply unmapped_earlier.
    + intros va Hu. rewrite Hview2, Hview1 by done. pose proof (Hvp va). unfold in_range.
      repeat case_decide; try done; try lia. unfold ubyte. by replace (vpn va) with (vpn a) by lia; rewrite Hna.
Qed.

Lemma uvmalloc_run `{!LinkerOk} s free t ts ex oldsz newsz xperm c :
  vm_inv s free (t :: ts) ex -> ex_nonneg ex -> LKmem ∉ held c -> 0 <= xperm < 1024 ->
  0 <= oldsz <= newsz -> newsz <= TRAPFRAME ->
  (forall v, vpn (PGROUNDUP oldsz) <= v < vpn (PGROUNDUP newsz) -> leaves t !! v = None) ->
  exists r s' free' t', uvmalloc (root t) oldsz newsz xperm c s = Ok r c s' /\
    frame ex ts s free t s' free' t' /\ vm_inv s' free' (t' :: ts) ex /\
    alloc_result xperm (PGROUNDUP oldsz) (PGROUNDUP oldsz) newsz t t' (mem s) (mem s') r.
Proof.
  intros Hv Hex Hl Hx Ho Hn Hfree. unfold uvmalloc. destruct (Z.ltb_spec newsz oldsz); [lia|].
  destruct (roundup_facts oldsz ltac:(lia)) as (Ao & Bo & To).
  pose proof (roundup_mono oldsz newsz ltac:(lia) ltac:(lia) Hn). assert (0 < PGSIZE) by done.
  apply uvmalloc_loop_run; try done; try lia.
  assert (newsz - PGROUNDUP oldsz <= ((newsz - PGROUNDUP oldsz) / PGSIZE + 1) * PGSIZE)
    by (consts; Z.div_mod_to_equations; lia).
  destruct (decide (0 <= (newsz - PGROUNDUP oldsz) / PGSIZE + 1)); [by rewrite Z2Nat.id|nia].
Qed.

(** ** Sharing pages copy-on-write *)

(** The entry both address spaces have after [uvmcopy] shared a page. *)
Definition cow_share (v : Z) : Z :=
  if flag v PTE_W then Z.lor (Z.land v (Z.lnot PTE_W)) PTE_COW else v.

Lemma PTE2PA_high v x : 0 <= v < 2 ^ 54 -> 0 <= x -> Z.shiftr x 10 = Z.shiftr v 10 ->
  PTE2PA x = PTE2PA v /\ 0 <= x < 2 ^ 54.
Proof.
  intros Hv Hx E. unfold PTE2PA. rewrite E. split; [done|].
  rewrite !Z.shiftr_div_pow2 in E by lia. change (2 ^ 10) with 1024 in E.
  Z.div_mod_to_equations. lia.
Qed.

Lemma clear_w_high v : Z.shiftr (Z.land v (Z.lnot PTE_W)) 10 = Z.shiftr v 10.
Proof. rewrite Z.shiftr_land. change (Z.shiftr (Z.lnot PTE_W) 10) with (-1). apply Z.land_m1_r. Qed.

Lemma set_cow_high v : Z.shiftr (Z.lor v PTE_COW) 10 = Z.shiftr v 10.
Proof. rewrite Z.shiftr_lor. change (Z.shiftr PTE_COW 10) with 0. apply Z.lor_0_r. Qed.

Lemma clear_w_flag v k : 0 <= k ->
  flag (Z.land v (Z.lnot PTE_W)) (2 ^ k) = if decide (k = 2) then false else flag v (2 ^ k).
Proof.
  intros Hk. rewrite !flag_testbit by done. rewrite Z.land_spec, Z.lnot_spec by done.
  change PTE_W with (2 ^ 2). rewrite Z.pow2_bits_eqb by lia.
  case_decide as E; [subst; by rewrite andb_false_r|].
  rewrite (proj2 (Z.eqb_neq 2 k)) by lia. by rewrite andb_true_r.
Qed.

Lemma set_cow_flag v k : 0 <= k ->
  flag (Z.lor v PTE_COW) (2 ^ k) = if decide (k = 8) then true else flag v (2 ^ k).
Proof.
  intros Hk. rewrite !flag_testbit by done. rewrite Z.lor_spec.
  change PTE_COW with (2 ^ 8). rewrite Z.pow2_bits_eqb by lia.
  case_decide as E; [subst; by rewrite orb_true_r|].
  rewrite (proj2 (Z.eqb_neq 8 k)) by lia. by rewrite orb_false_r.
Qed.

Lemma clear_w_ok v : leaf_ok v ->
  leaf_ok (Z.land v (Z.lnot PTE_W)) /\ PTE2PA (Z.land v (Z.lnot PTE_W)) = PTE2PA v.
Proof.
  intros [Hf Hb]. destruct (PTE2PA_high v (Z.land v (Z.lnot PTE_W)) Hb) as [E Hb'];
    [apply Z.land_nonneg; lia|apply clear_w_high|].
  split; [|done]. split; [|done]. change PTE_V with (2 ^ 0) in *. by rewrite clear_w_flag.
Qed.

Lemma set_cow_ok v : leaf_ok v ->
  leaf_ok (Z.lor v PTE_COW) /\ PTE2PA (Z.lor v PTE_COW) = PTE2PA v.
Proof.
  intros [Hf Hb]. destruct (PTE2PA_high v (Z.lor v PTE_COW) Hb) as [E Hb'];
    [apply Z.lor_nonneg; split; [lia|done]|apply set_cow_high|].
  split; [|done]. split; [|done]. change PTE_V with (2 ^ 0) in *. by rewrite set_cow_flag.
Qed.

(** Sharing keeps the page and every permission but writing; a page that was
    writable becomes copy-on-write. *)
Lemma cow_share_spec v : leaf_ok v ->
  leaf_ok (cow_share v) /\ PTE2PA (cow_share v) = PTE2PA v /\ flag (cow_share v) PTE_W = false /\
  flag (cow_share v) PTE_U = flag v PTE_U /\ flag (cow_share v) PTE_R = flag v PTE_R /\
  flag (cow_share v) PTE_COW = flag v PTE_W || flag v PTE_COW.
Proof.
  intros Hok. unfold cow_share. destruct (flag v PTE_W) eqn:Ew; [|by split_and!].
  destruct (clear_w_ok v Hok) as [Hok1 E1]. destruct (set_cow_ok _ Hok1) as [Hok2 E2].
  split; [done|]. split; [congruence|].
  assert (forall k, 0 <= k -> flag (Z.lor (Z.land v (Z.lnot PTE_W)) PTE_COW) (2 ^ k) =
    if decide (k = 8) then true else if decide (k = 2) then false else flag v (2 ^ k)) as H.
  { intros k Hk. by rewrite set_cow_flag, clear_w_flag. }
  split_and!; [exact (H 2 ltac:(done))|exact (H 4 ltac:(done))|exact (H 1 ltac:(done))|exact (H 8 ltac:(done))].
Qed.

(** The entry [mappages] builds from the flags of an entry is that entry. *)
Lemma share_entry v : leaf_ok v ->
  Z.lor (PA2PTE (PTE2PA v)) (Z.lor (PTE_FLAGS v) PTE_V) = v.
Proof.
  intros [Hf Hb]. rewrite Z.lor_assoc, <- (pte_split v Hb).
  apply Z.bits_inj'. intros n Hn. rewrite Z.lor_spec. change PTE_V with (2 ^ 0) in *.
  rewrite flag_testbit in Hf by done. rewrite Z.pow2_bits_eqb by done.
  destruct (Z.eqb_spec 0 n) as [<-|]; [by rewrite Hf|apply orb_false_r].
Qed.

(** Rewriting the entry of a mapped page without changing the page. *)
Lemma vm_retag `{!LinkerOk} s free t ts ex va v x : vm_inv s free (t :: ts) ex -> uva va ->
  leaves t !! vpn va = Some v -> leaf_ok x -> PTE2PA x = PTE2PA v -> flag x PTE_W = false ->
  let s' := set_mem (fun m => st64 m (leaf_addr t va) x) s in
  vm_inv s' free (put_leaf va x t :: ts) ex /\
  agree (data_page free (t :: ts)) (mem s) (mem s') /\
  leaves (put_leaf va x t) = <[vpn va := x]> (leaves t) /\
  ld64 (mem s') (leaf_addr t va) = x.
Proof.
  intros Hv Hva Ev Hok E Hw s'. pose proof (vm_tree_ok _ _ _ _ _ Hv) as Ht.
  pose proof (mapped_leaf_addr _ _ _ _ _ Ht Ev) as Ha.
  destruct (vm_leaf _ _ _ _ Hv t _ _ ltac:(list_mem) Ev (uva_vpn va Hva)) as (Hp & Hr & Hd).
  pose proof (pte_nonzero _ (proj1 Hok)) as Hnz. split_and!.
  - eapply vm_inv_ex; [|apply vm_store_leaf; [exact Hv|done|]].
    + intros q _. cbv beta. rewrite Hnz, Ev, !slot_hits_new by (by apply uva_vpn). rewrite E. lia.
    + right. split; rewrite ?E; (done || by rewrite Hw).
  - destruct (store_leaf s free t va x Ht Ha (or_intror Hok)) as [_ HA].
    eapply agree_weaken; [|exact HA]. intros q [_ Hq]. apply Hq. list_mem.
  - unfold put_leaf. simpl. by rewrite Hnz.
  - apply ld64_st64_eq. destruct Hok. lia.
Qed.

Definition ex_small (ex : Z -> Z) : Prop := forall q, 0 <= ex q <= 2 ^ 30.

Lemma ex_small_nonneg ex : ex_small ex -> ex_nonneg ex.
Proof. intros H q. apply H. Qed.

(** [inc_refcnt] pays for a mapping that was just added. *)
Lemma vm_inc_refcnt `{!LinkerOk} s free ts ex p c : vm_inv s free ts (bump ex p (-1)) -> ex_small ex ->
  valid_page p -> data_page free ts p -> 0 < ref s p -> LKmem ∉ held c ->
  (forall t w pte, t ∈ ts -> leaves t !! w = Some pte -> 0 <= w < UVPN ->
     PTE2PA pte = p -> flag pte PTE_W = false) ->
  exists s', inc_refcnt p c s = Ok tt c s' /\ vm_inv s' free ts ex /\ mem s' = mem s.
Proof.
  intros Hv Hex Hp [_ Hd] Hr Hl Hw. pose proof (vm_ref _ _ _ _ Hv p Hp Hd) as E.
  pose proof (total_bound s free ts _ p Hv) as Hb. pose proof (Hex p) as Hxp.
  unfold bump in E. rewrite decide_True in E by done.
  exists (set_refcnt (p / PGSIZE) (ref s p + 1) s). split; [|split; [|done]].
  - unfold inc_refcnt. munfold. rewrite acquire_ok by done. cbn -[ref]. rewrite i32_id by lia.
    by rewrite release_ok.
  - eapply vm_inv_ex; [|apply vm_set_ref; [exact Hv|done|done|done|lia|]].
    + intros q _. cbv beta. unfold bump. case_decide; lia.
    + intros t w pte Ht Hlf Hu Ep Hwf. by rewrite (Hw t w pte Ht Hlf Hu Ep) in Hwf.
Qed.

(** The first half of an iteration of [uvmcopy]: the parent's entry. *)
Definition share_flags (pte v : Z) : M pmem Z :=
  if flag v PTE_W then
    store64 pte (Z.land v (Z.lnot PTE_W));;
    v1 ← load64 pte;
    store64 pte (Z.lor v1 PTE_COW);;
    v2 ← load64 pte;
    mret (PTE_FLAGS v2)
  else mret (PTE_FLAGS v).

Lemma share_flags_run `{!LinkerOk} s free t ts ex va v c : vm_inv s free (t :: ts) ex -> uva va ->
  leaves t !! vpn va = Some v ->
  exists s1 t1, share_flags (leaf_addr t va) v c s = Ok (PTE_FLAGS (cow_share v)) c s1 /\
    vm_inv s1 free (t1 :: ts) ex /\ agree (data_page free (t :: ts)) (mem s) (mem s1) /\
    root t1 = root t /\ pt_pages t1 = pt_pages t /\
    leaves t1 = <[vpn va := cow_share v]> (leaves t).
Proof.
  intros Hv Hva Ev. assert (leaf_ok v) as Hok.
  { eapply rep_leaf_ok; [|exact Ev]. apply (vm_rep _ _ _ _ Hv). list_mem. }
  unfold share_flags, cow_share. destruct (flag v PTE_W) eqn:Ew.
  2: { exists s, t. split_and!; [done..|]. by rewrite insert_id. }
  set (v1 := Z.land v (Z.lnot PTE_W)). destruct (clear_w_ok v Hok) as [Hok1 E1]. fold v1 in Hok1, E1.
  assert (flag v1 PTE_W = false) as Hw1 by exact (clear_w_flag v 2 ltac:(done)).
  destruct (vm_retag s free t ts ex va v v1 Hv Hva Ev Hok1 E1 Hw1) as (Hv1 & HA1 & Hl1 & Hld1).
  set (s1 := set_mem (fun m => st64 m (leaf_addr t va) v1) s) in *. set (t1 := put_leaf va v1 t) in *.
  set (v2 := Z.lor v1 PTE_COW). destruct (set_cow_ok v1 Hok1) as [Hok2 E2]. fold v2 in Hok2, E2.
  assert (flag v2 PTE_W = false) as Hw2.
  { transitivity (flag v1 PTE_W); [exact (set_cow_flag v1 2 ltac:(done))|done]. }
  assert (leaves t1 !! vpn va = Some v1) as Ev1 by (by rewrite Hl1, lookup_insert_eq).
  destruct (vm_retag s1 free t1 ts ex va v1 v2 Hv1 Hva Ev1 Hok2 E2 Hw2) as (Hv2 & HA2 & Hl2 & Hld2).
  set (s2 := set_mem (fun m => st64 m (leaf_addr t1 va) v2) s1) in *. set (t2 := put_leaf va v2 t1) in *.
  change (leaf_addr t1 va) with (leaf_addr t va) in *. exists s2, t2. split_and!; [|done| |done..|].
  - rewrite (bind_ok _ _ c s tt c s1) by done. rewrite (bind_ok _ _ c s1 v1 c s1).
    2: { unfold load64, gets. by rewrite Hld1. }
    rewrite (bind_ok _ _ c s1 tt c s2) by done. rewrite (bind_ok _ _ c s2 v2 c s2); [done|].
    unfold load64, gets. by rewrite Hld2.
  - eapply agree_trans; [exact HA1|]. eapply agree_weaken; [|exact HA2].
    intros q Hq. by apply store_data_page.
  - rewrite Hl2, Hl1. apply insert_insert_eq.
Qed.

Lemma data_page_perm free ts ts' q : ts ≡ₚ ts' -> data_page free ts q -> data_page free ts' q.
Proof. intros HP [Hf Hd]. split; [done|]. intros t Ht. apply Hd. by rewrite HP. Qed.

Lemma agree_perm free ts ts' m m' : ts ≡ₚ ts' ->
  agree (data_page free ts) m m' -> agree (data_page free ts') m m'.
Proof. intros HP. apply agree_weaken. intros q. by apply data_page_perm. Qed.

(** No entry for a page is writable once the page is shared. *)
Lemma shared_not_w s free ts ex p : vm_inv s free ts ex -> valid_page p ->
  (exists t w pte, t ∈ ts /\ leaves t !! w = Some pte /\ 0 <= w < UVPN /\ PTE2PA pte = p /\
     flag pte PTE_W = false) -> 0 <= ex p ->
  forall t w pte, t ∈ ts -> leaves t !! w = Some pte -> 0 <= w < UVPN ->
    PTE2PA pte = p -> flag pte PTE_W = false.
Proof.
  intros Hv Hp (t0 & w0 & x0 & Ht0 & Hl0 & Hu0 & E0 & Hf0) Hex t w pte Ht Hl Hu E.
  destruct (flag pte PTE_W) eqn:Hw; [|done]. exfalso.
  pose proof (vm_w _ _ _ _ Hv t w pte Ht Hl Hu Hw) as Hr. rewrite E in Hr.
  destruct (vm_leaf _ _ _ _ Hv t w pte Ht Hl Hu) as (_ & _ & Hd). rewrite E in Hd.
  pose proof (vm_ref _ _ _ _ Hv p Hp Hd) as Hrr.
  assert (t <> t0 \/ w <> w0) as Hne.
  { destruct (decide (w = w0)) as [->|]; [|by right]. left. intros ->. congruence. }
  pose proof (total_two p ts t w pte t0 w0 x0 Ht Ht0 Hl Hl0 (conj Hu E) (conj Hu0 E0) Hne). lia.
Qed.

(** One iteration of [uvmcopy] on a mapped page, with what follows it. *)
Lemma share_page `{!LinkerOk} {A} s free t u ts ex va v c (K1 K2 : M pmem A) :
  vm_inv s free (t :: u :: ts) ex -> ex_small ex -> va mod PGSIZE = 0 -> uva va ->
  leaves t !! vpn va = Some v -> leaves u !! vpn va = None -> LKmem ∉ held c ->
  let prog := (flags ← share_flags (leaf_addr t va) v;
    r ← mappages (root u) va PGSIZE (PTE2PA v) flags;
    if negb (r =? 0) then K2 else inc_refcnt (PTE2PA v);; K1) in
  exists s' free' t' u', vm_inv s' free' (t' :: u' :: ts) ex /\
    root t' = root t /\ root u' = root u /\
    agree (data_page free (t :: u :: ts)) (mem s) (mem s') /\
    (forall q, data_page free (t :: u :: ts) q -> data_page free' (t' :: u' :: ts) q) /\
    leaves t' = <[vpn va := cow_share v]> (leaves t) /\
    ((prog c s = K2 c s' /\ leaves u' = leaves u) \/
     (prog c s = K1 c s' /\ leaves u' = <[vpn va := cow_share v]> (leaves u))).
Proof.
  intros Hv Hex Hal Hva Ev Eu Hl prog.
  destruct (share_flags_run s free t (u :: ts) ex va v c Hv Hva Ev) as (s1 & t1 & Hr1 & Hv1 & HA1 & Hrt & Hpg & Hlv1).
  assert (leaf_ok v) as Hok by (eapply rep_leaf_ok; [|exact Ev]; apply (vm_rep _ _ _ _ Hv); list_mem).
  destruct (cow_share_spec v Hok) as (Hoks & Es & Hws & _).
  assert (leaves t1 !! vpn va = Some (cow_share v)) as Ev1 by (by rewrite Hlv1, lookup_insert_eq).
  assert (forall q, data_page free (t :: u :: ts) q -> data_page free (t1 :: u :: ts) q) as HD1.
  { intros q [Hf Hd]. split; [done|]. intros t2 [->|Ht2]%elem_of_cons; [rewrite Hpg|]; apply Hd; list_mem. }
  destruct (vm_leaf _ _ _ _ Hv1 t1 _ _ ltac:(list_mem) Ev1 (uva_vpn va Hva)) as (Hp & Hrf & _).
  pose proof (leaf_data_page _ _ _ _ t1 _ _ Hv1 ltac:(list_mem) Ev1 (uva_vpn va Hva)) as Hpd.
  rewrite Es in Hp, Hrf, Hpd. set (p := PTE2PA v) in *.
  assert (t1 :: u :: ts ≡ₚ u :: t1 :: ts) as HP by constructor.
  pose proof (shared_not_w s1 free (t1 :: u :: ts) ex p Hv1 Hp) as Hnw.
  destruct (vm_mappages s1 free u (t1 :: ts) ex va p (PTE_FLAGS (cow_share v)) c)
    as (r & s2 & f2 & u2 & Hr2 & Hru & _ & HA2 & HD2 & Hres); try done.
  { by eapply vm_inv_perm. } { by eapply data_page_perm. } { apply PTE_FLAGS_bound. }
  { unfold PTE_FLAGS, flag. rewrite <- Z.land_assoc. change (Z.land 0x3FF PTE_W) with PTE_W.
    fold (flag (cow_share v) PTE_W). by rewrite Hws. }
  assert (prog c s = (if negb (r =? 0) then K2 else inc_refcnt p;; K1) c s2) as Hprog.
  { unfold prog. by rewrite (bind_ok _ _ _ _ _ _ _ Hr1), (bind_ok _ _ _ _ _ _ _ Hr2). }
  assert (u2 :: t1 :: ts ≡ₚ t1 :: u2 :: ts) as HP' by constructor.
  assert (agree (data_page free (t :: u :: ts)) (mem s) (mem s2)) as HA.
  { eapply agree_trans; [exact HA1|]. eapply agree_weaken; [|exact HA2].
    intros q Hq. by eapply data_page_perm; [|apply HD1]. }
  assert (forall q, data_page free (t :: u :: ts) q -> data_page f2 (t1 :: u2 :: ts) q) as HD.
  { intros q Hq. eapply data_page_perm; [exact HP'|]. eapply HD2, data_page_perm; [exact HP|by apply HD1]. }
  destruct Hres as [(-> & [-> _] & Hlv2 & Hv2)|(-> & _ & Hlv2 & Hv2)].
  { exists s2, [], t1, u2. split; [by eapply vm_inv_perm|]. split_and!; try done. left. done. }
  assert (PTE2PA (cow_share v) = p) as Es' by done.
  rewrite <- Es', (share_entry _ Hoks) in Hlv2.
  apply (vm_inv_perm _ _ _ _ _ HP') in Hv2.
  destruct (vm_inc_refcnt s2 f2 (t1 :: u2 :: ts) ex p c) as (s3 & Hr3 & Hv3 & Hm3); try done.
  - by eapply HD; eapply leaf_data_page; [exact Hv|list_mem|done|by apply uva_vpn].
  - rewrite <- Es'. apply (vm_leaf _ _ _ _ Hv2 t1 (vpn va)); [list_mem|done|by apply uva_vpn].
  - intros t2 w pte Ht2 Hlf Hu Ep.
    assert (forall t0 w pte, t0 ∈ t1 :: u :: ts -> leaves t0 !! w = Some pte -> 0 <= w < UVPN ->
      PTE2PA pte = p -> flag pte PTE_W = false) as Hnw'.
    { apply Hnw; [|apply Hex]. exists t1, (vpn va), (cow_share v). split_and!; try done; [list_mem|by apply uva_vpn..]. }
    apply elem_of_cons in Ht2 as [->|[->|Ht2]%elem_of_cons].
    + apply (Hnw' t1 w pte); [list_mem|done..].
    + rewrite Hlv2 in Hlf. destruct (decide (vpn va = w)) as [<-|Hne].
      * rewrite lookup_insert_eq in Hlf. by injection Hlf as <-.
      * rewrite lookup_insert_ne in Hlf by done. apply (Hnw' u w pte); [list_mem|done..].
    + apply (Hnw' t2 w pte); [list_mem|done..].
  - exists s3, f2, t1, u2. rewrite Hm3. split_and!; try done. right. split; [|done].
    rewrite Hprog. change (negb (0 =? 0)) with false. cbn iota. by rewrite (bind_ok _ _ _ _ _ _ _ Hr3).
Qed.

(** ** uvmcopy *)

(** What a copy leaves alone: the other address spaces, the kernel's pages,
    and what the parent sees. *)
Record frame2 (ex : Z -> Z) (ts : list ptree) (s : pmem) (free : list Z) (t u : ptree)
    (s' : pmem) (free' : list Z) (t' u' : ptree) : Prop := {
  f2_root_t : root t' = root t;
  f2_root_u : root u' = root u;
  f2_mem : agree (kheld free (t :: u :: ts) ex) (mem s) (mem s');
  f2_held : forall q, kheld free (t :: u :: ts) ex q -> kheld free' (t' :: u' :: ts) ex q;
  f2_others : forall t2 va, t2 ∈ ts -> uva va -> ubyte (mem s') t2 va = ubyte (mem s) t2 va;
  f2_parent : forall va, uva va -> ubyte (mem s') t' va = ubyte (mem s) t va;
}.

Lemma frame2_refl ex ts s free t u : frame2 ex ts s free t u s free t u.
Proof. by split. Qed.

Lemma frame2_trans ex ts s1 f1 t1 u1 s2 f2 t2 u2 s3 f3 t3 u3 :
  frame2 ex ts s1 f1 t1 u1 s2 f2 t2 u2 -> frame2 ex ts s2 f2 t2 u2 s3 f3 t3 u3 ->
  frame2 ex ts s1 f1 t1 u1 s3 f3 t3 u3.
Proof.
  intros [T1 U1 M1 H1 O1 P1] [T2 U2 M2 H2 O2 P2]. split; [congruence|congruence| |auto| |].
  - eapply agree_trans; [exact M1|]. eapply agree_weaken; [|exact M2]. auto.
  - intros. rewrite O2, O1; done.
  - intros. rewrite P2, P1; done.
Qed.

(** An operation on the child alone. *)
Lemma frame2_child ex ts s free t u s' free' u' :
  frame ex (t :: ts) s free u s' free' u' -> frame2 ex ts s free t u s' free' t u'.
Proof.
  assert (forall f q x, kheld f (t :: x :: ts) ex q <-> kheld f (x :: t :: ts) ex q) as HP.
  { intros f q x. assert (t :: x :: ts ≡ₚ x :: t :: ts) as HP by constructor. unfold kheld.
    split; intros (? & ? & ?); (split_and!; [eapply data_page_perm|eapply unmapped_perm|]); done. }
  intros [R _ _ M H O]. split; [done|done| | | |].
  - eapply agree_weaken; [|exact M]. intros q. apply HP.
  - intros q Hq. by apply HP, H, HP.
  - intros t2 va Ht2. apply O. list_mem.
  - intros va. apply O. list_mem.
Qed.

Lemma ubyte_share m t t' va va2 v : leaf_ok v -> leaves t !! vpn va = Some v ->
  leaves t' = <[vpn va := cow_share v]> (leaves t) -> ubyte m t' va2 = ubyte m t va2.
Proof.
  intros Hok Ev El. unfold ubyte. rewrite El. destruct (decide (vpn va2 = vpn va)) as [E|E].
  - rewrite E, lookup_insert_eq, Ev. simpl. destruct (cow_share_spec v Hok) as (_ & -> & _). done.
  - by rewrite lookup_insert_ne.
Qed.

(** How [uvmcopy] ends, from page [i] on. *)
Definition copy_result (i sz : Z) (t u t' u' : ptree) (r : Z) : Prop :=
  (r = 0 /\
   (forall v, leaves t' !! v = if decide (vpn i <= v < vpn (PGROUNDUP sz))
      then cow_share <$> leaves t !! v else leaves t !! v) /\
   (forall v, leaves u' !! v = if decide (vpn i <= v < vpn (PGROUNDUP sz))
      then cow_share <$> leaves t !! v else leaves u !! v)) \/
  (r = -1 /\
   (forall v, 0 <= v < UVPN -> leaves u' !! v = None) /\
   (forall v, ~ 0 <= v < UVPN -> leaves u' !! v = leaves u !! v) /\
   (forall v, leaves t' !! v = leaves t !! v \/ leaves t' !! v = cow_share <$> leaves t !! v)).

Lemma cow_share_idem v : leaf_ok v -> cow_share (cow_share v) = cow_share v.
Proof. intros Hok. destruct (cow_share_spec v Hok) as (_ & _ & Hw & _). unfold cow_share at 1. by rewrite Hw. Qed.

(** One shared page and then the rest. *)
Lemma copy_result_step i sz t u t1 u1 t' u' r v : i mod PGSIZE = 0 -> i < PGROUNDUP sz ->
  PGROUNDUP sz mod PGSIZE = 0 -> leaf_ok v -> uva i ->
  leaves t !! vpn i = Some v ->
  leaves t1 = <[vpn i := cow_share v]> (leaves t) ->
  leaves u1 = <[vpn i := cow_share v]> (leaves u) ->
  copy_result (i + PGSIZE) sz t1 u1 t' u' r -> copy_result i sz t u t' u' r.
Proof.
  intros Hi Hlt Hs Hok Hui Ev Et Eu Hres.
  assert (vpn i < vpn (PGROUNDUP sz)) by (unfold vpn; consts; Z.div_mod_to_equations; lia).
  pose proof (uva_vpn i Hui) as Hb. destruct Hres as [(-> & Ht & Hu)|(-> & H1 & H2 & H3)]; [left|right].
  - split; [done|]. split; intros w; [specialize (Ht w)|specialize (Hu w)];
      rewrite vpn_next, ?Et, ?Eu in *; destruct (decide (w = vpn i)) as [->|Hne].
    + rewrite decide_False, lookup_insert_eq in Ht by lia. rewrite decide_True by lia. by rewrite Ev.
    + rewrite !lookup_insert_ne in Ht by done. rewrite Ht. repeat case_decide; (done || lia).
    + rewrite decide_False, lookup_insert_eq in Hu by lia. rewrite decide_True by lia. by rewrite Ev.
    + rewrite !lookup_insert_ne in Hu by done. rewrite Hu. repeat case_decide; (done || lia).
  - split; [done|]. split; [done|]. split.
    + intros w Hw. rewrite H2 by done. rewrite Eu, lookup_insert_ne; [done|lia].
    + intros w. specialize (H3 w). rewrite Et in H3. destruct (decide (w = vpn i)) as [->|Hne].
      * right. rewrite lookup_insert_eq in H3. rewrite Ev. simpl in *.
        rewrite cow_share_idem in H3 by done. by destruct H3.
      * by rewrite lookup_insert_ne in H3 by done.
Qed.

(** A page the parent does not have. *)
Lemma copy_result_skip i sz t u t' u' r : i mod PGSIZE = 0 -> i < PGROUNDUP sz ->
  PGROUNDUP sz mod PGSIZE = 0 -> leaves t !! vpn i = None -> leaves u !! vpn i = None ->
  copy_result (i + PGSIZE) sz t u t' u' r -> copy_result i sz t u t' u' r.
Proof.
  intros Hi Hlt Hs Et Eu Hres.
  assert (vpn i < vpn (PGROUNDUP sz)) by (unfold vpn; consts; Z.div_mod_to_equations; lia).
  destruct Hres as [(-> & Ht & Hu)|Hres]; [left|by right].
  split; [done|]. split; intros w; [rewrite Ht|rewrite Hu]; rewrite vpn_next;
    (destruct (decide (w = vpn i)) as [->|Hne]; [rewrite Et, ?Eu|]); repeat case_decide; (done || lia).
Qed.

Lemma frame2_share ex ts s free t u s' free' t' u' va v :
  vm_inv s free (t :: u :: ts) ex -> root t' = root t -> root u' = root u ->
  agree (data_page free (t :: u :: ts)) (mem s) (mem s') ->
  (forall q, data_page free (t :: u :: ts) q -> data_page free' (t' :: u' :: ts) q) ->
  leaves t !! vpn va = Some v -> leaves t' = <[vpn va := cow_share v]> (leaves t) ->
  leaves u' = leaves u \/ leaves u' = <[vpn va := cow_share v]> (leaves u) ->
  frame2 ex ts s free t u s' free' t' u'.
Proof.
  intros Hv Ht Hu HA HD Ev El Hul. assert (leaf_ok v) as Hok.
  { eapply rep_leaf_ok; [|exact Ev]. apply (vm_rep _ _ _ _ Hv). list_mem. }
  destruct (cow_share_spec v Hok) as (_ & Es & _). split; [done|done| | | |].
  - eapply agree_weaken; [|exact HA]. by intros q [? _].
  - intros q (Hq & Hu2 & ?). split_and!; [by apply HD| |done].
    intros t2 w x [->|[->|Ht2]%elem_of_cons]%elem_of_cons Hl Hw.
    + rewrite El, lookup_insert in Hl. case_decide as E; [injection Hl as <-; rewrite Es|];
        apply (Hu2 t) with (v := w); try done; try list_mem. by rewrite <- E.
    + destruct Hul as [Hul|Hul]; rewrite Hul in Hl.
      * apply (Hu2 u) with (v := w); try done; list_mem.
      * rewrite lookup_insert in Hl. case_decide as E; [injection Hl as <-; rewrite Es|].
        { apply (Hu2 t) with (v := w); try done; [list_mem|by rewrite <- E]. }
        apply (Hu2 u) with (v := w); try done; list_mem.
    + apply (Hu2 t2) with (v := w); try done; list_mem.
  - intros t2 va2 Ht2 Hva2. eapply ubyte_data; [exact Hv|list_mem|done|done].
  - intros va2 Hva2. rewrite (ubyte_share _ t t' va va2 v) by done.
    eapply ubyte_data; [exact Hv|list_mem|done|done].
Qed.

(** The failure path removes the part of the child that exists. *)
Lemma uvmcopy_undo `{!LinkerOk} s free t u ts ex i c :
  vm_inv s free (t :: u :: ts) ex -> ex_small ex -> LKmem ∉ held c ->
  i mod PGSIZE = 0 -> uva i -> (forall v, vpn i <= v < UVPN -> leaves u !! v = None) ->
  exists s' free' u', (uvmunmap (root u) 0 (i / PGSIZE) true;; mret (-1)) c s = Ok (-1) c s' /\
    frame2 ex ts s free t u s' free' t u' /\ vm_inv s' free' (t :: u' :: ts) ex /\
    (forall v, 0 <= v < UVPN -> leaves u' !! v = None) /\
    (forall v, ~ 0 <= v < UVPN -> leaves u' !! v = leaves u !! v).
Proof.
  intros Hv Hex Hl Hi Hu Hnone. assert (i / PGSIZE * PGSIZE = i) as Ei by (consts; Z.div_mod_to_equations; lia).
  assert (0 <= i / PGSIZE) by (apply Z.div_pos; [apply Hu|done]). pose proof (uva_vpn i Hu) as Hb.
  destruct (uvmunmap_run s free u (t :: ts) ex 0 (i / PGSIZE) c) as
    (s' & free' & u' & Hrun & Hfr & Hv' & Hlv & _); try done.
  { eapply vm_inv_perm; [|exact Hv]. constructor. } { by apply ex_small_nonneg. }
  { rewrite Ei. unfold uva in Hu. lia. }
  rewrite Z.add_0_l, Ei in Hlv. exists s', free', u'. rewrite (bind_ok _ _ _ _ _ _ _ Hrun).
  split; [done|]. split; [by apply frame2_child|].
  split; [eapply vm_inv_perm; [|exact Hv']; constructor|]. change (vpn 0) with 0 in *.
  split; intros v Hvv; rewrite Hlv; unfold unmapped_leaves; rewrite map_lookup_filter.
  - destruct (decide (v < vpn i)).
    + destruct (leaves u !! v); [|done]. simpl. rewrite option_guard_False; [done|].
      change (vpn 0) with 0. lia.
    + rewrite Hnone by lia. done.
  - destruct (leaves u !! v); [|done]. simpl. rewrite option_guard_True; [done|].
    change (vpn 0) with 0. lia.
Qed.

Lemma uvmcopy_loop_run `{!LinkerOk} n : forall s free t u ts ex i sz c,
  vm_inv s free (t :: u :: ts) ex -> ex_small ex -> LKmem ∉ held c ->
  i mod PGSIZE = 0 -> 0 <= i -> 0 <= sz <= TRAPFRAME -> i <= PGROUNDUP sz ->
  sz - i <= Z.of_nat n * PGSIZE -> (forall v, vpn i <= v < UVPN -> leaves u !! v = None) ->
  exists r s' free' t' u', uvmcopy_loop n (root t) (root u) i sz c s = Ok r c s' /\
    frame2 ex ts s free t u s' free' t' u' /\ vm_inv s' free' (t' :: u' :: ts) ex /\
    copy_result i sz t u t' u' r.
Proof.
  induction n as [|n IH]; intros s free t u ts ex i sz c Hv Hex Hl Hi Hi0 Hsz His Hn Hnone;
    destruct (roundup_facts sz Hsz) as (An & Bn & Tn); cbn [uvmcopy_loop].
  all: destruct (Z.ltb_spec i sz) as [Hlt|Hge]; [|
    exists 0, s, free, t, u; split_and!; [done|apply frame2_refl|done|]; left;
    replace (PGROUNDUP sz) with i by (consts; Z.div_mod_to_equations; lia);
    split_and!; [done|intros v; rewrite decide_False by lia; done..]].
  { lia. }
  assert (uva i) as Hu by (unfold uva; lia). pose proof (uva_vpn i Hu) as Hb.
  assert (0 <= i < MAXVA) as Hm by (unfold uva in Hu; klia).
  assert (i + PGSIZE <= PGROUNDUP sz) as Hle by (consts; Z.div_mod_to_equations; lia).
  pose proof (vm_tree_ok _ _ _ _ _ Hv) as Ht. assert (0 < PGSIZE) as HPG by done.
  rewrite (bind_ok _ _ _ _ _ _ _ (walk_lookup s t i c (tok_rep _ _ _ Ht) Hm)). rewrite u64_id by klia.
  assert ((i + PGSIZE) mod PGSIZE = 0) as Hi' by (rewrite Zplus_mod, Hi; done).
  assert (forall s1 f1 t1 u1, vm_inv s1 f1 (t1 :: u1 :: ts) ex ->
    (forall v, vpn (i + PGSIZE) <= v < UVPN -> leaves u1 !! v = None) ->
    exists r s' free' t' u', uvmcopy_loop n (root t1) (root u1) (i + PGSIZE) sz c s1 = Ok r c s' /\
    frame2 ex ts s1 f1 t1 u1 s' free' t' u' /\ vm_inv s' free' (t' :: u' :: ts) ex /\
    copy_result (i + PGSIZE) sz t1 u1 t' u' r) as Hnext.
  { intros s1 f1 t1 u1 Hv1 Hn1. apply IH; try done; lia. }
  destruct (leaves t !! vpn i) as [v|] eqn:Ev.
  2: { destruct (Hnext s free t u Hv) as (r & s' & f' & t' & u' & Hrun & Hfr & Hv' & Hres).
       { intros v Hvv. apply Hnone. rewrite vpn_next in Hvv. lia. }
       exists r, s', f', t', u'. split; [|split_and!; try done].
       - destruct (Z.eqb_spec (leaf_addr t i) 0) as [E|E]; [done|].
         rewrite (bind_ok _ _ c s (ld64 (mem s) (leaf_addr t i)) c s) by done.
         by rewrite (leaf_addr_load _ _ _ (tok_rep _ _ _ Ht) E), (leaf_flag _ _ _ _ Ht E), Ev.
       - apply copy_result_skip; try done; [lia|]. apply Hnone. lia. }
  pose proof (mapped_leaf_addr _ _ _ _ _ Ht Ev) as Ha. assert (leaf_ok v) as Hok by (by apply (rep_leaf_ok _ _ (tok_rep _ _ _ Ht) _ _ Ev)).
  destruct (Z.eqb_spec (leaf_addr t i) 0) as [?|_]; [done|].
  rewrite (bind_ok _ _ c s (ld64 (mem s) (leaf_addr t i)) c s) by done.
  rewrite (leaf_addr_load _ _ _ (tok_rep _ _ _ Ht) Ha), (leaf_flag _ _ _ _ Ht Ha), Ev.
  unfold leaf. rewrite Ev. cbn [default bool_decide negb].
  destruct (share_page s free t u ts ex i v c (uvmcopy_loop n (root t) (root u) (i + PGSIZE) sz)
    (uvmunmap (root u) 0 (i / PGSIZE) true;; mret (-1)) Hv Hex Hi Hu Ev)
    as (s1 & f1 & t1 & u1 & Hv1 & Hrt & Hru & HA & HD & Elt & Hres); [apply Hnone; lia|done|].
  pose proof (frame2_share _ _ _ _ _ _ _ _ _ _ _ _ Hv Hrt Hru HA HD Ev Elt ltac:(naive_solver)) as Hfr1.
  destruct Hres as [[Hprog Elu]|[Hprog Elu]].
  - destruct (uvmcopy_undo s1 f1 t1 u1 ts ex i c Hv1 Hex Hl Hi Hu) as (s2 & f2 & u2 & Hr2 & Hfr2 & Hv2 & H1 & H2).
    { intros w Hw. rewrite Elu. by apply Hnone. }
    exists (-1), s2, f2, t1, u2. split; [rewrite Hru in Hr2; exact (eq_trans Hprog Hr2)|].
    split; [by eapply frame2_trans|]. split; [done|]. right. rewrite Elu in H2. split_and!; try done.
    intros w. rewrite Elt. destruct (decide (w = vpn i)) as [->|]; [right; by rewrite lookup_insert_eq, Ev|].
    left. by rewrite lookup_insert_ne.
  - destruct (Hnext s1 f1 t1 u1 Hv1) as (r & s2 & f2 & t2 & u2 & Hr2 & Hfr2 & Hv2 & Hres2).
    { intros w Hw. rewrite vpn_next in Hw. rewrite Elu, lookup_insert_ne by lia. apply Hnone. lia. }
    exists r, s2, f2, t2, u2. rewrite Hrt, Hru in Hr2. split; [exact (eq_trans Hprog Hr2)|].
    split; [by eapply frame2_trans|]. split; [done|].
    apply (copy_result_step i sz t u t1 u1 t2 u2 r v); try done. lia.
Qed.

Lemma uvmcopy_run `{!LinkerOk} s free t u ts ex sz c :
  vm_inv s free (t :: u :: ts) ex -> ex_small ex -> LKmem ∉ held c -> 0 <= sz <= TRAPFRAME ->
  (forall v, 0 <= v < UVPN -> leaves u !! v = None) ->
  exists r s' free' t' u', uvmcopy (root t) (root u) sz c s = Ok r c s' /\
    frame2 ex ts s free t u s' free' t' u' /\ vm_inv s' free' (t' :: u' :: ts) ex /\
    copy_result 0 sz t u t' u' r.
Proof.
  intros Hv Hex Hl Hsz Hu. destruct (roundup_facts sz Hsz) as (? & ? & ?).
  unfold uvmcopy. eapply (uvmcopy_loop_run _ s free t u ts ex 0 sz c Hv Hex Hl); [done|lia|lia|lia| |exact Hu].
  assert (0 <= sz / PGSIZE) by (apply Z.div_pos; [lia|done]).
  rewrite Z2Nat.id by lia. consts. Z.div_mod_to_equations. lia.
Qed.
End user.
