(* ===== verification/VmCopy.v ===== *)
(** * Copying between the kernel and user memory

    [copyout], [copyin] and [copyinstr] of kernel/vm.c. They resolve lazy and
    copy-on-write pages on the way; the lemmas say exactly which user bytes
    change and that no other address space can tell. *)

From S2P Require Import Prelude Riscv Mem Kalloc Vm VmTree VmInv VmOps VmUser.

Section copy.
Context `{LK : Linker}.

(** ** Writing through a writable mapping *)

(** A writable page has exactly one mapping and no other holder. *)
Lemma w_page_private s free t ts ex va v : vm_inv s free (t :: ts) ex -> ex_nonneg ex -> uva va ->
  leaves t !! vpn va = Some v -> flag v PTE_W = true ->
  total (PTE2PA v) (t :: ts) = 1 /\ ex (PTE2PA v) = 0.
Proof.
  intros Hv Hex Hva Ev Hw. pose proof (uva_vpn va Hva) as Hu.
  pose proof (vm_w _ _ _ _ Hv t _ _ ltac:(list_mem) Ev Hu Hw) as Hr.
  destruct (vm_leaf _ _ _ _ Hv t _ _ ltac:(list_mem) Ev Hu) as (Hp & _ & Hd).
  pose proof (vm_ref _ _ _ _ Hv _ Hp Hd). pose proof (Hex (PTE2PA v)).
  pose proof (total_mapped (PTE2PA v) (t :: ts) t (vpn va) v ltac:(list_mem) Ev (conj Hu eq_refl)). lia.
Qed.

Lemma memmove_page m p off src n : p mod PGSIZE = 0 -> 0 <= off -> 0 <= n -> off + n <= PGSIZE ->
  agree (.≠ p) m (memmove m (p + off) src n).
Proof.
  intros Hp Ho Hn Hb x Hx. rewrite ld8_memmove by done. rewrite decide_False; [done|].
  intros Hin. apply Hx, PGROUNDDOWN_unique; [done|lia].
Qed.

Lemma agree_unmapped_view s free ts ex p m' t va : vm_inv s free ts ex -> agree (.≠ p) (mem s) m' ->
  t ∈ ts -> uva va -> (forall v, leaves t !! vpn va = Some v -> PTE2PA v <> p) ->
  ubyte m' t va = ubyte (mem s) t va.
Proof. intros Hv HA Ht Hva Hne. by eapply ubyte_agree. Qed.

(** A change of the page of a writable user address changes what its own
    address space sees there and nothing else. *)
Lemma vm_write_page `{!LinkerOk} s free t ts ex va v s' : vm_inv s free (t :: ts) ex -> ex_nonneg ex ->
  uva va -> leaves t !! vpn va = Some v -> flag v PTE_W = true ->
  freelist s' = freelist s -> refcnt s' = refcnt s -> agree (.≠ PTE2PA v) (mem s) (mem s') ->
  vm_inv s' free (t :: ts) ex /\ frame ex ts s free t s' free t /\
  forall va2, uva va2 -> vpn va2 <> vpn va -> ubyte (mem s') t va2 = ubyte (mem s) t va2.
Proof.
  intros Hv Hex Hva Ev Hw Hfl Hrc HA. pose proof (uva_vpn va Hva) as Hu.
  destruct (w_page_private _ _ _ _ _ _ _ Hv Hex Hva Ev Hw) as [Htot He].
  destruct (vm_leaf _ _ _ _ Hv t _ _ ltac:(list_mem) Ev Hu) as (Hp & _ & Hd).
  pose proof (leaf_data_page _ _ _ _ _ _ _ Hv ltac:(list_mem) Ev Hu) as [Hnf _].
  set (p := PTE2PA v) in *. split; [|split].
  - eapply vm_mem; [exact Hv|done|done|]. eapply agree_weaken; [|exact HA].
    intros q [Hq|(t2 & Ht2 & Hq)] ->; [done|]. by apply (Hd t2).
  - split; [done|done|done| |done|].
    + eapply agree_weaken; [|exact HA]. intros q (_ & _ & Hq) ->. specialize (Hq Hp). lia.
    + intros t2 va2 Ht2 Hva2. eapply agree_unmapped_view; [exact Hv|exact HA|list_mem|done|].
      intros v2 E2 Ep. rewrite total_cons in Htot.
      pose proof (mapcount_one p (leaves t) _ _ Ev (conj Hu eq_refl)).
      pose proof (total_mapped p ts t2 _ _ Ht2 E2 (conj (uva_vpn va2 Hva2) Ep)). lia.
  - intros va2 Hva2 E. eapply agree_unmapped_view; [exact Hv|exact HA|list_mem|done|]. intros v2 E2 Ep.
    pose proof (total_two p (t :: ts) t _ _ t _ _ ltac:(list_mem) ltac:(list_mem) Ev E2 (conj Hu eq_refl)
      (conj (uva_vpn va2 Hva2) Ep) (or_intror (not_eq_sym E))). lia.
Qed.

Lemma vm_write `{!LinkerOk} s free t ts ex va v src n : vm_inv s free (t :: ts) ex -> ex_nonneg ex ->
  uva va -> leaves t !! vpn va = Some v -> flag v PTE_W = true ->
  0 <= n -> va mod PGSIZE + n <= PGSIZE ->
  let s' := set_mem (fun m => memmove m (PTE2PA v + va mod PGSIZE) src n) s in
  vm_inv s' free (t :: ts) ex /\ frame ex ts s free t s' free t /\
  forall va2, uva va2 -> ubyte (mem s') t va2 =
    if decide (in_range va (va + n) va2) then Some (ld8 (mem s) (src + (va2 - va))) else ubyte (mem s) t va2.
Proof.
  intros Hv Hex Hva Ev Hw Hn Hoff s'.
  destruct (vm_leaf _ _ _ _ Hv t _ _ ltac:(list_mem) Ev (uva_vpn va Hva)) as (Hp & _ & _).
  pose proof (valid_page_aligned _ Hp) as Ha. pose proof (Z.mod_pos_bound va PGSIZE ltac:(done)) as Hmb.
  destruct (vm_write_page s free t ts ex va v s' Hv Hex Hva Ev Hw) as (Hv' & Hfr & Hview); [done|done| |].
  { apply memmove_page; (done || lia). }
  split; [done|]. split; [done|]. intros va2 Hva2. destruct (decide (vpn va2 = vpn va)) as [E|E].
  - unfold ubyte. rewrite E, Ev. cbn [mbind option_bind]. unfold s'. cbn [mem set_mem].
    rewrite ld8_memmove by done. unfold in_range, vpn in *. consts.
    assert (va2 mod 4096 - va mod 4096 = va2 - va) as Eo by (Z.div_mod_to_equations; lia).
    replace (PTE2PA v + va2 mod 4096 - (PTE2PA v + va mod 4096)) with (va2 - va) by lia.
    repeat case_decide; try done; lia.
  - rewrite decide_False by (unfold in_range, vpn in *; consts; Z.div_mod_to_equations; lia). by apply Hview.
Qed.

(** ** Lazy pages *)

(** A view that differs from another only in lazily allocated pages, which
    read as zero. *)
Definition lazy_eq (o o' : option Z) : Prop := o' = o \/ (o = None /\ o' = Some 0).

Lemma lazy_eq_refl o : lazy_eq o o.
Proof. by left. Qed.

Lemma lazy_eq_trans o1 o2 o3 : lazy_eq o1 o2 -> lazy_eq o2 o3 -> lazy_eq o1 o3.
Proof. unfold lazy_eq. intros [->|[-> ->]] [->|[? ->]]; auto. Qed.

Definition lazy_view (m : gmap Z Z) (t : ptree) (m' : gmap Z Z) (t' : ptree) : Prop :=
  forall va, uva va -> lazy_eq (ubyte m t va) (ubyte m' t' va).

Lemma lazy_view_refl m t : lazy_view m t m t.
Proof. intros va _. apply lazy_eq_refl. Qed.

Lemma fault_lazy psz t t' va read m m' r : fault_result psz t t' va read m m' r -> lazy_view m t m' t'.
Proof.
  intros [(_ & _ & H)|(_ & _ & _ & pte & _ & _ & H)] va2 Hva2; rewrite H by done; [apply lazy_eq_refl|].
  unfold fault_view. case_decide as E; [|apply lazy_eq_refl]. right. split; [|done].
  destruct E as [E1 E2]. unfold ubyte. by rewrite E1, E2.
Qed.

(** New mappings appear only below the size of the address space. *)
Definition within (psz : Z) (t t' : ptree) : Prop :=
  forall v, leaves t !! v = None -> leaves t' !! v = None \/ v * PGSIZE < psz.

Lemma within_refl psz t : within psz t t.
Proof. intros v ->. by left. Qed.

Lemma within_trans psz t1 t2 t3 : within psz t1 t2 -> within psz t2 t3 -> within psz t1 t3.
Proof. intros H1 H2 v Hv. destruct (H1 v Hv) as [E|?]; [by apply H2|by right]. Qed.

Lemma fault_within psz t t' va read m m' r : fault_result psz t t' va read m m' r -> within psz t t'.
Proof.
  intros [(_ & E & _)|(_ & Hlt & _ & pte & E & _)] v Hv; rewrite E; [by left|].
  rewrite lookup_insert. case_decide as Ev; [right|by left]. subst v. unfold vpn. consts.
  Z.div_mod_to_equations. lia.
Qed.

Lemma fault_pte_w `{!LinkerOk} o read p pte : valid_page p -> fault_pte o read p pte ->
  PTE2PA pte = p /\ flag pte PTE_W = true /\ flag pte PTE_COW = false.
Proof.
  intros Hp Hf. pose proof (valid_page_phys p Hp) as Hph. destruct o as [v|]; simpl in Hf.
  - destruct Hf as (_ & _ & ->). unfold cow_pte. split; [apply pte_pack; [done|apply cow_flags_bound]|].
    rewrite !flag_pack by (done || apply cow_flags_bound).
    split; [exact (cow_flags_spec v 2 ltac:(done))|exact (cow_flags_spec v 8 ltac:(done))].
  - subst. split; [by apply pte_pack|]. by rewrite !flag_pack.
Qed.

(** The leaves above the user part of an address space (trampoline and
    trapframe) are not accessible to user code. *)
Definition kernel_leaves (t : ptree) : Prop :=
  forall v pte, UVPN <= v -> leaves t !! v = Some pte -> flag pte PTE_U = false.

Lemma leaf_addr_grows `{!LinkerOk} m t t' va : pt_rep m t -> leaf_addr t va <> 0 -> l0 t ⊆ l0 t' ->
  leaf_addr t' va = leaf_addr t va.
Proof.
  intros Hr Ha Hs. unfold leaf_addr in *. destruct (l0 t !! (vpn va / 512)) as [q|] eqn:E; [|done].
  by rewrite (lookup_weaken _ _ _ _ E Hs).
Qed.

Lemma load_leaf `{!LinkerOk} s free t va v c : tree_ok s free t -> leaves t !! vpn va = Some v ->
  load64 (leaf_addr t va) c s = Ok v c s.
Proof.
  intros Ht Ev. unfold load64, gets. rewrite leaf_addr_load; [|apply Ht|by eapply mapped_leaf_addr].
  unfold leaf. by rewrite Ev.
Qed.

(** ** copyout *)

(** The part of an iteration of [copyout] that finds the page to write. *)
Definition copyout_prep (psz pagetable va0 : Z) (K : Z -> M pmem Z) : M pmem Z :=
  pa0 ← walkaddr pagetable va0;
  pa0 ← (if pa0 =? 0 then vmfault psz pagetable va0 false else mret pa0);
  if pa0 =? 0 then mret (-1)
  else
    pte ← walk pagetable va0 false;
    v ← load64 pte;
    pa0 ← (if flag v PTE_COW then vmfault psz pagetable va0 false else mret pa0);
    if pa0 =? 0 then mret (-1)
    else
      v ← load64 pte;
      if negb (flag v PTE_W) then mret (-1)
      else K pa0.

(** How it ends: with an error, or with the page of a writable entry. *)
Definition prep_result (t' : ptree) (va0 : Z) (o : outcome pmem Z) (K : Z -> M pmem Z) (c : ctx) (s' : pmem) : Prop :=
  o = Ok (-1) c s' \/
  exists pte, leaves t' !! vpn va0 = Some pte /\ flag pte PTE_W = true /\ o = K (PTE2PA pte) c s'.

(** The rest of the iteration, once the page is known. *)
Lemma prep_tail `{!LinkerOk} s free t ts ex va0 v psz c K :
  vm_inv s free (t :: ts) ex -> ex_nonneg ex -> uva va0 -> psz <= TRAPFRAME -> LKmem ∉ held c ->
  leaves t !! vpn va0 = Some v ->
  let prog := (pte ← walk (root t) va0 false;
    x ← load64 pte;
    pa0 ← (if flag x PTE_COW then vmfault psz (root t) va0 false else mret (PTE2PA v));
    if pa0 =? 0 then mret (-1)
    else
      v ← load64 pte;
      if negb (flag v PTE_W) then mret (-1)
      else K pa0) in
  exists s' free' t', frame ex ts s free t s' free' t' /\ vm_inv s' free' (t' :: ts) ex /\
    lazy_view (mem s) t (mem s') t' /\ within psz t t' /\ prep_result t' va0 (prog c s) K c s'.
Proof.
  intros Hv Hex Hva Hsz Hl Ev prog. pose proof (vm_tree_ok _ _ _ _ _ Hv) as Ht.
  assert (0 <= va0 < MAXVA) as Hm by (unfold uva in Hva; klia).
  destruct (vm_leaf _ _ _ _ Hv t _ _ ltac:(list_mem) Ev (uva_vpn va0 Hva)) as (Hp & _ & _).
  pose proof (valid_page_pos _ Hp) as Hpos. unfold prog.
  rewrite (bind_ok _ _ _ _ _ _ _ (walk_lookup s t va0 c (tok_rep _ _ _ Ht) Hm)).
  rewrite (bind_ok _ _ _ _ _ _ _ (load_leaf s free t va0 v c Ht Ev)).
  destruct (flag v PTE_COW) eqn:Ec.
  - destruct (vmfault_run s free t ts ex psz va0 false c Hv Hex ltac:(lia) Hsz Hl)
      as (r & s' & free' & t' & Hrun & Hfr & Hv' & Hres & _).
    exists s', free', t'. split; [done|]. split; [done|]. split; [by eapply fault_lazy|].
    split; [by eapply fault_within|]. rewrite (bind_ok _ _ _ _ _ _ _ Hrun). destruct Hres as [(-> & _)|(Hr0 & _ & Hrp & pte & Hlv & Hpte & _)]; [by left|].
    destruct (Z.eqb_spec r 0); [done|]. right. exists pte.
    destruct (fault_pte_w _ _ _ _ Hrp Hpte) as (Epa & Hw & _).
    assert (leaves t' !! vpn va0 = Some pte) as Ev' by (by rewrite Hlv, lookup_insert_eq).
    split; [done|]. split; [done|]. rewrite <- (leaf_addr_grows (mem s) t t' va0);
      [|apply Ht|by eapply mapped_leaf_addr|apply Hfr].
    rewrite (bind_ok _ _ _ _ _ _ _ (load_leaf s' free' t' va0 pte c (vm_tree_ok _ _ _ _ _ Hv') Ev')).
    by rewrite Hw, Epa.
  - exists s, free, t. split; [apply frame_refl|]. split; [done|]. split; [apply lazy_view_refl|].
    split; [apply within_refl|]. rewrite (bind_ok _ _ c s (PTE2PA v) c s) by done. destruct (Z.eqb_spec (PTE2PA v) 0); [klia|].
    rewrite (bind_ok _ _ _ _ _ _ _ (load_leaf s free t va0 v c Ht Ev)).
    destruct (flag v PTE_W) eqn:Hw; [right; eauto|by left].
Qed.

Lemma copyout_prep_run `{!LinkerOk} s free t ts ex va0 psz c K :
  vm_inv s free (t :: ts) ex -> ex_nonneg ex -> uva va0 -> psz <= TRAPFRAME -> LKmem ∉ held c ->
  exists s' free' t', frame ex ts s free t s' free' t' /\ vm_inv s' free' (t' :: ts) ex /\
    lazy_view (mem s) t (mem s') t' /\ within psz t t' /\
    prep_result t' va0 (copyout_prep psz (root t) va0 K c s) K c s'.
Proof.
  intros Hv Hex Hva Hsz Hl. pose proof (vm_tree_ok _ _ _ _ _ Hv) as Ht. unfold copyout_prep.
  assert (0 <= va0 < MAXVA) as Hm by (unfold uva in Hva; klia).
  rewrite (bind_ok _ _ _ _ _ _ _ (walkaddr_run s free t va0 c Ht Hm)).
  assert (forall o, o = leaves t !! vpn va0 ->
    (exists v, o = Some v /\ flag v PTE_U = true) \/
    match o with Some v => if flag v PTE_U then PTE2PA v else 0 | None => 0 end = 0) as Hcase.
  { intros [v|] _; [|by right]. destruct (flag v PTE_U) eqn:E; eauto. }
  destruct (Hcase _ eq_refl) as [(v & Ev & HU)| ->].
  - rewrite Ev, HU. destruct (vm_leaf _ _ _ _ Hv t _ _ ltac:(list_mem) Ev (uva_vpn va0 Hva)) as (Hp & _ & _).
    pose proof (valid_page_pos _ Hp). destruct (Z.eqb_spec (PTE2PA v) 0); [klia|].
    rewrite (bind_ok _ _ c s (PTE2PA v) c s) by done. destruct (Z.eqb_spec (PTE2PA v) 0); [klia|].
    by apply prep_tail.
  - rewrite Z.eqb_refl. destruct (vmfault_run s free t ts ex psz va0 false c Hv Hex ltac:(lia) Hsz Hl)
      as (r & s1 & f1 & t1 & Hrun & Hfr & Hv1 & Hres & _). pose proof (fault_lazy _ _ _ _ _ _ _ _ Hres) as Hlz.
    pose proof (fault_within _ _ _ _ _ _ _ _ Hres) as Hwi.
    rewrite (bind_ok _ _ _ _ _ _ _ Hrun). destruct (Z.eqb_spec r 0) as [->|Hr].
    { exists s1, f1, t1. split_and!; try done. by left. }
    destruct Hres as [(-> & _)|(_ & _ & Hrp & pte & Hlv & Hpte & _)]; [done|].
    destruct (fault_pte_w _ _ _ _ Hrp Hpte) as (<- & Hw & Hc).
    assert (leaves t1 !! vpn va0 = Some pte) as Ev1 by (by rewrite Hlv, lookup_insert_eq).
    rewrite <- (fr_root _ _ _ _ _ _ _ _ Hfr).
    destruct (prep_tail s1 f1 t1 ts ex va0 pte psz c K Hv1 Hex Hva Hsz Hl Ev1) as (s2 & f2 & t2 & Hfr2 & Hv2 & Hlz2 & Hwi2 & Hres2).
    exists s2, f2, t2. split; [by eapply frame_trans|]. split; [done|].
    split; [|split; [by eapply within_trans|done]].
    intros va Hu. eapply lazy_eq_trans; [by apply Hlz|by apply Hlz2].
Qed.

(** The effect of copying [k] bytes from kernel address [src] to user address
    [dst]: those bytes, and nothing else but lazily allocated zeroes. *)
Definition copied (m : gmap Z Z) (t : ptree) (m' : gmap Z Z) (t' : ptree) (dst src k : Z) : Prop :=
  forall va, uva va ->
    if decide (in_range dst (dst + k) va) then ubyte m' t' va = Some (ld8 m (src + (va - dst)))
    else lazy_eq (ubyte m t va) (ubyte m' t' va).

Lemma copied_nil m t m' t' dst src : lazy_view m t m' t' -> copied m t m' t' dst src 0.
Proof. intros H va Hva. rewrite decide_False by (unfold in_range; lia). by apply H. Qed.

(** Kernel memory that user code and the allocator do not reach. *)
Definition kbuf (free : list Z) (ts : list ptree) (ex : Z -> Z) (a len : Z) : Prop :=
  forall x, a <= x < a + len -> kheld free ts ex (PGROUNDDOWN x).

Lemma kbuf_frame ex ts s free t s' free' t' a len : frame ex ts s free t s' free' t' ->
  kbuf free (t :: ts) ex a len ->
  kbuf free' (t' :: ts) ex a len /\ forall x, a <= x < a + len -> ld8 (mem s') x = ld8 (mem s) x.
Proof.
  intros Hfr Hk. split.
  - intros x Hx. by apply Hfr, Hk.
  - intros x Hx. apply (fr_mem _ _ _ _ _ _ _ _ Hfr). by apply Hk.
Qed.

Lemma kernel_leaves_frame ex ts s free t s' free' t' : frame ex ts s free t s' free' t' ->
  kernel_leaves t -> kernel_leaves t'.
Proof. intros Hfr Hk v pte Hv. rewrite (fr_upper _ _ _ _ _ _ _ _ Hfr) by done. by apply Hk. Qed.

(** One page of a copy and then the rest. *)
Lemma copied_step m t m1 t1 m2 m3 t3 dst src n dst' k :
  lazy_view m t m1 t1 ->
  (forall va, uva va -> ubyte m2 t1 va =
     if decide (in_range dst (dst + n) va) then Some (ld8 m1 (src + (va - dst))) else ubyte m1 t1 va) ->
  (forall x, src <= x < src + n + k -> ld8 m1 x = ld8 m x /\ ld8 m2 x = ld8 m x) ->
  copied m2 t1 m3 t3 dst' (src + n) k -> 0 <= n -> 0 <= k -> (0 < k -> dst' = dst + n) ->
  copied m t m3 t3 dst src (n + k).
Proof.
  intros Hlz Hw Hm Hc Hn Hk Hd va Hva. specialize (Hlz va Hva). specialize (Hw va Hva). specialize (Hc va Hva).
  destruct (decide (in_range dst' (dst' + k) va)) as [Hin|Hout].
  - unfold in_range in Hin. specialize (Hd ltac:(lia)). subst dst'.
    rewrite decide_True by (unfold in_range; lia). rewrite Hc. f_equal.
    replace (src + n + (va - (dst + n))) with (src + (va - dst)) by lia. apply Hm. lia.
  - destruct (decide (in_range dst (dst + n) va)) as [Hin|Hno].
    + rewrite decide_True by (unfold in_range in *; lia). rewrite Hw in Hc.
      destruct Hc as [->|[? _]]; [|done]. f_equal. apply Hm. unfold in_range in Hin. lia.
    + rewrite decide_False.
      * rewrite Hw in Hc. by eapply lazy_eq_trans.
      * unfold in_range in *. intros Hx. destruct (decide (k = 0)); [lia|]. rewrite Hd in Hout by lia. lia.
Qed.

(** An address above the user part cannot be copied to. *)
Lemma copyout_high `{!LinkerOk} s free t va0 psz c K : tree_ok s free t -> kernel_leaves t ->
  TRAPFRAME <= va0 < MAXVA -> psz <= TRAPFRAME -> copyout_prep psz (root t) va0 K c s = Ok (-1) c s.
Proof.
  intros Ht Hk Hva Hsz. unfold copyout_prep. assert (0 <= va0 < MAXVA) as Hm by klia.
  rewrite (bind_ok _ _ _ _ _ _ _ (walkaddr_run s free t va0 c Ht Hm)).
  assert (UVPN <= vpn va0) as Hu by (unfold UVPN, vpn; apply Z.div_le_mono; [done|lia]).
  rewrite (bind_ok _ _ c s 0 c s); [done|].
  assert (match leaves t !! vpn va0 with Some v => if flag v PTE_U then PTE2PA v else 0 | None => 0 end = 0) as ->.
  { destruct (leaves t !! vpn va0) as [v|] eqn:E; [|done]. by rewrite (Hk _ _ Hu E). }
  rewrite Z.eqb_refl. unfold vmfault. by destruct (Z.leb_spec psz va0); [|lia].
Qed.

Lemma copyout_loop_S n psz pagetable dstva src len : 0 < len -> PGROUNDDOWN dstva < MAXVA ->
  copyout_loop (S n) psz pagetable dstva src len =
  copyout_prep psz pagetable (PGROUNDDOWN dstva) (fun pa0 =>
    let n0 := PGSIZE - (dstva - PGROUNDDOWN dstva) in
    let n0 := if len <? n0 then len else n0 in
    kmemmove (pa0 + (dstva - PGROUNDDOWN dstva)) src n0;;
    copyout_loop n psz pagetable (u64 (PGROUNDDOWN dstva + PGSIZE)) (src + n0) (len - n0)).
Proof.
  intros Hlen Hm. cbn [copyout_loop]. destruct (Z.ltb_spec 0 len); [|lia].
  by destruct (Z.leb_spec MAXVA (PGROUNDDOWN dstva)); [lia|].
Qed.

Lemma copyout_loop_run `{!LinkerOk} n : forall s free t ts ex psz dstva src len c,
  vm_inv s free (t :: ts) ex -> ex_nonneg ex -> kernel_leaves t -> psz <= TRAPFRAME -> LKmem ∉ held c ->
  0 <= dstva -> 0 <= len -> dstva mod PGSIZE + len <= Z.of_nat n * PGSIZE ->
  kbuf free (t :: ts) ex src len ->
  exists r k s' free' t', copyout_loop n psz (root t) dstva src len c s = Ok r c s' /\
    frame ex ts s free t s' free' t' /\ vm_inv s' free' (t' :: ts) ex /\
    0 <= k <= len /\ ((r = 0 /\ k = len) \/ (r = -1 /\ k < len)) /\
    copied (mem s) t (mem s') t' dstva src k /\ within psz t t'.
Proof.
  induction n as [|n IH]; intros s free t ts ex psz dstva src len c Hv Hex Hkl Hsz Hl Hd Hlen Hfuel Hbuf;
    pose proof (Z.mod_pos_bound dstva PGSIZE ltac:(done)) as Hmb;
    (destruct (decide (len = 0)) as [->|Hne];
      [exists 0, 0, s, free, t; cbn [copyout_loop]; split_and!;
        [done|apply frame_refl|done|done|done|by left|apply copied_nil, lazy_view_refl|apply within_refl]|]).
  { lia. }
  assert (exists r k s' free' t', Ok (-1) c s = Ok r c s' /\ frame ex ts s free t s' free' t' /\
    vm_inv s' free' (t' :: ts) ex /\ 0 <= k <= len /\ ((r = 0 /\ k = len) \/ (r = -1 /\ k < len)) /\
    copied (mem s) t (mem s') t' dstva src k /\ within psz t t') as Hstop.
  { exists (-1), 0, s, free, t. split_and!; [done|apply frame_refl|done|lia..|right; lia|apply copied_nil, lazy_view_refl|apply within_refl]. }
  pose proof (PGROUNDDOWN_eq dstva) as Erd. pose proof (Z.mod_le dstva PGSIZE Hd ltac:(done)) as Hml.
  set (va0 := PGROUNDDOWN dstva) in *.
  destruct (Z_lt_le_dec va0 MAXVA) as [Hm|Hm].
  2: { cbn [copyout_loop]. fold va0. destruct (Z.ltb_spec 0 len); [|lia]. by destruct (Z.leb_spec MAXVA va0); [|lia]. }
  rewrite copyout_loop_S by (done || lia). fold va0.
  destruct (Z_lt_le_dec va0 TRAPFRAME) as [Hva|Hva].
  2: { rewrite (copyout_high s free t va0 psz c _ (vm_tree_ok _ _ _ _ _ Hv) Hkl); [done|lia|done]. }
  assert (uva va0) as Hu by (unfold uva; lia).
  set (n0 := if len <? PGSIZE - (dstva - va0) then len else PGSIZE - (dstva - va0)).
  assert (0 <= n0 <= len /\ dstva mod PGSIZE + n0 <= PGSIZE /\ (n0 < len -> va0 + PGSIZE = dstva + n0)) as (Hn0 & Hn1 & Hn2).
  { unfold n0. destruct (Z.ltb_spec len (PGSIZE - (dstva - va0))); lia. }
  destruct (copyout_prep_run s free t ts ex va0 psz c (fun pa0 =>
    kmemmove (pa0 + (dstva - va0)) src n0;;
    copyout_loop n psz (root t) (u64 (va0 + PGSIZE)) (src + n0) (len - n0)) Hv Hex Hu Hsz Hl)
    as (s1 & f1 & t1 & Hfr1 & Hv1 & Hlz1 & Hwi1 & [Hrun|(pte & Ev & Hw & Hrun)]); cbv zeta; fold n0; rewrite Hrun.
  { exists (-1), 0, s1, f1, t1. split_and!; [done..|lia|lia|right; lia|by apply copied_nil|done]. }
  destruct (kbuf_frame _ _ _ _ _ _ _ _ _ _ Hfr1 Hbuf) as [Hbuf1 Hm1].
  assert (uva dstva) as Hud by (unfold uva in *; consts; Z.div_mod_to_equations; lia).
  assert (vpn dstva = vpn va0) as Evp by (symmetry; apply vpn_rounddown). rewrite <- Evp in Ev.
  destruct (vm_write s1 f1 t1 ts ex dstva pte src n0 Hv1 Hex Hud Ev Hw) as (Hv2 & Hfr2 & Hview2); [lia|lia|].
  replace (dstva mod PGSIZE) with (dstva - va0) in Hv2, Hfr2, Hview2 by lia.
  set (s2 := set_mem _ s1) in *. destruct (kbuf_frame _ _ _ _ _ _ _ _ _ _ Hfr2 Hbuf1) as [Hbuf2 Hm2].
  rewrite (bind_ok _ _ c s1 tt c s2) by done. rewrite u64_id by (unfold uva in Hu; klia).
  rewrite <- (fr_root _ _ _ _ _ _ _ _ Hfr1).
  destruct (IH s2 f1 t1 ts ex psz (va0 + PGSIZE) (src + n0) (len - n0) c) as
    (r & k & s3 & f3 & t3 & Hr3 & Hfr3 & Hv3 & Hk & Hres & Hcp & Hwi3); try done; try lia.
  { exact (kernel_leaves_frame _ _ _ _ _ _ _ _ Hfr1 Hkl). }
  { pose proof (PGROUNDDOWN_aligned dstva) as Hal. fold va0 in Hal.
    rewrite (Z.add_mod va0), Hal by done. change ((0 + PGSIZE mod PGSIZE) mod PGSIZE) with 0.
    destruct (decide (n0 < len)); [|klia]. specialize (Hn2 ltac:(done)). lia. }
  { intros x Hx. apply Hbuf2. lia. }
  exists r, (n0 + k), s3, f3, t3. split; [done|].
  split; [eapply frame_trans; [done|by eapply frame_trans]|]. split; [done|]. split; [lia|]. split; [lia|].
  split; [|by eapply within_trans]. eapply copied_step; [exact Hlz1|exact Hview2| |exact Hcp|lia|lia|].
  - intros x Hx. rewrite Hm2, !Hm1 by lia. done.
  - intros Hk0. apply Hn2. lia.
Qed.

Lemma copyout_run `{!LinkerOk} s free t ts ex psz dstva src len c :
  vm_inv s free (t :: ts) ex -> ex_nonneg ex -> kernel_leaves t -> psz <= TRAPFRAME -> LKmem ∉ held c ->
  0 <= dstva -> 0 <= len -> kbuf free (t :: ts) ex src len ->
  exists r k s' free' t', copyout psz (root t) dstva src len c s = Ok r c s' /\
    frame ex ts s free t s' free' t' /\ vm_inv s' free' (t' :: ts) ex /\
    0 <= k <= len /\ ((r = 0 /\ k = len) \/ (r = -1 /\ k < len)) /\
    copied (mem s) t (mem s') t' dstva src k /\ within psz t t'.
Proof.
  intros Hv Hex Hkl Hsz Hl Hd Hlen Hbuf. unfold copyout.
  eapply (copyout_loop_run _ s free t ts ex psz dstva src len c Hv Hex Hkl Hsz Hl Hd Hlen); [|done].
  assert (0 <= len / PGSIZE) by (apply Z.div_pos; [lia|done]). rewrite Z2Nat.id by lia.
  consts. Z.div_mod_to_equations. lia.
Qed.

(** ** copyin *)

(** An operation that also writes kernel memory, at the addresses in [W]. *)
Record kframe (ex : Z -> Z) (ts : list ptree) (W : Z -> Prop) (s : pmem) (free : list Z) (t : ptree)
    (s' : pmem) (free' : list Z) (t' : ptree) : Prop := {
  kf_root : root t' = root t;
  kf_upper : forall v, UVPN <= v -> leaves t' !! v = leaves t !! v;
  kf_mem : forall x, kheld free (t :: ts) ex (PGROUNDDOWN x) -> ~ W x -> ld8 (mem s') x = ld8 (mem s) x;
  kf_held : forall q, kheld free (t :: ts) ex q -> kheld free' (t' :: ts) ex q;
  kf_others : forall t2 va, t2 ∈ ts -> uva va -> ubyte (mem s') t2 va = ubyte (mem s) t2 va;
  kf_own : lazy_view (mem s) t (mem s') t';
}.

Lemma kframe_frame ex ts W s free t s' free' t' : frame ex ts s free t s' free' t' ->
  lazy_view (mem s) t (mem s') t' -> kframe ex ts W s free t s' free' t'.
Proof. intros Hf Hl. split; try apply Hf; [|done]. intros x Hx _. by apply (fr_mem _ _ _ _ _ _ _ _ Hf). Qed.

Lemma kframe_trans ex ts W s1 f1 t1 s2 f2 t2 s3 f3 t3 :
  kframe ex ts W s1 f1 t1 s2 f2 t2 -> kframe ex ts W s2 f2 t2 s3 f3 t3 -> kframe ex ts W s1 f1 t1 s3 f3 t3.
Proof.
  intros [R1 U1 M1 H1 O1 L1] [R2 U2 M2 H2 O2 L2]. split; [congruence|intros; by rewrite U2, U1| |auto| |].
  - intros x Hx HW. rewrite M2, M1; auto.
  - intros. rewrite O2, O1; done.
  - intros va Hva. eapply lazy_eq_trans; [by apply L1|by apply L2].
Qed.

Lemma kframe_weaken ex ts (W W' : Z -> Prop) s free t s' free' t' : (forall x, W x -> W' x) ->
  kframe ex ts W s free t s' free' t' -> kframe ex ts W' s free t s' free' t'.
Proof. intros HW [R U M H O L]. split; try done. intros x Hx Hn. apply M; [done|]. intros ?. by apply Hn, HW. Qed.

(** The kernel writes its own memory: user code cannot tell. *)
Lemma vm_kchange `{!LinkerOk} f s free t ts ex dst n : vm_inv s free (t :: ts) ex ->
  kbuf free (t :: ts) ex dst n ->
  let s' := set_mem f s in
  (forall x, ~ in_range dst (dst + n) x -> ld8 (mem s') x = ld8 (mem s) x) ->
  vm_inv s' free (t :: ts) ex /\ kframe ex ts (in_range dst (dst + n)) s free t s' free t /\
  (forall va, uva va -> ubyte (mem s') t va = ubyte (mem s) t va).
Proof.
  intros Hv Hbuf s' Hout.
  assert (forall t2 va, t2 ∈ t :: ts -> uva va -> ubyte (mem s') t2 va = ubyte (mem s) t2 va) as Hview.
  { intros t2 va Ht2 Hva. unfold ubyte. destruct (leaves t2 !! vpn va) as [pte|] eqn:E; [|done].
    cbn [mbind option_bind]. f_equal. apply Hout. intros Hin.
    destruct (vm_leaf _ _ _ _ Hv t2 _ _ Ht2 E (uva_vpn va Hva)) as (Hp & _).
    destruct (Hbuf _ Hin) as (_ & Hu & _). rewrite page_offset in Hu by (by apply valid_page_aligned).
    by apply (Hu t2 (vpn va) pte Ht2 E (uva_vpn va Hva)). }
  assert (agree (fun q => q ∈ free \/ exists t2, t2 ∈ t :: ts /\ q ∈ pt_pages t2) (mem s) (mem s')) as HA.
  { intros x Hx. apply Hout. intros Hin. destruct (Hbuf _ Hin) as ([Hf Hd] & _).
    destruct Hx as [?|(t2 & Ht2 & ?)]; [done|by apply (Hd t2)]. }
  split; [by eapply vm_mem|]. split.
  - split; try done; [intros x _; apply Hout| |].
    + intros t2 va Ht2. apply Hview. list_mem.
    + intros va Hva. rewrite Hview by (done || list_mem). apply lazy_eq_refl.
  - intros va. apply Hview. list_mem.
Qed.
Lemma vm_kwrite `{!LinkerOk} s free t ts ex dst src n : vm_inv s free (t :: ts) ex ->
  0 <= n -> kbuf free (t :: ts) ex dst n ->
  let s' := set_mem (fun m => memmove m dst src n) s in
  vm_inv s' free (t :: ts) ex /\ kframe ex ts (in_range dst (dst + n)) s free t s' free t /\
  (forall va, uva va -> ubyte (mem s') t va = ubyte (mem s) t va) /\
  (forall j, 0 <= j < n -> ld8 (mem s') (dst + j) = ld8 (mem s) (src + j)).
Proof.
  intros Hv Hn Hbuf s'.
  destruct (vm_kchange (fun m => memmove m dst src n) s free t ts ex dst n Hv Hbuf) as (H1 & H2 & H3).
  { intros x Hx. cbn [mem set_mem]. rewrite ld8_memmove by done. by rewrite decide_False. }
  split_and!; [done..|]. intros j Hj. unfold s'. cbn [mem set_mem]. rewrite ld8_memmove by done. rewrite decide_True by lia.
  f_equal. lia.
Qed.

Definition copyin_prep (psz pagetable va0 : Z) (K : Z -> M pmem Z) : M pmem Z :=
  pa0 ← walkaddr pagetable va0;
  pa0 ← (if pa0 =? 0 then vmfault psz pagetable va0 false else mret pa0);
  if pa0 =? 0 then mret (-1) else K pa0.

Lemma copyin_prep_run `{!LinkerOk} s free t ts ex va0 psz c K :
  vm_inv s free (t :: ts) ex -> ex_nonneg ex -> uva va0 -> psz <= TRAPFRAME -> LKmem ∉ held c ->
  exists s' free' t', frame ex ts s free t s' free' t' /\ vm_inv s' free' (t' :: ts) ex /\
    lazy_view (mem s) t (mem s') t' /\
    (copyin_prep psz (root t) va0 K c s = Ok (-1) c s' \/
     exists pte, leaves t' !! vpn va0 = Some pte /\ copyin_prep psz (root t) va0 K c s = K (PTE2PA pte) c s').
Proof.
  intros Hv Hex Hva Hsz Hl. pose proof (vm_tree_ok _ _ _ _ _ Hv) as Ht. unfold copyin_prep.
  assert (0 <= va0 < MAXVA) as Hm by (unfold uva in Hva; klia).
  rewrite (bind_ok _ _ _ _ _ _ _ (walkaddr_run s free t va0 c Ht Hm)).
  assert (forall o, o = leaves t !! vpn va0 ->
    (exists v, o = Some v /\ flag v PTE_U = true) \/
    match o with Some v => if flag v PTE_U then PTE2PA v else 0 | None => 0 end = 0) as Hcase.
  { intros [v|] _; [|by right]. destruct (flag v PTE_U) eqn:E; eauto. }
  destruct (Hcase _ eq_refl) as [(v & Ev & HU)| ->].
  - rewrite Ev, HU. destruct (vm_leaf _ _ _ _ Hv t _ _ ltac:(list_mem) Ev (uva_vpn va0 Hva)) as (Hp & _ & _).
    pose proof (valid_page_pos _ Hp). destruct (Z.eqb_spec (PTE2PA v) 0); [klia|].
    rewrite (bind_ok _ _ c s (PTE2PA v) c s) by done. destruct (Z.eqb_spec (PTE2PA v) 0); [klia|].
    exists s, free, t. split_and!; [apply frame_refl|done|apply lazy_view_refl|]. right. eauto.
  - rewrite Z.eqb_refl. destruct (vmfault_run s free t ts ex psz va0 false c Hv Hex ltac:(lia) Hsz Hl)
      as (r & s1 & f1 & t1 & Hrun & Hfr & Hv1 & Hres & _). pose proof (fault_lazy _ _ _ _ _ _ _ _ Hres) as Hlz.
    pose proof (fault_within _ _ _ _ _ _ _ _ Hres) as Hwi.
    rewrite (bind_ok _ _ _ _ _ _ _ Hrun). exists s1, f1, t1. split_and!; try done.
    destruct (Z.eqb_spec r 0) as [->|Hr]; [by left|].
    destruct Hres as [(-> & _)|(_ & _ & Hrp & pte & Hlv & Hpte & _)]; [done|].
    destruct (fault_pte_w _ _ _ _ Hrp Hpte) as (<- & _). right. exists pte.
    split; [by rewrite Hlv, lookup_insert_eq|done].
Qed.

Lemma copyin_high `{!LinkerOk} s free t va0 psz c K : tree_ok s free t -> kernel_leaves t ->
  TRAPFRAME <= va0 -> psz <= TRAPFRAME -> copyin_prep psz (root t) va0 K c s = Ok (-1) c s.
Proof.
  intros Ht Hk Hva Hsz. unfold copyin_prep.
  assert (walkaddr (root t) va0 c s = Ok 0 c s) as Hw.
  { destruct (Z_lt_le_dec va0 MAXVA) as [Hm|Hm].
    - rewrite (walkaddr_run s free t va0 c Ht) by klia.
      assert (UVPN <= vpn va0) as Hu by (unfold UVPN, vpn; apply Z.div_le_mono; [done|lia]).
      destruct (leaves t !! vpn va0) as [v|] eqn:E; [|done]. by rewrite (Hk _ _ Hu E).
    - unfold walkaddr. by destruct (Z.leb_spec MAXVA va0); [|lia]. }
  rewrite (bind_ok _ _ _ _ _ _ _ Hw), Z.eqb_refl, (bind_ok _ _ c s 0 c s); [done|].
  unfold vmfault. by destruct (Z.leb_spec psz va0); [|lia].
Qed.

(** The kernel buffer at [dst] holds the [k] user bytes from [srcva] on. *)
Definition fetched (m : gmap Z Z) (t : ptree) (dst srcva k : Z) : Prop :=
  forall j, 0 <= j < k -> uva (srcva + j) /\ ubyte m t (srcva + j) = Some (ld8 m (dst + j)).

Lemma copyin_loop_S n psz pagetable dst srcva len : 0 < len ->
  copyin_loop (S n) psz pagetable dst srcva len =
  copyin_prep psz pagetable (PGROUNDDOWN srcva) (fun pa0 =>
    let n0 := PGSIZE - (srcva - PGROUNDDOWN srcva) in
    let n0 := if len <? n0 then len else n0 in
    kmemmove dst (pa0 + (srcva - PGROUNDDOWN srcva)) n0;;
    copyin_loop n psz pagetable (dst + n0) (u64 (PGROUNDDOWN srcva + PGSIZE)) (len - n0)).
Proof. intros Hlen. cbn [copyin_loop]. by destruct (Z.ltb_spec 0 len); [|lia]. Qed.

Lemma fetched_step ex ts s2 f2 t2 s3 f3 t3 dst srcva n srcva' k len :
  kframe ex ts (in_range (dst + n) (dst + len)) s2 f2 t2 s3 f3 t3 ->
  kbuf f2 (t2 :: ts) ex dst len -> n <= len ->
  fetched (mem s2) t2 dst srcva n -> fetched (mem s3) t3 (dst + n) srcva' k ->
  (0 < k -> srcva' = srcva + n) -> fetched (mem s3) t3 dst srcva (n + k).
Proof.
  intros Hf Hbuf Hn H2 H3 Hs j Hj. destruct (decide (j < n)) as [Hlt|Hge].
  - destruct (H2 j ltac:(lia)) as [Hu E]. split; [done|].
    rewrite (kf_mem _ _ _ _ _ _ _ _ _ Hf (dst + j)); [|apply Hbuf; lia|unfold in_range; lia].
    destruct (kf_own _ _ _ _ _ _ _ _ _ Hf _ Hu) as [->|[? _]]; congruence.
  - destruct (H3 (j - n) ltac:(lia)) as [Hu E]. rewrite Hs in Hu, E by lia.
    replace (srcva + n + (j - n)) with (srcva + j) in Hu, E by lia.
    replace (dst + n + (j - n)) with (dst + j) in E by lia. done.
Qed.

Lemma copyin_loop_run `{!LinkerOk} n : forall s free t ts ex psz dst srcva len c,
  vm_inv s free (t :: ts) ex -> ex_nonneg ex -> kernel_leaves t -> psz <= TRAPFRAME -> LKmem ∉ held c ->
  0 <= srcva -> 0 <= len -> srcva mod PGSIZE + len <= Z.of_nat n * PGSIZE ->
  kbuf free (t :: ts) ex dst len ->
  exists r k s' free' t', copyin_loop n psz (root t) dst srcva len c s = Ok r c s' /\
    kframe ex ts (in_range dst (dst + len)) s free t s' free' t' /\ vm_inv s' free' (t' :: ts) ex /\
    0 <= k <= len /\ ((r = 0 /\ k = len) \/ r = -1) /\ fetched (mem s') t' dst srcva k.
Proof.
  induction n as [|n IH]; intros s free t ts ex psz dst srcva len c Hv Hex Hkl Hsz Hl Hd Hlen Hfuel Hbuf;
    pose proof (Z.mod_pos_bound srcva PGSIZE ltac:(done)) as Hmb;
    (destruct (decide (len = 0)) as [->|Hne];
      [exists 0, 0, s, free, t; cbn [copyin_loop]; split_and!;
        [done|apply kframe_frame; [apply frame_refl|apply lazy_view_refl]|done|done|done|by left|intros j; lia]|]).
  { lia. }
  rewrite copyin_loop_S by lia.
  pose proof (PGROUNDDOWN_eq srcva) as Erd. pose proof (Z.mod_le srcva PGSIZE Hd ltac:(done)) as Hml.
  set (va0 := PGROUNDDOWN srcva) in *. destruct (Z_lt_le_dec va0 TRAPFRAME) as [Hva|Hva].
  2: { rewrite (copyin_high s free t va0 psz c _ (vm_tree_ok _ _ _ _ _ Hv) Hkl) by done.
       exists (-1), 0, s, free, t. split_and!;
         [done|apply kframe_frame; [apply frame_refl|apply lazy_view_refl]|done|lia|lia|by right|intros j; lia]. }
  assert (uva va0) as Hu by (unfold uva; lia).
  set (n0 := if len <? PGSIZE - (srcva - va0) then len else PGSIZE - (srcva - va0)).
  assert (0 <= n0 <= len /\ srcva mod PGSIZE + n0 <= PGSIZE /\ (n0 < len -> va0 + PGSIZE = srcva + n0)) as (Hn0 & Hn1 & Hn2).
  { unfold n0. destruct (Z.ltb_spec len (PGSIZE - (srcva - va0))); lia. }
  destruct (copyin_prep_run s free t ts ex va0 psz c (fun pa0 =>
    kmemmove dst (pa0 + (srcva - va0)) n0;;
    copyin_loop n psz (root t) (dst + n0) (u64 (va0 + PGSIZE)) (len - n0)) Hv Hex Hu Hsz Hl)
    as (s1 & f1 & t1 & Hfr1 & Hv1 & Hlz1 & [Hrun|(pte & Ev & Hrun)]); cbv zeta; fold n0; rewrite Hrun.
  { exists (-1), 0, s1, f1, t1. split_and!; [done|by apply kframe_frame|done|lia|lia|by right|intros j; lia]. }
  destruct (kbuf_frame _ _ _ _ _ _ _ _ _ _ Hfr1 Hbuf) as [Hbuf1 _].
  destruct (vm_kwrite s1 f1 t1 ts ex dst (PTE2PA pte + (srcva - va0)) n0 Hv1) as (Hv2 & Hfr2 & Hview2 & Hld2);
    [lia|intros x Hx; apply Hbuf1; lia|].
  set (s2 := set_mem _ s1) in *.
  rewrite (bind_ok _ _ c s1 tt c s2) by done. rewrite u64_id by (unfold uva in Hu; klia).
  rewrite <- (fr_root _ _ _ _ _ _ _ _ Hfr1).
  destruct (IH s2 f1 t1 ts ex psz (dst + n0) (va0 + PGSIZE) (len - n0) c) as
    (r & k & s3 & f3 & t3 & Hr3 & Hfr3 & Hv3 & Hk & Hres & Hcp); try done; try lia.
  { exact (kernel_leaves_frame _ _ _ _ _ _ _ _ Hfr1 Hkl). }
  { pose proof (PGROUNDDOWN_aligned srcva) as Hal. fold va0 in Hal.
    rewrite (Z.add_mod va0), Hal by done. change ((0 + PGSIZE mod PGSIZE) mod PGSIZE) with 0.
    destruct (decide (n0 < len)); [|klia]. specialize (Hn2 ltac:(done)). lia. }
  { intros x Hx. apply Hbuf1. lia. }
  replace (dst + n0 + (len - n0)) with (dst + len) in Hfr3 by lia.
  exists r, (n0 + k), s3, f3, t3. split; [done|]. split; [|split; [done|split; [lia|split; [lia|]]]].
  - eapply kframe_trans; [by apply kframe_frame|].
    eapply kframe_trans; [eapply kframe_weaken; [|exact Hfr2]|eapply kframe_weaken; [|exact Hfr3]];
      unfold in_range; intros; lia.
  - eapply fetched_step; [exact Hfr3|exact Hbuf1|lia| |exact Hcp|intros; apply Hn2; lia].
    intros j Hj. assert (uva (srcva + j)) as Huj by (unfold uva in *; consts; Z.div_mod_to_equations; lia).
    split; [done|]. rewrite Hview2 by done. rewrite Hld2 by done. unfold ubyte.
    assert (vpn (srcva + j) = vpn va0 /\ (srcva + j) mod PGSIZE = srcva - va0 + j) as [-> ->].
    { unfold vpn. consts. Z.div_mod_to_equations. lia. }
    rewrite Ev. cbn [mbind option_bind]. do 2 f_equal. lia.
Qed.

Lemma copyin_run `{!LinkerOk} s free t ts ex psz dst srcva len c :
  vm_inv s free (t :: ts) ex -> ex_nonneg ex -> kernel_leaves t -> psz <= TRAPFRAME -> LKmem ∉ held c ->
  0 <= srcva -> 0 <= len -> kbuf free (t :: ts) ex dst len ->
  exists r k s' free' t', copyin psz (root t) dst srcva len c s = Ok r c s' /\
    kframe ex ts (in_range dst (dst + len)) s free t s' free' t' /\ vm_inv s' free' (t' :: ts) ex /\
    0 <= k <= len /\ ((r = 0 /\ k = len) \/ r = -1) /\ fetched (mem s') t' dst srcva k.
Proof.
  intros Hv Hex Hkl Hsz Hl Hd Hlen Hbuf. unfold copyin.
  eapply (copyin_loop_run _ s free t ts ex psz dst srcva len c Hv Hex Hkl Hsz Hl Hd Hlen); [|done].
  assert (0 <= len / PGSIZE) by (apply Z.div_pos; [lia|done]). rewrite Z2Nat.id by lia.
  consts. Z.div_mod_to_equations. lia.
Qed.
End copy.
