(* ===== verification/VmFree.v ===== *)
(** * Giving an address space back

    [freewalk] and [uvmfree] of kernel/vm.c, and the removal of the mappings
    that every process has above its memory. When the leaves of a page table
    are gone its pages are pages the kernel holds; [freewalk] visits each of
    them once and returns it to the allocator, whatever the order in which
    entries of the upper levels still name pages that are already free. *)

From S2P Require Import Prelude Riscv Mem Kalloc Vm VmTree VmInv VmOps VmUser.

Section free.
Context `{LK : Linker}.

(** ** Tables in memory *)

(** The entries of a table: the page each one names, if any, and all pages
    below it. *)
Definition below (kids : list (option Z * list Z)) : list Z := kids ≫= snd.

(** [tbl d m p pages]: at page [p] of memory [m] is a table of [d] levels
    without leaves, which consists of [pages]. *)
Fixpoint tbl (d : nat) (m : gmap Z Z) (p : Z) (pages : list Z) : Prop :=
  match d with
  | O => False
  | S d => exists kids, length kids = 512%nat /\ pages = p :: below kids /\
      forall j k, kids !! j = Some k -> ld64 m (p + 8 * Z.of_nat j) = entry k.1 /\
        match k.1 with Some q => tbl d m q k.2 | None => k.2 = [] end
  end.

Lemma below_in kids j k q : kids !! j = Some k -> q ∈ k.2 -> q ∈ below kids.
Proof. intros Hk Hq. apply list_elem_of_bind. exists k. split; [done|by eapply list_elem_of_lookup_2]. Qed.

Lemma tbl_agree d : forall m m' p pages, tbl d m p pages -> Forall valid_page pages ->
  agree (fun q => q ∈ pages) m m' -> tbl d m' p pages.
Proof.
  induction d as [|d IH]; intros m m' p pages Ht Hv HA; [done|].
  destruct Ht as (kids & Hlen & -> & Hk). exists kids. split; [done|]. split; [done|].
  apply Forall_cons in Hv as [Hp Hb]. intros j k Hj. destruct (Hk j k Hj) as [Hw Hs]. split.
  - pose proof (lookup_lt_Some _ _ _ Hj). pose proof (valid_page_aligned p Hp). rewrite <- Hw. eapply agree_ld64; [exact HA|apply aligned_word; done|].
    rewrite page_entry by (done || lia). by left.
  - destruct k.1 as [q|]; [|done]. apply (IH m); [done| |].
    + apply Forall_forall. intros x Hx. rewrite Forall_forall in Hb. apply Hb. by eapply below_in.
    + eapply agree_weaken; [|exact HA]. intros x Hx. right. by eapply below_in.
Qed.

(** ** Pages the kernel holds *)

(** Pages with one reference each, which the kernel holds. *)
Record spare (ts : list ptree) (ex : Z -> Z) (pages : list Z) : Prop := {
  sp_nodup : NoDup pages;
  sp_valid : Forall valid_page pages;
  sp_held : forall q, q ∈ pages -> ex q = 1 /\ (forall t, t ∈ ts -> q ∉ pt_pages t) /\ total q ts = 0;
}.
Definition without (pages : list Z) (ex : Z -> Z) (q : Z) : Z := if decide (q ∈ pages) then 0 else ex q.

Lemma spare_perm ts ex l l' : l ≡ₚ l' -> spare ts ex l -> spare ts ex l'.
Proof. intros HP [Hn Hv Hh]. split; [by rewrite <- HP|by rewrite <- HP|]. intros q. rewrite <- HP. apply Hh. Qed.
Lemma spare_app ts ex l1 l2 : spare ts ex (l1 ++ l2) -> spare ts ex l1 /\ spare ts (without l1 ex) l2.
Proof.
  intros [Hn Hv Hh]. apply NoDup_app in Hn as (Hn1 & Hd & Hn2). apply Forall_app in Hv as [Hv1 Hv2]. split; split; try done.
  - intros q Hq. apply Hh, elem_of_app. by left.
  - intros q Hq. unfold without. rewrite decide_False by (intros Hq1; by apply (Hd q)). apply Hh, elem_of_app. by right.
Qed.
Lemma without_app l1 l2 ex q : without l2 (without l1 ex) q = without (l1 ++ l2) ex q.
Proof. unfold without. repeat case_decide; set_solver. Qed.

Lemma spare_not_free s free ts ex pages q : vm_inv s free ts ex -> spare ts ex pages -> q ∈ pages -> q ∉ free.
Proof.
  intros Hv [_ Hval Hh] Hq. destruct (Hh q Hq) as (He & Hd & Ht). rewrite Forall_forall in Hval.
  apply (inv_not_free s); [apply Hv|by apply Hval|]. rewrite (vm_ref _ _ _ _ Hv q (Hval q Hq) Hd). lia.
Qed.

(** Freeing one of them. *)
Lemma spare_kfree `{!LinkerOk} s free ts ex p c : vm_inv s free ts ex -> spare ts ex [p] -> LKmem ∉ held c ->
  exists s' free', kfree p c s = Ok tt c s' /\ vm_inv s' free' ts (without [p] ex) /\ agree (.≠ p) (mem s) (mem s').
Proof.
  intros Hv [_ Hval Hh] Hl. destruct (Hh p ltac:(by left)) as (He & Hd & _). apply Forall_cons in Hval as [Hp _].
  destruct (vm_kfree s free ts ex p c Hv Hp Hd) as (s' & free' & Hr & Hv' & HA & _); [lia|done|].
  exists s', free'. split; [done|]. split.
  - eapply vm_inv_ex; [|exact Hv']. intros q _. cbv beta. unfold without. repeat case_decide; rewrite list_elem_of_singleton in *; subst; try done; lia.
  - eapply agree_weaken; [|exact HA]. intros x Hx. by left.
Qed.

(** ** freewalk *)

(** The body of its loop. *)
Definition walk_entry (d : nat) (pagetable i : Z) : M pmem unit :=
  pte ← load64 (pagetable + 8 * i);
  if flag pte PTE_V && (Z.land pte (Z.lor (Z.lor PTE_R PTE_W) PTE_X) =? 0) then
    freewalk d (PTE2PA pte);;
    store64 (pagetable + 8 * i) 0
  else if flag pte PTE_V then panic "freewalk: leaf"
  else mret tt.

Lemma freewalk_S d p c s : freewalk (S d) p c s = (for_each (seqZ 0 512) (walk_entry d p);; kfree p) c s.
Proof. done. Qed.

Lemma entry_table `{!LinkerOk} q : valid_page q -> flag (entry (Some q)) PTE_V = true /\
  (Z.land (entry (Some q)) (Z.lor (Z.lor PTE_R PTE_W) PTE_X) =? 0) = true /\ PTE2PA (entry (Some q)) = q.
Proof.
  intros Hq. pose proof (valid_page_phys q Hq) as Hp. split; [by apply flag_entry_Some|]. split; [|by apply PTE2PA_entry].
  pose proof (flag_pack q PTE_V (Z.lor (Z.lor PTE_R PTE_W) PTE_X) Hp ltac:(done) ltac:(done)) as E.
  unfold flag in E at 1. change (flag PTE_V (Z.lor (Z.lor PTE_R PTE_W) PTE_X)) with false in E. by apply negb_false_iff in E.
Qed.

(** What [freewalk] of a table with [d] levels does. *)
Definition frees (d : nat) (c : ctx) (ts : list ptree) : Prop := forall s free ex q pages,
  tbl d (mem s) q pages -> spare ts ex pages -> vm_inv s free ts ex ->
  exists s' free', freewalk d q c s = Ok tt c s' /\ vm_inv s' free' ts (without pages ex) /\ agree (.∉ pages) (mem s) (mem s').

(** The entry that names a page is cleared after the page is freed. *)
Lemma clear_entry `{!LinkerOk} s free ts ex p i c pages : vm_inv s free ts ex -> spare ts ex (p :: pages) -> 0 <= i < 512 ->
  let s' := set_mem (fun m => st64 m (p + 8 * i) 0) s in
  store64 (p + 8 * i) 0 c s = Ok tt c s' /\ vm_inv s' free ts ex /\ agree (.≠ p) (mem s) (mem s') /\
  forall j, 0 <= j < 512 -> j <> i -> ld64 (mem s') (p + 8 * j) = ld64 (mem s) (p + 8 * j).
Proof.
  intros Hv Hs Hi s'. pose proof Hs as [_ Hval Hh]. apply Forall_cons in Hval as [Hp _]. pose proof (valid_page_aligned p Hp) as Ha.
  assert (HA : agree (.≠ p) (mem s) (mem s')) by (apply agree_st64; [by apply aligned_word|by apply page_entry]).
  split; [done|]. split; [|split; [done|]].
  - apply (vm_mem s); [done..|]. eapply agree_weaken; [|exact HA]. intros q [Hq|(t & Ht & Hq)] ->.
    + by apply (spare_not_free s free ts ex (p :: pages) p Hv Hs ltac:(by left)).
    + destruct (Hh p ltac:(by left)) as (_ & Hd & _). by apply (Hd t).
  - intros j Hj Hne. unfold s'. cbn [mem set_mem]. rewrite ld64_st64 by (done || by apply aligned_word). rewrite decide_False by lia. done.
Qed.

(** One turn of the loop. *)
Lemma walk_entry_run `{!LinkerOk} d p c ts i k rest s free ex : frees d c ts -> 0 <= i < 512 ->
  spare ts ex (p :: k.2 ++ rest) -> vm_inv s free ts ex -> ld64 (mem s) (p + 8 * i) = entry k.1 ->
  match k.1 with Some q => tbl d (mem s) q k.2 | None => k.2 = [] end ->
  exists s1 free1, walk_entry d p i c s = Ok tt c s1 /\ vm_inv s1 free1 ts (without k.2 ex) /\ spare ts (without k.2 ex) (p :: rest) /\
    agree (fun q => q <> p /\ q ∉ k.2) (mem s) (mem s1) /\
    forall j, 0 <= j < 512 -> j <> i -> ld64 (mem s1) (p + 8 * j) = ld64 (mem s) (p + 8 * j).
Proof.
  intros IH Hi Hs Hv Hw Hsub.
  assert (spare ts ex (k.2 ++ p :: rest)) as [Hs1 Hs2]%spare_app by (eapply spare_perm; [apply Permutation_middle|exact Hs]).
  unfold walk_entry. erewrite bind_ok; [|reflexivity]. rewrite Hw. destruct k as [[q|] pages]; cbn [fst snd] in *.
  - assert (Hq : valid_page q).
    { destruct d; [done|]. destruct Hsub as (? & _ & -> & _). by destruct (proj1 (Forall_cons _ _ _) (sp_valid _ _ _ Hs1)). }
    destruct (entry_table q Hq) as (-> & -> & ->). cbn [andb].
    destruct (IH s free ex q pages Hsub Hs1 Hv) as (s1 & free1 & Hr & Hv1 & HA). rewrite (bind_ok _ _ _ _ _ _ _ Hr).
    destruct (clear_entry s1 free1 ts (without pages ex) p i c rest Hv1 Hs2 Hi) as (Hst & Hv2 & HA2 & Hw2).
    eexists _, free1. split; [exact Hst|]. split; [exact Hv2|]. split; [done|]. split.
    + intros x [H1 H2]. rewrite (HA2 x H1). by apply HA.
    + intros j Hj Hne. rewrite Hw2 by done. pose proof (valid_page_aligned p (proj1 (proj1 (Forall_cons _ _ _) (sp_valid _ _ _ Hs2)))).
      eapply agree_ld64; [exact HA|by apply aligned_word|]. rewrite page_entry by done.
      intros Hin. pose proof (sp_nodup _ _ _ Hs) as Hnd. apply NoDup_cons in Hnd as [Hnp _]. apply Hnp, elem_of_app. by left.
  - subst pages. exists s, free. rewrite flag_entry_None. cbn [andb]. split; [done|]. split; [|done].
    eapply vm_inv_ex; [|exact Hv]. intros q _. unfold without. by rewrite decide_False by apply not_elem_of_nil.
Qed.

(** The pages below the entries that follow are as before. *)
Lemma tbl_later d m m' p pages pages' q x : tbl d m q x -> (forall y, y ∈ x -> y ∈ pages') -> NoDup (p :: pages ++ pages') -> Forall valid_page pages' ->
  agree (fun q => q <> p /\ q ∉ pages) m m' -> tbl d m' q x.
Proof.
  intros Ht Hx Hnd Hval HA. apply NoDup_cons in Hnd as [Hnp Hnd]. apply NoDup_app in Hnd as (_ & Hd & _). rewrite Forall_forall in Hval.
  apply (tbl_agree d m); [done|apply Forall_forall; intros y Hy; by apply Hval, Hx|].
  eapply agree_weaken; [|exact HA]. intros y Hy. specialize (Hx y Hy). split; [|intros Hy1; by apply (Hd y)].
  intros ->. apply Hnp, elem_of_app. by right.
Qed.

Lemma freewalk_loop `{!LinkerOk} d p c ts : frees d c ts -> forall kids i s free ex,
  0 <= i -> i + Z.of_nat (length kids) <= 512 -> spare ts ex (p :: below kids) -> vm_inv s free ts ex ->
  (forall j k, kids !! j = Some k -> ld64 (mem s) (p + 8 * (i + Z.of_nat j)) = entry k.1 /\
     match k.1 with Some q => tbl d (mem s) q k.2 | None => k.2 = [] end) ->
  exists s' free', for_each (seqZ i (Z.of_nat (length kids))) (walk_entry d p) c s = Ok tt c s' /\
    vm_inv s' free' ts (without (below kids) ex) /\ agree (fun q => q <> p /\ q ∉ below kids) (mem s) (mem s').
Proof.
  intros IH. induction kids as [|k kids IHk]; intros i s free ex Hi Hlen Hs Hv Hk.
  { exists s, free. split; [done|]. split; [|done]. eapply vm_inv_ex; [|exact Hv]. intros q _. unfold without. by rewrite decide_False by apply not_elem_of_nil. }
  cbn [length] in Hlen |- *. rewrite seqZ_cons by lia. cbn [for_each].
  replace (Z.pred (Z.of_nat (S (length kids)))) with (Z.of_nat (length kids)) by lia.
  destruct (Hk 0%nat k eq_refl) as [Hw Hsub]. rewrite Z.add_0_r in Hw. change (below (k :: kids)) with (k.2 ++ below kids) in *.
  destruct (walk_entry_run d p c ts i k (below kids) s free ex IH) as (s1 & free1 & Hr1 & Hv1 & Hs1 & HA1 & Hw1); [lia|done..|].
  rewrite (bind_ok _ _ _ _ _ _ _ Hr1).
  destruct (IHk (Z.succ i) s1 free1 (without k.2 ex)) as (s2 & free2 & Hr2 & Hv2 & HA2); [lia|lia|done|done| |].
  - intros j k' Hj. destruct (Hk (S j) k' Hj) as [Hw' Hsub']. pose proof (lookup_lt_Some _ _ _ Hj). split.
    + rewrite Hw1 by lia. rewrite <- Hw'. do 2 f_equal. lia.
    + destruct k'.1 as [q|] eqn:Eq; [|done]. eapply (tbl_later d (mem s) _ p k.2 (below kids)); [done|by intros y; eapply below_in|apply Hs| |exact HA1].
      by apply (proj1 (Forall_cons _ _ _) (sp_valid _ _ _ Hs1)).
  - exists s2, free2. split; [exact Hr2|]. split.
    + eapply vm_inv_ex; [|exact Hv2]. intros q _. apply without_app.
    + intros x [H1 H2]. rewrite elem_of_app in H2. rewrite HA2 by (split; [done|tauto]). apply HA1. split; [done|tauto].
Qed.

Lemma freewalk_run `{!LinkerOk} d c ts : LKmem ∉ held c -> frees d c ts.
Proof.
  intros Hl. induction d as [|d IH]; intros s free ex q pages Ht Hs Hv; [done|].
  destruct Ht as (kids & Hlen & -> & Hk). rewrite freewalk_S.
  destruct (freewalk_loop d q c ts IH kids 0 s free ex) as (s1 & free1 & Hr1 & Hv1 & HA1); [lia|lia|done|done|done|].
  rewrite Hlen in Hr1. rewrite (bind_ok _ _ _ _ _ _ _ Hr1).
  assert (Hs' : spare ts ex (below kids ++ [q])).
  { eapply spare_perm; [|exact Hs]. apply Permutation_cons_append. }
  apply spare_app in Hs' as [_ Hs2].
  destruct (spare_kfree s1 free1 ts _ q c Hv1 Hs2 Hl) as (s2 & free2 & Hr2 & Hv2 & HA2).
  exists s2, free2. split; [done|]. split.
  - eapply vm_inv_ex; [|exact Hv2]. intros x _. rewrite without_app. unfold without. apply decide_ext. rewrite (Permutation_app_comm (below kids)). done.
  - intros x Hx. apply not_elem_of_cons in Hx as [H1 H2]. rewrite (HA2 x H1). by apply HA1.
Qed.

(** ** The table of a tree *)

(** The entries of level-1 page [i] of a tree, and those of its root. *)
Definition kids1 (t : ptree) (i : Z) : list (option Z * list Z) :=
  (fun j => (l0 t !! (512 * i + j), option_list (l0 t !! (512 * i + j)))) <$> seqZ 0 512.
Definition kids2 (t : ptree) : list (option Z * list Z) :=
  (fun i => (l1 t !! i, match l1 t !! i with Some p => p :: below (kids1 t i) | None => [] end)) <$> seqZ 0 512.
Definition tree_pages (t : ptree) : list Z := root t :: below (kids2 t).

Lemma below_kids1 t i : below (kids1 t i) = seqZ 0 512 ≫= fun j => option_list (l0 t !! (512 * i + j)).
Proof. unfold below, kids1. by rewrite list_fmap_bind. Qed.
Lemma below_kids2 t : below (kids2 t) = seqZ 0 512 ≫= fun i => match l1 t !! i with Some p => p :: below (kids1 t i) | None => [] end.
Proof. unfold below at 1, kids2. by rewrite list_fmap_bind. Qed.

Lemma elem_below1 t i q : q ∈ below (kids1 t i) <-> exists j, 0 <= j < 512 /\ l0 t !! (512 * i + j) = Some q.
Proof.
  rewrite below_kids1, list_elem_of_bind. split.
  - intros (j & Hq & Hj%elem_of_seqZ). exists j. split; [lia|]. destruct (l0 t !! (512 * i + j)); cbn in Hq; set_solver.
  - intros (j & Hj & Hq). exists j. rewrite Hq, elem_of_seqZ. cbn. split; [set_solver|lia].
Qed.
Lemma elem_below2 t q : q ∈ below (kids2 t) <-> exists i p, 0 <= i < 512 /\ l1 t !! i = Some p /\ (q = p \/ q ∈ below (kids1 t i)).
Proof.
  rewrite below_kids2, list_elem_of_bind. split.
  - intros (i & Hq & Hi%elem_of_seqZ). destruct (l1 t !! i) as [p|] eqn:E; [|by apply not_elem_of_nil in Hq].
    exists i, p. rewrite elem_of_cons in Hq. split; [lia|done].
  - intros (i & p & Hi & Hp & Hq). exists i. rewrite Hp, elem_of_seqZ, elem_of_cons. split; [done|lia].
Qed.

Lemma elem_tree_pages m t q : pt_rep m t -> q ∈ tree_pages t <-> q ∈ pt_pages t.
Proof.
  intros Hr. unfold tree_pages. rewrite elem_of_cons, elem_below2. split.
  - intros [->|(i & p & Hi & Hp & [->|(j & Hj & Hq)%elem_below1])]; [apply root_in|by eapply l1_in|by eapply l0_in].
  - intros [->|[[i Hi]|[k Hk]]]%pt_pages_inv; [by left|..]; right.
    + exists i, q. split; [by eapply (rep_l1_dom _ _ Hr)|]. by split; [|left].
    + destruct (rep_l0_up _ _ Hr _ _ Hk) as [p Hp]. exists (k / 512), p. split; [by eapply (rep_l1_dom _ _ Hr)|]. split; [done|]. right.
      apply elem_below1. exists (k mod 512). split; [apply Z.mod_pos_bound; lia|]. by rewrite <- Z.div_mod by lia.
Qed.

Lemma tree_pages_nodup m t : pt_rep m t -> NoDup (tree_pages t).
Proof.
  intros Hr. unfold tree_pages. constructor.
  - rewrite elem_below2. intros (i & p & _ & Hp & [E|(j & _ & Hq)%elem_below1]).
    + by apply (nodup_l1_root _ _ _ _ Hr Hp).
    + by apply (nodup_l0_root _ _ _ _ Hr Hq).
  - rewrite below_kids2. apply NoDup_bind; [|intros i _|apply NoDup_seqZ].
    + intros i1 i2 q _ _ H1 H2. destruct (l1 t !! i1) as [p1|] eqn:E1; [|by apply not_elem_of_nil in H1].
      destruct (l1 t !! i2) as [p2|] eqn:E2; [|by apply not_elem_of_nil in H2].
      apply elem_of_cons in H1 as [->|(j1 & Hj1 & Hq1)%elem_below1], H2 as [->|(j2 & Hj2 & Hq2)%elem_below1].
      * by eapply nodup_l1_inj.
      * by destruct (nodup_l1_l0 _ _ _ _ _ _ Hr E1 Hq2).
      * by destruct (nodup_l1_l0 _ _ _ _ _ _ Hr E2 Hq1).
      * pose proof (nodup_l0_inj _ _ _ _ _ Hr Hq1 Hq2). lia.
    + destruct (l1 t !! i) as [p|] eqn:E; [|constructor]. constructor.
      * intros (j & _ & Hq)%elem_below1. by apply (nodup_l1_l0 _ _ _ _ _ _ Hr E Hq).
      * rewrite below_kids1. apply NoDup_bind; [|intros j _; destruct (l0 t !! _); cbn; repeat constructor; set_solver|apply NoDup_seqZ].
        intros j1 j2 q _ _ H1 H2. destruct (l0 t !! (512 * i + j1)) eqn:E1; [|by apply not_elem_of_nil in H1].
        destruct (l0 t !! (512 * i + j2)) eqn:E2; [|by apply not_elem_of_nil in H2].
        apply list_elem_of_singleton in H1 as ->. apply list_elem_of_singleton in H2 as ->.
        pose proof (nodup_l0_inj _ _ _ _ _ Hr E1 E2). lia.
Qed.

Lemma lookup_kids {A} (f : Z -> A) j k : (f <$> seqZ 0 512) !! j = Some k -> 0 <= Z.of_nat j < 512 /\ k = f (Z.of_nat j).
Proof. rewrite list_lookup_fmap. intros (x & Hx & ->)%fmap_Some. apply lookup_seqZ in Hx as [-> Hx]. split; [lia|by rewrite Z.add_0_l]. Qed.

(** An address space without leaves is a table of three levels. *)
Lemma tree_tbl m t : pt_rep m t -> leaves t = ∅ -> tbl 3 m (root t) (tree_pages t).
Proof.
  intros Hr Hl. exists (kids2 t). split; [unfold kids2; by rewrite length_fmap, length_seqZ|]. split; [done|].
  intros i k Hk. apply lookup_kids in Hk as [Hi ->]. cbn [fst snd]. split; [by apply Hr|].
  destruct (l1 t !! Z.of_nat i) as [p|] eqn:Ep; [|done].
  exists (kids1 t (Z.of_nat i)). split; [unfold kids1; by rewrite length_fmap, length_seqZ|]. split; [done|].
  intros j k Hk. apply lookup_kids in Hk as [Hj ->]. cbn [fst snd]. split; [by apply (rep_l1 _ _ Hr)|].
  destruct (l0 t !! _) as [q|] eqn:Eq; [|done].
  exists (replicate 512 (None, [])). split; [by rewrite length_replicate|]. split.
  - reflexivity.
  - intros n k [-> Hn]%lookup_replicate. split; [|done]. cbn [fst entry].
    rewrite (rep_l0 _ _ Hr _ _ Eq) by lia. by rewrite Hl.
Qed.

(** ** uvmfree *)

(** The pages of a tree without leaves are pages the kernel holds. *)
Lemma total_unmapped pa ts : unmapped ts pa -> total pa ts = 0.
Proof.
  intros Hu. induction ts as [|t ts IH]; [done|]. rewrite total_cons, IH by (intros t' v pte Ht; apply Hu; by right).
  pose proof (mapcount_nonneg pa (leaves t)). destruct (decide (0 < mapcount pa (leaves t))) as [H0|]; [|lia].
  apply mapcount_pos_inv in H0 as (v & pte & Hv & Hn & E). by destruct (Hu t v pte ltac:(by left) Hv Hn).
Qed.
Lemma table_unmapped s free ts ex t q : vm_inv s free ts ex -> t ∈ ts -> q ∈ pt_pages t -> unmapped ts q.
Proof. intros Hv Ht Hq t' v pte Ht' Hl Hu E. destruct (vm_leaf _ _ _ _ Hv t' v pte Ht' Hl Hu) as (_ & _ & Hd). apply (Hd t Ht). by rewrite E. Qed.

Definition holding_tree (t : ptree) (ex : Z -> Z) (q : Z) : Z := if decide (q ∈ tree_pages t) then 1 else ex q.

Lemma vm_drop_tree s free t ts ex : vm_inv s free (t :: ts) ex -> leaves t = ∅ ->
  vm_inv s free ts (holding_tree t ex) /\ spare ts (holding_tree t ex) (tree_pages t).
Proof.
  intros Hv Hl. pose proof (vm_rep _ _ _ _ Hv t ltac:(by left)) as Hr.
  assert (Hq : forall q, q ∈ tree_pages t -> valid_page q /\ ref s q = 1 /\ (forall t', t' ∈ ts -> q ∉ pt_pages t') /\ total q ts = 0).
  { intros q Hq. apply (elem_tree_pages _ _ _ Hr) in Hq. split_and!.
    - by eapply rep_valid_in.
    - apply (vm_pt_ref _ _ _ _ Hv t); [by left|done].
    - intros t' Ht' Hq'. by apply (vm_pages_disjoint _ _ _ _ _ _ _ Hv Ht' Hq').
    - apply total_unmapped. intros t' v pte Ht'. apply (table_unmapped _ _ _ _ t q Hv ltac:(by left) Hq). by right. }
  split.
  - destruct Hv as [H1 H2 H3 H4 H5 H6 H7]. split; try done.
    + intros t' Ht'. apply H2. by right.
    + by apply NoDup_app in H3 as (_ & _ & ?).
    + intros t' p Ht'. apply H4. by right.
    + intros t' v pte Ht' Hlv Hu. destruct (H5 t' v pte ltac:(by right) Hlv Hu) as (? & ? & Hd). split_and!; [done..|]. intros u Hu'. apply Hd. by right.
    + intros pa Hp Hd. unfold holding_tree. case_decide as E; [destruct (Hq pa E) as (_ & -> & _ & ->); done|].
      rewrite H6; [rewrite total_cons, Hl; done|done|]. intros t' [->|Ht']%elem_of_cons; [|by apply Hd]. by rewrite <- (elem_tree_pages _ _ _ Hr).
    + intros t' v pte Ht'. apply H7. by right.
  - split; [by eapply tree_pages_nodup|apply Forall_forall; intros q Hin; by apply Hq|].
    intros q Hin. unfold holding_tree. rewrite decide_True by done. by destruct (Hq q Hin) as (_ & _ & ? & ?).
Qed.

Lemma freewalk_tree `{!LinkerOk} s free t ts ex c : vm_inv s free (t :: ts) ex -> leaves t = ∅ ->
  (forall q, q ∈ pt_pages t -> ex q = 0) -> LKmem ∉ held c ->
  exists s' free', freewalk 3 (root t) c s = Ok tt c s' /\ vm_inv s' free' ts ex /\ agree (.∉ pt_pages t) (mem s) (mem s').
Proof.
  intros Hv Hl Hex Hc. pose proof (vm_rep _ _ _ _ Hv t ltac:(by left)) as Hr. destruct (vm_drop_tree _ _ _ _ _ Hv Hl) as [Hv1 Hs].
  destruct (freewalk_run 3 c ts Hc s free _ (root t) (tree_pages t) (tree_tbl _ _ Hr Hl) Hs Hv1) as (s' & free' & Hrun & Hv' & HA).
  exists s', free'. split; [done|]. split.
  - eapply vm_inv_ex; [|exact Hv']. intros q _. unfold without, holding_tree. repeat case_decide; try done. symmetry. apply Hex. by rewrite <- (elem_tree_pages _ _ _ Hr).
  - eapply agree_weaken; [|exact HA]. intros q Hq. intros Hin. apply Hq. by apply (elem_tree_pages _ _ _ Hr).
Qed.

Lemma leaf_nonneg m t v pte : pt_rep m t -> leaves t !! v = Some pte -> 0 <= v.
Proof.
  intros Hr Hv. destruct (rep_leaf_up _ _ Hr _ _ Hv) as [q Hq]. destruct (rep_l0_up _ _ Hr _ _ Hq) as [p Hp].
  apply (rep_l1_dom _ _ Hr) in Hp. Z.div_mod_to_equations. lia.
Qed.

(** What freeing [t] leaves alone: the bytes of the other address spaces and
    the pages the kernel holds. *)
Record gone (ex : Z -> Z) (ts : list ptree) (s : pmem) (free : list Z) (t : ptree) (s' : pmem) (free' : list Z) : Prop := {
  go_mem : agree (kheld free (t :: ts) ex) (mem s) (mem s');
  go_held : forall q, kheld free (t :: ts) ex q -> kheld free' ts ex q;
  go_others : forall t2 va, t2 ∈ ts -> uva va -> ubyte (mem s') t2 va = ubyte (mem s) t2 va;
}.

Lemma kheld_drop s' free free' t ts ex q : vm_inv s' free' ts ex -> kheld free (t :: ts) ex q -> kheld free' ts ex q.
Proof.
  intros Hv ([_ Hd] & Hu & He). assert (Hd' : forall t', t' ∈ ts -> q ∉ pt_pages t') by (intros t' Ht'; apply Hd; by right). split_and!; [split| |]; try done.
  - intros Hq. assert (Hp : valid_page q) by (pose proof (inv_valid _ _ (vm_kmem _ _ _ _ Hv)) as Hval; rewrite Forall_forall in Hval; by apply Hval).
    pose proof (vm_ref _ _ _ _ Hv q Hp Hd') as Hr. apply (inv_free _ _ (vm_kmem _ _ _ _ Hv) q Hp) in Hq. pose proof (total_nonneg q ts). specialize (He Hp). lia.
  - intros t' v pte Ht'. apply Hu. by right.
Qed.

Lemma uvmfree_run `{!LinkerOk} s free t ts ex sz c : vm_inv s free (t :: ts) ex -> ex_nonneg ex -> LKmem ∉ held c ->
  0 <= sz <= TRAPFRAME -> (forall v, vpn (PGROUNDUP sz) <= v -> leaves t !! v = None) -> (forall q, q ∈ pt_pages t -> ex q = 0) ->
  exists s' free', uvmfree (root t) sz c s = Ok tt c s' /\ vm_inv s' free' ts ex /\ gone ex ts s free t s' free'.
Proof.
  intros Hv Hex Hc Hsz Hup Hpt. destruct (roundup_facts sz Hsz) as (Ha & Hge & Hle).
  assert (exists s1 free1 t1, (if 0 <? sz then uvmunmap (root t) 0 (PGROUNDUP sz / PGSIZE) true else mret tt) c s = Ok tt c s1 /\
    frame ex ts s free t s1 free1 t1 /\ vm_inv s1 free1 (t1 :: ts) ex /\ leaves t1 = ∅ /\ pt_pages t1 = pt_pages t)
    as (s1 & free1 & t1 & Hr1 & Hf1 & Hv1 & Hl1 & Hp1).
  { destruct (Z.ltb_spec 0 sz) as [Hpos|].
    - assert (E : 0 + PGROUNDUP sz / PGSIZE * PGSIZE = PGROUNDUP sz) by (consts; Z.div_mod_to_equations; lia).
      destruct (uvmunmap_run s free t ts ex 0 (PGROUNDUP sz / PGSIZE) c Hv Hex Hc eq_refl) as
        (s1 & free1 & t1 & Hr1 & Hf1 & Hv1 & Hl1 & _ & Hp1); [lia|apply Z.div_pos; [lia|done]|lia|].
      exists s1, free1, t1. split_and!; [done..| |done]. rewrite E in Hl1. rewrite Hl1. apply map_eq. intros v.
      unfold unmapped_leaves. rewrite map_lookup_filter, lookup_empty. destruct (leaves t !! v) as [x|] eqn:Ex; [|done]. cbn.
      rewrite option_guard_False; [done|]. intros Hn. apply Hn. change (vpn 0) with 0.
      split; [by eapply leaf_nonneg; [apply (vm_rep _ _ _ _ Hv t); by left|]|]. destruct (Z_lt_le_dec v (vpn (PGROUNDUP sz))); [done|]. by rewrite Hup in Ex.
    - exists s, free, t. split_and!; [done|apply frame_refl|done| |done]. apply map_eq. intros v. rewrite lookup_empty.
      destruct (leaves t !! v) as [x|] eqn:Ex; [|done]. rewrite Hup in Ex; [done|]. assert (sz = 0) as -> by lia. change (vpn (PGROUNDUP 0)) with 0.
      by eapply leaf_nonneg; [apply (vm_rep _ _ _ _ Hv t); by left|]. }
  unfold uvmfree. rewrite (bind_ok _ _ _ _ _ _ _ Hr1), <- (fr_root _ _ _ _ _ _ _ _ Hf1).
  destruct (freewalk_tree s1 free1 t1 ts ex c Hv1 Hl1) as (s2 & free2 & Hr2 & Hv2 & HA); [by rewrite Hp1|done|].
  exists s2, free2. split; [done|]. split; [done|]. split.
  - intros x Hx. rewrite (HA (x)); [by apply (fr_mem _ _ _ _ _ _ _ _ Hf1)|]. apply (fr_held _ _ _ _ _ _ _ _ Hf1) in Hx as [[_ Hd] _]. apply Hd. by left.
  - intros q Hq. by apply (kheld_drop s2 free _ t).
  - intros t2 va Ht2 Hva. rewrite <- (fr_others _ _ _ _ _ _ _ _ Hf1) by done.
    eapply (ubyte_agree s1 free1 (t1 :: ts) ex t2 va (.∉ pt_pages t1)); [done|by right|done|done|].
    intros pte Hpte. apply (vm_leaf _ _ _ _ Hv1 t2 _ _ ltac:(by right) Hpte (uva_vpn va Hva)). by left.
Qed.

(** ** The mappings above user memory *)

Lemma slot_hits_upper pa v o : UVPN <= v -> slot_hits pa v o = 0.
Proof. intros Hv. destruct o as [pte|]; [|done]. apply hits_zero. intros [Hu _]. lia. Qed.

(** [uvmunmap(pagetable, va, 1, 0)] of the trampoline or of the trap frame. *)
Lemma unmap_upper `{!LinkerOk} s free t ts ex va c : vm_inv s free (t :: ts) ex -> va mod PGSIZE = 0 -> TRAPFRAME <= va < MAXVA ->
  exists s' t', uvmunmap (root t) va 1 false c s = Ok tt c s' /\ vm_inv s' free (t' :: ts) ex /\ root t' = root t /\
    leaves t' = delete (vpn va) (leaves t) /\ pt_pages t' = pt_pages t /\ agree (.∉ pt_pages t) (mem s) (mem s').
Proof.
  intros Hv Ha Hva. pose proof (vm_tree_ok _ _ _ _ _ Hv) as Ht. assert (Hm : 0 <= va < MAXVA) by klia.
  unfold uvmunmap. rewrite Ha. change (negb (0 =? 0)) with false. cbv iota. change (Z.to_nat 1) with 1%nat. change (u64 (1 * PGSIZE)) with PGSIZE.
  rewrite u64_id by klia. cbn [uvmunmap_loop]. destruct (Z.ltb_spec va (va + PGSIZE)); [|klia].
  rewrite (bind_ok _ _ _ _ _ _ _ (walk_lookup s t va c (tok_rep _ _ _ Ht) Hm)).
  assert (Hend : forall s2, (if u64 (va + PGSIZE) <? va + PGSIZE then @nofuel pmem unit else mret tt) c s2 = Ok tt c s2).
  { intros s2. rewrite u64_id by klia. by rewrite Z.ltb_irrefl. }
  destruct (Z.eqb_spec (leaf_addr t va) 0) as [E|E].
  { exists s, t. erewrite bind_ok; [|reflexivity]. split; [apply Hend|]. split_and!; try done. by rewrite delete_id by (by apply (unmapped_no_leaf _ _ _ _ Ht E)). }
  rewrite (bind_ok _ _ c s tt c (if bool_decide (is_Some (leaves t !! vpn va)) then set_mem (fun m => st64 m (leaf_addr t va) 0) s else s)).
  2: { rewrite (bind_ok _ _ c s (ld64 (mem s) (leaf_addr t va)) c s) by done. rewrite (leaf_addr_load _ _ _ (tok_rep _ _ _ Ht) E), (leaf_flag _ _ _ _ Ht E).
       by destruct (leaves t !! vpn va). }
  eexists _, (put_leaf va 0 t). split; [apply Hend|]. case_bool_decide as El.
  - split; [|split; [done|split; [done|split; [done|]]]].
    + eapply vm_inv_ex; [|apply vm_store_leaf; [exact Hv|done|by left]]. intros q _. cbv beta.
      assert (UVPN <= vpn va) by (unfold UVPN, vpn; apply Z.div_le_mono; klia). rewrite !slot_hits_upper by done. lia.
    + apply (store_leaf s free t va 0 Ht E). by left.
  - assert (El' : leaves t !! vpn va = None) by (destruct (leaves t !! vpn va); [by destruct El|done]).
    assert (put_leaf va 0 t = t) as ->. { destruct t. unfold put_leaf, set_leaves. cbn in *. f_equal. by apply delete_id. }
    split_and!; try done. by rewrite delete_id.
Qed.

(** What mapping something above user memory leaves alone. *)
Record uframe (ts : list ptree) (s : pmem) (free : list Z) (t : ptree) (s' : pmem) (free' : list Z) (t' : ptree) : Prop := {
  uf_root : root t' = root t;
  uf_mem : agree (data_page free (t :: ts)) (mem s) (mem s');
  uf_data : forall q, data_page free (t :: ts) q -> data_page free' (t' :: ts) q;
  uf_user : forall v, v < UVPN -> leaves t' !! v = leaves t !! v;
}.

Lemma map_upper `{!LinkerOk} s free t ts ex va pa perm c : vm_inv s free (t :: ts) ex -> va mod PGSIZE = 0 -> TRAPFRAME <= va < MAXVA ->
  leaves t !! vpn va = None -> phys_page pa -> 0 <= perm < 1024 -> LKmem ∉ held c ->
  exists r s' free' t', mappages (root t) va PGSIZE pa perm c s = Ok r c s' /\ vm_inv s' free' (t' :: ts) ex /\ uframe ts s free t s' free' t' /\
    ((r = -1 /\ leaves t' = leaves t) \/ (r = 0 /\ leaves t' = <[vpn va := Z.lor (PA2PTE pa) (Z.lor perm PTE_V)]> (leaves t))).
Proof.
  intros Hv Hal Hva Hnone Hp Hperm Hl. assert (Hm : 0 <= va < MAXVA) by klia.
  assert (Hup : UVPN <= vpn va) by (unfold UVPN, vpn; apply Z.div_le_mono; klia).
  destruct (mappages_page s free t va pa perm c (vm_tree_ok _ _ _ _ _ Hv) Hal Hm Hnone Hl)
    as (r & s' & free' & t' & new & Hrun & [(-> & -> & Hlen & Hg)|(-> & Hlen & Ha & s1 & Hg & ->)]).
  { exists (-1), s', [], t'. split; [done|]. split; [by eapply vm_grows|]. split; [|left; split; [done|apply Hg]].
    split; [apply Hg|by eapply grows_data|by intros q; eapply grows_data_page|]. intros v _. by rewrite (gr_leaves _ _ _ _ _ _ _ Hg). }
  pose proof (vm_grows _ _ _ _ _ _ _ _ _ Hv Hg) as Hv1. set (pte := Z.lor (PA2PTE pa) (Z.lor perm PTE_V)).
  assert (Hok : leaf_ok pte).
  { pose proof (lor_perm_bound perm Hperm) as Hb. split.
    - unfold pte. rewrite flag_pack by done. unfold flag. rewrite Z.land_lor_distr_l. by destruct (Z.lor _ _ =? 0) eqn:E; [apply Z.eqb_eq, Z.lor_eq_0_iff in E as [_ E]|].
    - unfold pte. destruct Hp. rewrite lor_low by (done || by apply PA2PTE_low). rewrite PA2PTE_eq by done. consts. Z.div_mod_to_equations. lia. }
  pose proof (pte_nonzero _ (proj1 Hok)) as Hnz.
  exists 0, (set_mem (fun m => st64 m (leaf_addr t' va) pte) s1), free', (put_leaf va pte t'). split; [done|]. split; [|split; [split|]].
  - eapply vm_inv_ex; [|apply vm_store_any; [exact Hv1|done|right; split; [done|lia]]]. intros q _. cbv beta. rewrite !slot_hits_upper by done. lia.
  - apply Hg.
  - eapply agree_trans; [by eapply grows_data|]. eapply agree_weaken; [|apply (store_leaf s1 free' t' va pte (gr_ok _ _ _ _ _ _ _ Hg) Ha); by right].
    intros q Hq. apply (grows_data_page _ _ _ _ _ _ _ _ q Hg Hq). list_mem.
  - intros q Hq. by eapply store_data_page, grows_data_page.
  - intros v Hvv. rewrite put_leaf_lookup, decide_False by lia. by rewrite (gr_leaves _ _ _ _ _ _ _ Hg).
  - right. split; [done|]. unfold put_leaf. simpl. by rewrite Hnz, (gr_leaves _ _ _ _ _ _ _ Hg).
Qed.
End free.
