(* ===== verification/VmSafe.v ===== *)
(** * Safety of the virtual-memory system as a whole

    A machine whose state is physical memory and the address spaces of the
    processes, driven by any sequence of the operations of kernel/vm.c that
    the rest of the kernel performs on behalf of user code (creation, growth,
    lazy growth, shrinking, fork, page faults, copies out of the kernel, release) and
    of stores by user code itself. Whatever the sequence, as long as the sizes
    asked for stay below the trapframe page, no operation panics, no page that
    one address space can write is visible in another, and no page is lost. *)

From S2P Require Import Prelude Riscv Mem Kalloc Vm VmTree VmInv VmOps VmUser VmCopy VmFree.

(** ** The machine *)

(** An address space: [p->pagetable] and [p->sz] of struct proc. *)
Record aspace := ASpace { as_root : Z; as_sz : Z }.

Record conf := Conf { phys : pmem; spaces : list aspace }.

Definition set_phys (s : pmem) (k : conf) : conf := Conf s (spaces k).
Definition set_spaces (sp : list aspace) (k : conf) : conf := Conf (phys k) sp.

Section machine.
Context `{LK : Linker}.

Definition on_phys {A} (m : M pmem A) : M conf A := zoom phys set_phys m.

(** A store instruction of user code: the hardware walks the page table and
    requires the valid, user and writable bits. *)
Definition user_store (pagetable va b : Z) : M pmem unit :=
  pte ← walk pagetable va false;
  if pte =? 0 then mret tt
  else
    v ← load64 pte;
    if flag v PTE_V && flag v PTE_U && flag v PTE_W
    then modify (set_mem (fun m => st8 m (PTE2PA v + va mod PGSIZE) b))
    else mret tt.

(** The entry for a virtual address, as the hardware finds it. *)
Definition user_entry (s : pmem) (pagetable va : Z) : option Z :=
  match walk pagetable va false (Ctx ∅ [] 0 1) s with
  | Ok pte _ _ =>
      let v := ld64 (mem s) pte in
      if (pte =? 0) || negb (flag v PTE_V) then None else Some v
  | _ => None
  end.

(** The byte process [j] has at a virtual address. *)
Definition view (k : conf) (j : nat) (va : Z) : option Z :=
  a ← spaces k !! j;
  v ← user_entry (phys k) (as_root a) va;
  Some (ld8 (mem (phys k)) (PTE2PA v + va mod PGSIZE)).

Inductive vm_op :=
  | OpCreate
  | OpGrow (i : nat) (newsz xperm : Z)
  | OpLazy (i : nat) (newsz : Z)
  | OpShrink (i : nat) (newsz : Z)
  | OpFork (i j : nat)
  | OpFault (i : nat) (va : Z) (read : bool)
  | OpCopyout (i : nat) (dstva src len : Z)
  | OpStore (i : nat) (va b : Z)
  | OpFree (i : nat).

Definition set_size (i : nat) (a : aspace) (sz : Z) : M conf unit :=
  modify (fun k => set_spaces (<[i := ASpace (as_root a) sz]> (spaces k)) k).

(** The arguments within the layout of user memory: a size stays below the
    trapframe page, permissions fit in an entry, addresses are unsigned, and
    [copyout] copies from memory of the kernel. The kernel does not check the
    sizes: neither [growproc] nor the lazy branch of [sys_sbrk] compares the new
    size with [TRAPFRAME]. *)
Definition proper (op : vm_op) : bool :=
  match op with
  | OpGrow _ newsz xperm => (0 <=? newsz) && (newsz <=? TRAPFRAME) && (0 <=? xperm) && (xperm <? 1024)
  | OpLazy _ newsz => newsz <=? TRAPFRAME
  | OpShrink _ newsz => 0 <=? newsz
  | OpFault _ va _ => 0 <=? va
  | OpCopyout _ dstva src len => (0 <=? dstva) && (0 <=? len) && (0 <=? src) && (src + len <=? kend)
  | OpStore _ va _ => (0 <=? va) && (va <? TRAPFRAME)
  | OpCreate | OpFork _ _ | OpFree _ => true
  end.

(** One operation: the calls of kernel/vm.c and the changes to [p->sz] of
    [growproc] (growth and shrinking), [sys_sbrk] (lazy growth; the size [newsz]
    is [addr + n]), [kfork] (into the empty address space of a new process),
    [usertrap], [copyout] and [proc_freepagetable]. Nothing is done for a process
    that does not exist. *)
Definition exec (op : vm_op) : M conf unit :=
  sp ← gets spaces;
  match op with
  | OpCreate =>
      r ← on_phys uvmcreate;
      if r =? 0 then mret tt else modify (fun k => set_spaces (spaces k ++ [ASpace r 0]) k)
  | OpGrow i newsz xperm =>
      match sp !! i with
      | Some a =>
          r ← on_phys (uvmalloc (as_root a) (as_sz a) newsz xperm);
          if r =? 0 then mret tt else set_size i a r
      | None => mret tt
      end
  | OpLazy i newsz =>
      match sp !! i with
      | Some a => if newsz <? as_sz a then mret tt else set_size i a newsz
      | None => mret tt
      end
  | OpShrink i newsz =>
      match sp !! i with
      | Some a =>
          r ← on_phys (uvmdealloc (as_root a) (as_sz a) newsz);
          set_size i a r
      | None => mret tt
      end
  | OpFork i j =>
      match sp !! i, sp !! j with
      | Some a, Some b =>
          if negb (i =? j)%nat && (as_sz b =? 0) then
            r ← on_phys (uvmcopy (as_root a) (as_root b) (as_sz a));
            if r =? 0 then set_size j b (as_sz a) else mret tt
          else mret tt
      | _, _ => mret tt
      end
  | OpFault i va read =>
      match sp !! i with
      | Some a => r ← on_phys (vmfault (as_sz a) (as_root a) va read); mret tt
      | None => mret tt
      end
  | OpCopyout i dstva src len =>
      match sp !! i with
      | Some a => r ← on_phys (copyout (as_sz a) (as_root a) dstva src len); mret tt
      | None => mret tt
      end
  | OpStore i va b =>
      match sp !! i with
      | Some a => on_phys (user_store (as_root a) va b)
      | None => mret tt
      end
  | OpFree i =>
      match sp !! i with
      | Some a =>
          on_phys (uvmfree (as_root a) (as_sz a));;
          modify (fun k => set_spaces (delete i (spaces k)) k)
      | None => mret tt
      end
  end.

(** The address space whose contents an operation may change. *)
Definition target (op : vm_op) : option nat :=
  match op with
  | OpCreate => None
  | OpGrow i _ _ | OpLazy i _ | OpShrink i _ | OpFault i _ _ | OpCopyout i _ _ _ | OpStore i _ _ | OpFree i => Some i
  | OpFork _ j => Some j
  end.

(** Where the address space at [j] is afterwards: those behind a released one
    move up. *)
Definition after (op : vm_op) (j : nat) : nat :=
  match op with OpFree i => if (i <? j)%nat then pred j else j | _ => j end.

Definition exec_all (ops : list vm_op) : M conf unit := for_each ops exec.

(** The machine when [kinit] has run on memory [m]. *)
Definition boot (m : gmap Z Z) : M conf unit :=
  put (Conf (Pmem m 0 ∅) []);;
  on_phys kinit.

(** ** Creation *)

Definition no_leaves (p : Z) : ptree := PTree p ∅ ∅ ∅.

Lemma no_leaves_rep `{!LinkerOk} m p : valid_page p ->
  (forall j, 0 <= j < 512 -> ld64 m (p + 8 * j) = 0) -> pt_rep m (no_leaves p).
Proof.
  intros Hp Hz. split; simpl; try (intros; by rewrite lookup_empty in * || done).
  - intros i Hi. rewrite lookup_empty. by apply Hz.
  - change (NoDup [p]). constructor; [set_solver|constructor].
  - change (Forall valid_page [p]). constructor; [done|constructor].
Qed.

Lemma vm_new_tree `{!LinkerOk} s free ts ex p : vm_inv s free ts (bump ex p 1) -> ex_nonneg ex ->
  valid_page p -> data_page free ts p -> ref s p = 1 ->
  (forall j, 0 <= j < 512 -> ld64 (mem s) (p + 8 * j) = 0) ->
  vm_inv s free (no_leaves p :: ts) ex.
Proof.
  intros Hv Hex Hp [Hf Hd] Hr Hz. pose proof (vm_ref _ _ _ _ Hv p Hp Hd) as Hrp.
  unfold bump in Hrp. rewrite decide_True in Hrp by done. pose proof (Hex p). pose proof (total_nonneg p ts).
  assert (forall t v pte, t ∈ no_leaves p :: ts -> leaves t !! v = Some pte -> t ∈ ts /\ leaves t !! v = Some pte) as Hlv.
  { intros t v pte [->|Ht]%elem_of_cons Hl; [|done]. cbn [no_leaves leaves] in Hl. by rewrite lookup_empty in Hl. }
  split.
  - apply Hv.
  - intros t [->|Ht]%elem_of_cons; [by apply no_leaves_rep|by apply (vm_rep _ _ _ _ Hv)].
  - change (NoDup (p :: (ts ≫= pt_pages))). constructor; [|apply Hv].
    intros (t & Hin & Ht)%list_elem_of_bind. by apply (Hd t).
  - intros t q [->|Ht]%elem_of_cons; [intros ->%list_elem_of_singleton; done|by apply (vm_pt_ref _ _ _ _ Hv t)].
  - intros t v pte Ht Hl Hu. destruct (Hlv _ _ _ Ht Hl) as [Ht' _].
    destruct (vm_leaf _ _ _ _ Hv t v pte Ht' Hl Hu) as (? & ? & Hd'). split_and!; try done.
    intros t' [->|Ht2]%elem_of_cons; [|by apply Hd']. intros E%list_elem_of_singleton.
    pose proof (total_mapped p ts t v pte Ht' Hl (conj Hu E)). lia.
  - intros pa Hpa Hd'. rewrite total_cons. change (mapcount pa (leaves (no_leaves p))) with 0.
    assert (pa <> p) as Hne. { intros ->. apply (Hd' (no_leaves p)); [list_mem|]. by apply list_elem_of_singleton. }
    rewrite (vm_ref _ _ _ _ Hv pa Hpa) by (intros t Ht; apply Hd'; list_mem).
    unfold bump. rewrite decide_False by done. lia.
  - intros t v pte Ht Hl Hu. destruct (Hlv _ _ _ Ht Hl) as [Ht' _]. by apply (vm_w _ _ _ _ Hv t v pte).
Qed.

Lemma uvmcreate_run `{!LinkerOk} s free ts ex c : vm_inv s free ts ex -> ex_nonneg ex -> LKmem ∉ held c ->
  exists r s' free', uvmcreate c s = Ok r c s' /\
    ((r = 0 /\ free = [] /\ s' = s) \/
     (r <> 0 /\ free = r :: free' /\ vm_inv s' free' (no_leaves r :: ts) ex /\ agree (data_page free ts) (mem s) (mem s') /\
      forall t va, t ∈ ts -> uva va -> ubyte (mem s') t va = ubyte (mem s) t va)).
Proof.
  intros Hv Hex Hl. unfold uvmcreate. destruct free as [|p rest].
  { exists 0, s, []. rewrite (bind_ok _ _ _ _ _ _ _ (kalloc_empty s c (vm_kmem _ _ _ _ Hv) Hl)). split; [done|by left]. }
  assert (p mod PGSIZE = 0) as Ha.
  { pose proof (inv_valid _ _ (vm_kmem _ _ _ _ Hv)) as Hval. inversion_clear Hval. by apply valid_page_aligned. }
  set (s1 := set_mem (fun m => memset m p 0 PGSIZE) (alloc_state s p)).
  destruct (vm_fresh s p rest ts ex s1 Hv) as (Hp & Hv1 & Hpd & Hr1 & HA1 & _); [done..|by apply agree_memset|].
  pose proof (valid_page_pos p Hp) as Hpos. exists p, s1, rest.
  rewrite (bind_ok _ _ _ _ _ _ _ (kalloc_run s p rest c (vm_kmem _ _ _ _ Hv) Hl)).
  destruct (Z.eqb_spec p 0); [klia|]. rewrite (bind_ok _ _ _ _ tt c s1) by done. split; [done|]. right.
  split; [done|]. split; [done|]. split.
  - apply vm_new_tree; [done..|]. intros j Hj. unfold s1. cbn [mem set_mem].
    apply ldn_memset_zero; consts; lia.
  - split; [exact HA1|]. intros t va Ht Hva. eapply ubyte_data; [exact Hv|done|done|exact HA1].
Qed.

(** ** The invariant *)

(** An address space is represented by a tree whose leaves lie below its
    size. *)
Record space_ok (a : aspace) (t : ptree) : Prop := {
  so_root : as_root a = root t;
  so_sz : 0 <= as_sz a <= TRAPFRAME;
  so_leaves : forall v, vpn (PGROUNDUP (as_sz a)) <= v -> leaves t !! v = None;
}.

(** No page is held outside the address spaces. *)
Definition conf_ok (k : conf) : Prop :=
  exists free ts, vm_inv (phys k) free ts (fun _ => 0) /\ Forall2 space_ok (spaces k) ts.

Lemma zero_small : ex_small (fun _ => 0).
Proof. intros q. lia. Qed.

Lemma zero_nonneg : ex_nonneg (fun _ => 0).
Proof. intros q. lia. Qed.

Lemma vpn_mono a b : a <= b -> vpn a <= vpn b.
Proof. intros. by apply Z.div_le_mono. Qed.

Lemma vpn_below v sz : 0 <= sz <= TRAPFRAME -> v * PGSIZE < sz -> v < vpn (PGROUNDUP sz).
Proof.
  intros Hs Hv. destruct (roundup_facts sz Hs) as (? & ? & _). unfold vpn. consts.
  Z.div_mod_to_equations. lia.
Qed.

Lemma space_kernel_leaves a t : space_ok a t -> kernel_leaves t.
Proof.
  intros [_ Hs Hl] v pte Hv E. rewrite Hl in E; [done|].
  destruct (roundup_facts _ Hs) as (_ & _ & H). apply vpn_mono in H. unfold UVPN, vpn in *. lia.
Qed.

Lemma space_resize a t sz : space_ok a t -> as_sz a <= sz <= TRAPFRAME ->
  space_ok (ASpace (as_root a) sz) t.
Proof.
  intros [Hr Hs Hl] Hle. split; simpl; [done|lia|]. intros v Hv. apply Hl.
  pose proof (vpn_mono _ _ (roundup_mono (as_sz a) sz ltac:(lia) ltac:(lia) ltac:(lia))). lia.
Qed.

Lemma space_within a t t' : space_ok a t -> root t' = root t -> within (as_sz a) t t' -> space_ok a t'.
Proof.
  intros [Hr Hs Hl] E Hw. split; [congruence|done|]. intros v Hv.
  destruct (Hw v (Hl v Hv)) as [?|Hlt]; [done|]. apply vpn_below in Hlt; [lia|done].
Qed.

(** ** One address space of the machine *)

Lemma delete_insert_list {A} (l : list A) i x : delete i (<[i := x]> l) = delete i l.
Proof. revert i. induction l as [|y l IH]; intros [|i]; simpl; [done..|]. f_equal. apply IH. Qed.

Lemma delete_ge_list {A} (l : list A) i : (length l <= i)%nat -> delete i l = l.
Proof. revert i. induction l as [|y l IH]; intros [|i] Hi; cbn in *; [done..|lia|]. f_equal. apply IH. lia. Qed.

Lemma insert_Permutation {A} (l : list A) i x y : l !! i = Some x -> <[i := y]> l ≡ₚ y :: delete i l.
Proof.
  intros Hi. rewrite <- (delete_insert_list l i y). apply delete_Permutation.
  apply list_lookup_insert_eq. by eapply lookup_lt_Some.
Qed.

Lemma user_entry_leaf `{!LinkerOk} s free t va : tree_ok s free t -> uva va ->
  user_entry s (root t) va = leaves t !! vpn va.
Proof.
  intros Ht Hva. unfold user_entry. rewrite walk_lookup; [|apply Ht|unfold uva in Hva; klia].
  destruct (Z.eqb_spec (leaf_addr t va) 0) as [E|E]; [by rewrite (unmapped_no_leaf _ _ _ _ Ht E)|].
  rewrite (leaf_addr_load _ _ _ (tok_rep _ _ _ Ht) E), (leaf_flag _ _ _ _ Ht E). unfold leaf.
  by destruct (leaves t !! vpn va).
Qed.

Lemma vm_tree_in s free ts ex t : vm_inv s free ts ex -> t ∈ ts -> tree_ok s free t.
Proof.
  intros Hv [ts' HP]%elem_of_Permutation. eapply (vm_tree_ok s free t ts').
  by eapply vm_inv_perm.
Qed.

Lemma view_ubyte `{!LinkerOk} s free ts ex sp j t va : vm_inv s free ts ex -> Forall2 space_ok sp ts ->
  ts !! j = Some t -> uva va -> view (Conf s sp) j va = ubyte (mem s) t va.
Proof.
  intros Hv Hsp Hj Hva. destruct (Forall2_lookup_r _ _ _ _ _ Hsp Hj) as (a & Ha & Hok).
  unfold view. cbn [spaces phys]. rewrite Ha. cbn [mbind option_bind]. rewrite (so_root _ _ Hok).
  rewrite (user_entry_leaf s free t va); [done| |done]. eapply vm_tree_in; [done|]. by eapply list_elem_of_lookup_2.
Qed.

(** What a step guarantees: the invariant, and that the address spaces other
    than its target keep their contents. *)
Definition step_ok (tgt : option nat) (k k' : conf) : Prop :=
  conf_ok k' /\ forall j va, Some j <> tgt -> (j < length (spaces k))%nat -> uva va -> view k' j va = view k j va.

Lemma delete_lookup_ne {A} (l : list A) i j x : i <> j -> l !! j = Some x -> x ∈ delete i l.
Proof.
  intros Hne Hj. apply list_elem_of_lookup. destruct (decide (j < i)%nat).
  - exists j. by rewrite list_lookup_delete_lt.
  - exists (pred j). rewrite list_lookup_delete_ge by lia. by replace (S (pred j)) with j by lia.
Qed.

(** An operation on the address space at [i] is an operation on the first
    tree beside the others. *)
Lemma conf_focus `{!LinkerOk} k i a : conf_ok k -> spaces k !! i = Some a ->
  exists free t ts, vm_inv (phys k) free (t :: ts) (fun _ => 0) /\ space_ok a t /\
    forall s' free' t' a', vm_inv s' free' (t' :: ts) (fun _ => 0) -> space_ok a' t' ->
      (forall t2 va, t2 ∈ ts -> uva va -> ubyte (mem s') t2 va = ubyte (mem (phys k)) t2 va) ->
      step_ok (Some i) k (Conf s' (<[i := a']> (spaces k))).
Proof.
  destruct k as [s sp]. intros (free & ts & Hv & Hsp) Hi. cbn [phys spaces] in *.
  destruct (Forall2_lookup_l _ _ _ _ _ Hsp Hi) as (t & Ht & Hok).
  exists free, t, (delete i ts). split; [|split; [done|]].
  - eapply vm_inv_perm; [|exact Hv]. by apply delete_Permutation.
  - intros s' free' t' a' Hv' Hok' Hview. assert (Forall2 space_ok (<[i := a']> sp) (<[i := t']> ts)) as Hsp' by (by apply Forall2_insert).
    apply (vm_inv_perm _ _ _ (<[i := t']> ts)) in Hv'; [|symmetry; by eapply insert_Permutation].
    split; [by exists free', (<[i := t']> ts)|]. intros j va Hj Hlen Hva. cbn [spaces] in Hlen.
    rewrite (Forall2_length _ _ _ Hsp) in Hlen. destruct (lookup_lt_is_Some_2 _ _ Hlen) as [u Hu].
    assert (i <> j) as Hne by congruence.
    rewrite (view_ubyte s' free' (<[i := t']> ts) _ _ j u va Hv' Hsp') by (done || by rewrite list_lookup_insert_ne).
    rewrite (view_ubyte s free ts _ _ j u va Hv Hsp) by done. apply Hview; [|done].
    by apply (delete_lookup_ne ts i j).
Qed.

Lemma conf_same tgt k i a s' : spaces k !! i = Some a ->
  step_ok tgt k (Conf s' (<[i := a]> (spaces k))) -> step_ok tgt k (set_phys s' k).
Proof. intros Hi. unfold set_phys. by rewrite list_insert_id. Qed.

Lemma on_phys_ok {A} (m : M pmem A) c k r s' :
  m c (phys k) = Ok r c s' -> on_phys m c k = Ok r c (set_phys s' k).
Proof. intros H. unfold on_phys, zoom. by rewrite H. Qed.

Lemma set_size_ok i a sz c k :
  set_size i a sz c k = Ok tt c (Conf (phys k) (<[i := ASpace (as_root a) sz]> (spaces k))).
Proof. done. Qed.

Lemma trees_nodup s free ts ex : vm_inv s free ts ex -> NoDup ts.
Proof.
  intros Hv. pose proof (vm_nodup _ _ _ _ Hv) as Hn. clear Hv. induction ts as [|t ts IH]; [constructor|].
  change (NoDup (pt_pages t ++ (ts ≫= pt_pages))) in Hn. apply NoDup_app in Hn as (_ & Hd & Hn).
  constructor; [|by apply IH]. intros Hin. apply (Hd (root t)); [apply root_in|].
  apply list_elem_of_bind. exists t. split; [apply root_in|done].
Qed.

(** The same for a fork, whose target is the child. *)
Lemma conf_focus2 `{!LinkerOk} k i j a b : conf_ok k -> i <> j ->
  spaces k !! i = Some a -> spaces k !! j = Some b ->
  exists free t u ts, vm_inv (phys k) free (t :: u :: ts) (fun _ => 0) /\ space_ok a t /\ space_ok b u /\
    forall s' free' t' u' b', vm_inv s' free' (t' :: u' :: ts) (fun _ => 0) ->
      space_ok a t' -> space_ok b' u' ->
      (forall t2 va, t2 ∈ ts -> uva va -> ubyte (mem s') t2 va = ubyte (mem (phys k)) t2 va) ->
      (forall va, uva va -> ubyte (mem s') t' va = ubyte (mem (phys k)) t va) ->
      step_ok (Some j) k (Conf s' (<[j := b']> (spaces k))).
Proof.
  destruct k as [s sp]. intros (free & ts & Hv & Hsp) Hne Hi Hj. cbn [phys spaces] in *.
  destruct (Forall2_lookup_l _ _ _ _ _ Hsp Hi) as (t & Ht & Ha).
  destruct (Forall2_lookup_l _ _ _ _ _ Hsp Hj) as (u & Hu & Hb).
  pose proof (delete_lookup_ne ts i j u Hne Hu) as Hin.
  apply elem_of_Permutation in Hin as [rest HP]. exists free, t, u, rest. split; [|split; [done|split; [done|]]].
  - eapply vm_inv_perm; [|exact Hv]. rewrite <- HP. by apply delete_Permutation.
  - intros s' free' t' u' b' Hv' Ha' Hb' Hview Hpar. set (ts' := <[j := u']> (<[i := t']> ts)).
    assert (Forall2 space_ok (<[j := b']> sp) ts') as Hsp'.
    { rewrite <- (list_insert_id sp i a Hi). apply Forall2_insert; [by apply Forall2_insert|done]. }
    assert (<[i := t']> ts !! j = Some u) as Hju by (by rewrite list_lookup_insert_ne).
    assert (ts' ≡ₚ t' :: u' :: rest) as HP'.
    { unfold ts'. rewrite (insert_Permutation _ j u u' Hju).
      etransitivity; [|apply perm_swap]. constructor.
      apply (Permutation_cons_inv (a := u)). rewrite <- (delete_Permutation _ _ _ Hju).
      rewrite (insert_Permutation ts i t t' Ht), HP. apply perm_swap. }
    apply (vm_inv_perm _ _ _ ts') in Hv'; [|by symmetry].
    split; [by exists free', ts'|]. intros n va Hn Hlen Hva. cbn [spaces] in Hlen.
    rewrite (Forall2_length _ _ _ Hsp) in Hlen. destruct (lookup_lt_is_Some_2 _ _ Hlen) as [w Hw].
    assert (j <> n) as Hjn by congruence. rewrite (view_ubyte s free ts _ _ n w va Hv Hsp) by done.
    destruct (decide (n = i)) as [->|Hni].
    + rewrite (view_ubyte s' free' ts' _ _ i t' va Hv' Hsp'); [|unfold ts'; rewrite list_lookup_insert_ne by done;
        apply list_lookup_insert_eq; by eapply lookup_lt_Some|done]. rewrite Hpar by done. congruence.
    + rewrite (view_ubyte s' free' ts' _ _ n w va Hv' Hsp') by
        (done || (unfold ts'; by rewrite !list_lookup_insert_ne)).
      apply Hview; [|done].
      assert (w ∈ t :: u :: rest) as Hin.
      { rewrite <- HP, <- (delete_Permutation _ _ _ Ht). by eapply list_elem_of_lookup_2. }
      pose proof (trees_nodup _ _ _ _ Hv) as Hnd.
      apply elem_of_cons in Hin as [->|[->|Hin]%elem_of_cons]; [| |done].
      * by destruct (Hni (NoDup_lookup _ _ _ _ Hnd Hw Ht)).
      * by destruct (Hjn (NoDup_lookup _ _ _ _ Hnd Hu Hw)).
Qed.

(** The kernel's own image is not managed by the allocator. *)
Lemma kernel_kheld `{!LinkerOk} s free ts ex x : vm_inv s free ts ex -> x < kend ->
  kheld free ts ex (PGROUNDDOWN x).
Proof.
  intros Hv Hx. assert (~ valid_page (PGROUNDDOWN x)) as Hn.
  { intros (_ & Hge & _). rewrite PGROUNDDOWN_eq in Hge.
    pose proof (Z.mod_pos_bound x PGSIZE ltac:(done)). lia. }
  assert (Forall valid_page free) as Hf by apply Hv. rewrite Forall_forall in Hf. split_and!; [split| |done].
  - intros Hin. by apply Hn, Hf.
  - intros t Ht Hin. apply Hn. eapply rep_valid_in; [by apply (vm_rep _ _ _ _ Hv)|done].
  - intros t v pte Ht Hl Hu E. apply Hn. rewrite <- E. by apply (vm_leaf _ _ _ _ Hv t v pte).
Qed.

(** A store by user code. *)
Lemma user_store_run `{!LinkerOk} s free t ts ex va b c :
  vm_inv s free (t :: ts) ex -> ex_nonneg ex -> uva va ->
  exists s', user_store (root t) va b c s = Ok tt c s' /\ vm_inv s' free (t :: ts) ex /\
    frame ex ts s free t s' free t.
Proof.
  intros Hv Hex Hva. pose proof (vm_tree_ok _ _ _ _ _ Hv) as Ht. unfold user_store.
  assert (0 <= va < MAXVA) as Hm by (unfold uva in Hva; klia).
  rewrite (bind_ok _ _ _ _ _ _ _ (walk_lookup s t va c (tok_rep _ _ _ Ht) Hm)).
  destruct (Z.eqb_spec (leaf_addr t va) 0) as [E|E].
  { exists s. split_and!; [done..|apply frame_refl]. }
  rewrite (bind_ok _ _ c s (ld64 (mem s) (leaf_addr t va)) c s) by done.
  rewrite (leaf_addr_load _ _ _ (tok_rep _ _ _ Ht) E), (leaf_flag _ _ _ _ Ht E). unfold leaf.
  destruct (leaves t !! vpn va) as [v|] eqn:Ev.
  2: { exists s. split_and!; [done..|apply frame_refl]. }
  cbn [default]. rewrite bool_decide_eq_true_2 by done. cbn [andb].
  destruct (_ && _) eqn:Ef. 2: { exists s. split_and!; [done..|apply frame_refl]. }
  apply andb_true_iff in Ef as [_ Hw]. eexists. split; [done|].
  destruct (vm_leaf _ _ _ _ Hv t _ _ ltac:(list_mem) Ev (uva_vpn va Hva)) as (Hp & _ & _).
  destruct (vm_write_page s free t ts ex va v (set_mem (fun m => st8 m (PTE2PA v + va mod PGSIZE) b) s)
    Hv Hex Hva Ev Hw) as (Hv' & Hfr & _); [done|done| |done].
  intros x Hx. cbn [mem set_mem]. apply ld8_st8_ne. intros E2.
  apply Hx. rewrite <- E2. apply page_offset. by apply valid_page_aligned.
Qed.

Lemma fork_spaces a b t u t' u' r : space_ok a t -> space_ok b u -> as_sz b = 0 ->
  root t' = root t -> root u' = root u -> copy_result 0 (as_sz a) t u t' u' r ->
  space_ok a t' /\ space_ok (if r =? 0 then ASpace (as_root b) (as_sz a) else b) u'.
Proof.
  intros [Ra Sa La] [Rb Sb Lb] Hz Et Eu Hres. rewrite Hz in Lb. change (vpn (PGROUNDUP 0)) with 0 in Lb.
  destruct (roundup_facts _ Sa) as (_ & Hge & _).
  assert (0 <= vpn (PGROUNDUP (as_sz a))) as Hnn by (apply Z.div_pos; [lia|done]).
  destruct Hres as [(-> & Ht & Hu)|(-> & H1 & H2 & H3)].
  - split; split; simpl; try done; try congruence; intros v Hv.
    + rewrite Ht, decide_False by lia. by apply La.
    + rewrite Hu, decide_False by lia. apply Lb. lia.
  - split; split; simpl; try done; try congruence; intros v Hv.
    + destruct (H3 v) as [->| ->]; rewrite La by done; done.
    + rewrite Hz in Hv. change (vpn (PGROUNDUP 0)) with 0 in Hv.
      destruct (decide (0 <= v < UVPN)); [by apply H1|]. rewrite H2 by done. by apply Lb.
Qed.

(** ** Every operation returns and preserves the invariant *)

Lemma same_size k i a : spaces k !! i = Some a -> set_spaces (<[i := ASpace (as_root a) (as_sz a)]> (spaces k)) k = k.
Proof. intros Hi. destruct k as [s sp], a as [r sz]. unfold set_spaces. cbn [as_root as_sz phys spaces] in *. by rewrite list_insert_id. Qed.

Section steps.
Context `{LKO : !LinkerOk} (k : conf) (c : ctx).
Hypothesis Hk : conf_ok k.
Hypothesis Hc : LKmem ∉ held c.

Definition safe_step (tgt : option nat) (m : M conf unit) : Prop :=
  exists k', m c k = Ok tt c k' /\ step_ok tgt k k'.

Lemma safe_skip_ok tgt : step_ok tgt k k.
Proof using Hk. done. Qed.

Lemma safe_skip tgt : safe_step tgt (mret tt).
Proof using Hk. by exists k. Qed.

Lemma create_safe : safe_step (target OpCreate) (exec OpCreate).
Proof using All.
  unfold safe_step, exec. rewrite (bind_ok _ _ _ _ (spaces k) c k) by done.
  destruct Hk as (free & ts & Hv & Hsp).
  destruct (uvmcreate_run (phys k) free ts _ c Hv zero_nonneg Hc) as (r & s' & free' & Hrun & Hres).
  rewrite (bind_ok _ _ _ _ _ _ _ (on_phys_ok _ _ _ _ _ Hrun)).
  destruct Hres as [(-> & _ & ->)|(Hr & _ & Hv' & _ & Hview)].
  - exists (set_phys (phys k) k). split; [done|]. split; [exists free, ts; done|].
    by destruct k.
  - destruct (Z.eqb_spec r 0); [done|]. eexists. split; [done|]. cbn [phys spaces set_phys set_spaces].
    assert (Forall2 space_ok (spaces k ++ [ASpace r 0]) (ts ++ [no_leaves r])) as Hsp'.
    { apply Forall2_app; [done|]. constructor; [|constructor]. split; [done|simpl; klia|].
      intros v _. apply lookup_empty. }
    apply (vm_inv_perm _ _ _ (ts ++ [no_leaves r])) in Hv'; [|by rewrite Permutation_app_comm].
    split; [by exists free', (ts ++ [no_leaves r])|]. intros j va _ Hlen Hva.
    rewrite (Forall2_length _ _ _ Hsp) in Hlen. destruct (lookup_lt_is_Some_2 _ _ Hlen) as [u Hu].
    etransitivity; [apply (view_ubyte s' free' _ _ _ j u va Hv' Hsp'); [by rewrite lookup_app_l|done]|].
    etransitivity; [|symmetry; destruct k; by apply (view_ubyte _ free ts _ _ j u va Hv Hsp)].
    apply Hview; [by eapply list_elem_of_lookup_2|done].
Qed.

Lemma lazy_safe i newsz : proper (OpLazy i newsz) -> safe_step (target (OpLazy i newsz)) (exec (OpLazy i newsz)).
Proof using LKO Hk.
  intros H2%Is_true_true_1%Z.leb_le.
  unfold exec. unfold safe_step. rewrite (bind_ok _ _ _ _ (spaces k) c k) by done.
  destruct (spaces k !! i) as [a|] eqn:Hi; [|apply safe_skip].
  destruct (Z.ltb_spec newsz (as_sz a)) as [|H1]; [apply safe_skip|].
  destruct (conf_focus k i a Hk Hi) as (free & t & ts & Hv & Hok & Hback).
  eexists. split; [done|]. eapply Hback; [exact Hv|apply space_resize; [done|lia]|done].
Qed.

Lemma keep_size tgt i a : spaces k !! i = Some a ->
  exists k', set_size i a (as_sz a) c (set_phys (phys k) k) = Ok tt c k' /\ step_ok tgt k k'.
Proof using Hk.
  intros Hi. rewrite set_size_ok. exists k. split; [|by apply safe_skip_ok]. f_equal. transitivity (set_spaces (<[i := ASpace (as_root a) (as_sz a)]> (spaces k)) k); [done|by apply same_size].
Qed.

Lemma grow_safe i newsz xperm : proper (OpGrow i newsz xperm) -> safe_step (target (OpGrow i newsz xperm)) (exec (OpGrow i newsz xperm)).
Proof using All.
  intros Hg%Is_true_true_1. cbn [proper] in Hg. rewrite !andb_true_iff, !Z.leb_le, Z.ltb_lt in Hg. destruct Hg as [[[H0 H2] H3] H4].
  unfold exec. unfold safe_step. rewrite (bind_ok _ _ _ _ (spaces k) c k) by done.
  destruct (spaces k !! i) as [a|] eqn:Hi; [|apply safe_skip].
  destruct (Z_lt_le_dec newsz (as_sz a)) as [Hlt|H1].
  { unfold uvmalloc. rewrite (proj2 (Z.ltb_lt newsz (as_sz a))) by done.
    rewrite (bind_ok _ _ _ _ _ _ _ (on_phys_ok (mret (as_sz a)) c k (as_sz a) (phys k) eq_refl)), (proj2 (Z.eqb_neq (as_sz a) 0)) by lia.
    by apply keep_size. }
  destruct (conf_focus k i a Hk Hi) as (free & t & ts & Hv & Hok & Hback).
  destruct Hok as [Hr Hs Hl]. rewrite Hr.
  destruct (uvmalloc_run (phys k) free t ts _ (as_sz a) newsz xperm c Hv zero_nonneg Hc) as
    (r & s' & free' & t' & Hrun & Hfr & Hv' & Hres); [lia|lia|lia|intros v Hvv; apply Hl; lia|].
  rewrite (bind_ok _ _ _ _ _ _ _ (on_phys_ok _ _ _ _ _ Hrun)).
  pose proof (fr_root _ _ _ _ _ _ _ _ Hfr) as Hrt.
  pose proof (vpn_mono _ _ (roundup_mono (as_sz a) newsz ltac:(lia) H1 H2)) as Hmono.
  destruct Hres as [(-> & Hg & _)|(-> & Hlv & _)].
  - assert (space_ok (ASpace (as_root a) newsz) t') as Hok'.
    { split; simpl; [congruence|lia|]. intros v Hvv. specialize (Hg v). rewrite decide_False in Hg by lia.
      rewrite Hg. apply Hl. lia. }
    destruct (Z.eqb_spec newsz 0) as [->|Hne].
    + eexists. split; [done|]. apply (conf_same _ k i a); [done|]. eapply Hback; [exact Hv'| |apply Hfr].
      assert (as_sz a = 0) by lia. destruct a as [ar asz]; simpl in *; by subst.
    + eexists. split; [done|]. eapply Hback; [exact Hv'|done|apply Hfr].
  - rewrite unmapped_leaves_nil in Hlv. eexists. split; [done|]. apply (conf_same _ k i a); [done|].
    eapply Hback; [exact Hv'| |apply Hfr]. split; [congruence|done|]. by rewrite Hlv.
Qed.

Lemma shrink_safe i newsz : proper (OpShrink i newsz) -> safe_step (target (OpShrink i newsz)) (exec (OpShrink i newsz)).
Proof using All.
  intros H1%Is_true_true_1%Z.leb_le.
  unfold exec. unfold safe_step. rewrite (bind_ok _ _ _ _ (spaces k) c k) by done.
  destruct (spaces k !! i) as [a|] eqn:Hi; [|apply safe_skip].
  destruct (Z_le_gt_dec (as_sz a) newsz) as [Hle|H2].
  { unfold uvmdealloc. rewrite (proj2 (Z.leb_le (as_sz a) newsz)) by done.
    rewrite (bind_ok _ _ _ _ _ _ _ (on_phys_ok (mret (as_sz a)) c k (as_sz a) (phys k) eq_refl)). by apply keep_size. }
  destruct (conf_focus k i a Hk Hi) as (free & t & ts & Hv & Hok & Hback). destruct Hok as [Hr Hs Hl]. rewrite Hr.
  destruct (uvmdealloc_run (phys k) free t ts _ (as_sz a) newsz c Hv zero_nonneg Hc) as
    (s' & free' & t' & Hrun & Hfr & Hv' & Hlv & _); [lia|lia|].
  rewrite (bind_ok _ _ _ _ _ _ _ (on_phys_ok _ _ _ _ _ Hrun)), Z.min_r by lia.
  eexists. split; [done|]. eapply Hback; [exact Hv'| |apply Hfr]. split; simpl; [|lia|].
  - rewrite (fr_root _ _ _ _ _ _ _ _ Hfr). done.
  - intros v Hvv. rewrite Hlv. unfold unmapped_leaves. rewrite map_lookup_filter.
    destruct (leaves t !! v) as [x|] eqn:E; [|done]. simpl. rewrite option_guard_False; [done|].
    intros Hn. apply Hn. split; [lia|]. destruct (Z_lt_le_dec v (vpn (PGROUNDUP (as_sz a)))); [done|].
    rewrite Hl in E by lia. done.
Qed.

Lemma fault_safe i va read : proper (OpFault i va read) -> safe_step (target (OpFault i va read)) (exec (OpFault i va read)).
Proof using All.
  intros Hva%Is_true_true_1%Z.leb_le. unfold exec. unfold safe_step. rewrite (bind_ok _ _ _ _ (spaces k) c k) by done.
  destruct (spaces k !! i) as [a|] eqn:Hi; [|apply safe_skip].
  destruct (conf_focus k i a Hk Hi) as (free & t & ts & Hv & Hok & Hback). rewrite (so_root _ _ Hok).
  destruct (vmfault_run (phys k) free t ts _ (as_sz a) va read c Hv zero_nonneg Hva) as
    (r & s' & free' & t' & Hrun & Hfr & Hv' & Hres & _); [apply Hok|done|].
  rewrite (bind_ok _ _ _ _ _ _ _ (on_phys_ok _ _ _ _ _ Hrun)). eexists. split; [done|].
  apply (conf_same _ k i a); [done|]. eapply Hback; [exact Hv'| |apply Hfr].
  eapply space_within; [done|apply Hfr|by eapply fault_within].
Qed.

Lemma copyout_safe i dstva src len : proper (OpCopyout i dstva src len) ->
  safe_step (target (OpCopyout i dstva src len)) (exec (OpCopyout i dstva src len)).
Proof using All.
  intros Hg%Is_true_true_1. cbn [proper] in Hg. rewrite !andb_true_iff, !Z.leb_le in Hg. destruct Hg as [[[H1 H2] H3] H4].
  unfold exec. unfold safe_step. rewrite (bind_ok _ _ _ _ (spaces k) c k) by done.
  destruct (spaces k !! i) as [a|] eqn:Hi; [|apply safe_skip].
  destruct (conf_focus k i a Hk Hi) as (free & t & ts & Hv & Hok & Hback). rewrite (so_root _ _ Hok).
  destruct (copyout_run (phys k) free t ts _ (as_sz a) dstva src len c Hv zero_nonneg
    (space_kernel_leaves _ _ Hok)) as (r & n & s' & free' & t' & Hrun & Hfr & Hv' & _ & _ & _ & Hwi);
    [apply Hok|done|done|done|intros x Hx; eapply kernel_kheld; [done|lia]|].
  rewrite (bind_ok _ _ _ _ _ _ _ (on_phys_ok _ _ _ _ _ Hrun)). eexists. split; [done|].
  apply (conf_same _ k i a); [done|]. eapply Hback; [exact Hv'| |apply Hfr].
  eapply space_within; [done|apply Hfr|done].
Qed.

Lemma store_safe i va b : proper (OpStore i va b) -> safe_step (target (OpStore i va b)) (exec (OpStore i va b)).
Proof using All.
  intros [H1%Z.leb_le H2%Z.ltb_lt]%Is_true_true_1%andb_true_iff.
  unfold exec. unfold safe_step. rewrite (bind_ok _ _ _ _ (spaces k) c k) by done.
  destruct (spaces k !! i) as [a|] eqn:Hi; [|apply safe_skip].
  destruct (conf_focus k i a Hk Hi) as (free & t & ts & Hv & Hok & Hback). rewrite (so_root _ _ Hok).
  destruct (user_store_run (phys k) free t ts _ va b c Hv zero_nonneg (conj H1 H2)) as (s' & Hrun & Hv' & Hfr).
  rewrite (on_phys_ok _ _ _ _ _ Hrun). eexists. split; [done|].
  apply (conf_same _ k i a); [done|]. by eapply Hback; [..|apply Hfr].
Qed.

Lemma fork_safe i j : safe_step (target (OpFork i j)) (exec (OpFork i j)).
Proof using All.
  unfold exec. unfold safe_step. rewrite (bind_ok _ _ _ _ (spaces k) c k) by done.
  destruct (spaces k !! i) as [a|] eqn:Hi; [|apply safe_skip].
  destruct (spaces k !! j) as [b|] eqn:Hj; [|apply safe_skip].
  destruct (_ && _) eqn:Hg; [|apply safe_skip].
  apply andb_true_iff in Hg as [Hne%negb_true_iff%Nat.eqb_neq Hz%Z.eqb_eq].
  destruct (conf_focus2 k i j a b Hk Hne Hi Hj) as (free & t & u & ts & Hv & Ha & Hb & Hback).
  rewrite (so_root _ _ Ha), (so_root _ _ Hb).
  assert (forall v, 0 <= v -> leaves u !! v = None) as Hu.
  { intros v Hvv. apply (so_leaves _ _ Hb). rewrite Hz. exact Hvv. }
  destruct (uvmcopy_run (phys k) free t u ts _ (as_sz a) c Hv zero_small Hc) as
    (r & s' & free' & t' & u' & Hrun & Hfr & Hv' & Hres); [apply Ha|intros v []; by apply Hu|].
  rewrite (bind_ok _ _ _ _ _ _ _ (on_phys_ok _ _ _ _ _ Hrun)).
  destruct (fork_spaces a b t u t' u' r Ha Hb Hz) as [Ha' Hb']; [apply Hfr|apply Hfr|done|].
  destruct (Z.eqb_spec r 0) as [->|Hr].
  - eexists. split; [done|]. cbn [phys spaces set_phys].
    by eapply Hback; [..|apply Hfr|apply Hfr].
  - exists (set_phys s' k). split; [done|]. apply (conf_same _ k j b); [done|].
    by eapply Hback; [..|apply Hfr|apply Hfr].
Qed.

Lemma free_safe i : exists k', exec (OpFree i) c k = Ok tt c k' /\ conf_ok k' /\ spaces k' = delete i (spaces k) /\
  forall j va, j <> i -> (j < length (spaces k))%nat -> uva va -> view k' (after (OpFree i) j) va = view k j va.
Proof using All.
  unfold exec, after. rewrite (bind_ok _ _ _ _ (spaces k) c k) by done. destruct k as [s sp]. cbn [spaces] in *.
  destruct (sp !! i) as [a|] eqn:Hi.
  2: { exists (Conf s sp). split; [done|]. split; [done|]. apply lookup_ge_None in Hi. split; [by rewrite delete_ge_list|].
       intros j va _ Hj _. by rewrite (proj2 (Nat.ltb_ge i j)) by lia. }
  destruct Hk as (free & ts & Hv & Hsp). cbn [phys spaces] in *. destruct (Forall2_lookup_l _ _ _ _ _ Hsp Hi) as (t & Ht & [Hr Hs Hl]).
  assert (Hv1 : vm_inv s free (t :: delete i ts) (fun _ => 0)) by (eapply vm_inv_perm; [|exact Hv]; by apply delete_Permutation).
  rewrite Hr. destruct (uvmfree_run s free t (delete i ts) _ (as_sz a) c Hv1 zero_nonneg Hc Hs Hl) as (s' & free' & Hrun & Hv' & Hg); [done|].
  rewrite (bind_ok _ _ _ _ _ _ _ (on_phys_ok _ _ (Conf s sp) _ _ Hrun)). eexists. split; [done|]. cbn [phys spaces set_phys set_spaces].
  assert (Hsp' : Forall2 space_ok (delete i sp) (delete i ts)) by (by apply Forall2_delete). split; [by exists free', (delete i ts)|]. split; [done|].
  intros j va Hj Hlen Hva. rewrite (Forall2_length _ _ _ Hsp) in Hlen. destruct (lookup_lt_is_Some_2 _ _ Hlen) as [u Hu].
  rewrite (view_ubyte s free ts _ _ j u va Hv Hsp) by done.
  rewrite (view_ubyte s' free' (delete i ts) _ _ _ u va Hv' Hsp'); [|destruct (Nat.ltb_spec i j)|done].
  - apply (go_others _ _ _ _ _ _ _ Hg); [|done]. by apply (delete_lookup_ne ts i j).
  - rewrite list_lookup_delete_ge by lia. by replace (S (pred j)) with j by lia.
  - by rewrite list_lookup_delete_lt by lia.
Qed.

Lemma exec_safe op : proper op -> exists k', exec op c k = Ok tt c k' /\ conf_ok k' /\
  forall j va, Some j <> target op -> (j < length (spaces k))%nat -> uva va -> view k' (after op j) va = view k j va.
Proof using All.
  intros Hp. destruct op; [apply create_safe|by apply grow_safe|by apply lazy_safe|by apply shrink_safe|apply fork_safe|
    by apply fault_safe|by apply copyout_safe|by apply store_safe|].
  destruct (free_safe i) as (k' & Hr & Hk' & _ & Hview). exists k'. split; [done|]. split; [done|]. intros j va Hj. apply Hview. intros ->. by apply Hj.
Qed.
End steps.

(** ** Runs *)

Lemma exec_all_safe `{!LinkerOk} ops : forall k c, Forall proper ops -> conf_ok k -> LKmem ∉ held c ->
  exists k', exec_all ops c k = Ok tt c k' /\ conf_ok k'.
Proof.
  induction ops as [|op ops IH]; intros k c Hp Hk Hc; [by exists k|]. apply Forall_cons in Hp as [Hop Hp].
  destruct (exec_safe k c Hk Hc op Hop) as (k1 & Hrun & Hk1 & _).
  unfold exec_all. cbn [for_each]. rewrite (bind_ok _ _ _ _ _ _ _ Hrun). by apply IH.
Qed.

Lemma boot_ok `{!LinkerOk} m c k : LKmem ∉ held c -> exists k', boot m c k = Ok tt c k' /\ conf_ok k'.
Proof.
  intros Hc. unfold boot. rewrite (bind_ok _ _ c k tt c (Conf (Pmem m 0 ∅) [])) by done.
  destruct (kinit_run (Pmem m 0 ∅) c eq_refl Hc) as (s' & free & Hrun & Hi & Hall).
  exists (set_phys s' (Conf (Pmem m 0 ∅) [])). split; [by apply on_phys_ok|].
  exists free, []. split; [|constructor]. split; [done|by intros t ?%elem_of_nil|constructor|by intros t p ?%elem_of_nil|
    by intros t v pte ?%elem_of_nil| |by intros t v pte ?%elem_of_nil].
  intros pa Hp _. apply (inv_free _ _ Hi); [done|]. by apply Hall.
Qed.

(** A page that process [i] can write is mapped once, whatever the processes
    and addresses compared. *)
Definition isolated (k : conf) : Prop :=
  forall i j a b va vb x y,
    spaces k !! i = Some a -> spaces k !! j = Some b -> uva va -> uva vb ->
    user_entry (phys k) (as_root a) va = Some x -> user_entry (phys k) (as_root b) vb = Some y ->
    PTE2PA x = PTE2PA y -> flag x PTE_W = true -> i = j /\ vpn va = vpn vb.

Lemma conf_isolated `{!LinkerOk} k : conf_ok k -> isolated k.
Proof.
  intros (free & ts & Hv & Hsp) i j a b va vb x y Hi Hj Ha Hb Hx Hy E Hw.
  destruct (Forall2_lookup_l _ _ _ _ _ Hsp Hi) as (t & Ht & Hta).
  destruct (Forall2_lookup_l _ _ _ _ _ Hsp Hj) as (u & Hu & Hub).
  pose proof (list_elem_of_lookup_2 _ _ _ Ht) as Hti. pose proof (list_elem_of_lookup_2 _ _ _ Hu) as Hui.
  rewrite (so_root _ _ Hta), (user_entry_leaf _ free t va (vm_tree_in _ _ _ _ _ Hv Hti) Ha) in Hx.
  rewrite (so_root _ _ Hub), (user_entry_leaf _ free u vb (vm_tree_in _ _ _ _ _ Hv Hui) Hb) in Hy.
  assert (~ (t <> u \/ vpn va <> vpn vb)) as Hn.
  { intros Hne. pose proof (total_two (PTE2PA x) ts t _ _ u _ _ Hti Hui Hx Hy
      (conj (uva_vpn va Ha) eq_refl) (conj (uva_vpn vb Hb) (eq_sym E)) Hne).
    pose proof (vm_w _ _ _ _ Hv t _ _ Hti Hx (uva_vpn va Ha) Hw) as Hr.
    destruct (vm_leaf _ _ _ _ Hv t _ _ Hti Hx (uva_vpn va Ha)) as (Hp & _ & Hd).
    pose proof (vm_ref _ _ _ _ Hv _ Hp Hd) as Hrf. cbv beta in Hrf. lia. }
  destruct (decide (vpn va = vpn vb)) as [Ev|]; [|exfalso; tauto].
  split; [|done]. destruct (decide (i = j)) as [|Hij]; [done|]. exfalso. apply Hn. left. intros ->.
  by apply Hij, (NoDup_lookup _ _ _ _ (trees_nodup _ _ _ _ Hv) Ht Hu).
Qed.

(** ** Properties *)

(** C1: whatever memory holds at boot and whatever sequence of address-space
    operations follows [kinit], as long as no operation asks for a size above
    [TRAPFRAME] (the kernel itself does not check this), the run returns (no
    operation panics, no loop runs out of iterations) and afterwards a physical
    page that some process can write is mapped at that address only: writable
    pages are never shared. *)
Theorem cow_isolation `{!LinkerOk} m ops c k0 : Forall proper ops -> LKmem ∉ held c ->
  exists k, (boot m;; exec_all ops) c k0 = Ok tt c k /\ isolated k.
Proof.
  intros Hp Hc. destruct (boot_ok m c k0 Hc) as (k1 & Hb & Hk1).
  destruct (exec_all_safe ops k1 c Hp Hk1 Hc) as (k2 & Hr & Hk2). exists k2.
  rewrite (bind_ok _ _ _ _ _ _ _ Hb). split; [done|by apply conf_isolated].
Qed.

(** C2: in every state of that machine that is reached with sizes up to
    [TRAPFRAME], such an operation returns and changes the memory contents of one address space at most, the one it is for (the child,
    for a fork): every other process reads the same bytes at the same
    addresses before and after, although pages are shared copy-on-write. *)
Theorem cow_noninterference `{!LinkerOk} m ops op c k0 : Forall proper ops -> proper op -> LKmem ∉ held c ->
  exists k k', (boot m;; exec_all ops) c k0 = Ok tt c k /\ exec op c k = Ok tt c k' /\
    forall j va, Some j <> target op -> (j < length (spaces k))%nat -> uva va -> view k' (after op j) va = view k j va.
Proof.
  intros Hp Hop Hc. destruct (boot_ok m c k0 Hc) as (k1 & Hb & Hk1).
  destruct (exec_all_safe ops k1 c Hp Hk1 Hc) as (k2 & Hr & Hk2).
  destruct (exec_safe k2 c Hk2 Hc op Hop) as (k3 & Hrun & _ & Hview). exists k2, k3.
  rewrite (bind_ok _ _ _ _ _ _ _ Hb). done.
Qed.

Lemma free_all_safe `{!LinkerOk} n : forall k c, conf_ok k -> LKmem ∉ held c -> length (spaces k) = n ->
  exists k', exec_all (replicate n (OpFree 0)) c k = Ok tt c k' /\ conf_ok k' /\ spaces k' = [].
Proof.
  induction n as [|n IH]; intros k c Hk Hc Hn; [exists k; by apply nil_length_inv in Hn|].
  destruct (free_safe k c Hk Hc 0) as (k1 & Hrun & Hk1 & Hsp & _). unfold exec_all. cbn [replicate for_each]. rewrite (bind_ok _ _ _ _ _ _ _ Hrun).
  apply IH; [done..|]. rewrite Hsp. destruct (spaces k); [done|]. by injection Hn.
Qed.

(** C3: no page is ever lost. Whatever sequence of operations, with sizes up to
    [TRAPFRAME], follows [kinit], when every address space that is left is released, none of these releases
    panics or runs out of iterations and afterwards the free list consists of
    all pages that the allocator manages, each of them once. *)
Theorem vm_no_leak `{!LinkerOk} m ops c k0 : Forall proper ops -> LKmem ∉ held c ->
  exists k k' free, (boot m;; exec_all ops) c k0 = Ok tt c k /\
    exec_all (replicate (length (spaces k)) (OpFree 0)) c k = Ok tt c k' /\ spaces k' = [] /\
    chain (mem (phys k')) (freelist (phys k')) free /\ NoDup free /\ forall pa, pa ∈ free <-> valid_page pa.
Proof.
  intros Hp Hc. destruct (boot_ok m c k0 Hc) as (k1 & Hb & Hk1). destruct (exec_all_safe ops k1 c Hp Hk1 Hc) as (k2 & Hr & Hk2).
  destruct (free_all_safe (length (spaces k2)) k2 c Hk2 Hc eq_refl) as (k3 & Hr3 & (free & ts & Hv & Hsp) & Hnil).
  exists k2, k3, free. split; [by rewrite (bind_ok _ _ _ _ _ _ _ Hb)|]. split; [done|]. split; [done|].
  rewrite Hnil in Hsp. apply Forall2_nil_inv_l in Hsp as ->. pose proof (vm_kmem _ _ _ _ Hv) as [Hch Hnd Hval Hfree _]. split; [done|]. split; [done|].
  intros pa. rewrite Forall_forall in Hval. split; [apply Hval|]. intros Hpa. apply Hfree; [done|]. rewrite (vm_ref _ _ _ _ Hv pa Hpa); [done|]. by intros t ?%elem_of_nil.
Qed.
End machine.
