(* ===== verification/VmProps.v ===== *)
(** * What each operation of kernel/vm.c guarantees

    The contracts of the page-fault handler, of fork's copy, of growing and
    shrinking, and of the copies between the kernel and user memory, each on
    every path the operation can take, with concrete states they apply to. *)

From S2P Require Import Prelude Riscv Mem Kalloc Vm VmTree VmInv VmOps VmUser VmCopy VmSafe.

Section props.
Context `{LK : Linker}.

(** The child's view after a successful copy. *)
Lemma copy_child_view s free t u ts ex sz s' free' t' u' va :
  vm_inv s free (t :: u :: ts) ex -> frame2 ex ts s free t u s' free' t' u' ->
  copy_result 0 sz t u t' u' 0 -> uva va -> vpn va < vpn (PGROUNDUP sz) ->
  ubyte (mem s') u' va = ubyte (mem s) t va.
Proof.
  intros Hv Hf Hres Hva Hlt. pose proof (uva_vpn va Hva).
  destruct Hres as [(_ & Ht & Hu)|(? & _)]; [|done].
  rewrite <- (f2_parent _ _ _ _ _ _ _ _ _ _ Hf) by done. unfold ubyte.
  change (vpn 0) with 0 in Ht, Hu. rewrite Hu, Ht.
  by rewrite !decide_True by lia.
Qed.

(** C8: a page fault at [va] always returns. It is resolved only below the
    size of the process, with a fresh zeroed page if nothing was mapped there
    and, for a store, with a private copy if the page was shared
    copy-on-write; the resolved entry is writable and names a page no other
    mapping names. An unresolved fault leaves the mapping alone, and with three
    free pages the only reasons for one are an address beyond the size or a
    mapping that a store to a copy-on-write page cannot explain. In both cases
    the reference counts stay exact, every other address space keeps its
    bytes, and the pages the kernel holds are untouched. *)
Theorem vmfault_spec `{!LinkerOk} s free t ts ex psz va read c :
  vm_inv s free (t :: ts) ex -> ex_nonneg ex -> 0 <= va -> psz <= TRAPFRAME -> LKmem ∉ held c ->
  exists r s' free' t', vmfault psz (root t) va read c s = Ok r c s' /\
    frame ex ts s free t s' free' t' /\ vm_inv s' free' (t' :: ts) ex /\
    fault_result psz t t' va read (mem s) (mem s') r /\ fault_reason psz free free' t va read r /\
    (r <> 0 -> exists pte, leaves t' !! vpn va = Some pte /\ PTE2PA pte = r /\
       flag pte PTE_W = true /\ flag pte PTE_COW = false /\ total r (t' :: ts) = 1).
Proof.
  intros Hv Hex Hva Hsz Hl.
  destruct (vmfault_run s free t ts ex psz va read c Hv Hex Hva Hsz Hl) as (r & s' & free' & t' & Hrun & Hfr & Hv' & Hres & Hwhy).
  exists r, s', free', t'. do 5 (split; [done|]). intros Hr.
  destruct Hres as [(-> & _)|(_ & Hlt & Hp & pte & Hlv & Hpte & _)]; [done|].
  destruct (fault_pte_w _ _ _ _ Hp Hpte) as (E & Hw & Hc). assert (uva va) as Hu by (unfold uva; lia).
  assert (leaves t' !! vpn va = Some pte) as Ev by (by rewrite Hlv, lookup_insert_eq).
  exists pte. split_and!; try done. rewrite <- E. by eapply w_page_private.
Qed.

(** C9: [uvmcopy] into an empty address space returns 0 or -1. On success the
    child reads exactly the parent's bytes below the size, no entry of parent
    or child below the size is writable, and both have the same pages. On
    failure the child has no user pages left, but the entries of the parent that
    were passed stay copy-on-write. Either way the parent and every
    other address space read the same bytes as before and the counts are
    exact. *)
Theorem uvmcopy_spec `{!LinkerOk} s free t u ts ex sz c :
  vm_inv s free (t :: u :: ts) ex -> ex_small ex -> LKmem ∉ held c -> 0 <= sz <= TRAPFRAME ->
  (forall v, 0 <= v < UVPN -> leaves u !! v = None) ->
  exists r s' free' t' u', uvmcopy (root t) (root u) sz c s = Ok r c s' /\
    frame2 ex ts s free t u s' free' t' u' /\ vm_inv s' free' (t' :: u' :: ts) ex /\
    copy_result 0 sz t u t' u' r /\
    (r = 0 -> forall va, uva va -> vpn va < vpn (PGROUNDUP sz) ->
       ubyte (mem s') u' va = ubyte (mem s) t va /\
       leaves u' !! vpn va = leaves t' !! vpn va /\
       forall pte, leaves t' !! vpn va = Some pte -> flag pte PTE_W = false).
Proof.
  intros Hv Hex Hl Hsz Hu.
  destruct (uvmcopy_run s free t u ts ex sz c Hv Hex Hl Hsz Hu) as (r & s' & free' & t' & u' & Hrun & Hfr & Hv' & Hres).
  exists r, s', free', t', u'. do 4 (split; [done|]). intros -> va Hva Hlt.
  split; [by eapply copy_child_view|]. pose proof (uva_vpn va Hva).
  destruct Hres as [(_ & Ht & Hu')|(? & _)]; [|done]. change (vpn 0) with 0 in Ht, Hu'.
  rewrite Ht, Hu', !decide_True by lia. split; [done|]. intros pte.
  destruct (leaves t !! vpn va) as [v|] eqn:Ev; simpl; [|done]. intros [= <-].
  apply cow_share_spec. eapply rep_leaf_ok; [|exact Ev]. apply (vm_rep _ _ _ _ Hv). list_mem.
Qed.

(** C33: [uvmalloc] either maps every page up to the new size, zeroed and with
    the permissions asked for, or leaves the address space as it was, however
    many pages it had mapped when memory ran out. *)
Theorem uvmalloc_spec `{!LinkerOk} s free t ts ex oldsz newsz xperm c :
  vm_inv s free (t :: ts) ex -> ex_nonneg ex -> LKmem ∉ held c -> 0 <= xperm < 1024 ->
  0 <= oldsz <= newsz -> newsz <= TRAPFRAME ->
  (forall v, vpn (PGROUNDUP oldsz) <= v < vpn (PGROUNDUP newsz) -> leaves t !! v = None) ->
  exists r s' free' t', uvmalloc (root t) oldsz newsz xperm c s = Ok r c s' /\
    frame ex ts s free t s' free' t' /\ vm_inv s' free' (t' :: ts) ex /\
    ((r = newsz /\ grown xperm (PGROUNDUP oldsz) (PGROUNDUP newsz) (leaves t) (leaves t') /\
      forall va, uva va -> ubyte (mem s') t' va = zeroed_view (mem s) t (PGROUNDUP oldsz) (PGROUNDUP newsz) va) \/
     (r = 0 /\ leaves t' = leaves t /\ forall va, uva va -> ubyte (mem s') t' va = ubyte (mem s) t va)).
Proof.
  intros Hv Hex Hl Hx Ho Hn Hfree.
  destruct (uvmalloc_run s free t ts ex oldsz newsz xperm c Hv Hex Hl Hx Ho Hn Hfree)
    as (r & s' & free' & t' & Hrun & Hfr & Hv' & [Hres|(-> & Hlv & Hview)]).
  { exists r, s', free', t'. auto. }
  exists 0, s', free', t'. do 3 (split; [done|]). right. split; [done|].
  rewrite Hlv, unmapped_leaves_nil. split; [done|]. intros va Hva. rewrite Hview by done.
  rewrite decide_False; [done|unfold in_range; lia].
Qed.

(** Growing an address space and then shrinking it back gives the same
    mappings and the same bytes. *)
Theorem uvmalloc_uvmdealloc `{!LinkerOk} s free t ts ex oldsz newsz xperm c :
  vm_inv s free (t :: ts) ex -> ex_nonneg ex -> LKmem ∉ held c -> 0 <= xperm < 1024 ->
  0 <= oldsz <= newsz -> 0 < newsz <= TRAPFRAME ->
  (forall v, vpn (PGROUNDUP oldsz) <= v < vpn (PGROUNDUP newsz) -> leaves t !! v = None) ->
  exists r s1, uvmalloc (root t) oldsz newsz xperm c s = Ok r c s1 /\
    (r <> 0 -> exists s2 free2 t2, uvmdealloc (root t) r oldsz c s1 = Ok oldsz c s2 /\
       vm_inv s2 free2 (t2 :: ts) ex /\ leaves t2 = leaves t /\
       forall va, uva va -> ubyte (mem s2) t2 va = ubyte (mem s) t va).
Proof.
  intros Hv Hex Hl Hx Ho Hn Hfree.
  destruct (uvmalloc_run s free t ts ex oldsz newsz xperm c Hv Hex Hl Hx Ho ltac:(lia) Hfree)
    as (r & s1 & f1 & t1 & Hrun & Hfr & Hv1 & Hres).
  exists r, s1. split; [done|]. intros Hr. destruct Hres as [(-> & Hg & Hview1)|(-> & _)]; [|done].
  destruct (uvmdealloc_run s1 f1 t1 ts ex newsz oldsz c Hv1 Hex Hl) as (s2 & f2 & t2 & Hr2 & Hfr2 & Hv2 & Hlv2 & Hview2); [lia|lia|].
  rewrite (fr_root _ _ _ _ _ _ _ _ Hfr), Z.min_r in Hr2 by lia.
  exists s2, f2, t2. split; [done|]. split; [done|].
  assert (forall v, unmapped_leaves (PGROUNDUP oldsz) (PGROUNDUP newsz) (leaves t1) !! v = leaves t !! v) as Hlk.
  { intros v. unfold unmapped_leaves. rewrite map_lookup_filter. specialize (Hg v).
    case_decide as Hin; [|rewrite Hg; destruct (leaves t !! v); [simpl; by rewrite option_guard_True|done]].
    destruct Hg as [p ->]. simpl. rewrite option_guard_False by tauto. symmetry. by apply Hfree. }
  split; [apply map_eq; intros v; by rewrite Hlv2|].
  intros va Hva. rewrite Hview2, Hview1 by done. unfold zeroed_view.
  destruct (roundup_facts oldsz ltac:(lia)) as (Ao & _). destruct (roundup_facts newsz ltac:(lia)) as (An & _).
  case_decide as Hin; [|done]. apply (vpn_aligned_lt _ _ _ Ao An) in Hin.
  unfold ubyte. by rewrite Hfree.
Qed.

(** C32: [copyout] of [len] kernel bytes returns 0 with all of them at [dstva]
    in the user's memory, or -1 with a proper prefix of them there. Nothing else the
    process sees changes, except that pages it had not touched yet may now read
    as zero; no other address space and no page of the kernel changes, so
    copy-on-write pages are copied before they are written. *)
Theorem copyout_spec `{!LinkerOk} s free t ts ex psz dstva src len c :
  vm_inv s free (t :: ts) ex -> ex_nonneg ex -> kernel_leaves t -> psz <= TRAPFRAME -> LKmem ∉ held c ->
  0 <= dstva -> 0 <= len -> kbuf free (t :: ts) ex src len ->
  exists r k s' free' t', copyout psz (root t) dstva src len c s = Ok r c s' /\
    frame ex ts s free t s' free' t' /\ vm_inv s' free' (t' :: ts) ex /\
    0 <= k <= len /\ ((r = 0 /\ k = len) \/ (r = -1 /\ k < len)) /\
    copied (mem s) t (mem s') t' dstva src k.
Proof.
  intros Hv Hex Hk Hsz Hl Hd Hn Hb.
  destruct (copyout_run s free t ts ex psz dstva src len c Hv Hex Hk Hsz Hl Hd Hn Hb)
    as (r & k & s' & free' & t' & H1 & H2 & H3 & H4 & H5 & H6 & _).
  by exists r, k, s', free', t'.
Qed.

(** [copyin] of [len] user bytes returns 0 with the kernel buffer holding
    exactly what the process sees at [srcva], or -1 with a prefix of it. It
    writes nothing in the kernel outside the buffer, and no address space
    changes except for lazily allocated zero pages of the process itself. *)
Theorem copyin_spec `{!LinkerOk} s free t ts ex psz dst srcva len c :
  vm_inv s free (t :: ts) ex -> ex_nonneg ex -> kernel_leaves t -> psz <= TRAPFRAME -> LKmem ∉ held c ->
  0 <= srcva -> 0 <= len -> kbuf free (t :: ts) ex dst len ->
  exists r k s' free' t', copyin psz (root t) dst srcva len c s = Ok r c s' /\
    kframe ex ts (in_range dst (dst + len)) s free t s' free' t' /\ vm_inv s' free' (t' :: ts) ex /\
    0 <= k <= len /\ ((r = 0 /\ k = len) \/ r = -1) /\ fetched (mem s') t' dst srcva k.
Proof. intros. by apply copyin_run. Qed.

(** C39: a fault above the largest virtual address but below the size of the
    process panics instead of failing: nothing between the size check and the
    walk rejects the address. *)
Theorem vmfault_above_maxva psz pagetable va read c s : MAXVA <= va < psz ->
  vmfault psz pagetable va read c s = Panic "walk".
Proof.
  intros Hva. unfold vmfault. destruct (Z.leb_spec psz va); [lia|].
  assert (MAXVA <= PGROUNDDOWN va) as Hm.
  { rewrite PGROUNDDOWN_eq. consts. Z.div_mod_to_equations. lia. }
  rewrite (bind_panic _ _ _ _ "walk"); [done|].
  unfold ismapped. rewrite (bind_panic _ _ _ _ "walk"); [done|].
  unfold walk. by destruct (Z.leb_spec MAXVA (PGROUNDDOWN va)); [|lia].
Qed.

(** C40: [copyout] writes to a page that user code may not access. The guard
    page below the stack has no user bit; after a fork it is copy-on-write,
    and then the fault handler that [copyout] calls for an inaccessible page
    copies it and returns it, so the byte is stored although the user bit is
    still clear. *)
Theorem copyout_guard_page `{!LinkerOk} s free t ts ex psz va v src c :
  vm_inv s free (t :: ts) ex -> ex_nonneg ex -> LKmem ∉ held c -> 0 <= va < psz -> psz <= TRAPFRAME ->
  leaves t !! vpn va = Some v -> flag v PTE_U = false -> flag v PTE_COW = true -> (3 <= length free)%nat ->
  kbuf free (t :: ts) ex src 1 ->
  exists s' free' t' pte, copyout psz (root t) va src 1 c s = Ok 0 c s' /\
    vm_inv s' free' (t' :: ts) ex /\ leaves t' !! vpn va = Some pte /\ flag pte PTE_U = false /\
    ubyte (mem s') t' va = Some (ld8 (mem s) src).
Proof.
  intros Hv Hex Hl Hva Hsz Ev HU Hc Hlen Hbuf. assert (uva va) as Hu by (unfold uva; lia).
  pose proof (uva_rounddown va Hu) as Hu0. pose proof (vpn_rounddown va) as E0. pose proof (PGROUNDDOWN_eq va) as Erd.
  pose proof (Z.mod_pos_bound va PGSIZE ltac:(done)) as Hmb. set (va0 := PGROUNDDOWN va) in *.
  assert (0 <= va0 < MAXVA) as Hm by (unfold uva in Hu0; klia).
  destruct (vmfault_run s free t ts ex psz va0 false c Hv Hex ltac:(lia) Hsz Hl)
    as (r & s1 & f1 & t1 & Hrun & Hfr & Hv1 & Hres & Hwhy).
  destruct Hres as [(-> & _)|(Hr & _ & Hrp & pte & Hlv & Hpte & _)].
  { exfalso. destruct Hwhy as [_ Hwhy]. destruct (Hwhy eq_refl) as [?|[(x & Ex & Hx)|?]]; [lia| |lia].
    rewrite E0, Ev in Ex. injection Ex as <-. destruct Hx; congruence. }
  destruct (fault_pte_w _ _ _ _ Hrp Hpte) as (Epa & Hw & Hc1). rewrite E0, Ev in Hpte.
  destruct Hpte as (_ & _ & Epte).
  assert (leaves t1 !! vpn va = Some pte) as Ev1 by (by rewrite Hlv, E0, lookup_insert_eq).
  pose proof (vm_tree_ok _ _ _ _ _ Hv) as Ht. pose proof (vm_tree_ok _ _ _ _ _ Hv1) as Ht1.
  destruct (vm_write s1 f1 t1 ts ex va pte src 1 Hv1 Hex Hu Ev1 Hw) as (Hv2 & _ & Hview); [lia|lia|].
  destruct (kbuf_frame _ _ _ _ _ _ _ _ _ _ Hfr Hbuf) as [_ Hsrc].
  exists (set_mem (fun m => memmove m (PTE2PA pte + va mod PGSIZE) src 1) s1), f1, t1, pte.
  split; [|split; [done|split; [done|split]]].
  - unfold copyout. change (Z.to_nat (1 / PGSIZE + 2)) with 2%nat. rewrite copyout_loop_S by (done || lia).
    fold va0. unfold copyout_prep.
    rewrite (bind_ok _ _ _ _ _ _ _ (walkaddr_run s free t va0 c Ht Hm)), E0, Ev, HU, Z.eqb_refl.
    rewrite (bind_ok _ _ _ _ _ _ _ Hrun). destruct (Z.eqb_spec r 0); [done|]. rewrite <- (fr_root _ _ _ _ _ _ _ _ Hfr).
    rewrite (bind_ok _ _ _ _ _ _ _ (walk_lookup s1 t1 va0 c (tok_rep _ _ _ Ht1) Hm)).
    rewrite <- E0 in Ev1. rewrite (bind_ok _ _ _ _ _ _ _ (load_leaf s1 f1 t1 va0 pte c Ht1 Ev1)), Hc1.
    rewrite (bind_ok _ _ c s1 r c s1) by done. destruct (Z.eqb_spec r 0); [done|].
    rewrite (bind_ok _ _ _ _ _ _ _ (load_leaf s1 f1 t1 va0 pte c Ht1 Ev1)), Hw. cbn [negb].
    assert ((if 1 <? PGSIZE - (va - va0) then 1 else PGSIZE - (va - va0)) = 1) as ->.
    { destruct (Z.ltb_spec 1 (PGSIZE - (va - va0))); lia. }
    rewrite <- Epa. by replace (va - va0) with (va mod PGSIZE) by lia.
  - subst pte. unfold cow_pte. rewrite flag_pack by (done || apply cow_flags_bound || by apply valid_page_phys).
    rewrite <- HU. exact (cow_flags_spec v 4 ltac:(done)).
  - rewrite Hview by done. rewrite decide_True by (unfold in_range; lia).
    rewrite Z.sub_diag, Z.add_0_r. f_equal. apply Hsrc. lia.
Qed.
End props.

(** ** A small machine

    Twelve pages of memory and two processes: process 0 has two pages, the
    first a guard page, as [kexec] leaves the page below the stack; process 1
    has none. *)
Module Demo.
Definition linker : Linker :=
  {| kend := PHYSTOP - 12 * PGSIZE; etext := KERNBASE + 16 * PGSIZE;
     trampoline := KERNBASE + PGSIZE |}.
#[local] Existing Instance linker.

Lemma demo_linker_ok : LinkerOk.
Proof. split; vm_compute; intuition discriminate. Qed.
#[local] Existing Instance demo_linker_ok.

Definition c0 : ctx := Ctx ∅ [] 0 1.
Definition none : Z -> Z := fun _ => 0.
Definition pages : list Z := (fun i => PHYSTOP - (i + 1) * PGSIZE) <$> seqZ 0 12.

Lemma no_locks : LKmem ∉ held c0.
Proof. apply not_elem_of_empty. Qed.

Lemma many_pages free : (forall pa, pa ∈ free <-> valid_page pa) -> (12 <= length free)%nat.
Proof.
  intros Hall. change 12%nat with (length pages). apply submseteq_length, NoDup_submseteq.
  - apply (bool_decide_unpack _). vm_compute. done.
  - intros p Hp. apply Hall. revert p Hp. apply Forall_forall. apply (bool_decide_unpack _). vm_compute. done.
Qed.

(** Two empty address spaces, as after boot and two calls of [uvmcreate]. *)
Lemma two_spaces : exists s free t u, vm_inv s free [t; u] none /\ leaves t = ∅ /\ leaves u = ∅ /\
  (10 <= length free)%nat.
Proof.
  destruct (kinit_run (Pmem ∅ 0 ∅) c0 eq_refl no_locks) as (s0 & free & _ & Hi & Hall).
  pose proof (many_pages free Hall) as Hlen.
  assert (vm_inv s0 free [] none) as Hv0.
  { split; [done|by intros t ?%elem_of_nil|constructor|by intros t p ?%elem_of_nil|
      by intros t v pte ?%elem_of_nil| |by intros t v pte ?%elem_of_nil].
    intros pa Hp _. apply (inv_free _ _ Hi); [done|]. by apply Hall. }
  destruct (uvmcreate_run s0 free [] none c0 Hv0 zero_nonneg no_locks) as (r & s1 & f1 & _ & Hres).
  destruct Hres as [(_ & -> & _)|(_ & -> & Hv1 & _)]; [simpl in Hlen; lia|].
  destruct (uvmcreate_run s1 f1 _ none c0 Hv1 zero_nonneg no_locks) as (r2 & s2 & f2 & _ & Hres).
  destruct Hres as [(_ & -> & _)|(_ & -> & Hv2 & _)]; [simpl in Hlen; lia|].
  exists s2, f2, (no_leaves r2), (no_leaves r). split_and!; try done. simpl in Hlen. lia.
Qed.

(** The first of them with a page at address 0, as after a page fault. *)
Lemma one_page : exists s free t u pte, vm_inv s free [t; u] none /\ leaves t = {[0 := pte]} /\ leaves u = ∅ /\
  (7 <= length free)%nat.
Proof.
  destruct two_spaces as (s & free & t & u & Hv & Et & Eu & Hlen).
  destruct (vmfault_run s free t [u] none 4096 0 false c0 Hv zero_nonneg ltac:(done) ltac:(done) no_locks)
    as (r & s' & free' & t' & _ & _ & Hv' & Hres & Hwhy).
  destruct Hres as [(-> & _)|(_ & _ & _ & pte & Hlv & _)].
  - exfalso. destruct Hwhy as [_ Hwhy]. destruct (Hwhy eq_refl) as [?|[(v & Ev & _)|?]]; [lia| |lia].
    by rewrite Et, lookup_empty in Ev.
  - exists s', free', t', u, pte. split_and!; [done|by rewrite Hlv, Et|done|]. destruct Hwhy as [Hlen2 _]. lia.
Qed.

Lemma empty_kernel_leaves t : leaves t = ∅ -> kernel_leaves t.
Proof. intros E v pte _ Hl. by rewrite E, lookup_empty in Hl. Qed.

(** ** Witnesses *)

Lemma vmfault_spec_witness : exists s free t u r s' free' t', vm_inv s free [t; u] none /\
  vmfault 4096 (root t) 0 false c0 s = Ok r c0 s' /\ vm_inv s' free' [t'; u] none.
Proof.
  destruct two_spaces as (s & free & t & u & Hv & _).
  destruct (vmfault_spec s free t [u] none 4096 0 false c0 Hv zero_nonneg ltac:(done) ltac:(done) no_locks)
    as (r & s' & free' & t' & H1 & _ & H2 & _).
  by exists s, free, t, u, r, s', free', t'.
Defined.

Lemma uvmcopy_spec_witness : exists s free t u pte r s' free' t' u', vm_inv s free [t; u] none /\
  leaves t = {[0 := pte]} /\ uvmcopy (root t) (root u) 4096 c0 s = Ok r c0 s' /\
  vm_inv s' free' [t'; u'] none /\ (r = 0 -> ubyte (mem s') u' 7 = ubyte (mem s) t 7).
Proof.
  destruct one_page as (s & free & t & u & pte & Hv & Et & Eu & _).
  destruct (uvmcopy_spec s free t u [] none 4096 c0 Hv zero_small no_locks ltac:(done))
    as (r & s' & free' & t' & u' & H1 & _ & H2 & _ & H3).
  { intros v _. rewrite Eu. apply lookup_empty. }
  exists s, free, t, u, pte, r, s', free', t', u'. split_and!; try done.
  intros Hr. by apply (H3 Hr 7).
Defined.

Lemma uvmalloc_spec_witness : exists s free t u r s' free' t', vm_inv s free [t; u] none /\
  uvmalloc (root t) 0 8192 PTE_W c0 s = Ok r c0 s' /\ vm_inv s' free' [t'; u] none.
Proof.
  destruct two_spaces as (s & free & t & u & Hv & Et & _).
  destruct (uvmalloc_spec s free t [u] none 0 8192 PTE_W c0 Hv zero_nonneg no_locks ltac:(done) ltac:(done) ltac:(done))
    as (r & s' & free' & t' & H1 & _ & H2 & _).
  { intros v _. rewrite Et. apply lookup_empty. }
  by exists s, free, t, u, r, s', free', t'.
Defined.

Lemma uvmalloc_uvmdealloc_witness : exists s free t u r s', vm_inv s free [t; u] none /\
  uvmalloc (root t) 0 8192 PTE_W c0 s = Ok r c0 s' /\
  (r <> 0 -> exists s2, uvmdealloc (root t) r 0 c0 s' = Ok 0 c0 s2).
Proof.
  destruct two_spaces as (s & free & t & u & Hv & Et & _).
  destruct (uvmalloc_uvmdealloc s free t [u] none 0 8192 PTE_W c0 Hv zero_nonneg no_locks
    ltac:(done) ltac:(done) ltac:(done)) as (r & s' & H1 & H2).
  { intros v _. rewrite Et. apply lookup_empty. }
  exists s, free, t, u, r, s'. split_and!; try done.
  intros Hr. destruct (H2 Hr) as (s2 & _ & _ & H3 & _). by exists s2.
Defined.

Lemma copyout_spec_witness : exists s free t u r s' free' t', vm_inv s free [t; u] none /\
  copyout 8192 (root t) 4000 KERNBASE 200 c0 s = Ok r c0 s' /\ vm_inv s' free' [t'; u] none.
Proof.
  destruct two_spaces as (s & free & t & u & Hv & Et & _).
  destruct (copyout_spec s free t [u] none 8192 4000 KERNBASE 200 c0 Hv zero_nonneg (empty_kernel_leaves t Et)
    ltac:(done) no_locks ltac:(done) ltac:(done)) as (r & k & s' & free' & t' & H1 & _ & H2 & _).
  { intros x Hx. eapply kernel_kheld; [done|]. change kend with (PHYSTOP - 12 * PGSIZE). klia. }
  by exists s, free, t, u, r, s', free', t'.
Defined.

Lemma copyin_spec_witness : exists s free t u r s' free' t', vm_inv s free [t; u] none /\
  copyin 8192 (root t) KERNBASE 4000 200 c0 s = Ok r c0 s' /\ vm_inv s' free' [t'; u] none.
Proof.
  destruct two_spaces as (s & free & t & u & Hv & Et & _).
  destruct (copyin_spec s free t [u] none 8192 KERNBASE 4000 200 c0 Hv zero_nonneg (empty_kernel_leaves t Et)
    ltac:(done) no_locks ltac:(done) ltac:(done)) as (r & k & s' & free' & t' & H1 & _ & H2 & _).
  { intros x Hx. eapply kernel_kheld; [done|]. change kend with (PHYSTOP - 12 * PGSIZE). klia. }
  by exists s, free, t, u, r, s', free', t'.
Defined.

Lemma vmfault_above_maxva_witness :
  vmfault (MAXVA + PGSIZE) 0 (MAXVA + 8) true c0 (Pmem ∅ 0 ∅) = Panic "walk".
Proof. apply vmfault_above_maxva. vm_compute. split; congruence. Defined.

(** The guard page of a process that has forked: no user bit, copy-on-write. *)
Definition guard_bits : Z := Z.lor (Z.lor PTE_R PTE_COW) PTE_V.
Definition guard_pte (pte : Z) : Z := Z.lor (PA2PTE (PTE2PA pte)) guard_bits.

Lemma guard_page : exists s free t u v, vm_inv s free [t; u] none /\ leaves t !! 0 = Some v /\
  flag v PTE_U = false /\ flag v PTE_COW = true /\ (3 <= length free)%nat.
Proof.
  destruct one_page as (s & free & t & u & pte & Hv & Et & Eu & Hlen).
  assert (leaves t !! vpn 0 = Some pte) as Ev by (by rewrite Et).
  destruct (vm_leaf _ _ _ _ Hv t 0 pte ltac:(list_mem) Ev ltac:(done)) as (Hp & _ & _).
  assert (leaf_ok (guard_pte pte)) as Hok.
  { unfold guard_pte. split; [rewrite flag_pack; [done|by apply valid_page_phys|done|done]|by apply pack54]. }
  assert (0 <= guard_bits < 1024) as Hgb by done.
  pose proof (proj1 (pte_pack (PTE2PA pte) guard_bits (valid_page_phys _ Hp) Hgb)) as E.
  assert (forall f, 0 <= f < 1024 -> flag (guard_pte pte) f = flag guard_bits f) as Hf.
  { intros f Hf. exact (flag_pack _ _ f (valid_page_phys _ Hp) Hgb Hf). }
  destruct (vm_retag s free t [u] none 0 pte (guard_pte pte) Hv ltac:(done) Ev Hok E) as (Hv' & _ & El & _).
  { by rewrite Hf. }
  eexists _, free, _, u, (guard_pte pte). split; [exact Hv'|]. split; [by rewrite El, lookup_insert_eq|].
  rewrite !Hf by done. split_and!; [done|done|lia].
Qed.

Lemma copyout_guard_page_witness : exists s free t u v, vm_inv s free [t; u] none /\
  leaves t !! vpn 0 = Some v /\ flag v PTE_U = false /\
  exists s' free' t' pte, copyout 4096 (root t) 0 KERNBASE 1 c0 s = Ok 0 c0 s' /\
    vm_inv s' free' [t'; u] none /\ leaves t' !! vpn 0 = Some pte /\ flag pte PTE_U = false /\
    ubyte (mem s') t' 0 = Some (ld8 (mem s) KERNBASE).
Proof.
  destruct guard_page as (s & free & t & u & v & Hv & Ev & HU & Hc & Hlen).
  exists s, free, t, u, v. do 3 (split; [done|]).
  apply (copyout_guard_page s free t [u] none 4096 0 v KERNBASE c0 Hv zero_nonneg no_locks
    ltac:(done) ltac:(done) Ev HU Hc Hlen).
  intros x Hx. eapply kernel_kheld; [done|]. change kend with (PHYSTOP - 12 * PGSIZE). klia.
Defined.

Lemma cow_isolation_witness : exists k,
  (boot ∅;; exec_all [OpCreate; OpCreate; OpGrow 0 8192 PTE_W; OpFork 0 1; OpStore 1 5000 77]) c0
    (Conf (Pmem ∅ 0 ∅) []) = Ok tt c0 k /\ isolated k.
Proof. apply cow_isolation; [by repeat constructor|exact no_locks]. Defined.

Lemma cow_noninterference_witness : exists k k',
  (boot ∅;; exec_all [OpCreate; OpCreate; OpGrow 0 8192 PTE_W; OpFork 0 1]) c0 (Conf (Pmem ∅ 0 ∅) []) = Ok tt c0 k /\
  exec (OpStore 1 5000 77) c0 k = Ok tt c0 k' /\
  forall j va, Some j <> Some 1%nat -> (j < length (spaces k))%nat -> uva va -> view k' j va = view k j va.
Proof. apply (cow_noninterference ∅ _ (OpStore 1 5000 77)); [by repeat constructor|done|exact no_locks]. Defined.

Lemma vm_no_leak_witness : exists k k' free,
  (boot ∅;; exec_all [OpCreate; OpCreate; OpGrow 0 8192 PTE_W; OpFork 0 1; OpStore 1 5000 77]) c0
    (Conf (Pmem ∅ 0 ∅) []) = Ok tt c0 k /\
  exec_all (replicate (length (spaces k)) (OpFree 0)) c0 k = Ok tt c0 k' /\ spaces k' = [] /\
  chain (mem (phys k')) (freelist (phys k')) free /\ NoDup free /\ forall pa, pa ∈ free <-> valid_page pa.
Proof. apply vm_no_leak; [by repeat constructor|exact no_locks]. Defined.
End Demo.
