(* ===== verification/Sleeplock.v ===== *)
(** * Sleep locks: kernel/sleeplock.c

    A sleep lock is a flag and the pid of its owner, protected by a spinlock
    [lk] of its own; processes wait for it on its address [ch]. *)

From S2P Require Import Prelude.

(** [struct sleeplock]; the inner spinlock is known by its name. *)
Record sleeplock := SleepLock { sl_locked : Z; sl_pid : Z }.

Definition initsleeplock : sleeplock := SleepLock 0 0.

Section sleeplock.
Context {W : Wakes} (lk : lock) (ch : chan).

(** [while (lk->locked) sleep(lk, &lk->lk);] *)
Fixpoint acquiresleep_loop (fuel : nat) : M sleeplock unit :=
  match fuel with
  | O => nofuel
  | S fuel =>
      s ← get;
      if negb (sl_locked s =? 0) then sleep ch lk;; acquiresleep_loop fuel else mret tt
  end.
Definition acquiresleep : M sleeplock unit :=
  acquire lk;;
  acquiresleep_loop (S wakes);;
  (fun c s => Ok tt c (SleepLock 1 (mypid c)));;
  release lk.

Definition releasesleep : M sleeplock unit :=
  acquire lk;;
  put (SleepLock 0 0);;
  wakeup ch;;
  release lk.

Definition holdingsleep : M sleeplock bool :=
  acquire lk;;
  r ← (fun c s => Ok (negb (sl_locked s =? 0) && (sl_pid s =? mypid c)) c s);
  release lk;;
  mret r.

(** ** What they do *)

(** A free lock is taken at once. *)
Lemma acquiresleep_free c s : lk ∉ held c -> sl_locked s = 0 ->
  acquiresleep c s = Ok tt c (SleepLock 1 (mypid c)).
Proof.
  intros Hl Hs. unfold acquiresleep. mstep (acquire_ok lk c s Hl). cbn [acquiresleep_loop].
  rewrite (bind_ok _ _ (hold lk c) s tt (hold lk c) s).
  - rewrite (bind_ok _ _ (hold lk c) s tt (hold lk c) (SleepLock 1 (mypid c))) by done. by apply release_ok.
  - rewrite (bind_ok _ _ (hold lk c) s s (hold lk c) s) by done. by rewrite Hs.
Qed.

Lemma holdingsleep_run c s : lk ∉ held c ->
  holdingsleep c s = Ok (negb (sl_locked s =? 0) && (sl_pid s =? mypid c)) c s.
Proof.
  intros Hl. unfold holdingsleep. mstep (acquire_ok lk c s Hl).
  rewrite (bind_ok _ _ (hold lk c) s (negb (sl_locked s =? 0) && (sl_pid s =? mypid c)) (hold lk c) s) by done.
  by mstep (release_ok lk c s Hl).
Qed.

Lemma releasesleep_run c s : lk ∉ held c ->
  releasesleep c s = Ok tt (Ctx (held c) (trace c ++ [EvWakeup ch]) (me c) (mypid c)) (SleepLock 0 0).
Proof.
  intros Hl. unfold releasesleep. mstep (acquire_ok lk c s Hl).
  rewrite (bind_ok _ _ (hold lk c) s tt (hold lk c) (SleepLock 0 0)) by done.
  set (c1 := Ctx (held c) (trace c ++ [EvWakeup ch]) (me c) (mypid c)).
  rewrite (bind_ok _ _ (hold lk c) _ tt (hold lk c1) (SleepLock 0 0)) by done.
  by apply release_ok.
Qed.

(** A held lock blocks, with the spinlock free and the state unchanged; when
    the waiter is woken it looks at the lock again. *)
Lemma acquiresleep_held c s : held c = ∅ -> sl_locked s <> 0 ->
  exists r, acquiresleep c s = Blocked (WSleep ch lk) c s r /\
    forall c' s', held c' = ∅ -> sl_locked s' = 0 -> (0 < wakes)%nat ->
      r c' s' = Ok tt c' (SleepLock 1 (mypid c')).
Proof.
  intros He Hs. assert (lk ∉ held c) as Hl by set_solver.
  assert (@sleep sleeplock ch lk (hold lk c) s = Blocked (WSleep ch lk) c s (acquire lk)) as Hsl.
  { unfold sleep. rewrite !decide_True; [by rewrite unhold_hold| |set_solver]. rewrite held_hold. set_solver. }
  apply Z.eqb_neq in Hs. eexists. split.
  - unfold acquiresleep. mstep (acquire_ok lk c s Hl). cbn [acquiresleep_loop]. apply bind_blocked.
    rewrite (bind_ok _ _ (hold lk c) s s (hold lk c) s), Hs by done. cbn [negb]. exact (bind_blocked _ _ _ _ _ _ _ _ Hsl).
  - intros c' s' Hc' Hs' Hw. assert (lk ∉ held c') as Hl' by set_solver.
    rewrite (bind_ok _ _ _ _ tt (hold lk c') s').
    + rewrite (bind_ok _ _ (hold lk c') s' tt (hold lk c') (SleepLock 1 (mypid c'))) by done. by apply release_ok.
    + mstep (acquire_ok lk c' s' Hl'). destruct wakes as [|w]; [lia|]. cbn [acquiresleep_loop].
      rewrite (bind_ok _ _ (hold lk c') s' s' (hold lk c') s'), Hs' by done. done.
Qed.

End sleeplock.

(** C34: a sleep lock excludes. A process that acquires a free lock holds it, a
    second one blocks without changing it until the first releases, and then
    gets it; [holdingsleep] tells the owner from everyone else. *)
Theorem sleeplock_excludes {W : Wakes} lk ch c c2 s : held c = ∅ -> held c2 = ∅ -> mypid c <> mypid c2 ->
  sl_locked s = 0 -> (0 < wakes)%nat ->
  exists s1, acquiresleep lk ch c s = Ok tt c s1 /\
    holdingsleep lk c s1 = Ok true c s1 /\ holdingsleep lk c2 s1 = Ok false c2 s1 /\
    exists r, acquiresleep lk ch c2 s1 = Blocked (WSleep ch lk) c2 s1 r /\
    exists c' s2, releasesleep lk ch c s1 = Ok tt c' s2 /\ trace c' = trace c ++ [EvWakeup ch] /\
      r c2 s2 = Ok tt c2 (SleepLock 1 (mypid c2)).
Proof.
  intros He He2 Hne Hs Hw. exists (SleepLock 1 (mypid c)).
  split; [by apply acquiresleep_free; [set_solver|]|].
  rewrite !holdingsleep_run by set_solver. cbn. rewrite Z.eqb_refl. apply Z.eqb_neq in Hne. rewrite Hne. split_and!; try done.
  destruct (acquiresleep_held lk ch c2 (SleepLock 1 (mypid c)) He2) as (r & Hr & Hk); [done|].
  exists r. split; [done|]. eexists _, _. split; [apply releasesleep_run; set_solver|]. split; [done|]. by apply Hk.
Qed.

Module Demo.
Definition owner : ctx := Ctx ∅ [] 0 1.
Definition waiter : ctx := Ctx ∅ [] 1 2.

Lemma sleeplock_excludes_witness : exists s1,
  @acquiresleep (Build_Wakes 1) (LBuf 0) (ChBufLock 0) owner initsleeplock = Ok tt owner s1 /\
  holdingsleep (LBuf 0) waiter s1 = Ok false waiter s1.
Proof.
  destruct (@sleeplock_excludes (Build_Wakes 1) (LBuf 0) (ChBufLock 0) owner waiter initsleeplock)
    as (s1 & H1 & _ & H2 & _); [reflexivity|reflexivity|discriminate|reflexivity|constructor|].
  exists s1. split; assumption.
Defined.
End Demo.
