(* ===== verification/Spinlock.v ===== *)
(** * Spinlocks: kernel/spinlock.c

    The lock words and the per-CPU interrupt nesting, with the operations of
    several CPUs interleaved between the memory accesses that other CPUs can
    see. The other files use [acquire] and [release] of file Prelude, which
    know only the set of locks the running CPU holds; here that set is shown to
    be what the lock words say. *)

From S2P Require Import Prelude.

(** [struct spinlock], without its name, and the fields of [struct cpu] that
    spinlock.c uses, with the interrupt-enable bit of the CPU. *)
Record spinlock := SpinLock { locked : Z; lk_cpu : option Z }.
Record cpu := Cpu { noff : Z; intena : bool; sie : bool }.

Definition initlock : spinlock := SpinLock 0 None.

(** The two reads are one step of the machine: [lk_cpu] is [Some i] only while
    CPU [i] itself has the lock, so that no write of another CPU between them
    changes the answer that CPU [i] gets. *)
Definition holding (i : Z) (lk : spinlock) : bool := negb (locked lk =? 0) && bool_decide (lk_cpu lk = Some i).

Definition push_off (c : cpu) : cpu :=
  let old := sie c in
  let ie := if noff c =? 0 then old else intena c in
  Cpu (noff c + 1) ie false.

Definition pop_off (c : cpu) : string + cpu :=
  if sie c then inl "pop_off - interruptible"
  else if noff c <? 1 then inl "pop_off"
  else
    let n := noff c - 1 in
    inr (Cpu n (intena c) (if (n =? 0) && intena c then true else sie c)).

(** Where a CPU is: in other code, in [acquire] before the swap succeeds, in
    [acquire] before [lk->cpu] is set, in [release] before the word is cleared,
    or stopped in a panic. *)
Inductive pc := Run | Spin (l : lock) | Got (l : lock) | Rel (l : lock) | Stop (msg : string).
#[export] Instance pc_eq_dec : EqDecision pc.
Proof. solve_decision. Defined.

(** [pushes] counts the [push_off]s of other code that are not yet undone. *)
Record smp := Smp { words : gmap lock spinlock; cpus : gmap Z cpu; pcs : gmap Z pc; pushes : gmap Z Z }.

Definition cpu0 : cpu := Cpu 0 false true.
Definition word (s : smp) (l : lock) : spinlock := default initlock (words s !! l).
Definition cpu_at (s : smp) (i : Z) : cpu := default cpu0 (cpus s !! i).
Definition pc_at (s : smp) (i : Z) : pc := default Run (pcs s !! i).
Definition pushed (s : smp) (i : Z) : Z := default 0 (pushes s !! i).

Definition set_word (l : lock) (w : spinlock) (s : smp) : smp := Smp (<[l := w]> (words s)) (cpus s) (pcs s) (pushes s).
Definition set_cpu (i : Z) (c : cpu) (s : smp) : smp := Smp (words s) (<[i := c]> (cpus s)) (pcs s) (pushes s).
Definition set_pc (i : Z) (p : pc) (s : smp) : smp := Smp (words s) (cpus s) (<[i := p]> (pcs s)) (pushes s).
Definition set_pushed (i n : Z) (s : smp) : smp := Smp (words s) (cpus s) (pcs s) (<[i := n]> (pushes s)).

(** [acquire] up to the loop. *)
Definition acquire_begin (i : Z) (l : lock) (s : smp) : smp :=
  let s := set_cpu i (push_off (cpu_at s i)) s in
  if holding i (word s l) then set_pc i (Stop "acquire") s else set_pc i (Spin l) s.

(** One turn of [while(__sync_lock_test_and_set(&lk->locked, 1) != 0)]. *)
Definition acquire_try (i : Z) (l : lock) (s : smp) : smp :=
  let old := locked (word s l) in
  let s := set_word l (SpinLock 1 (lk_cpu (word s l))) s in
  if negb (old =? 0) then s else set_pc i (Got l) s.

(** [lk->cpu = mycpu()] *)
Definition acquire_end (i : Z) (l : lock) (s : smp) : smp :=
  set_pc i Run (set_word l (SpinLock (locked (word s l)) (Some i)) s).

(** [release] up to the fence. *)
Definition release_begin (i : Z) (l : lock) (s : smp) : smp :=
  if negb (holding i (word s l)) then set_pc i (Stop "release") s
  else set_pc i (Rel l) (set_word l (SpinLock (locked (word s l)) None) s).

(** [__sync_lock_release(&lk->locked); pop_off();] *)
Definition release_end (i : Z) (l : lock) (s : smp) : smp :=
  let s := set_word l (SpinLock 0 (lk_cpu (word s l))) s in
  match pop_off (cpu_at s i) with
  | inl msg => set_pc i (Stop msg) s
  | inr c => set_pc i Run (set_cpu i c s)
  end.

(** [pop_off()] in other code. *)
Definition pop_step (i : Z) (s : smp) : smp :=
  match pop_off (cpu_at s i) with
  | inl msg => set_pc i (Stop msg) s
  | inr c => set_pushed i (pushed s i - 1) (set_cpu i c s)
  end.

(** What CPU [i] does next. *)
Inductive act := AAcquire (l : lock) | ATry | ARelease (l : lock) | AEnd | APush | APop | AIntr (b : bool).

(** Other code nests [push_off] and [pop_off] properly, and turns interrupts
    on only while they are not pushed off (usertrap, scheduler). *)
Inductive step : smp -> Z -> act -> smp -> Prop :=
| st_acquire s i l : pc_at s i = Run -> step s i (AAcquire l) (acquire_begin i l s)
| st_try s i l : pc_at s i = Spin l -> step s i ATry (acquire_try i l s)
| st_got s i l : pc_at s i = Got l -> step s i AEnd (acquire_end i l s)
| st_release s i l : pc_at s i = Run -> step s i (ARelease l) (release_begin i l s)
| st_rel s i l : pc_at s i = Rel l -> step s i AEnd (release_end i l s)
| st_push s i : pc_at s i = Run ->
    step s i APush (set_pushed i (pushed s i + 1) (set_cpu i (push_off (cpu_at s i)) s))
| st_pop s i : pc_at s i = Run -> 0 < pushed s i -> step s i APop (pop_step i s)
| st_intr s i b : pc_at s i = Run -> noff (cpu_at s i) = 0 ->
    step s i (AIntr b) (set_cpu i (Cpu 0 (intena (cpu_at s i)) b) s).

Definition smp0 : smp := Smp ∅ ∅ ∅ ∅.
Inductive reach : smp -> Prop :=
| reach0 : reach smp0
| reach_step s i a s' : reach s -> step s i a s' -> reach s'.

(** ** The set of locks a CPU holds *)

Definition holds (i : Z) (s : smp) : gset lock :=
  dom (filter (fun x => holding i x.2 = true) (words s)).

Lemma elem_of_holds i s l : l ∈ holds i s <-> holding i (word s l) = true.
Proof.
  unfold holds, word. rewrite elem_of_dom. split.
  - intros [w [Hw Hh]%map_lookup_filter_Some]. by rewrite Hw.
  - intros Hh. destruct (words s !! l) as [w|] eqn:E; [|done]. exists w. by apply map_lookup_filter_Some.
Qed.

(** A CPU is inside the critical section of a lock from the swap that took it
    to the store that frees it. *)
Definition inside (i : Z) (l : lock) (s : smp) : Prop :=
  l ∈ holds i s \/ pc_at s i = Got l \/ pc_at s i = Rel l.

(** [acquire] or [release] in progress: one [push_off] that no held lock accounts for. *)
Definition busy (p : pc) : Z := match p with Spin _ | Got _ | Rel _ => 1 | _ => 0 end.
Definition stopped (p : pc) : bool := match p with Stop _ => true | _ => false end.

(** The lock that an [acquire] or [release] in progress has taken. *)
Definition mid (p : pc) : option lock := match p with Got l | Rel l => Some l | _ => None end.

Record lock_inv (l : lock) (s : smp) : Prop := {
  lk_free : locked (word s l) = 0 -> lk_cpu (word s l) = None /\ forall i, mid (pc_at s i) <> Some l;
  lk_mid i : mid (pc_at s i) = Some l -> lk_cpu (word s l) = None;
  lk_one i j : mid (pc_at s i) = Some l -> mid (pc_at s j) = Some l -> i = j;
}.
Record cpu_inv (i : Z) (s : smp) : Prop := {
  cpu_noff : stopped (pc_at s i) = false -> noff (cpu_at s i) = Z.of_nat (size (holds i s)) + busy (pc_at s i) + pushed s i;
  cpu_pushed : 0 <= pushed s i;
  cpu_off : stopped (pc_at s i) = false -> 0 < noff (cpu_at s i) -> sie (cpu_at s i) = false;
  cpu_spin l : pc_at s i = Spin l -> l ∉ holds i s;
  cpu_stop msg : pc_at s i = Stop msg -> msg = "acquire" \/ msg = "release";
}.
Definition smp_inv (s : smp) : Prop := (forall l, lock_inv l s) /\ forall i, cpu_inv i s.

(** ** Lookups *)

Lemma word_set l w s l' : word (set_word l w s) l' = if decide (l' = l) then w else word s l'.
Proof. unfold word, set_word. cbn [words]. case_decide; subst; by simplify_map_eq. Qed.
Lemma cpu_set i c s j : cpu_at (set_cpu i c s) j = if decide (j = i) then c else cpu_at s j.
Proof. unfold cpu_at, set_cpu. cbn [cpus]. case_decide; subst; by simplify_map_eq. Qed.
Lemma pc_set i p s j : pc_at (set_pc i p s) j = if decide (j = i) then p else pc_at s j.
Proof. unfold pc_at, set_pc. cbn [pcs]. case_decide; subst; by simplify_map_eq. Qed.
Lemma pushed_set i n s j : pushed (set_pushed i n s) j = if decide (j = i) then n else pushed s j.
Proof. unfold pushed, set_pushed. cbn [pushes]. case_decide; subst; by simplify_map_eq. Qed.

(** The parts of a state that an update leaves alone. *)
Lemma word_frame_cpu x v s y : word (set_cpu x v s) y = word s y.
Proof. done. Qed.
Lemma word_frame_pc x v s y : word (set_pc x v s) y = word s y.
Proof. done. Qed.
Lemma word_frame_pushed x v s y : word (set_pushed x v s) y = word s y.
Proof. done. Qed.
Lemma cpu_frame_word x v s y : cpu_at (set_word x v s) y = cpu_at s y.
Proof. done. Qed.
Lemma cpu_frame_pc x v s y : cpu_at (set_pc x v s) y = cpu_at s y.
Proof. done. Qed.
Lemma cpu_frame_pushed x v s y : cpu_at (set_pushed x v s) y = cpu_at s y.
Proof. done. Qed.
Lemma pc_frame_word x v s y : pc_at (set_word x v s) y = pc_at s y.
Proof. done. Qed.
Lemma pc_frame_cpu x v s y : pc_at (set_cpu x v s) y = pc_at s y.
Proof. done. Qed.
Lemma pc_frame_pushed x v s y : pc_at (set_pushed x v s) y = pc_at s y.
Proof. done. Qed.
Lemma pushed_frame_word x v s y : pushed (set_word x v s) y = pushed s y.
Proof. done. Qed.
Lemma pushed_frame_cpu x v s y : pushed (set_cpu x v s) y = pushed s y.
Proof. done. Qed.
Lemma pushed_frame_pc x v s y : pushed (set_pc x v s) y = pushed s y.
Proof. done. Qed.
Lemma holds_frame_cpu x v s i : holds i (set_cpu x v s) = holds i s.
Proof. done. Qed.
Lemma holds_frame_pc x v s i : holds i (set_pc x v s) = holds i s.
Proof. done. Qed.
Lemma holds_frame_pushed x v s i : holds i (set_pushed x v s) = holds i s.
Proof. done. Qed.

Lemma holds_set l w s j : holds j (set_word l w s) = if holding j w then {[l]} ∪ holds j s else holds j s ∖ {[l]}.
Proof.
  apply set_eq. intros l'. rewrite elem_of_holds, word_set. case_decide as E.
  - subst l'. destruct (holding j w) eqn:Eh; set_solver.
  - rewrite <- elem_of_holds. destruct (holding j w); set_solver.
Qed.

Create Rewrite HintDb smp.
#[export] Hint Rewrite word_set cpu_set pc_set pushed_set holds_set : smp.
#[export] Hint Rewrite word_frame_cpu word_frame_pc word_frame_pushed cpu_frame_word cpu_frame_pc cpu_frame_pushed pc_frame_word pc_frame_cpu pc_frame_pushed pushed_frame_word pushed_frame_cpu pushed_frame_pc holds_frame_cpu holds_frame_pc holds_frame_pushed : smp.

Lemma size_add_lock (l : lock) (X : gset lock) : l ∉ X -> size ({[l]} ∪ X) = S (size X).
Proof. intros H. rewrite size_union by set_solver. by rewrite size_singleton. Qed.
Lemma size_remove (l : lock) (X : gset lock) : l ∈ X -> size X = S (size (X ∖ {[l]})).
Proof. intros H. rewrite <- (size_add_lock l) by set_solver. f_equal. by apply union_difference_singleton_L. Qed.

Lemma holding_true i w : holding i w = true <-> locked w <> 0 /\ lk_cpu w = Some i.
Proof. unfold holding. rewrite andb_true_iff, negb_true_iff, Z.eqb_neq, bool_decide_eq_true. done. Qed.
Lemma holding_none i w : lk_cpu w = None -> holding i w = false.
Proof. intros H. apply not_true_iff_false. rewrite holding_true. intros [_ E]. congruence. Qed.

(** ** Interrupt nesting *)

Lemma push_off_noff c : noff (push_off c) = noff c + 1 /\ sie (push_off c) = false.
Proof. done. Qed.

(** [pop_off] succeeds when a [push_off] is outstanding. *)
Lemma pop_off_ok c : 0 < noff c -> sie c = false ->
  pop_off c = inr (Cpu (noff c - 1) (intena c) ((noff c - 1 =? 0) && intena c)).
Proof.
  intros Hn Hs. unfold pop_off. rewrite Hs. replace (noff c <? 1) with false by lia. cbv zeta. do 2 f_equal.
  by destruct (_ && _).
Qed.

(** ** Every step keeps the invariant *)

Ltac smp := autorewrite with smp; cbn [locked lk_cpu noff sie].

Lemma smp_inv0 : smp_inv smp0.
Proof.
  split; intros x; split; try done; intros; cbn in *; try done.
Qed.

(** A step of CPU [i] that does not concern lock [l]. *)
Lemma lock_inv_frame l i s s' : lock_inv l s -> word s' l = word s l ->
  (forall j, j <> i -> pc_at s' j = pc_at s j) -> mid (pc_at s i) <> Some l -> mid (pc_at s' i) <> Some l -> lock_inv l s'.
Proof.
  intros [F M O] Hw Hp H1 H2.
  assert (Hm : forall j, mid (pc_at s' j) = Some l -> mid (pc_at s j) = Some l).
  { intros j Hj. destruct (decide (j = i)) as [->|]; [done|]. by rewrite <- Hp. }
  split; rewrite ?Hw; eauto. intros E. destruct (F E) as [F1 F2]. split; [done|]. intros j Hj. by apply (F2 j), Hm.
Qed.
(** A step that does not concern CPU [j]. *)
Lemma cpu_inv_frame j s s' : cpu_inv j s -> holds j s' = holds j s -> pc_at s' j = pc_at s j ->
  cpu_at s' j = cpu_at s j -> pushed s' j = pushed s j -> cpu_inv j s'.
Proof. intros [N P S I B] Hh Hp Hc Hn. split; rewrite ?Hh, ?Hp, ?Hc, ?Hn; eauto. Qed.

(** Steps that change no lock word. *)
Lemma inv_local i s s' : smp_inv s -> words s' = words s ->
  (forall j, j <> i -> pc_at s' j = pc_at s j /\ cpu_at s' j = cpu_at s j /\ pushed s' j = pushed s j) ->
  mid (pc_at s i) = None -> mid (pc_at s' i) = None -> cpu_inv i s' -> smp_inv s'.
Proof.
  intros [L C] Hw Hj H1 H2 Hi. split.
  - intros l. apply (lock_inv_frame l i s); rewrite ?H1, ?H2; try done; [unfold word; by rewrite Hw|].
    intros j Hne. by apply Hj.
  - intros j. destruct (decide (j = i)) as [->|Hne]; [done|]. destruct (Hj j Hne) as (? & ? & ?).
    apply (cpu_inv_frame j s); try done. unfold holds. by rewrite Hw.
Qed.

(** Steps that change the word of lock [l] alone. *)
Lemma inv_word i l s s' : smp_inv s -> (forall l', l' <> l -> word s' l' = word s l') ->
  (forall j, j <> i -> holds j s' = holds j s /\ pc_at s' j = pc_at s j /\ cpu_at s' j = cpu_at s j /\ pushed s' j = pushed s j) ->
  (forall l', l' <> l -> mid (pc_at s i) <> Some l') -> (forall l', l' <> l -> mid (pc_at s' i) <> Some l') ->
  lock_inv l s' -> cpu_inv i s' -> smp_inv s'.
Proof.
  intros [L C] Hw Hj H1 H2 Hl Hi. split.
  - intros l'. destruct (decide (l' = l)) as [->|Hne]; [done|].
    apply (lock_inv_frame l' i s); auto. intros j Hn. by apply Hj.
  - intros j. destruct (decide (j = i)) as [->|Hne]; [done|]. destruct (Hj j Hne) as (? & ? & ? & ?).
    by apply (cpu_inv_frame j s).
Qed.

Ltac others := intros; smp; rewrite ?decide_False by done; done.

Lemma inv_acquire_begin s i l : smp_inv s -> pc_at s i = Run -> smp_inv (acquire_begin i l s).
Proof.
  intros Hs Hr. destruct Hs as [L C] eqn:E. clear E. destruct (C i) as [N P S I B].
  rewrite Hr in *. specialize (N eq_refl). cbn in N. unfold acquire_begin. cbv zeta. smp.
  destruct (holding i (word s l)) eqn:Eh;
    (apply (inv_local i s); [done|done|others|by rewrite Hr|smp; by rewrite decide_True|]);
    split; smp; rewrite ?decide_True by done; intros; try done.
  - simplify_eq. auto.
  - unfold push_off. cbn. lia.
  - simplify_eq. rewrite elem_of_holds. by rewrite Eh.
Qed.

(** A change of a word that keeps its holder. *)
Lemma holds_same l w s j : holding j w = holding j (word s l) -> holds j (set_word l w s) = holds j s.
Proof.
  intros H. rewrite holds_set, H. destruct (holding j (word s l)) eqn:E.
  - apply elem_of_holds in E. set_solver.
  - assert (l ∉ holds j s) by (rewrite elem_of_holds; congruence). set_solver.
Qed.

Lemma inv_acquire_try s i l : smp_inv s -> pc_at s i = Spin l -> smp_inv (acquire_try i l s).
Proof.
  intros Hs Hp. pose proof (proj1 Hs l) as [F M O]. pose proof (proj2 Hs i) as [N P S I B].
  rewrite Hp in *. unfold acquire_try. cbv zeta.
  assert (Hh : forall j, holds j (set_word l (SpinLock 1 (lk_cpu (word s l))) s) = holds j s).
  { intros j. apply holds_same. unfold holding. cbn. destruct (locked (word s l) =? 0) eqn:E; [|done].
    apply Z.eqb_eq, F in E as [-> _]. done. }
  destruct (locked (word s l) =? 0) eqn:E; cbn [negb].
  - apply Z.eqb_eq in E. destruct (F E) as [F1 F2].
    apply (inv_word i l s); [done|others|intros; rewrite holds_frame_pc, Hh; others|by rewrite Hp| |..].
    + intros l' Hl. smp. rewrite decide_True by done. cbn. congruence.
    + split; smp; rewrite ?decide_True by done; cbn; try done.
      intros j k. smp. repeat case_decide; subst; try done; intros; exfalso; eapply F2; eauto.
    + split; rewrite ?holds_frame_pc, ?Hh; smp; rewrite ?decide_True by done; eauto; done.
  - apply Z.eqb_neq in E. apply (inv_word i l s); [done|others|intros; rewrite Hh; others|by rewrite Hp|by smp; rewrite Hp|..].
    + split; smp; rewrite ?decide_True by done; cbn; eauto; done.
    + split; rewrite ?Hh; smp; rewrite ?Hp; eauto.
Qed.

(** The word of a lock that an operation in progress has taken. *)
Lemma mid_word s i l : smp_inv s -> mid (pc_at s i) = Some l ->
  locked (word s l) <> 0 /\ lk_cpu (word s l) = None /\ (forall j, l ∉ holds j s) /\ forall j, j <> i -> mid (pc_at s j) <> Some l.
Proof.
  intros [L _] Hm. destruct (L l) as [F M O]. pose proof (M i Hm) as Hc. split_and!; [|done|..].
  - intros E. by destruct (F E) as [_ F2]; destruct (F2 i).
  - intros j. rewrite elem_of_holds, holding_none; done.
  - intros j Hj Hm'. by destruct Hj; apply (O j i).
Qed.

Lemma inv_acquire_end s i l : smp_inv s -> pc_at s i = Got l -> smp_inv (acquire_end i l s).
Proof.
  intros Hs Hp. destruct (mid_word s i l Hs) as (Hl & Hc & Hn & Ho); [by rewrite Hp|].
  pose proof (proj2 Hs i) as [N P S I B]. rewrite Hp in *. unfold acquire_end.
  apply (inv_word i l s); [done|others| |rewrite Hp; cbn; congruence|smp; by rewrite decide_True|..].
  - intros j Hj. rewrite holds_frame_pc. split; [|others]. apply holds_same.
    rewrite (holding_none j (word s l)) by done. apply not_true_iff_false. rewrite holding_true. cbn. intros [_ ?]. congruence.
  - assert (Hm : forall j, mid (pc_at (set_pc i Run (set_word l (SpinLock (locked (word s l)) (Some i)) s)) j) <> Some l).
    { intros j. smp. case_decide; [done|]. by apply Ho. }
    split; [|intros j Hj; by destruct (Hm j)|intros j k Hj; by destruct (Hm j)].
    smp. by rewrite decide_True.
  - specialize (Hn i). split; smp; rewrite ?decide_True by done; try done.
    + intros _. rewrite (proj2 (holding_true i (SpinLock (locked (word s l)) (Some i)))) by done.
      rewrite size_add_lock by done. rewrite N by done. cbn. lia.
Qed.

Lemma inv_release_begin s i l : smp_inv s -> pc_at s i = Run -> smp_inv (release_begin i l s).
Proof.
  intros Hs Hp. pose proof (proj1 Hs l) as [F M O]. pose proof (proj2 Hs i) as [N P S I B].
  rewrite Hp in *. unfold release_begin. destruct (holding i (word s l)) eqn:Eh; cbn [negb].
  - pose proof Eh as [H1 H2]%holding_true.
    assert (Hn : forall j, mid (pc_at s j) <> Some l) by (intros j E; apply M in E; congruence).
    assert (Hf : forall j, holding j (SpinLock (locked (word s l)) None) = false) by (intros; by apply holding_none).
    apply (inv_word i l s); [done|others| |by rewrite Hp|smp; rewrite decide_True by done; cbn; congruence|..].
    + intros j Hj. rewrite holds_frame_pc. split; [|others]. apply holds_same. rewrite Hf. symmetry.
      apply not_true_iff_false. rewrite holding_true. intros [_ ?]. congruence.
    + split; smp; rewrite ?decide_True by done; cbn; try done.
      intros j k. smp. repeat case_decide; subst; try done; intros; exfalso; eapply Hn; eauto.
    + apply elem_of_holds in Eh. split; smp; rewrite ?decide_True by done; rewrite ?Hf; try done.
      intros _. rewrite N by done. rewrite (size_remove l) by done. cbn. lia.
  - apply (inv_local i s); [done|done|others|by rewrite Hp|smp; by rewrite decide_True|].
    split; smp; rewrite ?decide_True by done; try done. intros. simplify_eq. auto.
Qed.

Lemma inv_release_end s i l : smp_inv s -> pc_at s i = Rel l -> smp_inv (release_end i l s).
Proof.
  intros Hs Hp. destruct (mid_word s i l Hs) as (Hl & Hc & Hn & Ho); [by rewrite Hp|].
  pose proof (proj2 Hs i) as [N P S I B]. rewrite Hp in *. specialize (N eq_refl). cbn in N.
  assert (Hh : forall j, holds j (set_word l (SpinLock 0 (lk_cpu (word s l))) s) = holds j s).
  { intros j. apply holds_same. by rewrite !holding_none. }
  unfold release_end. cbv zeta. rewrite cpu_frame_word, pop_off_ok by (try apply S; done || lia).
  apply (inv_word i l s); [done|others|intros; rewrite holds_frame_pc, holds_frame_cpu, Hh; others|rewrite Hp; cbn; congruence|smp; by rewrite decide_True|..].
  - split; smp; rewrite ?decide_True by done; cbn; try done.
    + intros _. split; [done|]. intros j. smp. case_decide; [done|]. by apply Ho.
    + intros j k. smp. repeat case_decide; try done. intros Hj. by destruct (Ho j).
  - split; rewrite ?holds_frame_pc, ?holds_frame_cpu, ?Hh; smp; rewrite ?decide_True by done; cbn; try done.
    + intros _. lia.
    + intros _ Hpos. by replace (noff (cpu_at s i) - 1 =? 0) with false by lia.
Qed.

Lemma smp_inv_step s i a s' : smp_inv s -> step s i a s' -> smp_inv s'.
Proof.
  intros Hs Hst. destruct Hst as [s i l Hp|s i l Hp|s i l Hp|s i l Hp|s i l Hp|s i Hp|s i Hp Hn|s i b Hp Hn].
  - by apply inv_acquire_begin.
  - by apply inv_acquire_try.
  - by apply inv_acquire_end.
  - by apply inv_release_begin.
  - by apply inv_release_end.
  - pose proof (proj2 Hs i) as [N P S I B]. rewrite Hp in *.
    apply (inv_local i s); [done|done|others|by rewrite Hp|smp; by rewrite Hp|].
    split; smp; rewrite ?decide_True, ?Hp by done; try done; [|lia]. intros _. unfold push_off. cbn in *. rewrite N by done. lia.
  - pose proof (proj2 Hs i) as [N P S I B]. rewrite Hp in *. specialize (N eq_refl). cbn in N.
    unfold pop_step. rewrite pop_off_ok by (try apply S; done || lia).
    apply (inv_local i s); [done|done|others|by rewrite Hp|smp; by rewrite Hp|].
    split; smp; rewrite ?decide_True, ?Hp by done; cbn; try done; [lia|lia|].
    intros _ Hpos. by replace (noff (cpu_at s i) - 1 =? 0) with false by lia.
  - pose proof (proj2 Hs i) as [N P S I B]. rewrite Hp in *. specialize (N eq_refl).
    apply (inv_local i s); [done|done|others|by rewrite Hp|smp; by rewrite Hp|].
    split; smp; rewrite ?decide_True, ?Hp by done; cbn in *; try done; lia.
Qed.

Lemma smp_inv_reach s : reach s -> smp_inv s.
Proof. induction 1; [apply smp_inv0|]. by eapply smp_inv_step. Qed.

(** A step of another CPU does not change what a CPU holds or where it is. *)
Lemma step_other s i a s' j : smp_inv s -> step s i a s' -> j <> i -> holds j s' = holds j s /\ pc_at s' j = pc_at s j.
Proof.
  intros Hs Hst Hj. destruct Hst as [s i l Hp|s i l Hp|s i l Hp|s i l Hp|s i l Hp|s i Hp|s i Hp Hn|s i b Hp Hn].
  - unfold acquire_begin. cbv zeta. destruct (holding _ _); smp; by rewrite decide_False.
  - unfold acquire_try. cbv zeta. assert (Hh : holds j (set_word l (SpinLock 1 (lk_cpu (word s l))) s) = holds j s).
    { apply holds_same. unfold holding. cbn. destruct (locked (word s l) =? 0) eqn:E; [|done].
      apply Z.eqb_eq in E. by destruct (lk_free l s (proj1 Hs l) E) as [-> _]. }
    destruct (negb _); rewrite ?holds_frame_pc, Hh; smp; rewrite ?decide_False; done.
  - destruct (mid_word s i l Hs) as (Hl & Hc & Hn & Ho); [by rewrite Hp|].
    unfold acquire_end. rewrite holds_frame_pc, holds_same; [smp; by rewrite decide_False|].
    rewrite (holding_none j (word s l)) by done. apply not_true_iff_false. rewrite holding_true. cbn. intros [_ ?]. congruence.
  - unfold release_begin. destruct (holding i (word s l)) eqn:Eh; cbn [negb]; [|smp; by rewrite decide_False].
    apply holding_true in Eh as [_ Hc]. rewrite holds_frame_pc, holds_same; [smp; by rewrite decide_False|].
    rewrite holding_none by done. symmetry. apply not_true_iff_false. rewrite holding_true. intros [_ ?]. congruence.
  - destruct (mid_word s i l Hs) as (Hl & Hc & Hn & Ho); [by rewrite Hp|].
    unfold release_end. cbv zeta. destruct (pop_off _); smp; rewrite ?decide_False by done;
      (rewrite holding_none by done; specialize (Hn j); split; [set_solver|done]).
  - by smp.
  - unfold pop_step. destruct (pop_off _); smp; by rewrite ?decide_False.
  - by smp.
Qed.

(** What CPU [i] goes through after it has entered [acquire] or [release], with
    any steps of the others in between. *)
Inductive path (i : Z) : smp -> smp -> Prop :=
| path0 s : path i s s
| path_step s s1 j a s2 : path i s s1 -> step s1 j a s2 -> (j = i -> a = ATry \/ a = AEnd) -> path i s s2.

(** CPU [i], holding [H], is in [acquire l] and will hold [H'], or is in
    [release l] and holds [H']. *)
Definition underway (i : Z) (l : lock) (H H' : gset lock) (s : smp) : Prop :=
  smp_inv s /\
  match pc_at s i with
  | Spin l' | Got l' => l' = l /\ holds i s = H /\ H' = {[l]} ∪ H
  | Rel l' => l' = l /\ holds i s = H'
  | Run => holds i s = H'
  | Stop _ => False
  end.

Lemma underway_step i l H H' s j a s' : underway i l H H' s -> step s j a s' -> (j = i -> a = ATry \/ a = AEnd) ->
  underway i l H H' s'.
Proof.
  intros [Hs Hu] Hst Ha. split; [by eapply smp_inv_step|].
  destruct (decide (j = i)) as [->|Hj].
  2: { destruct (step_other s j a s' i Hs Hst) as [-> ->]; [congruence|done]. }
  specialize (Ha eq_refl). destruct Hst as [s i l' Hp|s i l' Hp|s i l' Hp|s i l' Hp|s i l' Hp|s i Hp|s i c Hp Hn Hc|s i b Hp Hn];
    try (by destruct Ha); rewrite Hp in Hu.
  - destruct Hu as (-> & Hh & HH). unfold acquire_try. cbv zeta.
    assert (Hk : holds i (set_word l (SpinLock 1 (lk_cpu (word s l))) s) = H).
    { rewrite holds_same; [done|]. unfold holding. cbn. destruct (locked (word s l) =? 0) eqn:E; [|done].
      apply Z.eqb_eq in E. by destruct (lk_free l s (proj1 Hs l) E) as [-> _]. }
    destruct (negb _); rewrite ?pc_set, ?pc_frame_word, ?decide_True, ?Hp, ?holds_frame_pc by done; by rewrite Hk.
  - destruct Hu as (-> & Hh & HH). destruct (mid_word s i l Hs) as (Hl & Hc & Hn & Ho); [by rewrite Hp|].
    unfold acquire_end. smp. rewrite decide_True by done.
    rewrite (proj2 (holding_true i (SpinLock (locked (word s l)) (Some i)))) by done. congruence.
  - destruct Hu as (-> & Hh). destruct (mid_word s i l Hs) as (Hl & Hc & Hn & Ho); [by rewrite Hp|].
    pose proof (proj2 Hs i) as [N P S I B]. rewrite Hp in *. specialize (N eq_refl). cbn in N.
    unfold release_end. cbv zeta. rewrite cpu_frame_word, pop_off_ok by (try apply S; done || lia).
    smp. rewrite decide_True by done. rewrite holding_none by done. specialize (Hn i). set_solver.
Qed.

Lemma underway_path i l H H' s s' : path i s s' -> underway i l H H' s -> underway i l H H' s'.
Proof. induction 1 as [|s s1 j a s2 _ IH Hst Ha]; [done|]. intros Hu. by eapply underway_step; [apply IH|..]. Qed.

Lemma path_inv i s s' : path i s s' -> smp_inv s -> smp_inv s'.
Proof. induction 1; [done|]. eauto using smp_inv_step. Qed.
(** A CPU that panics stays there. *)
Lemma stop_path i msg s s' : path i s s' -> smp_inv s -> pc_at s i = Stop msg -> pc_at s' i = Stop msg.
Proof.
  induction 1 as [|s s1 j a s2 Hp IH Hst Ha]; [done|]. intros Hs Hm. specialize (IH Hs Hm).
  destruct (decide (j = i)) as [->|Hj].
  - inversion Hst; congruence.
  - destruct (step_other s1 j a s2 i) as [_ ->]; [by apply (path_inv i s)|done|congruence|done].
Qed.

(** How the two calls begin. *)
Lemma acquire_begin_pc i l s :
  (l ∈ holds i s -> pc_at (acquire_begin i l s) i = Stop "acquire") /\
  (l ∉ holds i s -> pc_at (acquire_begin i l s) i = Spin l).
Proof.
  rewrite elem_of_holds. unfold acquire_begin. cbv zeta. autorewrite with smp.
  destruct (holding i (word s l)); rewrite pc_set, decide_True; done.
Qed.
Lemma acquire_begin_holds i l s : holds i (acquire_begin i l s) = holds i s.
Proof. unfold acquire_begin. cbv zeta. by destruct (holding _ _). Qed.
Lemma release_begin_pc i l s :
  (l ∉ holds i s -> pc_at (release_begin i l s) i = Stop "release") /\
  (l ∈ holds i s -> pc_at (release_begin i l s) i = Rel l).
Proof.
  rewrite elem_of_holds. unfold release_begin.
  destruct (holding i (word s l)); cbn [negb]; rewrite pc_set, decide_True; done.
Qed.
Lemma release_begin_holds i l s : l ∈ holds i s -> holds i (release_begin i l s) = holds i s ∖ {[l]}.
Proof.
  intros H. unfold release_begin. rewrite (proj1 (elem_of_holds i s l) H). cbn [negb].
  rewrite holds_frame_pc, holds_set. by rewrite holding_none.
Qed.

(** ** What the locks guarantee *)

(** C7: in every state that any number of CPUs can reach by interleaving their
    uses of the locks, at most one CPU is inside the critical section of a
    lock (from the swap that takes the word to the store that clears it), its
    interrupts are off meanwhile, and the only panics spinlock.c can raise are
    those for acquiring a lock twice and for releasing a lock not held: the
    nesting count that [pop_off] checks is never wrong. *)
Theorem spinlock_mutex s : reach s ->
  (forall i j l, inside i l s -> inside j l s -> i = j) /\
  (forall i l, inside i l s -> stopped (pc_at s i) = false -> sie (cpu_at s i) = false) /\
  (forall i msg, pc_at s i = Stop msg -> msg = "acquire" \/ msg = "release").
Proof.
  intros Hs%smp_inv_reach. split_and!.
  - assert (Hm : forall i l, pc_at s i = Got l \/ pc_at s i = Rel l -> mid (pc_at s i) = Some l) by (by intros i l [-> | ->]).
    intros i j l [Hi|Hi] [Hj|Hj].
    + apply elem_of_holds, holding_true in Hi as [_ Hi]. apply elem_of_holds, holding_true in Hj as [_ Hj]. congruence.
    + by apply Hm, (mid_word s j l Hs) in Hj as (_ & _ & Hn & _); destruct (Hn i).
    + by apply Hm, (mid_word s i l Hs) in Hi as (_ & _ & Hn & _); destruct (Hn j).
    + by apply (lk_one l s (proj1 Hs l)); apply Hm.
  - intros i l Hi Hst. destruct (proj2 Hs i) as [N P S I B]. apply S; [done|]. rewrite N by done.
    destruct Hi as [Hi|[-> | ->]]; [|cbn; lia..]. rewrite (size_remove l) by done.
    assert (0 <= busy (pc_at s i)) by (by destruct (pc_at s i)). lia.
  - intros i msg. apply (proj2 Hs i).
Qed.

(** C11: [acquire] and [release] of the lock words implement [acquire] and
    [release] on the set of locks a CPU holds: they panic exactly when those
    do, and whatever the other CPUs do in between, when the call is over the
    CPU holds exactly the locks those say. Where no other [push_off] is
    outstanding, [noff] is the number of locks held, which is what [sched]
    tests. *)
Theorem spinlock_refines s i l tr me pid : reach s -> pc_at s i = Run ->
  let c := Ctx (holds i s) tr me pid in
  (forall msg, pc_at (acquire_begin i l s) i = Stop msg <-> acquire l c tt = Panic msg) /\
  (forall s', path i (acquire_begin i l s) s' -> pc_at s' i = Run -> acquire l c tt = Ok tt (Ctx (holds i s') tr me pid) tt) /\
  (forall msg, pc_at (release_begin i l s) i = Stop msg <-> release l c tt = Panic msg) /\
  (forall s', path i (release_begin i l s) s' -> pc_at s' i = Run -> release l c tt = Ok tt (Ctx (holds i s') tr me pid) tt) /\
  (pushed s i = 0 -> noff (cpu_at s i) = Z.of_nat (size (held c))).
Proof.
  intros Hr Hp c. pose proof (smp_inv_reach s Hr) as Hs. unfold c, acquire, release. cbn [held].
  destruct (acquire_begin_pc i l s) as [Ha1 Ha2]. destruct (release_begin_pc i l s) as [Hr1 Hr2].
  split_and!.
  - intros msg. case_decide as E; [rewrite Ha1 by done|rewrite Ha2 by done]; naive_solver.
  - intros s' Hpath Hrun. case_decide as E.
    + apply Ha1, (stop_path i _ _ s') in E; [congruence|done|]. by apply inv_acquire_begin.
    + destruct (underway_path i l (holds i s) ({[l]} ∪ holds i s) _ _ Hpath) as [_ Hu].
      { split; [by apply inv_acquire_begin|]. rewrite Ha2 by done. by rewrite acquire_begin_holds. }
      rewrite Hrun in Hu. by rewrite Hu.
  - intros msg. case_decide as E; [rewrite Hr2 by done|rewrite Hr1 by done]; naive_solver.
  - intros s' Hpath Hrun. case_decide as E.
    + destruct (underway_path i l (holds i s) (holds i s ∖ {[l]}) _ _ Hpath) as [_ Hu].
      { split; [by apply inv_release_begin|]. rewrite Hr2 by done. by rewrite release_begin_holds. }
      rewrite Hrun in Hu. by rewrite Hu.
    + apply Hr1, (stop_path i _ _ s') in E; [congruence|done|]. by apply inv_release_begin.
  - intros E. rewrite (cpu_noff i s (proj2 Hs i)) by by rewrite Hp. rewrite Hp, E. cbn. lia.
Qed.

(** ** Two CPUs and one lock *)
Module Demo.
(** CPU 0 holds the lock, CPU 1 spins for it. *)
Definition contended : smp :=
  acquire_try 1 LKmem (acquire_begin 1 LKmem (acquire_end 0 LKmem (acquire_try 0 LKmem (acquire_begin 0 LKmem smp0)))).

Lemma contended_reach : reach contended.
Proof. repeat (eapply reach_step; [|constructor; reflexivity]). apply reach0. Qed.

Lemma spinlock_mutex_witness : inside 0 LKmem contended /\ ~ inside 1 LKmem contended /\ sie (cpu_at contended 0) = false.
Proof.
  destruct (spinlock_mutex contended contended_reach) as (H1 & H2 & _).
  assert (H0 : inside 0 LKmem contended) by (left; vm_compute; done).
  split_and!; [done| |by apply (H2 0 LKmem)]. intros H. by specialize (H1 0 1 LKmem H0 H).
Defined.

Lemma spinlock_refines_witness :
  release LKmem (Ctx {[LKmem]} [] 0 0) tt = Ok tt (Ctx ∅ [] 0 0) tt.
Proof.
  destruct (spinlock_refines contended 0 LKmem [] 0 0 contended_reach eq_refl) as (_ & _ & _ & H & _).
  apply (H (release_end 0 LKmem (release_begin 0 LKmem contended))); [|reflexivity].
  eapply path_step; [apply path0|apply st_rel; reflexivity|auto].
Defined.
End Demo.
