(* ===== verification/Block.v ===== *)
(** * The block layer: what the buffer cache promises to its clients

    kernel/log.c and kernel/fs.c use disk blocks only through [bread],
    [bwrite], [brelse], [bpin], [bunpin] and the data of a locked buffer. The
    abstract state of that interface is a disk, its history of writes, and the
    blocks that are held in memory; the laws say what each call does to it.
    File Bio implements the interface with the LRU cache of kernel/bio.c. *)

From S2P Require Import Prelude Riscv Mem.

Definition BSIZE : Z := 1024.
Abbreviation block := (list Z) (only parsing).
Definition zero_block : block := replicate (Z.to_nat BSIZE) 0.

(** The contents of a block of a disk. *)
Definition dblock (d : gmap Z block) (b : Z) : block := default zero_block (d !! b).

Definition disk_write (d : gmap Z block) (w : Z * block) : gmap Z block := <[w.1 := w.2]> d.
Definition disk_writes (d : gmap Z block) (ws : list (Z * block)) : gmap Z block := foldl disk_write d ws.

(** ** Integers stored in a block *)

(** A little-endian 32-bit word at byte offset [o]. *)
Definition rd32 (l : block) (o : nat) : Z :=
  l !!! o + 256 * (l !!! (o + 1)%nat) + 65536 * (l !!! (o + 2)%nat) + 16777216 * (l !!! (o + 3)%nat).
Definition wr32 (o : nat) (v : Z) (l : block) : block :=
  <[o := u8 v]> (<[(o + 1)%nat := u8 (v / 256)]>
    (<[(o + 2)%nat := u8 (v / 65536)]> (<[(o + 3)%nat := u8 (v / 16777216)]> l))).

Lemma length_wr32 o v l : length (wr32 o v l) = length l.
Proof. unfold wr32. by rewrite !length_insert. Qed.

Lemma wr32_other o v l i : (i < o \/ o + 3 < i)%nat -> wr32 o v l !!! i = l !!! i.
Proof. intros H. unfold wr32. by rewrite !list_lookup_total_insert_ne by lia. Qed.

Lemma rd32_wr32_ne o o' v l : (o + 4 <= o' \/ o' + 4 <= o)%nat -> rd32 (wr32 o v l) o' = rd32 l o'.
Proof. intros H. unfold rd32. by rewrite !wr32_other by lia. Qed.

Lemma u32_bytes v : 0 <= v < 2 ^ 32 ->
  u8 v + 256 * u8 (v / 256) + 65536 * u8 (v / 65536) + 16777216 * u8 (v / 16777216) = v.
Proof. intros H. unfold u8. change (2 ^ 8) with 256. Z.div_mod_to_equations. lia. Qed.

Lemma rd32_wr32_eq o v l : (o + 3 < length l)%nat -> 0 <= v < 2 ^ 32 -> rd32 (wr32 o v l) o = v.
Proof.
  intros Hl Hv. transitivity (u8 v + 256 * u8 (v / 256) + 65536 * u8 (v / 65536) + 16777216 * u8 (v / 16777216));
    [|by apply u32_bytes]. unfold rd32, wr32.
  assert (forall i x (l : block), (i < length l)%nat -> <[i := x]> l !!! i = x) as He
    by (intros; by apply list_lookup_total_insert_eq).
  assert (forall i j x (l : block), i <> j -> <[i := x]> l !!! j = l !!! j) as Hn
    by (intros; by apply list_lookup_total_insert_ne).
  rewrite He by (rewrite ?length_insert; lia).
  rewrite (Hn o), He by (rewrite ?length_insert; lia).
  rewrite (Hn o), (Hn (o + 1)%nat), He by (rewrite ?length_insert; lia).
  rewrite (Hn o), (Hn (o + 1)%nat), (Hn (o + 2)%nat), He by (rewrite ?length_insert; lia). done.
Qed.

(** Shorts, and a slice replaced by bytes. *)
Definition rd16 (l : block) (o : nat) : Z := l !!! o + 256 * (l !!! (o + 1)%nat).
Definition wr16 (o : nat) (v : Z) (l : block) : block := <[o := u8 v]> (<[(o + 1)%nat := u8 (v / 256)]> l).
Definition rd64 (l : block) (o : nat) : Z := rd32 l o + 2 ^ 32 * rd32 l (o + 4).
Definition wr64 (o : nat) (v : Z) (l : block) : block := wr32 o (u32 v) (wr32 (o + 4) (v / 2 ^ 32) l).
Definition splice (o : nat) (bs l : block) : block := take o l ++ bs ++ drop (o + length bs) l.

(** ** Abstract state *)

(** [dirty] has the blocks that some buffer in use holds (open or pinned);
    [handles] the open buffers; [pins] how often a block is pinned. *)
Record bstate := BState {
  disk : gmap Z block;
  hist : list (Z * block);
  dirty : gmap Z block;
  handles : gmap Z Z;
  pins : gmap Z nat;
}.

(** What a reader of block [b] gets. *)
Definition content (a : bstate) (b : Z) : block := default (dblock (disk a) b) (dirty a !! b).

Definition npins (a : bstate) (b : Z) : nat := default 0%nat (pins a !! b).

Definition is_open (a : bstate) (b : Z) : Prop := exists h, handles a !! h = Some b.

Definition a_open (h b : Z) (a : bstate) : bstate :=
  BState (disk a) (hist a) (<[b := content a b]> (dirty a)) (<[h := b]> (handles a)) (pins a).

Definition a_set (b : Z) (d : block) (a : bstate) : bstate :=
  BState (disk a) (hist a) (<[b := d]> (dirty a)) (handles a) (pins a).

Definition a_write (b : Z) (a : bstate) : bstate :=
  BState (<[b := content a b]> (disk a)) (hist a ++ [(b, content a b)]) (dirty a) (handles a) (pins a).

Definition a_close (h b : Z) (a : bstate) : bstate :=
  BState (disk a) (hist a) (if decide (npins a b = 0%nat) then delete b (dirty a) else dirty a)
    (delete h (handles a)) (pins a).

Definition a_pin (b : Z) (n : nat) (a : bstate) : bstate :=
  BState (disk a) (hist a) (dirty a) (handles a) (<[b := n]> (pins a)).

Lemma content_clean a b : dirty a !! b = None -> content a b = dblock (disk a) b.
Proof. intros H. unfold content. by rewrite H. Qed.

Lemma content_dirty a b d : dirty a !! b = Some d -> content a b = d.
Proof. intros H. unfold content. by rewrite H. Qed.

Lemma dblock_insert d b x b' : dblock (<[b := x]> d) b' = if decide (b = b') then x else dblock d b'.
Proof. unfold dblock. rewrite lookup_insert. by case_decide. Qed.

(** ** The interface *)

Class BlockOps (S : Type) := {
  bread : Z -> Z -> M S Z;
  bwrite : Z -> M S unit;
  brelse : Z -> M S unit;
  bpin : Z -> M S unit;
  bunpin : Z -> M S unit;
  b_data : S -> Z -> block;
  b_blockno : S -> Z -> Z;
  b_setdata : Z -> block -> S -> S;
}.

(** The locks the block layer takes itself; it acts for process [pid]. *)
Definition block_locks (pid : Z) (c : ctx) : Prop :=
  (LBcache ∉ held c) /\ (LVdisk ∉ held c) /\ (forall i, LBuf i ∉ held c) /\ mypid c = pid.

(** Contexts that differ only in recorded events. *)
Definition same_locks (c c' : ctx) : Prop := held c' = held c /\ me c' = me c /\ mypid c' = mypid c.

Class BlockLaws (S : Type) {ops : BlockOps S} (dev pid : Z) := {
  babs : S -> bstate -> Prop;
  bread_law : forall s a b c, babs s a -> block_locks pid c -> 0 <= b < 2 ^ 32 -> ~ is_open a b ->
    (size (dom (dirty a) ∪ {[b]}) <= Z.to_nat NBUF)%nat ->
    exists h c' s', bread dev b c s = Ok h c' s' /\ same_locks c c' /\ handles a !! h = None /\
      babs s' (a_open h b a);
  bread_full_law : forall s a b c, babs s a -> block_locks pid c -> 0 <= b < 2 ^ 32 -> ~ is_open a b ->
    (Z.to_nat NBUF < size (dom (dirty a) ∪ {[b]}))%nat -> bread dev b c s = Panic "bget: no buffers";
  b_data_law : forall s a h b, babs s a -> handles a !! h = Some b ->
    b_data s h = content a b /\ b_blockno s h = b;
  b_setdata_law : forall s a h b d, babs s a -> handles a !! h = Some b -> length d = Z.to_nat BSIZE ->
    babs (b_setdata h d s) (a_set b d a);
  bwrite_law : forall s a h b c, babs s a -> block_locks pid c -> handles a !! h = Some b ->
    exists c' s', bwrite h c s = Ok tt c' s' /\ same_locks c c' /\ babs s' (a_write b a);
  brelse_law : forall s a h b c, babs s a -> block_locks pid c -> handles a !! h = Some b ->
    (0 < npins a b)%nat \/ content a b = dblock (disk a) b ->
    exists c' s', brelse h c s = Ok tt c' s' /\ same_locks c c' /\ babs s' (a_close h b a);
  bpin_law : forall s a h b c, babs s a -> block_locks pid c -> handles a !! h = Some b ->
    Z.of_nat (npins a b) < 2 ^ 16 ->
    exists c' s', bpin h c s = Ok tt c' s' /\ same_locks c c' /\ babs s' (a_pin b (npins a b + 1) a);
  bunpin_law : forall s a h b c, babs s a -> block_locks pid c -> handles a !! h = Some b ->
    (0 < npins a b)%nat ->
    exists c' s', bunpin h c s = Ok tt c' s' /\ same_locks c c' /\ babs s' (a_pin b (npins a b - 1) a);
  babs_open_dirty : forall s a h b, babs s a -> handles a !! h = Some b -> is_Some (dirty a !! b);
  babs_len : forall s a b, babs s a -> length (content a b) = Z.to_nat BSIZE;
}.
