(* ===== verification/BioList.v ===== *)
(** * The list of buffers

    Chains of pointers through a function, and the doubly linked list of the
    buffer cache: what unlinking a buffer and linking it in front do to it. *)

From S2P Require Import Prelude Riscv Mem Sleeplock Block Bio.

(** ** Chains *)

(** Following [f] from [x] visits [l] and then reaches [e]. *)
Fixpoint chain (f : Z -> Z) (x : Z) (l : list Z) (e : Z) : Prop :=
  match l with
  | [] => f x = e
  | y :: l => f x = y /\ chain f y l e
  end.

(** The last of a nonempty list. *)
Definition end_of (x : Z) (l : list Z) : Z := default x (last l).

Lemma end_of_cons x y l : end_of x (y :: l) = end_of y l.
Proof. unfold end_of. rewrite last_cons. by destruct (last l). Qed.

Lemma end_of_snoc x l y : end_of x (l ++ [y]) = y.
Proof. unfold end_of. by rewrite last_snoc. Qed.

Lemma end_of_in x l : end_of x l ∈ x :: l.
Proof.
  revert x. induction l as [|y l IH]; intros x; [apply elem_of_cons; by left|].
  rewrite end_of_cons. apply elem_of_cons. right. apply IH.
Qed.

Lemma end_of_rev x l : end_of x (reverse l) = default x (head l).
Proof. unfold end_of. by rewrite last_reverse. Qed.

Lemma links_ext f g x l e : (forall y, y ∈ x :: l -> f y = g y) -> chain f x l e -> chain g x l e.
Proof.
  revert x. induction l as [|y l IH]; intros x H; cbn [chain].
  - intros <-. symmetry. apply H. list_mem.
  - intros [<- Hc]. split; [symmetry; apply H; list_mem|]. apply IH; [|done]. intros z Hz. apply H.
    apply elem_of_cons. by right.
Qed.

Lemma chain_head f x l e : chain f x l e -> f x = default e (head l).
Proof. destruct l; [done|]. by intros [-> _]. Qed.

Lemma chain_app f x l1 y l2 e : chain f x (l1 ++ y :: l2) e <-> chain f x l1 y /\ chain f y l2 e.
Proof.
  revert x. induction l1 as [|z l1 IH]; intros x; cbn [app chain]; [done|]. rewrite IH. naive_solver.
Qed.

Lemma chain_last f x l e : chain f x l e -> f (end_of x l) = e.
Proof.
  revert x. induction l as [|y l IH]; intros x; [done|]. intros [_ H]. rewrite end_of_cons. by apply IH.
Qed.

Definition fupd (f : Z -> Z) (x v y : Z) : Z := if decide (y = x) then v else f y.

Lemma chain_fupd_out f x l e z v : (z ∉ x :: l) -> chain f x l e -> chain (fupd f z v) x l e.
Proof.
  intros Hz. apply links_ext. intros y Hy. unfold fupd. rewrite decide_False; [done|]. by intros ->.
Qed.

Lemma chain_unlink f x l1 b l2 e : NoDup (x :: l1 ++ b :: l2) -> chain f x (l1 ++ b :: l2) e ->
  chain (fupd f (end_of x l1) (f b)) x (l1 ++ l2) e.
Proof.
  revert x. induction l1 as [|y l1 IH]; intros x Hnd Hc.
  - destruct Hc as [Hx Hc]. cbn [app end_of last default] in *. destruct l2 as [|z l2]; cbn [chain] in *.
    + unfold fupd, end_of. cbn. by rewrite decide_True.
    + destruct Hc as [Hb Hc]. split; [unfold fupd, end_of; cbn; by rewrite decide_True|].
      apply chain_fupd_out; [|done]. unfold end_of. cbn. apply NoDup_cons in Hnd as [Hx' _]. intros Hin. apply Hx'.
      apply elem_of_cons. by right.
  - destruct Hc as [Hx Hc]. cbn [app] in *. apply NoDup_cons in Hnd as [Hx' Hnd]. rewrite end_of_cons.
    split; [|by apply IH]. unfold fupd. rewrite decide_False; [done|]. intros ->. apply Hx'.
    pose proof (end_of_in y l1) as Hin. apply elem_of_cons in Hin as [->|Hin]; [list_mem|].
    apply elem_of_cons. right. apply elem_of_app. by left.
Qed.

Lemma chain_push f x l e b : NoDup (x :: l) -> (b ∉ x :: l) -> chain f x l e ->
  chain (fupd (fupd f b (f x)) x b) x (b :: l) e.
Proof.
  intros Hnd Hb Hc. assert (b <> x) as Hne by (intros ->; apply Hb; list_mem). apply NoDup_cons in Hnd as [Hx _].
  cbn [chain]. unfold fupd at 1. rewrite decide_True by done. split; [done|].
  assert (fupd (fupd f b (f x)) x b b = f x) as Ebx.
  { unfold fupd. by rewrite decide_False, decide_True. }
  destruct l as [|y l]; cbn [chain] in *; rewrite Ebx; [done|]. destruct Hc as [Hy Hc]. split; [done|].
  apply chain_fupd_out; [done|]. apply chain_fupd_out; [|done]. intros Hin. apply Hb. apply elem_of_cons. by right.
Qed.

Lemma chain_snoc f x l e b : NoDup (x :: l) -> (b ∉ x :: l) -> chain f x l e ->
  chain (fupd (fupd f b e) (end_of x l) b) x (l ++ [b]) e.
Proof.
  revert x. induction l as [|y l IH]; intros x Hnd Hb Hc.
  - assert (b <> x) as Hne by (intros ->; apply Hb; list_mem). unfold end_of, fupd. cbn.
    rewrite decide_True, decide_False, decide_True by done. done.
  - destruct Hc as [Hx Hc]. rewrite end_of_cons. apply NoDup_cons in Hnd as [Hx' Hnd]. cbn [app chain].
    split; [|apply IH; [done| |done]; intros Hin; apply Hb, elem_of_cons; by right].
    unfold fupd. rewrite !decide_False; [done| |].
    + intros ->. apply Hb. list_mem.
    + intros ->. apply Hx', end_of_in.
Qed.

(** ** The list of the cache *)

Record blist (s : bcache) (l : list Z) : Prop := {
  bl_perm : l ≡ₚ seqZ 0 NBUF;
  bl_next : chain (fun i => bf_next (bf s i)) bhead l bhead;
  bl_prev : chain (fun i => bf_prev (bf s i)) bhead (reverse l) bhead;
}.

Lemma bf_upd s i f j : bf (upd_bf i f s) j = if decide (j = i) then f (bf s i) else bf s j.
Proof.
  unfold bf at 1, upd_bf. cbn [bufs]. rewrite lookup_insert. repeat case_decide; subst; done.
Qed.

Lemma blist_range s l i : blist s l -> i ∈ l <-> 0 <= i < NBUF.
Proof. intros [Hp _ _]. rewrite Hp, elem_of_seqZ. lia. Qed.

Lemma blist_nodup s l : blist s l -> NoDup (bhead :: l).
Proof.
  intros Hb. apply NoDup_cons. split; [rewrite (blist_range _ _ _ Hb); unfold bhead; lia|].
  rewrite (bl_perm _ _ Hb). apply NoDup_seqZ.
Qed.

Lemma NoDup_rev x (l : list Z) : NoDup (x :: l) -> NoDup (x :: reverse l).
Proof. by rewrite reverse_Permutation. Qed.

Lemma blist_ext s s' l : (forall i, bf_next (bf s' i) = bf_next (bf s i)) ->
  (forall i, bf_prev (bf s' i) = bf_prev (bf s i)) -> blist s l -> blist s' l.
Proof.
  intros Hn Hp [H1 H2 H3]. split; [done|..].
  - by apply (links_ext (fun i => bf_next (bf s i))).
  - by apply (links_ext (fun i => bf_prev (bf s i))).
Qed.

(** Unlinking [b]: the two assignments of [brelse]. *)
Definition unlink_st (b : Z) (s : bcache) : bcache :=
  let s1 := upd_bf (bf_next (bf s b)) (set_prev (bf_prev (bf s b))) s in
  upd_bf (bf_prev (bf s1 b)) (set_next (bf_next (bf s1 b))) s1.

(** The assignments of [link_front]. *)
Definition front_st (b : Z) (s : bcache) : bcache :=
  let s1 := upd_bf b (set_prev bhead) (upd_bf b (set_next (bf_next (bf s bhead))) s) in
  upd_bf bhead (set_next b) (upd_bf (bf_next (bf s1 bhead)) (set_prev b) s1).

Lemma link_front_run b c s : link_front b c s = Ok tt c (front_st b s).
Proof. done. Qed.

(** The pointers along the list, with [b] not in it yet or any more. *)
Definition links (s : bcache) (l : list Z) : Prop :=
  chain (fun i => bf_next (bf s i)) bhead l bhead /\ chain (fun i => bf_prev (bf s i)) bhead (reverse l) bhead.

Lemma links_next s l : links s l -> bf_next (bf s bhead) = end_of bhead (reverse l).
Proof. intros [H _]. by rewrite (chain_head _ _ _ _ H), end_of_rev. Qed.

Lemma bf_next_upd s i f j : bf_next (bf (upd_bf i f s) j) = if decide (j = i) then bf_next (f (bf s i)) else bf_next (bf s j).
Proof. rewrite bf_upd. by case_decide. Qed.

Lemma bf_prev_upd s i f j : bf_prev (bf (upd_bf i f s) j) = if decide (j = i) then bf_prev (f (bf s i)) else bf_prev (bf s j).
Proof. rewrite bf_upd. by case_decide. Qed.

Lemma links_unlink s l1 b l2 : NoDup (bhead :: l1 ++ b :: l2) -> links s (l1 ++ b :: l2) ->
  links (unlink_st b s) (l1 ++ l2).
Proof.
  intros Hnd [Hn Hp]. assert (NoDup (bhead :: reverse (l1 ++ b :: l2))) as Hnd' by (by apply NoDup_rev).
  rewrite reverse_app, reverse_cons, <- app_assoc in Hp, Hnd'. cbn [app] in Hp, Hnd'.
  assert (bf_next (bf s b) = end_of bhead (reverse l2)) as En.
  { apply chain_app in Hn as [_ Hn]. by rewrite (chain_head _ _ _ _ Hn), end_of_rev. }
  assert (bf_prev (bf s b) = end_of bhead l1) as Ep.
  { apply chain_app in Hp as [_ Hp]. rewrite (chain_head _ _ _ _ Hp). unfold end_of. by rewrite head_reverse. }
  set (n := bf_next (bf s b)) in *. set (p := bf_prev (bf s b)) in *.
  assert (b <> n /\ b <> p) as [Hbn Hbp].
  { rewrite En, Ep. apply NoDup_cons in Hnd as [Hb0 Hnd]. apply NoDup_app in Hnd as (_ & Hd & Hnd2).
    apply NoDup_cons in Hnd2 as [Hb2 _]. split; intros E.
    - pose proof (end_of_in bhead (reverse l2)) as Hin. rewrite <- E in Hin. apply elem_of_cons in Hin as [->|Hin].
      + apply Hb0, elem_of_app. right. list_mem.
      + by apply Hb2, elem_of_reverse.
    - pose proof (end_of_in bhead l1) as Hin. rewrite <- E in Hin. apply elem_of_cons in Hin as [->|Hin].
      + apply Hb0, elem_of_app. right. list_mem.
      + apply (Hd b Hin). list_mem. }
  assert (unlink_st b s = upd_bf p (set_next n) (upd_bf n (set_prev p) s)) as ->.
  { unfold unlink_st. fold n p. by rewrite !bf_upd, !decide_False. }
  split.
  - eapply links_ext; [|exact (chain_unlink _ _ _ _ _ _ Hnd Hn)]. intros y _. rewrite !bf_next_upd. unfold fupd.
    rewrite <- Ep. cbn [set_next set_prev bf_next]. fold n p. repeat case_decide; congruence.
  - rewrite reverse_app. eapply links_ext; [|exact (chain_unlink _ _ _ _ _ _ Hnd' Hp)]. intros y _.
    rewrite !bf_prev_upd. unfold fupd. rewrite <- En. cbn [set_next set_prev bf_prev]. rewrite bf_prev_upd. cbn [set_prev bf_prev]. fold n p.
    repeat case_decide; congruence.
Qed.

Lemma links_front s b l : NoDup (bhead :: b :: l) -> links s l -> links (front_st b s) (b :: l).
Proof.
  intros Hnd Hl. apply NoDup_cons in Hnd as [Hb0 Hnd]. apply NoDup_cons in Hnd as [Hbl Hnd].
  assert (NoDup (bhead :: l)) as Hnd1 by (apply NoDup_cons; split; [intros ?; apply Hb0; list_mem|done]).
  assert (b ∉ bhead :: l) as Hb by (intros [->|?]%elem_of_cons; [apply Hb0; list_mem|done]).
  assert (b <> bhead) as Hbh by (intros ->; apply Hb; list_mem).
  pose proof (links_next _ _ Hl) as En. destruct Hl as [Hn Hp]. set (h := bf_next (bf s bhead)) in *.
  assert (front_st b s = upd_bf bhead (set_next b) (upd_bf h (set_prev b) (upd_bf b (set_prev bhead) (upd_bf b (set_next h) s)))) as ->.
  { unfold front_st. fold h. by rewrite !bf_next_upd, !decide_False. }
  assert (h <> b) as Hhb.
  { intros E. apply Hb. rewrite <- E, En. pose proof (end_of_in bhead (reverse l)) as Hin.
    apply elem_of_cons in Hin as [->|Hin]; [list_mem|]. apply elem_of_cons. right. by apply elem_of_reverse. }
  split.
  - eapply links_ext; [|exact (chain_push _ _ _ _ b Hnd1 Hb Hn)]. intros y _. fold h. unfold fupd.
    rewrite !bf_next_upd. cbn [set_next set_prev bf_next]. rewrite !bf_next_upd. cbn [set_next set_prev bf_next].
    fold h. repeat case_decide; congruence.
  - rewrite reverse_cons. eapply links_ext; [|eapply (chain_snoc _ _ _ _ b); [by apply NoDup_rev| |exact Hp]].
    + intros y _. rewrite <- En. unfold fupd. rewrite !bf_prev_upd. cbn [set_next set_prev bf_prev].
      rewrite !bf_prev_upd. cbn [set_next set_prev bf_prev].
      repeat case_decide; congruence.
    + intros [E|Hin]%elem_of_cons; [done|]. by apply Hbl, elem_of_reverse.
Qed.

Lemma blist_links s l : blist s l <-> l ≡ₚ seqZ 0 NBUF /\ links s l.
Proof. split; [by intros [? ? ?]|by intros (? & ? & ?)]. Qed.

(** What the pointer updates leave alone. *)
Definition same_but_links (b b' : buf) : Prop :=
  bf_valid b' = bf_valid b /\ bf_disk b' = bf_disk b /\ bf_dev b' = bf_dev b /\ bf_blockno b' = bf_blockno b /\
  bf_lock b' = bf_lock b /\ bf_refcnt b' = bf_refcnt b /\ bf_data b' = bf_data b.

Lemma upd_links_same s i f : (forall b, same_but_links b (f b)) -> forall j, same_but_links (bf s j) (bf (upd_bf i f s) j).
Proof. intros H j. rewrite bf_upd. case_decide as E; [subst; apply H|done]. Qed.

Lemma same_but_links_trans a b c : same_but_links a b -> same_but_links b c -> same_but_links a c.
Proof. unfold same_but_links. intuition congruence. Qed.

Definition move_front (b : Z) (s : bcache) : bcache := front_st b (unlink_st b s).

Lemma unlink_st_same b s i : same_but_links (bf s i) (bf (unlink_st b s) i).
Proof. unfold unlink_st. eapply same_but_links_trans; by apply upd_links_same. Qed.

Lemma front_st_same b s i : same_but_links (bf s i) (bf (front_st b s) i).
Proof. unfold front_st. repeat (eapply same_but_links_trans; [|by apply upd_links_same]). done. Qed.

(** Releasing the last reference to [b] moves it to the front. *)
Lemma move_front_list s l1 b l2 : blist s (l1 ++ b :: l2) ->
  blist (move_front b s) (b :: l1 ++ l2) /\ forall i, same_but_links (bf s i) (bf (move_front b s) i).
Proof.
  intros Hb. pose proof (blist_nodup _ _ Hb) as Hnd. apply blist_links in Hb as [Hp Hl]. split.
  - apply blist_links. split; [by rewrite <- Hp, Permutation_middle|].
    apply links_front; [|by apply links_unlink]. by rewrite Permutation_middle.
  - intros i. unfold move_front. eapply same_but_links_trans; [apply unlink_st_same|apply front_st_same].
Qed.
