(* ===== verification/BioRep.v ===== *)
(** * The buffer cache implements the block interface

    The relation between the cache and the abstract state of file Block, what
    each operation of kernel/bio.c does to it, and the instance of the
    interface that the log and the file system are clients of. *)

From S2P Require Import Prelude Riscv Mem Sleeplock Block Bio BioList.

Lemma first_split {A} (P : A -> Prop) `{forall x, Decision (P x)} (l : list A) :
  (exists l1 x l2, l = l1 ++ x :: l2 /\ P x /\ Forall (fun y => ~ P y) l1) \/ Forall (fun y => ~ P y) l.
Proof.
  induction l as [|x l IH]; [by right|]. destruct (decide (P x)) as [Hx|Hx].
  - left. exists [], x, l. split_and!; done || constructor.
  - destruct IH as [(l1 & y & l2 & -> & Hy & Hl)|Hl]; [left|right; by constructor].
    exists (x :: l1), y, l2. split_and!; [done..|by constructor].
Qed.

Definition inb (i : Z) : Prop := 0 <= i < NBUF.

Section rep.
Context {W : Wakes} (dev pid : Z).

(** ** The relation *)

Definition hcnt (a : bstate) (i : Z) : Z := if decide (is_Some (handles a !! i)) then 1 else 0.
Definition pcnt (a : bstate) (b : buf) : Z := if decide (bf_dev b = dev) then Z.of_nat (npins a (bf_blockno b)) else 0.

(** What holds of buffer [i]. *)
Record buf_ok (a : bstate) (i : Z) (b : buf) : Prop := {
  bo_ref : bf_refcnt b = hcnt a i + pcnt a b;
  bo_open : forall x, handles a !! i = Some x -> bf_dev b = dev /\ bf_blockno b = x /\ bf_lock b = SleepLock 1 pid;
  bo_free : handles a !! i = None -> sl_locked (bf_lock b) = 0;
  bo_valid : 0 < bf_refcnt b -> bf_valid b = true;
  bo_dirty : 0 < bf_refcnt b -> dirty a !! bf_blockno b = Some (bf_data b);
  bo_clean : bf_refcnt b = 0 -> bf_dev b = dev -> bf_valid b = true -> bf_data b = dblock (disk a) (bf_blockno b);
  bo_len : length (bf_data b) = Z.to_nat BSIZE;
}.

Record bio_abs (s : bcache) (a : bstate) : Prop := {
  ba_list : exists l, blist s l;
  ba_disk : bio_disk s = disk a;
  ba_hist : bio_hist s = hist a;
  ba_buf : forall i, inb i -> buf_ok a i (bf s i);
  ba_uniq : forall i j, inb i -> inb j -> bf_dev (bf s i) = dev -> bf_dev (bf s j) = dev ->
    bf_blockno (bf s i) = bf_blockno (bf s j) -> i = j;
  ba_range : forall i b, handles a !! i = Some b -> inb i;
  ba_pinned : forall b, (0 < npins a b)%nat -> exists i, inb i /\ bf_dev (bf s i) = dev /\ bf_blockno (bf s i) = b;
  ba_pmax : forall b, Z.of_nat (npins a b) <= 2 ^ 16;
  ba_used : forall b, is_Some (dirty a !! b) -> exists i, inb i /\ 0 < bf_refcnt (bf s i) /\ bf_blockno (bf s i) = b;
  ba_dlen : forall b, length (dblock (disk a) b) = Z.to_nat BSIZE;
}.

Lemma hcnt_bound a i : 0 <= hcnt a i <= 1.
Proof. unfold hcnt. case_decide; lia. Qed.

Lemma pcnt_nonneg a b : 0 <= pcnt a b.
Proof. unfold pcnt. case_decide; lia. Qed.

Lemma ref_nonneg a i b : buf_ok a i b -> 0 <= bf_refcnt b.
Proof. intros H. rewrite (bo_ref _ _ _ H). pose proof (hcnt_bound a i). pose proof (pcnt_nonneg a b). lia. Qed.

Lemma used_dev a i b : buf_ok a i b -> 0 < bf_refcnt b -> bf_dev b = dev.
Proof.
  intros H Hr. rewrite (bo_ref _ _ _ H) in Hr. destruct (handles a !! i) as [x|] eqn:E.
  - by destruct (bo_open _ _ _ H x E).
  - unfold hcnt in Hr. rewrite E in Hr. rewrite decide_False in Hr by (by intros []).
    unfold pcnt in Hr. case_decide; [done|lia].
Qed.

(** A buffer whose block and handle are left alone is still in order. *)
Lemma buf_ok_frame a a' i b b' : buf_ok a i b -> same_but_links b b' -> handles a' !! i = handles a !! i ->
  (bf_dev b = dev -> npins a' (bf_blockno b) = npins a (bf_blockno b) /\
     dirty a' !! bf_blockno b = dirty a !! bf_blockno b /\ dblock (disk a') (bf_blockno b) = dblock (disk a) (bf_blockno b)) ->
  buf_ok a' i b'.
Proof.
  intros H (E1 & E2 & E3 & E4 & E5 & E6 & E7) Hh Hx. split; rewrite ?E1, ?E2, ?E3, ?E4, ?E5, ?E6, ?E7, ?Hh.
  - rewrite (bo_ref _ _ _ H). unfold hcnt, pcnt. rewrite Hh, E3, E4. f_equal. case_decide; [|done].
    by destruct Hx as [-> _].
  - apply H.
  - apply H.
  - apply H.
  - intros Hr. pose proof (used_dev _ _ _ H Hr) as Hd. destruct (Hx Hd) as (_ & -> & _). by apply H.
  - intros Hr Hd Hv. destruct (Hx Hd) as (_ & _ & ->). by apply H.
  - apply H.
Qed.

(** An operation on buffer [i], which holds block [x] afterwards. *)
Lemma bio_abs_step s a s' a' i x : bio_abs s a -> inb i -> (exists l, blist s' l) ->
  bio_disk s' = disk a' -> bio_hist s' = hist a' ->
  (forall j, inb j -> j <> i -> same_but_links (bf s j) (bf s' j)) ->
  bf_dev (bf s' i) = dev -> bf_blockno (bf s' i) = x ->
  (forall j, inb j -> j <> i -> bf_dev (bf s j) = dev -> bf_blockno (bf s j) <> x) ->
  (bf_dev (bf s i) = dev -> bf_blockno (bf s i) <> x -> bf_refcnt (bf s i) = 0) ->
  (forall j, j <> i -> handles a' !! j = handles a !! j) ->
  (forall y, y <> x -> npins a' y = npins a y /\ dirty a' !! y = dirty a !! y /\ dblock (disk a') y = dblock (disk a) y) ->
  Z.of_nat (npins a' x) <= 2 ^ 16 -> length (dblock (disk a') x) = Z.to_nat BSIZE ->
  (is_Some (dirty a' !! x) -> 0 < bf_refcnt (bf s' i)) ->
  buf_ok a' i (bf s' i) -> bio_abs s' a'.
Proof.
  intros Ha Hi Hl Hd Hhi Hs Hdev Hbn Hx Hold Hh Hy Hpm Hlen Hdir Hok.
  assert (forall j, inb j -> j <> i -> bf_dev (bf s' j) = bf_dev (bf s j) /\ bf_blockno (bf s' j) = bf_blockno (bf s j) /\
    bf_refcnt (bf s' j) = bf_refcnt (bf s j)) as Hj by (intros j ? Hne; by destruct (Hs j) as (_ & _ & ? & ? & _ & ? & _)).
  split; try done.
  - intros j Hjb. destruct (decide (j = i)) as [->|Hne]; [done|].
    apply (buf_ok_frame a a' j (bf s j)); [by apply Ha|by apply Hs|by apply Hh|]. intros Hdj. apply Hy. by apply Hx.
  - intros j k Hjb Hkb Hdj Hdk Hjk. destruct (decide (j = i)) as [->|Hne], (decide (k = i)) as [->|Hne']; [done|..].
    + destruct (Hj k) as (E1 & E2 & _); [done..|]. rewrite E1 in Hdk. rewrite E2, Hbn in Hjk. by destruct (Hx k).
    + destruct (Hj j) as (E1 & E2 & _); [done..|]. rewrite E1 in Hdj. rewrite E2, Hbn in Hjk. by destruct (Hx j).
    + destruct (Hj j) as (E1 & E2 & _), (Hj k) as (F1 & F2 & _); [done..|]. rewrite E1 in Hdj. rewrite F1 in Hdk.
      rewrite E2, F2 in Hjk. by apply (ba_uniq _ _ Ha).
  - intros j b Hjb. destruct (decide (j = i)) as [->|Hne]; [done|]. rewrite Hh in Hjb by done. by apply (ba_range _ _ Ha j b).
  - intros b Hb. destruct (decide (b = x)) as [->|Hne]; [by exists i|]. destruct (Hy b Hne) as [E _]. rewrite E in Hb.
    destruct (ba_pinned _ _ Ha b Hb) as (j & Hjb & Hdj & Hbj). destruct (decide (j = i)) as [->|Hji].
    + assert (bf_refcnt (bf s i) = 0) as E0 by (apply Hold; congruence). rewrite (bo_ref _ _ _ (ba_buf _ _ Ha i Hi)) in E0.
      unfold pcnt in E0. rewrite decide_True, Hbj in E0 by done. pose proof (hcnt_bound a i). lia.
    + exists j. destruct (Hj j) as (-> & -> & _); done.
  - intros b. destruct (decide (b = x)) as [->|Hne]; [done|]. destruct (Hy b Hne) as [-> _]. apply Ha.
  - intros b Hb. destruct (decide (b = x)) as [->|Hne]; [exists i; by split_and!; [|apply Hdir|]|].
    destruct (Hy b Hne) as (_ & E & _). rewrite E in Hb. destruct (ba_used _ _ Ha b Hb) as (j & Hjb & Hr & Hbj).
    destruct (decide (j = i)) as [->|Hji].
    + pose proof (used_dev _ _ _ (ba_buf _ _ Ha i Hi) Hr). rewrite Hold in Hr by congruence. lia.
    + exists j. destruct (Hj j) as (_ & -> & ->); done.
  - intros b. destruct (decide (b = x)) as [->|Hne]; [done|]. destruct (Hy b Hne) as (_ & _ & ->). apply Ha.
Qed.

(** ** Operations on an open buffer *)

Record opened (s : bcache) (a : bstate) (h b : Z) : Prop := {
  op_in : inb h;
  op_ok : buf_ok a h (bf s h);
  op_dev : bf_dev (bf s h) = dev;
  op_block : bf_blockno (bf s h) = b;
  op_lock : bf_lock (bf s h) = SleepLock 1 pid;
  op_ref : bf_refcnt (bf s h) = 1 + Z.of_nat (npins a b);
  op_dirty : dirty a !! b = Some (bf_data (bf s h));
  op_content : content a b = bf_data (bf s h);
  op_uniq : forall j, inb j -> j <> h -> bf_dev (bf s j) = dev -> bf_blockno (bf s j) <> b;
}.

Lemma open_buf s a h b : bio_abs s a -> handles a !! h = Some b -> opened s a h b.
Proof.
  intros Ha Hh. pose proof (ba_range _ _ Ha h b Hh) as Hi. pose proof (ba_buf _ _ Ha h Hi) as Hok.
  destruct (bo_open _ _ _ Hok b Hh) as (Hd & Hb & Hl).
  assert (bf_refcnt (bf s h) = 1 + Z.of_nat (npins a b)) as Hr.
  { rewrite (bo_ref _ _ _ Hok). unfold hcnt, pcnt. rewrite Hh, !decide_True, Hb by done. done. }
  assert (dirty a !! b = Some (bf_data (bf s h))) as Hdir by (rewrite <- Hb; apply (bo_dirty _ _ _ Hok); lia).
  split; try done.
  - unfold content. by rewrite Hdir.
  - intros j Hj Hne Hdj Hbj. apply Hne. apply (ba_uniq _ _ Ha); congruence.
Qed.

Lemma upd_bf_twice i f g s : upd_bf i f (upd_bf i g s) = upd_bf i (fun b => f (g b)) s.
Proof.
  unfold upd_bf. cbn [bufs bio_disk bio_hist]. f_equal. rewrite insert_insert_eq. unfold bf at 1. cbn [bufs].
  by rewrite lookup_insert_eq.
Qed.

(** Changes that leave the list of buffers alone. *)
Lemma blist_upd s l i f : (forall b, bf_next (f b) = bf_next b /\ bf_prev (f b) = bf_prev b) ->
  blist s l -> blist (upd_bf i f s) l.
Proof.
  intros Hf. apply blist_ext; intros j; [rewrite bf_next_upd|rewrite bf_prev_upd]; (case_decide; [subst|done]); apply Hf.
Qed.

Lemma blist_disk s l d h : blist s l -> blist (BCache (bufs s) d h) l.
Proof. by apply blist_ext. Qed.

(** The general shape of an operation on an open buffer that changes its
    record by [f]. *)
Lemma opened_step s a a' h b f d' hi' : bio_abs s a -> opened s a h b ->
  (forall x, bf_next (f x) = bf_next x /\ bf_prev (f x) = bf_prev x /\ bf_dev (f x) = bf_dev x /\ bf_blockno (f x) = bf_blockno x) ->
  disk a' = d' -> hist a' = hi' ->
  (forall j, j <> h -> handles a' !! j = handles a !! j) ->
  (forall y, y <> b -> npins a' y = npins a y /\ dirty a' !! y = dirty a !! y /\ dblock d' y = dblock (disk a) y) ->
  Z.of_nat (npins a' b) <= 2 ^ 16 -> length (dblock d' b) = Z.to_nat BSIZE ->
  (is_Some (dirty a' !! b) -> 0 < bf_refcnt (f (bf s h))) ->
  buf_ok a' h (f (bf s h)) -> bio_abs (BCache (bufs (upd_bf h f s)) d' hi') a'.
Proof.
  intros Ha Ho Hf Hd Hhi Hh Hy Hpm Hlen Hdir Hok. destruct Ho as [Hin _ Hdev Hbn _ _ _ _ Hu].
  assert (forall j, bf (BCache (bufs (upd_bf h f s)) d' hi') j = if decide (j = h) then f (bf s h) else bf s j) as E
    by (intros j; by rewrite <- bf_upd).
  destruct (Hf (bf s h)) as (_ & _ & Ef1 & Ef2).
  destruct (ba_list _ _ Ha) as [l Hl].
  apply (bio_abs_step s a _ a' h b); try done.
  - exists l. apply blist_disk, blist_upd; [|done]. intros x. by destruct (Hf x) as (? & ? & _).
  - intros j _ Hne. by rewrite E, decide_False.
  - by rewrite E, decide_True, Ef1.
  - by rewrite E, decide_True, Ef2.
  - intros y Hne. rewrite Hd. by apply Hy.
  - by rewrite Hd.
  - by rewrite E, decide_True.
  - by rewrite E, decide_True.
Qed.

Lemma opened_step0 s a a' h b f : bio_abs s a -> opened s a h b ->
  (forall x, bf_next (f x) = bf_next x /\ bf_prev (f x) = bf_prev x /\ bf_dev (f x) = bf_dev x /\ bf_blockno (f x) = bf_blockno x) ->
  disk a' = disk a -> hist a' = hist a ->
  (forall j, j <> h -> handles a' !! j = handles a !! j) ->
  (forall y, y <> b -> npins a' y = npins a y /\ dirty a' !! y = dirty a !! y) ->
  Z.of_nat (npins a' b) <= 2 ^ 16 ->
  (is_Some (dirty a' !! b) -> 0 < bf_refcnt (f (bf s h))) ->
  buf_ok a' h (f (bf s h)) -> bio_abs (upd_bf h f s) a'.
Proof.
  intros Ha Ho Hf Hd Hhi Hh Hy Hpm Hdir Hok.
  assert (upd_bf h f s = BCache (bufs (upd_bf h f s)) (bio_disk s) (bio_hist s)) as -> by done.
  apply (opened_step s a a' h b); try done.
  - by rewrite Hd, (ba_disk _ _ Ha).
  - by rewrite Hhi, (ba_hist _ _ Ha).
  - intros y Hne. rewrite (ba_disk _ _ Ha). by destruct (Hy y Hne).
  - rewrite (ba_disk _ _ Ha). apply Ha.
Qed.

Lemma refcnt_small s a h b : bio_abs s a -> opened s a h b -> 1 <= bf_refcnt (bf s h) <= 1 + 2 ^ 16.
Proof. intros Ha Ho. rewrite (op_ref _ _ _ _ Ho). pose proof (ba_pmax _ _ Ha b). lia. Qed.

(** [bpin] and [bunpin] change the count of pins. *)
Lemma pin_abs s a h b n : bio_abs s a -> opened s a h b -> handles a !! h = Some b -> Z.of_nat n <= 2 ^ 16 ->
  bio_abs (upd_bf h (set_bref (1 + Z.of_nat n)) s) (a_pin b n a).
Proof.
  intros Ha Ho Hh Hn. pose proof Ho as [Hin Hok Hdev Hbn Hlk Href Hdir _ _].
  assert (npins (a_pin b n a) b = n) as En by (unfold npins; cbn [a_pin pins]; by rewrite lookup_insert_eq).
  apply (opened_step0 s a _ h b); try done.
  - intros y Hne. split; [|done]. unfold npins. cbn [a_pin pins]. by rewrite lookup_insert_ne.
  - by rewrite En.
  - cbn. lia.
  - split; cbn [a_pin set_bref bf_refcnt bf_dev bf_blockno bf_lock bf_valid bf_data handles dirty disk].
    + unfold hcnt, pcnt. cbn [a_pin handles set_bref bf_dev bf_blockno]. rewrite Hh, !decide_True, Hbn, En by done. lia.
    + intros x Hx. by apply Hok.
    + apply Hok.
    + intros _. apply (bo_valid _ _ _ Hok). lia.
    + intros _. by rewrite Hbn.
    + lia.
    + apply Hok.
Qed.

Lemma bpin_run s a h b c : bio_abs s a -> block_locks pid c -> handles a !! h = Some b ->
  Z.of_nat (npins a b) < 2 ^ 16 ->
  exists c' s', bpin h c s = Ok tt c' s' /\ same_locks c c' /\ bio_abs s' (a_pin b (npins a b + 1) a).
Proof.
  intros Ha (Hb & _) Hh Hn. pose proof (open_buf _ _ _ _ Ha Hh) as Ho. pose proof (refcnt_small _ _ _ _ Ha Ho) as Hr.
  eexists c, _. split; [|split; [by split_and!|]].
  - unfold bpin. mstep (acquire_ok LBcache c s Hb).
    rewrite (bind_ok _ _ (hold LBcache c) s (bf_refcnt (bf s h)) (hold LBcache c) s) by done.
    erewrite bind_ok; [|reflexivity]. apply (release_ok LBcache c _ Hb).
  - rewrite u32_id, (op_ref _ _ _ _ Ho) by lia.
    replace (1 + Z.of_nat (npins a b) + 1) with (1 + Z.of_nat (npins a b + 1)) by lia. apply pin_abs; try done. lia.
Qed.

Lemma bunpin_run s a h b c : bio_abs s a -> block_locks pid c -> handles a !! h = Some b -> (0 < npins a b)%nat ->
  exists c' s', bunpin h c s = Ok tt c' s' /\ same_locks c c' /\ bio_abs s' (a_pin b (npins a b - 1) a).
Proof.
  intros Ha (Hb & _) Hh Hn. pose proof (open_buf _ _ _ _ Ha Hh) as Ho. pose proof (refcnt_small _ _ _ _ Ha Ho) as Hr.
  pose proof (ba_pmax _ _ Ha b) as Hpm.
  eexists c, _. split; [|split; [by split_and!|]].
  - unfold bunpin. mstep (acquire_ok LBcache c s Hb).
    rewrite (bind_ok _ _ (hold LBcache c) s (bf_refcnt (bf s h)) (hold LBcache c) s) by done.
    erewrite bind_ok; [|reflexivity]. apply (release_ok LBcache c _ Hb).
  - rewrite u32_id, (op_ref _ _ _ _ Ho) by lia.
    replace (1 + Z.of_nat (npins a b) - 1) with (1 + Z.of_nat (npins a b - 1)) by lia. apply pin_abs; try done. lia.
Qed.

Lemma setdata_abs s a h b d : bio_abs s a -> handles a !! h = Some b -> length d = Z.to_nat BSIZE ->
  bio_abs (upd_bf h (set_data d) s) (a_set b d a).
Proof.
  intros Ha Hh Hlen. pose proof (open_buf _ _ _ _ Ha Hh) as Ho. pose proof (refcnt_small _ _ _ _ Ha Ho) as Hr.
  pose proof Ho as [Hin Hok Hdev Hbn Hlk Href Hdir _ _].
  apply (opened_step0 s a _ h b); try done.
  - intros y Hne. split; [done|]. cbn [a_set dirty]. by rewrite lookup_insert_ne.
  - apply (ba_pmax _ _ Ha).
  - cbn. lia.
  - split; cbn [a_set set_data bf_refcnt bf_dev bf_blockno bf_lock bf_valid bf_data handles dirty disk]; try apply Hok.
    + intros _. by rewrite Hbn, lookup_insert_eq.
    + lia.
    + done.
Qed.

Lemma holding_run s a h b c : bio_abs s a -> block_locks pid c -> handles a !! h = Some b ->
  on_lock h (fun l _ => holdingsleep l) c s = Ok true c (upd_bf h (set_lock (SleepLock 1 pid)) s).
Proof.
  intros Ha (_ & _ & Hl & Hp) Hh. pose proof (op_lock _ _ _ _ (open_buf _ _ _ _ Ha Hh)) as Hlk. unfold on_lock.
  rewrite (zoom_ok _ _ _ c s true c (SleepLock 1 pid)); [done|].
  rewrite holdingsleep_run by apply Hl. rewrite Hlk, Hp. cbn. by rewrite Z.eqb_refl.
Qed.

(** Storing the lock that is there changes nothing that matters. *)
Lemma relock_abs s a h b : bio_abs s a -> handles a !! h = Some b ->
  bio_abs (upd_bf h (set_lock (SleepLock 1 pid)) s) a.
Proof.
  intros Ha Hh. pose proof (open_buf _ _ _ _ Ha Hh) as Ho. pose proof (refcnt_small _ _ _ _ Ha Ho) as Hr.
  pose proof Ho as [Hin Hok Hdev Hbn Hlk Href Hdir _ _].
  apply (opened_step0 s a _ h b); try done.
  - apply (ba_pmax _ _ Ha).
  - cbn. lia.
  - assert (set_lock (SleepLock 1 pid) (bf s h) = bf s h) as ->; [|done]. rewrite <- Hlk. by destruct (bf s h).
Qed.

Lemma write_abs s a h b : bio_abs s a -> handles a !! h = Some b ->
  bio_abs (BCache (bufs s) (disk_write (bio_disk s) (b, bf_data (bf s h))) (bio_hist s ++ [(b, bf_data (bf s h))])) (a_write b a).
Proof.
  intros Ha Hh. pose proof (open_buf _ _ _ _ Ha Hh) as Ho. pose proof (refcnt_small _ _ _ _ Ha Ho) as Hr.
  pose proof Ho as [Hin Hok Hdev Hbn Hlk Href Hdir Hct Hu]. destruct (ba_list _ _ Ha) as [l Hl].
  apply (bio_abs_step s a _ _ h b); cbn [a_write disk hist handles dirty bio_disk bio_hist]; try done.
  - exists l. by apply blist_disk.
  - unfold disk_write. cbn. by rewrite Hct, (ba_disk _ _ Ha).
  - by rewrite Hct, (ba_hist _ _ Ha).
  - intros y Hne. split_and!; [done..|]. unfold dblock. by rewrite lookup_insert_ne.
  - apply (ba_pmax _ _ Ha).
  - unfold dblock. rewrite lookup_insert_eq, Hct. apply Hok.
  - intros _. change (0 < bf_refcnt (bf s h)). lia.
  - change (buf_ok (a_write b a) h (bf s h)). split; try apply Hok. lia.
Qed.

Lemma bwrite_run s a h b c : bio_abs s a -> block_locks pid c -> handles a !! h = Some b ->
  exists c' s', bwrite h c s = Ok tt c' s' /\ same_locks c c' /\ bio_abs s' (a_write b a).
Proof.
  intros Ha Hc Hh. pose proof (relock_abs _ _ _ _ Ha Hh) as Ha1. set (s1 := upd_bf h _ s) in Ha1.
  pose proof (op_block _ _ _ _ (open_buf _ _ _ _ Ha1 Hh)) as Hb.
  eexists c, _. split; [|split; [by split_and!|by apply (write_abs s1 a h b)]].
  unfold bwrite. mstep (holding_run s a h b c Ha Hc Hh). cbn [negb]. unfold virtio_disk_rw. destruct Hc as (_ & Hv & _).
  fold s1. mstep (acquire_ok LVdisk c s1 Hv). erewrite bind_ok; [|reflexivity]. rewrite Hb. by apply release_ok.
Qed.

(** Relinking does not change what the cache holds. *)
Lemma bio_abs_links s s' a : bio_abs s a -> (exists l, blist s' l) -> bio_disk s' = bio_disk s -> bio_hist s' = bio_hist s ->
  (forall i, same_but_links (bf s i) (bf s' i)) -> bio_abs s' a.
Proof.
  intros Ha Hl Hd Hh Hs.
  assert (forall j, bf_dev (bf s' j) = bf_dev (bf s j) /\ bf_blockno (bf s' j) = bf_blockno (bf s j) /\
    bf_refcnt (bf s' j) = bf_refcnt (bf s j)) as Hj by (intros j; by destruct (Hs j) as (_ & _ & ? & ? & _ & ? & _)).
  split; try apply Ha; try done.
  - by rewrite Hd; apply Ha.
  - by rewrite Hh; apply Ha.
  - intros i Hi. by apply (buf_ok_frame a a i (bf s i)); [apply Ha|..].
  - intros i j Hi Hjb. destruct (Hj i) as (-> & -> & _), (Hj j) as (-> & -> & _). by apply Ha.
  - intros b Hb. destruct (ba_pinned _ _ Ha b Hb) as (i & Hi). exists i. by destruct (Hj i) as (-> & -> & _).
  - intros b Hb. destruct (ba_used _ _ Ha b Hb) as (i & Hi). exists i. by destruct (Hj i) as (_ & -> & ->).
Qed.

(** The count and the lock of a buffer that is given back. *)
Lemma close_abs s a h b : bio_abs s a -> handles a !! h = Some b ->
  (0 < npins a b)%nat \/ content a b = dblock (disk a) b ->
  bio_abs (upd_bf h (fun x => set_bref (Z.of_nat (npins a b)) (set_lock (SleepLock 0 0) x)) s) (a_close h b a).
Proof.
  intros Ha Hh Hcl. pose proof (open_buf _ _ _ _ Ha Hh) as Ho. pose proof (refcnt_small _ _ _ _ Ha Ho) as Hr.
  pose proof Ho as [Hin Hok Hdev Hbn Hlk Href Hdir Hct _].
  assert (forall y, y <> b -> dirty (a_close h b a) !! y = dirty a !! y) as Hy.
  { intros y Hne. cbn [a_close dirty]. case_decide; [by rewrite lookup_delete_ne|done]. }
  assert ((0 < npins a b)%nat -> dirty (a_close h b a) = dirty a) as Hp.
  { intros Hp. cbn [a_close dirty]. rewrite decide_False; [done|lia]. }
  assert (handles (a_close h b a) !! h = None) as Hn by (cbn [a_close handles]; apply lookup_delete_eq).
  apply (opened_step0 s a _ h b); try done.
  - intros j Hne. cbn [a_close handles]. by rewrite lookup_delete_ne.
  - intros y Hne. split; [done|by apply Hy].
  - apply (ba_pmax _ _ Ha).
  - cbn. case_decide as E; [by rewrite lookup_delete_eq; intros []|lia].
  - split; cbn [set_bref set_lock bf_refcnt bf_dev bf_blockno bf_lock bf_valid bf_data].
    + unfold hcnt, pcnt. rewrite Hn, decide_False by (by intros []). cbn [set_bref set_lock bf_dev bf_blockno].
      rewrite decide_True, Hbn by done. done.
    + by rewrite Hn.
    + done.
    + intros _. apply (bo_valid _ _ _ Hok). lia.
    + intros Hpos. rewrite Hp, Hbn by lia. done.
    + intros Hz _ _. destruct Hcl as [?|Hcl]; [lia|]. rewrite Hbn. cbn [a_close disk]. by rewrite <- Hct.
    + apply Hok.
Qed.

Lemma releasing_run s h c : LBuf h ∉ held c -> exists c', same_locks c c' /\
  on_lock h releasesleep c s = Ok tt c' (upd_bf h (set_lock (SleepLock 0 0)) s).
Proof.
  intros Hl. exists (Ctx (held c) (trace c ++ [EvWakeup (ChBufLock h)]) (me c) (mypid c)). split; [by split_and!|].
  unfold on_lock. erewrite zoom_ok; [|by apply releasesleep_run]. done.
Qed.

(** The part of [brelse] under the lock of the cache. *)
Lemma brelse_unref s h c r : LBcache ∉ held c -> u32 (bf_refcnt (bf s h) - 1) = r ->
  (acquire LBcache;;
   r ← the_buf h bf_refcnt;
   mod_buf h (set_bref (u32 (r - 1)));;
   (if u32 (r - 1) =? 0 then
      x ← the_buf h id;
      mod_buf (bf_next x) (set_prev (bf_prev x));;
      x ← the_buf h id;
      mod_buf (bf_prev x) (set_next (bf_next x));;
      link_front h
    else mret tt);;
   release LBcache) c s =
  Ok tt c (let s' := upd_bf h (set_bref r) s in if r =? 0 then move_front h s' else s').
Proof.
  intros Hl <-. mstep (acquire_ok LBcache c s Hl).
  rewrite (bind_ok _ _ (hold LBcache c) s (bf_refcnt (bf s h)) (hold LBcache c) s) by done.
  erewrite bind_ok; [|reflexivity]. set (r := u32 (bf_refcnt (bf s h) - 1)). set (s' := upd_bf h (set_bref r) s).
  destruct (r =? 0); (erewrite bind_ok; [|reflexivity]); by apply release_ok.
Qed.

Lemma brelse_exec s a h b c : bio_abs s a -> block_locks pid c -> handles a !! h = Some b ->
  exists c', same_locks c c' /\ brelse h c s = Ok tt c'
    (let s3 := upd_bf h (fun x => set_bref (Z.of_nat (npins a b)) (set_lock (SleepLock 0 0) x)) s in
     if Z.of_nat (npins a b) =? 0 then move_front h s3 else s3).
Proof.
  intros Ha Hc Hh. pose proof (open_buf _ _ _ _ Ha Hh) as Ho. pose proof (refcnt_small _ _ _ _ Ha Ho) as Hr.
  pose proof (holding_run _ _ _ _ _ Ha Hc Hh) as Hr1. set (s1 := upd_bf h _ s) in Hr1.
  pose proof Hc as (Hb & _ & Hl & _). destruct (releasing_run s1 h c (Hl h)) as (c2 & Hs2 & Hr2).
  set (s2 := upd_bf h _ s1) in Hr2.
  assert (u32 (bf_refcnt (bf s2 h) - 1) = Z.of_nat (npins a b)) as Hr3.
  { unfold s2, s1. rewrite !bf_upd, !decide_True by done.
    cbn [set_lock bf_refcnt]. rewrite (op_ref _ _ _ _ Ho) in *. rewrite u32_id by lia. lia. }
  assert (LBcache ∉ held c2) as Hb2 by (by destruct Hs2 as [-> _]).
  pose proof (brelse_unref s2 h c2 _ Hb2 Hr3) as Hr4. cbn zeta in Hr4.
  assert (upd_bf h (set_bref (Z.of_nat (npins a b))) s2 =
    upd_bf h (fun x => set_bref (Z.of_nat (npins a b)) (set_lock (SleepLock 0 0) x)) s) as E
    by (unfold s2, s1; by rewrite !upd_bf_twice).
  rewrite E in Hr4. exists c2. split; [done|]. unfold brelse. mstep Hr1. cbn [negb]. mstep Hr2. exact Hr4.
Qed.

Lemma brelse_run s a h b c : bio_abs s a -> block_locks pid c -> handles a !! h = Some b ->
  (0 < npins a b)%nat \/ content a b = dblock (disk a) b ->
  exists c' s', brelse h c s = Ok tt c' s' /\ same_locks c c' /\ bio_abs s' (a_close h b a).
Proof.
  intros Ha Hc Hh Hcl. destruct (brelse_exec s a h b c Ha Hc Hh) as (c2 & Hs & Hr).
  pose proof (close_abs s a h b Ha Hh Hcl) as Ha3. set (s3 := upd_bf h _ s) in *. cbn zeta in Hr.
  eexists c2, _. split; [exact Hr|]. split; [done|]. destruct (Z.of_nat (npins a b) =? 0); [|done].
  destruct (ba_list _ _ Ha3) as [l Hbl]. pose proof (open_buf _ _ _ _ Ha Hh) as Ho.
  assert (h ∈ l) as Hin by (rewrite (blist_range _ _ _ Hbl); apply Ho).
  apply list_elem_of_split in Hin as (l1 & l2 & ->). destruct (move_front_list _ _ _ _ Hbl) as [Hml Hms].
  apply (bio_abs_links s3); try done. by eexists.
Qed.

(** ** bread *)

Definition caches (x blockno : Z) (b : buf) : Prop := bf_dev b = x /\ bf_blockno b = blockno.
#[local] Instance caches_dec x blockno b : Decision (caches x blockno b).
Proof. unfold caches. apply _. Defined.

(** What [bget] does when it finds the block. *)
Definition bget_hit (i : Z) : M bcache (option Z) :=
  x ← the_buf i id;
  mod_buf i (set_bref (u32 (bf_refcnt x + 1)));;
  release LBcache;;
  on_lock i acquiresleep;;
  mret (Some i).

Lemma cached_scan x blockno s c l : forall fuel p rest, chain (fun i => bf_next (bf s i)) p (l ++ rest) bhead ->
  (bhead ∉ l) -> Forall (fun i => ~ caches x blockno (bf s i)) l -> (length l < fuel)%nat ->
  bget_cached fuel (bf_next (bf s p)) x blockno c s =
  bget_cached (fuel - length l) (default bhead (head rest)) x blockno c s.
Proof.
  induction l as [|i l IH]; intros fuel p rest Hc Hh Hf Hfu.
  - cbn [app length] in *. rewrite Nat.sub_0_r. by rewrite (chain_head _ _ _ _ Hc).
  - destruct Hc as [-> Hc]. destruct fuel as [|fuel]; [cbn in Hfu; lia|]. cbn [length Nat.sub bget_cached].
    apply Forall_cons in Hf as [Hi Hf]. destruct (Z.eqb_spec i bhead) as [->|_]; [by destruct Hh; list_mem|].
    rewrite (bind_ok _ _ c s (bf s i) c s) by done.
    assert ((bf_dev (bf s i) =? x) && (bf_blockno (bf s i) =? blockno) = false) as ->.
    { apply andb_false_iff. rewrite !Z.eqb_neq. unfold caches in Hi. destruct (decide (bf_dev (bf s i) = x)); [right|by left].
      intros E. by apply Hi. }
    apply IH; try done; [|cbn in Hfu; lia]. intros ?. apply Hh. list_mem.
Qed.

Lemma bget_cached_run x blockno s c l : blist s l ->
  (exists i, inb i /\ caches x blockno (bf s i) /\
     bget_cached (S (Z.to_nat NBUF)) (bf_next (bf s bhead)) x blockno c s = bget_hit i c s) \/
  ((forall i, inb i -> ~ caches x blockno (bf s i)) /\
     bget_cached (S (Z.to_nat NBUF)) (bf_next (bf s bhead)) x blockno c s = Ok None c s).
Proof.
  intros Hb. pose proof (blist_nodup _ _ Hb) as Hnd. apply NoDup_cons in Hnd as [Hh _].
  assert (length l = Z.to_nat NBUF) as Hlen by (rewrite (bl_perm _ _ Hb); apply length_seqZ).
  pose proof (bl_next _ _ Hb) as Hc.
  destruct (first_split (fun i => caches x blockno (bf s i)) l) as [(l1 & i & l2 & -> & Hi & Hf)|Hf].
  - left. exists i. assert (inb i) as Hin by (apply (blist_range _ _ _ Hb), elem_of_app; right; list_mem).
    split_and!; [done..|]. rewrite length_app in Hlen. cbn [length] in Hlen.
    rewrite (cached_scan x blockno s c l1 _ _ (i :: l2)); [|done| |done|lia].
    2: { intros ?. apply Hh, elem_of_app. by left. }
    change (default bhead (head (i :: l2))) with i. destruct (S (Z.to_nat NBUF) - length l1)%nat as [|fuel] eqn:E; [lia|]. cbn [bget_cached].
    destruct (Z.eqb_spec i bhead) as [->|_]; [unfold inb, bhead in Hin; lia|].
    rewrite (bind_ok _ _ c s (bf s i) c s) by done. destruct Hi as [E1 E2].
    assert ((bf_dev (bf s i) =? x) && (bf_blockno (bf s i) =? blockno) = true) as -> by (by rewrite E1, E2, !Z.eqb_refl).
    unfold bget_hit. by rewrite (bind_ok _ _ c s (bf s i) c s) by done.
  - right. split.
    + intros i Hi. rewrite Forall_forall in Hf. apply Hf. by apply (blist_range _ _ _ Hb).
    + rewrite (cached_scan x blockno s c l _ _ []); [|by rewrite app_nil_r|done..|lia].
      cbn [head default]. destruct (S (Z.to_nat NBUF) - length l)%nat as [|fuel] eqn:E; [lia|]. cbn [bget_cached].
      by rewrite Z.eqb_refl.
Qed.

(** What [bget] does with the buffer it recycles. *)
Definition bget_reuse (i x blockno : Z) : M bcache Z :=
  mod_buf i (set_block x blockno);;
  mod_buf i (set_valid false);;
  mod_buf i (set_bref 1);;
  release LBcache;;
  on_lock i acquiresleep;;
  mret i.

Lemma recycle_scan x blockno s c l : forall fuel p rest, chain (fun i => bf_prev (bf s i)) p (l ++ rest) bhead ->
  (bhead ∉ l) -> Forall (fun i => bf_refcnt (bf s i) <> 0) l -> (length l < fuel)%nat ->
  bget_recycle fuel (bf_prev (bf s p)) x blockno c s =
  bget_recycle (fuel - length l) (default bhead (head rest)) x blockno c s.
Proof.
  induction l as [|i l IH]; intros fuel p rest Hc Hh Hf Hfu.
  - cbn [app length] in *. rewrite Nat.sub_0_r. by rewrite (chain_head _ _ _ _ Hc).
  - destruct Hc as [-> Hc]. destruct fuel as [|fuel]; [cbn in Hfu; lia|]. cbn [length Nat.sub bget_recycle].
    apply Forall_cons in Hf as [Hi Hf]. destruct (Z.eqb_spec i bhead) as [->|_]; [by destruct Hh; list_mem|].
    rewrite (bind_ok _ _ c s (bf s i) c s) by done. apply Z.eqb_neq in Hi. rewrite Hi.
    apply IH; try done; [|cbn in Hfu; lia]. intros ?. apply Hh. list_mem.
Qed.

(** The buffer that is recycled is unused, and every buffer less recently used
    is in use; when all are in use the kernel panics. *)
Lemma bget_recycle_run x blockno s c l : blist s l ->
  (exists l1 i l2, l = l1 ++ i :: l2 /\ bf_refcnt (bf s i) = 0 /\ Forall (fun j => bf_refcnt (bf s j) <> 0) l2 /\
     bget_recycle (S (Z.to_nat NBUF)) (bf_prev (bf s bhead)) x blockno c s = bget_reuse i x blockno c s) \/
  (Forall (fun j => bf_refcnt (bf s j) <> 0) l /\
     bget_recycle (S (Z.to_nat NBUF)) (bf_prev (bf s bhead)) x blockno c s = Panic "bget: no buffers").
Proof.
  intros Hb. pose proof (blist_nodup _ _ Hb) as Hnd. apply NoDup_cons in Hnd as [Hh _].
  assert (length l = Z.to_nat NBUF) as Hlen by (rewrite (bl_perm _ _ Hb); apply length_seqZ).
  pose proof (bl_prev _ _ Hb) as Hc.
  assert (bhead ∉ reverse l) as Hh' by (by rewrite elem_of_reverse).
  destruct (first_split (fun i => bf_refcnt (bf s i) = 0) (reverse l)) as [(l2 & i & l1 & El & Hi & Hf)|Hf].
  - left. exists (reverse l1), i, (reverse l2).
    assert (l = reverse l1 ++ i :: reverse l2) as El'.
    { rewrite <- (reverse_involutive l), El, reverse_app, reverse_cons, <- app_assoc. done. }
    assert (length l = length l1 + S (length l2))%nat as Hlen' by (rewrite El', length_app, !length_reverse; cbn; by rewrite length_reverse).
    assert (inb i) as Hin by (apply (blist_range _ _ _ Hb); rewrite El'; apply elem_of_app; right; list_mem).
    split_and!; [done|done|by apply Forall_reverse|]. rewrite El in Hc, Hh'.
    rewrite (recycle_scan x blockno s c l2 _ _ (i :: l1)); [|done| |done|lia].
    2: { intros ?. apply Hh', elem_of_app. by left. }
    change (default bhead (head (i :: l1))) with i. destruct (S (Z.to_nat NBUF) - length l2)%nat as [|fuel] eqn:E; [lia|].
    cbn [bget_recycle]. destruct (Z.eqb_spec i bhead) as [->|_]; [unfold inb, bhead in Hin; lia|].
    rewrite (bind_ok _ _ c s (bf s i) c s) by done. by rewrite Hi.
  - right. split; [by rewrite <- Forall_reverse|].
    rewrite (recycle_scan x blockno s c (reverse l) _ _ []); [|by rewrite app_nil_r|done..|rewrite length_reverse; lia].
    change (default bhead (head [])) with bhead. rewrite length_reverse.
    destruct (S (Z.to_nat NBUF) - length l)%nat as [|fuel] eqn:E; [lia|]. cbn [bget_recycle]. by rewrite Z.eqb_refl.
Qed.

(** A buffer that comes to hold block [b] and is locked. *)
Lemma open_abs s a s' i b : bio_abs s a -> inb i -> ~ is_open a b ->
  (forall j, inb j -> j <> i -> ~ caches dev b (bf s j)) ->
  (bf_dev (bf s i) = dev -> bf_blockno (bf s i) <> b -> bf_refcnt (bf s i) = 0) ->
  handles a !! i = None ->
  (exists l, blist s' l) -> bio_disk s' = bio_disk s -> bio_hist s' = bio_hist s ->
  (forall j, j <> i -> bf s' j = bf s j) ->
  bf_valid (bf s' i) = true -> bf_dev (bf s' i) = dev -> bf_blockno (bf s' i) = b ->
  bf_lock (bf s' i) = SleepLock 1 pid -> bf_refcnt (bf s' i) = 1 + Z.of_nat (npins a b) -> bf_data (bf s' i) = content a b ->
  bio_abs s' (a_open i b a).
Proof.
  intros Ha Hi Hno Hu Hold Hni Hl Hd Hh Hj Hv Hdev Hbn Hlk Hr Hdat.
  assert (handles (a_open i b a) !! i = Some b) as Hop by (cbn [a_open handles]; apply lookup_insert_eq).
  apply (bio_abs_step s a _ _ i b); try done.
  - by rewrite Hd, (ba_disk _ _ Ha).
  - by rewrite Hh, (ba_hist _ _ Ha).
  - intros j _ Hne. by rewrite Hj.
  - intros j Hjb Hne Hdj Hbj. by apply (Hu j).
  - intros j Hne. cbn [a_open handles]. by rewrite lookup_insert_ne.
  - intros y Hne. cbn [a_open dirty disk]. split_and!; [done|by rewrite lookup_insert_ne|done].
  - apply (ba_pmax _ _ Ha).
  - apply (ba_dlen _ _ Ha).
  - intros _. lia.
  - split.
    + unfold hcnt, pcnt. rewrite Hop, !decide_True, Hbn by done. rewrite Hr. done.
    + intros x Hx. rewrite Hop in Hx. injection Hx as <-. done.
    + by rewrite Hop.
    + done.
    + intros _. cbn [a_open dirty]. by rewrite Hbn, lookup_insert_eq, Hdat.
    + lia.
    + rewrite Hdat. unfold content. destruct (dirty a !! b) eqn:E; [|apply Ha]. cbn [default].
      destruct (ba_used _ _ Ha b) as (j & Hjb & Hrj & Hbj); [by rewrite E|].
      pose proof (bo_dirty _ _ _ (ba_buf _ _ Ha j Hjb) Hrj) as Hd'. rewrite Hbj, E in Hd'. injection Hd' as ->.
      by apply (bo_len _ _ _ (ba_buf _ _ Ha j Hjb)).
Qed.

Lemma locking_run s i c : LBuf i ∉ held c -> sl_locked (bf_lock (bf s i)) = 0 -> mypid c = pid ->
  on_lock i acquiresleep c s = Ok tt c (upd_bf i (set_lock (SleepLock 1 pid)) s).
Proof.
  intros Hl Hf Hp. unfold on_lock. erewrite zoom_ok; [|by apply acquiresleep_free]. by rewrite Hp.
Qed.

(** The end of [bread]: a buffer without data is filled from the disk. *)
Definition filled (i : Z) (s : bcache) : bcache :=
  if bf_valid (bf s i) then s
  else upd_bf i (fun x => set_valid true (set_data (dblock (bio_disk s) (bf_blockno (bf s i))) x)) s.

Lemma fill_run i s c : LVdisk ∉ held c ->
  (v ← the_buf i bf_valid; (if negb v then virtio_disk_rw i false;; mod_buf i (set_valid true) else mret tt);; mret i) c s =
  Ok i c (filled i s).
Proof.
  intros Hv. rewrite (bind_ok _ _ c s (bf_valid (bf s i)) c s) by done. unfold filled.
  destruct (bf_valid (bf s i)); cbn [negb]; [done|]. unfold virtio_disk_rw. rewrite <- upd_bf_twice.
  set (s1 := upd_bf i (set_data _) s).
  rewrite (bind_ok _ _ c s tt c (upd_bf i (set_valid true) s1)); [done|].
  rewrite (bind_ok _ _ c s tt c s1); [done|]. mstep (acquire_ok LVdisk c s Hv).
  erewrite bind_ok; [|reflexivity]. by apply release_ok.
Qed.

(** The block is cached: the buffer gets one more reference. *)
Lemma bread_hit s a i b : bio_abs s a -> inb i -> caches dev b (bf s i) -> ~ is_open a b ->
  handles a !! i = None /\
  bio_abs (filled i (upd_bf i (fun x => set_lock (SleepLock 1 pid) (set_bref (u32 (bf_refcnt (bf s i) + 1)) x)) s)) (a_open i b a).
Proof.
  intros Ha Hi [Hdev Hbn] Hno. pose proof (ba_buf _ _ Ha i Hi) as Hok.
  assert (handles a !! i = None) as Hn.
  { destruct (handles a !! i) as [x|] eqn:E; [|done]. destruct Hno. exists i. rewrite E. f_equal.
    destruct (bo_open _ _ _ Hok x E) as (_ & <- & _). done. }
  split; [done|].
  assert (bf_refcnt (bf s i) = Z.of_nat (npins a b)) as Hr.
  { rewrite (bo_ref _ _ _ Hok). unfold hcnt, pcnt. rewrite Hn, decide_False, decide_True, Hbn by (done || by intros []). done. }
  pose proof (ba_pmax _ _ Ha b) as Hpm. set (s1 := upd_bf i _ s).
  assert (bf s1 i = set_lock (SleepLock 1 pid) (set_bref (1 + Z.of_nat (npins a b)) (bf s i))) as E1.
  { unfold s1. rewrite bf_upd, decide_True by done. rewrite Hr, u32_id by lia. do 2 f_equal. lia. }
  assert (content a b = if bf_valid (bf s i) then bf_data (bf s i) else dblock (disk a) b) as Hct.
  { destruct (decide (0 < bf_refcnt (bf s i))) as [Hp|Hp].
    - rewrite (bo_valid _ _ _ Hok Hp). unfold content. by rewrite <- Hbn, (bo_dirty _ _ _ Hok Hp).
    - assert (bf_refcnt (bf s i) = 0) as H0 by lia.
      assert (dirty a !! b = None) as Hd0.
      { destruct (dirty a !! b) eqn:E; [|done]. destruct (ba_used _ _ Ha b) as (j & Hj & Hrj & Hbj); [by rewrite E|].
        pose proof (used_dev _ _ _ (ba_buf _ _ Ha j Hj) Hrj). assert (j = i) by (apply (ba_uniq _ _ Ha); congruence). subst. lia. }
      unfold content. rewrite Hd0. cbn [default]. destruct (bf_valid (bf s i)) eqn:Ev; [|done].
      by rewrite (bo_clean _ _ _ Hok H0 Hdev Ev), Hbn. }
  destruct (ba_list _ _ Ha) as [l Hl]. assert (blist s1 l) as Hl1 by (by apply blist_upd).
  assert (filled i s1 = if bf_valid (bf s i) then s1 else upd_bf i (fun x => set_valid true (set_data (dblock (disk a) b) x)) s1) as ->.
  { unfold filled. rewrite E1. cbn [set_lock set_bref bf_valid bf_blockno]. rewrite Hbn. change (bio_disk s1) with (bio_disk s).
    by rewrite (ba_disk _ _ Ha). }
  assert (forall j, inb j -> j <> i -> ~ caches dev b (bf s j)) as Huq.
  { intros j Hj Hne [H1 H2]. apply Hne. apply (ba_uniq _ _ Ha); congruence. }
  assert (forall j, j <> i -> bf s1 j = bf s j) as Hs1 by (intros j Hne; unfold s1; by rewrite bf_upd, decide_False).
  destruct (bf_valid (bf s i)) eqn:Ev; apply (open_abs s a _ i b); try done; rewrite ?bf_upd, ?decide_True, ?E1 by done; try done.
  - by exists l.
  - exists l. by apply blist_upd.
  - intros j Hne. rewrite bf_upd, decide_False by done. by apply Hs1.
Qed.

(** The block is not cached: an unused buffer is taken over. *)
Lemma bread_miss s a i b : bio_abs s a -> inb i -> bf_refcnt (bf s i) = 0 ->
  (forall j, inb j -> ~ caches dev b (bf s j)) -> ~ is_open a b ->
  handles a !! i = None /\
  bio_abs (filled i (upd_bf i (fun x => set_lock (SleepLock 1 pid) (set_bref 1 (set_valid false (set_block dev b x)))) s)) (a_open i b a).
Proof.
  intros Ha Hi Hr Hnc Hno. pose proof (ba_buf _ _ Ha i Hi) as Hok.
  assert (handles a !! i = None) as Hn.
  { destruct (handles a !! i) as [x|] eqn:E; [|done]. rewrite (bo_ref _ _ _ Hok) in Hr. unfold hcnt in Hr.
    rewrite E, decide_True in Hr by done. pose proof (pcnt_nonneg a (bf s i)). lia. }
  split; [done|].
  assert (npins a b = 0%nat) as Hp0.
  { destruct (npins a b) eqn:E; [done|]. destruct (ba_pinned _ _ Ha b) as (j & Hj & H1 & H2); [lia|]. by destruct (Hnc j). }
  assert (content a b = dblock (disk a) b) as Hct.
  { unfold content. destruct (dirty a !! b) eqn:E; [|done]. destruct (ba_used _ _ Ha b) as (j & Hj & Hrj & Hbj); [by rewrite E|].
    pose proof (used_dev _ _ _ (ba_buf _ _ Ha j Hj) Hrj). by destruct (Hnc j). }
  set (s1 := upd_bf i _ s).
  assert (bf s1 i = set_lock (SleepLock 1 pid) (set_bref 1 (set_valid false (set_block dev b (bf s i))))) as E1
    by (unfold s1; by rewrite bf_upd, decide_True).
  assert (filled i s1 = upd_bf i (fun x => set_valid true (set_data (dblock (disk a) b) x)) s1) as ->.
  { unfold filled. rewrite E1. cbn [set_lock set_bref set_valid set_block bf_valid bf_blockno]. change (bio_disk s1) with (bio_disk s).
    by rewrite (ba_disk _ _ Ha). }
  destruct (ba_list _ _ Ha) as [l Hl]. assert (blist s1 l) as Hl1 by (by apply blist_upd).
  apply (open_abs s a _ i b); try done; rewrite ?bf_upd, ?decide_True, ?E1 by done; try done.
  - intros j Hj _. by apply Hnc.
  - exists l. by apply blist_upd.
  - intros j Hne. rewrite bf_upd, decide_False by done. unfold s1. by rewrite bf_upd, decide_False.
  - cbn. by rewrite Hp0.
Qed.

Lemma all_used_size s a l b : bio_abs s a -> blist s l -> Forall (fun j => bf_refcnt (bf s j) <> 0) l ->
  (forall j, inb j -> ~ caches dev b (bf s j)) -> (Z.to_nat NBUF < size (dom (dirty a) ∪ {[b]}))%nat.
Proof.
  intros Ha Hl Hall Hnc. rewrite Forall_forall in Hall.
  assert (forall j, j ∈ l -> inb j /\ 0 < bf_refcnt (bf s j) /\ bf_dev (bf s j) = dev) as Hj.
  { intros j Hin. apply (blist_range _ _ _ Hl) in Hin as Hi. pose proof (ba_buf _ _ Ha j Hi) as Hok.
    pose proof (ref_nonneg _ _ _ Hok). pose proof (Hall j Hin). split_and!; [done|lia|]. apply (used_dev _ _ _ Hok). lia. }
  set (bs := (fun j => bf_blockno (bf s j)) <$> l).
  assert (NoDup (b :: bs)) as Hnd.
  { apply NoDup_cons. split.
    - intros (j & -> & Hin)%list_elem_of_fmap. destruct (Hj j Hin) as (Hi & _ & Hd). by apply (Hnc j).
    - apply NoDup_fmap_2_strong; [|pose proof (blist_nodup _ _ Hl) as Hn; by apply NoDup_cons in Hn as [_ ?]].
      intros j k H1 H2 E. destruct (Hj j H1) as (? & _ & ?), (Hj k H2) as (? & _ & ?). by apply (ba_uniq _ _ Ha). }
  assert (list_to_set (b :: bs) ⊆ dom (dirty a) ∪ {[b]}) as Hsub.
  { intros x Hx. apply elem_of_list_to_set, elem_of_cons in Hx as [->|(j & -> & Hin)%list_elem_of_fmap]; [set_solver|].
    apply elem_of_union. left. apply elem_of_dom. destruct (Hj j Hin) as (Hi & Hr & _). by rewrite (bo_dirty _ _ _ (ba_buf _ _ Ha j Hi) Hr). }
  apply subseteq_size in Hsub. rewrite size_list_to_set in Hsub by done. cbn [length] in Hsub. unfold bs in Hsub.
  rewrite length_fmap, (bl_perm _ _ Hl), length_seqZ in Hsub. lia.
Qed.

(** [bget] then [bread], on a block that is not open. *)
Lemma bread_cases s a b c : bio_abs s a -> block_locks pid c -> ~ is_open a b ->
  (exists h s', bread dev b c s = Ok h c s' /\ handles a !! h = None /\ bio_abs s' (a_open h b a)) \/
  ((Z.to_nat NBUF < size (dom (dirty a) ∪ {[b]}))%nat /\ bread dev b c s = Panic "bget: no buffers").
Proof.
  intros Ha (Hb & Hv & Hlk & Hp) Hno. destruct (ba_list _ _ Ha) as [l Hl].
  assert (bget dev b c s = (b0 ← the_buf bhead bf_next; r ← bget_cached (S (Z.to_nat NBUF)) b0 dev b;
    match r with Some b => mret b | None => b0 ← the_buf bhead bf_prev; bget_recycle (S (Z.to_nat NBUF)) b0 dev b end) (hold LBcache c) s) as Eg
    by (unfold bget; by mstep (acquire_ok LBcache c s Hb)).
  rewrite (bind_ok _ _ (hold LBcache c) s (bf_next (bf s bhead)) (hold LBcache c) s) in Eg by done.
  destruct (bget_cached_run dev b s (hold LBcache c) l Hl) as [(i & Hi & Hc & Hr)|(Hnc & Hr)].
  - left. destruct (bread_hit s a i b Ha Hi Hc Hno) as [Hn Ha']. set (s1 := upd_bf i _ s) in Ha'.
    assert (bget_hit i (hold LBcache c) s = Ok (Some i) c s1) as Hhit.
    { unfold bget_hit. rewrite (bind_ok _ _ (hold LBcache c) s (bf s i) (hold LBcache c) s) by done.
      erewrite bind_ok; [|reflexivity]. mstep (release_ok LBcache c (upd_bf i (set_bref (u32 (bf_refcnt (bf s i) + 1))) s) Hb).
      erewrite bind_ok; [|apply locking_run; [apply Hlk| |done]].
      - unfold mret, M_ret. by rewrite upd_bf_twice.
      - rewrite bf_upd, decide_True by done. by apply (bo_free _ _ _ (ba_buf _ _ Ha i Hi)). }
    rewrite Hhit in Hr. mstep Hr in Eg. exists i, (filled i s1). split_and!; try done.
    unfold bread. mstep Eg. by apply fill_run.
  - mstep Hr in Eg. rewrite (bind_ok _ _ (hold LBcache c) s (bf_prev (bf s bhead)) (hold LBcache c) s) in Eg by done.
    destruct (bget_recycle_run dev b s (hold LBcache c) l Hl) as [(l1 & i & l2 & -> & Hr0 & _ & Hr2)|(Hall & Hr2)].
    + left. assert (inb i) as Hi by (apply (blist_range _ _ _ Hl), elem_of_app; right; list_mem).
      destruct (bread_miss s a i b Ha Hi Hr0 Hnc Hno) as [Hn Ha']. set (s1 := upd_bf i _ s) in Ha'.
      assert (bget_reuse i dev b (hold LBcache c) s = Ok i c s1) as Hhit.
      { unfold bget_reuse. do 3 (erewrite bind_ok; [|reflexivity]). rewrite !upd_bf_twice.
        erewrite bind_ok; [|by apply release_ok].
        erewrite bind_ok; [|apply locking_run; [apply Hlk| |done]].
        - unfold mret, M_ret. by rewrite upd_bf_twice.
        - rewrite bf_upd, decide_True by done. by apply (bo_free _ _ _ (ba_buf _ _ Ha i Hi)). }
      rewrite Hhit in Hr2. rewrite Hr2 in Eg. exists i, (filled i s1). split_and!; try done.
      unfold bread. mstep Eg. by apply fill_run.
    + right. split; [by apply (all_used_size s a l)|]. rewrite Hr2 in Eg. unfold bread. by apply bind_panic.
Qed.

(** At most [NBUF] blocks are in use. *)
Lemma in_use_size s a : bio_abs s a -> (size (dom (dirty a)) <= Z.to_nat NBUF)%nat.
Proof.
  intros Ha. transitivity (size (list_to_set ((fun j => bf_blockno (bf s j)) <$> seqZ 0 NBUF) : gset Z)).
  - apply subseteq_size. intros b Hb%elem_of_dom. destruct (ba_used _ _ Ha b Hb) as (j & Hj & _ & <-).
    apply elem_of_list_to_set, list_elem_of_fmap. exists j. split; [done|]. apply elem_of_seqZ. unfold inb in Hj. lia.
  - etransitivity; [apply size_list_le|]. by rewrite length_fmap, length_seqZ.
Qed.
End rep.
