(* ===== verification/BioProps.v ===== *)
(** * The buffer cache: results

    The instance of the block interface, the initial state, least-recently-used
    replacement, and the panic when every buffer is in use. *)

From S2P Require Import Prelude Riscv Mem Sleeplock Block Bio BioList BioRep.

#[export] Instance bio_ops {W : Wakes} : BlockOps bcache := {|
  Block.bread := Bio.bread;
  Block.bwrite := Bio.bwrite;
  Block.brelse := Bio.brelse;
  Block.bpin := Bio.bpin;
  Block.bunpin := Bio.bunpin;
  b_data := fun s h => bf_data (bf s h);
  b_blockno := fun s h => bf_blockno (bf s h);
  b_setdata := fun h d => upd_bf h (set_data d);
|}.

Section props.
Context {W : Wakes} (dev pid : Z).

Lemma bread_run s a b c : bio_abs dev pid s a -> block_locks pid c -> ~ is_open a b ->
  (size (dom (dirty a) ∪ {[b]}) <= Z.to_nat NBUF)%nat ->
  exists h c' s', Bio.bread dev b c s = Ok h c' s' /\ same_locks c c' /\ handles a !! h = None /\
    bio_abs dev pid s' (a_open h b a).
Proof.
  intros Ha Hc Hno Hsz. destruct (bread_cases dev pid s a b c Ha Hc Hno) as [(h & s' & Hr & Hn & Ha')|[Hlt _]]; [|lia].
  exists h, c, s'. split_and!; try done.
Qed.

Lemma content_length s a b : bio_abs dev pid s a -> length (content a b) = Z.to_nat BSIZE.
Proof.
  intros Ha. unfold content. destruct (dirty a !! b) eqn:E; [|apply Ha]. cbn [default].
  destruct (ba_used _ _ _ _ Ha b) as (j & Hjb & Hrj & Hbj); [by rewrite E|].
  pose proof (bo_dirty _ _ _ _ _ (ba_buf _ _ _ _ Ha j Hjb) Hrj) as Hd'. rewrite Hbj, E in Hd'. injection Hd' as ->.
  by apply (bo_len _ _ _ _ _ (ba_buf _ _ _ _ Ha j Hjb)).
Qed.

#[export] Instance bio_laws : BlockLaws bcache dev pid.
Proof.
  refine {| babs := bio_abs dev pid |}.
  - intros s a b c Ha Hc _ Hno Hsz. by apply bread_run.
  - intros s a b c Ha Hc _ Hno Hsz. destruct (bread_cases dev pid s a b c Ha Hc Hno) as [(h & s' & _ & Hh & Ha')|[_ Hr]]; [|done].
    pose proof (in_use_size dev pid s' _ Ha') as Hd. cbn [a_open dirty] in Hd.
    rewrite dom_insert_L, union_comm_L in Hd. lia.
  - intros s a h b Ha Hh. pose proof (open_buf _ _ _ _ _ _ Ha Hh) as Ho. split; [symmetry; exact (op_content _ _ _ _ _ _ Ho)|exact (op_block _ _ _ _ _ _ Ho)].
  - intros s a h b d Ha Hh Hd. by apply setdata_abs.
  - intros s a h b c Ha Hc Hh. by apply bwrite_run.
  - intros s a h b c Ha Hc Hh Hcl. by apply brelse_run.
  - intros s a h b c Ha Hc Hh Hn. by apply bpin_run.
  - intros s a h b c Ha Hc Hh Hn. by apply bunpin_run.
  - intros s a h b Ha Hh. rewrite (op_dirty _ _ _ _ _ _ (open_buf _ _ _ _ _ _ Ha Hh)). done.
  - intros s a b Ha. by apply (content_length s).
Defined.

(** C6: the buffer cache refines the block interface. From related states each
    operation returns in related states: [bread] of a block that is not locked
    gives a locked buffer with the current contents of the block, [bwrite]
    puts the contents on the disk, [brelse], [bpin] and [bunpin] only change
    who holds the buffer. *)
Theorem bio_refines s a c : bio_abs dev pid s a -> block_locks pid c ->
  (forall b, ~ is_open a b -> (size (dom (dirty a) ∪ {[b]}) <= Z.to_nat NBUF)%nat ->
     exists h s', Bio.bread dev b c s = Ok h c s' /\ handles a !! h = None /\ bio_abs dev pid s' (a_open h b a) /\
       bf_data (bf s' h) = content a b) /\
  (forall h b, handles a !! h = Some b ->
     (exists c' s', Bio.bwrite h c s = Ok tt c' s' /\ same_locks c c' /\ bio_abs dev pid s' (a_write b a)) /\
     ((0 < npins a b)%nat \/ content a b = dblock (disk a) b ->
      exists c' s', Bio.brelse h c s = Ok tt c' s' /\ same_locks c c' /\ bio_abs dev pid s' (a_close h b a)) /\
     (Z.of_nat (npins a b) < 2 ^ 16 ->
      exists c' s', Bio.bpin h c s = Ok tt c' s' /\ same_locks c c' /\ bio_abs dev pid s' (a_pin b (npins a b + 1) a)) /\
     ((0 < npins a b)%nat ->
      exists c' s', Bio.bunpin h c s = Ok tt c' s' /\ same_locks c c' /\ bio_abs dev pid s' (a_pin b (npins a b - 1) a))).
Proof.
  intros Ha Hc. split.
  - intros b Hno Hsz. destruct (bread_cases dev pid s a b c Ha Hc Hno) as [(h & s' & Hr & Hn & Ha')|[Hlt _]]; [|lia].
    exists h, s'. split_and!; try done.
    assert (handles (a_open h b a) !! h = Some b) as Hh by apply lookup_insert_eq.
    rewrite <- (op_content _ _ _ _ _ _ (open_buf _ _ _ _ _ _ Ha' Hh)). apply content_dirty, lookup_insert_eq.
  - intros h b Hh. split_and!; intros; by (apply bwrite_run || apply brelse_run || apply bpin_run || apply bunpin_run).
Qed.

(** ** Replacement *)

Lemma last_with_unique {A} (P : A -> Prop) l1 i l2 l1' i' l2' : l1 ++ i :: l2 = l1' ++ i' :: l2' ->
  P i -> P i' -> Forall (fun x => ~ P x) l2 -> Forall (fun x => ~ P x) l2' -> i = i'.
Proof.
  revert l1'. induction l1 as [|y l1 IH]; intros [|y' l1'] E Hi Hi' Hf Hf'; cbn [app] in E.
  - by injection E.
  - injection E as -> ->. rewrite Forall_forall in Hf. destruct (Hf i'); [|done]. apply elem_of_app. right. list_mem.
  - injection E as -> <-. rewrite Forall_forall in Hf'. destruct (Hf' i); [|done]. apply elem_of_app. right. list_mem.
  - injection E as -> E. by apply (IH l1').
Qed.

(** The first loop of [bget] for a block that one buffer caches. *)
Lemma bget_found b s l c i : blist s l -> block_locks pid c -> inb i -> caches dev b (bf s i) ->
  (forall j, inb j -> caches dev b (bf s j) -> j = i) ->
  bget dev b c s = (r ← bget_hit i; match r with
    | Some b => mret b | None => b0 ← the_buf bhead bf_prev; bget_recycle (S (Z.to_nat NBUF)) b0 dev b end) (hold LBcache c) s.
Proof.
  intros Hl (Hb & _) Hi Hc Hu. unfold bget. mstep (acquire_ok LBcache c s Hb).
  rewrite (bind_ok _ _ (hold LBcache c) s (bf_next (bf s bhead)) (hold LBcache c) s) by done.
  destruct (bget_cached_run dev b s (hold LBcache c) l Hl) as [(j & Hj & Hcj & Hr)|(Hn & _)]; [|by destruct (Hn i)].
  rewrite (Hu j Hj Hcj) in Hr. unfold mbind, M_bind. by rewrite Hr.
Qed.

Lemma bget_missing b s l c : blist s l -> block_locks pid c -> (forall i, inb i -> ~ caches dev b (bf s i)) ->
  bget dev b c s = bget_recycle (S (Z.to_nat NBUF)) (bf_prev (bf s bhead)) dev b (hold LBcache c) s.
Proof.
  intros Hl (Hb & _) Hnc. unfold bget. mstep (acquire_ok LBcache c s Hb).
  rewrite (bind_ok _ _ (hold LBcache c) s (bf_next (bf s bhead)) (hold LBcache c) s) by done.
  destruct (bget_cached_run dev b s (hold LBcache c) l Hl) as [(i & Hi & Hc & _)|(_ & Hr)]; [by destruct (Hnc i)|].
  mstep Hr. by rewrite (bind_ok _ _ (hold LBcache c) s (bf_prev (bf s bhead)) (hold LBcache c) s) by done.
Qed.

(** [bget_hit] takes a reference and then the sleep lock. *)
Lemma bget_hit_run s i c : block_locks pid c ->
  let s1 := upd_bf i (set_bref (u32 (bf_refcnt (bf s i) + 1))) s in
  (sl_locked (bf_lock (bf s i)) = 0 ->
     bget_hit i (hold LBcache c) s = Ok (Some i) c (upd_bf i (set_lock (SleepLock 1 pid)) s1)) /\
  (held c = ∅ -> sl_locked (bf_lock (bf s i)) <> 0 ->
     exists r, bget_hit i (hold LBcache c) s = Blocked (WSleep (ChBufLock i) (LBuf i)) c s1 r).
Proof.
  intros (Hb & _ & Hlk & Hp) s1.
  assert (bf_lock (bf s1 i) = bf_lock (bf s i)) as El by (unfold s1; by rewrite bf_upd, decide_True).
  assert (bget_hit i (hold LBcache c) s = (on_lock i acquiresleep;; mret (Some i)) c s1) as ->.
  { unfold bget_hit. rewrite (bind_ok _ _ (hold LBcache c) s (bf s i) (hold LBcache c) s) by done.
    rewrite (bind_ok _ _ (hold LBcache c) s tt (hold LBcache c) s1) by done. by mstep (release_ok LBcache c s1 Hb). }
  split.
  - intros Hf. erewrite bind_ok; [reflexivity|]. apply (locking_run pid); [apply Hlk|by rewrite El|done].
  - intros He Hf. rewrite <- El in Hf. destruct (acquiresleep_held (LBuf i) (ChBufLock i) c (bf_lock (bf s1 i)) He Hf) as (r & Hr & _).
    eexists. apply bind_blocked. unfold on_lock, zoom. rewrite Hr. cbn [ozoom]. f_equal.
    rewrite El. unfold s1. rewrite upd_bf_twice. unfold upd_bf. do 2 f_equal.
Qed.

(** C35: [bget] on every branch. When a buffer caches the block it takes a
    reference to that buffer, changing no other, and returns it locked, or
    sleeps for its lock when another process has it. Otherwise replacement is
    least recently used: it takes the last buffer in the list, from most to
    least recently used, that is not referenced; the others are untouched and
    the list stays the same. When all are referenced it panics. *)
Theorem bget_lru b s l c : blist s l -> block_locks pid c ->
  (forall i, inb i -> bf_refcnt (bf s i) = 0 -> sl_locked (bf_lock (bf s i)) = 0) ->
  (forall i, inb i -> caches dev b (bf s i) -> (forall j, inb j -> caches dev b (bf s j) -> j = i) ->
     let s1 := upd_bf i (set_bref (u32 (bf_refcnt (bf s i) + 1))) s in
     (sl_locked (bf_lock (bf s i)) = 0 -> bget dev b c s = Ok i c (upd_bf i (set_lock (SleepLock 1 pid)) s1)) /\
     (held c = ∅ -> sl_locked (bf_lock (bf s i)) <> 0 ->
        exists r, bget dev b c s = Blocked (WSleep (ChBufLock i) (LBuf i)) c s1 r)) /\
  ((forall i, inb i -> ~ caches dev b (bf s i)) ->
   (Forall (fun j => bf_refcnt (bf s j) <> 0) l -> bget dev b c s = Panic "bget: no buffers") /\
   (forall l1 i l2, l = l1 ++ i :: l2 -> bf_refcnt (bf s i) = 0 -> Forall (fun j => bf_refcnt (bf s j) <> 0) l2 ->
      exists s', bget dev b c s = Ok i c s' /\ blist s' l /\ caches dev b (bf s' i) /\ bf_valid (bf s' i) = false /\
        bf_refcnt (bf s' i) = 1 /\ bf_lock (bf s' i) = SleepLock 1 pid /\ forall j, j <> i -> bf s' j = bf s j)).
Proof.
  intros Hl Hbl Hfree. split.
  { intros i Hi Hc Hu s1. rewrite (bget_found b s l c i) by done. destruct (bget_hit_run s i c Hbl) as [H1 H2]. split.
    - intros Hf. by mstep (H1 Hf).
    - intros He Hf. destruct (H2 He Hf) as [r Hr]. eexists. exact (bind_blocked _ _ _ _ _ _ _ _ Hr). }
  intros Hnc. pose proof (bget_missing b s l c Hl Hbl Hnc) as Eg. destruct Hbl as (Hb & _ & Hlk & Hp).
  destruct (bget_recycle_run dev b s (hold LBcache c) l Hl) as [(k1 & i & k2 & El & Hr0 & Hk2 & Hr)|(Hall & Hr)].
  - split.
    + intros Hall. rewrite Forall_forall in Hall. destruct (Hall i); [|done]. rewrite El. apply elem_of_app. right. list_mem.
    + intros l1 i' l2 -> Hi' Hf.
      assert (i' = i) as -> by (apply (last_with_unique (fun j => bf_refcnt (bf s j) = 0) l1 i' l2 k1 i k2); done).
      assert (inb i) as Hi by (apply (blist_range _ _ _ Hl); rewrite El; apply elem_of_app; right; list_mem).
      eexists. split.
      * rewrite Eg, Hr. unfold bget_reuse. do 3 (erewrite bind_ok; [|reflexivity]). rewrite !upd_bf_twice.
        erewrite bind_ok; [|by apply release_ok].
        erewrite bind_ok; [reflexivity|]. apply (locking_run pid); [apply Hlk| |done].
        rewrite bf_upd, decide_True by done. by apply Hfree.
      * rewrite upd_bf_twice. split_and!; [by apply blist_upd|..]; rewrite ?bf_upd, ?decide_True by done; try done.
        intros j Hne. by rewrite bf_upd, decide_False.
  - split; [intros _; by rewrite Eg|]. intros l1 i l2 -> Hi _. rewrite Forall_forall in Hall. destruct (Hall i); [|done].
    apply elem_of_app. right. list_mem.
Qed.

(** Giving back the last reference to a buffer makes it the most recently
    used one: it moves to the front of the list and the order of the others
    stays the same. A buffer that is still referenced stays where it is. *)
Theorem brelse_order s a h b c l1 l2 : bio_abs dev pid s a -> block_locks pid c -> handles a !! h = Some b ->
  blist s (l1 ++ h :: l2) ->
  exists c' s', Bio.brelse h c s = Ok tt c' s' /\ same_locks c c' /\ bf_refcnt (bf s' h) = Z.of_nat (npins a b) /\
    blist s' (if decide (npins a b = 0%nat) then h :: l1 ++ l2 else l1 ++ h :: l2).
Proof.
  intros Ha Hc Hh Hl. destruct (brelse_exec dev pid s a h b c Ha Hc Hh) as (c2 & Hs & Hr). cbn zeta in Hr.
  set (s3 := upd_bf h _ s) in Hr. assert (blist s3 (l1 ++ h :: l2)) as Hl3 by (by apply blist_upd).
  assert (bf_refcnt (bf s3 h) = Z.of_nat (npins a b)) as Hr3 by (unfold s3; by rewrite bf_upd, decide_True).
  eexists c2, _. split; [exact Hr|]. split; [done|]. destruct (Z.eqb_spec (Z.of_nat (npins a b)) 0) as [E|E].
  - rewrite decide_True by lia. destruct (move_front_list _ _ _ _ Hl3) as [Hml Hms].
    split; [|done]. destruct (Hms h) as (_ & _ & _ & _ & _ & -> & _). done.
  - rewrite decide_False by lia. done.
Qed.

(** ** The initial cache *)

Lemma binit_step k b c s : 0 <= b < NBUF ->
  binit_loop (S k) b c s = binit_loop k (b + 1) c (front_st b (upd_bf b (set_lock initsleeplock) s)).
Proof.
  intros Hb. cbn [binit_loop]. unfold front_st. do 7 (erewrite bind_ok; [|reflexivity]). f_equal.
  assert (b <> bhead) as Hne by (unfold bhead; lia).
  repeat (rewrite bf_upd, decide_False by done). rewrite !upd_bf_twice.
  repeat (rewrite bf_upd, decide_False by done). done.
Qed.

Lemma binit_loop_run k : forall b l c s, 0 <= b -> b + Z.of_nat k = NBUF -> l ≡ₚ seqZ 0 b -> links s l ->
  (forall i, same_but_links buf0 (bf s i)) ->
  exists s' l', binit_loop k b c s = Ok tt c s' /\ blist s' l' /\ bio_disk s' = bio_disk s /\ bio_hist s' = bio_hist s /\
    forall i, same_but_links buf0 (bf s' i).
Proof.
  induction k as [|k IH]; intros b l c s Hb Hk Hl Hls Hz.
  - exists s, l. split_and!; try done. apply blist_links. split; [|done]. by replace NBUF with b by lia.
  - rewrite binit_step by lia. set (s1 := front_st b _).
    destruct (IH (b + 1) (b :: l) c s1) as (s' & l' & Hr & Hbl & Hd & Hh & Hz'); try lia.
    + rewrite seqZ_app by lia. rewrite Hl. change (seqZ (0 + b) 1) with [0 + b]. rewrite Z.add_0_l. apply Permutation_cons_append.
    + apply links_front.
      * apply NoDup_cons. split; [|apply NoDup_cons; split; [|rewrite Hl; apply NoDup_seqZ]].
        -- intros [E|Hin]%elem_of_cons; [unfold bhead in E; lia|]. rewrite Hl in Hin. apply elem_of_seqZ in Hin. unfold bhead in Hin. lia.
        -- intros Hin. rewrite Hl in Hin. apply elem_of_seqZ in Hin. lia.
      * destruct Hls as [Hn Hp]. split; [eapply links_ext; [|exact Hn]|eapply links_ext; [|exact Hp]]; intros j _;
          [rewrite bf_next_upd|rewrite bf_prev_upd]; (case_decide; [subst|]; done).
    + intros i. unfold s1. eapply same_but_links_trans; [|apply front_st_same]. rewrite bf_upd. case_decide; [|apply Hz].
      destruct (Hz b) as (? & ? & ? & ? & ? & ? & ?). by split_and!.
    + by exists s', l'.
Qed.

Lemma binit_run d c : dev <> 0 -> (forall b, length (dblock d b) = Z.to_nat BSIZE) ->
  exists s', binit c (BCache ∅ d []) = Ok tt c s' /\ (forall i, same_but_links buf0 (bf s' i)) /\
    bio_abs dev pid s' (BState d [] ∅ ∅ ∅).
Proof.
  intros Hdev Hd. set (s0 := upd_bf bhead (set_next bhead) (upd_bf bhead (set_prev bhead) (BCache ∅ d []))).
  assert (forall i, same_but_links buf0 (bf s0 i)) as Hz0.
  { intros i. unfold s0. rewrite !bf_upd. repeat case_decide; by split_and!. }
  destruct (binit_loop_run (Z.to_nat NBUF) 0 [] c s0) as (s' & l & Hr & Hl & Hds & Hh & Hz); try done.
  exists s'. split; [exact Hr|]. split; [done|].
  split; cbn [disk hist dirty handles pins]; try done.
  - by exists l.
  - intros i Hi. destruct (Hz i) as (Hv & _ & E3 & E4 & E5 & E6 & E7). split; rewrite ?Hv, ?E3, ?E4, ?E5, ?E6, ?E7; try done.
    unfold hcnt, pcnt. rewrite E3. cbn [handles]. rewrite lookup_empty, decide_False by (by intros []). by rewrite decide_False.
  - intros i j _ _ Hdi. destruct (Hz i) as (_ & _ & E & _). rewrite E in Hdi. by destruct Hdev.
  - intros b Hb. unfold npins in Hb. cbn [pins] in Hb. rewrite lookup_empty in Hb. cbn in Hb. lia.
  - intros b. rewrite lookup_empty. by intros [].
Qed.

(** [binit] on the zeroed cache of a booting kernel builds the list of
    all buffers and leaves a cache in which no block is held, whatever is on
    the disk; the log and the file system start from it. *)
Theorem binit_spec d c : dev <> 0 -> (forall b, length (dblock d b) = Z.to_nat BSIZE) ->
  exists s' l, binit c (BCache ∅ d []) = Ok tt c s' /\ blist s' l /\ bio_abs dev pid s' (BState d [] ∅ ∅ ∅).
Proof.
  intros Hdev Hd. destruct (binit_run d c Hdev Hd) as (s' & Hr & _ & Ha). destruct (ba_list _ _ _ _ Ha) as [l Hl]. by exists s', l.
Qed.
End props.

(** ** An empty disk *)

Module Demo.
#[local] Instance demo_wakes : Wakes := {| wakes := 1 |}.
Definition c0 : ctx := Ctx ∅ [] 0 1.
Definition a0 : bstate := BState ∅ [] ∅ ∅ ∅.

Lemma c0_locks : block_locks 1 c0.
Proof. by split_and!. Qed.

Lemma zero_length b : length (dblock ∅ b) = Z.to_nat BSIZE.
Proof. unfold dblock. rewrite lookup_empty. apply length_replicate. Qed.

Lemma booted : exists s, binit c0 (BCache ∅ ∅ []) = Ok tt c0 s /\ (forall i, same_but_links buf0 (bf s i)) /\ bio_abs 1 1 s a0.
Proof. by apply binit_run; [|apply zero_length]. Qed.

(** Block 7 is open. *)
Lemma one_open : exists s h, bio_abs 1 1 s (a_open h 7 a0).
Proof.
  destruct booted as (s & _ & _ & Ha).
  destruct (bread_run 1 1 s a0 7 c0 Ha c0_locks) as (h & _ & s' & _ & _ & _ & Ha').
  - by intros [h Hh].
  - vm_compute. lia.
  - by exists s', h.
Qed.

Lemma bio_refines_witness : exists s h s', bio_abs 1 1 s a0 /\ Bio.bread 1 7 c0 s = Ok h c0 s'.
Proof.
  destruct booted as (s & _ & _ & Ha). destruct (bio_refines 1 1 s a0 c0 Ha c0_locks) as [Hr _].
  destruct (Hr 7) as (h & s' & H & _); [by intros [h Hh]|vm_compute; lia|]. by exists s, h, s'.
Defined.

Lemma bget_lru_witness : exists s i s', bget 1 7 c0 s = Ok i c0 s'.
Proof.
  destruct booted as (s & _ & Hz & Ha). destruct (ba_list _ _ _ _ Ha) as [l Hl].
  assert (length l = Z.to_nat NBUF) as Hlen by (rewrite (bl_perm _ _ Hl); apply length_seqZ).
  destruct l as [|i l _] using rev_ind; [discriminate|].
  destruct (bget_lru 1 1 7 s (l ++ [i]) c0 Hl c0_locks) as [_ H7].
  - intros j Hj _. exact (bo_free _ _ _ _ _ (ba_buf _ _ _ _ Ha j Hj) (lookup_empty j)).
  - destruct H7 as [_ Hr].
    { intros j _ [Hd _]. destruct (Hz j) as (_ & _ & E & _). rewrite E in Hd. discriminate. }
    destruct (Hr l i []) as (s' & H & _); [reflexivity|apply (Hz i)|constructor|]. exists s, i, s'. exact H.
Defined.

Lemma brelse_order_witness : exists s h c' s', Bio.brelse h c0 s = Ok tt c' s'.
Proof.
  destruct one_open as (s & h & Ha). destruct (ba_list _ _ _ _ Ha) as [l Hl].
  assert (handles (a_open h 7 a0) !! h = Some 7) as Hh by apply lookup_insert_eq.
  assert (h ∈ l) as Hin by (rewrite (blist_range _ _ _ Hl); apply (ba_range _ _ _ _ Ha h 7 Hh)).
  apply list_elem_of_split in Hin as (l1 & l2 & ->).
  destruct (brelse_order 1 1 s (a_open h 7 a0) h 7 c0 l1 l2 Ha c0_locks Hh Hl) as (c' & s' & Hr & _).
  exists s, h, c', s'. exact Hr.
Defined.

Lemma binit_spec_witness : exists s l, binit c0 (BCache ∅ ∅ []) = Ok tt c0 s /\ blist s l.
Proof.
  destruct (binit_spec 1 1 ∅ c0) as (s & l & Hr & Hl & _); [discriminate|apply zero_length|]. exists s, l. split; assumption.
Defined.
End Demo.
