(* ===== verification/Virtio.v ===== *)
(** * The disk driver: kernel/virtio_disk.c

    Requests are chains of three descriptors handed to the device through the
    available ring; the device reports completed chains in the used ring and
    interrupts. The pages shared with the device, the driver's bookkeeping, the
    fields of the buffers that the driver and the device use, and the disk
    image are one state. The device itself is not part of the kernel: what it
    does with a chain is the hypothesis [device_ok], the behaviour the virtio
    specification documents for a block device.

    The theorem is that a request, the device's service of it, the interrupt
    and the end of the request together do the transfer that file Bio assumes
    of [virtio_disk_rw]. *)

From S2P Require Import Prelude Riscv Mem Kalloc Sleeplock Block Bio.

(** ** kernel/virtio.h *)

(** The registers of the device, and their offsets. *)
Inductive mmio :=
| VIRTIO_MMIO_MAGIC_VALUE
| VIRTIO_MMIO_VERSION
| VIRTIO_MMIO_DEVICE_ID
| VIRTIO_MMIO_VENDOR_ID
| VIRTIO_MMIO_DEVICE_FEATURES
| VIRTIO_MMIO_DRIVER_FEATURES
| VIRTIO_MMIO_QUEUE_SEL
| VIRTIO_MMIO_QUEUE_NUM_MAX
| VIRTIO_MMIO_QUEUE_NUM
| VIRTIO_MMIO_QUEUE_READY
| VIRTIO_MMIO_QUEUE_NOTIFY
| VIRTIO_MMIO_INTERRUPT_STATUS
| VIRTIO_MMIO_INTERRUPT_ACK
| VIRTIO_MMIO_STATUS
| VIRTIO_MMIO_QUEUE_DESC_LOW
| VIRTIO_MMIO_QUEUE_DESC_HIGH
| VIRTIO_MMIO_DRIVER_DESC_LOW
| VIRTIO_MMIO_DRIVER_DESC_HIGH
| VIRTIO_MMIO_DEVICE_DESC_LOW
| VIRTIO_MMIO_DEVICE_DESC_HIGH.
Definition mmio_offset (r : mmio) : Z :=
  match r with
  | VIRTIO_MMIO_MAGIC_VALUE => 0x000
  | VIRTIO_MMIO_VERSION => 0x004
  | VIRTIO_MMIO_DEVICE_ID => 0x008
  | VIRTIO_MMIO_VENDOR_ID => 0x00c
  | VIRTIO_MMIO_DEVICE_FEATURES => 0x010
  | VIRTIO_MMIO_DRIVER_FEATURES => 0x020
  | VIRTIO_MMIO_QUEUE_SEL => 0x030
  | VIRTIO_MMIO_QUEUE_NUM_MAX => 0x034
  | VIRTIO_MMIO_QUEUE_NUM => 0x038
  | VIRTIO_MMIO_QUEUE_READY => 0x044
  | VIRTIO_MMIO_QUEUE_NOTIFY => 0x050
  | VIRTIO_MMIO_INTERRUPT_STATUS => 0x060
  | VIRTIO_MMIO_INTERRUPT_ACK => 0x064
  | VIRTIO_MMIO_STATUS => 0x070
  | VIRTIO_MMIO_QUEUE_DESC_LOW => 0x080
  | VIRTIO_MMIO_QUEUE_DESC_HIGH => 0x084
  | VIRTIO_MMIO_DRIVER_DESC_LOW => 0x090
  | VIRTIO_MMIO_DRIVER_DESC_HIGH => 0x094
  | VIRTIO_MMIO_DEVICE_DESC_LOW => 0x0a0
  | VIRTIO_MMIO_DEVICE_DESC_HIGH => 0x0a4
  end.
Definition VIRTIO_CONFIG_S_ACKNOWLEDGE : Z := 1.
Definition VIRTIO_CONFIG_S_DRIVER : Z := 2.
Definition VIRTIO_CONFIG_S_DRIVER_OK : Z := 4.
Definition VIRTIO_CONFIG_S_FEATURES_OK : Z := 8.
(** The feature bits the driver turns down: RO, SCSI, CONFIG_WCE, MQ,
    ANY_LAYOUT, EVENT_IDX and INDIRECT_DESC. *)
Definition refused_features : list Z := [5; 7; 11; 12; 27; 29; 28].
Definition NUM : Z := 8.
Definition VRING_DESC_F_NEXT : Z := 1.
Definition VRING_DESC_F_WRITE : Z := 2.
Definition VIRTIO_BLK_T_IN : Z := 0.
Definition VIRTIO_BLK_T_OUT : Z := 1.

(** The address in a descriptor: a command header, the data of a buffer, or
    the status byte of a request. *)
Inductive daddr := ANull | AOp (i : Z) | AData (b : Z) | AStatus (i : Z).

Record virtq_desc := Desc { d_addr : daddr; d_len : Z; d_flags : Z; d_next : Z }.
Definition desc0 : virtq_desc := Desc ANull 0 0 0.
Record virtio_blk_req := Req { rq_type : Z; rq_reserved : Z; rq_sector : Z }.
Definition req0 : virtio_blk_req := Req 0 0 0.

(** [struct disk] with the pages it points to; of the buffers, the fields
    [blockno], [disk] and [data]; the disk image; and the registers written. *)
Record vdisk := VDisk {
  desc : gmap Z virtq_desc;
  avail_ring : gmap Z Z;
  avail_idx : Z;
  used_ring : gmap Z Z;
  used_dev : Z;              (* used->idx *)
  vfree : gmap Z bool;
  used_idx : Z;              (* disk.used_idx *)
  info_b : gmap Z Z;
  info_status : gmap Z Z;
  ops : gmap Z virtio_blk_req;
  vb_blockno : gmap Z Z;
  vb_disk : gmap Z bool;
  vb_data : gmap Z block;
  image : gmap Z block;
  regs : list (Z * Z);
}.

Definition desc_at (s : vdisk) (i : Z) : virtq_desc := default desc0 (desc s !! i).
Definition free_at (s : vdisk) (i : Z) : bool := default false (vfree s !! i).
Definition op_at (s : vdisk) (i : Z) : virtio_blk_req := default req0 (ops s !! i).
Definition blockno_at (s : vdisk) (b : Z) : Z := default 0 (vb_blockno s !! b).
Definition busy_at (s : vdisk) (b : Z) : bool := default false (vb_disk s !! b).
Definition data_at (s : vdisk) (b : Z) : block := default zero_block (vb_data s !! b).

Definition set_desc (i : Z) (d : virtq_desc) (s : vdisk) : vdisk :=
  VDisk (<[i := d]> (desc s)) (avail_ring s) (avail_idx s) (used_ring s) (used_dev s) (vfree s) (used_idx s) (info_b s) (info_status s) (ops s) (vb_blockno s) (vb_disk s) (vb_data s) (image s) (regs s).
Definition set_avail (i h : Z) (s : vdisk) : vdisk :=
  VDisk (desc s) (<[i := h]> (avail_ring s)) (avail_idx s) (used_ring s) (used_dev s) (vfree s) (used_idx s) (info_b s) (info_status s) (ops s) (vb_blockno s) (vb_disk s) (vb_data s) (image s) (regs s).
Definition set_avail_idx (n : Z) (s : vdisk) : vdisk :=
  VDisk (desc s) (avail_ring s) n (used_ring s) (used_dev s) (vfree s) (used_idx s) (info_b s) (info_status s) (ops s) (vb_blockno s) (vb_disk s) (vb_data s) (image s) (regs s).
Definition set_free (i : Z) (f : bool) (s : vdisk) : vdisk :=
  VDisk (desc s) (avail_ring s) (avail_idx s) (used_ring s) (used_dev s) (<[i := f]> (vfree s)) (used_idx s) (info_b s) (info_status s) (ops s) (vb_blockno s) (vb_disk s) (vb_data s) (image s) (regs s).
Definition set_used_idx (n : Z) (s : vdisk) : vdisk :=
  VDisk (desc s) (avail_ring s) (avail_idx s) (used_ring s) (used_dev s) (vfree s) n (info_b s) (info_status s) (ops s) (vb_blockno s) (vb_disk s) (vb_data s) (image s) (regs s).
Definition set_info_b (i b : Z) (s : vdisk) : vdisk :=
  VDisk (desc s) (avail_ring s) (avail_idx s) (used_ring s) (used_dev s) (vfree s) (used_idx s) (<[i := b]> (info_b s)) (info_status s) (ops s) (vb_blockno s) (vb_disk s) (vb_data s) (image s) (regs s).
Definition set_info_status (i v : Z) (s : vdisk) : vdisk :=
  VDisk (desc s) (avail_ring s) (avail_idx s) (used_ring s) (used_dev s) (vfree s) (used_idx s) (info_b s) (<[i := v]> (info_status s)) (ops s) (vb_blockno s) (vb_disk s) (vb_data s) (image s) (regs s).
Definition set_op (i : Z) (r : virtio_blk_req) (s : vdisk) : vdisk :=
  VDisk (desc s) (avail_ring s) (avail_idx s) (used_ring s) (used_dev s) (vfree s) (used_idx s) (info_b s) (info_status s) (<[i := r]> (ops s)) (vb_blockno s) (vb_disk s) (vb_data s) (image s) (regs s).
Definition set_bdisk (b : Z) (f : bool) (s : vdisk) : vdisk :=
  VDisk (desc s) (avail_ring s) (avail_idx s) (used_ring s) (used_dev s) (vfree s) (used_idx s) (info_b s) (info_status s) (ops s) (vb_blockno s) (<[b := f]> (vb_disk s)) (vb_data s) (image s) (regs s).
Definition write_reg (r : mmio) (v : Z) (s : vdisk) : vdisk :=
  VDisk (desc s) (avail_ring s) (avail_idx s) (used_ring s) (used_dev s) (vfree s) (used_idx s) (info_b s) (info_status s) (ops s) (vb_blockno s) (vb_disk s) (vb_data s) (image s) (regs s ++ [(mmio_offset r, u32 v)]).

(** ** Descriptors *)

Fixpoint alloc_desc_scan (l : list Z) (free : gmap Z bool) : Z :=
  match l with
  | [] => -1
  | i :: l => if default false (free !! i) then i else alloc_desc_scan l free
  end.
Definition alloc_desc : M vdisk Z :=
  i ← gets (fun s => alloc_desc_scan (seqZ 0 NUM) (vfree s));
  (if i <? 0 then mret tt else modify (set_free i false));;
  mret i.

Definition free_desc (i : Z) : M vdisk unit :=
  if NUM <=? i then panic "free_desc 1"
  else
    f ← gets (fun s => free_at s i);
    if f : bool then panic "free_desc 2"
    else
      modify (set_desc i desc0);;
      modify (set_free i true);;
      wakeup ChDesc.

Fixpoint free_chain_loop (fuel : nat) (i : Z) : M vdisk unit :=
  match fuel with
  | O => nofuel
  | S fuel =>
      d ← gets (fun s => desc_at s i);
      free_desc i;;
      if flag (d_flags d) VRING_DESC_F_NEXT then free_chain_loop fuel (d_next d) else mret tt
  end.
(** A chain has at most [NUM] descriptors: a second visit panics. *)
Definition free_chain (i : Z) : M vdisk unit := free_chain_loop (S (Z.to_nat NUM)) i.

(** [idx[0..2]], or [None] for -1. *)
Definition alloc3_desc : M vdisk (option (Z * Z * Z)) :=
  i0 ← alloc_desc;
  if i0 <? 0 then mret None
  else
    i1 ← alloc_desc;
    if i1 <? 0 then
      free_desc i0;;
      mret None
    else
      i2 ← alloc_desc;
      if i2 <? 0 then
        free_desc i0;;
        free_desc i1;;
        mret None
      else mret (Some (i0, i1, i2)).

(** ** Requests *)

Section requests.
Context {W : Wakes}.

(** [while(1) { if(alloc3_desc(idx) == 0) break; sleep(...); }] *)
Fixpoint alloc3_wait (fuel : nat) : M vdisk (Z * Z * Z) :=
  match fuel with
  | O => nofuel
  | S fuel =>
      r ← alloc3_desc;
      match r with
      | Some idx => mret idx
      | None => sleep ChDesc LVdisk;; alloc3_wait fuel
      end
  end.

(** The assignments to the three descriptors and to the request header. *)
Definition format (b : Z) (write : bool) (sector i0 i1 i2 : Z) : M vdisk unit :=
  modify (set_op i0 (Req (if write then VIRTIO_BLK_T_OUT else VIRTIO_BLK_T_IN) 0 sector));;
  modify (set_desc i0 (Desc (AOp i0) 16 VRING_DESC_F_NEXT i1));;
  modify (set_desc i1 (Desc (AData b) BSIZE (Z.lor (if write then 0 else VRING_DESC_F_WRITE) VRING_DESC_F_NEXT) i2));;
  modify (set_info_status i0 0xff);;
  modify (set_desc i2 (Desc (AStatus i0) 1 VRING_DESC_F_WRITE 0)).

(** Hand the chain to the device. *)
Definition submit (b i0 : Z) : M vdisk unit :=
  modify (set_bdisk b true);;
  modify (set_info_b i0 b);;
  modify (fun s => set_avail (avail_idx s mod NUM) i0 s);;
  modify (fun s => set_avail_idx (u16 (avail_idx s + 1)) s);;
  modify (write_reg VIRTIO_MMIO_QUEUE_NOTIFY 0).

(** [while(b->disk == 1) sleep(b, &disk.vdisk_lock);] *)
Fixpoint done_wait (fuel : nat) (b : Z) : M vdisk unit :=
  match fuel with
  | O => nofuel
  | S fuel =>
      d ← gets (fun s => busy_at s b);
      if d : bool then sleep (ChBuf b) LVdisk;; done_wait fuel b else mret tt
  end.

Definition virtio_disk_rw (b : Z) (write : bool) : M vdisk unit :=
  no ← gets (fun s => blockno_at s b);
  let sector := u32 (no * (BSIZE / 512)) in
  acquire LVdisk;;
  idx ← alloc3_wait (S wakes);
  let '(i0, i1, i2) := idx in
  format b write sector i0 i1 i2;;
  submit b i0;;
  done_wait (S wakes) b;;
  modify (set_info_b i0 (-1));;
  free_chain i0;;
  release LVdisk.
End requests.

(** ** Interrupts *)

(** [while(disk.used_idx != disk.used->idx)] *)
Fixpoint intr_loop (fuel : nat) : M vdisk unit :=
  match fuel with
  | O => nofuel
  | S fuel =>
      s ← get;
      if negb (used_idx s =? used_dev s) then
        let id := default 0 (used_ring s !! (used_idx s mod NUM)) in
        if negb (default 0 (info_status s !! id) =? 0) then panic "virtio_disk_intr status"
        else
          let b := default (-1) (info_b s !! id) in
          modify (set_bdisk b false);;
          wakeup (ChBuf b);;
          modify (set_used_idx (u16 (used_idx s + 1)));;
          intr_loop fuel
      else mret tt
  end.
(** Both indices are 16 bits wide, so that they meet within their distance. *)
Definition virtio_disk_intr (int_status : Z) : M vdisk unit :=
  acquire LVdisk;;
  modify (write_reg VIRTIO_MMIO_INTERRUPT_ACK (Z.land int_status 0x3));;
  s ← get;
  intr_loop (S (Z.to_nat (u16 (used_dev s - used_idx s))));;
  release LVdisk.

(** ** Initialisation

    [R] are the values the device's registers read; the pages come from the
    page allocator. *)
Definition clear_feature (f bit : Z) : Z := Z.land f (Z.lnot (Z.shiftl 1 bit)).

Definition set_regs (ws : list (mmio * Z)) : M (pmem * vdisk) unit :=
  for_each ws (fun w => modify (fun s => (s.1, write_reg w.1 w.2 s.2))).

Section init.
Context `{LK : Linker} (R : mmio -> Z).

Definition virtio_disk_init : M (pmem * vdisk) unit :=
  if negb (R VIRTIO_MMIO_MAGIC_VALUE =? 0x74726976) || negb (R VIRTIO_MMIO_VERSION =? 2) ||
     negb (R VIRTIO_MMIO_DEVICE_ID =? 2) || negb (R VIRTIO_MMIO_VENDOR_ID =? 0x554d4551)
  then panic "could not find virtio disk"
  else
    let st1 := VIRTIO_CONFIG_S_ACKNOWLEDGE in
    let st2 := Z.lor st1 VIRTIO_CONFIG_S_DRIVER in
    set_regs [(VIRTIO_MMIO_STATUS, 0); (VIRTIO_MMIO_STATUS, st1); (VIRTIO_MMIO_STATUS, st2)];;
    let features := foldl clear_feature (R VIRTIO_MMIO_DEVICE_FEATURES) refused_features in
    set_regs [(VIRTIO_MMIO_DRIVER_FEATURES, features);
              (VIRTIO_MMIO_STATUS, Z.lor st2 VIRTIO_CONFIG_S_FEATURES_OK)];;
    let status := R VIRTIO_MMIO_STATUS in
    if negb (flag status VIRTIO_CONFIG_S_FEATURES_OK) then panic "virtio disk FEATURES_OK unset"
    else
      set_regs [(VIRTIO_MMIO_QUEUE_SEL, 0)];;
      if negb (R VIRTIO_MMIO_QUEUE_READY =? 0) then panic "virtio disk should not be ready"
      else if R VIRTIO_MMIO_QUEUE_NUM_MAX =? 0 then panic "virtio disk has no queue 0"
      else if R VIRTIO_MMIO_QUEUE_NUM_MAX <? NUM then panic "virtio disk max queue too short"
      else
        pdesc ← zoom fst (fun p s => (p, s.2)) kalloc;
        pavail ← zoom fst (fun p s => (p, s.2)) kalloc;
        pused ← zoom fst (fun p s => (p, s.2)) kalloc;
        if (pdesc =? 0) || (pavail =? 0) || (pused =? 0) then panic "virtio disk kalloc"
        else
          zoom fst (fun p s => (p, s.2)) (kmemset pdesc 0 PGSIZE;; kmemset pavail 0 PGSIZE;; kmemset pused 0 PGSIZE);;
          modify (fun s => (s.1, VDisk ∅ ∅ 0 ∅ 0 (vfree s.2) (used_idx s.2) (info_b s.2) (info_status s.2) (ops s.2)
                                   (vb_blockno s.2) (vb_disk s.2) (vb_data s.2) (image s.2) (regs s.2)));;
          set_regs [(VIRTIO_MMIO_QUEUE_NUM, NUM);
                    (VIRTIO_MMIO_QUEUE_DESC_LOW, pdesc); (VIRTIO_MMIO_QUEUE_DESC_HIGH, Z.shiftr pdesc 32);
                    (VIRTIO_MMIO_DRIVER_DESC_LOW, pavail); (VIRTIO_MMIO_DRIVER_DESC_HIGH, Z.shiftr pavail 32);
                    (VIRTIO_MMIO_DEVICE_DESC_LOW, pused); (VIRTIO_MMIO_DEVICE_DESC_HIGH, Z.shiftr pused 32);
                    (VIRTIO_MMIO_QUEUE_READY, 1)];;
          for_each (seqZ 0 NUM) (fun i => modify (fun s => (s.1, set_free i true s.2)));;
          set_regs [(VIRTIO_MMIO_STATUS, Z.lor status VIRTIO_CONFIG_S_DRIVER_OK)].
End init.

(** ** Free descriptors *)

Abbreviation is_free m := (fun i : Z => default false (m !! i) = true).
Definition frees (s : vdisk) : list Z := filter (is_free (vfree s)) (seqZ 0 NUM).

Lemma alloc_desc_scan_head l m : alloc_desc_scan l m = default (-1) (head (filter (is_free m) l)).
Proof.
  induction l as [|i l IH]; [done|]. cbn [alloc_desc_scan]. rewrite filter_cons.
  destruct (default false (m !! i)); [by rewrite decide_True|]. by rewrite decide_False.
Qed.

Lemma filter_ext_in {A} (P Q : A -> Prop) `{!forall x, Decision (P x), !forall x, Decision (Q x)} (l : list A) :
  (forall x, x ∈ l -> P x <-> Q x) -> filter P l = filter Q l.
Proof.
  induction l as [|a l IH]; [done|]. intros Hx. rewrite !filter_cons, IH by (intros; apply Hx; by right).
  assert (Ha : P a <-> Q a) by (apply Hx; by left). repeat case_decide; tauto.
Qed.

Lemma filter_taken (m : gmap Z bool) l i rest : NoDup l -> filter (is_free m) l = i :: rest ->
  filter (is_free (<[i := false]> m)) l = rest.
Proof.
  induction l as [|a l IH]; [done|]. intros [Ha Hl]%NoDup_cons. rewrite !filter_cons. case_decide as Em.
  - intros [= -> <-]. rewrite decide_False by (by rewrite lookup_insert_eq).
    apply filter_ext_in. intros x Hx. rewrite lookup_insert_ne by congruence. done.
  - intros Hf. assert (Hi : i ∈ filter (is_free m) l) by (rewrite Hf; by left).
    apply list_elem_of_filter in Hi as [Hi _]. rewrite decide_False; [by apply IH|].
    rewrite lookup_insert_ne by congruence. done.
Qed.

Lemma alloc_desc_run s i rest c : frees s = i :: rest ->
  alloc_desc c s = Ok i c (set_free i false s) /\ frees (set_free i false s) = rest /\ 0 <= i < NUM /\ free_at s i = true /\ i ∉ rest.
Proof.
  intros Hf. assert (Hi : i ∈ frees s) by (rewrite Hf; by left). unfold frees in Hi.
  apply list_elem_of_filter in Hi as [Hi Hr%elem_of_seqZ].
  assert (Hn : NoDup (i :: rest)) by (rewrite <- Hf; apply NoDup_filter, NoDup_seqZ).
  split_and!; [|by apply filter_taken; [apply NoDup_seqZ|]|lia..|done|by inversion Hn].
  unfold alloc_desc. erewrite bind_ok; [|reflexivity]. rewrite alloc_desc_scan_head. unfold frees in Hf. rewrite Hf.
  cbn [head default from_option]. replace (id i <? 0) with false by (unfold id; lia). done.
Qed.

Lemma alloc3_run s i0 i1 i2 rest c : frees s = i0 :: i1 :: i2 :: rest ->
  alloc3_desc c s = Ok (Some (i0, i1, i2)) c (set_free i2 false (set_free i1 false (set_free i0 false s))) /\
  (0 <= i0 < NUM /\ 0 <= i1 < NUM /\ 0 <= i2 < NUM) /\ (i0 <> i1 /\ i0 <> i2 /\ i1 <> i2) /\
  free_at s i0 = true /\ free_at s i1 = true /\ free_at s i2 = true.
Proof.
  intros H0. destruct (alloc_desc_run _ _ _ c H0) as (R0 & H1 & B0 & F0 & N0).
  destruct (alloc_desc_run _ _ _ c H1) as (R1 & H2 & B1 & F1 & N1).
  destruct (alloc_desc_run _ _ _ c H2) as (R2 & _ & B2 & F2 & N2).
  assert (i0 <> i1 /\ i0 <> i2 /\ i1 <> i2) as (N01 & N02 & N12) by set_solver.
  unfold free_at in F1, F2. cbn in F1, F2. rewrite lookup_insert_ne in F1 by done. rewrite !lookup_insert_ne in F2 by done.
  split_and!; try lia; try done. unfold alloc3_desc.
  mstep R0. replace (i0 <? 0) with false by lia. mstep R1. replace (i1 <? 0) with false by lia.
  mstep R2. by replace (i2 <? 0) with false by lia.
Qed.

(** ** The device *)

(** The request that a chain of descriptors describes: its header, the buffer
    and the place of the status byte. *)
Definition chain (s : vdisk) (h : Z) : option (virtio_blk_req * Z * Z) :=
  let d0 := desc_at s h in
  let d1 := desc_at s (d_next d0) in
  let d2 := desc_at s (d_next d1) in
  match d_addr d0, d_addr d1, d_addr d2 with
  | AOp o, AData b, AStatus k =>
      let rq := op_at s o in
      let dir := if rq_type rq =? VIRTIO_BLK_T_OUT then 0 else VRING_DESC_F_WRITE in
      if (d_len d0 =? 16) && (d_flags d0 =? VRING_DESC_F_NEXT) && (d_len d1 =? BSIZE) &&
         (d_flags d1 =? Z.lor dir VRING_DESC_F_NEXT) && (d_len d2 =? 1) && (d_flags d2 =? VRING_DESC_F_WRITE)
      then Some (rq, b, k) else None
  | _, _, _ => None
  end.

(** The state after the device has served the chain at [h]: data moved between
    the buffer and the two sectors, status 0, the head in the used ring. *)
Definition served (h : Z) (rq : virtio_blk_req) (b k : Z) (s : vdisk) : vdisk :=
  let no := rq_sector rq / 2 in
  let write := rq_type rq =? VIRTIO_BLK_T_OUT in
  VDisk (desc s) (avail_ring s) (avail_idx s) (<[used_dev s mod NUM := h]> (used_ring s)) (u16 (used_dev s + 1)) (vfree s)
    (used_idx s) (info_b s) (<[k := 0]> (info_status s)) (ops s) (vb_blockno s) (vb_disk s)
    (if write then vb_data s else <[b := dblock (image s) no]> (vb_data s))
    (if write then disk_write (image s) (no, data_at s b) else image s) (regs s).

(** [serve n] is what the device does with entry [n] of the available ring. *)
Definition device_ok (serve : Z -> vdisk -> vdisk) : Prop :=
  forall n s rq b k, let h := default 0 (avail_ring s !! (n mod NUM)) in
  chain s h = Some (rq, b, k) -> rq_sector rq mod 2 = 0 -> serve n s = served h rq b k s.

(** ** One request *)

(** A context in which the events [es] have been recorded as well. *)
Definition noted (es : list event) (c : ctx) : ctx := Ctx (held c) (trace c ++ es) (me c) (mypid c).

Lemma wakeup_noted {S} ch l c (s : S) : wakeup ch (hold l c) s = Ok tt (hold l (noted [EvWakeup ch] c)) s.
Proof. done. Qed.

Lemma noted_noted es es' c : noted es' (noted es c) = noted (es ++ es') c.
Proof. unfold noted. cbn. by rewrite app_assoc. Qed.

Lemma free_desc_run l c s i : 0 <= i < NUM -> free_at s i = false ->
  free_desc i (hold l c) s = Ok tt (hold l (noted [EvWakeup ChDesc] c)) (set_free i true (set_desc i desc0 s)).
Proof.
  intros Hi Hf. unfold free_desc. replace (NUM <=? i) with false by lia.
  erewrite bind_ok; [|reflexivity]. by rewrite Hf.
Qed.

Section one_request.
Context {W : Wakes} (b : Z) (write : bool) (i0 i1 i2 : Z).

(** The state in which the request has been handed to the device. *)
Definition formatted (sector : Z) (s : vdisk) : vdisk :=
  set_desc i2 (Desc (AStatus i0) 1 VRING_DESC_F_WRITE 0)
    (set_info_status i0 0xff
      (set_desc i1 (Desc (AData b) BSIZE (Z.lor (if write then 0 else VRING_DESC_F_WRITE) VRING_DESC_F_NEXT) i2)
        (set_desc i0 (Desc (AOp i0) 16 VRING_DESC_F_NEXT i1)
          (set_op i0 (Req (if write then VIRTIO_BLK_T_OUT else VIRTIO_BLK_T_IN) 0 sector) s)))).
Definition submitted (s : vdisk) : vdisk :=
  let s := set_info_b i0 b (set_bdisk b true s) in
  write_reg VIRTIO_MMIO_QUEUE_NOTIFY 0 (set_avail_idx (u16 (avail_idx s + 1)) (set_avail (avail_idx s mod NUM) i0 s)).
Definition requested (s : vdisk) : vdisk :=
  submitted (formatted (u32 (blockno_at s b * (BSIZE / 512))) (set_free i2 false (set_free i1 false (set_free i0 false s)))).

(** What is left of [virtio_disk_rw] when the process wakes up. *)
Definition request_rest (fuel : nat) : M vdisk unit :=
  acquire LVdisk;;
  done_wait fuel b;;
  modify (set_info_b i0 (-1));;
  free_chain i0;;
  release LVdisk.

Lemma rw_submits s rest c : held c = ∅ -> frees s = i0 :: i1 :: i2 :: rest ->
  exists r, virtio_disk_rw b write c s = Blocked (WSleep (ChBuf b) LVdisk) c (requested s) r /\
    forall c' s', r c' s' = request_rest wakes c' s'.
Proof.
  intros Hc Hf. destruct (alloc3_run s i0 i1 i2 rest (hold LVdisk c) Hf) as (R & _).
  assert (Hl : LVdisk ∉ held c) by set_solver.
  unfold virtio_disk_rw. erewrite bind_ok; [|reflexivity]. mstep (acquire_ok LVdisk c s Hl).
  cbn [alloc3_wait]. erewrite bind_ok; [|mstep R; reflexivity]. cbv beta iota.
  erewrite bind_ok; [|reflexivity]. erewrite bind_ok; [|reflexivity].
  match goal with |- context [(_ ≫= _) (hold LVdisk c) ?st] => change st with (requested s) end.
  assert (Hd : done_wait (S wakes) b (hold LVdisk c) (requested s) =
            Blocked (WSleep (ChBuf b) LVdisk) c (requested s) (acquire LVdisk ≫= fun _ => done_wait wakes b)).
  { cbn [done_wait]. erewrite bind_ok; [|reflexivity]. unfold requested at 1, submitted at 1, busy_at.
    cbn [vb_disk write_reg set_avail_idx set_avail set_info_b set_bdisk]. rewrite lookup_insert_eq. cbn [default from_option].
    unfold id. apply bind_blocked. unfold sleep. rewrite !decide_True by (cbn; set_solver). by rewrite unhold_hold. }
  eexists. split; [by apply bind_blocked|]. intros c' s'. unfold request_rest, mbind, M_bind, acquire.
  by case_decide.
Qed.

(** Three descriptors are given back when the flags of the first two say that
    the chain goes on. *)
Definition linked (s : vdisk) : Prop :=
  (0 <= i0 < NUM /\ 0 <= i1 < NUM /\ 0 <= i2 < NUM) /\ (i0 <> i1 /\ i0 <> i2 /\ i1 <> i2) /\
  (free_at s i0 = false /\ free_at s i1 = false /\ free_at s i2 = false) /\
  flag (d_flags (desc_at s i0)) VRING_DESC_F_NEXT = true /\ d_next (desc_at s i0) = i1 /\
  flag (d_flags (desc_at s i1)) VRING_DESC_F_NEXT = true /\ d_next (desc_at s i1) = i2 /\
  flag (d_flags (desc_at s i2)) VRING_DESC_F_NEXT = false.
Definition unlinked (s : vdisk) : vdisk :=
  set_free i2 true (set_desc i2 desc0 (set_free i1 true (set_desc i1 desc0 (set_free i0 true (set_desc i0 desc0 s))))).

Lemma free_chain_run l c s : linked s ->
  free_chain i0 (hold l c) s = Ok tt (hold l (noted [EvWakeup ChDesc; EvWakeup ChDesc; EvWakeup ChDesc] c)) (unlinked s).
Proof.
  intros ((B0 & B1 & B2) & (N01 & N02 & N12) & (F0 & F1 & F2) & G0 & X0 & G1 & X1 & G2).
  unfold free_chain. change (Z.to_nat NUM) with 8%nat. cbn [free_chain_loop].
  set (s1 := set_free i0 true (set_desc i0 desc0 s)). set (s2 := set_free i1 true (set_desc i1 desc0 s1)).
  assert (D1 : desc_at s1 i1 = desc_at s i1 /\ free_at s1 i1 = false).
  { unfold desc_at, free_at in *. cbn. by rewrite !lookup_insert_ne. }
  assert (D2 : desc_at s2 i2 = desc_at s i2 /\ free_at s2 i2 = false).
  { unfold desc_at, free_at in *. cbn. by rewrite !lookup_insert_ne. }
  erewrite bind_ok; [|reflexivity]. cbv beta. mstep (free_desc_run l c s i0 B0 F0). rewrite G0, X0. fold s1.
  erewrite bind_ok; [|reflexivity]. cbv beta. destruct D1 as [-> F1']. rewrite (bind_ok _ _ _ _ _ _ _ (free_desc_run l (noted [EvWakeup ChDesc] c) s1 i1 B1 F1')). rewrite G1, X1. fold s2.
  erewrite bind_ok; [|reflexivity]. cbv beta. destruct D2 as [-> F2']. rewrite (bind_ok _ _ _ _ _ _ _ (free_desc_run l (noted [EvWakeup ChDesc] (noted [EvWakeup ChDesc] c)) s2 i2 B2 F2')). rewrite G2.
  by rewrite !noted_noted.
Qed.

Lemma rw_finishes s c fuel : LVdisk ∉ held c -> busy_at s b = false -> linked s ->
  request_rest (S fuel) c s =
    Ok tt (noted [EvWakeup ChDesc; EvWakeup ChDesc; EvWakeup ChDesc] c) (unlinked (set_info_b i0 (-1) s)).
Proof.
  intros Hl Hb Hk. unfold request_rest. mstep (acquire_ok LVdisk c s Hl).
  erewrite bind_ok; [|cbn [done_wait]; erewrite bind_ok; [|reflexivity]; cbv beta; by rewrite Hb].
  erewrite bind_ok; [|reflexivity]. mstep (free_chain_run LVdisk c (set_info_b i0 (-1) s) Hk). by apply release_ok.
Qed.
End one_request.

(** The interrupt handler, when one completion is pending. *)
Lemma intr_one s c h : LVdisk ∉ held c -> used_dev s = u16 (used_idx s + 1) -> 0 <= used_idx s < 2 ^ 16 ->
  used_ring s !! (used_idx s mod NUM) = Some h -> default 0 (info_status s !! h) = 0 ->
  let b := default (-1) (info_b s !! h) in
  forall st, virtio_disk_intr st c s = Ok tt (noted [EvWakeup (ChBuf b)] c)
    (set_used_idx (used_dev s) (set_bdisk b false (write_reg VIRTIO_MMIO_INTERRUPT_ACK (Z.land st 0x3) s))).
Proof.
  intros Hl Hd Hu Hr Hs b st. unfold virtio_disk_intr. mstep (acquire_ok LVdisk c s Hl).
  erewrite bind_ok; [|reflexivity]. erewrite bind_ok; [|reflexivity]. cbv beta.
  cbn [used_dev used_idx write_reg]. assert (u16 (used_dev s - used_idx s) = 1) as ->.
  { rewrite Hd. unfold u16. rewrite Zminus_mod_idemp_l. by replace (used_idx s + 1 - used_idx s) with 1 by lia. }
  assert (Hne : used_idx s <> used_dev s).
  { rewrite Hd. unfold u16. destruct (decide (used_idx s = 65535)) as [->|]; [done|]. rewrite Z.mod_small by lia. lia. }
  change (Z.to_nat 1) with 1%nat. cbn [intr_loop].
  set (s1 := write_reg VIRTIO_MMIO_INTERRUPT_ACK (Z.land st 0x3) s).
  erewrite bind_ok; [|erewrite bind_ok; [|reflexivity]].
  2: { cbv beta. change (used_idx s1) with (used_idx s). change (used_dev s1) with (used_dev s).
       replace (used_idx s =? used_dev s) with false by lia. cbn [negb]. cbv zeta.
       change (used_ring s1) with (used_ring s). rewrite Hr. change (default 0 (Some h)) with h.
       change (info_status s1) with (info_status s). rewrite Hs. cbn [Z.eqb negb].
       change (info_b s1) with (info_b s). fold b.
       erewrite bind_ok; [|reflexivity]. erewrite bind_ok; [|reflexivity]. erewrite bind_ok; [|reflexivity].
       erewrite bind_ok; [|reflexivity]. cbv beta. cbn [used_idx used_dev set_used_idx set_bdisk].
       change (used_dev s1) with (used_dev s). rewrite <- Hd, Z.eqb_refl. cbn [negb]. reflexivity. }
  change (release LVdisk (hold LVdisk (noted [EvWakeup (ChBuf b)] c)) (set_used_idx (used_dev s) (set_bdisk b false s1)) =
          Ok tt (noted [EvWakeup (ChBuf b)] c) (set_used_idx (used_dev s) (set_bdisk b false s1))).
  by apply release_ok.
Qed.

(** The chain that [virtio_disk_rw] builds says what it is for. *)
Lemma requested_chain b write i0 i1 i2 s : i0 <> i1 -> i0 <> i2 -> i1 <> i2 ->
  chain (requested b write i0 i1 i2 s) i0 =
    Some (Req (if write then VIRTIO_BLK_T_OUT else VIRTIO_BLK_T_IN) 0 (u32 (blockno_at s b * 2)), b, i0).
Proof.
  intros N01 N02 N12. unfold chain, desc_at, op_at, requested, submitted, formatted.
  cbn [desc ops write_reg set_avail_idx set_avail set_info_b set_bdisk set_desc set_info_status set_op set_free].
  rewrite (lookup_insert_ne _ i2 i0), (lookup_insert_ne _ i1 i0), lookup_insert_eq by done.
  cbn [default from_option id d_next d_addr d_len d_flags].
  rewrite (lookup_insert_ne _ i2 i1), lookup_insert_eq by done.
  cbn [default from_option id d_next d_addr d_len d_flags]. rewrite !lookup_insert_eq.
  cbn [default from_option id d_next d_addr d_len d_flags rq_type]. by destruct write.
Qed.

Lemma requested_linked b write i0 i1 i2 s :
  (0 <= i0 < NUM /\ 0 <= i1 < NUM /\ 0 <= i2 < NUM) -> (i0 <> i1 /\ i0 <> i2 /\ i1 <> i2) ->
  linked i0 i1 i2 (requested b write i0 i1 i2 s).
Proof.
  intros HB (N01 & N02 & N12). unfold linked, desc_at, free_at, requested, submitted, formatted.
  cbn [desc vfree write_reg set_avail_idx set_avail set_info_b set_bdisk set_desc set_info_status set_op set_free].
  rewrite (lookup_insert_ne _ i2 i0), (lookup_insert_ne _ i1 i0), (lookup_insert_ne _ i2 i1) by done.
  rewrite !lookup_insert_eq. rewrite (lookup_insert_ne _ i2 i0), (lookup_insert_ne _ i1 i0), (lookup_insert_ne _ i2 i1) by done.
  rewrite !lookup_insert_eq. by destruct write.
Qed.

Lemma linked_frame i0 i1 i2 s s' : desc s' = desc s -> vfree s' = vfree s -> linked i0 i1 i2 s -> linked i0 i1 i2 s'.
Proof. unfold linked, desc_at, free_at. by intros -> ->. Qed.

(** Giving back three descriptors that were free before. *)
Lemma unlinked_free i0 i1 i2 s s' : free_at s i0 = true -> free_at s i1 = true -> free_at s i2 = true ->
  vfree s' = <[i2 := false]> (<[i1 := false]> (<[i0 := false]> (vfree s))) ->
  forall i, free_at (unlinked i0 i1 i2 s') i = free_at s i.
Proof.
  intros F0 F1 F2 E i. unfold free_at in *. cbn [unlinked set_free set_desc vfree]. rewrite E.
  destruct (decide (i = i2)) as [->|]; [by rewrite lookup_insert_eq|]. rewrite lookup_insert_ne by done.
  destruct (decide (i = i1)) as [->|]; [by rewrite lookup_insert_eq|]. rewrite lookup_insert_ne by done.
  destruct (decide (i = i0)) as [->|]; [by rewrite lookup_insert_eq|]. by rewrite !lookup_insert_ne.
Qed.

(** C10: the disk driver does the transfer that the buffer cache asks for. Let
    three descriptors be free and the device have nothing pending. Then
    [virtio_disk_rw] hands a well-formed chain to the device and sleeps; once a
    device that follows the virtio specification has served the chain, the
    interrupt handler wakes the sleeper without a panic, and when the sleeper
    goes on it returns. The disk and the buffer are then as the transfer of
    file Bio leaves them, no other buffer has changed, and exactly the
    descriptors that were free before are free again. *)
Theorem virtio_transfers {W : Wakes} serve b write c s bs :
  device_ok serve -> (0 < wakes)%nat -> held c = ∅ -> (3 <= length (frees s))%nat ->
  used_idx s = used_dev s -> 0 <= used_idx s < 2 ^ 16 -> 0 <= blockno_at s b < 2 ^ 31 ->
  image s = bio_disk bs -> blockno_at s b = bf_blockno (bf bs b) -> data_at s b = bf_data (bf bs b) ->
  exists s1 r bs',
    virtio_disk_rw b write c s = Blocked (WSleep (ChBuf b) LVdisk) c s1 r /\
    Bio.virtio_disk_rw b write c bs = Ok tt c bs' /\
    forall ci st, LVdisk ∉ held ci -> exists s3,
      virtio_disk_intr st ci (serve (avail_idx s) s1) = Ok tt (noted [EvWakeup (ChBuf b)] ci) s3 /\
      exists s4, r c s3 = Ok tt (noted [EvWakeup ChDesc; EvWakeup ChDesc; EvWakeup ChDesc] c) s4 /\
        image s4 = bio_disk bs' /\ data_at s4 b = bf_data (bf bs' b) /\
        (forall b', b' <> b -> data_at s4 b' = data_at s b') /\
        (forall i, free_at s4 i = free_at s i) /\ busy_at s4 b = false /\ used_idx s4 = used_dev s4.
Proof.
  intros Hdev Hw Hc Hfree Hq Hu Hno Him Hbn Hda.
  assert (Hl : LVdisk ∉ held c) by set_solver.
  destruct (frees s) as [|i0 [|i1 [|i2 rest]]] eqn:Ef; try (cbn in Hfree; lia). clear Hfree.
  destruct (alloc3_run s i0 i1 i2 rest c Ef) as (_ & HB & HN & F0 & F1 & F2).
  destruct (rw_submits b write i0 i1 i2 s rest c Hc Ef) as (r & Hr & Hrest).
  set (s1 := requested b write i0 i1 i2 s) in *.
  set (rq := Req (if write then VIRTIO_BLK_T_OUT else VIRTIO_BLK_T_IN) 0 (u32 (blockno_at s b * 2))).
  assert (Hs2 : serve (avail_idx s) s1 = served i0 rq b i0 s1).
  { assert (Ha : avail_ring s1 !! (avail_idx s mod NUM) = Some i0) by apply lookup_insert_eq.
    specialize (Hdev (avail_idx s) s1 rq b i0). cbv zeta in Hdev. rewrite Ha in Hdev. apply Hdev.
    - apply requested_chain; apply HN.
    - cbn. rewrite u32_id by lia. by rewrite Z.mod_mul. }
  exists s1, r. eexists. split; [done|]. split.
  { unfold Bio.virtio_disk_rw. mstep (acquire_ok LVdisk c bs Hl). erewrite bind_ok; [|reflexivity]. by apply release_ok. }
  intros ci st Hci. rewrite Hs2. clear Hs2 Hdev.
  set (s2 := served i0 rq b i0 s1).
  assert (Hb : info_b s2 !! i0 = Some b) by apply lookup_insert_eq.
  eexists. split.
  { pose proof (intr_one s2 ci i0) as H. rewrite Hb in H. apply H; clear H; try done.
    - cbn. by rewrite Hq.
    - cbn. rewrite Hq. apply lookup_insert_eq.
    - cbn. by rewrite lookup_insert_eq. }
  set (s3 := set_used_idx _ _). destruct wakes as [|fuel]; [lia|].
  assert (Hk : linked i0 i1 i2 s3) by (apply (linked_frame _ _ _ s1); [reflexivity..|]; by apply requested_linked).
  assert (Hbusy : busy_at s3 b = false) by (unfold busy_at; cbn; by rewrite lookup_insert_eq).
  eexists. split; [rewrite Hrest; by apply (rw_finishes b i0 i1 i2 s3 c fuel Hl Hbusy Hk)|].
  assert (Hsec : rq_sector rq / 2 = blockno_at s b).
  { cbn. rewrite u32_id by lia. by rewrite Z.div_mul. }
  assert (Hd1 : data_at s1 b = bf_data (bf bs b)) by done.
  split_and!; [| | |by apply unlinked_free|done|done].
  - change (image _) with (if rq_type rq =? VIRTIO_BLK_T_OUT then disk_write (image s) (rq_sector rq / 2, data_at s1 b) else image s) at 1.
    rewrite Hsec, Hd1, Him, Hbn. by destruct write.
  - unfold data_at. change (vb_data _) with
      (if rq_type rq =? VIRTIO_BLK_T_OUT then vb_data s else <[b := dblock (image s) (rq_sector rq / 2)]> (vb_data s)) at 1.
    rewrite Hsec, Him, Hbn. destruct write; cbn [rq_type rq Z.eqb VIRTIO_BLK_T_OUT VIRTIO_BLK_T_IN]; [exact Hda|].
    rewrite lookup_insert_eq. unfold bf, upd_bf. cbn [bufs]. by rewrite lookup_insert_eq.
  - intros b' Hb'. unfold data_at. change (vb_data _) with
      (if rq_type rq =? VIRTIO_BLK_T_OUT then vb_data s else <[b := dblock (image s) (rq_sector rq / 2)]> (vb_data s)) at 1.
    destruct write; [done|]. cbn [rq_type rq Z.eqb VIRTIO_BLK_T_OUT VIRTIO_BLK_T_IN]. by rewrite lookup_insert_ne.
Qed.

(** ** A device and a request *)
Module Demo.
Definition serve (n : Z) (s : vdisk) : vdisk :=
  let h := default 0 (avail_ring s !! (n mod NUM)) in
  match chain s h with
  | Some (rq, b, k) => served h rq b k s
  | None => s
  end.
Lemma serve_ok : device_ok serve.
Proof. intros n s rq b k h Hc _. unfold serve. fold h. by rewrite Hc. Qed.

#[local] Instance two_wakes : Wakes := {| wakes := 2 |}.
Definition vd0 : vdisk :=
  VDisk ∅ ∅ 0 ∅ 0 (list_to_map ((fun i => (i, true)) <$> seqZ 0 NUM)) 0 ∅ ∅ ∅ {[3 := 5]} ∅ ∅ ∅ [].
Definition bs0 : bcache := BCache {[3 := set_block 1 5 buf0]} ∅ [].
Definition c0 : ctx := Ctx ∅ [] 0 1.

Lemma virtio_transfers_witness : exists s1 r,
  virtio_disk_rw 3 true c0 vd0 = Blocked (WSleep (ChBuf 3) LVdisk) c0 s1 r /\ length (frees vd0) = 8%nat.
Proof.
  destruct (virtio_transfers serve 3 true c0 vd0 bs0 serve_ok) as (s1 & r & bs' & H & _);
    [cbn; lia|reflexivity|vm_compute; lia|reflexivity|cbn; lia|vm_compute; done|reflexivity|reflexivity|reflexivity|].
  exists s1, r. split; [done|reflexivity].
Defined.
End Demo.
