(* ===== verification/LogSteps.v ===== *)
(** * The steps of the log, on the abstract block state

    What one iteration of each loop of kernel/log.c does, for any
    implementation of the block interface. *)

From S2P Require Import Prelude Riscv Mem Block Log.

(** ** Abstract states *)

Lemma bstate_eq a a' : disk a = disk a' -> hist a = hist a' -> dirty a = dirty a' ->
  handles a = handles a' -> pins a = pins a' -> a = a'.
Proof. destruct a, a'; simpl; intros; by subst. Qed.

(** No buffer is open. *)
Definition quiet (a : bstate) : Prop := handles a = ∅.

Lemma quiet_not_open a b : quiet a -> ~ is_open a b.
Proof. intros Hq [h Hh]. rewrite Hq in Hh. by rewrite lookup_empty in Hh. Qed.

Lemma block_locks_same pid c c' : same_locks c c' -> block_locks pid c -> block_locks pid c'.
Proof. unfold same_locks, block_locks. by intros (-> & _ & ->). Qed.

Lemma same_locks_trans c1 c2 c3 : same_locks c1 c2 -> same_locks c2 c3 -> same_locks c1 c3.
Proof. unfold same_locks. intuition congruence. Qed.

Lemma same_locks_refl c : same_locks c c.
Proof. done. Qed.

Section steps.
Context {St : Type} {BO : BlockOps St} {dev pid : Z} {BL : BlockLaws St dev pid}.

Lemma blk_ok {A} (m : M St A) c k r c' s' :
  m c (blks k) = Ok r c' s' -> blk m c k = Ok r c' (set_blks s' k).
Proof. apply zoom_ok. Qed.

Lemma set_blks_twice (s s' : St) k : set_blks s (set_blks s' k) = set_blks s k.
Proof. done. Qed.

(** Open two blocks, overwrite the second with the first, write it, and
    close both: the body of [install_trans], and with the roles swapped that of
    [write_log]. The results are stated for the abstract state. *)

Section two.
Context (a : bstate) (src dst h1 h2 : Z).
Hypothesis Hq : quiet a.
Hypothesis Hne : src <> dst.
Hypothesis Hclean : dirty a !! src = None.
Hypothesis Hpin0 : npins a src = 0%nat.
Hypothesis Hh : h1 <> h2.

Let v := dblock (disk a) src.

Definition inst1 : bstate := a_open h2 dst (a_open h1 src a).
Definition inst2 : bstate := a_write dst (a_set dst v inst1).
Definition inst3 (unpin : bool) : bstate := if unpin then a_pin dst 0 inst2 else inst2.
Definition inst4 (unpin : bool) : bstate := a_close h2 dst (a_close h1 src (inst3 unpin)).

Lemma inst1_content : content inst1 src = v.
Proof using Hne Hclean.
  unfold inst1, content, a_open. cbn [dirty]. rewrite lookup_insert_ne, lookup_insert_eq by done. simpl.
  by apply content_clean.
Qed.

Lemma inst4_eq unpin :
  (unpin = true -> npins a dst = 1%nat) -> (unpin = false -> npins a dst = 0%nat) ->
  inst4 unpin = BState (<[dst := v]> (disk a)) (hist a ++ [(dst, v)]) (delete dst (dirty a)) ∅
    (if unpin then <[dst := 0%nat]> (pins a) else pins a).
Proof using Hq Hne Hclean Hpin0 Hh.
  intros Hp1 Hp0.
  assert (content (a_set dst v inst1) dst = v) as Hc.
  { apply content_dirty. apply lookup_insert_eq. }
  assert (npins (inst3 unpin) src = 0%nat) as Hs.
  { destruct unpin; [|done]. unfold npins, inst3, a_pin. cbn [pins]. by rewrite lookup_insert_ne by done. }
  assert (npins (a_close h1 src (inst3 unpin)) dst = 0%nat) as Hd.
  { destruct unpin; unfold npins; cbn -[lookup insert]; [by rewrite lookup_insert_eq|]. by apply Hp0. }
  unfold inst4. apply bstate_eq.
  - destruct unpin; cbn -[insert content]; by rewrite Hc.
  - destruct unpin; cbn -[insert content]; by rewrite Hc.
  - unfold a_close at 1. cbn [dirty]. rewrite decide_True by done.
    unfold a_close. cbn [dirty]. rewrite decide_True by done.
    assert (dirty (inst3 unpin) = <[dst := v]> (<[dst := content (a_open h1 src a) dst]> (<[src := content a src]> (dirty a)))) as ->
      by (by destruct unpin).
    apply map_eq. intros x. destruct (decide (x = dst)) as [->|?]; [by rewrite !lookup_delete_eq|].
    rewrite !(lookup_delete_ne _ dst) by done. destruct (decide (x = src)) as [->|?].
    + by rewrite lookup_delete_eq, Hclean.
    + by rewrite lookup_delete_ne, !lookup_insert_ne by done.
  - destruct unpin; cbn -[insert delete]; rewrite Hq; apply map_eq; intros x;
      (destruct (decide (x = h2)) as [->|?]; [by rewrite lookup_delete_eq, lookup_empty|]);
      rewrite lookup_delete_ne by done; (destruct (decide (x = h1)) as [->|?];
        [by rewrite lookup_delete_eq, lookup_empty|]);
      by rewrite lookup_delete_ne, !lookup_insert_ne, lookup_empty by done.
  - by destruct unpin.
Qed.

Lemma inst3_src unpin : content (inst3 unpin) src = dblock (disk (inst3 unpin)) src.
Proof using Hne Hclean.
  assert (disk (inst3 unpin) = <[dst := content (a_set dst v inst1) dst]> (disk a)) as -> by (by destruct unpin).
  rewrite dblock_insert, decide_False by done. apply content_dirty.
  assert (dirty (inst3 unpin) = <[dst := v]> (<[dst := content (a_open h1 src a) dst]> (<[src := content a src]> (dirty a)))) as ->
    by (by destruct unpin).
  rewrite !lookup_insert_ne, lookup_insert_eq by done. f_equal. by apply content_clean.
Qed.

Lemma inst3_dst unpin :
  content (a_close h1 src (inst3 unpin)) dst = dblock (disk (a_close h1 src (inst3 unpin))) dst.
Proof using Hne.
  assert (content (a_set dst v inst1) dst = v) as Hc by (apply content_dirty, lookup_insert_eq).
  assert (disk (a_close h1 src (inst3 unpin)) = <[dst := content (a_set dst v inst1) dst]> (disk a)) as -> by (by destruct unpin).
  rewrite dblock_insert, decide_True, Hc by done. apply content_dirty. unfold a_close. cbn [dirty].
  assert (dirty (inst3 unpin) !! dst = Some v) as Hd by (destruct unpin; apply lookup_insert_eq).
  case_decide; [by rewrite lookup_delete_ne|done].
Qed.
End two.

(** Opening a second block beside a first one. *)
Lemma open_two k a b1 b2 c : babs (blks k) a -> block_locks pid c -> quiet a -> b1 <> b2 ->
  0 <= b1 < 2 ^ 32 -> 0 <= b2 < 2 ^ 32 ->
  (size (dom (dirty a) ∪ {[b1]} ∪ {[b2]}) <= Z.to_nat NBUF)%nat ->
  exists h1 h2 c' s1 s2 c1, blk (bread dev b1) c k = Ok h1 c1 (set_blks s1 k) /\
    blk (bread dev b2) c1 (set_blks s1 k) = Ok h2 c' (set_blks s2 k) /\
    same_locks c c' /\ h1 <> h2 /\ babs s2 (a_open h2 b2 (a_open h1 b1 a)).
Proof.
  intros Ha Hc Hq Hne H1 H2 Hsz.
  destruct (bread_law (blks k) a b1 c Ha Hc H1 (quiet_not_open a b1 Hq)) as (h1 & c1 & s1 & Hr1 & Hs1 & Hn1 & Ha1).
  { etransitivity; [|exact Hsz]. apply subseteq_size. set_solver. }
  destruct (bread_law s1 (a_open h1 b1 a) b2 c1 Ha1 (block_locks_same _ _ _ Hs1 Hc) H2) as (h2 & c2 & s2 & Hr2 & Hs2 & Hn2 & Ha2).
  { intros [h Hh]. cbn [a_open handles] in Hh. rewrite Hq, lookup_insert in Hh.
    case_decide; [congruence|]. by rewrite lookup_empty in Hh. }
  { cbn [a_open dirty]. rewrite dom_insert_L. etransitivity; [|exact Hsz]. apply subseteq_size. set_solver. }
  exists h1, h2, c2, s1, s2, c1. split; [by apply blk_ok|]. split; [exact (blk_ok _ _ (set_blks s1 k) _ _ _ Hr2)|].
  split; [by eapply same_locks_trans|]. split; [|done].
  intros ->. cbn [a_open handles] in Hn2. by rewrite lookup_insert_eq in Hn2.
Qed.

Lemma a_open_two_handles a h1 b1 h2 b2 : h1 <> h2 ->
  handles (a_open h2 b2 (a_open h1 b1 a)) !! h1 = Some b1 /\
  handles (a_open h2 b2 (a_open h1 b1 a)) !! h2 = Some b2.
Proof.
  intros Hh. cbn [a_open handles]. rewrite lookup_insert_ne, !lookup_insert_eq by done. done.
Qed.

(** The middle of an iteration: the data of one open block replaces that of
    another, which is written out. *)
Lemma copy_write k a h1 b1 h2 b2 c : babs (blks k) a -> block_locks pid c ->
  handles a !! h1 = Some b1 -> handles a !! h2 = Some b2 ->
  exists c' s', (d ← buf_data h1; set_buf_data h2 d;; blk (bwrite h2)) c k = Ok tt c' (set_blks s' k) /\
    same_locks c c' /\ babs s' (a_write b2 (a_set b2 (content a b1) a)).
Proof.
  intros Ha Hc E1 E2. destruct (b_data_law (blks k) a h1 b1 Ha E1) as [Hd _].
  pose proof (b_setdata_law (blks k) a h2 b2 (content a b1) Ha E2 (babs_len _ _ _ Ha)) as Ha1.
  destruct (bwrite_law _ _ h2 b2 c Ha1 Hc E2) as (c' & s' & Hr & Hs & Ha').
  exists c', s'. split; [|done]. unfold buf_data.
  rewrite (bind_ok _ _ c k (content a b1) c k) by (unfold gets; by rewrite Hd).
  unfold set_buf_data. rewrite (bind_ok _ _ c k tt c (set_blks (b_setdata h2 (content a b1) (blks k)) k)) by done.
  exact (blk_ok _ _ (set_blks (b_setdata h2 (content a b1) (blks k)) k) _ _ _ Hr).
Qed.

Lemma close_ok k a h b c : babs (blks k) a -> block_locks pid c -> handles a !! h = Some b ->
  (0 < npins a b)%nat \/ content a b = dblock (disk a) b ->
  exists c' s', blk (brelse h) c k = Ok tt c' (set_blks s' k) /\ same_locks c c' /\ babs s' (a_close h b a).
Proof.
  intros Ha Hc Hh Hp. destruct (brelse_law _ _ h b c Ha Hc Hh Hp) as (c' & s' & Hr & Hs & Ha').
  exists c', s'. split; [by apply blk_ok|done].
Qed.

Lemma bind_ok3 {A} (x h2 : Z) (K : M (fsstate St) A) c k c' k' :
  (d ← buf_data x; set_buf_data h2 d;; blk (bwrite h2)) c k = Ok tt c' k' ->
  (d ← buf_data x; set_buf_data h2 d;; blk (bwrite h2);; K) c k = K c' k'.
Proof.
  exact (bind_bind_ok (set_buf_data h2 (b_data (blks k) x)) (fun _ => blk (bwrite h2)) (fun _ => K) c k tt c' k').
Qed.

(** ** One iteration of install_trans *)

Lemma install_one n k a tail (recovering : bool) c :
  let lg := lgs k in let src := u32 (start lg + tail + 1) in let dst := u32 (lh_blk lg tail) in
  let v := dblock (disk a) src in
  babs (blks k) a -> block_locks pid c -> quiet a -> ldev lg = dev -> src <> dst ->
  dirty a !! src = None -> npins a src = 0%nat ->
  npins a dst = (if recovering then 0 else 1)%nat ->
  (size (dom (dirty a) ∪ {[src]} ∪ {[dst]}) <= Z.to_nat NBUF)%nat ->
  exists c' s', same_locks c c' /\
    install_trans_loop (S n) tail recovering c k = install_trans_loop n (tail + 1) recovering c' (set_blks s' k) /\
    babs s' (BState (<[dst := v]> (disk a)) (hist a ++ [(dst, v)]) (delete dst (dirty a)) ∅
      (if recovering then pins a else <[dst := 0%nat]> (pins a))).
Proof.
  intros lg src dst v Ha Hc Hq Hdev Hne Hcl Hp0 Hpd Hsz.
  pose proof (u32_bound (start lg + tail + 1)) as Hb1. pose proof (u32_bound (lh_blk lg tail)) as Hb2.
  assert (exists c0, same_locks c c0 /\
    (if recovering then @kprintf (fsstate St) "recovering tail %d dst %d" else mret tt) c k = Ok tt c0 k) as (c0 & Hs0 & Hr0).
  { destruct recovering; [|by exists c]. eexists. split; [|reflexivity]. done. }
  destruct (open_two k a src dst c0 Ha (block_locks_same _ _ _ Hs0 Hc) Hq Hne Hb1 Hb2 Hsz)
    as (h1 & h2 & c2 & s1 & s2 & c1 & Hr1 & Hr2 & Hs2 & Hh & Ha2).
  pose proof (same_locks_trans _ _ _ Hs0 Hs2) as Hs02.
  destruct (a_open_two_handles a h1 src h2 dst Hh) as [Hh1 Hh2].
  destruct (copy_write (set_blks s2 k) _ h1 src h2 dst c2 Ha2 (block_locks_same _ _ _ Hs02 Hc) Hh1 Hh2)
    as (c3 & s3 & Hr3 & Hs3 & Ha3).
  pose proof (same_locks_trans _ _ _ Hs02 Hs3) as Hs03.
  pose proof (inst1_content a src dst h1 h2 Hne Hcl) as Hct. unfold inst1 in Hct. rewrite Hct in Ha3.
  change (babs s3 (inst2 a src dst h1 h2)) in Ha3.
  assert (exists c4 s4, (if recovering then mret tt else blk (bunpin h2)) c3 (set_blks s3 k) = Ok tt c4 (set_blks s4 k) /\
    same_locks c3 c4 /\ babs s4 (inst3 a src dst h1 h2 (negb recovering))) as (c4 & s4 & Hr4 & Hs4 & Ha4).
  { destruct recovering; [by exists c3, s3|].
    destruct (bunpin_law s3 (inst2 a src dst h1 h2) h2 dst c3 Ha3 (block_locks_same _ _ _ Hs03 Hc) Hh2) as (c4 & s4 & Hr & Hs & Ha4).
    { change (0 < npins a dst)%nat. lia. }
    exists c4, s4. split; [exact (blk_ok _ _ (set_blks s3 k) _ _ _ Hr)|]. split; [done|].
    change (npins (inst2 a src dst h1 h2) dst) with (npins a dst) in Ha4. by rewrite Hpd in Ha4. }
  pose proof (same_locks_trans _ _ _ Hs03 Hs4) as Hs04.
  assert (handles (inst3 a src dst h1 h2 (negb recovering)) = handles (inst1 a src dst h1 h2)) as Eh by (by destruct recovering).
  destruct (close_ok (set_blks s4 k) _ h1 src c4 Ha4 (block_locks_same _ _ _ Hs04 Hc)) as (c5 & s5 & Hr5 & Hs5 & Ha5).
  { by rewrite Eh. }
  { right. by apply inst3_src. }
  destruct (close_ok (set_blks s5 k) _ h2 dst c5 Ha5 (block_locks_same _ _ _ (same_locks_trans _ _ _ Hs04 Hs5) Hc))
    as (c6 & s6 & Hr6 & Hs6 & Ha6).
  { cbn [a_close handles]. rewrite Eh, lookup_delete_ne by done. done. }
  { right. by apply inst3_dst. }
  exists c6, s6. split; [eapply same_locks_trans; [exact Hs04|by eapply same_locks_trans]|]. split.
  - cbn [install_trans_loop]. rewrite (bind_ok _ _ c k lg c k) by done. rewrite (bind_ok _ _ _ _ _ _ _ Hr0).
    rewrite Hdev. fold src dst. rewrite (bind_ok _ _ _ _ _ _ _ Hr1), (bind_ok _ _ _ _ _ _ _ Hr2).
    rewrite (bind_ok3 _ _ _ _ _ _ _ Hr3). by rewrite (bind_ok _ _ _ _ _ _ _ Hr4), (bind_ok _ _ _ _ _ _ _ Hr5), (bind_ok _ _ _ _ _ _ _ Hr6).
  - change (babs s6 (inst4 a src dst h1 h2 (negb recovering))) in Ha6.
    rewrite inst4_eq in Ha6; [by destruct recovering|done..| |]; intros E; destruct recovering; done.
Qed.

(** ** One iteration of write_log *)

Section append.
Context (a : bstate) (lb b h1 h2 : Z) (v : block).
Hypothesis Hq : quiet a.
Hypothesis Hne : lb <> b.
Hypothesis Hclean : dirty a !! lb = None.
Hypothesis Hpin0 : npins a lb = 0%nat.
Hypothesis Hdirty : dirty a !! b = Some v.
Hypothesis Hpinned : (0 < npins a b)%nat.
Hypothesis Hh : h1 <> h2.

Definition app1 : bstate := a_open h2 b (a_open h1 lb a).
Definition app2 : bstate := a_write lb (a_set lb v app1).
Definition app3 : bstate := a_close h2 b app2.

Lemma app1_content : content app1 b = v.
Proof using Hne Hdirty.
  apply content_dirty. unfold app1, a_open. cbn [dirty]. rewrite lookup_insert_eq. f_equal.
  apply content_dirty. cbn [dirty]. by rewrite lookup_insert_ne.
Qed.

Lemma app3_dirty : dirty app3 = <[lb := v]> (dirty a).
Proof using Hne Hpin0 Hdirty Hpinned.
  unfold app3, a_close. cbn [dirty]. rewrite decide_False by (change (npins a b <> 0%nat); lia).
  apply map_eq. intros x. cbn [app2 a_write a_set app1 a_open dirty].
  destruct (decide (x = lb)) as [->|?]; [by rewrite !lookup_insert_eq|].
  rewrite !(lookup_insert_ne _ lb) by done. destruct (decide (x = b)) as [->|?].
  - rewrite lookup_insert_eq, Hdirty. f_equal. apply content_dirty. cbn [a_open dirty]. by rewrite lookup_insert_ne.
  - by rewrite !lookup_insert_ne by done.
Qed.

Lemma app3_lb : content app3 lb = dblock (disk app3) lb.
Proof using Hne Hpin0 Hdirty Hpinned.
  rewrite (content_dirty _ _ v) by (rewrite app3_dirty; apply lookup_insert_eq).
  cbn [app3 a_close app2 a_write disk]. rewrite dblock_insert, decide_True by done.
  symmetry. apply content_dirty, lookup_insert_eq.
Qed.

Lemma app4_eq : a_close h1 lb app3 =
  BState (<[lb := v]> (disk a)) (hist a ++ [(lb, v)]) (dirty a) ∅ (pins a).
Proof using Hq Hne Hclean Hpin0 Hdirty Hpinned Hh.
  assert (content (a_set lb v app1) lb = v) as Hc by (apply content_dirty, lookup_insert_eq).
  apply bstate_eq; cbn [a_close disk hist dirty handles pins].
  - cbn [app3 a_close app2 a_write disk]. by rewrite Hc.
  - cbn [app3 a_close app2 a_write hist]. by rewrite Hc.
  - rewrite decide_True by done. by rewrite app3_dirty, delete_insert_id.
  - cbn [app3 a_close app2 a_write a_set app1 a_open handles]. rewrite Hq. apply map_eq. intros x.
    destruct (decide (x = h1)) as [->|?]; [by rewrite lookup_delete_eq, lookup_empty|].
    rewrite lookup_delete_ne by done. destruct (decide (x = h2)) as [->|?]; [by rewrite lookup_delete_eq, lookup_empty|].
    by rewrite lookup_delete_ne, !lookup_insert_ne, lookup_empty by done.
  - done.
Qed.
End append.

Lemma append_one n k a tail v c :
  let lg := lgs k in let lb := u32 (start lg + tail + 1) in let b := u32 (lh_blk lg tail) in
  babs (blks k) a -> block_locks pid c -> quiet a -> ldev lg = dev -> lb <> b ->
  dirty a !! lb = None -> npins a lb = 0%nat -> dirty a !! b = Some v -> (0 < npins a b)%nat ->
  (size (dom (dirty a) ∪ {[lb]} ∪ {[b]}) <= Z.to_nat NBUF)%nat ->
  exists c' s', same_locks c c' /\
    write_log_loop (S n) tail c k = write_log_loop n (tail + 1) c' (set_blks s' k) /\
    babs s' (BState (<[lb := v]> (disk a)) (hist a ++ [(lb, v)]) (dirty a) ∅ (pins a)).
Proof.
  intros lg lb b Ha Hc Hq Hdev Hne Hcl Hp0 Hd Hp Hsz.
  pose proof (u32_bound (start lg + tail + 1)) as Hb1. pose proof (u32_bound (lh_blk lg tail)) as Hb2.
  destruct (open_two k a lb b c Ha Hc Hq Hne Hb1 Hb2 Hsz)
    as (h1 & h2 & c2 & s1 & s2 & c1 & Hr1 & Hr2 & Hs2 & Hh & Ha2).
  destruct (a_open_two_handles a h1 lb h2 b Hh) as [Hh1 Hh2].
  destruct (copy_write (set_blks s2 k) _ h2 b h1 lb c2 Ha2 (block_locks_same _ _ _ Hs2 Hc) Hh2 Hh1)
    as (c3 & s3 & Hr3 & Hs3 & Ha3). pose proof (same_locks_trans _ _ _ Hs2 Hs3) as Hs03.
  pose proof (app1_content a lb b h1 h2 v Hne Hd) as Hct. unfold app1 in Hct. rewrite Hct in Ha3.
  change (babs s3 (app2 a lb b h1 h2 v)) in Ha3.
  destruct (close_ok (set_blks s3 k) _ h2 b c3 Ha3 (block_locks_same _ _ _ Hs03 Hc) Hh2) as (c4 & s4 & Hr4 & Hs4 & Ha4).
  { left. change (0 < npins a b)%nat. lia. }
  pose proof (same_locks_trans _ _ _ Hs03 Hs4) as Hs04. change (babs s4 (app3 a lb b h1 h2 v)) in Ha4.
  destruct (close_ok (set_blks s4 k) _ h1 lb c4 Ha4 (block_locks_same _ _ _ Hs04 Hc)) as (c5 & s5 & Hr5 & Hs5 & Ha5).
  { cbn [app3 a_close handles]. by rewrite lookup_delete_ne. }
  { right. by apply app3_lb. }
  exists c5, s5. split; [by eapply same_locks_trans|]. split.
  - cbn [write_log_loop]. rewrite (bind_ok _ _ c k lg c k) by done. rewrite Hdev. fold lb b.
    rewrite (bind_ok _ _ _ _ _ _ _ Hr1), (bind_ok _ _ _ _ _ _ _ Hr2), (bind_ok3 _ _ _ _ _ _ _ Hr3).
    by rewrite (bind_ok _ _ _ _ _ _ _ Hr4), (bind_ok _ _ _ _ _ _ _ Hr5).
  - by rewrite app4_eq in Ha5.
Qed.

(** ** The header *)

Lemma open_one k a b c : babs (blks k) a -> block_locks pid c -> quiet a -> 0 <= b < 2 ^ 32 ->
  (size (dom (dirty a) ∪ {[b]}) <= Z.to_nat NBUF)%nat ->
  exists h c' s', blk (bread dev b) c k = Ok h c' (set_blks s' k) /\ same_locks c c' /\
    babs s' (a_open h b a) /\ handles (a_open h b a) !! h = Some b.
Proof.
  intros Ha Hc Hq Hb Hsz.
  destruct (bread_law (blks k) a b c Ha Hc Hb (quiet_not_open a b Hq) Hsz) as (h & c' & s' & Hr & Hs & _ & Ha').
  exists h, c', s'. split; [by apply blk_ok|]. split; [done|]. split; [done|]. apply lookup_insert_eq.
Qed.

(** Opening and closing a clean block changes nothing. *)
Lemma open_close_eq a h b : quiet a -> dirty a !! b = None -> npins a b = 0%nat ->
  a_close h b (a_open h b a) = a.
Proof.
  intros Hq Hd Hp. apply bstate_eq; cbn [a_close a_open disk hist dirty handles pins]; try done.
  - rewrite decide_True by done. by apply delete_insert_id.
  - by rewrite Hq, delete_insert_id.
Qed.

Lemma length_write_blocks n : forall i lg d, length (write_blocks n i lg d) = length d.
Proof. induction n as [|n IH]; intros i lg d; [done|]. cbn [write_blocks]. by rewrite IH, length_wr32. Qed.

Lemma length_head_block lg d : length (head_block lg d) = length d.
Proof. unfold head_block. by rewrite length_write_blocks, length_wr32. Qed.

Lemma write_head_run k a c :
  let lg := lgs k in let st := u32 (start lg) in let hb := head_block lg (dblock (disk a) st) in
  babs (blks k) a -> block_locks pid c -> quiet a -> ldev lg = dev ->
  dirty a !! st = None -> npins a st = 0%nat -> (size (dom (dirty a) ∪ {[st]}) <= Z.to_nat NBUF)%nat ->
  exists c' s', same_locks c c' /\ write_head c k = Ok tt c' (set_blks s' k) /\
    babs s' (BState (<[st := hb]> (disk a)) (hist a ++ [(st, hb)]) (dirty a) ∅ (pins a)).
Proof.
  intros lg st hb Ha Hc Hq Hdev Hd Hp Hsz.
  destruct (open_one k a st c Ha Hc Hq (u32_bound _) Hsz) as (h & c1 & s1 & Hr1 & Hs1 & Ha1 & Hh).
  destruct (b_data_law s1 _ h st Ha1 Hh) as [Hdat _].
  assert (content (a_open h st a) st = dblock (disk a) st) as Hct.
  { rewrite (content_dirty _ _ (content a st)) by apply lookup_insert_eq. by apply content_clean. }
  assert (length hb = Z.to_nat BSIZE) as Hlen.
  { unfold hb. rewrite length_head_block, <- Hct. by eapply babs_len. }
  pose proof (b_setdata_law s1 _ h st hb Ha1 Hh Hlen) as Ha2.
  destruct (bwrite_law _ _ h st c1 Ha2 (block_locks_same _ _ _ Hs1 Hc) Hh) as (c3 & s3 & Hr3 & Hs3 & Ha3).
  pose proof (same_locks_trans _ _ _ Hs1 Hs3) as Hs03.
  assert (content (a_set st hb (a_open h st a)) st = hb) as Hcw by (apply content_dirty, lookup_insert_eq).
  destruct (close_ok (set_blks s3 k) _ h st c3 Ha3 (block_locks_same _ _ _ Hs03 Hc) Hh) as (c4 & s4 & Hr4 & Hs4 & Ha4).
  { right. cbn [a_write disk]. rewrite dblock_insert, decide_True, Hcw by done. apply content_dirty, lookup_insert_eq. }
  exists c4, s4. split; [by eapply same_locks_trans|]. split.
  - unfold write_head. rewrite (bind_ok _ _ c k lg c k) by done. rewrite Hdev. fold st.
    rewrite (bind_ok _ _ _ _ _ _ _ Hr1). unfold buf_data.
    rewrite (bind_ok _ _ c1 (set_blks s1 k) (dblock (disk a) st) c1 (set_blks s1 k)) by
      (unfold gets; cbn [blks set_blks]; by rewrite Hdat, Hct).
    fold hb. rewrite (bind_ok _ _ c1 _ tt c1 (set_blks (b_setdata h hb s1) k)) by done.
    rewrite (bind_ok _ _ _ _ _ _ _ (blk_ok _ _ (set_blks (b_setdata h hb s1) k) _ _ _ Hr3)). exact Hr4.
  - assert (a_close h st (a_write st (a_set st hb (a_open h st a))) =
      BState (<[st := hb]> (disk a)) (hist a ++ [(st, hb)]) (dirty a) ∅ (pins a)) as <-; [|done].
    apply bstate_eq; cbn [a_close a_write disk hist dirty handles pins]; rewrite ?Hcw; try done.
    + rewrite decide_True by done. cbn [a_set a_open dirty]. by rewrite insert_insert_eq, delete_insert_id.
    + cbn [a_set a_open handles]. by rewrite Hq, delete_insert_id.
Qed.

(** The in-memory header after [read_head]. *)
Fixpoint load_blocks (n : nat) (i : Z) (d : block) (lg : logst) : logst :=
  match n with
  | O => lg
  | Datatypes.S n => load_blocks n (i + 1) d (set_lh_block i (head_blk d i) lg)
  end.
Definition load_head (d : block) (lg : logst) : logst :=
  load_blocks (Z.to_nat (head_n d)) 0 d (set_lh_n (head_n d) lg).

Lemma read_head_loop_run n : forall i d c (k : fsstate St),
  read_head_loop n i d c k = Ok tt c (FsState (load_blocks n i d (lgs k)) (blks k)).
Proof. induction n as [|n IH]; intros i d c k; [by destruct k|]. exact (IH (i + 1) d c _). Qed.

Lemma load_blocks_fields n : forall i d lg, 0 <= i ->
  let lg' := load_blocks n i d lg in
  start lg' = start lg /\ ldev lg' = ldev lg /\ lh_n lg' = lh_n lg /\ outstanding lg' = outstanding lg /\
  committing lg' = committing lg /\
  forall j, lh_blk lg' j = if decide (i <= j < i + Z.of_nat n) then head_blk d j else lh_blk lg j.
Proof.
  induction n as [|n IH]; intros i d lg Hi; cbn [load_blocks].
  { split_and!; try done. intros j. by rewrite decide_False by lia. }
  destruct (IH (i + 1) d (set_lh_block i (head_blk d i) lg) ltac:(lia)) as (H1 & H2 & H3 & H4 & H5 & H6).
  split_and!; try done. intros j. rewrite H6. destruct (decide (j = i)) as [->|Hne].
  - rewrite decide_False, decide_True by lia. unfold lh_blk. cbn [set_lh_block lh_block]. by rewrite lookup_insert_eq.
  - destruct (decide (i <= j < i + Z.of_nat (Datatypes.S n))).
    + by rewrite decide_True by lia.
    + rewrite decide_False by lia. unfold lh_blk. cbn [set_lh_block lh_block]. by rewrite lookup_insert_ne.
Qed.

Lemma read_head_run k a c :
  let lg := lgs k in let st := u32 (start lg) in
  babs (blks k) a -> block_locks pid c -> quiet a -> ldev lg = dev ->
  dirty a !! st = None -> npins a st = 0%nat -> (size (dom (dirty a) ∪ {[st]}) <= Z.to_nat NBUF)%nat ->
  exists c' s', same_locks c c' /\
    read_head c k = Ok tt c' (FsState (load_head (dblock (disk a) st) lg) s') /\ babs s' a.
Proof.
  intros lg st Ha Hc Hq Hdev Hd Hp Hsz.
  destruct (open_one k a st c Ha Hc Hq (u32_bound _) Hsz) as (h & c1 & s1 & Hr1 & Hs1 & Ha1 & Hh).
  destruct (b_data_law s1 _ h st Ha1 Hh) as [Hdat _].
  assert (content (a_open h st a) st = dblock (disk a) st) as Hct.
  { rewrite (content_dirty _ _ (content a st)) by apply lookup_insert_eq. by apply content_clean. }
  set (d := dblock (disk a) st) in *.
  destruct (close_ok (FsState (load_head d lg) s1) _ h st c1 Ha1 (block_locks_same _ _ _ Hs1 Hc) Hh) as (c4 & s4 & Hr4 & Hs4 & Ha4).
  { by right. }
  exists c4, s4. split; [by eapply same_locks_trans|]. split; [|by rewrite open_close_eq in Ha4].
  unfold read_head. rewrite (bind_ok _ _ c k lg c k) by done. rewrite Hdev. fold st.
  rewrite (bind_ok _ _ _ _ _ _ _ Hr1). unfold buf_data.
  rewrite (bind_ok _ _ c1 (set_blks s1 k) d c1 (set_blks s1 k)) by
    (unfold gets; cbn [blks set_blks]; by rewrite Hdat, Hct).
  rewrite (bind_ok _ _ c1 _ tt c1 (FsState (set_lh_n (head_n d) lg) s1)) by done.
  rewrite (bind_ok _ _ _ _ _ _ _ (read_head_loop_run _ _ _ _ _)). exact Hr4.
Qed.
End steps.
