(* ===== verification/LogSafe.v ===== *)
(** * Transactions are installed atomically

    The loops of kernel/log.c over a whole transaction, the writes that a
    [commit] issues to the disk, and what [recover_from_log] makes of a disk
    on which only some of them happened. *)

From S2P Require Import Prelude Riscv Mem Block Log LogSteps.

(** ** Well-formed logs *)

(** The block number of the [i]-th log slot and of the [i]-th logged block. *)
Definition lbn (lg : logst) (i : Z) : Z := u32 (start lg + i + 1).
Definition bno (lg : logst) (i : Z) : Z := u32 (lh_blk lg i).

(** The log area on disk. *)
Definition in_log (lg : logst) (b : Z) : Prop := start lg <= b <= start lg + LOGBLOCKS.

Record log_wf (lg : logst) : Prop := {
  wf_start : 0 < start lg /\ start lg + LOGBLOCKS < 2 ^ 31;
  wf_n : 0 <= lh_n lg <= LOGBLOCKS;
  wf_blk : forall i, 0 <= i < lh_n lg -> 0 <= lh_blk lg i < 2 ^ 31 /\ ~ in_log lg (lh_blk lg i);
  wf_inj : forall i j, 0 <= i < lh_n lg -> 0 <= j < lh_n lg -> lh_blk lg i = lh_blk lg j -> i = j;
}.

Lemma lbn_eq lg i : log_wf lg -> 0 <= i < LOGBLOCKS -> lbn lg i = start lg + i + 1.
Proof. intros Hw Hi. destruct (wf_start _ Hw). unfold lbn. apply u32_id. lia. Qed.

Lemma bno_eq lg i : log_wf lg -> 0 <= i < lh_n lg -> bno lg i = lh_blk lg i.
Proof. intros Hw Hi. destruct (wf_blk _ Hw i Hi). unfold bno. apply u32_id. lia. Qed.

Lemma bno_inj lg i j : log_wf lg -> 0 <= i < lh_n lg -> 0 <= j < lh_n lg -> bno lg i = bno lg j -> i = j.
Proof. intros Hw Hi Hj. rewrite !bno_eq by done. by apply wf_inj. Qed.

Lemma lbn_in lg i : log_wf lg -> 0 <= i < LOGBLOCKS -> in_log lg (lbn lg i).
Proof. intros Hw Hi. rewrite lbn_eq by done. unfold in_log. lia. Qed.

Lemma bno_out lg i : log_wf lg -> 0 <= i < lh_n lg -> ~ in_log lg (bno lg i).
Proof. intros Hw Hi. rewrite bno_eq by done. by apply wf_blk. Qed.

Lemma lbn_bno lg i j : log_wf lg -> 0 <= i < LOGBLOCKS -> 0 <= j < lh_n lg -> lbn lg i <> bno lg j.
Proof. intros Hw Hi Hj E. apply (bno_out lg j Hw Hj). rewrite <- E. by apply lbn_in. Qed.

(** ** The writes of the two loops *)

Fixpoint log_ws (m : nat) (i : Z) (lg : logst) (f : Z -> block) : list (Z * block) :=
  match m with
  | O => []
  | S m => (lbn lg i, f i) :: log_ws m (i + 1) lg f
  end.
Fixpoint home_ws (m : nat) (i : Z) (lg : logst) (f : Z -> block) : list (Z * block) :=
  match m with
  | O => []
  | S m => (bno lg i, f i) :: home_ws m (i + 1) lg f
  end.

Lemma disk_writes_cons d w ws : disk_writes d (w :: ws) = disk_writes (disk_write d w) ws.
Proof. done. Qed.

Lemma disk_writes_app d ws ws' : disk_writes d (ws ++ ws') = disk_writes (disk_writes d ws) ws'.
Proof. apply foldl_app. Qed.

Lemma disk_writes_other d ws b : (forall w, w ∈ ws -> w.1 <> b) -> dblock (disk_writes d ws) b = dblock d b.
Proof.
  revert d. induction ws as [|w ws IH]; intros d Hw; [done|]. rewrite disk_writes_cons, IH.
  - unfold disk_write. rewrite dblock_insert, decide_False; [done|]. apply Hw. list_mem.
  - intros w' Hw'. apply Hw. list_mem.
Qed.

Lemma log_ws_in m : forall i lg f w, w ∈ log_ws m i lg f ->
  exists j, i <= j < i + Z.of_nat m /\ w = (lbn lg j, f j).
Proof.
  induction m as [|m IH]; intros i lg f w; cbn [log_ws]; [by intros ?%elem_of_nil|].
  intros [->|Hin]%elem_of_cons; [exists i; split; [lia|done]|].
  destruct (IH _ _ _ _ Hin) as (j & Hj & ->). exists j. split; [lia|done].
Qed.

Lemma home_ws_in m : forall i lg f w, w ∈ home_ws m i lg f ->
  exists j, i <= j < i + Z.of_nat m /\ w = (bno lg j, f j).
Proof.
  induction m as [|m IH]; intros i lg f w; cbn [home_ws]; [by intros ?%elem_of_nil|].
  intros [->|Hin]%elem_of_cons; [exists i; split; [lia|done]|].
  destruct (IH _ _ _ _ Hin) as (j & Hj & ->). exists j. split; [lia|done].
Qed.

(** What the writes leave on the disk. *)
Lemma log_ws_read lg f m : log_wf lg -> forall i d j, 0 <= i -> i + Z.of_nat m <= LOGBLOCKS ->
  i <= j < i + Z.of_nat m -> dblock (disk_writes d (log_ws m i lg f)) (lbn lg j) = f j.
Proof.
  intros Hw. induction m as [|m IH]; intros i d j Hi Hm Hj; [lia|]. cbn [log_ws]. rewrite disk_writes_cons.
  destruct (decide (j = i)) as [->|Hne]; [|apply IH; lia].
  rewrite disk_writes_other.
  - unfold disk_write. by rewrite dblock_insert, decide_True.
  - intros w (l & Hl & ->)%log_ws_in. cbn [fst]. rewrite !lbn_eq by (done || lia). lia.
Qed.

Lemma home_ws_read lg f m : log_wf lg -> forall i d j, 0 <= i -> i + Z.of_nat m <= lh_n lg ->
  i <= j < i + Z.of_nat m -> dblock (disk_writes d (home_ws m i lg f)) (bno lg j) = f j.
Proof.
  intros Hw. induction m as [|m IH]; intros i d j Hi Hm Hj; [lia|]. cbn [home_ws]. rewrite disk_writes_cons.
  destruct (decide (j = i)) as [->|Hne]; [|apply IH; lia].
  rewrite disk_writes_other.
  - unfold disk_write. by rewrite dblock_insert, decide_True.
  - intros w (l & Hl & ->)%home_ws_in. cbn [fst]. intros E. apply bno_inj in E; (done || lia).
Qed.

Section runs.
Context {St : Type} {BO : BlockOps St} {dev pid : Z} {BL : BlockLaws St dev pid}.

(** ** write_log *)

Lemma write_log_loop_run m : forall i k a f c,
  let lg := lgs k in
  log_wf lg -> ldev lg = dev -> 0 <= i -> i + Z.of_nat m <= lh_n lg ->
  babs (blks k) a -> block_locks pid c -> quiet a ->
  (forall j, 0 <= j < lh_n lg -> dirty a !! bno lg j = Some (f j) /\ (0 < npins a (bno lg j))%nat) ->
  (forall b, in_log lg b -> dirty a !! b = None /\ npins a b = 0%nat) ->
  (size (dirty a) < Z.to_nat NBUF)%nat ->
  exists c' s', same_locks c c' /\ write_log_loop m i c k = Ok tt c' (set_blks s' k) /\
    babs s' (BState (disk_writes (disk a) (log_ws m i lg f)) (hist a ++ log_ws m i lg f) (dirty a) ∅ (pins a)).
Proof.
  induction m as [|m IH]; intros i k a f c lg Hw Hdev Hi Hm Ha Hc Hq Hd Hl Hsz.
  { exists c, (blks k). split; [done|]. split; [by destruct k|]. cbn [log_ws]. rewrite app_nil_r.
    destruct a. unfold quiet in Hq. simpl in *. by subst. }
  pose proof (wf_n _ Hw). destruct (Hd i ltac:(lia)) as [Hdi Hpi].
  destruct (Hl (lbn lg i) (lbn_in lg i Hw ltac:(lia))) as [Hcl Hp0].
  destruct (append_one m k a i (f i) c Ha Hc Hq Hdev) as (c1 & s1 & Hs1 & Hr1 & Ha1); try done.
  { apply (lbn_bno lg); [done|lia..]. }
  { rewrite <- size_dom in Hsz. fold lg (lbn lg i) (bno lg i).
    assert (dom (dirty a) ∪ {[lbn lg i]} ∪ {[bno lg i]} ⊆ dom (dirty a) ∪ {[lbn lg i]}) as Hsub.
    { apply elem_of_dom_2 in Hdi. set_solver. }
    apply subseteq_size in Hsub. pose proof (size_union_alt (dom (dirty a)) {[lbn lg i]}) as Hu.
    assert (size ({[lbn lg i]} ∖ dom (dirty a)) <= 1)%nat.
    { rewrite <- (size_singleton (C := gset Z) (lbn lg i)). apply subseteq_size. set_solver. }
    lia. }
  assert (i + 1 + Z.of_nat m <= lh_n lg) as Hm' by lia.
  destruct (IH (i + 1) (set_blks s1 k) _ f c1 Hw Hdev ltac:(lia) Hm' Ha1 (block_locks_same _ _ _ Hs1 Hc) eq_refl Hd Hl Hsz)
    as (c2 & s2 & Hs2 & Hr2 & Ha2).
  exists c2, s2. split; [by eapply same_locks_trans|]. split; [by rewrite Hr1|].
  cbn [log_ws disk hist dirty pins] in *. rewrite <- app_assoc in Ha2. exact Ha2.
Qed.

(** ** install_trans *)

Fixpoint dels (m : nat) (i : Z) (lg : logst) (dm : gmap Z block) : gmap Z block :=
  match m with
  | O => dm
  | Datatypes.S m => dels m (i + 1) lg (delete (bno lg i) dm)
  end.
Fixpoint unpins (m : nat) (i : Z) (lg : logst) (pm : gmap Z nat) : gmap Z nat :=
  match m with
  | O => pm
  | Datatypes.S m => unpins m (i + 1) lg (<[bno lg i := 0%nat]> pm)
  end.

Lemma install_loop_run m (recovering : bool) : forall i k a g c,
  let lg := lgs k in
  log_wf lg -> ldev lg = dev -> 0 <= i -> i + Z.of_nat m <= lh_n lg ->
  babs (blks k) a -> block_locks pid c -> quiet a ->
  (forall j, i <= j < lh_n lg -> npins a (bno lg j) = (if recovering then 0 else 1)%nat) ->
  (forall j, i <= j < lh_n lg -> dblock (disk a) (lbn lg j) = g j) ->
  (forall b, in_log lg b -> dirty a !! b = None /\ npins a b = 0%nat) ->
  (recovering = false -> forall j, i <= j < lh_n lg -> is_Some (dirty a !! bno lg j)) ->
  (size (dirty a) + (if recovering then 2 else 1) <= Z.to_nat NBUF)%nat ->
  exists c' s', same_locks c c' /\ install_trans_loop m i recovering c k = Ok tt c' (set_blks s' k) /\
    babs s' (BState (disk_writes (disk a) (home_ws m i lg g)) (hist a ++ home_ws m i lg g)
      (dels m i lg (dirty a)) ∅ (if recovering then pins a else unpins m i lg (pins a))).
Proof.
  induction m as [|m IH]; intros i k a g c lg Hw Hdev Hi Hm Ha Hc Hq Hp Hg Hl Hdp Hsz.
  { exists c, (blks k). split; [done|]. split; [by destruct k|]. cbn [home_ws dels unpins]. rewrite app_nil_r.
    destruct a. unfold quiet in Hq. simpl in *. subst. by destruct recovering. }
  pose proof (wf_n _ Hw). destruct (Hl (lbn lg i) (lbn_in lg i Hw ltac:(lia))) as [Hcl Hp0].
  destruct (install_one m k a i recovering c Ha Hc Hq Hdev) as (c1 & s1 & Hs1 & Hr1 & Ha1); try done.
  { apply (lbn_bno lg); [done|lia..]. }
  { apply Hp. lia. }
  { rewrite <- size_dom in Hsz. fold lg (lbn lg i) (bno lg i).
    pose proof (size_union_alt (dom (dirty a)) {[lbn lg i]}) as Hu1.
    pose proof (size_union_alt (dom (dirty a) ∪ {[lbn lg i]}) {[bno lg i]}) as Hu2.
    assert (forall x (X : gset Z), size ({[x]} ∖ X) <= 1)%nat as Hone.
    { intros x X. rewrite <- (size_singleton (C := gset Z) x). apply subseteq_size. set_solver. }
    pose proof (Hone (lbn lg i) (dom (dirty a))). pose proof (Hone (bno lg i) (dom (dirty a) ∪ {[lbn lg i]})).
    destruct recovering; [lia|]. destruct (Hdp eq_refl i ltac:(lia)) as [x Hx]. apply elem_of_dom_2 in Hx.
    assert ({[bno lg i]} ∖ (dom (dirty a) ∪ {[lbn lg i]}) = ∅) as E by set_solver.
    rewrite E, size_empty in Hu2. lia. }
  fold lg (lbn lg i) (bno lg i) in Ha1. rewrite (Hg i ltac:(lia)) in Ha1.
  assert (i + 1 + Z.of_nat m <= lh_n lg) as Hm' by lia.
  destruct (IH (i + 1) (set_blks s1 k) _ g c1 Hw Hdev ltac:(lia) Hm' Ha1 (block_locks_same _ _ _ Hs1 Hc) eq_refl)
    as (c2 & s2 & Hs2 & Hr2 & Ha2).
  - intros j Hj. cbn [lgs set_blks] in Hj. fold lg in Hj. destruct recovering; [apply (Hp j); lia|].
    unfold npins. cbn [pins lgs set_blks]. fold lg. rewrite lookup_insert_ne; [apply (Hp j); lia|].
    intros E. apply bno_inj in E; (done || lia).
  - intros j Hj. cbn [lgs set_blks disk] in *. fold lg in Hj. fold lg. rewrite dblock_insert, decide_False; [apply Hg; lia|].
    intros E. by apply (lbn_bno lg j i Hw); [lia..|].
  - intros b Hb. cbn [lgs set_blks dirty] in *. fold lg in Hb. destruct (Hl b Hb) as [H1 H2]. split.
    + destruct (decide (b = bno lg i)) as [->|?]; [apply lookup_delete_eq|]. by rewrite lookup_delete_ne.
    + destruct recovering; [done|]. unfold npins. cbn [pins]. rewrite lookup_insert. by case_decide.
  - intros E j Hj. cbn [lgs set_blks dirty] in *. fold lg in Hj. fold lg. rewrite lookup_delete_ne; [apply Hdp; [done|lia]|].
    intros E'. apply bno_inj in E'; (done || lia).
  - cbn [dirty]. pose proof (map_subseteq_size _ _ (delete_subseteq (dirty a) (bno lg i))). lia.
  - exists c2, s2. split; [by eapply same_locks_trans|]. split; [by rewrite Hr1|].
    cbn [home_ws dels unpins disk hist dirty pins lgs set_blks] in *. fold lg in Ha2. rewrite <- app_assoc in Ha2.
    by destruct recovering.
Qed.
End runs.
