(* ===== verification/LogCrash.v ===== *)
(** * The log makes a transaction atomic

    The contents that a disk stands for are those that recovery would leave on
    it: a block named by the header of the log has the contents of its log
    slot. One write of [commit] changes them, the header that commits, from
    those before the transaction to those after it; no write of recovery
    changes them at all. *)

From S2P Require Import Prelude Riscv Mem Block Log LogSteps LogSafe.

(** ** The header on disk *)

Lemma i32_u32 x : - 2 ^ 31 <= x < 2 ^ 31 -> i32 (u32 x) = x.
Proof. intros H. unfold i32, u32. Z.div_mod_to_equations. lia. Qed.

Lemma write_blocks_n m : forall i lg d, 0 <= i -> rd32 (write_blocks m i lg d) 0 = rd32 d 0.
Proof.
  induction m as [|m IH]; intros i lg d Hi; [done|]. cbn [write_blocks].
  rewrite IH, rd32_wr32_ne by lia. done.
Qed.

Lemma write_blocks_blk m : forall i lg d j, 0 <= i -> 0 <= j -> i + Z.of_nat m <= LOGBLOCKS ->
  length d = Z.to_nat BSIZE ->
  rd32 (write_blocks m i lg d) (4 + 4 * Z.to_nat j) =
  if decide (i <= j < i + Z.of_nat m) then u32 (lh_blk lg j) else rd32 d (4 + 4 * Z.to_nat j).
Proof.
  induction m as [|m IH]; intros i lg d j Hi Hj Hm Hd; cbn [write_blocks].
  { by rewrite decide_False by lia. }
  rewrite IH by (rewrite ?length_wr32; done || lia). destruct (decide (j = i)) as [->|Hne].
  - rewrite decide_False, decide_True by lia. apply rd32_wr32_eq; [|apply u32_bound].
    rewrite Hd. unfold LOGBLOCKS, MAXOPBLOCKS, BSIZE in *. lia.
  - rewrite rd32_wr32_ne by lia. repeat case_decide; try done; lia.
Qed.

(** The header in block [h] is that of [lg]. *)
Record head_is (h : block) (lg : logst) : Prop := {
  hi_n : head_n h = lh_n lg;
  hi_blk : forall j, 0 <= j < lh_n lg -> head_blk h j = lh_blk lg j;
}.

Lemma head_block_is lg d : log_wf lg -> length d = Z.to_nat BSIZE -> head_is (head_block lg d) lg.
Proof.
  intros Hw Hd. pose proof (wf_n _ Hw). unfold head_block. split.
  - unfold head_n. rewrite write_blocks_n, rd32_wr32_eq by (rewrite ?Hd; apply u32_bound || (unfold BSIZE; lia)).
    apply i32_u32. unfold LOGBLOCKS, MAXOPBLOCKS in *. lia.
  - intros j Hj. unfold head_blk. rewrite write_blocks_blk by (rewrite ?length_wr32; done || lia).
    rewrite decide_True by lia. apply i32_u32. pose proof (wf_blk _ Hw j Hj). lia.
Qed.

(** The header after [log.lh.n = 0]. *)
Lemma head_empty_n lg d : length d = Z.to_nat BSIZE -> head_n (head_block (set_lh_n 0 lg) d) = 0.
Proof.
  intros Hd. unfold head_n, head_block. change (Z.to_nat (lh_n (set_lh_n 0 lg))) with 0%nat. cbn [write_blocks].
  rewrite rd32_wr32_eq; [done|rewrite Hd; unfold BSIZE; lia|apply u32_bound].
Qed.

Lemma load_head_is h lg : head_is h (load_head h lg).
Proof.
  unfold load_head. destruct (load_blocks_fields (Z.to_nat (head_n h)) 0 h (set_lh_n (head_n h) lg) ltac:(lia))
    as (_ & _ & Hn & _ & _ & Hb). split; [by rewrite Hn|].
  rewrite Hn. cbn [set_lh_n lh_n]. intros j Hj. by rewrite Hb, decide_True by lia.
Qed.

Lemma load_head_fields h lg :
  start (load_head h lg) = start lg /\ ldev (load_head h lg) = ldev lg /\ lh_n (load_head h lg) = head_n h.
Proof.
  unfold load_head. destruct (load_blocks_fields (Z.to_nat (head_n h)) 0 h (set_lh_n (head_n h) lg) ltac:(lia))
    as (H1 & H2 & H3 & _). done.
Qed.

(** ** The contents a disk stands for *)

Definition logical (st : Z) (d : gmap Z block) (b : Z) : block :=
  let h := dblock d st in
  match list_find (fun j => head_blk h j = b) (seqZ 0 (head_n h)) with
  | Some (_, j) => dblock d (st + 1 + j)
  | None => dblock d b
  end.

Lemma logical_at lg d j : log_wf lg -> head_is (dblock d (start lg)) lg -> 0 <= j < lh_n lg ->
  logical (start lg) d (bno lg j) = dblock d (lbn lg j).
Proof.
  intros Hw Hh Hj. unfold logical. rewrite (hi_n _ _ Hh).
  destruct (list_find _ _) as [[i x]|] eqn:E.
  - apply list_find_Some in E as (Hx & Hb & _). apply lookup_seqZ in Hx as [-> Hi].
    rewrite (hi_blk _ _ Hh), bno_eq in Hb by (done || lia). apply wf_inj in Hb; [|done|lia..].
    rewrite lbn_eq by (pose proof (wf_n _ Hw); done || lia). f_equal. lia.
  - apply list_find_None in E. rewrite Forall_forall in E. destruct (E j); [apply elem_of_seqZ; lia|].
    rewrite (hi_blk _ _ Hh), bno_eq by done. done.
Qed.

Lemma logical_other lg d b : log_wf lg -> head_is (dblock d (start lg)) lg ->
  (forall j, 0 <= j < lh_n lg -> b <> bno lg j) -> logical (start lg) d b = dblock d b.
Proof.
  intros Hw Hh Hb. unfold logical. destruct (list_find _ _) as [[i x]|] eqn:E; [|done].
  apply list_find_Some in E as (Hx & Hx' & _). rewrite (hi_n _ _ Hh) in Hx. apply lookup_seqZ in Hx as [-> Hi].
  destruct (Hb (0 + Z.of_nat i)); [lia|]. rewrite bno_eq, <- Hx' by (done || lia). by rewrite (hi_blk _ _ Hh) by lia.
Qed.

Lemma logical_empty st d b : head_n (dblock d st) <= 0 -> logical st d b = dblock d b.
Proof. intros Hn. unfold logical. by rewrite seqZ_nil. Qed.

(** Two disks that agree on the header, on the log slots in use and on what is
    neither logged nor in the log area stand for the same contents. *)
Lemma logical_same lg d d' b : log_wf lg -> head_is (dblock d (start lg)) lg ->
  dblock d' (start lg) = dblock d (start lg) ->
  (forall j, 0 <= j < lh_n lg -> dblock d' (lbn lg j) = dblock d (lbn lg j)) ->
  ((forall j, 0 <= j < lh_n lg -> b <> bno lg j) -> dblock d' b = dblock d b) ->
  logical (start lg) d' b = logical (start lg) d b.
Proof.
  intros Hw Hh Hs Hl Hb.
  destruct (decide (Exists (fun j => b = bno lg j) (seqZ 0 (lh_n lg)))) as [Hx|Hx].
  - apply Exists_exists in Hx as (j & Hj & ->). apply elem_of_seqZ in Hj.
    rewrite !logical_at by (rewrite ?Hs; done || lia). apply Hl. lia.
  - assert (forall j, 0 <= j < lh_n lg -> b <> bno lg j) as Hno.
    { intros j Hj E. apply Hx, Exists_exists. exists j. split; [apply elem_of_seqZ; lia|done]. }
    rewrite !logical_other by (rewrite ?Hs; done). by apply Hb.
Qed.

(** Writes to the home locations of logged blocks do not matter. *)
Lemma logical_home lg d ws b : log_wf lg -> head_is (dblock d (start lg)) lg ->
  (forall w, w ∈ ws -> exists j, 0 <= j < lh_n lg /\ w.1 = bno lg j) ->
  dblock (disk_writes d ws) (start lg) = dblock d (start lg) /\
  logical (start lg) (disk_writes d ws) b = logical (start lg) d b.
Proof.
  intros Hw Hh Hws.
  assert (dblock (disk_writes d ws) (start lg) = dblock d (start lg)) as Hs.
  { apply disk_writes_other. intros w Hin. destruct (Hws w Hin) as (j & Hj & ->). intros E.
    apply (bno_out lg j Hw Hj). rewrite E. unfold in_log, LOGBLOCKS, MAXOPBLOCKS. lia. }
  split; [done|]. apply logical_same; [done..| |].
  - intros j Hj. apply disk_writes_other. intros w Hin. destruct (Hws w Hin) as (j' & Hj' & ->).
    apply not_eq_sym, lbn_bno; [done|pose proof (wf_n _ Hw); lia|done].
  - intros Hb. apply disk_writes_other. intros w Hin. destruct (Hws w Hin) as (j' & Hj' & ->).
    by apply not_eq_sym, Hb.
Qed.

(** Installing what is in the log leaves the contents it stands for. *)
Lemma logical_installed lg d b : log_wf lg -> head_is (dblock d (start lg)) lg -> ~ in_log lg b ->
  dblock (disk_writes d (home_ws (Z.to_nat (lh_n lg)) 0 lg (fun j => dblock d (lbn lg j)))) b = logical (start lg) d b.
Proof.
  intros Hw Hh Hb. pose proof (wf_n _ Hw).
  destruct (decide (Exists (fun j => b = bno lg j) (seqZ 0 (lh_n lg)))) as [Hx|Hx].
  - apply Exists_exists in Hx as (j & Hj & ->). apply elem_of_seqZ in Hj.
    rewrite logical_at by (done || lia). rewrite home_ws_read by (done || lia). done.
  - assert (forall j, 0 <= j < lh_n lg -> b <> bno lg j) as Hno.
    { intros j Hj E. apply Hx, Exists_exists. exists j. split; [apply elem_of_seqZ; lia|done]. }
    rewrite logical_other by done. apply disk_writes_other. intros w (j & Hj & ->)%home_ws_in.
    apply not_eq_sym, Hno. lia.
Qed.

(** A disk with a well-formed log area at [st]. *)
Definition log_disk (st : Z) (d : gmap Z block) : Prop :=
  log_wf (load_head (dblock d st) (Log st 0 false 0 0 ∅)).

Lemma log_wf_ext lg lg' : start lg' = start lg -> lh_n lg' = lh_n lg ->
  (forall j, 0 <= j < lh_n lg -> lh_blk lg' j = lh_blk lg j) -> log_wf lg -> log_wf lg'.
Proof.
  intros Es En Eb [H1 H2 H3 H4]. split; rewrite ?Es, ?En; [exact H1|exact H2| |].
  - intros i Hi. unfold in_log in *. rewrite Eb, Es by done. by apply H3.
  - intros i j Hi Hj. rewrite !Eb by done. by apply H4.
Qed.

Lemma log_disk_wf d lg : log_disk (start lg) d <-> log_wf (load_head (dblock d (start lg)) lg).
Proof.
  set (lg0 := Log (start lg) 0 false 0 0 ∅). set (h := dblock d (start lg)).
  destruct (load_head_fields h lg) as (E1 & _ & E3), (load_head_fields h lg0) as (F1 & _ & F3).
  change (start lg0) with (start lg) in F1. unfold log_disk. fold lg0 h. split; apply log_wf_ext; try congruence.
  - intros j Hj. rewrite F3 in Hj. rewrite <- (hi_blk _ _ (load_head_is h lg)), <- (hi_blk _ _ (load_head_is h lg0)) by congruence. done.
  - intros j Hj. rewrite E3 in Hj. rewrite <- (hi_blk _ _ (load_head_is h lg)), <- (hi_blk _ _ (load_head_is h lg0)) by congruence. done.
Qed.

Lemma log_disk_is d lg : log_wf lg -> head_is (dblock d (start lg)) lg -> log_disk (start lg) d.
Proof.
  intros Hw Hh. apply log_disk_wf. destruct (load_head_fields (dblock d (start lg)) lg) as (E1 & _ & E3).
  apply (log_wf_ext lg); [done|by rewrite E3, (hi_n _ _ Hh)| |done]. intros j Hj.
  rewrite <- (hi_blk _ _ Hh) by done. symmetry. apply (hi_blk _ _ (load_head_is _ _)).
  by rewrite E3, (hi_n _ _ Hh).
Qed.

Lemma log_disk_empty d st : 0 < st /\ st + LOGBLOCKS < 2 ^ 31 -> head_n (dblock d st) = 0 -> log_disk st d.
Proof.
  intros Hs Hn. unfold log_disk. destruct (load_head_fields (dblock d st) (Log st 0 false 0 0 ∅)) as (E1 & _ & E3).
  cbn [start] in E1. rewrite Hn in E3. split; rewrite ?E1, ?E3; [done|done|intros; lia..].
Qed.

(** ** What the loops leave of the cache *)

Lemma dels_none m : forall i lg dm b, dm !! b = None -> dels m i lg dm !! b = None.
Proof.
  induction m as [|m IH]; intros i lg dm b H; [done|]. cbn [dels]. apply IH.
  rewrite lookup_delete. by case_decide.
Qed.

Lemma dels_out m : forall i lg dm b, (forall j, i <= j < i + Z.of_nat m -> b <> bno lg j) ->
  dels m i lg dm !! b = dm !! b.
Proof.
  induction m as [|m IH]; intros i lg dm b H; [done|]. cbn [dels].
  rewrite IH, lookup_delete_ne; [done|symmetry; apply H; lia|]. intros j Hj. apply H. lia.
Qed.

Lemma dels_in m : forall i lg dm j, i <= j < i + Z.of_nat m -> dels m i lg dm !! bno lg j = None.
Proof.
  induction m as [|m IH]; intros i lg dm j Hj; [lia|]. cbn [dels].
  destruct (decide (j = i)) as [->|?]; [|apply IH; lia]. apply dels_none, lookup_delete_eq.
Qed.

Lemma dels_size m : forall i lg dm, (size (dels m i lg dm) <= size dm)%nat.
Proof.
  induction m as [|m IH]; intros i lg dm; [done|]. cbn [dels].
  etransitivity; [apply IH|]. apply map_subseteq_size, delete_subseteq.
Qed.

Lemma unpins_zero m : forall i lg pm b, default 0%nat (pm !! b) = 0%nat ->
  default 0%nat (unpins m i lg pm !! b) = 0%nat.
Proof.
  induction m as [|m IH]; intros i lg pm b H; [done|]. cbn [unpins]. apply IH.
  rewrite lookup_insert. by case_decide.
Qed.

Lemma unpins_in m : forall i lg pm j, i <= j < i + Z.of_nat m ->
  default 0%nat (unpins m i lg pm !! bno lg j) = 0%nat.
Proof.
  induction m as [|m IH]; intros i lg pm j Hj; [lia|]. cbn [unpins].
  destruct (decide (j = i)) as [->|?]; [|apply IH; lia]. apply unpins_zero. by rewrite lookup_insert_eq.
Qed.

Lemma size_add (dm : gmap Z block) b : (size (dom dm ∪ {[b]}) <= size dm + 1)%nat.
Proof.
  rewrite size_union_alt, size_dom.
  assert (size (({[b]} : gset Z) ∖ dom dm) <= size ({[b]} : gset Z))%nat as H by (apply subseteq_size; set_solver).
  rewrite size_singleton in H. lia.
Qed.

(** ** commit *)

(** A transaction ready to commit: each logged block is held by a pinned buffer
    with its new contents [f], and no buffer holds a block of the log area. *)
Record tx (lg : logst) (a : bstate) (f : Z -> block) : Prop := {
  tx_wf : log_wf lg;
  tx_quiet : quiet a;
  tx_dirty : forall j, 0 <= j < lh_n lg -> dirty a !! bno lg j = Some (f j) /\ npins a (bno lg j) = 1%nat;
  tx_log : forall b, in_log lg b -> dirty a !! b = None /\ npins a b = 0%nat;
  tx_room : (size (dirty a) < Z.to_nat NBUF)%nat;
}.

Definition commit_head (lg : logst) (d : gmap Z block) : block := head_block lg (dblock d (start lg)).

Definition commit_ws (lg : logst) (f : Z -> block) (d : gmap Z block) : list (Z * block) :=
  let n := Z.to_nat (lh_n lg) in
  log_ws n 0 lg f ++ (start lg, commit_head lg d) :: home_ws n 0 lg f ++
  [(start lg, head_block (set_lh_n 0 lg) (commit_head lg d))].

Lemma start_in lg : in_log lg (start lg).
Proof. unfold in_log, LOGBLOCKS, MAXOPBLOCKS. lia. Qed.

Lemma u32_start lg : log_wf lg -> u32 (start lg) = start lg.
Proof. intros Hw. apply u32_id. pose proof (wf_start _ Hw). unfold LOGBLOCKS, MAXOPBLOCKS in *. lia. Qed.

Lemma lbn_start lg j : log_wf lg -> 0 <= j < lh_n lg -> lbn lg j <> start lg.
Proof. intros Hw Hj. pose proof (wf_n _ Hw). rewrite lbn_eq by (done || lia). lia. Qed.

Lemma bno_start lg j : log_wf lg -> 0 <= j < lh_n lg -> bno lg j <> start lg.
Proof. intros Hw Hj E. apply (bno_out lg j Hw Hj). rewrite E. apply start_in. Qed.

Lemma log_ws_start lg f d : log_wf lg ->
  dblock (disk_writes d (log_ws (Z.to_nat (lh_n lg)) 0 lg f)) (start lg) = dblock d (start lg).
Proof.
  intros Hw. apply disk_writes_other. intros w (j & Hj & ->)%log_ws_in. apply lbn_start; [done|lia].
Qed.

Lemma home_ws_start lg f d : log_wf lg ->
  dblock (disk_writes d (home_ws (Z.to_nat (lh_n lg)) 0 lg f)) (start lg) = dblock d (start lg).
Proof.
  intros Hw. apply disk_writes_other. intros w (j & Hj & ->)%home_ws_in. apply bno_start; [done|lia].
Qed.

Section run.
Context {St : Type} {BO : BlockOps St} {dev pid : Z} {BL : BlockLaws St dev pid}.

(** A transaction is written to the log and its header is written. *)
Lemma commit_log_run k a f c : tx (lgs k) a f -> ldev (lgs k) = dev -> babs (blks k) a -> block_locks pid c ->
  exists c' s', same_locks c c' /\ (write_log;; write_head) c k = Ok tt c' (set_blks s' k) /\
    let ws := log_ws (Z.to_nat (lh_n (lgs k))) 0 (lgs k) f ++ [(start (lgs k), commit_head (lgs k) (disk a))] in
    babs s' (BState (disk_writes (disk a) ws) (hist a ++ ws) (dirty a) ∅ (pins a)).
Proof.
  intros Ht Hdev Ha Hc. set (lg := lgs k) in *. pose proof (tx_wf _ _ _ Ht) as Hw. pose proof (wf_n _ Hw) as Hn.
  destruct (write_log_loop_run (Z.to_nat (lh_n lg)) 0 k a f c) as (c1 & s1 & Hs1 & Hr1 & Ha1); try (done || lia || apply Ht).
  { fold lg. lia. }
  { intros j Hj. destruct (tx_dirty _ _ _ Ht j Hj) as [H1 H2]. split; [done|]. unfold bno in H2. unfold lg in H2. unfold bno. lia. }
  fold lg in Ha1. set (a1 := BState _ _ _ _ _) in Ha1.
  destruct (tx_log _ _ _ Ht (start lg) (start_in lg)) as [Hd0 Hp0]. pose proof (tx_room _ _ _ Ht) as Hroom.
  destruct (write_head_run (set_blks s1 k) a1 c1) as (c2 & s2 & Hs2 & Hr2 & Ha2); cbn [lgs set_blks]; fold lg; try done.
  { by eapply block_locks_same. }
  { by rewrite u32_start. }
  { by rewrite u32_start. }
  { pose proof (size_add (dirty a) (u32 (start lg))). cbn [a1 dirty]. lia. }
  exists c2, s2. split; [by eapply same_locks_trans|]. split.
  - unfold write_log. rewrite (bind_ok _ _ c k (tt) c1 (set_blks s1 k)); [exact Hr2|]. exact Hr1.
  - cbn [lgs set_blks] in Ha2. fold lg in Ha2. rewrite u32_start in Ha2 by done. cbn [a1 disk hist dirty pins] in Ha2.
    rewrite log_ws_start in Ha2 by done. rewrite disk_writes_app, app_assoc. exact Ha2.
Qed.

(** Installing a transaction whose blocks are in the log, and clearing the
    header; [recovering] says whether the buffers are pinned. *)
Lemma install_clear_run (recovering : bool) k a g c :
  let lg := lgs k in let n := Z.to_nat (lh_n lg) in
  let ws := home_ws n 0 lg g ++ [(start lg, head_block (set_lh_n 0 lg) (dblock (disk a) (start lg)))] in
  log_wf lg -> ldev lg = dev -> babs (blks k) a -> block_locks pid c -> quiet a ->
  (forall j, 0 <= j < lh_n lg -> npins a (bno lg j) = (if recovering then 0 else 1)%nat) ->
  (forall j, 0 <= j < lh_n lg -> dblock (disk a) (lbn lg j) = g j) ->
  (forall b, in_log lg b -> dirty a !! b = None /\ npins a b = 0%nat) ->
  (recovering = false -> forall j, 0 <= j < lh_n lg -> is_Some (dirty a !! bno lg j)) ->
  (size (dirty a) + (if recovering then 2 else 1) <= Z.to_nat NBUF)%nat ->
  exists c' s', same_locks c c' /\
    (install_trans recovering;; mod_log (set_lh_n 0);; write_head) c k = Ok tt c' (FsState (set_lh_n 0 lg) s') /\
    babs s' (BState (disk_writes (disk a) ws) (hist a ++ ws)
      (dels n 0 lg (dirty a)) ∅ (if recovering then pins a else unpins n 0 lg (pins a))).
Proof.
  intros lg n ws Hw Hdev Ha Hc Hq Hp Hg Hl Hdp Hsz. pose proof (wf_n _ Hw) as Hn.
  destruct (install_loop_run n recovering 0 k a g c) as (c1 & s1 & Hs1 & Hr1 & Ha1); try done.
  { unfold n. fold lg. lia. }
  fold lg in Ha1. set (a1 := BState _ _ _ _ _) in Ha1.
  destruct (Hl (start lg) (start_in lg)) as [Hd0 Hp0].
  destruct (write_head_run (FsState (set_lh_n 0 lg) s1) a1 c1) as (c2 & s2 & Hs2 & Hr2 & Ha2);
    cbn [lgs set_lh_n start]; rewrite ?u32_start; try done.
  { by eapply block_locks_same. }
  { by apply dels_none. }
  { unfold npins. cbn [a1 pins]. destruct recovering; [done|]. by apply unpins_zero. }
  { cbn [a1 dirty]. pose proof (size_add (dels n 0 lg (dirty a)) (start lg)). pose proof (dels_size n 0 lg (dirty a)).
    destruct recovering; lia. }
  exists c2, s2. split; [by eapply same_locks_trans|]. split.
  - unfold install_trans. rewrite (bind_ok _ _ c k (tt) c1 (set_blks s1 k)) by exact Hr1. exact Hr2.
  - cbn [lgs set_lh_n start blks] in Ha2. rewrite u32_start in Ha2 by done. cbn [a1 disk hist dirty pins] in Ha2.
    unfold ws, n in *. rewrite home_ws_start in Ha2 by done. rewrite disk_writes_app, app_assoc. exact Ha2.
Qed.

Lemma commit_run k a f c : tx (lgs k) a f -> 0 < lh_n (lgs k) -> ldev (lgs k) = dev -> babs (blks k) a -> block_locks pid c ->
  let lg := lgs k in let n := Z.to_nat (lh_n lg) in let ws := commit_ws lg f (disk a) in
  exists c' s', same_locks c c' /\ commit c k = Ok tt c' (FsState (set_lh_n 0 lg) s') /\
    babs s' (BState (disk_writes (disk a) ws) (hist a ++ ws) (dels n 0 lg (dirty a)) ∅ (unpins n 0 lg (pins a))).
Proof.
  intros Ht H0 Hdev Ha Hc lg n ws. pose proof (tx_wf _ _ _ Ht) as Hw. pose proof (wf_n _ Hw) as Hn.
  destruct (commit_log_run k a f c Ht Hdev Ha Hc) as (c1 & s1 & Hs1 & Hr1 & Ha1).
  cbn zeta in Ha1. set (a1 := BState _ _ _ _ _) in Ha1.
  assert (dblock (disk a1) (start lg) = commit_head lg (disk a)) as Hst.
  { cbn [a1 disk]. rewrite disk_writes_app. cbn. by rewrite dblock_insert, decide_True. }
  destruct (install_clear_run false (set_blks s1 k) a1 f c1) as (c2 & s2 & Hs2 & Hr2 & Ha2); try done.
  { by eapply block_locks_same. }
  { apply (fun j Hj => proj2 (tx_dirty _ _ _ Ht j Hj)). }
  { intros j Hj. cbn [a1 disk lgs set_blks] in *. rewrite disk_writes_app. cbn.
    rewrite dblock_insert, decide_False by (apply not_eq_sym, lbn_start; done).
    apply log_ws_read; [done|lia..]. }
  { apply Ht. }
  { intros _ j Hj. cbn [a1 dirty lgs set_blks] in *. rewrite (proj1 (tx_dirty _ _ _ Ht j Hj)). done. }
  { cbn [a1 dirty]. pose proof (tx_room _ _ _ Ht). lia. }
  exists c2, s2. split; [by eapply same_locks_trans|]. split.
  - unfold commit. rewrite (bind_ok _ _ c k (lh_n lg) c k) by done. destruct (Z.ltb_spec 0 (lh_n lg)) as [_|?]; [|unfold lg in *; lia].
    unfold write_log in Hr1 |- *. rewrite (bind_bind_ok _ _ _ _ _ _ _ _ Hr1). exact Hr2.
  - cbn [set_blks lgs] in Ha2. fold lg in Ha2. rewrite Hst in Ha2. cbn [a1 disk hist dirty pins] in Ha2.
    rewrite <- disk_writes_app in Ha2. rewrite <- !app_assoc in Ha2. exact Ha2.
Qed.

(** ** Recovery *)

Lemma recover_run k a c : let lg := load_head (dblock (disk a) (start (lgs k))) (lgs k) in
  log_wf lg -> ldev (lgs k) = dev -> babs (blks k) a -> block_locks pid c ->
  handles a = ∅ -> dirty a = ∅ -> pins a = ∅ ->
  let ws := home_ws (Z.to_nat (lh_n lg)) 0 lg (fun j => dblock (disk a) (lbn lg j)) ++
    [(start lg, head_block (set_lh_n 0 lg) (dblock (disk a) (start lg)))] in
  exists c' s', same_locks c c' /\ recover_from_log c k = Ok tt c' (FsState (set_lh_n 0 lg) s') /\
    babs s' (BState (disk_writes (disk a) ws) (hist a ++ ws) ∅ ∅ ∅).
Proof.
  intros lg Hw Hdev Ha Hc Hh Hd Hp ws. destruct (load_head_fields (dblock (disk a) (start (lgs k))) (lgs k)) as (Es & Ed & En).
  fold lg in Es, Ed, En. assert (u32 (start (lgs k)) = start (lgs k)) as Hu by (rewrite <- Es; by apply u32_start).
  destruct (read_head_run k a c) as (c1 & s1 & Hs1 & Hr1 & Ha1); rewrite ?Hu; try done.
  { by rewrite Hd. }
  { unfold npins. by rewrite Hp. }
  { rewrite Hd. pose proof (size_add ∅ (start (lgs k))) as H. rewrite map_size_empty in H. unfold NBUF, MAXOPBLOCKS. lia. }
  rewrite Hu in Hr1. fold lg in Hr1.
  destruct (install_clear_run true (FsState lg s1) a (fun j => dblock (disk a) (lbn lg j)) c1) as (c2 & s2 & Hs2 & Hr2 & Ha2);
    cbn [lgs]; try done.
  { by rewrite Ed. }
  { by eapply block_locks_same. }
  { intros j _. unfold npins. by rewrite Hp. }
  { intros b _. unfold npins. by rewrite Hp, Hd. }
  { rewrite Hd, map_size_empty. unfold NBUF, MAXOPBLOCKS. lia. }
  exists c2, s2. split; [by eapply same_locks_trans|]. split.
  - unfold recover_from_log. rewrite (bind_ok _ _ _ _ _ _ _ Hr1). exact Hr2.
  - cbn [lgs] in Ha2. rewrite Hd, Hp in Ha2. assert (dels (Z.to_nat (lh_n lg)) 0 lg ∅ = ∅) as E; [|by rewrite E in Ha2].
    apply map_eq. intros b. rewrite lookup_empty. apply dels_none, lookup_empty.
Qed.
End run.

(** ** Atomicity *)

Lemma home_ws_named lg f m w : w ∈ take m (home_ws (Z.to_nat (lh_n lg)) 0 lg f) ->
  exists j, 0 <= j < lh_n lg /\ w.1 = bno lg j.
Proof.
  intros Hin. apply elem_of_take in Hin as (i & Hi & _). apply list_elem_of_lookup_2 in Hi.
  apply home_ws_in in Hi as (j & Hj & ->). exists j. split; [lia|done].
Qed.

Lemma log_ws_length m : forall i lg f, length (log_ws m i lg f) = m.
Proof. induction m as [|m IH]; intros; [done|]. cbn [log_ws length]. by rewrite IH. Qed.

Lemma home_ws_length m : forall i lg f, length (home_ws m i lg f) = m.
Proof. induction m as [|m IH]; intros; [done|]. cbn [home_ws length]. by rewrite IH. Qed.

Lemma log_ws_home lg f m d b : log_wf lg -> ~ in_log lg b ->
  dblock (disk_writes d (take m (log_ws (Z.to_nat (lh_n lg)) 0 lg f))) b = dblock d b.
Proof.
  intros Hw Hb. apply disk_writes_other. intros w Hin. apply elem_of_take in Hin as (i & Hi & _).
  apply list_elem_of_lookup_2 in Hi. apply log_ws_in in Hi as (j & Hj & ->). cbn [fst]. intros <-.
  apply Hb, lbn_in; [done|]. pose proof (wf_n _ Hw). lia.
Qed.

Lemma disk_writes_agree ws b : forall d d', dblock d b = dblock d' b ->
  dblock (disk_writes d ws) b = dblock (disk_writes d' ws) b.
Proof.
  induction ws as [|w ws IH]; intros d d' H; [done|]. rewrite !disk_writes_cons. apply IH.
  unfold disk_write. rewrite !dblock_insert. by case_decide.
Qed.

(** The first phase of a commit: the log is filled, the header still empty. *)
Lemma commit_phase1 lg f d m b : log_wf lg -> head_n (dblock d (start lg)) = 0 -> ~ in_log lg b ->
  let d' := disk_writes d (take m (log_ws (Z.to_nat (lh_n lg)) 0 lg f)) in
  log_disk (start lg) d' /\ logical (start lg) d' b = dblock d b.
Proof.
  intros Hw Hn Hb d'. assert (dblock d' (start lg) = dblock d (start lg)) as Hs.
  { apply disk_writes_other. intros w Hin. apply elem_of_take in Hin as (i & Hi & _).
    apply list_elem_of_lookup_2 in Hi. apply log_ws_in in Hi as (j & Hj & ->). apply lbn_start; [done|lia]. }
  split; [apply log_disk_empty; [apply Hw|by rewrite Hs]|].
  rewrite logical_empty by (rewrite Hs; lia). by apply log_ws_home.
Qed.

(** The second phase: the header is written, the blocks go home. *)
Lemma commit_phase2 lg f d m b : log_wf lg -> length (dblock d (start lg)) = Z.to_nat BSIZE -> ~ in_log lg b ->
  let n := Z.to_nat (lh_n lg) in
  let d' := disk_writes d (log_ws n 0 lg f ++ (start lg, commit_head lg d) :: take m (home_ws n 0 lg f)) in
  log_disk (start lg) d' /\ logical (start lg) d' b = dblock (disk_writes d (home_ws n 0 lg f)) b.
Proof.
  intros Hw Hlen Hb n d'. pose proof (wf_n _ Hw) as Hn.
  set (d1 := disk_write (disk_writes d (log_ws n 0 lg f)) (start lg, commit_head lg d)).
  assert (d' = disk_writes d1 (take m (home_ws n 0 lg f))) as ->.
  { unfold d'. by rewrite disk_writes_app, disk_writes_cons. }
  assert (dblock d1 (start lg) = commit_head lg d) as Hs by (unfold d1, disk_write; by rewrite dblock_insert, decide_True).
  assert (head_is (dblock d1 (start lg)) lg) as Hh by (rewrite Hs; by apply head_block_is).
  destruct (logical_home lg d1 (take m (home_ws n 0 lg f)) b Hw Hh (home_ws_named lg f m)) as [Hs' ->].
  split; [apply log_disk_is; [done|by rewrite Hs']|].
  assert (forall x, x <> start lg -> dblock d1 x = dblock (disk_writes d (log_ws n 0 lg f)) x) as Hd1.
  { intros x Hx. unfold d1, disk_write. by rewrite dblock_insert, decide_False by (cbn; congruence). }
  destruct (decide (Exists (fun j => b = bno lg j) (seqZ 0 (lh_n lg)))) as [Hx|Hx].
  - apply Exists_exists in Hx as (j & Hj & ->). apply elem_of_seqZ in Hj.
    rewrite logical_at by (done || lia). rewrite Hd1 by (apply lbn_start; done || lia).
    rewrite log_ws_read, home_ws_read by (done || lia). done.
  - assert (forall j, 0 <= j < lh_n lg -> b <> bno lg j) as Hno.
    { intros j Hj E. apply Hx, Exists_exists. exists j. split; [apply elem_of_seqZ; lia|done]. }
    rewrite logical_other by done. rewrite Hd1 by (intros ->; apply Hb, start_in).
    pose proof (log_ws_home lg f n d b Hw Hb) as E. rewrite take_ge in E by (by rewrite log_ws_length).
    fold n in E. rewrite E. symmetry. apply disk_writes_other.
    intros w (j & Hj & ->)%home_ws_in. apply not_eq_sym, Hno. lia.
Qed.

(** The last write empties the log. *)
Lemma commit_phase3 lg f d b : log_wf lg -> length (dblock d (start lg)) = Z.to_nat BSIZE -> ~ in_log lg b ->
  let d' := disk_writes d (commit_ws lg f d) in
  log_disk (start lg) d' /\ head_n (dblock d' (start lg)) = 0 /\ logical (start lg) d' b = dblock d' b /\
  dblock d' b = dblock (disk_writes d (home_ws (Z.to_nat (lh_n lg)) 0 lg f)) b.
Proof.
  intros Hw Hlen Hb d'. set (n := Z.to_nat (lh_n lg)).
  set (hb := head_block (set_lh_n 0 lg) (commit_head lg d)).
  set (d1 := disk_writes d (log_ws n 0 lg f ++ [(start lg, commit_head lg d)])).
  assert (d' = <[start lg := hb]> (disk_writes d1 (home_ws n 0 lg f))) as ->.
  { unfold d', commit_ws, d1. fold n. rewrite (cons_middle (start lg, commit_head lg d)).
    rewrite !disk_writes_app. done. }
  assert (head_n hb = 0) as Hn0.
  { apply head_empty_n. unfold commit_head. by rewrite length_head_block. }
  assert (dblock (<[start lg := hb]> (disk_writes d1 (home_ws n 0 lg f))) (start lg) = hb) as Hs
    by (by rewrite dblock_insert, decide_True).
  split_and!.
  - apply log_disk_empty; [apply Hw|by rewrite Hs].
  - by rewrite Hs.
  - apply logical_empty. rewrite Hs. lia.
  - rewrite dblock_insert, decide_False by (intros <-; apply Hb, start_in).
    apply disk_writes_agree. unfold d1. rewrite disk_writes_app, disk_writes_cons.
    change (disk_writes ?x []) with x. unfold disk_write. rewrite dblock_insert, decide_False by (intros <-; apply Hb, start_in).
    pose proof (log_ws_home lg f n d b Hw Hb) as E. rewrite take_ge in E by (by rewrite log_ws_length). exact E.
Qed.

Lemma commit_prefix lg f d m b : log_wf lg -> length (dblock d (start lg)) = Z.to_nat BSIZE ->
  head_n (dblock d (start lg)) = 0 -> ~ in_log lg b ->
  let d' := disk_writes d (take m (commit_ws lg f d)) in
  log_disk (start lg) d' /\ logical (start lg) d' b =
    if decide (Z.of_nat m <= lh_n lg) then dblock d b
    else dblock (disk_writes d (home_ws (Z.to_nat (lh_n lg)) 0 lg f)) b.
Proof.
  intros Hw Hlen Hn0 Hb d'. pose proof (wf_n _ Hw) as Hn. set (n := Z.to_nat (lh_n lg)) in *.
  pose proof (log_ws_length n 0 lg f) as HL. pose proof (home_ws_length n 0 lg f) as HH.
  unfold d', commit_ws. fold n. case_decide as Hm.
  - rewrite take_app_le by lia. by apply commit_phase1.
  - rewrite take_app_ge by lia. replace (m - length (log_ws n 0 lg f))%nat with (S (m - n - 1)) by lia. cbn [firstn].
    destruct (decide (m - n - 1 <= n)%nat) as [Hm2|Hm2].
    + rewrite take_app_le by lia. by apply commit_phase2.
    + rewrite (take_ge (home_ws n 0 lg f ++ _)) by (rewrite length_app; cbn [length]; lia).
      destruct (commit_phase3 lg f d b Hw Hlen Hb) as (H1 & _ & H3 & H4).
      unfold commit_ws in H1, H3, H4. fold n in H1, H3, H4. rewrite H3, H4. done.
Qed.

Lemma recover_prefix lg d : log_wf lg -> head_is (dblock d (start lg)) lg ->
  length (dblock d (start lg)) = Z.to_nat BSIZE ->
  let ws := home_ws (Z.to_nat (lh_n lg)) 0 lg (fun j => dblock d (lbn lg j)) ++
    [(start lg, head_block (set_lh_n 0 lg) (dblock d (start lg)))] in
  head_n (dblock (disk_writes d ws) (start lg)) = 0 /\
  forall b, ~ in_log lg b ->
    dblock (disk_writes d ws) b = logical (start lg) d b /\
    forall m, let d' := disk_writes d (take m ws) in
      log_disk (start lg) d' /\ logical (start lg) d' b = logical (start lg) d b.
Proof.
  intros Hw Hhd Hlen ws. unfold ws. set (H := home_ws _ _ _ _). set (hb := head_block _ _).
  assert (head_n hb = 0) as Hn0 by (by apply head_empty_n).
  assert (disk_writes d (H ++ [(start lg, hb)]) = <[start lg := hb]> (disk_writes d H)) as Hfin
    by (by rewrite disk_writes_app).
  rewrite Hfin, dblock_insert, decide_True by done. split; [done|]. intros b Hb.
  assert (dblock (<[start lg := hb]> (disk_writes d H)) b = logical (start lg) d b) as Hb'.
  { rewrite dblock_insert, decide_False by (intros <-; apply Hb, start_in). by apply logical_installed. }
  split; [done|]. intros m. destruct (decide (m <= length H)%nat) as [Hm|Hm].
  - rewrite take_app_le by done.
    destruct (logical_home lg d (take m H) b Hw Hhd (home_ws_named _ _ _)) as [Hsame ->].
    split; [apply log_disk_is; [done|by rewrite Hsame]|done].
  - rewrite take_ge by (rewrite length_app; cbn [length]; lia). rewrite Hfin.
    assert (head_n (dblock (<[start lg := hb]> (disk_writes d H)) (start lg)) = 0) as E
      by (by rewrite dblock_insert, decide_True).
    split; [apply log_disk_empty; [apply Hw|done]|]. rewrite logical_empty; [done|lia].
Qed.

Section atomic.
Context {St : Type} {BO : BlockOps St} {dev pid : Z} {BL : BlockLaws St dev pid}.

(** C4: [commit] installs a transaction, atomically. It returns with the log
    empty, the logged blocks unpinned and on the disk, and every block reading
    as before. And if the machine stops after any number [m] of its disk
    writes, the disk has a well-formed log and stands for the contents before
    the transaction when the header was not written yet, and for those with all
    logged blocks replaced when it was. *)
Theorem commit_atomic k a f c : let lg := lgs k in
  tx lg a f -> 0 < lh_n lg -> ldev lg = dev -> babs (blks k) a -> block_locks pid c ->
  head_n (dblock (disk a) (start lg)) = 0 ->
  exists c' k' a' ws, commit c k = Ok tt c' k' /\ babs (blks k') a' /\ lgs k' = set_lh_n 0 lg /\
    same_locks c c' /\ quiet a' /\ disk a' = disk_writes (disk a) ws /\ hist a' = hist a ++ ws /\
    (forall b, ~ in_log lg b -> content a' b = content a b) /\
    (forall j, 0 <= j < lh_n lg -> npins a' (bno lg j) = 0%nat /\ dblock (disk a') (bno lg j) = f j) /\
    head_n (dblock (disk a') (start lg)) = 0 /\
    forall m b, ~ in_log lg b ->
      let d := disk_writes (disk a) (take m ws) in
      log_disk (start lg) d /\ logical (start lg) d b =
        if decide (Z.of_nat m <= lh_n lg) then dblock (disk a) b
        else dblock (disk_writes (disk a) (home_ws (Z.to_nat (lh_n lg)) 0 lg f)) b.
Proof.
  intros lg Ht H0 Hdev Ha Hc Hn0. pose proof (tx_wf _ _ _ Ht) as Hw. pose proof (wf_n _ Hw) as Hn.
  destruct (commit_run k a f c Ht H0 Hdev Ha Hc) as (c' & s' & Hs & Hr & Ha').
  destruct (tx_log _ _ _ Ht _ (start_in lg)) as [Hcl _].
  assert (length (dblock (disk a) (start lg)) = Z.to_nat BSIZE) as Hlen.
  { rewrite <- content_clean by done. by eapply babs_len. }
  assert (forall b, ~ in_log lg b -> dblock (disk_writes (disk a) (commit_ws lg f (disk a))) b =
    dblock (disk_writes (disk a) (home_ws (Z.to_nat (lh_n lg)) 0 lg f)) b) as Hfin
    by (intros b Hb; by apply commit_phase3).
  eexists c', _, _, (commit_ws lg f (disk a)). split; [exact Hr|]. split; [exact Ha'|]. split_and!; try done.
  - intros b Hb. unfold content at 1. cbn [dirty disk].
    destruct (decide (Exists (fun j => b = bno lg j) (seqZ 0 (lh_n lg)))) as [Hx|Hx].
    + apply Exists_exists in Hx as (j & Hj & ->). apply elem_of_seqZ in Hj. fold lg. rewrite dels_in by lia. cbn [default].
      rewrite Hfin, home_ws_read by (done || lia). symmetry. apply content_dirty. apply (tx_dirty _ _ _ Ht). lia.
    + assert (forall j, 0 <= j < lh_n lg -> b <> bno lg j) as Hno.
      { intros j Hj E. apply Hx, Exists_exists. exists j. split; [apply elem_of_seqZ; lia|done]. }
      fold lg. rewrite dels_out by (intros; apply Hno; lia). unfold content. f_equal. rewrite Hfin by done.
      apply disk_writes_other. intros w (j & Hj & ->)%home_ws_in. apply not_eq_sym, Hno. lia.
  - intros j Hj. split.
    + unfold npins. cbn [pins]. apply unpins_in. fold lg. lia.
    + cbn [disk]. fold lg. rewrite Hfin by (by apply bno_out). apply home_ws_read; [done|lia..].
  - cbn [disk]. fold lg. apply (commit_phase3 lg f (disk a) (2 ^ 32)); [done..|].
    unfold in_log, LOGBLOCKS, MAXOPBLOCKS. pose proof (wf_start _ Hw). unfold LOGBLOCKS, MAXOPBLOCKS in *. lia.
  - intros m b Hb. by apply commit_prefix.
Qed.

(** The state of a cache in which no buffer is in use, as after a boot. *)
Definition fresh (a : bstate) : Prop := handles a = ∅ /\ dirty a = ∅ /\ pins a = ∅.

(** C5: after a crash, [initlog] on a disk with a well-formed log returns with
    an empty log and with the disk holding the contents it stood for. Recovery
    may itself be interrupted, any number of times: after each of its writes
    the disk is well-formed and stands for the same contents. *)
Theorem initlog_recovers k a c st :
  log_disk st (disk a) -> fresh a -> babs (blks k) a -> block_locks pid c ->
  exists c' k' a' ws, initlog dev st c k = Ok tt c' k' /\ babs (blks k') a' /\ fresh a' /\
    same_locks c c' /\ lh_n (lgs k') = 0 /\ start (lgs k') = st /\ ldev (lgs k') = dev /\
    disk a' = disk_writes (disk a) ws /\ hist a' = hist a ++ ws /\
    head_n (dblock (disk a') st) = 0 /\
    forall b, ~ st <= b <= st + LOGBLOCKS ->
      dblock (disk a') b = logical st (disk a) b /\
      forall m, let d := disk_writes (disk a) (take m ws) in
        log_disk st d /\ logical st d b = logical st (disk a) b.
Proof.
  intros Hd (Hh & Hdm & Hpm) Ha Hc. set (k1 := upd_log (set_start_dev st dev) k).
  set (lg := load_head (dblock (disk a) st) (lgs k1)).
  assert (log_wf lg) as Hw by exact (proj1 (log_disk_wf (disk a) (lgs k1)) Hd).
  assert (head_is (dblock (disk a) st) lg) as Hhd by apply load_head_is.
  destruct (load_head_fields (dblock (disk a) st) (lgs k1)) as (Es & Ed & En). fold lg in Es, Ed, En.
  change (start (lgs k1)) with st in Es. change (ldev (lgs k1)) with dev in Ed.
  destruct (recover_run k1 a c Hw eq_refl Ha Hc Hh Hdm Hpm) as (c' & s' & Hs & Hr & Ha').
  change (start (lgs k1)) with st in Ha', Hr. fold lg in Ha', Hr.
  assert (length (dblock (disk a) st) = Z.to_nat BSIZE) as Hlen.
  { rewrite <- content_clean by (by rewrite Hdm). by eapply babs_len. }
  pose proof (recover_prefix lg (disk a)) as Hpre. rewrite Es in Hpre. specialize (Hpre Hw Hhd Hlen).
  cbn zeta in Hpre. rewrite Es in Ha'. destruct Hpre as [Hn0 Hpre].
  eexists c', _, _, _. split; [exact Hr|]. split; [exact Ha'|]. split_and!; try done.
  intros b Hb. apply Hpre. unfold in_log. by rewrite Es.
Qed.
End atomic.
