(* ===== verification/LogOps.v ===== *)
(** * Transactions: begin_op, log_write, end_op

    The invariant of the log between the operations of a transaction: the
    blocks in the header are exactly the pinned ones, so that the last
    [end_op] finds a transaction ready to commit; and the reservation that
    [begin_op] makes keeps the header from overflowing. *)

From S2P Require Import Prelude Riscv Mem Block Log LogSteps LogSafe LogCrash.

(** Block [b] is in the header. *)
Definition logged (lg : logst) (b : Z) : Prop := exists j, 0 <= j < lh_n lg /\ bno lg j = b.

Record log_inv (lg : logst) (a : bstate) : Prop := {
  li_wf : log_wf lg;
  li_pinned : forall b, logged lg b -> is_Some (dirty a !! b) /\ npins a b = 1%nat;
  li_unpinned : forall b, ~ logged lg b -> npins a b = 0%nat;
  li_dirty : forall b, is_Some (dirty a !! b) -> logged lg b \/ is_open a b;
  li_log : forall b, in_log lg b -> dirty a !! b = None;
}.

#[export] Instance logged_dec lg b : Decision (logged lg b).
Proof.
  refine (cast_if (decide (Exists (fun j => bno lg j = b) (seqZ 0 (lh_n lg))))).
  - abstract (apply Exists_exists in e as (j & Hj & Hb); apply elem_of_seqZ in Hj; exists j; split; [lia|done]).
  - abstract (intros (j & Hj & Hb); apply n, Exists_exists; exists j; split; [apply elem_of_seqZ; lia|done]).
Defined.

Lemma logged_not_log lg b : log_wf lg -> logged lg b -> ~ in_log lg b.
Proof. intros Hw (j & Hj & <-). by apply bno_out. Qed.

(** When no buffer is open, a transaction of fewer than [NBUF] blocks is ready
    to commit. *)
Lemma log_inv_size lg a : log_inv lg a -> quiet a -> Z.of_nat (size (dirty a)) = lh_n lg.
Proof.
  intros [Hw Hp _ Hd _] Hq. pose proof (wf_n _ Hw).
  assert (dom (dirty a) = list_to_set (bno lg <$> seqZ 0 (lh_n lg))) as E.
  { apply set_eq. intros b. rewrite elem_of_dom, elem_of_list_to_set, list_elem_of_fmap. split.
    - intros Hb. destruct (Hd b Hb) as [(j & Hj & Hjb)|Ho]; [|by apply quiet_not_open in Ho].
      exists j. split; [done|]. apply elem_of_seqZ. lia.
    - intros (j & -> & Hj). apply elem_of_seqZ in Hj. apply Hp. exists j. split; [lia|done]. }
  rewrite <- size_dom, E, size_list_to_set, length_fmap, length_seqZ; [lia|].
  apply NoDup_fmap_2_strong; [|apply NoDup_seqZ]. intros i j Hi Hj. apply elem_of_seqZ in Hi, Hj.
  by apply bno_inj; [|lia..].
Qed.

Lemma log_inv_tx lg a : log_inv lg a -> quiet a -> lh_n lg < NBUF -> tx lg a (fun j => content a (bno lg j)).
Proof.
  intros Hi Hq Hn. pose proof (log_inv_size lg a Hi Hq) as Hsz. destruct Hi as [Hw Hp Hu Hd Hl]. split; try done.
  - intros j Hj. destruct (Hp (bno lg j)) as [[x Hx] H1]; [by exists j|]. split; [|done].
    by rewrite (content_dirty _ _ _ Hx).
  - intros b Hb. split; [by apply Hl|]. apply Hu. intros Hb'. by apply (logged_not_log lg b).
  - lia.
Qed.

(** ** log_write *)

Lemma absorb_loop_spec m : forall i lg b, 0 <= i -> i + Z.of_nat m = lh_n lg ->
  let r := absorb_loop m i lg b in
  (i <= r < lh_n lg /\ bno lg r = b) \/ (r = lh_n lg /\ forall j, i <= j < lh_n lg -> bno lg j <> b).
Proof.
  induction m as [|m IH]; intros i lg b Hi Hm; cbn [absorb_loop].
  { right. split; [lia|]. intros; lia. }
  fold (bno lg i). destruct (Z.eqb_spec (bno lg i) b) as [E|E]; [left; split; [lia|done]|].
  destruct (IH (i + 1) lg b ltac:(lia) ltac:(lia)) as [[Hr Hb]|[Hr Hb]]; [left; split; [lia|done]|right].
  split; [done|]. intros j Hj. destruct (decide (j = i)) as [->|?]; [done|]. apply Hb. lia.
Qed.

(** The header after a new block is appended to it. *)
Definition append_blk (lg : logst) (b : Z) : logst := set_lh_n (lh_n lg + 1) (set_lh_block (lh_n lg) b lg).

Lemma bno_append lg b j : 0 <= b < 2 ^ 31 ->
  bno (append_blk lg b) j = if decide (j = lh_n lg) then b else bno lg j.
Proof.
  intros Hb. unfold bno, lh_blk, append_blk. cbn [set_lh_n set_lh_block lh_block].
  rewrite lookup_insert. repeat case_decide; subst; try done. apply u32_id. simpl. lia.
Qed.

Lemma logged_append lg b x : 0 <= b < 2 ^ 31 -> 0 <= lh_n lg -> logged (append_blk lg b) x <-> x = b \/ logged lg x.
Proof.
  intros Hb Hn. split.
  - intros (j & Hj & E). cbn in Hj. rewrite bno_append in E by done. case_decide; [by left|right].
    exists j. split; [lia|done].
  - intros [->|(j & Hj & <-)].
    + exists (lh_n lg). cbn. split; [lia|]. by rewrite bno_append, decide_True.
    + exists j. cbn. split; [lia|]. rewrite bno_append, decide_False by (done || lia). done.
Qed.

Lemma append_wf lg b : log_wf lg -> 0 <= b < 2 ^ 31 -> ~ in_log lg b -> ~ logged lg b -> lh_n lg < LOGBLOCKS ->
  log_wf (append_blk lg b).
Proof.
  intros Hw Hb Hl Hnl Hn. destruct (wf_n _ Hw) as [H0 _]. pose proof (wf_blk _ Hw) as Hblk. pose proof (wf_inj _ Hw) as Hinj.
  assert (forall j, lh_blk (append_blk lg b) j = if decide (j = lh_n lg) then b else lh_blk lg j) as E.
  { intros j. unfold lh_blk, append_blk. cbn [set_lh_n set_lh_block lh_block]. rewrite lookup_insert.
    repeat case_decide; subst; done. }
  assert (forall j, 0 <= j < lh_n lg -> lh_blk lg j <> b) as Hne.
  { intros j Hj <-. apply Hnl. exists j. split; [done|by apply bno_eq]. }
  split; cbn [append_blk set_lh_n set_lh_block start lh_n].
  - apply Hw.
  - lia.
  - intros i Hi. rewrite E. case_decide; [done|]. apply Hblk. lia.
  - intros i j Hi Hj. rewrite !E. repeat case_decide; subst; try done.
    + intros Eb. symmetry in Eb. by apply Hne in Eb; [|lia].
    + intros Eb. by apply Hne in Eb; [|lia].
    + apply Hinj; lia.
Qed.

Lemma logged_ext lg lg' b : lh_n lg' = lh_n lg -> (forall j, 0 <= j < lh_n lg -> lh_blk lg' j = lh_blk lg j) ->
  logged lg' b <-> logged lg b.
Proof.
  intros En Eb. unfold logged, bno. rewrite En. split; intros (j & Hj & <-); exists j; (split; [done|]); by rewrite Eb.
Qed.

Lemma log_inv_ext lg lg' a : start lg' = start lg -> lh_n lg' = lh_n lg ->
  (forall j, 0 <= j < lh_n lg -> lh_blk lg' j = lh_blk lg j) -> log_inv lg a -> log_inv lg' a.
Proof.
  intros Es En Eb [Hw Hp Hu Hd Hl]. pose proof (fun b => logged_ext lg lg' b En Eb) as Hg. split.
  - by apply (log_wf_ext lg).
  - intros b Hb. by apply Hp, Hg.
  - intros b Hb. apply Hu. by rewrite <- Hg.
  - intros b Hb. rewrite Hg. by apply Hd.
  - intros b. unfold in_log. rewrite Es. apply Hl.
Qed.

Lemma log_inv_append lg a h b : log_inv lg a -> handles a !! h = Some b -> is_Some (dirty a !! b) ->
  0 <= b < 2 ^ 31 -> ~ in_log lg b -> ~ logged lg b -> lh_n lg < LOGBLOCKS ->
  log_inv (append_blk lg b) (a_pin b (npins a b + 1) a).
Proof.
  intros [Hw Hp Hu Hd Hl] Hh Hdb Hb Hnl Hng Hn. pose proof (wf_n _ Hw) as [H0 _].
  pose proof (fun x => logged_append lg b x Hb H0) as Hg.
  assert (forall x, npins (a_pin b (npins a b + 1) a) x = if decide (b = x) then 1%nat else npins a x) as Hpins.
  { intros x. unfold npins at 1. cbn [a_pin pins]. rewrite lookup_insert. case_decide; [|done]. cbn [default].
    by rewrite (Hu b Hng). }
  split; cbn [a_pin dirty].
  - by apply append_wf.
  - intros x Hx. rewrite Hpins. apply Hg in Hx as [->|Hx]; [by rewrite decide_True|].
    rewrite decide_False by (by intros <-). by apply Hp.
  - intros x Hx. rewrite Hpins. rewrite Hg in Hx. rewrite decide_False by (intros <-; apply Hx; by left).
    apply Hu. intros ?. apply Hx. by right.
  - intros x Hx. destruct (Hd x Hx) as [?|?]; [left; apply Hg; by right|by right].
  - intros x Hx. by apply Hl.
Qed.

(** Using a buffer of a block outside the log area keeps the invariant. *)
Lemma log_inv_open lg a h b : log_inv lg a -> ~ in_log lg b -> handles a !! h = None -> log_inv lg (a_open h b a).
Proof.
  intros [Hw Hp Hu Hd Hl] Hb Hn. split; try done; cbn [a_open dirty].
  - intros x Hx. split; [|by apply Hp]. destruct (decide (b = x)) as [->|?]; [by rewrite lookup_insert_eq|].
    rewrite lookup_insert_ne by done. by apply Hp.
  - intros x. destruct (decide (b = x)) as [->|?].
    + intros _. right. exists h. apply lookup_insert_eq.
    + rewrite lookup_insert_ne by done. intros Hx. destruct (Hd x Hx) as [?|[h' Hh']]; [by left|right]. exists h'.
      cbn [a_open handles]. rewrite lookup_insert_ne; [done|]. by intros ->; rewrite Hn in Hh'.
  - intros x Hx. rewrite lookup_insert_ne by (by intros ->). by apply Hl.
Qed.

Lemma log_inv_set lg a h b d : log_inv lg a -> handles a !! h = Some b -> ~ in_log lg b -> log_inv lg (a_set b d a).
Proof.
  intros [Hw Hp Hu Hd Hl] Hh Hb. split; try done; cbn [a_set dirty].
  - intros x Hx. split; [|by apply Hp]. destruct (decide (b = x)) as [->|?]; [by rewrite lookup_insert_eq|].
    rewrite lookup_insert_ne by done. by apply Hp.
  - intros x. destruct (decide (b = x)) as [->|?].
    + intros _. right. by exists h.
    + rewrite lookup_insert_ne by done. apply Hd.
  - intros x Hx. rewrite lookup_insert_ne by (by intros ->). by apply Hl.
Qed.

Lemma log_inv_close lg a h b : log_inv lg a -> handles a !! h = Some b -> log_inv lg (a_close h b a).
Proof.
  intros [Hw Hp Hu Hd Hl] Hh. split; try done; cbn [a_close dirty].
  - intros x Hx. destruct (Hp x Hx) as [H1 H2]. split; [|done]. case_decide; [|done].
    rewrite lookup_delete_ne; [done|]. intros ->. lia.
  - intros x Hx. assert (is_Some (dirty a !! x)) as Hx'.
    { case_decide; [|done]. destruct Hx as [y Hy]. apply lookup_delete_Some in Hy as [_ Hy]. by exists y. }
    destruct (Hd x Hx') as [?|[h' Hh']]; [by left|]. destruct (decide (h' = h)) as [->|Hne].
    + rewrite Hh in Hh'. injection Hh' as ->. destruct (decide (logged lg x)) as [?|Hn]; [by left|].
      rewrite (Hu x Hn), decide_True, lookup_delete_eq in Hx by done. by destruct Hx.
    + right. exists h'. cbn [a_close handles]. by rewrite lookup_delete_ne.
  - intros x Hx. case_decide; [|by apply Hl]. rewrite lookup_delete. case_decide; [done|by apply Hl].
Qed.

Section ops.
Context {St : Type} {BO : BlockOps St} {dev pid : Z} {BL : BlockLaws St dev pid}.

Lemma block_locks_hold c : block_locks pid c -> block_locks pid (hold LLog c).
Proof. intros (H1 & H2 & H3 & H4). split_and!; [set_solver..| |done]. intros i. set_solver. Qed.

Lemma release_same (l : lock) c c' (k : fsstate St) : l ∉ held c -> same_locks (hold l c) c' ->
  exists c2, release l c' k = Ok tt c2 k /\ same_locks c c2.
Proof.
  intros Hl (H1 & H2 & H3). exists (unhold l c'). unfold release. rewrite decide_True by (rewrite H1; set_solver).
  split; [done|]. unfold same_locks, unhold. cbn [held me mypid]. rewrite H1, H2, H3. split_and!; [|done..].
  cbn [hold held]. set_solver.
Qed.

(** Block [b] becomes part of the transaction; nothing else changes. *)
Record recorded (lg : logst) (a : bstate) (b : Z) (lg' : logst) (a' : bstate) : Prop := {
  rec_logged : forall x, logged lg' x <-> x = b \/ logged lg x;
  rec_n : lh_n lg' = lh_n lg + (if decide (logged lg b) then 0 else 1);
  rec_outstanding : outstanding lg' = outstanding lg;
  rec_committing : committing lg' = committing lg;
  rec_where : start lg' = start lg /\ ldev lg' = ldev lg;
  rec_disk : disk a' = disk a /\ hist a' = hist a;
  rec_handles : handles a' = handles a;
  rec_content : forall x, content a' x = content a x;
}.

Lemma log_write_run k a h b c : let lg := lgs k in
  log_inv lg a -> babs (blks k) a -> block_locks pid c -> LLog ∉ held c ->
  handles a !! h = Some b -> 0 <= b < 2 ^ 31 -> ~ in_log lg b -> 1 <= outstanding lg -> lh_n lg < LOGBLOCKS ->
  exists c' k' a', log_write h c k = Ok tt c' k' /\ babs (blks k') a' /\ same_locks c c' /\
    log_inv (lgs k') a' /\ recorded lg a b (lgs k') a'.
Proof.
  intros lg Hi Ha Hc Hl Hh Hb Hnl Ho Hn. pose proof (li_wf _ _ Hi) as Hw. destruct (wf_n _ Hw) as [H0 _].
  destruct (b_data_law _ _ _ _ Ha Hh) as [_ Hbn]. set (r := absorb_loop (Z.to_nat (lh_n lg)) 0 lg b).
  assert (log_write h c k = (mod_log (set_lh_block r b);;
    (if r =? lh_n lg then blk (bpin h);; mod_log (set_lh_n (lh_n lg + 1)) else mret tt);; release LLog) (hold LLog c) k) as ->.
  { unfold log_write. rewrite (bind_ok _ _ _ _ _ _ _ (acquire_ok LLog c k Hl)).
    rewrite (bind_ok _ _ (hold LLog c) k lg (hold LLog c) k) by done.
    destruct (Z.leb_spec LOGBLOCKS (lh_n lg)) as [?|_]; [lia|]. destruct (Z.ltb_spec (outstanding lg) 1) as [?|_]; [lia|].
    rewrite (bind_ok _ _ (hold LLog c) k b (hold LLog c) k) by (unfold gets; by rewrite Hbn).
    by rewrite (i32_id b) by lia. }
  rewrite (bind_ok _ _ _ _ tt (hold LLog c) (upd_log (set_lh_block r b) k)) by done.
  destruct (absorb_loop_spec (Z.to_nat (lh_n lg)) 0 lg b) as [[Hr Hrb]|[Hr Hrb]]; [lia..| |]; fold r in Hr, Hrb.
  - assert (logged lg b) as Hlb by (by exists r). destruct (Z.eqb_spec r (lh_n lg)) as [?|_]; [lia|].
    rewrite (bind_ok _ _ (hold LLog c) _ tt (hold LLog c) (upd_log (set_lh_block r b) k)) by done.
    rewrite release_ok by done.
    assert (forall j, 0 <= j < lh_n lg -> lh_blk (set_lh_block r b lg) j = lh_blk lg j) as Eb.
    { intros j Hj. unfold lh_blk at 1. cbn [set_lh_block lh_block]. rewrite lookup_insert. case_decide; [subst j|done].
      cbn [default]. by rewrite <- Hrb, bno_eq. }
    eexists c, _, a. split; [done|]. cbn [upd_log lgs blks]. fold lg.
    split_and!; [done|by apply same_locks_refl|by apply (log_inv_ext lg)|].
    split; try done; [|rewrite decide_True by done; cbn; lia].
    intros x. rewrite (logged_ext lg) by done. split; [by right|by intros [->|?]].
  - assert (~ logged lg b) as Hng by (intros (j & Hj & E); by apply (Hrb j)).
    rewrite Hr, Z.eqb_refl.
    destruct (bpin_law (blks k) a h b (hold LLog c) Ha (block_locks_hold c Hc) Hh) as (c1 & s1 & Hr1 & Hs1 & Ha1).
    { rewrite (li_unpinned _ _ Hi b Hng). lia. }
    destruct (release_same LLog c c1 (FsState (append_blk lg b) s1) Hl Hs1) as (c2 & Hr2 & Hs2).
    exists c2, (FsState (append_blk lg b) s1), (a_pin b (npins a b + 1) a). split.
    + rewrite (bind_ok _ _ _ _ tt c1 (FsState (append_blk lg b) s1)); [done|].
      rewrite (bind_ok _ _ _ _ tt c1 (set_blks s1 (upd_log (set_lh_block (lh_n lg) b) k))) by (by apply blk_ok). done.
    + cbn [lgs blks]. split_and!; try done.
      * apply (log_inv_append _ _ h); try done. by eapply babs_open_dirty.
      * split; try done; [intros x; by apply logged_append|by rewrite decide_False].
Qed.

(** C13: [log_write] of an open buffer records its block in the transaction. A
    block that is already in the header is absorbed; a new one is appended and
    its buffer pinned. The contents of all blocks, the disk and the open
    buffers stay as they are, and the invariant of the log is preserved. *)
Theorem log_write_spec k a h b c : let lg := lgs k in
  log_inv lg a -> babs (blks k) a -> block_locks pid c ->
  handles a !! h = Some b -> 0 <= b < 2 ^ 31 -> ~ in_log lg b ->
  (LLog ∉ held c -> 1 <= outstanding lg -> lh_n lg < LOGBLOCKS ->
   exists c' k' a', log_write h c k = Ok tt c' k' /\ babs (blks k') a' /\ same_locks c c' /\
     log_inv (lgs k') a' /\ recorded lg a b (lgs k') a') /\
  (LLog ∉ held c -> LOGBLOCKS <= lh_n lg -> log_write h c k = Panic "too big a transaction") /\
  (LLog ∉ held c -> lh_n lg < LOGBLOCKS -> outstanding lg < 1 -> log_write h c k = Panic "log_write outside of trans").
Proof.
  intros lg Hi Ha Hc Hh Hb Hnl. split_and!.
  - intros Hl Ho Hn. by apply (log_write_run k a h b c).
  - intros Hl Hn. unfold log_write. rewrite (bind_ok _ _ _ _ _ _ _ (acquire_ok LLog c k Hl)).
    rewrite (bind_ok _ _ (hold LLog c) k lg (hold LLog c) k) by done. apply Z.leb_le in Hn. by rewrite Hn.
  - intros Hl Hn Ho. unfold log_write. rewrite (bind_ok _ _ _ _ _ _ _ (acquire_ok LLog c k Hl)).
    rewrite (bind_ok _ _ (hold LLog c) k lg (hold LLog c) k) by done.
    destruct (Z.leb_spec LOGBLOCKS (lh_n lg)); [lia|]. apply Z.ltb_lt in Ho. by rewrite Ho.
Qed.

(** ** begin_op *)

Definition log_room (lg : logst) : bool := lh_n lg + (outstanding lg + 1) * MAXOPBLOCKS <=? LOGBLOCKS.

Lemma begin_op_ok fuel (k : fsstate St) c : LLog ∉ held c -> committing (lgs k) = false -> log_room (lgs k) = true ->
  begin_op (S fuel) c k = Ok tt c (upd_log (set_outstanding (outstanding (lgs k) + 1)) k).
Proof.
  intros Hl Hcm Hr. unfold begin_op. rewrite (bind_ok _ _ _ _ _ _ _ (acquire_ok LLog c k Hl)). cbn [begin_op_loop].
  rewrite (bind_ok _ _ (hold LLog c) k (lgs k) (hold LLog c) k), Hcm by done.
  unfold log_room in Hr. rewrite Z.ltb_antisym, Hr. cbn [negb].
  rewrite (bind_ok _ _ _ _ tt (hold LLog c) (upd_log (set_outstanding (outstanding (lgs k) + 1)) k)) by done.
  by apply release_ok.
Qed.

(** [begin_op] admits an operation exactly when no commit is running and the
    log has room for [MAXOPBLOCKS] blocks of it and of every operation already
    admitted. Otherwise it sleeps on the log with nothing changed and the lock
    released, and when woken it starts over. *)
Theorem begin_op_spec fuel (k : fsstate St) c : let lg := lgs k in
  LLog ∉ held c ->
  (committing lg = false -> log_room lg = true ->
     begin_op (S fuel) c k = Ok tt c (upd_log (set_outstanding (outstanding lg + 1)) k)) /\
  (held c = ∅ -> committing lg = true \/ log_room lg = false ->
     begin_op (S fuel) c k = Blocked (WSleep ChLog LLog) c k (begin_op fuel)).
Proof.
  intros lg Hl. split; [by apply begin_op_ok|].
  unfold begin_op at 1. rewrite (bind_ok _ _ _ _ _ _ _ (acquire_ok LLog c k Hl)). cbn [begin_op_loop].
  rewrite (bind_ok _ _ (hold LLog c) k lg (hold LLog c) k) by done.
  assert ((LOGBLOCKS <? lh_n lg + (outstanding lg + 1) * MAXOPBLOCKS) = negb (log_room lg)) as -> by
    (unfold log_room; by rewrite Z.ltb_antisym).
  intros He Hn. assert (@sleep (fsstate St) ChLog LLog (hold LLog c) k = Blocked (WSleep ChLog LLog) c k (acquire LLog)) as Hs.
    { unfold sleep. rewrite !decide_True; [by rewrite unhold_hold| |set_solver]. rewrite held_hold. set_solver. }
    destruct (committing lg); cbn iota; [by rewrite (bind_blocked _ _ _ _ _ _ _ _ Hs)|].
    destruct Hn as [?|Hn]; [done|]. rewrite Hn. cbn [negb]. by rewrite (bind_blocked _ _ _ _ _ _ _ _ Hs).
Qed.

(** ** end_op *)

(** The tail of the last [end_op]. *)
Lemma end_op_finish (k : fsstate St) c : LLog ∉ held c ->
  exists c', (acquire LLog;; mod_log (set_committing false);; wakeup ChLog;; release LLog) c k =
    Ok tt c' (upd_log (set_committing false) k) /\ same_locks c c'.
Proof.
  intros Hl. rewrite (bind_ok _ _ _ _ _ _ _ (acquire_ok LLog c k Hl)).
  rewrite (bind_ok _ _ _ _ tt (hold LLog c) (upd_log (set_committing false) k)) by done.
  destruct (release_same LLog c (Ctx (held (hold LLog c)) (trace c ++ [EvWakeup ChLog]) (me c) (mypid c))
    (upd_log (set_committing false) k) Hl) as (c2 & Hr & Hs); [done|]. exists c2. split; [|done].
  by rewrite (bind_ok _ _ _ _ _ _ _ (eq_refl : wakeup ChLog (hold LLog c) _ = Ok tt _ _)).
Qed.

(** The first part of [end_op], up to the release of the lock. *)
Lemma end_op_begin (k : fsstate St) c : let lg := lgs k in LLog ∉ held c -> committing lg = false ->
  exists c', same_locks c c' /\ end_op c k =
    if outstanding lg - 1 =? 0 then
      (commit;; acquire LLog;; mod_log (set_committing false);; wakeup ChLog;; release LLog) c'
        (upd_log (fun lg => set_committing true (set_outstanding (outstanding lg - 1) lg)) k)
    else Ok tt c' (upd_log (set_outstanding (outstanding lg - 1)) k).
Proof.
  intros lg Hl Hcm. unfold end_op. rewrite (bind_ok _ _ _ _ _ _ _ (acquire_ok LLog c k Hl)).
  rewrite (bind_ok _ _ (hold LLog c) k lg (hold LLog c) k) by done.
  set (k1 := upd_log (set_outstanding (outstanding lg - 1)) k).
  rewrite (bind_ok _ _ (hold LLog c) k tt (hold LLog c) k1) by done. rewrite Hcm.
  destruct (Z.eqb_spec (outstanding lg - 1) 0) as [Ho|Ho].
  - exists c. split; [by apply same_locks_refl|].
    rewrite (bind_ok _ _ (hold LLog c) k1 true (hold LLog c) (upd_log (set_committing true) k1)) by done.
    rewrite (bind_ok _ _ _ _ _ _ _ (release_ok LLog c _ Hl)). done.
  - set (c1 := Ctx (held (hold LLog c)) (trace c ++ [EvWakeup ChLog]) (me c) (mypid c)).
    destruct (release_same LLog c c1 k1 Hl) as (c2 & Hr & Hs); [done|]. exists c2. split; [done|].
    rewrite (bind_ok _ _ (hold LLog c) k1 false c1 k1) by done. rewrite (bind_ok _ _ _ _ _ _ _ Hr). done.
Qed.

(** A commit of everything the log holds. *)
Lemma commit_all k a c : let lg := lgs k in
  log_inv lg a -> quiet a -> 0 < lh_n lg < NBUF -> ldev lg = dev -> babs (blks k) a -> block_locks pid c ->
  head_n (dblock (disk a) (start lg)) = 0 ->
  exists c' s' a', commit c k = Ok tt c' (FsState (set_lh_n 0 lg) s') /\ babs s' a' /\ same_locks c c' /\
    quiet a' /\ dirty a' = ∅ /\ (forall b, npins a' b = 0%nat) /\
    (forall b, ~ in_log lg b -> dblock (disk a') b = content a b) /\ head_n (dblock (disk a') (start lg)) = 0.
Proof.
  intros lg Hi Hq Hn Hdev Ha Hc Hn0. pose proof (log_inv_tx lg a Hi Hq ltac:(lia)) as Ht.
  pose proof (li_wf _ _ Hi) as Hw.
  assert (0 < lh_n lg) as Hn1 by lia.
  destruct (commit_run k a _ c Ht Hn1 Hdev Ha Hc) as (c' & s' & Hs & Hr & Ha').
  assert (length (dblock (disk a) (start lg)) = Z.to_nat BSIZE) as Hlen.
  { rewrite <- content_clean by (apply (li_log _ _ Hi), start_in). by eapply babs_len. }
  eexists c', s', _. split; [exact Hr|]. split; [exact Ha'|]. fold lg. cbn [disk dirty].
  assert (forall b, logged lg b \/ dirty a !! b = None) as Hdb.
  { intros b. destruct (dirty a !! b) eqn:E; [left|by right].
    destruct (li_dirty _ _ Hi b) as [?|?]; [by rewrite E|done|by apply (quiet_not_open a b) in Hq]. }
  split_and!; try done.
  - apply map_eq. intros b. rewrite lookup_empty. destruct (Hdb b) as [(j & Hj & <-)|E]; [apply dels_in; lia|by apply dels_none].
  - intros b. unfold npins. cbn [pins]. destruct (decide (logged lg b)) as [(j & Hj & <-)|Hb]; [apply unpins_in; lia|].
    by apply unpins_zero, (li_unpinned _ _ Hi).
  - intros b Hb. destruct (commit_phase3 lg (fun j => content a (bno lg j)) (disk a) b Hw Hlen Hb) as (_ & _ & _ & ->).
    destruct (decide (logged lg b)) as [(j & Hj & <-)|Hng]; [by rewrite home_ws_read by (done || lia)|].
    destruct (Hdb b) as [?|E]; [done|]. rewrite content_clean by done. apply disk_writes_other.
    intros w (j & Hj & ->)%home_ws_in E'. apply Hng. exists j. split; [lia|done].
  - apply (commit_phase3 lg _ (disk a) (2 ^ 32)); [done..|]. unfold in_log. pose proof (wf_start _ Hw). lia.
Qed.

Lemma log_inv_empty lg lg' a : log_wf lg -> start lg' = start lg -> lh_n lg' = 0 -> dirty a = ∅ ->
  (forall b, npins a b = 0%nat) -> log_inv lg' a.
Proof.
  intros Hw Es En Hd Hp. assert (forall b, ~ logged lg' b) as Hno by (intros b (j & Hj & _); lia).
  split.
  - split; rewrite ?En, ?Es; [apply Hw|unfold LOGBLOCKS, MAXOPBLOCKS; lia|intros; lia..].
  - by intros b ?%Hno.
  - intros b _. apply Hp.
  - intros b. rewrite Hd, lookup_empty. by intros [].
  - intros b _. by rewrite Hd.
Qed.

(** The last [end_op], with something or nothing to commit. *)
Lemma commit_last k a c : let lg := lgs k in
  log_inv lg a -> quiet a -> lh_n lg < NBUF -> ldev lg = dev -> babs (blks k) a -> block_locks pid c ->
  head_n (dblock (disk a) (start lg)) = 0 ->
  exists c' s' a', commit c k = Ok tt c' (FsState (set_lh_n 0 lg) s') /\ babs s' a' /\ same_locks c c' /\
    quiet a' /\ dirty a' = ∅ /\ (forall b, npins a' b = 0%nat) /\
    (forall b, ~ in_log lg b -> dblock (disk a') b = content a b) /\ head_n (dblock (disk a') (start lg)) = 0.
Proof.
  intros lg Hi Hq Hn Hdev Ha Hc Hn0. pose proof (wf_n _ (li_wf _ _ Hi)) as Hwn.
  destruct (decide (lh_n lg = 0)) as [E|E]; [|apply commit_all; try done; fold lg; lia].
  assert (dirty a = ∅) as Hd.
  { apply map_size_empty_inv. pose proof (log_inv_size lg a Hi Hq). lia. }
  exists c, (blks k), a. split_and!; try done.
  - unfold commit. rewrite (bind_ok _ _ c k (lh_n lg) c k) by done. rewrite E.
    change (0 <? 0) with false. cbn iota. destruct k as [lg0 s0]. unfold lg in *. cbn [lgs blks] in *.
    destruct lg0. cbn in *. by subst.
  - intros b. apply (li_unpinned _ _ Hi). intros (j & Hj & _). lia.
  - intros b _. unfold content. by rewrite Hd.
Qed.

(** With [NBUF] blocks in the log every buffer is pinned, and the first [bread]
    of [write_log] finds none for the log block. *)
Lemma commit_full k a c : let lg := lgs k in
  log_inv lg a -> quiet a -> lh_n lg = NBUF -> ldev lg = dev -> babs (blks k) a -> block_locks pid c ->
  commit c k = Panic "bget: no buffers".
Proof.
  intros lg Hi Hq Hn Hdev Ha Hc. pose proof (wf_start _ (li_wf _ _ Hi)) as Hst.
  assert (u32 (start lg + 0 + 1) = start lg + 1) as Eu by (rewrite u32_id; unfold LOGBLOCKS, MAXOPBLOCKS in Hst; lia).
  assert (in_log lg (start lg + 1)) as Hin by (unfold in_log, LOGBLOCKS, MAXOPBLOCKS; lia).
  unfold commit. rewrite (bind_ok _ _ c k (lh_n lg) c k), Hn by done. change (0 <? NBUF) with true. cbn iota.
  apply bind_panic. unfold write_log. rewrite (bind_ok _ _ c k (lh_n lg) c k), Hn by done.
  change (Z.to_nat NBUF) with (S (Nat.pred (Z.to_nat NBUF))). cbn [write_log_loop].
  rewrite (bind_ok _ _ c k lg c k) by done. apply bind_panic. unfold blk, zoom. rewrite Eu, Hdev.
  rewrite (bread_full_law (blks k) a (start lg + 1) c Ha Hc); [done|unfold LOGBLOCKS, MAXOPBLOCKS in Hst; lia|by apply quiet_not_open|].
  rewrite union_comm_L, size_union_alt, size_singleton, difference_disjoint_L.
  - rewrite size_dom. pose proof (log_inv_size lg a Hi Hq). lia.
  - intros x Hx ->%elem_of_singleton. apply elem_of_dom in Hx. rewrite (li_log _ _ Hi _ Hin) in Hx. by destruct Hx.
Qed.

(** C12: the end of an operation. While others are outstanding it only gives its
    reservation back. The last one, when no buffer is in use, commits: it
    returns with the log empty, no block pinned, and the disk holding what
    every block reads as; this takes a buffer that the log does not pin, so that
    with [NBUF] blocks logged it panics instead. An [end_op] during a commit
    panics. *)
Theorem end_op_spec k a c : let lg := lgs k in
  log_inv lg a -> babs (blks k) a -> block_locks pid c -> LLog ∉ held c ->
  ldev lg = dev -> head_n (dblock (disk a) (start lg)) = 0 ->
  1 <= outstanding lg -> (outstanding lg = 1 -> quiet a) ->
  (committing lg = true -> end_op c k = Panic "log.committing") /\
  (committing lg = false -> outstanding lg = 1 -> lh_n lg = NBUF -> end_op c k = Panic "bget: no buffers") /\
  (committing lg = false -> (outstanding lg = 1 -> lh_n lg < NBUF) -> exists c' k' a', end_op c k = Ok tt c' k' /\ babs (blks k') a' /\ same_locks c c' /\
    outstanding (lgs k') = outstanding lg - 1 /\ committing (lgs k') = false /\ log_inv (lgs k') a' /\
    head_n (dblock (disk a') (start lg)) = 0 /\
    (forall b, ~ in_log lg b -> content a' b = content a b) /\
    (1 < outstanding lg -> a' = a /\ lh_n (lgs k') = lh_n lg) /\
    (outstanding lg = 1 -> lh_n (lgs k') = 0 /\ forall b, ~ in_log lg b -> dblock (disk a') b = content a b)).
Proof.
  intros lg Hi Ha Hc Hl Hdev Hn0 Ho Hq. split_and!.
  { intros Hcm. unfold end_op. rewrite (bind_ok _ _ _ _ _ _ _ (acquire_ok LLog c k Hl)).
    rewrite (bind_ok _ _ (hold LLog c) k lg (hold LLog c) k) by done.
    rewrite (bind_ok _ _ (hold LLog c) k tt (hold LLog c) (upd_log (set_outstanding (outstanding lg - 1)) k)) by done.
    by rewrite Hcm. }
  { intros Hcm Ho1 Hn. destruct (end_op_begin k c Hl Hcm) as (c1 & Hs1 & ->). fold lg. rewrite Ho1. change (1 - 1 =? 0) with true.
    cbn iota. apply bind_panic. apply (commit_full _ a); [|by apply Hq|done..|].
    - by apply (log_inv_ext lg).
    - by eapply block_locks_same. }
  intros Hcm Hn. destruct (end_op_begin k c Hl Hcm) as (c1 & Hs1 & ->). fold lg.
  destruct (Z.eqb_spec (outstanding lg - 1) 0) as [E|E].
  - set (k1 := upd_log _ k).
    destruct (commit_last k1 a c1) as (c2 & s2 & a2 & Hr2 & Ha2 & Hs2 & Hq2 & Hd2 & Hp2 & Hb2 & Hh2); try done.
    { by apply (log_inv_ext lg). }
    { apply Hq. lia. }
    { apply Hn. lia. }
    { by eapply block_locks_same. }
    assert (LLog ∉ held c2) as Hl2 by (destruct Hs1 as [Hh1 _], Hs2 as [-> _]; by rewrite Hh1).
    destruct (end_op_finish (FsState (set_lh_n 0 (lgs k1)) s2) c2 Hl2) as (c3 & Hr3 & Hs3).
    eexists c3, _, a2. split; [rewrite (bind_ok _ _ _ _ _ _ _ Hr2); exact Hr3|].
    split_and!; try done.
    + eapply same_locks_trans; [exact Hs1|]. by eapply same_locks_trans.
    + by apply (log_inv_empty lg); [apply Hi|..].
    + intros b Hb. unfold content at 1. rewrite Hd2, lookup_empty. by apply Hb2.
    + lia.
  - eexists c1, _, a. split; [done|]. split_and!; try done.
    + by apply (log_inv_ext lg).
    + lia.
Qed.

(** ** Reservations *)

(** A call that returns, perhaps after sleeping for buffers. Another process may
    use the block layer meanwhile, but not change the log: while the log is
    committing, [begin_op] sleeps. *)
Inductive ends {A} : outcome (fsstate St) A -> A -> ctx -> fsstate St -> Prop :=
  | ends_ok a c k : ends (Ok a c k) a c k
  | ends_wait w c s r c' s' a c2 k2 : lgs s' = lgs s -> ends (r c' s') a c2 k2 -> ends (Blocked w c s r) a c2 k2.

Lemma ends_bind {A B} (m : M (fsstate St) A) (f : A -> M (fsstate St) B) c k b c' k' : ends ((m ≫= f) c k) b c' k' ->
  exists a c1 k1, ends (m c k) a c1 k1 /\ ends (f a c1 k1) b c' k'.
Proof.
  unfold mbind, M_bind. generalize (m c k) as o. clear. intros o H. remember (obind f o) as p eqn:E.
  revert o E. induction H as [b c k|w c s r c1 s1 b c2 k2 Hl H IH]; intros [a0 c0 k0|?|w0 c0 s0 r0|] E; cbn [obind] in E; try done.
  - exists a0, c0, k0. split; [constructor|]. rewrite <- E. constructor.
  - exists a0, c0, k0. split; [constructor|]. rewrite <- E. by econstructor.
  - injection E as -> -> -> ->. destruct (IH _ eq_refl) as (a & c3 & k3 & H1 & H2).
    exists a, c3, k3. split; [by econstructor|done].
Qed.

(** Code that leaves [struct log] alone. *)
Definition keeps_log {A} (m : M (fsstate St) A) : Prop := forall c k a c' k', ends (m c k) a c' k' -> lgs k' = lgs k.

Lemma keeps_bind {A B} (m : M (fsstate St) A) (f : A -> M (fsstate St) B) :
  keeps_log m -> (forall a, keeps_log (f a)) -> keeps_log (m ≫= f).
Proof. intros Hm Hf c k b c' k' (a & c1 & k1 & H1 & H2)%ends_bind. by rewrite (Hf _ _ _ _ _ _ H2), (Hm _ _ _ _ _ H1). Qed.

Lemma keeps_blk {A} (m : M St A) : keeps_log (blk m).
Proof.
  intros c t a c' k'. unfold blk, zoom. generalize (m c (blks t)) as o. clear. intros o H.
  remember (ozoom blks set_blks t o) as p eqn:E. revert o t E.
  induction H as [a c k|w c s r c1 s1 a c2 k2 Hl H IH]; intros [a0 c0 s0|?|w0 c0 s0 r0|] t E; cbn [ozoom] in E; try done.
  - by injection E as -> -> ->.
  - injection E as -> -> -> ->. by rewrite (IH _ _ eq_refl), Hl.
Qed.

Lemma ends_ok_inv {A} (a : A) c k a' c' k' : ends (Ok a c k) a' c' k' -> a' = a /\ c' = c /\ k' = k.
Proof. by inversion 1. Qed.

Lemma keeps_ret {A} (a : A) : keeps_log (mret a).
Proof. by intros c k a' c' k' (_ & _ & ->)%ends_ok_inv. Qed.
Lemma keeps_gets {A} (f : fsstate St -> A) : keeps_log (gets f).
Proof. by intros c k a' c' k' (_ & _ & ->)%ends_ok_inv. Qed.
Lemma keeps_emit e : keeps_log (emit e).
Proof. by intros c k a' c' k' (_ & _ & ->)%ends_ok_inv. Qed.
Lemma keeps_set_buf b d : keeps_log (set_buf_data b d).
Proof. by intros c k a' c' k' (_ & _ & ->)%ends_ok_inv. Qed.

Ltac keeps := repeat first [apply keeps_blk | apply keeps_ret | apply keeps_gets | apply keeps_emit | apply keeps_set_buf
  | apply keeps_bind; [|intros ?] | case_match].

Lemma keeps_write_log : keeps_log write_log.
Proof.
  apply keeps_bind; [apply keeps_gets|]. intros n. generalize 0 as tail. induction (Z.to_nat n) as [|m IH]; intros tail; cbn [write_log_loop]; keeps.
  apply IH.
Qed.
Lemma keeps_install recovering : keeps_log (install_trans recovering).
Proof.
  apply keeps_bind; [apply keeps_gets|]. intros n. generalize 0 as tail.
  induction (Z.to_nat n) as [|m IH]; intros tail; cbn [install_trans_loop]; keeps; apply IH.
Qed.
Lemma keeps_write_head : keeps_log write_head.
Proof. unfold write_head. keeps. Qed.

Lemma commit_ends c k c' k' : ends (commit c k) tt c' k' -> lgs k' = if 0 <? lh_n (lgs k) then set_lh_n 0 (lgs k) else lgs k.
Proof.
  unfold commit. rewrite (bind_ok _ _ c k (lh_n (lgs k)) c k) by done.
  destruct (0 <? lh_n (lgs k)); [|by intros (_ & _ & ->)%ends_ok_inv].
  intros ([] & c1 & k1 & H1 & ([] & c2 & k2 & H2 & ([] & c3 & k3 & H3 & ([] & c4 & k4 & H4 & H5)%ends_bind)%ends_bind)%ends_bind)%ends_bind.
  apply ends_ok_inv in H4 as (_ & _ & ->). rewrite (keeps_write_head _ _ _ _ _ H5). cbn [upd_log lgs].
  by rewrite (keeps_install _ _ _ _ _ _ H3), (keeps_write_head _ _ _ _ _ H2), (keeps_write_log _ _ _ _ _ H1).
Qed.

(** [bs] has, for each admitted operation, the number of calls of [log_write]
    that are left to it. *)
Definition reserved (lg : logst) (bs : list nat) : Prop :=
  outstanding lg = Z.of_nat (length bs) /\ Forall (fun r => Z.of_nat r <= MAXOPBLOCKS) bs /\
  lh_n lg + Z.of_nat (sum_list bs) <= LOGBLOCKS.

(** The states of a log in use from the one [initlog] leaves, when every
    operation calls [log_write] at most [MAXOPBLOCKS] times: operations begin,
    write and end in any order, and the block layer is used in between. *)
Inductive log_reach : fsstate St -> list nat -> Prop :=
  | lr_start k : outstanding (lgs k) = 0 -> committing (lgs k) = false -> lh_n (lgs k) = 0 -> log_reach k []
  | lr_begin fuel k bs c c' k' : log_reach k bs -> begin_op fuel c k = Ok tt c' k' ->
      log_reach k' (Z.to_nat MAXOPBLOCKS :: bs)
  | lr_write k l r l' h c c' k' : log_reach k (l ++ S r :: l') -> ends (log_write h c k) tt c' k' ->
      log_reach k' (l ++ r :: l')
  | lr_end k l r l' c c' k' : log_reach k (l ++ r :: l') -> ends (end_op c k) tt c' k' -> log_reach k' (l ++ l')
  | lr_other k bs k' : log_reach k bs -> lgs k' = lgs k -> log_reach k' bs.

Lemma sum_list_le bs m : Forall (fun r => Z.of_nat r <= m) bs -> Z.of_nat (sum_list bs) <= Z.of_nat (length bs) * m.
Proof. induction 1 as [|r bs Hr _ IH]; [done|]. cbn [sum_list length]. simpl. lia. Qed.

Lemma acquire_inv (l : lock) c (k : fsstate St) c' k' : ends (acquire l c k) tt c' k' -> c' = hold l c /\ k' = k /\ l ∉ held c.
Proof. unfold acquire. case_decide; [by inversion 1|]. by intros (_ & -> & ->)%ends_ok_inv. Qed.

Lemma release_inv (l : lock) c (k : fsstate St) c' k' : ends (release l c k) tt c' k' -> k' = k.
Proof. unfold release. case_decide; [|by inversion 1]. by intros (_ & _ & ->)%ends_ok_inv. Qed.

Lemma begin_op_ends fuel c (k : fsstate St) c' k' : begin_op fuel c k = Ok tt c' k' ->
  log_room (lgs k) = true /\ committing (lgs k) = false /\ lgs k' = set_outstanding (outstanding (lgs k) + 1) (lgs k).
Proof.
  intros H. assert (ends (begin_op fuel c k) tt c' k') as H1 by (rewrite H; constructor).
  apply ends_bind in H1 as ([] & c1 & k1 & (-> & -> & Hl)%acquire_inv & _). unfold begin_op in H. mstep (acquire_ok LLog c k Hl) in H.
  destruct fuel as [|fuel]; [done|]. cbn [begin_op_loop] in H. rewrite (bind_ok _ _ _ _ (lgs k) (hold LLog c) k) in H by done.
  assert (forall m : M (fsstate St) unit, (sleep ChLog LLog;; m) (hold LLog c) k <> Ok tt c' k') as Hs.
  { intros m. unfold sleep, mbind, M_bind. repeat case_decide; done. }
  destruct (committing (lgs k)); [by apply Hs in H|].
  destruct (Z.ltb_spec LOGBLOCKS (lh_n (lgs k) + (outstanding (lgs k) + 1) * MAXOPBLOCKS)); [by apply Hs in H|].
  unfold log_room. split; [by apply Z.leb_le|]. split; [done|].
  rewrite (bind_ok _ _ _ _ tt (hold LLog c) (upd_log (set_outstanding (outstanding (lgs k) + 1)) k)), release_ok in H by done.
  by injection H as <- <-.
Qed.

Lemma log_write_ends h c (k : fsstate St) c' k' : ends (log_write h c k) tt c' k' ->
  outstanding (lgs k') = outstanding (lgs k) /\ committing (lgs k') = committing (lgs k) /\ lh_n (lgs k') <= lh_n (lgs k) + 1.
Proof.
  intros ([] & c1 & k1 & (-> & -> & Hl)%acquire_inv & H)%ends_bind. rewrite (bind_ok _ _ _ _ (lgs k) (hold LLog c) k) in H by done.
  destruct (LOGBLOCKS <=? lh_n (lgs k)); [by inversion H|]. destruct (outstanding (lgs k) <? 1); [by inversion H|].
  rewrite (bind_ok _ _ _ _ (b_blockno (blks k) h) (hold LLog c) k) in H by done. set (i := absorb_loop _ _ _ _) in H.
  rewrite (bind_ok _ _ _ _ tt (hold LLog c) (upd_log (set_lh_block i (i32 (b_blockno (blks k) h))) k)) in H by done.
  apply ends_bind in H as ([] & c2 & k2 & H & ->%release_inv). destruct (i =? lh_n (lgs k)).
  - apply ends_bind in H as ([] & c3 & k3 & H3 & (_ & _ & ->)%ends_ok_inv). cbn [upd_log lgs]. rewrite (keeps_blk _ _ _ _ _ _ H3). cbn. split_and!; try done; lia.
  - apply ends_ok_inv in H as (_ & _ & ->). cbn. split_and!; try done; lia.
Qed.

Lemma end_op_ends c (k : fsstate St) c' k' : ends (end_op c k) tt c' k' -> committing (lgs k) = false ->
  outstanding (lgs k') = outstanding (lgs k) - 1 /\ committing (lgs k') = false /\
  lh_n (lgs k') <= (if outstanding (lgs k) =? 1 then 0 else lh_n (lgs k)).
Proof.
  intros H Hcm. pose proof H as ([] & c1 & k1 & (-> & -> & Hl)%acquire_inv & _)%ends_bind.
  destruct (end_op_begin k c Hl Hcm) as (c1 & _ & E). rewrite E in H. clear E.
  replace (outstanding (lgs k) =? 1) with (outstanding (lgs k) - 1 =? 0) by lia.
  destruct (outstanding (lgs k) - 1 =? 0); [|by apply ends_ok_inv in H as (_ & _ & ->)].
  apply ends_bind in H as ([] & c2 & k2 & H2%commit_ends & ([] & c3 & k3 & (_ & -> & _)%acquire_inv & H3)%ends_bind).
  apply ends_bind in H3 as ([] & c4 & k4 & (_ & _ & ->)%ends_ok_inv & H4).
  apply ends_bind in H4 as ([] & c5 & k5 & (_ & _ & ->)%ends_ok_inv & ->%release_inv). cbn [upd_log lgs]. rewrite H2. cbn.
  destruct (Z.ltb_spec 0 (lh_n (lgs k))); cbn; split_and!; try done; lia.
Qed.

Lemma log_reach_inv k bs : log_reach k bs -> reserved (lgs k) bs /\ committing (lgs k) = false.
Proof.
  induction 1 as [k Ho Hc Hn|fuel k bs c c' k' _ [(Ho & Hb & Hn) Hcm] Hr|k l r l' h c c' k' _ [(Ho & Hb & Hn) Hcm] Hr
    |k l r l' c c' k' _ [(Ho & Hb & Hn) Hcm] Hr|k bs k' _ IH E].
  - split; [|done]. split_and!; [done|constructor|]. rewrite Hn. done.
  - apply begin_op_ends in Hr as (Hroom & _ & E). unfold log_room in Hroom. apply Z.leb_le in Hroom.
    pose proof (sum_list_le _ _ Hb). split; [|by rewrite E]. unfold reserved. rewrite E. cbn [set_outstanding outstanding lh_n length].
    split_and!; [lia|by constructor|]. change (sum_list (?x :: ?l)) with (x + sum_list l)%nat. unfold LOGBLOCKS, MAXOPBLOCKS in *. lia.
  - apply log_write_ends in Hr as (Eo & Ec & Hle). split; [|congruence]. rewrite sum_list_with_app in Hn. cbn in Hn.
    apply Forall_app in Hb as [Hb1 [Hb2 Hb3]%Forall_cons]. rewrite length_app in Ho. cbn [length] in Ho.
    split_and!; [rewrite Eo, length_app; cbn [length]; lia|apply Forall_app; split; [done|constructor; [lia|done]]|].
    rewrite sum_list_with_app. cbn. lia.
  - destruct (end_op_ends _ _ _ _ Hr Hcm) as (Eo & Ec & Hle). split; [|done]. rewrite sum_list_with_app in Hn. cbn in Hn.
    apply Forall_app in Hb as [Hb1 [Hb2 Hb3]%Forall_cons]. rewrite length_app in Ho. cbn [length] in Ho.
    split_and!; [rewrite Eo, length_app; lia|by apply Forall_app|]. rewrite sum_list_with_app.
    destruct (Z.eqb_spec (outstanding (lgs k)) 1) as [E|_]; [|lia].
    destruct l; [|cbn in *; lia]. destruct l'; [|cbn in *; lia]. cbn. unfold LOGBLOCKS, MAXOPBLOCKS. lia.
  - rewrite E. exact IH.
Qed.

(** C14: reservations hold. In every state that a log in use reaches when each
    operation calls [log_write] at most [MAXOPBLOCKS] times, the blocks logged
    and the calls that are left to the admitted operations fit in the log; so
    [log_write] of an operation with calls left, on an open buffer of a block
    outside the log, returns: it finds neither the transaction too big nor no
    operation outstanding. *)
Theorem log_reservation k bs : log_reach k bs ->
  reserved (lgs k) bs /\ committing (lgs k) = false /\
  forall l r l' a h b c, bs = l ++ S r :: l' ->
    log_inv (lgs k) a -> babs (blks k) a -> block_locks pid c -> LLog ∉ held c ->
    handles a !! h = Some b -> 0 <= b < 2 ^ 31 -> ~ in_log (lgs k) b ->
    exists c' k' a', log_write h c k = Ok tt c' k' /\ log_reach k' (l ++ r :: l') /\
      log_inv (lgs k') a' /\ babs (blks k') a' /\ recorded (lgs k) a b (lgs k') a'.
Proof.
  intros Hk. destruct (log_reach_inv _ _ Hk) as [Hres Hcm]. split; [done|]. split; [done|].
  intros l r l' a h b c -> Hi Ha Hc Hl Hh Hb Hnl. destruct Hres as (Ho & _ & Hn).
  rewrite length_app in Ho. rewrite sum_list_with_app in Hn. cbn in Ho, Hn.
  destruct (log_write_run k a h b c) as (c' & k' & a' & Hr & Ha' & _ & Hi' & Hrec); try done; try lia.
  exists c', k', a'. split_and!; try done. eapply lr_write; [exact Hk|]. rewrite Hr. constructor.
Qed.
End ops.
