(* ===== verification/LogDemo.v ===== *)
(** * The log on the buffer cache

    The hypotheses of the theorems on the log hold in a state that the buffer
    cache reaches: an empty disk with the log at block 2, block 50 written in a
    transaction. *)

From S2P Require Import Prelude Riscv Mem Sleeplock Block Bio BioList BioRep BioProps.
From S2P Require Import Log LogSteps LogSafe LogCrash LogOps.

Module Demo.
#[local] Instance log_wakes : Wakes := {| wakes := 1 |}.
Definition lg0 : logst := Log 2 1 false 1 0 ∅.
Definition c0 : ctx := Ctx ∅ [] 0 1.
Definition a0 : bstate := BState ∅ [] ∅ ∅ ∅.

Lemma log_demo_locks : block_locks 1 c0.
Proof. by split_and!. Qed.

Lemma lg0_wf : log_wf lg0.
Proof. split; cbn; [unfold LOGBLOCKS, MAXOPBLOCKS; lia|unfold LOGBLOCKS, MAXOPBLOCKS; lia|lia|lia]. Qed.

Lemma lg0_inv : log_inv lg0 a0.
Proof. by apply (log_inv_empty lg0); [apply lg0_wf|..]. Qed.

Lemma empty_head st : head_n (dblock ∅ st) = 0.
Proof. reflexivity. Qed.

Lemma cache0 : exists s, bio_abs 1 1 s a0.
Proof.
  destruct (binit_run 1 1 ∅ c0) as (s & _ & _ & Ha); [done| |by exists s].
  intros b. unfold dblock. rewrite lookup_empty. apply length_replicate.
Qed.

(** Block 50 is open in a transaction. *)
Lemma open50 : exists s h, bio_abs 1 1 s (a_open h 50 a0) /\ log_inv lg0 (a_open h 50 a0).
Proof.
  destruct cache0 as (s & Ha). destruct (bread_run 1 1 s a0 50 c0 Ha log_demo_locks) as (h & _ & s' & _ & _ & Hn & Ha').
  - by intros [h Hh].
  - vm_compute. lia.
  - exists s', h. split; [done|]. apply log_inv_open; [apply lg0_inv| |done]. unfold in_log, lg0, LOGBLOCKS, MAXOPBLOCKS. cbn. lia.
Qed.

(** Block 50 is logged and closed. *)
Lemma logged50 : exists (k : fsstate bcache) a, bio_abs 1 1 (blks k) a /\ log_inv (lgs k) a /\ quiet a /\
  lh_n (lgs k) = 1 /\ start (lgs k) = 2 /\ ldev (lgs k) = 1 /\ outstanding (lgs k) = 1 /\ committing (lgs k) = false /\ disk a = ∅.
Proof.
  destruct open50 as (s & h & Ha & Hi). assert (handles (a_open h 50 a0) !! h = Some 50) as Hh by apply lookup_insert_eq.
  destruct (log_write_run (BL := bio_laws 1 1) (FsState lg0 s) (a_open h 50 a0) h 50 c0 Hi Ha log_demo_locks)
    as (c1 & k1 & a1 & _ & Ha1 & Hs1 & Hi1 & Hrec); try done.
  { unfold in_log, lg0, LOGBLOCKS, MAXOPBLOCKS. cbn. lia. }
  pose proof Hrec as [Hlg Hn Ho Hcm [Hst Hdv] [Hd _] Hhd _].
  assert (handles a1 !! h = Some 50) as Hh1 by (by rewrite Hhd).
  assert (npins a1 50 = 1%nat) as Hp by (apply Hi1, Hlg; by left).
  destruct (brelse_run 1 1 (blks k1) a1 h 50 c1 Ha1 (block_locks_same _ _ _ Hs1 log_demo_locks) Hh1) as (c2 & s2 & _ & _ & Ha2); [left; lia|].
  exists (FsState (lgs k1) s2), (a_close h 50 a1). cbn [lgs blks]. split_and!; try done.
  - by apply log_inv_close.
  - unfold quiet. cbn [a_close handles]. rewrite Hhd. cbn [a_open handles a0]. by rewrite delete_insert_id.
Qed.

Lemma commit_atomic_witness : exists (k k' : fsstate bcache) c', lh_n (lgs k) = 1 /\ commit c0 k = Ok tt c' k'.
Proof.
  destruct logged50 as (k & a & Ha & Hi & Hq & Hn & Hst & Hdv & _ & _ & Hd).
  destruct (commit_atomic (BL := bio_laws 1 1) k a (fun j => content a (bno (lgs k) j)) c0) as (c' & k' & a' & ws & Hr & _).
  - apply log_inv_tx; [exact Hi|exact Hq|rewrite Hn; reflexivity].
  - rewrite Hn. reflexivity.
  - exact Hdv.
  - exact Ha.
  - exact log_demo_locks.
  - rewrite Hd. reflexivity.
  - exists k, k', c'. split; assumption.
Defined.

Lemma initlog_recovers_witness : exists (s : bcache) c' k', initlog 1 2 c0 (FsState lg0 s) = Ok tt c' k'.
Proof.
  destruct cache0 as (s & Ha).
  destruct (initlog_recovers (BL := bio_laws 1 1) (FsState lg0 s) a0 c0 2) as (c' & k' & a' & ws & Hr & _).
  - apply log_disk_empty; [split; reflexivity|reflexivity].
  - split_and!; reflexivity.
  - exact Ha.
  - exact log_demo_locks.
  - exists s, c', k'. exact Hr.
Defined.

Lemma log_write_spec_witness : exists (s : bcache) h c' k', log_write h c0 (FsState lg0 s) = Ok tt c' k' /\ lh_n (lgs k') = 1.
Proof.
  destruct open50 as (s & h & Ha & Hi). assert (handles (a_open h 50 a0) !! h = Some 50) as Hh by apply lookup_insert_eq.
  destruct (log_write_spec (BL := bio_laws 1 1) (FsState lg0 s) (a_open h 50 a0) h 50 c0 Hi Ha log_demo_locks Hh) as [H _].
  - split; [discriminate|reflexivity].
  - unfold in_log, lg0, LOGBLOCKS, MAXOPBLOCKS. cbn. lia.
  - destruct H as (c' & k' & a' & Hr & _ & _ & _ & [_ Hn _ _ _ _ _ _]); [apply not_elem_of_empty|discriminate|reflexivity|].
    exists s, h, c', k'. split; [exact Hr|]. rewrite Hn. reflexivity.
Defined.

Lemma begin_op_spec_witness : exists k k' : fsstate bcache, begin_op 1 c0 k = Ok tt c0 k' /\ outstanding (lgs k') = 2.
Proof.
  destruct cache0 as (s & _). destruct (begin_op_spec 0 (FsState lg0 s) c0) as [H _]; [apply not_elem_of_empty|].
  exists (FsState lg0 s). eexists. split; [apply H; reflexivity|reflexivity].
Defined.

Lemma end_op_spec_witness : exists (k k' : fsstate bcache) c', end_op c0 k = Ok tt c' k' /\ lh_n (lgs k) = 1 /\ lh_n (lgs k') = 0.
Proof.
  destruct logged50 as (k & a & Ha & Hi & Hq & Hn & Hst & Hdv & Ho & Hcm & Hd).
  destruct (end_op_spec (BL := bio_laws 1 1) k a c0 Hi Ha log_demo_locks) as (_ & _ & H).
  - apply not_elem_of_empty.
  - exact Hdv.
  - rewrite Hd. reflexivity.
  - rewrite Ho. discriminate.
  - intros _. exact Hq.
  - destruct (H Hcm ltac:(intros _; rewrite Hn; reflexivity)) as (c' & k' & a' & Hr & _ & _ & _ & _ & _ & _ & _ & _ & H1). destruct (H1 Ho) as [H0 _].
    exists k, k', c'. split_and!; assumption.
Defined.

(** The same state as the log reaches it: [lg0] is the log after the first
    [begin_op]. *)
Lemma reach0 (s : bcache) : log_reach (FsState lg0 s) [Z.to_nat MAXOPBLOCKS].
Proof.
  apply (lr_begin 1 (FsState (Log 2 0 false 1 0 ∅) s) [] c0 c0).
  - by apply lr_start.
  - apply begin_op_ok; [apply not_elem_of_empty|done..].
Qed.

Lemma log_reservation_witness : exists (s : bcache) h c' k', log_write h c0 (FsState lg0 s) = Ok tt c' k'.
Proof.
  destruct open50 as (s & h & Ha & Hi). assert (handles (a_open h 50 a0) !! h = Some 50) as Hh by apply lookup_insert_eq.
  destruct (log_reservation (BL := bio_laws 1 1) (FsState lg0 s) _ (reach0 s)) as (_ & _ & H).
  destruct (H [] 9%nat [] (a_open h 50 a0) h 50 c0) as (c' & k' & a' & Hr & _).
  - reflexivity.
  - exact Hi.
  - exact Ha.
  - exact log_demo_locks.
  - apply not_elem_of_empty.
  - exact Hh.
  - split; [discriminate|reflexivity].
  - unfold in_log, lg0, LOGBLOCKS, MAXOPBLOCKS. cbn. lia.
  - exists s, h, c', k'. exact Hr.
Defined.
End Demo.
