(* ===== verification/State.v ===== *)
(** * The state of the kernel

    The in-memory structures of the kernel's components, each as the record of
    its C struct, and the state of the whole: physical memory with the
    allocator (file Kalloc), the log and the block layer (files Log and Block),
    and the tables of processes, inodes, open files and pipes, the console and
    the clock. Pointers to table entries are indices; the null pointer is -1.
    The block layer is a parameter, as in file Log. *)

From S2P Require Import Prelude Riscv Headers Mem Kalloc Vm Sleeplock Block Log.

Definition NULL : Z := -1.

(** ** kernel/fs.h *)

Definition ROOTINO : Z := 1.
Definition FSMAGIC : Z := 0x10203040.
Definition NDIRECT : Z := 12.
Definition NINDIRECT : Z := BSIZE / 4.
Definition MAXFILE : Z := NDIRECT + NINDIRECT.

(** [sizeof(struct dinode)] and [sizeof(struct dirent)]. *)
Definition DINODE : Z := 64.
Definition DIRENT : Z := 16.

Record superblock := SuperBlock {
  sb_magic : Z;
  sb_size : Z;
  sb_nblocks : Z;
  sb_ninodes : Z;
  sb_nlog : Z;
  sb_logstart : Z;
  sb_inodestart : Z;
  sb_bmapstart : Z;
}.

Definition IPB : Z := BSIZE / DINODE.
Definition IBLOCK (i : Z) (sb : superblock) : Z := u32 (i / IPB + sb_inodestart sb).
Definition BPB : Z := BSIZE * 8.
Definition BBLOCK (b : Z) (sb : superblock) : Z := u32 (b / BPB + sb_bmapstart sb).

(** ** kernel/file.h *)

Record inode := Inode {
  i_dev : Z;
  i_inum : Z;
  i_ref : Z;
  i_lock : sleeplock;
  i_valid : bool;
  i_type : Z;
  i_major : Z;
  i_minor : Z;
  i_nlink : Z;
  i_size : Z;
  i_addrs : list Z;
}.
Definition inode0 : inode := Inode 0 0 0 (SleepLock 0 0) false 0 0 0 0 0 (replicate 13 0).

Inductive fdtype := FD_NONE | FD_PIPE | FD_INODE | FD_DEVICE.
#[export] Instance fdtype_eq_dec : EqDecision fdtype.
Proof. solve_decision. Defined.

Record file := File {
  f_type : fdtype;
  f_ref : Z;
  f_readable : bool;
  f_writable : bool;
  f_pipe : Z;
  f_ip : Z;
  f_off : Z;
  f_major : Z;
}.
Definition file0 : file := File FD_NONE 0 false false 0 0 0 0.

(** ** kernel/pipe.c *)

Definition PIPESIZE : Z := 512.

Record pipe := Pipe {
  p_data : gmap Z Z;
  p_nread : Z;
  p_nwrite : Z;
  p_readopen : bool;
  p_writeopen : bool;
}.
Definition pipe0 : pipe := Pipe ∅ 0 0 false false.

(** ** kernel/proc.h *)

Inductive procstate := UNUSED | USED | SLEEPING | RUNNABLE | RUNNING | ZOMBIE.
#[export] Instance procstate_eq_dec : EqDecision procstate.
Proof. solve_decision. Defined.

Record proc := Proc {
  p_state : procstate;
  p_chan : option chan;
  p_killed : bool;
  p_xstate : Z;
  p_pid : Z;
  p_parent : option Z;
  p_kstack : Z;
  p_sz : Z;
  p_pagetable : Z;
  p_trapframe : Z;
  p_context : Z * Z;        (* ra and sp *)
  p_ofile : gmap Z Z;       (* descriptor to open file; absent is null *)
  p_cwd : Z;
  p_name : list Z;
}.
Definition proc0 : proc := Proc UNUSED None false 0 0 None 0 0 0 0 (0, 0) ∅ NULL [].

(** Fields of [struct trapframe], by their offsets. *)
Definition TF_kernel_satp : Z := 0.
Definition TF_kernel_sp : Z := 8.
Definition TF_kernel_trap : Z := 16.
Definition TF_epc : Z := 24.
Definition TF_kernel_hartid : Z := 32.
Definition TF_sp : Z := 48.
Definition TF_a0 : Z := 112.
Definition TF_a1 : Z := 120.
Definition TF_a2 : Z := 128.
Definition TF_a3 : Z := 136.
Definition TF_a4 : Z := 144.
Definition TF_a5 : Z := 152.
Definition TF_a7 : Z := 168.
Definition TF_SIZE : Z := 288.

(** ** kernel/console.c and kernel/uart.c *)

Definition INPUT_BUF_SIZE : Z := 128.

(** [cons]: the input buffer and the read, write and edit indices. *)
Record console := Console { c_buf : gmap Z Z; c_r : Z; c_w : Z; c_e : Z }.

(** The transmitter: [tx_busy], and the bytes sent so far. *)
Record uartst := Uart { tx_busy : bool; tx_sent : list Z }.

(** ** The whole *)

Record kernel (St : Type) := Kernel {
  pm : pmem;
  fsk : fsstate St;
  sb : superblock;
  itab : gmap Z inode;
  ftab : gmap Z file;
  pipes : gmap Z pipe;
  procs : gmap Z proc;
  nextpid : Z;
  initproc : option Z;
  ticks : Z;
  cons : console;
  uart : uartst;
  kfirst : bool;
}.
Arguments Kernel {St}.
Arguments pm {St}. Arguments fsk {St}. Arguments sb {St}. Arguments itab {St}. Arguments ftab {St}.
Arguments pipes {St}. Arguments procs {St}. Arguments nextpid {St}. Arguments initproc {St}.
Arguments ticks {St}. Arguments cons {St}. Arguments uart {St}. Arguments kfirst {St}.

Section state.
Context {St : Type}.

Definition set_pm (x : pmem) (k : kernel St) : kernel St :=
  Kernel x (fsk k) (sb k) (itab k) (ftab k) (pipes k) (procs k) (nextpid k) (initproc k) (ticks k) (cons k) (uart k) (kfirst k).
Definition set_fsk (x : fsstate St) (k : kernel St) : kernel St :=
  Kernel (pm k) x (sb k) (itab k) (ftab k) (pipes k) (procs k) (nextpid k) (initproc k) (ticks k) (cons k) (uart k) (kfirst k).
Definition set_sb (x : superblock) (k : kernel St) : kernel St :=
  Kernel (pm k) (fsk k) x (itab k) (ftab k) (pipes k) (procs k) (nextpid k) (initproc k) (ticks k) (cons k) (uart k) (kfirst k).
Definition set_itab (x : gmap Z inode) (k : kernel St) : kernel St :=
  Kernel (pm k) (fsk k) (sb k) x (ftab k) (pipes k) (procs k) (nextpid k) (initproc k) (ticks k) (cons k) (uart k) (kfirst k).
Definition set_ftab (x : gmap Z file) (k : kernel St) : kernel St :=
  Kernel (pm k) (fsk k) (sb k) (itab k) x (pipes k) (procs k) (nextpid k) (initproc k) (ticks k) (cons k) (uart k) (kfirst k).
Definition set_pipes (x : gmap Z pipe) (k : kernel St) : kernel St :=
  Kernel (pm k) (fsk k) (sb k) (itab k) (ftab k) x (procs k) (nextpid k) (initproc k) (ticks k) (cons k) (uart k) (kfirst k).
Definition set_procs (x : gmap Z proc) (k : kernel St) : kernel St :=
  Kernel (pm k) (fsk k) (sb k) (itab k) (ftab k) (pipes k) x (nextpid k) (initproc k) (ticks k) (cons k) (uart k) (kfirst k).
Definition set_nextpid (x : Z) (k : kernel St) : kernel St :=
  Kernel (pm k) (fsk k) (sb k) (itab k) (ftab k) (pipes k) (procs k) x (initproc k) (ticks k) (cons k) (uart k) (kfirst k).
Definition set_initproc (x : option Z) (k : kernel St) : kernel St :=
  Kernel (pm k) (fsk k) (sb k) (itab k) (ftab k) (pipes k) (procs k) (nextpid k) x (ticks k) (cons k) (uart k) (kfirst k).
Definition set_ticks (x : Z) (k : kernel St) : kernel St :=
  Kernel (pm k) (fsk k) (sb k) (itab k) (ftab k) (pipes k) (procs k) (nextpid k) (initproc k) x (cons k) (uart k) (kfirst k).
Definition set_cons (x : console) (k : kernel St) : kernel St :=
  Kernel (pm k) (fsk k) (sb k) (itab k) (ftab k) (pipes k) (procs k) (nextpid k) (initproc k) (ticks k) x (uart k) (kfirst k).
Definition set_uart (x : uartst) (k : kernel St) : kernel St :=
  Kernel (pm k) (fsk k) (sb k) (itab k) (ftab k) (pipes k) (procs k) (nextpid k) (initproc k) (ticks k) (cons k) x (kfirst k).
Definition set_kfirst (x : bool) (k : kernel St) : kernel St :=
  Kernel (pm k) (fsk k) (sb k) (itab k) (ftab k) (pipes k) (procs k) (nextpid k) (initproc k) (ticks k) (cons k) (uart k) x.

(** Table entries: what is read and how an entry is changed. *)
Definition inode_at (k : kernel St) (i : Z) : inode := default inode0 (itab k !! i).
Definition file_at (k : kernel St) (i : Z) : file := default file0 (ftab k !! i).
Definition pipe_at (k : kernel St) (i : Z) : pipe := default pipe0 (pipes k !! i).
Definition proc_at (k : kernel St) (i : Z) : proc := default proc0 (procs k !! i).

Definition upd_inode (i : Z) (f : inode -> inode) (k : kernel St) : kernel St := set_itab (<[i := f (inode_at k i)]> (itab k)) k.
Definition upd_file (i : Z) (f : file -> file) (k : kernel St) : kernel St := set_ftab (<[i := f (file_at k i)]> (ftab k)) k.
Definition upd_pipe (i : Z) (f : pipe -> pipe) (k : kernel St) : kernel St := set_pipes (<[i := f (pipe_at k i)]> (pipes k)) k.
Definition upd_proc (i : Z) (f : proc -> proc) (k : kernel St) : kernel St := set_procs (<[i := f (proc_at k i)]> (procs k)) k.

Abbreviation K := (M (kernel St)).

Definition the_inode {A} (i : Z) (f : inode -> A) : K A := gets (fun k => f (inode_at k i)).
Definition the_file {A} (i : Z) (f : file -> A) : K A := gets (fun k => f (file_at k i)).
Definition the_pipe {A} (i : Z) (f : pipe -> A) : K A := gets (fun k => f (pipe_at k i)).
Definition the_proc {A} (i : Z) (f : proc -> A) : K A := gets (fun k => f (proc_at k i)).
Definition mod_inode (i : Z) (f : inode -> inode) : K unit := modify (upd_inode i f).
Definition mod_file (i : Z) (f : file -> file) : K unit := modify (upd_file i f).
Definition mod_pipe (i : Z) (f : pipe -> pipe) : K unit := modify (upd_pipe i f).
Definition mod_proc (i : Z) (f : proc -> proc) : K unit := modify (upd_proc i f).

(** [myproc()]: the slot of the current process. *)
Definition myproc : K Z := fun c k => Ok (me c) c k.

(** Code of the memory system, run on physical memory. *)
Definition on_pm {A} (m : M pmem A) : K A := zoom pm set_pm m.
End state.
Abbreviation K St := (M (kernel St)).

(** Field updates. *)
Definition set_state (x : procstate) (p : proc) : proc :=
  Proc x (p_chan p) (p_killed p) (p_xstate p) (p_pid p) (p_parent p) (p_kstack p) (p_sz p) (p_pagetable p) (p_trapframe p) (p_context p) (p_ofile p) (p_cwd p) (p_name p).
Definition set_chan (x : option chan) (p : proc) : proc :=
  Proc (p_state p) x (p_killed p) (p_xstate p) (p_pid p) (p_parent p) (p_kstack p) (p_sz p) (p_pagetable p) (p_trapframe p) (p_context p) (p_ofile p) (p_cwd p) (p_name p).
Definition set_killed (x : bool) (p : proc) : proc :=
  Proc (p_state p) (p_chan p) x (p_xstate p) (p_pid p) (p_parent p) (p_kstack p) (p_sz p) (p_pagetable p) (p_trapframe p) (p_context p) (p_ofile p) (p_cwd p) (p_name p).
Definition set_xstate (x : Z) (p : proc) : proc :=
  Proc (p_state p) (p_chan p) (p_killed p) x (p_pid p) (p_parent p) (p_kstack p) (p_sz p) (p_pagetable p) (p_trapframe p) (p_context p) (p_ofile p) (p_cwd p) (p_name p).
Definition set_pid (x : Z) (p : proc) : proc :=
  Proc (p_state p) (p_chan p) (p_killed p) (p_xstate p) x (p_parent p) (p_kstack p) (p_sz p) (p_pagetable p) (p_trapframe p) (p_context p) (p_ofile p) (p_cwd p) (p_name p).
Definition set_parent (x : option Z) (p : proc) : proc :=
  Proc (p_state p) (p_chan p) (p_killed p) (p_xstate p) (p_pid p) x (p_kstack p) (p_sz p) (p_pagetable p) (p_trapframe p) (p_context p) (p_ofile p) (p_cwd p) (p_name p).
Definition set_kstack (x : Z) (p : proc) : proc :=
  Proc (p_state p) (p_chan p) (p_killed p) (p_xstate p) (p_pid p) (p_parent p) x (p_sz p) (p_pagetable p) (p_trapframe p) (p_context p) (p_ofile p) (p_cwd p) (p_name p).
Definition set_sz (x : Z) (p : proc) : proc :=
  Proc (p_state p) (p_chan p) (p_killed p) (p_xstate p) (p_pid p) (p_parent p) (p_kstack p) x (p_pagetable p) (p_trapframe p) (p_context p) (p_ofile p) (p_cwd p) (p_name p).
Definition set_pagetable (x : Z) (p : proc) : proc :=
  Proc (p_state p) (p_chan p) (p_killed p) (p_xstate p) (p_pid p) (p_parent p) (p_kstack p) (p_sz p) x (p_trapframe p) (p_context p) (p_ofile p) (p_cwd p) (p_name p).
Definition set_trapframe (x : Z) (p : proc) : proc :=
  Proc (p_state p) (p_chan p) (p_killed p) (p_xstate p) (p_pid p) (p_parent p) (p_kstack p) (p_sz p) (p_pagetable p) x (p_context p) (p_ofile p) (p_cwd p) (p_name p).
Definition set_context (x : Z * Z) (p : proc) : proc :=
  Proc (p_state p) (p_chan p) (p_killed p) (p_xstate p) (p_pid p) (p_parent p) (p_kstack p) (p_sz p) (p_pagetable p) (p_trapframe p) x (p_ofile p) (p_cwd p) (p_name p).
Definition set_ofile (x : gmap Z Z) (p : proc) : proc :=
  Proc (p_state p) (p_chan p) (p_killed p) (p_xstate p) (p_pid p) (p_parent p) (p_kstack p) (p_sz p) (p_pagetable p) (p_trapframe p) (p_context p) x (p_cwd p) (p_name p).
Definition set_cwd (x : Z) (p : proc) : proc :=
  Proc (p_state p) (p_chan p) (p_killed p) (p_xstate p) (p_pid p) (p_parent p) (p_kstack p) (p_sz p) (p_pagetable p) (p_trapframe p) (p_context p) (p_ofile p) x (p_name p).
Definition set_name (x : list Z) (p : proc) : proc :=
  Proc (p_state p) (p_chan p) (p_killed p) (p_xstate p) (p_pid p) (p_parent p) (p_kstack p) (p_sz p) (p_pagetable p) (p_trapframe p) (p_context p) (p_ofile p) (p_cwd p) x.

Definition set_ftype (x : fdtype) (f : file) : file :=
  File x (f_ref f) (f_readable f) (f_writable f) (f_pipe f) (f_ip f) (f_off f) (f_major f).
Definition set_fref (x : Z) (f : file) : file :=
  File (f_type f) x (f_readable f) (f_writable f) (f_pipe f) (f_ip f) (f_off f) (f_major f).
Definition set_rw (r w : bool) (f : file) : file :=
  File (f_type f) (f_ref f) r w (f_pipe f) (f_ip f) (f_off f) (f_major f).
Definition set_fpipe (x : Z) (f : file) : file :=
  File (f_type f) (f_ref f) (f_readable f) (f_writable f) x (f_ip f) (f_off f) (f_major f).
Definition set_fip (x : Z) (f : file) : file :=
  File (f_type f) (f_ref f) (f_readable f) (f_writable f) (f_pipe f) x (f_off f) (f_major f).
Definition set_foff (x : Z) (f : file) : file :=
  File (f_type f) (f_ref f) (f_readable f) (f_writable f) (f_pipe f) (f_ip f) x (f_major f).
Definition set_fmajor (x : Z) (f : file) : file :=
  File (f_type f) (f_ref f) (f_readable f) (f_writable f) (f_pipe f) (f_ip f) (f_off f) x.

Definition set_iref (x : Z) (i : inode) : inode :=
  Inode (i_dev i) (i_inum i) x (i_lock i) (i_valid i) (i_type i) (i_major i) (i_minor i) (i_nlink i) (i_size i) (i_addrs i).
Definition set_ilock (x : sleeplock) (i : inode) : inode :=
  Inode (i_dev i) (i_inum i) (i_ref i) x (i_valid i) (i_type i) (i_major i) (i_minor i) (i_nlink i) (i_size i) (i_addrs i).
Definition set_ivalid (x : bool) (i : inode) : inode :=
  Inode (i_dev i) (i_inum i) (i_ref i) (i_lock i) x (i_type i) (i_major i) (i_minor i) (i_nlink i) (i_size i) (i_addrs i).
Definition set_itype (x : Z) (i : inode) : inode :=
  Inode (i_dev i) (i_inum i) (i_ref i) (i_lock i) (i_valid i) x (i_major i) (i_minor i) (i_nlink i) (i_size i) (i_addrs i).
Definition set_inodedev (major minor : Z) (i : inode) : inode :=
  Inode (i_dev i) (i_inum i) (i_ref i) (i_lock i) (i_valid i) (i_type i) major minor (i_nlink i) (i_size i) (i_addrs i).
Definition set_nlink (x : Z) (i : inode) : inode :=
  Inode (i_dev i) (i_inum i) (i_ref i) (i_lock i) (i_valid i) (i_type i) (i_major i) (i_minor i) x (i_size i) (i_addrs i).
Definition set_isize (x : Z) (i : inode) : inode :=
  Inode (i_dev i) (i_inum i) (i_ref i) (i_lock i) (i_valid i) (i_type i) (i_major i) (i_minor i) (i_nlink i) x (i_addrs i).
Definition set_addrs (x : list Z) (i : inode) : inode :=
  Inode (i_dev i) (i_inum i) (i_ref i) (i_lock i) (i_valid i) (i_type i) (i_major i) (i_minor i) (i_nlink i) (i_size i) x.
