(* ===== verification/Sched.v ===== *)
(** * Sleeping and waking: the scheduling part of kernel/proc.c

    [sched], [yield], [sleep], [wakeup], [killed] and the like on the process
    table, and how the sleeps and wake-ups of the block layer and of the log,
    which do not know about processes, become those of the process that runs
    them. *)

From stdpp Require Import pretty.
From S2P Require Import Prelude Riscv Headers Mem Kalloc Vm Sleeplock Block Log State.

(** The slots of the process table, in the order of [for(p = proc; ...)]. *)
Definition slots : list Z := seqZ 0 NPROC.

Section sched.
Context {St : Type} {BO : BlockOps St}.

Definition killed (p : Z) : K St bool :=
  acquire (LProc p);;
  k ← the_proc p p_killed;
  release (LProc p);;
  mret k.

Definition setkilled (p : Z) : K St unit :=
  acquire (LProc p);;
  mod_proc p (set_killed true);;
  release (LProc p).

(** The switch to the scheduler: the rest of the thread runs when the process
    is chosen again. Interrupts are off because a lock is held. *)
Definition swtch : K St unit := fun c k => Blocked WSched c k (fun c k => Ok tt c k).

Definition sched : K St unit := fun c k =>
  (if negb (bool_decide (LProc (me c) ∈ held c)) then panic "sched p->lock"
   else if negb (bool_decide (size (held c) = 1%nat)) then panic "sched locks"
   else if bool_decide (p_state (proc_at k (me c)) = RUNNING) then panic "sched RUNNING"
   else swtch) c k.

Definition yield : K St unit :=
  p ← myproc;
  acquire (LProc p);;
  mod_proc p (set_state RUNNABLE);;
  sched;;
  release (LProc p).

(** [sleep] from the point where it holds [p->lock] and has released [lk]. *)
Definition sleep_on (ch : chan) : K St unit :=
  p ← myproc;
  mod_proc p (set_chan (Some ch));;
  mod_proc p (set_state SLEEPING);;
  sched;;
  mod_proc p (set_chan None);;
  release (LProc p).

Definition sleep (ch : chan) (lk : lock) : K St unit :=
  p ← myproc;
  acquire (LProc p);;
  release lk;;
  sleep_on ch;;
  acquire lk.

Definition wakeup (ch : chan) : K St unit :=
  for_each slots (fun p =>
    m ← myproc;
    if p =? m then mret tt
    else
      acquire (LProc p);;
      st ← the_proc p p_state;
      pc ← the_proc p p_chan;
      (if bool_decide (st = SLEEPING) && bool_decide (pc = Some ch) then mod_proc p (set_state RUNNABLE) else mret tt);;
      release (LProc p)).

Fixpoint kkill_loop (ps : list Z) (pid : Z) : K St Z :=
  match ps with
  | [] => mret (-1)
  | p :: ps =>
      acquire (LProc p);;
      pp ← the_proc p id;
      if p_pid pp =? pid then
        mod_proc p (set_killed true);;
        (if bool_decide (p_state pp = SLEEPING) then mod_proc p (set_state RUNNABLE) else mret tt);;
        release (LProc p);;
        mret 0
      else
        release (LProc p);;
        kkill_loop ps pid
  end.
Definition kkill (pid : Z) : K St Z := kkill_loop slots pid.

(** Bytes up to the first NUL, as [%s] prints them. *)
Fixpoint name_string (bs : list Z) : string :=
  match bs with
  | [] => ""
  | c :: bs => if c =? 0 then "" else String (Ascii.ascii_of_N (Z.to_N c)) (name_string bs)
  end.
Definition nl : string := String (Ascii.ascii_of_N 10) "".

(** [procdump] prints one line for each slot in use; every state has a name. *)
Definition state_name (s : procstate) : string :=
  match s with
  | UNUSED => "unused" | USED => "used" | SLEEPING => "sleep " | RUNNABLE => "runble" | RUNNING => "run   " | ZOMBIE => "zombie"
  end.
Definition procdump : K St unit :=
  kprintf nl;;
  for_each slots (fun p =>
    pp ← the_proc p id;
    if bool_decide (p_state pp = UNUSED) then mret tt
    else
      kprintf (pretty (p_pid pp) +:+ " " +:+ state_name (p_state pp) +:+ " " +:+ name_string (p_name pp));;
      kprintf nl).

(** ** The scheduler *)

(** What a process does from the point where it was switched away from. *)
Definition thread : Type := ctx -> kernel St -> outcome (kernel St) unit.

(** The body of the loop over the process table. [start] is the thread of a
    process that has not run yet; a thread that ends in user space for good is
    forgotten. A panic stops the machine. *)
Definition scheduler_visit (start : thread) (s : kernel St * gmap Z thread) (p : Z) : string + kernel St * gmap Z thread :=
  let (k, ths) := s in
  if bool_decide (p_state (proc_at k p) = RUNNABLE) then
    let k := upd_proc p (set_state RUNNING) k in
    match default start (ths !! p) (Ctx {[LProc p]} [] p (p_pid (proc_at k p))) k with
    | Blocked WSched c k r => if decide (LProc p ∈ held c) then inr (k, <[p := r]> ths) else inl "release"
    | Ok _ _ k => inr (k, delete p ths)
    | Panic msg => inl msg
    | _ => inl "thread"
    end
  else inr s.

(** [for(p = proc; p < &proc[NPROC]; p++)], and [n] rounds of the outer loop. *)
Fixpoint scheduler_pass (start : thread) (ps : list Z) (s : kernel St * gmap Z thread) : string + kernel St * gmap Z thread :=
  match ps with
  | [] => inr s
  | p :: ps =>
      match scheduler_visit start s p with
      | inl msg => inl msg
      | inr s => scheduler_pass start ps s
      end
  end.
Fixpoint scheduler (start : thread) (n : nat) (s : kernel St * gmap Z thread) : string + kernel St * gmap Z thread :=
  match n with
  | O => inr s
  | S n =>
      match scheduler_pass start slots s with
      | inl msg => inl msg
      | inr s => scheduler start n s
      end
  end.

(** ** Code of the components that sleep and wake *)

Definition set_trace (tr : list event) (c : ctx) : ctx := Ctx (held c) tr (me c) (mypid c).

(** The wake-ups and messages a component has issued. *)
Fixpoint deliver (evs : list event) : K St unit :=
  match evs with
  | [] => mret tt
  | EvWakeup ch :: evs => wakeup ch;; deliver evs
  | e :: evs => emit e;; deliver evs
  end.

(** Run component code on its part of the state; its wake-ups reach the
    process table, and where it sleeps the current process does. *)
Fixpoint olift {S A} (view : kernel St -> S) (upd : S -> kernel St -> kernel St) (tr : list event) (k : kernel St)
    (o : outcome S A) : outcome (kernel St) A :=
  match o with
  | Ok a c s => (deliver (trace c);; mret a) (set_trace tr c) (upd s k)
  | Panic msg => Panic msg
  | NoFuel => NoFuel
  | Blocked (WSleep ch l) c s r =>
      let rest : K St A := fun c' k' => olift view upd (trace c') k' (r (set_trace [] c') (view k')) in
      (deliver (trace c);; acquire (LProc (me c));; sleep_on ch;; rest) (set_trace tr c) (upd s k)
  | Blocked WSched c s r =>
      Blocked WSched (set_trace tr c) (upd s k) (fun c' k' => olift view upd (trace c') k' (r (set_trace [] c') (view k')))
  end.
Definition lift {S A} (view : kernel St -> S) (upd : S -> kernel St -> kernel St) (m : M S A) : K St A :=
  fun c k => olift view upd (trace c) k (m (set_trace [] c) (view k)).

(** The log and the block layer. *)
Definition on_log {A} (m : M (fsstate St) A) : K St A := lift fsk set_fsk m.
Definition on_blk {A} (m : M St A) : K St A := lift (fun k => blks (fsk k)) (fun s k => set_fsk (set_blks s (fsk k)) k) m.

(** The sleep lock of an inode. *)
Definition on_ilock {A} (i : Z) (m : lock -> chan -> M sleeplock A) : K St A :=
  lift (fun k => i_lock (inode_at k i)) (fun l => upd_inode i (set_ilock l)) (m (LInode i) (ChInodeLock i)).
End sched.
