(* ===== verification/SchedProps.v ===== *)
(** * Sleeping, waking and being scheduled

    What the functions of file Sched do to the process table, and that a
    process that sleeps is resumed after a wake-up of its channel, or after a
    kill, with the lock it gave up. *)

From S2P Require Import Prelude Riscv Headers Mem Kalloc Vm Sleeplock Block Log State Sched.

Section runs.
Context {St : Type}.
Implicit Types k : kernel St.

Lemma proc_upd k p f q : proc_at (upd_proc p f k) q = if decide (q = p) then f (proc_at k p) else proc_at k q.
Proof. unfold proc_at, upd_proc. cbn [procs set_procs]. case_decide; subst; by simplify_map_eq. Qed.
Lemma proc_upd_eq k p f : proc_at (upd_proc p f k) p = f (proc_at k p).
Proof. by rewrite proc_upd, decide_True. Qed.
Lemma proc_upd_ne k p f q : q <> p -> proc_at (upd_proc p f k) q = proc_at k q.
Proof. intros. by rewrite proc_upd, decide_False. Qed.

Lemma killed_run p c k : LProc p ∉ held c -> killed p c k = Ok (p_killed (proc_at k p)) c k.
Proof.
  intros Hl. unfold killed. mstep (acquire_ok (LProc p) c k Hl). erewrite bind_ok; [|reflexivity].
  by mstep (release_ok (LProc p) c k Hl).
Qed.

(** What [wakeup] does to one process. *)
Definition woken (ch : chan) (p : proc) : proc :=
  if bool_decide (p_state p = SLEEPING) && bool_decide (p_chan p = Some ch) then set_state RUNNABLE p else p.

(** Two kernel states that differ in the process table alone. *)
Definition same_but_procs (k k' : kernel St) : Prop := k' = set_procs (procs k') k.

Lemma same_but_procs_refl k : same_but_procs k k.
Proof. by destruct k. Qed.
Lemma same_but_procs_trans k1 k2 k3 : same_but_procs k1 k2 -> same_but_procs k2 k3 -> same_but_procs k1 k3.
Proof. unfold same_but_procs. intros -> ->. done. Qed.
Lemma same_but_procs_upd p f k : same_but_procs k (upd_proc p f k).
Proof. done. Qed.

(** The state after [wakeup ch] by the process in slot [m], over the slots [ps]. *)
Definition wake_list (ps : list Z) (m : Z) (ch : chan) (k : kernel St) : kernel St :=
  foldl (fun k p => if (p =? m) || negb (bool_decide (p_state (proc_at k p) = SLEEPING) && bool_decide (p_chan (proc_at k p) = Some ch))
                    then k else upd_proc p (set_state RUNNABLE) k) k ps.
Definition wake (m : Z) (ch : chan) (k : kernel St) : kernel St := wake_list slots m ch k.

Lemma wake_list_cons p ps m ch k :
  wake_list (p :: ps) m ch k =
  wake_list ps m ch (if (p =? m) || negb (bool_decide (p_state (proc_at k p) = SLEEPING) && bool_decide (p_chan (proc_at k p) = Some ch))
                     then k else upd_proc p (set_state RUNNABLE) k).
Proof. done. Qed.

Lemma wake_list_run ps ch c : (forall p, p ∈ ps -> p <> me c -> LProc p ∉ held c) -> forall k,
  for_each ps (fun p =>
    m ← myproc;
    if p =? m then mret tt
    else
      acquire (LProc p);;
      st ← the_proc p p_state;
      pc ← the_proc p p_chan;
      (if bool_decide (st = SLEEPING) && bool_decide (pc = Some ch) then mod_proc p (set_state RUNNABLE) else mret tt);;
      release (LProc p)) c k = Ok tt c (wake_list ps (me c) ch k).
Proof.
  induction ps as [|p ps IH]; intros Hps k; [done|]. cbn [for_each]. rewrite wake_list_cons.
  assert (Hps' : forall q, q ∈ ps -> q <> me c -> LProc q ∉ held c) by (intros; apply Hps; [by right|done]).
  specialize (IH Hps'). erewrite bind_ok; [apply IH|]. erewrite bind_ok; [|reflexivity]. cbv beta.
  destruct (p =? me c) eqn:E; [done|]. apply Z.eqb_neq in E. cbn [orb].
  assert (Hl : LProc p ∉ held c) by (by apply Hps; [left|]).
  mstep (acquire_ok (LProc p) c k Hl). erewrite bind_ok; [|reflexivity]. erewrite bind_ok; [|reflexivity].
  destruct (_ && _); cbn [negb]; (erewrite bind_ok; [|reflexivity]); by apply release_ok.
Qed.

Lemma wakeup_run ch c k : (forall p, p <> me c -> LProc p ∉ held c) -> wakeup ch c k = Ok tt c (wake (me c) ch k).
Proof. intros Hl. apply wake_list_run. intros p _. apply Hl. Qed.

Lemma wake_list_same ps m ch k : same_but_procs k (wake_list ps m ch k).
Proof.
  revert k. induction ps as [|p ps IH]; intros k; [apply same_but_procs_refl|]. rewrite wake_list_cons.
  destruct (_ || _); [done|]. by apply (same_but_procs_trans _ _ _ (same_but_procs_upd p (set_state RUNNABLE) k)).
Qed.

Lemma wake_list_proc ps m ch k q : NoDup ps ->
  proc_at (wake_list ps m ch k) q = if decide (q ∈ ps /\ q <> m) then woken ch (proc_at k q) else proc_at k q.
Proof.
  intros Hn. revert k. induction Hn as [|p ps Hp Hn IH]; intros k; [by rewrite decide_False by set_solver|].
  rewrite wake_list_cons, IH. clear IH. unfold woken.
  destruct (decide (q = p)) as [->|Hq].
  - rewrite decide_False by set_solver. destruct (p =? m) eqn:E; cbn [orb].
    + apply Z.eqb_eq in E. by rewrite decide_False by set_solver.
    + apply Z.eqb_neq in E. rewrite decide_True by (split; [by left|done]).
      destruct (_ && _); cbn [negb]; [apply proc_upd_eq|done].
  - assert (Hk : forall (b : bool), proc_at (if b then k else upd_proc p (set_state RUNNABLE) k) q = proc_at k q).
    { intros []; [done|]. by apply proc_upd_ne. }
    rewrite !Hk. by rewrite (decide_ext (q ∈ ps /\ q <> m) (q ∈ p :: ps /\ q <> m)) by set_solver.
Qed.

Lemma wake_proc m ch k q :
  proc_at (wake m ch k) q = if decide (0 <= q < NPROC /\ q <> m) then woken ch (proc_at k q) else proc_at k q.
Proof.
  unfold wake. rewrite wake_list_proc by apply NoDup_seqZ. apply decide_ext. unfold slots. rewrite elem_of_seqZ. lia.
Qed.

(** The process in slot [p] goes to sleep. *)
Definition asleep (p : Z) (ch : chan) (k : kernel St) : kernel St :=
  upd_proc p (set_state SLEEPING) (upd_proc p (set_chan (Some ch)) k).

Lemma asleep_proc p ch k q :
  proc_at (asleep p ch k) q = if decide (q = p) then set_state SLEEPING (set_chan (Some ch) (proc_at k p)) else proc_at k q.
Proof. unfold asleep. rewrite !proc_upd. by repeat case_decide. Qed.

Definition with_held (h : gset lock) (c : ctx) : ctx := Ctx h (trace c) (me c) (mypid c).

Lemma sleep_on_run ch c k : held c = {[LProc (me c)]} ->
  exists r, sleep_on ch c k = Blocked WSched c (asleep (me c) ch k) r /\
    forall c' k', held c' = {[LProc (me c)]} -> r c' k' = Ok tt (with_held ∅ c') (upd_proc (me c) (set_chan None) k').
Proof.
  intros Hh. unfold sleep_on. erewrite bind_ok; [|reflexivity]. cbv beta.
  erewrite bind_ok; [|reflexivity]. erewrite bind_ok; [|reflexivity].
  set (k1 := upd_proc _ _ _). change k1 with (asleep (me c) ch k).
  assert (Hs : sched c (asleep (me c) ch k) = Blocked WSched c (asleep (me c) ch k) (fun c k => Ok tt c k)).
  { unfold sched. rewrite bool_decide_true by (rewrite Hh; set_solver). rewrite Hh, size_singleton. cbn [negb].
    rewrite asleep_proc, decide_True by done. done. }
  eexists. split; [by apply bind_blocked|]. intros c' k' Hc'. erewrite bind_ok; [|reflexivity].
  erewrite bind_ok; [|reflexivity]. unfold release. rewrite decide_True by (rewrite Hc'; set_solver).
  unfold unhold, with_held. rewrite Hc'. do 2 f_equal. set_solver.
Qed.

Lemma sleep_run ch lk c k : held c = {[lk]} -> lk <> LProc (me c) ->
  exists r, sleep ch lk c k = Blocked WSched (with_held {[LProc (me c)]} c) (asleep (me c) ch k) r /\
    forall c' k', held c' = {[LProc (me c)]} -> r c' k' = Ok tt (with_held {[lk]} c') (upd_proc (me c) (set_chan None) k').
Proof.
  intros Hh Hne. unfold sleep. erewrite bind_ok; [|reflexivity]. cbv beta.
  rewrite (bind_ok _ _ c k tt (hold (LProc (me c)) c) k) by (apply acquire_ok; rewrite Hh; set_solver).
  rewrite (bind_ok _ _ (hold (LProc (me c)) c) k tt (with_held {[LProc (me c)]} c) k).
  2: { unfold release. rewrite decide_True by (cbn; set_solver). unfold unhold, with_held. cbn. rewrite Hh. do 2 f_equal. set_solver. }
  destruct (sleep_on_run ch (with_held {[LProc (me c)]} c) k eq_refl) as (r & Hr & Hk). cbn [me with_held] in Hr, Hk.
  eexists. split; [by apply bind_blocked|]. intros c' k' Hc'. mstep (Hk c' k' Hc').
  rewrite acquire_ok by (cbn; set_solver). unfold hold, with_held. cbn. do 2 f_equal. set_solver.
Qed.

(** The process with a given pid. *)
Fixpoint find_pid (ps : list Z) (pid : Z) (k : kernel St) : option Z :=
  match ps with
  | [] => None
  | p :: ps => if p_pid (proc_at k p) =? pid then Some p else find_pid ps pid k
  end.
Definition slain (p : proc) : proc :=
  if bool_decide (p_state p = SLEEPING) then set_state RUNNABLE (set_killed true p) else set_killed true p.

Lemma kkill_run ps pid c k : (forall p, p ∈ ps -> LProc p ∉ held c) ->
  exists k', kkill_loop ps pid c k = Ok (if find_pid ps pid k is Some _ then 0 else -1) c k' /\ same_but_procs k k' /\
    forall q, proc_at k' q = if decide (find_pid ps pid k = Some q) then slain (proc_at k q) else proc_at k q.
Proof.
  induction ps as [|p ps IH]; intros Hps.
  { exists k. split; [done|]. split; [apply same_but_procs_refl|]. intros q. by rewrite decide_False. }
  assert (Hl : LProc p ∉ held c) by (apply Hps; by left). cbn [kkill_loop find_pid].
  rewrite (bind_ok _ _ _ _ _ _ _ (acquire_ok (LProc p) c k Hl)). erewrite bind_ok; [|reflexivity]. cbv beta.
  unfold id. destruct (p_pid (proc_at k p) =? pid) eqn:E.
  - erewrite bind_ok; [|reflexivity]. unfold slain.
    destruct (bool_decide (p_state (proc_at k p) = SLEEPING)) eqn:Es;
      (erewrite bind_ok; [|reflexivity]); (erewrite bind_ok; [|by apply release_ok]);
      (eexists; split; [reflexivity|]; split; [done|]); intros q.
    + rewrite !proc_upd. destruct (decide (q = p)) as [->|Hq].
      * by rewrite !decide_True, Es.
      * by rewrite decide_False by congruence.
    + rewrite !proc_upd. destruct (decide (q = p)) as [->|Hq].
      * by rewrite !decide_True, Es.
      * by rewrite decide_False by congruence.
  - erewrite bind_ok; [|by apply release_ok]. apply IH. intros q Hq. apply Hps. by right.
Qed.
End runs.

(** C27: a sleeping process is resumed after a wake-up, and by nothing else.
    [sleep] on a channel leaves the process [SLEEPING] there with only its own
    process lock held. As long as it is asleep, in whatever state the other
    processes have brought the kernel, a [wakeup] of the channel by another
    process makes it and every other process sleeping there [RUNNABLE], and
    changes nothing else; a [wakeup] of another channel does not touch it; a
    kill makes it [RUNNABLE] and marks it. Once it is [RUNNABLE], the scheduler
    resumes it when it gets to its slot, and [sleep] returns with the condition
    lock held again and the channel cleared. *)
Theorem sleep_wakeup {St} (start : thread (St := St)) ch lk c (k : kernel St) :
  let p := me c in
  held c = {[lk]} -> (forall q, lk <> LProc q) -> 0 <= p < NPROC ->
  exists k1 (r : thread (St := St)), sleep ch lk c k = Blocked WSched (with_held {[LProc p]} c) k1 r /\
    p_state (proc_at k1 p) = SLEEPING /\ p_chan (proc_at k1 p) = Some ch /\
    forall cq (k2 : kernel St), me cq <> p -> (forall q, LProc q ∉ held cq) -> p_state (proc_at k2 p) = SLEEPING -> p_chan (proc_at k2 p) = Some ch ->
      (exists k3, wakeup ch cq k2 = Ok tt cq k3 /\ same_but_procs k2 k3 /\ p_state (proc_at k3 p) = RUNNABLE /\
         forall q, 0 <= q < NPROC -> q <> me cq -> proc_at k3 q = woken ch (proc_at k2 q)) /\
      (forall ch', ch' <> ch -> exists k3, wakeup ch' cq k2 = Ok tt cq k3 /\ proc_at k3 p = proc_at k2 p) /\
      (forall pid, find_pid slots pid k2 = Some p ->
         exists k3, kkill pid cq k2 = Ok 0 cq k3 /\ p_state (proc_at k3 p) = RUNNABLE /\ p_killed (proc_at k3 p) = true) /\
      forall (k3 : kernel St) ths, p_state (proc_at k3 p) = RUNNABLE -> ths !! p = Some r ->
        let cr := Ctx {[LProc p]} [] p (p_pid (proc_at k3 p)) in
        exists k4, r cr (upd_proc p (set_state RUNNING) k3) = Ok tt (with_held {[lk]} cr) k4 /\
          p_state (proc_at k4 p) = RUNNING /\ p_chan (proc_at k4 p) = None /\
          scheduler_visit start (k3, ths) p = inr (k4, delete p ths).
Proof.
  intros p Hh Hlk Hp. destruct (sleep_run ch lk c k Hh (Hlk _)) as (r & Hr & Hk).
  exists (asleep p ch k), r. split; [done|].
  split; [by rewrite asleep_proc, decide_True|]. split; [by rewrite asleep_proc, decide_True|].
  intros cq k2 Hq Hl Hs Hc. split_and!.
  - eexists. split; [by apply wakeup_run|]. split; [apply wake_list_same|]. split.
    + rewrite wake_proc, decide_True by done. unfold woken. by rewrite Hs, Hc, !bool_decide_true.
    + intros q Hq1 Hq2. by rewrite wake_proc, decide_True.
  - intros ch' Hne. eexists. split; [by apply wakeup_run|]. rewrite wake_proc, decide_True by done.
    unfold woken. rewrite (bool_decide_false (p_chan _ = _)) by congruence. by rewrite andb_false_r.
  - intros pid Hf. destruct (kkill_run slots pid cq k2) as (k3 & Hrun & _ & Hpr); [intros; apply Hl|].
    exists k3. rewrite Hf in Hrun. split; [done|]. rewrite Hpr, decide_True by done. unfold slain.
    by rewrite Hs, bool_decide_true.
  - intros k3 ths Hrun Hth cr. specialize (Hk cr (upd_proc p (set_state RUNNING) k3) eq_refl).
    eexists. split; [exact Hk|]. split; [by rewrite proc_upd_eq, proc_upd_eq|]. split; [by rewrite proc_upd_eq|].
    unfold scheduler_visit. cbv beta iota.
    rewrite Hth, bool_decide_true by done. cbn [default from_option].
    rewrite proc_upd_eq. unfold id. change (p_pid (set_state RUNNING (proc_at k3 p))) with (p_pid (proc_at k3 p)).
    fold cr. by rewrite Hk.
Qed.

(** ** Two processes *)
Module Demo.
(** Process 0 sleeps for the clock, holding the clock's lock; process 1 runs. *)
Definition kern : kernel unit :=
  Kernel (Pmem ∅ 0 ∅) (FsState (Log.Log 0 0 false 0 0 ∅) tt) (SuperBlock 0 0 0 0 0 0 0 0) ∅ ∅ ∅
    {[0 := set_pid 1 proc0; 1 := set_pid 2 proc0]} 3 None 0 (Console ∅ 0 0 0) (Uart false []) false.

Lemma sleep_wakeup_witness : exists k1 r k3,
  sleep ChTicks LTicks (Ctx {[LTicks]} [] 0 1) kern = Blocked WSched (Ctx {[LProc 0]} [] 0 1) k1 r /\
  wakeup ChTicks (Ctx {[LTicks]} [] 1 2) k1 = Ok tt (Ctx {[LTicks]} [] 1 2) k3 /\
  p_state (proc_at k3 0) = RUNNABLE.
Proof.
  destruct (sleep_wakeup (fun c k => Ok tt c k) ChTicks LTicks (Ctx {[LTicks]} [] 0 1) kern)
    as (k1 & r & Hr & Hs & Hc & H); [reflexivity|discriminate|done|].
  destruct (H (Ctx {[LTicks]} [] 1 2) k1) as ((k3 & Hw & _ & Hrun & _) & _); [discriminate|intros q; cbn [held]; by rewrite elem_of_singleton|exact Hs|exact Hc|].
  by exists k1, r, k3.
Defined.
End Demo.
