(* ===== verification/Copy.v ===== *)
(** * Copying between the kernel and user space: kernel/proc.c

    The data of a buffer, of a local variable or of a structure of the kernel
    is a list of bytes in this model. For a copy to or from user memory it is
    placed at the kernel address [kdata], which stands for the address of that
    object, and [copyout] and [copyin] of kernel/vm.c do the rest. *)

From S2P Require Import Prelude Riscv Headers Mem Kalloc Vm Sleeplock Block Log State Sched.

(** What the compiler decides: the address of the object being copied, and the
    bytes of padding in a [struct stat]. *)
Class KData := { kdata : Z; st_pad : list Z }.

(** Where [readi] puts data and where [writei] takes it from: a user virtual
    address, a kernel address, or a local variable of the caller, whose bytes
    are returned or given. *)
Inductive place := PUser (va : Z) | PKernel (pa : Z) | PLocal.
Inductive source := SUser (va : Z) | SKernel (pa : Z) | SLocal (bs : list Z).

Definition place_add (d : place) (m : Z) : place :=
  match d with PUser va => PUser (u64 (va + m)) | PKernel pa => PKernel (u64 (pa + m)) | PLocal => PLocal end.
Definition source_add (s : source) (m : Z) : source :=
  match s with
  | SUser va => SUser (u64 (va + m))
  | SKernel pa => SKernel (u64 (pa + m))
  | SLocal bs => SLocal (drop (Z.to_nat m) bs)
  end.

Section copy.
Context `{LK : Linker} {KD : KData} {St : Type}.

Definition stage (bs : list Z) : M pmem unit := modify (set_mem (fun m => stbytes m kdata bs)).

(** [copyout(pagetable, va, &obj, sizeof obj)] *)
Definition copyout_bytes (pagetable va : Z) (bs : list Z) : K St Z :=
  p ← myproc;
  psz ← the_proc p p_sz;
  on_pm (stage bs;; copyout psz pagetable va kdata (Z.of_nat (length bs))).

(** [copyin(pagetable, &obj, va, sizeof obj)]; [old] are the bytes of the object
    before, and what it holds afterwards is returned. *)
Definition copyin_bytes (pagetable va : Z) (old : list Z) : K St (Z * list Z) :=
  p ← myproc;
  psz ← the_proc p p_sz;
  on_pm (stage old;;
         r ← copyin psz pagetable kdata va (Z.of_nat (length old));
         bs ← gets (fun s => ldbytes (mem s) kdata (length old));
         mret (r, bs)).

Definition either_copyout (dst : place) (bs : list Z) : K St Z :=
  match dst with
  | PUser va => p ← myproc; pt ← the_proc p p_pagetable; copyout_bytes pt va bs
  | PKernel pa => on_pm (stage bs;; kmemmove pa kdata (Z.of_nat (length bs)));; mret 0
  | PLocal => mret 0
  end.

Definition either_copyin (old : list Z) (src : source) : K St (Z * list Z) :=
  match src with
  | SUser va => p ← myproc; pt ← the_proc p p_pagetable; copyin_bytes pt va old
  | SKernel pa => bs ← on_pm (gets (fun s => ldbytes (mem s) pa (length old))); mret (0, bs)
  | SLocal bs => mret (0, take (length old) bs)
  end.
End copy.
