(* ===== verification/UserMem.v ===== *)
(** * User memory as system calls see it

    The interface between the virtual-memory system and the code that copies
    data to and from user space: [umem] says that the running process sees the
    bytes [V], and [copyin_bytes] and [copyout_bytes] (file Copy) are specified
    in terms of it alone. The specifications are discharged by [copyin_run] and
    [copyout_run] of file VmCopy. *)

From S2P Require Import Prelude Riscv Headers Mem Kalloc Vm VmTree VmInv VmOps VmUser VmCopy Sleeplock Block Log State Sched Copy.

(** Bytes from address [a] on. *)
Definition put_bytes (V : Z -> option Z) (a : Z) (bs : list Z) : Z -> option Z :=
  fun x => if decide (in_range a (a + Z.of_nat (length bs)) x) then bs !! Z.to_nat (x - a) else V x.

Definition is_byte (b : Z) : Prop := 0 <= b < 256.

Section usermem.
Context `{LK : Linker} {LO : LinkerOk} {KD : KData}.
(** The other address spaces, and the references the kernel holds. *)
Context (ts : list ptree) (ex : Z -> Z).

(** The process with page table [pt] and size [psz] sees [V], where a page that
    is not there yet may appear as zeroes; the kernel has a buffer of [PGSIZE]
    bytes at [kdata]. *)
Definition umem (pt psz : Z) (V : Z -> option Z) (s : pmem) : Prop :=
  exists free t, root t = pt /\ vm_inv s free (t :: ts) ex /\ ex_nonneg ex /\ kernel_leaves t /\ psz <= TRAPFRAME /\
    kbuf free (t :: ts) ex kdata PGSIZE /\ forall va, uva va -> lazy_eq (V va) (ubyte (mem s) t va).

Lemma kbuf_sub free us a len len' : len' <= len -> kbuf free us ex a len -> kbuf free us ex a len'.
Proof. intros Hl Hb x Hx. apply Hb. lia. Qed.

Lemma umem_stage pt psz V s bs : umem pt psz V s -> Z.of_nat (length bs) <= PGSIZE ->
  umem pt psz V (set_mem (fun m => stbytes m kdata bs) s).
Proof.
  intros (free & t & Hr & Hv & Hex & Hk & Hp & Hb & HV) Hl.
  destruct (vm_kchange (fun m => stbytes m kdata bs) s free t ts ex kdata (Z.of_nat (length bs)) Hv) as (H1 & H2 & H3).
  { by eapply kbuf_sub. }
  { intros x Hx. cbn [mem set_mem]. by apply ld8_stbytes_out. }
  exists free, t. split_and!; try done. intros va Hva. rewrite H3 by done. by apply HV.
Qed.

Context {St : Type}.
Implicit Types k : kernel St.

Lemma copyin_bytes_run pt V va old c k : umem pt (p_sz (proc_at k (me c))) V (pm k) -> LKmem ∉ held c ->
  0 <= va -> Z.of_nat (length old) <= PGSIZE ->
  exists r bs s', copyin_bytes pt va old c k = Ok (r, bs) c (set_pm s' k) /\ umem pt (p_sz (proc_at k (me c))) V s' /\
    length bs = length old /\ Forall is_byte bs /\ (r = 0 \/ r = -1) /\
    (r = 0 -> forall j b, bs !! j = Some b -> uva (va + Z.of_nat j) /\ lazy_eq (V (va + Z.of_nat j)) (Some b)).
Proof.
  intros Hu Hl Hva Hn. set (psz := p_sz (proc_at k (me c))) in *.
  pose proof (umem_stage pt psz V (pm k) old Hu Hn) as (free & t & Hr & Hv & Hex & Hk & Hp & Hb & HV).
  set (s1 := set_mem (fun m => stbytes m kdata old) (pm k)) in *.
  destruct (copyin_run s1 free t ts ex psz kdata va (Z.of_nat (length old)) c Hv Hex Hk Hp Hl Hva)
    as (r & n & s2 & free2 & t2 & Hrun & Hfr & Hv2 & Hnb & Hres & Hf); [lia|by eapply kbuf_sub|].
  exists r, (ldbytes (mem s2) kdata (length old)), s2. split_and!.
  - unfold copyin_bytes. erewrite bind_ok; [|reflexivity]. erewrite bind_ok; [|reflexivity]. fold psz.
    unfold on_pm. erewrite zoom_ok; [reflexivity|]. erewrite bind_ok; [|reflexivity]. fold s1. rewrite <- Hr.
    by mstep Hrun.
  - exists free2, t2. split_and!; try done.
    + by rewrite (kf_root _ _ _ _ _ _ _ _ _ Hfr).
    + intros v pte Hv' Hlf. rewrite (kf_upper _ _ _ _ _ _ _ _ _ Hfr) in Hlf by done. by apply (Hk v).
    + intros x Hx. by apply (kf_held _ _ _ _ _ _ _ _ _ Hfr), Hb.
    + intros x Hx. eapply lazy_eq_trans; [by apply HV|]. by apply (kf_own _ _ _ _ _ _ _ _ _ Hfr).
  - apply length_ldbytes.
  - apply Forall_forall. intros b Hbs. apply list_elem_of_lookup_1 in Hbs as [j Hj].
    assert (j < length old)%nat by (apply lookup_lt_Some in Hj; by rewrite length_ldbytes in Hj).
    rewrite lookup_ldbytes in Hj by done. simplify_eq. apply ld8_bound.
  - destruct Hres as [[-> _]| ->]; auto.
  - intros -> j b Hj. destruct Hres as [[_ ->]|?]; [|done].
    assert (j < length old)%nat by (apply lookup_lt_Some in Hj; by rewrite length_ldbytes in Hj).
    rewrite lookup_ldbytes in Hj by done. simplify_eq.
    destruct (Hf (Z.of_nat j)) as [Hj1 Hj2]; [lia|]. split; [done|]. rewrite <- Hj2.
    eapply lazy_eq_trans; [by apply HV|]. by apply (kf_own _ _ _ _ _ _ _ _ _ Hfr).
Qed.

Lemma umem_ext pt psz V V' s : (forall x, V x = V' x) -> umem pt psz V s -> umem pt psz V' s.
Proof. intros HV (free & t & H). exists free, t. setoid_rewrite <- HV. done. Qed.

Lemma put_bytes_nil V a x : put_bytes V a [] x = V x.
Proof. unfold put_bytes, in_range. rewrite decide_False; [done|]. cbn. lia. Qed.

Lemma copyout_bytes_run pt V va bs c k : umem pt (p_sz (proc_at k (me c))) V (pm k) -> LKmem ∉ held c ->
  0 <= va -> Z.of_nat (length bs) <= PGSIZE -> Forall is_byte bs ->
  exists r n s', copyout_bytes pt va bs c k = Ok r c (set_pm s' k) /\
    umem pt (p_sz (proc_at k (me c))) (put_bytes V va (take n bs)) s' /\
    (n <= length bs)%nat /\ ((r = 0 /\ n = length bs) \/ (r = -1 /\ (n < length bs)%nat)).
Proof.
  intros Hu Hl Hva Hn Hbs. set (psz := p_sz (proc_at k (me c))) in *.
  pose proof (umem_stage pt psz V (pm k) bs Hu Hn) as (free & t & Hr & Hv & Hex & Hk & Hp & Hb & HV).
  set (s1 := set_mem (fun m => stbytes m kdata bs) (pm k)) in *.
  destruct (copyout_run s1 free t ts ex psz va kdata (Z.of_nat (length bs)) c Hv Hex Hk Hp Hl Hva)
    as (r & n & s2 & free2 & t2 & Hrun & Hfr & Hv2 & Hnb & Hres & Hc & _); [lia|by eapply kbuf_sub|].
  exists r, (Z.to_nat n), s2. split_and!.
  - unfold copyout_bytes. erewrite bind_ok; [|reflexivity]. erewrite bind_ok; [|reflexivity]. fold psz.
    unfold on_pm. erewrite zoom_ok; [reflexivity|]. erewrite bind_ok; [|reflexivity]. fold s1. rewrite <- Hr. exact Hrun.
  - exists free2, t2. split_and!; try done.
    + by rewrite (fr_root _ _ _ _ _ _ _ _ Hfr).
    + intros v pte Hv' Hlf. rewrite (fr_upper _ _ _ _ _ _ _ _ Hfr) in Hlf by done. by apply (Hk v).
    + intros x Hx. by apply (fr_held _ _ _ _ _ _ _ _ Hfr), Hb.
    + intros x Hx. specialize (Hc x Hx). unfold put_bytes.
      assert (Z.of_nat (length (take (Z.to_nat n) bs)) = n) as -> by (rewrite length_take; lia).
      case_decide as E; [|by eapply lazy_eq_trans; [apply HV|]]. left. rewrite Hc. unfold in_range in E.
      rewrite lookup_take_lt by lia. destruct (lookup_lt_is_Some_2 bs (Z.to_nat (x - va))) as [b Eb]; [lia|].
      rewrite Eb. f_equal. unfold s1. cbn [mem set_mem].
      pose proof (ldbytes_stbytes (mem (pm k)) kdata bs Hbs) as Hld. rewrite <- Hld in Eb at 1.
      rewrite lookup_ldbytes in Eb by lia. injection Eb as <-. do 2 f_equal. lia.
  - lia.
  - destruct Hres as [[-> ->]|[-> ?]]; [left|right]; (split; [done|lia]).
Qed.
End usermem.
