(* ===== verification/Fs.v ===== *)
(** * The file system: kernel/fs.c

    Block allocation, inodes, file contents, directories and paths, on the
    state of the kernel. The block layer is reached through the interface of
    file Block and the log through file Log. *)

From S2P Require Import Prelude Riscv Headers Mem Kalloc Vm Sleeplock Block Log State Sched Copy.

(** Bytes [o .. o+m) of a block. *)
Definition slice (o m : Z) (d : block) : block := take (Z.to_nat m) (drop (Z.to_nat o) d).

(** ** On-disk inodes *)

(** The fields of the [struct dinode] at byte offset [o] of a block. *)
Definition di_type (d : block) (o : nat) : Z := i16 (rd16 d o).
Definition di_major (d : block) (o : nat) : Z := i16 (rd16 d (o + 2)).
Definition di_minor (d : block) (o : nat) : Z := i16 (rd16 d (o + 4)).
Definition di_nlink (d : block) (o : nat) : Z := i16 (rd16 d (o + 6)).
Definition di_size (d : block) (o : nat) : Z := rd32 d (o + 8).
Definition di_addrs (d : block) (o : nat) : list Z :=
  (fun i : nat => rd32 d (o + 12 + 4 * i)) <$> seq 0 13.

Fixpoint wr_addrs (l : list Z) (o : nat) (d : block) : block :=
  match l with
  | [] => d
  | a :: l => wr_addrs l (o + 4) (wr32 o a d)
  end.

(** [(struct dinode* )bp->data + inum % IPB], as a byte offset. *)
Definition di_off (inum : Z) : nat := Z.to_nat (inum mod IPB * DINODE).

(** The assignments of [iupdate]. *)
Definition put_dinode (ip : inode) (o : nat) (d : block) : block :=
  wr_addrs (i_addrs ip) (o + 12)
    (wr32 (o + 8) (i_size ip)
      (wr16 (o + 6) (i_nlink ip)
        (wr16 (o + 4) (i_minor ip)
          (wr16 (o + 2) (i_major ip) (wr16 o (i_type ip) d))))).

(** The assignments of [ilock]. *)
Definition get_dinode (d : block) (o : nat) (ip : inode) : inode :=
  Inode (i_dev ip) (i_inum ip) (i_ref ip) (i_lock ip) (i_valid ip)
    (di_type d o) (di_major d o) (di_minor d o) (di_nlink d o) (di_size d o) (di_addrs d o).

(** The superblock in the first bytes of a block. *)
Definition sb_of (d : block) : superblock :=
  SuperBlock (rd32 d 0) (rd32 d 4) (rd32 d 8) (rd32 d 12) (rd32 d 16) (rd32 d 20) (rd32 d 24) (rd32 d 28).

(** ** Paths *)

(** A path is the bytes of its string; ['/'] is 47. *)
Definition slash : Z := 47.

Fixpoint skip_slashes (path : list Z) : list Z :=
  match path with
  | c :: rest => if c =? slash then skip_slashes rest else path
  | [] => []
  end.
(** [while (path is neither '/' nor at its end) path++]: the element and the rest. *)
Fixpoint split_elem (path : list Z) : list Z * list Z :=
  match path with
  | c :: rest => if c =? slash then ([], path) else let (e, r) := split_elem rest in (c :: e, r)
  | [] => ([], [])
  end.

(** The next element, cut to [DIRSIZ] bytes, and the path after it. *)
Definition skipelem (path : list Z) : option (list Z * list Z) :=
  match skip_slashes path with
  | [] => None
  | p => let (s, r) := split_elem p in Some (take (Z.to_nat DIRSIZ) s, skip_slashes r)
  end.

(** [strncmp] on bytes; a string shorter than the index ends with a NUL. *)
Fixpoint strncmp_bytes (n : nat) (s t : list Z) : Z :=
  match n with
  | O => 0
  | S n =>
      let p := default 0 (head s) in let q := default 0 (head t) in
      if negb (p =? 0) && (p =? q) then strncmp_bytes n (tail s) (tail t) else p - q
  end.
Definition namecmp (s t : list Z) : Z := strncmp_bytes (Z.to_nat DIRSIZ) s t.

(** [strncpy]: the bytes up to the NUL, and NULs up to [n]. *)
Definition strncpy_bytes (n : nat) (s : list Z) : list Z := take n s ++ replicate (n - length s) 0.

Section fs.
Context `{LK : Linker} {KD : KData} {W : Wakes} {St : Type} {BO : BlockOps St}.

(** ** Buffers *)

Definition kbread (dev bno : Z) : K St Z := on_blk (bread dev bno).
Definition kbrelse (b : Z) : K St unit := on_blk (brelse b).
Definition bdata (b : Z) : K St block := gets (fun k => b_data (blks (fsk k)) b).
Definition set_bdata (b : Z) (d : block) : K St unit :=
  modify (fun k => set_fsk (set_blks (b_setdata b d (blks (fsk k))) (fsk k)) k).
Definition klog_write (b : Z) : K St unit := on_log (log_write b).
Definition kbegin_op : K St unit := on_log (begin_op (S wakes)).
Definition kend_op : K St unit := on_log end_op.
Definition the_sb : K St superblock := gets sb.

Definition readsb (dev : Z) : K St superblock :=
  bp ← kbread dev 1;
  d ← bdata bp;
  kbrelse bp;;
  mret (sb_of d).

(** ** Blocks *)

Definition bzero (dev bno : Z) : K St unit :=
  bp ← kbread dev bno;
  set_bdata bp zero_block;;
  klog_write bp;;
  kbrelse bp.

(** The inner loop of [balloc] over the bits of one bitmap block: the bit that
    is taken, if any. *)
Fixpoint balloc_scan (n : nat) (bi b size : Z) (d : block) : option Z :=
  match n with
  | O => None
  | S n =>
      if b + bi <? size then
        if Z.land (d !!! Z.to_nat (bi / 8)) (Z.shiftl 1 (bi mod 8)) =? 0 then Some bi
        else balloc_scan n (bi + 1) b size d
      else None
  end.

Fixpoint balloc_loop (fuel : nat) (dev b : Z) : K St Z :=
  match fuel with
  | O => nofuel
  | S fuel =>
      s ← the_sb;
      if b <? sb_size s then
        bp ← kbread dev (BBLOCK b s);
        d ← bdata bp;
        match balloc_scan (Z.to_nat BPB) 0 b (sb_size s) d with
        | Some bi =>
            let o := Z.to_nat (bi / 8) in
            set_bdata bp (<[o := Z.lor (d !!! o) (Z.shiftl 1 (bi mod 8))]> d);;
            klog_write bp;;
            kbrelse bp;;
            bzero dev (b + bi);;
            mret (b + bi)
        | None => kbrelse bp;; balloc_loop fuel dev (b + BPB)
        end
      else
        kprintf "balloc: out of blocks";;
        mret 0
  end.
Definition balloc (dev : Z) : K St Z :=
  s ← the_sb;
  balloc_loop (Z.to_nat (sb_size s / BPB + 2)) dev 0.

Definition bfree (dev b : Z) : K St unit :=
  s ← the_sb;
  bp ← kbread dev (BBLOCK b s);
  d ← bdata bp;
  let bi := b mod BPB in
  let m := Z.shiftl 1 (bi mod 8) in
  let o := Z.to_nat (bi / 8) in
  if Z.land (d !!! o) m =? 0 then panic "freeing free block"
  else
    set_bdata bp (<[o := Z.land (d !!! o) (Z.lnot m)]> d);;
    klog_write bp;;
    kbrelse bp.

(** ** Inodes *)

Definition iinit : K St unit :=
  for_each (seqZ 0 NINODE) (fun i => mod_inode i (set_ilock initsleeplock)).

(** The scan of [iget]: the entry of the inode, or else the first empty one. *)
Fixpoint iget_scan (l : list Z) (empty dev inum : Z) (k : kernel St) : Z + Z :=
  match l with
  | [] => inr empty
  | i :: l =>
      let ip := inode_at k i in
      if (0 <? i_ref ip) && (i_dev ip =? dev) && (i_inum ip =? inum) then inl i
      else iget_scan l (if (empty =? NULL) && (i_ref ip =? 0) then i else empty) dev inum k
  end.

Definition iget (dev inum : Z) : K St Z :=
  acquire LItable;;
  r ← gets (iget_scan (seqZ 0 NINODE) NULL dev inum);
  match r with
  | inl ip =>
      mod_inode ip (fun i => set_iref (i_ref i + 1) i);;
      release LItable;;
      mret ip
  | inr ip =>
      if ip =? NULL then panic "iget: no inodes"
      else
        mod_inode ip (fun i => Inode dev inum 1 (i_lock i) false (i_type i) (i_major i) (i_minor i) (i_nlink i) (i_size i) (i_addrs i));;
        release LItable;;
        mret ip
  end.

Fixpoint ialloc_loop (l : list Z) (dev type : Z) : K St Z :=
  match l with
  | [] => kprintf "ialloc: no inodes";; mret NULL
  | inum :: l =>
      s ← the_sb;
      bp ← kbread dev (IBLOCK inum s);
      d ← bdata bp;
      let o := di_off inum in
      if di_type d o =? 0 then
        set_bdata bp (wr16 o type (splice o (replicate (Z.to_nat DINODE) 0) d));;
        klog_write bp;;
        kbrelse bp;;
        iget dev inum
      else
        kbrelse bp;;
        ialloc_loop l dev type
  end.
Definition ialloc (dev type : Z) : K St Z :=
  s ← the_sb;
  ialloc_loop (seqZ 1 (sb_ninodes s - 1)) dev type.

Definition iupdate (ip : Z) : K St unit :=
  i ← the_inode ip id;
  s ← the_sb;
  bp ← kbread (i_dev i) (IBLOCK (i_inum i) s);
  d ← bdata bp;
  set_bdata bp (put_dinode i (di_off (i_inum i)) d);;
  klog_write bp;;
  kbrelse bp.

Definition idup (ip : Z) : K St Z :=
  acquire LItable;;
  mod_inode ip (fun i => set_iref (i_ref i + 1) i);;
  release LItable;;
  mret ip.

Definition ilock (ip : Z) : K St unit :=
  r ← the_inode ip i_ref;
  if (ip =? NULL) || (r <? 1) then panic "ilock"
  else
    on_ilock ip acquiresleep;;
    i ← the_inode ip id;
    if negb (i_valid i) then
      s ← the_sb;
      bp ← kbread (i_dev i) (IBLOCK (i_inum i) s);
      d ← bdata bp;
      mod_inode ip (get_dinode d (di_off (i_inum i)));;
      kbrelse bp;;
      mod_inode ip (set_ivalid true);;
      t ← the_inode ip i_type;
      if t =? 0 then panic "ilock: no type" else mret tt
    else mret tt.

Definition iunlock (ip : Z) : K St unit :=
  if ip =? NULL then panic "iunlock"
  else
    h ← on_ilock ip (fun l _ => holdingsleep l);
    r ← the_inode ip i_ref;
    if negb h || (r <? 1) then panic "iunlock"
    else on_ilock ip releasesleep.

(** ** Contents *)

(** [if ((addr = ip->addrs[i]) == 0) { addr = balloc(ip->dev); ... }] *)
Definition bmap_addr (ip i : Z) : K St Z :=
  x ← the_inode ip id;
  let addr := i_addrs x !!! Z.to_nat i in
  if addr =? 0 then
    addr ← balloc (i_dev x);
    if addr =? 0 then mret 0
    else
      mod_inode ip (fun x => set_addrs (<[Z.to_nat i := addr]> (i_addrs x)) x);;
      mret addr
  else mret addr.

Definition bmap (ip bn : Z) : K St Z :=
  if bn <? NDIRECT then bmap_addr ip bn
  else
    let bn := bn - NDIRECT in
    if bn <? NINDIRECT then
      addr ← bmap_addr ip NDIRECT;
      if addr =? 0 then mret 0
      else
        dev ← the_inode ip i_dev;
        bp ← kbread dev addr;
        d ← bdata bp;
        let addr := rd32 d (Z.to_nat (4 * bn)) in
        addr ← (if addr =? 0 then
                  addr ← balloc dev;
                  (if negb (addr =? 0) then
                     d ← bdata bp;
                     set_bdata bp (wr32 (Z.to_nat (4 * bn)) addr d);;
                     klog_write bp
                   else mret tt);;
                  mret addr
                else mret addr);
        kbrelse bp;;
        mret addr
    else panic "bmap: out of range".

Definition itrunc (ip : Z) : K St unit :=
  for_each (seqZ 0 NDIRECT) (fun i =>
    x ← the_inode ip id;
    let a := i_addrs x !!! Z.to_nat i in
    if negb (a =? 0) then
      bfree (i_dev x) a;;
      mod_inode ip (fun x => set_addrs (<[Z.to_nat i := 0]> (i_addrs x)) x)
    else mret tt);;
  x ← the_inode ip id;
  let a := i_addrs x !!! Z.to_nat NDIRECT in
  (if negb (a =? 0) then
     bp ← kbread (i_dev x) a;
     for_each (seqZ 0 NINDIRECT) (fun j =>
       d ← bdata bp;
       let b := rd32 d (Z.to_nat (4 * j)) in
       if negb (b =? 0) then bfree (i_dev x) b else mret tt);;
     kbrelse bp;;
     bfree (i_dev x) a;;
     mod_inode ip (fun x => set_addrs (<[Z.to_nat NDIRECT := 0]> (i_addrs x)) x)
   else mret tt);;
  mod_inode ip (set_isize 0);;
  iupdate ip.

Definition iput (ip : Z) : K St unit :=
  acquire LItable;;
  i ← the_inode ip id;
  (if (i_ref i =? 1) && i_valid i && (i_nlink i =? 0) then
     on_ilock ip acquiresleep;;
     release LItable;;
     itrunc ip;;
     mod_inode ip (set_itype 0);;
     iupdate ip;;
     mod_inode ip (set_ivalid false);;
     on_ilock ip releasesleep;;
     acquire LItable
   else mret tt);;
  mod_inode ip (fun i => set_iref (i_ref i - 1) i);;
  release LItable.

Definition iunlockput (ip : Z) : K St unit :=
  iunlock ip;;
  iput ip.

Definition ireclaim (dev : Z) : K St unit :=
  s ← the_sb;
  for_each (seqZ 1 (sb_ninodes s - 1)) (fun inum =>
    s ← the_sb;
    bp ← kbread dev (IBLOCK inum s);
    d ← bdata bp;
    let o := di_off inum in
    ip ← (if negb (di_type d o =? 0) && (di_nlink d o =? 0) then
            kprintf "ireclaim: orphaned inode %d";;
            iget dev inum
          else mret NULL);
    kbrelse bp;;
    if negb (ip =? NULL) then
      kbegin_op;;
      ilock ip;;
      iunlock ip;;
      iput ip;;
      kend_op
    else mret tt).

Definition fsinit (dev : Z) : K St unit :=
  s ← readsb dev;
  modify (set_sb s);;
  if negb (sb_magic s =? FSMAGIC) then panic "invalid file system"
  else
    on_log (initlog dev (sb_logstart s));;
    ireclaim dev.

(** [struct stat] as bytes. *)
Definition stati (i : inode) : list Z :=
  wr32 0 (i_dev i) (wr32 4 (i_inum i) (wr16 8 (i_type i) (wr16 10 (i_nlink i) (replicate 12 0)))) ++
  st_pad ++ wr32 0 (i_size i) (replicate 8 0).

Fixpoint readi_loop (fuel : nat) (ip : Z) (dst : place) (tot n off : Z) (acc : list Z) : K St (Z * list Z) :=
  match fuel with
  | O => nofuel
  | S fuel =>
      if tot <? n then
        addr ← bmap ip (off / BSIZE);
        if addr =? 0 then mret (tot, acc)
        else
          dev ← the_inode ip i_dev;
          bp ← kbread dev addr;
          let m := Z.min (n - tot) (BSIZE - off mod BSIZE) in
          d ← bdata bp;
          let bs := slice (off mod BSIZE) m d in
          r ← either_copyout dst bs;
          if r =? -1 then
            kbrelse bp;;
            mret (u32 (-1), acc)
          else
            kbrelse bp;;
            readi_loop fuel ip (place_add dst m) (tot + m) n (u32 (off + m)) (acc ++ bs)
      else mret (tot, acc)
  end.
(** The result, and the bytes delivered to a local variable. *)
Definition readi (ip : Z) (dst : place) (off n : Z) : K St (Z * list Z) :=
  size ← the_inode ip i_size;
  if (size <? off) || (u32 (off + n) <? off) then mret (0, [])
  else
    let n := if size <? off + n then size - off else n in
    r ← readi_loop (Z.to_nat (n / BSIZE + 3)) ip dst 0 n off [];
    mret (i32 r.1, r.2).

(** The loop of [writei]; it returns [tot] and [off]. *)
Fixpoint writei_loop (fuel : nat) (ip : Z) (src : source) (tot n off : Z) : K St (Z * Z) :=
  match fuel with
  | O => nofuel
  | S fuel =>
      if tot <? n then
        addr ← bmap ip (off / BSIZE);
        if addr =? 0 then mret (tot, off)
        else
          dev ← the_inode ip i_dev;
          bp ← kbread dev addr;
          let m := Z.min (n - tot) (BSIZE - off mod BSIZE) in
          d ← bdata bp;
          r ← either_copyin (slice (off mod BSIZE) m d) src;
          set_bdata bp (splice (Z.to_nat (off mod BSIZE)) r.2 d);;
          if r.1 =? -1 then
            kbrelse bp;;
            mret (tot, off)
          else
            klog_write bp;;
            kbrelse bp;;
            writei_loop fuel ip (source_add src m) (tot + m) n (u32 (off + m))
      else mret (tot, off)
  end.
Definition writei (ip : Z) (src : source) (off n : Z) : K St Z :=
  size ← the_inode ip i_size;
  if (size <? off) || (u32 (off + n) <? off) then mret (-1)
  else if MAXFILE * BSIZE <? off + n then mret (-1)
  else
    r ← writei_loop (Z.to_nat (n / BSIZE + 3)) ip src 0 n off;
    size ← the_inode ip i_size;
    (if size <? r.2 then mod_inode ip (set_isize r.2) else mret tt);;
    iupdate ip;;
    mret (i32 r.1).

(** ** Directories *)

(** A [struct dirent]: the inode number and the name. *)
Definition de_inum (de : list Z) : Z := rd16 de 0.
Definition de_name (de : list Z) : list Z := drop 2 de.
Definition dirent (inum : Z) (name : list Z) : list Z :=
  wr16 0 inum (replicate 2 0) ++ strncpy_bytes (Z.to_nat DIRSIZ) name.

(** The loop of [dirlookup]; it returns the inode and the offset. *)
Fixpoint dirlookup_loop (fuel : nat) (dp : Z) (name : list Z) (off : Z) : K St (Z * Z) :=
  match fuel with
  | O => nofuel
  | S fuel =>
      size ← the_inode dp i_size;
      if off <? size then
        r ← readi dp PLocal off DIRENT;
        if negb (r.1 =? DIRENT) then panic "dirlookup read"
        else
          let de := r.2 in
          if de_inum de =? 0 then dirlookup_loop fuel dp name (u32 (off + DIRENT))
          else if namecmp name (de_name de) =? 0 then
            dev ← the_inode dp i_dev;
            ip ← iget dev (de_inum de);
            mret (ip, off)
          else dirlookup_loop fuel dp name (u32 (off + DIRENT))
      else mret (NULL, 0)
  end.
Definition dirlookup (dp : Z) (name : list Z) : K St (Z * Z) :=
  i ← the_inode dp id;
  if negb (i_type i =? T_DIR) then panic "dirlookup not DIR"
  else dirlookup_loop (Z.to_nat (i_size i / DIRENT + 2)) dp name 0.

(** The scan of [dirlink] for an empty entry. *)
Fixpoint dirlink_loop (fuel : nat) (dp off : Z) : K St Z :=
  match fuel with
  | O => nofuel
  | S fuel =>
      size ← the_inode dp i_size;
      if off <? size then
        r ← readi dp PLocal off DIRENT;
        if negb (r.1 =? DIRENT) then panic "dirlink read"
        else if de_inum r.2 =? 0 then mret off
        else dirlink_loop fuel dp (off + DIRENT)
      else mret off
  end.
Definition dirlink (dp : Z) (name : list Z) (inum : Z) : K St Z :=
  r ← dirlookup dp name;
  if negb (r.1 =? NULL) then
    iput r.1;;
    mret (-1)
  else
    i ← the_inode dp id;
    off ← dirlink_loop (Z.to_nat (i_size i / DIRENT + 2)) dp 0;
    w ← writei dp (SLocal (dirent inum name)) off DIRENT;
    if negb (w =? DIRENT) then mret (-1) else mret 0.

(** ** Names *)

(** [while ((path = skipelem(path, name)) != 0)]; the result is the inode and
    the last element. Each turn shortens the path. *)
Fixpoint namex_loop (fuel : nat) (ip : Z) (path name : list Z) (nameiparent : bool) : K St (Z * list Z) :=
  match fuel with
  | O => nofuel
  | S fuel =>
      match skipelem path with
      | Some (name, path) =>
          ilock ip;;
          t ← the_inode ip i_type;
          if negb (t =? T_DIR) then
            iunlockput ip;;
            mret (NULL, name)
          else if nameiparent && bool_decide (path = []) then
            iunlock ip;;
            mret (ip, name)
          else
            r ← dirlookup ip name;
            if r.1 =? NULL then
              iunlockput ip;;
              mret (NULL, name)
            else
              iunlockput ip;;
              namex_loop fuel r.1 path name nameiparent
      | None =>
          if nameiparent then
            iput ip;;
            mret (NULL, name)
          else mret (ip, name)
      end
  end.
Definition namex (path : list Z) (nameiparent : bool) : K St (Z * list Z) :=
  ip ← (if bool_decide (head path = Some slash) then iget ROOTDEV ROOTINO
        else
          p ← myproc;
          cwd ← the_proc p p_cwd;
          idup cwd);
  namex_loop (S (length path)) ip path [] nameiparent.

Definition namei (path : list Z) : K St Z :=
  r ← namex path false;
  mret r.1.

Definition nameiparent (path : list Z) : K St (Z * list Z) := namex path true.
End fs.
