(* ===== verification/FsBase.v ===== *)
(** * Blocks as the file system sees them

    The interface between the log and the block layer on one side and
    kernel/fs.c on the other: inside a transaction, [fsv] says what every block
    reads as, which buffers are open and which blocks are in the log. Reading,
    logging and releasing a buffer are specified in terms of it, for any
    implementation of the block interface. *)

From S2P Require Import Prelude Riscv Headers Mem Kalloc Vm Sleeplock Block Log LogSteps LogSafe LogCrash LogOps State Sched SchedProps Copy Fs.

(** Block [b] becomes [d]. *)
Definition vset (b : Z) (d : block) (V : Z -> block) : Z -> block := fun x => if decide (x = b) then d else V x.

Lemma vset_eq b d V : vset b d V b = d.
Proof. unfold vset. by rewrite decide_True. Qed.
Lemma vset_ne b d V x : x <> b -> vset b d V x = V x.
Proof. intros. unfold vset. by rewrite decide_False. Qed.

(** The blocks in the log header. *)
Definition logset (lg : logst) : gset Z := list_to_set (bno lg <$> seqZ 0 (lh_n lg)).

Lemma elem_of_logset lg b : b ∈ logset lg <-> logged lg b.
Proof.
  unfold logset, logged. rewrite elem_of_list_to_set, list_elem_of_fmap. setoid_rewrite elem_of_seqZ. split.
  - intros (j & -> & Hj). exists j. split; [lia|done].
  - intros (j & Hj & <-). exists j. split; [done|lia].
Qed.
Lemma size_logset lg : log_wf lg -> Z.of_nat (size (logset lg)) = lh_n lg.
Proof.
  intros Hw. pose proof (wf_n _ Hw). unfold logset. rewrite size_list_to_set, length_fmap, length_seqZ; [lia|].
  apply NoDup_fmap_2_strong; [|apply NoDup_seqZ]. intros i j Hi Hj. apply elem_of_seqZ in Hi, Hj. by apply bno_inj; [|lia..].
Qed.

(** ** Frames *)

Section frames.
Context {St : Type}.
Implicit Types k : kernel St.

(** The process in slot [m] has woken others. *)
Record woke (m : Z) k k' : Prop := {
  wk_same : same_but_procs k k';
  wk_me : proc_at k' m = proc_at k m;
  wk_procs q : proc_at k' q = proc_at k q \/ proc_at k' q = set_state RUNNABLE (proc_at k q);
}.

(** Only the file system's blocks have changed besides. *)
Record fs_frame (m : Z) k k' : Prop := {
  ff_eq : k' = set_procs (procs k') (set_fsk (fsk k') k);
  ff_me : proc_at k' m = proc_at k m;
  ff_procs q : proc_at k' q = proc_at k q \/ proc_at k' q = set_state RUNNABLE (proc_at k q);
}.

Definition fs_step (c : ctx) k (c' : ctx) k' : Prop := same_locks c c' /\ fs_frame (me c) k k'.

Lemma runnable_twice (x y z : proc) : (y = x \/ y = set_state RUNNABLE x) -> (z = y \/ z = set_state RUNNABLE y) ->
  z = x \/ z = set_state RUNNABLE x.
Proof. intros [->| ->] [->| ->]; auto. Qed.

Lemma woke_refl m k : woke m k k.
Proof. split; [apply same_but_procs_refl|done|by left]. Qed.
Lemma woke_trans m k1 k2 k3 : woke m k1 k2 -> woke m k2 k3 -> woke m k1 k3.
Proof.
  intros [H1 H2 H3] [H4 H5 H6]. split; [by eapply same_but_procs_trans|congruence|]. intros q. by eapply runnable_twice.
Qed.

Lemma fs_step_same c c' k : same_locks c c' -> fs_step c k c' k.
Proof. intros Hs. split; [done|]. split; [by destruct k as [????????????]|done|by left]. Qed.
Lemma fs_step_refl c k : fs_step c k c k.
Proof. by apply fs_step_same. Qed.
Lemma fs_step_trans c1 k1 c2 k2 c3 k3 : fs_step c1 k1 c2 k2 -> fs_step c2 k2 c3 k3 -> fs_step c1 k1 c3 k3.
Proof.
  intros [Hs1 [H1 H2 H3]] [Hs2 [H4 H5 H6]]. split; [by eapply same_locks_trans|].
  assert (me c2 = me c1) as Em by apply Hs1. rewrite Em in H5.
  split; [rewrite H4, H1; done|congruence|]. intros q. by eapply runnable_twice.
Qed.
Lemma fs_step_set c c' k s k' : same_locks c c' -> woke (me c) (set_fsk s k) k' -> fs_step c k c' k' /\ fsk k' = s.
Proof.
  intros Hs [H1 H2 H3]. unfold same_but_procs in H1. split; [|by rewrite H1]. split; [done|]. split; [by rewrite H1|done|done].
Qed.

(** What a step leaves alone. *)
Lemma fs_step_sb c k c' k' : fs_step c k c' k' -> sb k' = sb k.
Proof. intros [_ [-> _ _]]. done. Qed.
Lemma fs_step_inode c k c' k' i : fs_step c k c' k' -> inode_at k' i = inode_at k i.
Proof. intros [_ [-> _ _]]. done. Qed.
Lemma fs_step_me c k c' k' : fs_step c k c' k' -> me c' = me c.
Proof. intros [Hs _]. apply Hs. Qed.

Lemma wake_woke m ch k : woke m k (wake m ch k).
Proof.
  split; [apply wake_list_same|by rewrite wake_proc, decide_False by tauto|]. intros q. rewrite wake_proc.
  case_decide; [|by left]. unfold woken. destruct (_ && _); auto.
Qed.

Lemma deliver_run evs : forall c k, (forall p, LProc p ∉ held c) ->
  exists c' k', deliver evs c k = Ok tt c' k' /\ same_locks c c' /\ woke (me c) k k'.
Proof.
  induction evs as [|e evs IH]; intros c k Hl; cbn [deliver]; [exists c, k; split_and!; [done..|apply woke_refl]|].
  destruct e as [ch|msg].
  2: { destruct (IH (Ctx (held c) (trace c ++ [EvPrint msg]) (me c) (mypid c)) k Hl) as (c' & k' & Hr & Hs & Hw).
       exists c', k'. split; [erewrite bind_ok; [exact Hr|reflexivity]|by split]. }
  rewrite (bind_ok _ _ c k tt c (wake (me c) ch k)) by (by apply wakeup_run).
  destruct (IH c (wake (me c) ch k) Hl) as (c' & k' & Hr & Hs & Hw). exists c', k'. split_and!; [done..|].
  eapply woke_trans; [apply wake_woke|done].
Qed.

Lemma lift_ok {S A} (view : kernel St -> S) upd (m : M S A) c k a c1 s1 : (forall p, LProc p ∉ held c) ->
  m (set_trace [] c) (view k) = Ok a c1 s1 -> same_locks c c1 ->
  exists c' k', lift view upd m c k = Ok a c' k' /\ same_locks c c' /\ woke (me c) (upd s1 k) k'.
Proof.
  intros Hl Hm (Hs1 & Hs2 & Hs3). unfold lift. rewrite Hm. cbn [olift].
  destruct (deliver_run (trace c1) (set_trace (trace c) c1) (upd s1 k)) as (c' & k' & Hr & (Ht1 & Ht2 & Ht3) & Hw).
  { intros p. cbn [set_trace held]. by rewrite Hs1. }
  exists c', k'. split; [erewrite bind_ok; [|exact Hr]; done|]. cbn [set_trace held me mypid] in *. rewrite <- Hs2.
  split; [|done]. split_and!; congruence.
Qed.
End frames.

(** ** Inside a transaction *)

(** The blocks of the log itself. *)
Definition log_area (s : superblock) (b : Z) : Prop := sb_logstart s <= b <= sb_logstart s + LOGBLOCKS.

Section fsv.
Context {St : Type} {BO : BlockOps St} {dev pid : Z} {BL : BlockLaws St dev pid}.
Implicit Types k : kernel St.

(** The locks that the log and the block layer take are free. *)
Definition fs_locks (c : ctx) : Prop := block_locks pid c /\ (LLog ∉ held c) /\ forall p, LProc p ∉ held c.

Record fs_abs k (V : Z -> block) (H : gmap Z Z) (L : gset Z) (a : bstate) : Prop := {
  fa_abs : babs (blks (fsk k)) a;
  fa_inv : log_inv (lgs (fsk k)) a;
  fa_handles : handles a = H;
  fa_content b : content a b = V b;
  fa_clean b : b ∉ L -> content a b = dblock (disk a) b;
  fa_logset : L = logset (lgs (fsk k));
  fa_out : 1 <= outstanding (lgs (fsk k));
  fa_start : start (lgs (fsk k)) = sb_logstart (sb k);
}.

(** Every block [b] reads as [V b]; the open buffers are [H], from buffer to
    block; the blocks in the log are [L]. *)
Definition fsv k (V : Z -> block) (H : gmap Z Z) (L : gset Z) : Prop := exists a, fs_abs k V H L a.

Lemma fs_locks_same c c' : same_locks c c' -> fs_locks c -> fs_locks c'.
Proof.
  intros Hs (H1 & H2 & H3). split; [by eapply block_locks_same|]. destruct Hs as (-> & _ & _). done.
Qed.
Lemma fs_locks_step c k c' k' : fs_step c k c' k' -> fs_locks c -> fs_locks c'.
Proof. intros [Hs _]. by apply fs_locks_same. Qed.

Lemma fsv_len k V H L b : fsv k V H L -> length (V b) = Z.to_nat BSIZE.
Proof. intros [a Ha]. rewrite <- (fa_content _ _ _ _ _ Ha). eapply babs_len, Ha. Qed.

Lemma fsv_ext k k' V V' H L : fsk k' = fsk k -> sb k' = sb k -> (forall b, V b = V' b) -> fsv k V H L -> fsv k' V' H L.
Proof.
  intros E1 E2 HV [a [H1 H2 H3 H4 H5 H6 H7 H8]]. exists a. split; rewrite ?E1, ?E2; try done. intros b. by rewrite <- HV.
Qed.

Lemma dirty_size V H L k a b : fs_abs k V H L a -> Z.of_nat (size L + size H) < NBUF ->
  (size (dom (dirty a) ∪ {[b]}) <= Z.to_nat NBUF)%nat.
Proof.
  intros Ha Hsz.
  assert (dom (dirty a) ∪ {[b]} ⊆ L ∪ list_to_set ((map_to_list H).*2) ∪ {[b]}) as Hsub.
  { apply union_mono_r. intros x Hx. apply elem_of_dom in Hx. rewrite elem_of_union, (fa_logset _ _ _ _ _ Ha), elem_of_logset.
    destruct (li_dirty _ _ (fa_inv _ _ _ _ _ Ha) x Hx) as [?|[h Hh]]; [by left|right].
    apply elem_of_list_to_set, list_elem_of_fmap. exists (h, x). split; [done|]. apply elem_of_map_to_list.
    by rewrite <- (fa_handles _ _ _ _ _ Ha). }
  apply subseteq_size in Hsub. pose proof (size_list_le ((map_to_list H).*2)) as Hl. rewrite length_fmap, length_map_to_list in Hl.
  assert (forall X Y : gset Z, size (X ∪ Y) <= size X + size Y)%nat as Hu.
  { intros X Y. rewrite size_union_alt. assert (size (Y ∖ X) <= size Y)%nat by (apply subseteq_size; set_solver). lia. }
  pose proof (Hu L (list_to_set ((map_to_list H).*2))). pose proof (Hu (L ∪ list_to_set ((map_to_list H).*2)) {[b]}) as H2.
  rewrite size_singleton in H2. lia.
Qed.

Lemma kbread_run k V H L b c : fs_locks c -> fsv k V H L -> 0 <= b < 2 ^ 32 -> ~ log_area (sb k) b ->
  (forall h, H !! h <> Some b) -> Z.of_nat (size L + size H) < NBUF ->
  exists h c' k', kbread dev b c k = Ok h c' k' /\ fs_step c k c' k' /\ H !! h = None /\ fsv k' V (<[h := b]> H) L.
Proof.
  intros (Hl1 & Hl2 & Hl3) [a Ha] Hb Hnl Hno Hsz. pose proof Ha as [H1 H2 H3 H4 H5 H6 H7 H8].
  destruct (bread_law (blks (fsk k)) a b (set_trace [] c) H1) as (h & c1 & s1 & Hr & Hs & Hh & Ha1); [done|done| |by eapply dirty_size|].
  { intros [h Hh]. by apply (Hno h); rewrite <- H3. }
  destruct (lift_ok (fun k => blks (fsk k)) (fun s k => set_fsk (set_blks s (fsk k)) k) _ c k _ _ _ Hl3 Hr) as (c' & k' & Hr' & Hs' & Hw); [done|].
  destruct (fs_step_set c c' k _ k' Hs' Hw) as [Hst Hk']. exists h, c', k'. split; [done|]. split; [done|]. split; [by rewrite <- H3|].
  assert (forall x, content (a_open h b a) x = content a x) as Hc.
  { intros x. unfold content at 1. cbn [a_open dirty disk]. rewrite lookup_insert. case_decide; [by subst|done]. }
  exists (a_open h b a). pose proof (fs_step_sb _ _ _ _ Hst) as Esb.
  split; rewrite ?Hk', ?Esb; cbn [set_blks lgs blks]; try done.
  - apply log_inv_open; [done| |done]. unfold in_log. by rewrite H8.
  - cbn [a_open handles]. by rewrite H3.
  - intros x. by rewrite Hc.
  - intros x Hx. rewrite Hc. by apply H5.
Qed.

Lemma bdata_run k V H L h b c : fsv k V H L -> H !! h = Some b -> bdata h c k = Ok (V b) c k.
Proof.
  intros [a [H1 _ H3 H4 _ _ _ _]] Hh. unfold bdata, gets. rewrite <- H3 in Hh.
  destruct (b_data_law _ _ _ _ H1 Hh) as [-> _]. by rewrite H4.
Qed.

Lemma kbrelse_run k V H L h b c : fs_locks c -> fsv k V H L -> H !! h = Some b ->
  exists c' k', kbrelse h c k = Ok tt c' k' /\ fs_step c k c' k' /\ fsv k' V (delete h H) L.
Proof.
  intros (Hl1 & Hl2 & Hl3) [a Ha] Hh. pose proof Ha as [H1 H2 H3 H4 H5 H6 H7 H8]. rewrite <- H3 in Hh.
  assert ((0 < npins a b)%nat \/ content a b = dblock (disk a) b) as Hor.
  { destruct (decide (b ∈ L)) as [Hin|Hn]; [left|right; by apply H5]. rewrite H6, elem_of_logset in Hin.
    destruct (li_pinned _ _ H2 b Hin) as [_ ->]. lia. }
  destruct (brelse_law (blks (fsk k)) a h b (set_trace [] c) H1 Hl1 Hh Hor) as (c1 & s1 & Hr & Hs & Ha1).
  destruct (lift_ok (fun k => blks (fsk k)) (fun s k => set_fsk (set_blks s (fsk k)) k) _ c k _ _ _ Hl3 Hr) as (c' & k' & Hr' & Hs' & Hw); [done|].
  destruct (fs_step_set c c' k _ k' Hs' Hw) as [Hst Hk']. exists c', k'. split; [done|]. split; [done|].
  assert (forall x, content (a_close h b a) x = content a x) as Hc.
  { intros x. unfold content at 1. cbn [a_close dirty disk]. case_decide as E; [|done]. rewrite lookup_delete. case_decide; [subst x|done].
    destruct Hor as [?|Hor]; [lia|]. by rewrite Hor. }
  exists (a_close h b a). pose proof (fs_step_sb _ _ _ _ Hst) as Esb.
  split; rewrite ?Hk', ?Esb; cbn [set_blks lgs blks]; try done.
  - by apply log_inv_close.
  - cbn [a_close handles]. by rewrite H3.
  - intros x. by rewrite Hc.
  - intros x Hx. rewrite Hc. by apply H5.
Qed.

(** The state after a store to the data of a buffer. *)
Definition with_data (h : Z) (d : block) k : kernel St := set_fsk (set_blks (b_setdata h d (blks (fsk k))) (fsk k)) k.

Lemma klog_write_run k V H L h b d c : fs_locks c -> fsv k V H L -> H !! h = Some b -> length d = Z.to_nat BSIZE ->
  0 <= b < 2 ^ 31 -> ~ log_area (sb k) b -> Z.of_nat (size L) < LOGBLOCKS ->
  exists c' k', klog_write h c (with_data h d k) = Ok tt c' k' /\ fs_step c k c' k' /\
    fsv k' (vset b d V) H (L ∪ {[b]}).
Proof.
  intros (Hl1 & Hl2 & Hl3) [a Ha] Hh Hd Hb Hnl Hsz. pose proof Ha as [H1 H2 H3 H4 H5 H6 H7 H8]. rewrite <- H3 in Hh.
  assert (~ in_log (lgs (fsk k)) b) as Hnl' by (unfold in_log; by rewrite H8).
  pose proof (b_setdata_law _ _ _ _ d H1 Hh Hd) as Ha1. pose proof (log_inv_set _ _ _ _ d H2 Hh Hnl') as Hi1.
  destruct (log_write_run (fsk (with_data h d k)) (a_set b d a) h b (set_trace [] c)) as (c1 & f1 & a1 & Hr & Ha2 & Hs & Hi2 & Hrec); try done.
  { cbn [with_data fsk set_fsk set_blks lgs]. rewrite <- size_logset, <- H6 by apply H2. done. }
  destruct (lift_ok fsk set_fsk _ c (with_data h d k) _ _ _ Hl3 Hr) as (c' & k' & Hr' & Hs' & Hw); [done|].
  assert (Hw' : woke (me c) (set_fsk f1 k) k') by exact Hw.
  destruct (fs_step_set c c' k _ k' Hs' Hw') as [Hst Hk']. exists c', k'. split; [done|]. split; [done|].
  destruct Hrec as [Hr1 _ Hr3 _ [Hr4 _] [Hr5 _] Hr6 Hr7]. cbn [with_data fsk set_fsk set_blks lgs] in Hr1, Hr3, Hr4.
  assert (forall x, content a1 x = vset b d V x) as Hc.
  { intros x. rewrite Hr7. unfold content, vset. cbn [a_set dirty disk]. rewrite lookup_insert. destruct (decide (b = x)) as [->|Hne].
    - by rewrite decide_True.
    - rewrite decide_False by done. apply H4. }
  exists a1. pose proof (fs_step_sb _ _ _ _ Hst) as Esb. split; rewrite ?Hk', ?Esb; try done.
  - by rewrite Hr6.
  - intros x Hx. apply not_elem_of_union in Hx as [Hx1 Hx2]. rewrite Hc, Hr5. cbn [a_set disk].
    rewrite vset_ne by set_solver. rewrite <- H4. by apply H5.
  - apply set_eq. intros x. rewrite elem_of_logset, Hr1, elem_of_union, elem_of_singleton, H6, elem_of_logset. tauto.
  - by rewrite Hr3.
  - by rewrite Hr4.
Qed.
End fsv.
