(* ===== verification/FsAlloc.v ===== *)
(** * Block allocation

    [balloc] and [bfree] of kernel/fs.c, in terms of the set of blocks that the
    bitmap marks as in use. *)

From S2P Require Import Prelude Riscv Headers Mem Kalloc Vm Sleeplock Block Log LogOps State Sched SchedProps Copy Fs FsBase.

(** ** Bits *)

Lemma bit_1 i j : 0 <= j -> 0 <= i -> Z.testbit (Z.shiftl 1 j) i = bool_decide (i = j).
Proof.
  intros Hj Hi. rewrite Z.shiftl_1_l, Z.pow2_bits_eqb by done. rewrite Z.eqb_sym.
  destruct (Z.eqb_spec i j); [by rewrite bool_decide_true|by rewrite bool_decide_false].
Qed.

Lemma land_bit v j : 0 <= j -> (Z.land v (Z.shiftl 1 j) =? 0) = negb (Z.testbit v j).
Proof.
  intros Hj. destruct (Z.testbit v j) eqn:E; cbn [negb].
  - apply Z.eqb_neq. intros H0. assert (Z.testbit (Z.land v (Z.shiftl 1 j)) j = true) as H1.
    { by rewrite Z.land_spec, E, bit_1, bool_decide_true. }
    by rewrite H0, Z.bits_0 in H1.
  - apply Z.eqb_eq, Z.bits_inj'. intros i Hi. rewrite Z.land_spec, Z.bits_0, bit_1 by done.
    case_bool_decide; [subst; by rewrite E|apply andb_false_r].
Qed.

(** ** The bitmap *)

(** Bit [i] of a bitmap block. *)
Definition bit_of (d : block) (i : Z) : bool := Z.testbit (d !!! Z.to_nat (i / 8)) (i mod 8).
Definition set_bit (d : block) (i : Z) : block :=
  <[Z.to_nat (i / 8) := Z.lor (d !!! Z.to_nat (i / 8)) (Z.shiftl 1 (i mod 8))]> d.
Definition clear_bit (d : block) (i : Z) : block :=
  <[Z.to_nat (i / 8) := Z.land (d !!! Z.to_nat (i / 8)) (Z.lnot (Z.shiftl 1 (i mod 8)))]> d.

Lemma byte_index i : 0 <= i < BPB -> (Z.to_nat (i / 8) < Z.to_nat BSIZE)%nat.
Proof. intros Hi. change BPB with 8192 in Hi. change BSIZE with 1024. Z.div_mod_to_equations. lia. Qed.

Lemma bit_insert (d : block) i j v : length d = Z.to_nat BSIZE -> 0 <= i < BPB -> 0 <= j < BPB ->
  (forall t, 0 <= t < 8 -> Z.testbit v t = if decide (t = i mod 8) then negb (bit_of d i) else Z.testbit (d !!! Z.to_nat (i / 8)) t) ->
  bit_of (<[Z.to_nat (i / 8) := v]> d) j = if decide (j = i) then negb (bit_of d i) else bit_of d j.
Proof.
  intros Hl Hi Hj Hv. unfold bit_of at 1. pose proof (Z.mod_pos_bound j 8 ltac:(lia)) as Hm.
  destruct (decide (Z.to_nat (i / 8) = Z.to_nat (j / 8))) as [E|E].
  - rewrite <- E, list_lookup_total_insert_eq by (rewrite Hl; by apply byte_index). rewrite Hv by done.
    assert (i / 8 = j / 8) as E' by (assert (0 <= i / 8 /\ 0 <= j / 8) by (split; apply Z.div_pos; lia); lia).
    pose proof (Z.div_mod i 8 ltac:(lia)). pose proof (Z.div_mod j 8 ltac:(lia)). repeat case_decide; try lia; [done|].
    unfold bit_of. by rewrite <- E'.
  - rewrite list_lookup_total_insert_ne by done. rewrite decide_False by congruence. done.
Qed.

Lemma bit_set d i j : length d = Z.to_nat BSIZE -> 0 <= i < BPB -> 0 <= j < BPB -> bit_of d i = false ->
  bit_of (set_bit d i) j = bool_decide (j = i) || bit_of d j.
Proof.
  intros Hl Hi Hj E. pose proof (Z.mod_pos_bound i 8 ltac:(lia)). unfold set_bit. rewrite (bit_insert d i j _ Hl Hi Hj).
  - rewrite E. case_decide; [by rewrite bool_decide_true|by rewrite bool_decide_false].
  - intros t Ht. rewrite Z.lor_spec, bit_1, E by lia. unfold bit_of in E.
    case_decide; [subst; by rewrite E, bool_decide_true|rewrite bool_decide_false by done; apply orb_false_r].
Qed.

Lemma bit_clear d i j : length d = Z.to_nat BSIZE -> 0 <= i < BPB -> 0 <= j < BPB -> bit_of d i = true ->
  bit_of (clear_bit d i) j = negb (bool_decide (j = i)) && bit_of d j.
Proof.
  intros Hl Hi Hj E. pose proof (Z.mod_pos_bound i 8 ltac:(lia)). unfold clear_bit. rewrite (bit_insert d i j _ Hl Hi Hj).
  - rewrite E. case_decide; [by rewrite bool_decide_true|by rewrite bool_decide_false].
  - intros t Ht. rewrite Z.land_spec, Z.lnot_spec, bit_1, E by lia. unfold bit_of in E.
    case_decide; [subst; by rewrite E, bool_decide_true|rewrite bool_decide_false by done; apply andb_true_r].
Qed.

(** The block [x] is marked as in use. *)
Definition used (s : superblock) (V : Z -> block) (x : Z) : bool := bit_of (V (BBLOCK x s)) (x mod BPB).

(** Where the bitmap is: after the log, in reach of a block number. *)
Record bitmap_ok (s : superblock) : Prop := {
  bm_size : 0 <= sb_size s < 2 ^ 31;
  bm_start : 0 <= sb_bmapstart s /\ sb_bmapstart s + sb_size s / BPB < 2 ^ 31;
  bm_log x : 0 <= x < sb_size s -> ~ log_area s (sb_bmapstart s + x / BPB);
}.

(** A block that may hold the data of a file. *)
Record data_block (s : superblock) (x : Z) : Prop := {
  db_range : 0 < x < sb_size s;
  db_log : ~ log_area s x;
  db_bitmap y : 0 <= y < sb_size s -> BBLOCK y s <> x;
  db_inodes y : 0 <= y < sb_ninodes s -> IBLOCK y s <> x;
}.
(** Blocks that are not in use are blocks of data, which no one has open. *)
Definition free_data (s : superblock) (V : Z -> block) (H : gmap Z Z) : Prop :=
  forall x, 0 <= x < sb_size s -> used s V x = false -> data_block s x /\ forall h, H !! h <> Some x.
(** No one has the bitmap open. *)
Definition bitmap_closed (s : superblock) (H : gmap Z Z) : Prop :=
  forall y h, 0 <= y < sb_size s -> H !! h <> Some (BBLOCK y s).

Lemma BBLOCK_eq s x : bitmap_ok s -> 0 <= x < sb_size s ->
  BBLOCK x s = sb_bmapstart s + x / BPB /\ 0 <= BBLOCK x s < 2 ^ 31 /\ ~ log_area s (BBLOCK x s).
Proof.
  intros [H1 H2 H3] Hx. assert (BBLOCK x s = sb_bmapstart s + x / BPB) as E.
  { unfold BBLOCK. rewrite u32_id; [lia|]. assert (0 <= x / BPB <= sb_size s / BPB) by (split; [apply Z.div_pos|apply Z.div_le_mono]; (done || lia)). lia. }
  split_and!; rewrite ?E; try done; try by apply H3.
  - assert (0 <= x / BPB) by (apply Z.div_pos; [lia|done]). lia.
  - assert (x / BPB <= sb_size s / BPB) by (apply Z.div_le_mono; [done|lia]). lia.
Qed.

Lemma BBLOCK_base s b i : (BPB | b) -> 0 <= i < BPB -> BBLOCK (b + i) s = BBLOCK b s /\ (b + i) mod BPB = i.
Proof.
  intros [q ->] Hi. unfold BBLOCK. rewrite (Z.add_comm (q * BPB) i), Z.div_add, Z.mod_add, Z.div_small, Z.div_mul, Z.mod_small by (done || lia). done.
Qed.

Lemma used_bits s V V' b b' d x y : bitmap_ok s -> 0 <= x < sb_size s -> 0 <= y < sb_size s ->
  V' = vset (BBLOCK x s) d V -> b = x mod BPB -> b' = y mod BPB ->
  (BBLOCK x s = BBLOCK y s -> x <> y -> b <> b') /\
  used s V' y = (if decide (BBLOCK y s = BBLOCK x s) then bit_of d b' else used s V y).
Proof.
  intros Hs Hx Hy -> -> ->. split.
  - destruct (BBLOCK_eq s x Hs Hx) as (-> & _), (BBLOCK_eq s y Hs Hy) as (-> & _). intros E Hne Em. apply Hne.
    rewrite (Z.div_mod x BPB), (Z.div_mod y BPB), Em by done. f_equal. f_equal. lia.
  - unfold used, vset. by case_decide.
Qed.

Lemma used_mark s V x y : bitmap_ok s -> 0 <= x < sb_size s -> 0 <= y < sb_size s -> length (V (BBLOCK x s)) = Z.to_nat BSIZE ->
  used s V x = false ->
  used s (vset (BBLOCK x s) (set_bit (V (BBLOCK x s)) (x mod BPB)) V) y = bool_decide (y = x) || used s V y.
Proof.
  intros Hs Hx Hy Hl Hu.
  destruct (used_bits s V _ (x mod BPB) (y mod BPB) (set_bit (V (BBLOCK x s)) (x mod BPB)) x y Hs Hx Hy eq_refl eq_refl eq_refl) as [Hne ->].
  assert (0 <= x mod BPB < BPB /\ 0 <= y mod BPB < BPB) as [? ?] by (split; by apply Z.mod_pos_bound). case_decide as E.
  - rewrite bit_set by done. unfold used. rewrite E. f_equal. apply bool_decide_ext. split; [|by intros ->].
    intros Em. destruct (decide (y = x)); [done|]. by destruct Hne.
  - rewrite bool_decide_false; [done|]. by intros ->.
Qed.

Lemma used_clear s V x y : bitmap_ok s -> 0 <= x < sb_size s -> 0 <= y < sb_size s -> length (V (BBLOCK x s)) = Z.to_nat BSIZE ->
  used s V x = true ->
  used s (vset (BBLOCK x s) (clear_bit (V (BBLOCK x s)) (x mod BPB)) V) y = negb (bool_decide (y = x)) && used s V y.
Proof.
  intros Hs Hx Hy Hl Hu.
  destruct (used_bits s V _ (x mod BPB) (y mod BPB) (clear_bit (V (BBLOCK x s)) (x mod BPB)) x y Hs Hx Hy eq_refl eq_refl eq_refl) as [Hne ->].
  assert (0 <= x mod BPB < BPB /\ 0 <= y mod BPB < BPB) as [? ?] by (split; by apply Z.mod_pos_bound). case_decide as E.
  - rewrite bit_clear by done. unfold used. rewrite E. do 2 f_equal. apply bool_decide_ext. split; [|by intros ->].
    intros Em. destruct (decide (y = x)); [done|]. by destruct Hne.
  - rewrite bool_decide_false; [done|]. by intros ->.
Qed.

(** ** balloc *)

Lemma balloc_scan_spec n : forall bi b size d, 0 <= bi ->
  match balloc_scan n bi b size d with
  | Some j => bi <= j < bi + Z.of_nat n /\ b + j < size /\ bit_of d j = false /\ forall i, bi <= i < j -> bit_of d i = true
  | None => forall i, bi <= i < bi + Z.of_nat n -> b + i < size -> bit_of d i = true
  end.
Proof.
  induction n as [|n IH]; intros bi b size d Hbi; cbn [balloc_scan]; [intros; lia|].
  destruct (Z.ltb_spec (b + bi) size) as [Hlt|Hlt]; [|intros; lia].
  rewrite land_bit by (apply Z.mod_pos_bound; lia). fold (bit_of d bi). destruct (bit_of d bi) eqn:E; cbn [negb].
  - specialize (IH (bi + 1) b size d ltac:(lia)). destruct (balloc_scan n (bi + 1) b size d) as [j|].
    + destruct IH as (H1 & H2 & H3 & H4). split_and!; try lia; [done|]. intros i Hi. destruct (decide (i = bi)); [by subst|]. apply H4. lia.
    + intros i Hi Hs. destruct (decide (i = bi)); [by subst|]. apply IH; lia.
  - split_and!; [lia..|done|]. intros; lia.
Qed.

Section alloc.
Context {St : Type} {BO : BlockOps St} {dev pid : Z} {BL : BlockLaws St dev pid}.
Implicit Types k : kernel St.

Lemma zero_block_len : length zero_block = Z.to_nat BSIZE.
Proof. apply length_replicate. Qed.
Lemma length_set_bit d i : length (set_bit d i) = length d.
Proof. apply length_insert. Qed.
Lemma length_clear_bit d i : length (clear_bit d i) = length d.
Proof. apply length_insert. Qed.

(** A block that is read, changed, logged and released. *)
Lemma update_run k V H L b d c : fs_locks (pid := pid) c -> fsv k V H L -> length d = Z.to_nat BSIZE ->
  0 <= b < 2 ^ 31 -> ~ log_area (sb k) b -> (forall h, H !! h <> Some b) ->
  Z.of_nat (size L + size H) < NBUF -> Z.of_nat (size L) < LOGBLOCKS ->
  exists h c1 k1 c2 k2 c' k', kbread dev b c k = Ok h c1 k1 /\ bdata h c1 k1 = Ok (V b) c1 k1 /\
    klog_write h c1 (with_data h d k1) = Ok tt c2 k2 /\ kbrelse h c2 k2 = Ok tt c' k' /\
    fs_step c k c' k' /\ fsv k' (vset b d V) H (L ∪ {[b]}).
Proof.
  intros Hc Hv Hd Hb Hnl Hno Hs1 Hs2.
  destruct (kbread_run k V H L b c Hc Hv) as (h & c1 & k1 & Hr1 & Hst1 & Hh & Hv1); [lia|done..|].
  pose proof (fs_locks_step _ _ _ _ Hst1 Hc) as Hc1. pose proof (fs_step_sb _ _ _ _ Hst1) as Es1.
  destruct (klog_write_run k1 V (<[h := b]> H) L h b d c1 Hc1 Hv1) as (c2 & k2 & Hr2 & Hst2 & Hv2);
    [by rewrite lookup_insert_eq|done|done|by rewrite Es1|done|].
  pose proof (fs_locks_step _ _ _ _ Hst2 Hc1) as Hc2.
  destruct (kbrelse_run k2 _ _ _ h b c2 Hc2 Hv2) as (c3 & k3 & Hr3 & Hst3 & Hv3); [by rewrite lookup_insert_eq|].
  exists h, c1, k1, c2, k2, c3, k3. split; [done|]. split; [eapply bdata_run; [done|by rewrite lookup_insert_eq]|]. split_and!; [done..| |].
  - eapply fs_step_trans; [done|by eapply fs_step_trans].
  - by rewrite delete_insert_id in Hv3.
Qed.

(** A block that is only read. *)
Lemma peek_run k V H L b c : fs_locks (pid := pid) c -> fsv k V H L ->
  0 <= b < 2 ^ 32 -> ~ log_area (sb k) b -> (forall h, H !! h <> Some b) -> Z.of_nat (size L + size H) < NBUF ->
  exists h c1 k1 c' k', kbread dev b c k = Ok h c1 k1 /\ bdata h c1 k1 = Ok (V b) c1 k1 /\
    kbrelse h c1 k1 = Ok tt c' k' /\ fs_step c k c' k' /\ fsv k' V H L.
Proof.
  intros Hc Hv Hb Hnl Hno Hs1.
  destruct (kbread_run k V H L b c Hc Hv) as (h & c1 & k1 & Hr1 & Hst1 & Hh & Hv1); [done..|].
  pose proof (fs_locks_step _ _ _ _ Hst1 Hc) as Hc1.
  destruct (kbrelse_run k1 _ _ _ h b c1 Hc1 Hv1) as (c3 & k3 & Hr3 & Hst3 & Hv3); [by rewrite lookup_insert_eq|].
  exists h, c1, k1, c3, k3. split; [done|]. split; [eapply bdata_run; [done|by rewrite lookup_insert_eq]|]. split_and!; [done| |].
  - by eapply fs_step_trans.
  - by rewrite delete_insert_id in Hv3.
Qed.

Lemma bzero_run k V H L b c : fs_locks (pid := pid) c -> fsv k V H L ->
  0 <= b < 2 ^ 31 -> ~ log_area (sb k) b -> (forall h, H !! h <> Some b) ->
  Z.of_nat (size L + size H) < NBUF -> Z.of_nat (size L) < LOGBLOCKS ->
  exists c' k', bzero dev b c k = Ok tt c' k' /\ fs_step c k c' k' /\ fsv k' (vset b zero_block V) H (L ∪ {[b]}).
Proof.
  intros Hc Hv Hb Hnl Hno Hs1 Hs2.
  destruct (update_run k V H L b zero_block c Hc Hv zero_block_len Hb Hnl Hno Hs1 Hs2)
    as (h & c1 & k1 & c2 & k2 & c' & k' & Hr1 & _ & Hr2 & Hr3 & Hst & Hv').
  exists c', k'. split; [|done]. unfold bzero. mstep Hr1.
  rewrite (bind_ok _ _ c1 k1 tt c1 (with_data h zero_block k1)) by done. mstep Hr2. exact Hr3.
Qed.

Lemma size_add_block (L : gset Z) b : (size (L ∪ {[b]}) <= size L + 1)%nat.
Proof.
  rewrite size_union_alt. assert (size ({[b]} ∖ L : gset Z) <= size ({[b]} : gset Z))%nat by (apply subseteq_size; set_solver).
  rewrite size_singleton in *. lia.
Qed.

(** The contents after block [x] has been allocated. *)
Definition allocated (s : superblock) (x : Z) (V : Z -> block) : Z -> block :=
  vset x zero_block (vset (BBLOCK x s) (set_bit (V (BBLOCK x s)) (x mod BPB)) V).

(** The branch that takes bit [bi] of the bitmap block for [b]. *)
Lemma balloc_take_run k V H L c b bi : let s := sb k in let r := b + bi in
  fs_locks (pid := pid) c -> fsv k V H L -> bitmap_ok s -> free_data s V H -> bitmap_closed s H ->
  Z.of_nat (size L + size H) + 1 < NBUF -> Z.of_nat (size L) + 1 < LOGBLOCKS ->
  0 <= b -> (BPB | b) -> 0 <= bi < BPB -> r < sb_size s -> used s V r = false ->
  let d := V (BBLOCK b s) in
  exists h c1 k1 c' k', kbread dev (BBLOCK b s) c k = Ok h c1 k1 /\ bdata h c1 k1 = Ok d c1 k1 /\
    (set_bdata h (set_bit d bi);; klog_write h;; kbrelse h;; bzero dev r;; mret r) c1 k1 = Ok r c' k' /\
    fs_step c k c' k' /\ fsv k' (allocated s r V) H (L ∪ {[BBLOCK r s]} ∪ {[r]}).
Proof.
  intros s r Hc Hv Hs Hf Hcl Hn1 Hn2 Hb Hdiv Hbi Hr Hu d.
  destruct (BBLOCK_eq s b Hs ltac:(lia)) as (_ & Hbb & Hbl). destruct (BBLOCK_base s b bi Hdiv Hbi) as [Er Em]. fold r in Er, Em.
  destruct (Hf r ltac:(lia) Hu) as [[_ Hrl _ _] Hrh].
  destruct (update_run k V H L (BBLOCK b s) (set_bit d bi) c Hc Hv)
    as (h & c1 & k1 & c2 & k2 & c3 & k3 & Hr1 & Hd1 & Hr2 & Hr3 & Hst & Hv3);
    [rewrite length_set_bit; by eapply fsv_len|done|done|by intros h; apply Hcl; lia|lia|lia|].
  pose proof (size_add_block L (BBLOCK b s)).
  destruct (bzero_run k3 _ _ _ r c3 (fs_locks_step _ _ _ _ Hst Hc) Hv3) as (c4 & k4 & Hr4 & Hst4 & Hv4);
    [pose proof (bm_size _ Hs); lia|rewrite (fs_step_sb _ _ _ _ Hst); done|done|lia|lia|].
  exists h, c1, k1, c4, k4. split; [done|]. split; [done|]. split; [|split; [by eapply fs_step_trans|]].
  - rewrite (bind_ok _ _ c1 k1 tt c1 (with_data h (set_bit d bi) k1)) by done. mstep Hr2. mstep Hr3. by mstep Hr4.
  - unfold allocated. by rewrite Er, Em.
Qed.

Lemma balloc_loop_run fuel : forall b k V H L c, let s := sb k in
  fs_locks (pid := pid) c -> fsv k V H L -> bitmap_ok s -> free_data s V H -> bitmap_closed s H ->
  Z.of_nat (size L + size H) + 1 < NBUF -> Z.of_nat (size L) + 1 < LOGBLOCKS ->
  0 <= b -> (BPB | b) -> sb_size s <= b + (Z.of_nat fuel - 1) * BPB -> (0 < fuel)%nat ->
  exists r c' k', balloc_loop fuel dev b c k = Ok r c' k' /\ fs_step c k c' k' /\
    ((r = 0 /\ fsv k' V H L /\ forall x, b <= x < sb_size s -> used s V x = true) \/
     (b <= r < sb_size s /\ used s V r = false /\ (forall x, b <= x < r -> used s V x = true) /\
      fsv k' (allocated s r V) H (L ∪ {[BBLOCK r s]} ∪ {[r]}))).
Proof.
  induction fuel as [|fuel IH]; intros b k V H L c s Hc Hv Hs Hf Hcl Hn1 Hn2 Hb Hdiv Hfuel Hpos; [lia|]. cbn [balloc_loop].
  erewrite bind_ok; [|reflexivity]. fold s. destruct (Z.ltb_spec b (sb_size s)) as [Hlt|Hge].
  2: { exists 0, (Ctx (held c) (trace c ++ [EvPrint "balloc: out of blocks"]) (me c) (mypid c)), k. split; [done|].
       split; [by apply fs_step_same|]. left. split_and!; [done..|]. intros; lia. }
  destruct (BBLOCK_eq s b Hs ltac:(lia)) as (_ & Hbb & Hbl).
  pose proof (balloc_scan_spec (Z.to_nat BPB) 0 b (sb_size s) (V (BBLOCK b s)) ltac:(lia)) as Hscan.
  assert (forall x, b <= x < b + BPB -> bit_of (V (BBLOCK b s)) (x - b) = true -> used s V x = true) as Hbase.
  { intros x Hx Hbit. unfold used. destruct (BBLOCK_base s b (x - b) Hdiv ltac:(lia)) as [Ex Ey].
    replace (b + (x - b)) with x in Ex, Ey by lia. by rewrite Ex, Ey. }
  destruct (balloc_scan (Z.to_nat BPB) 0 b (sb_size s) (V (BBLOCK b s))) as [bi|] eqn:Escan.
  - destruct Hscan as (H1 & H2 & H3 & H4). rewrite Z2Nat.id in H1 by done. destruct (BBLOCK_base s b bi Hdiv ltac:(lia)) as [Er Em].
    assert (used s V (b + bi) = false) as Hu by (unfold used; by rewrite Er, Em).
    destruct (balloc_take_run k V H L c b bi) as (h & c1 & k1 & c' & k' & Hr1 & Hd1 & Hr2 & Hst & Hv'); try done.
    fold s in Hr1, Hd1, Hr2, Hv'. mstep Hr1. mstep Hd1. rewrite Escan. exists (b + bi), c', k'. split; [exact Hr2|]. split; [done|]. right. split_and!; [lia..|done| |done].
    intros x Hx. apply Hbase; [lia|]. apply H4. lia.
  - destruct (peek_run k V H L (BBLOCK b s) c Hc Hv) as (h & c1 & k1 & c2 & k2 & Hr1 & Hd1 & Hr2 & Hst & Hv2);
      [lia|done|by intros h; apply Hcl|lia|].
    mstep Hr1. mstep Hd1. rewrite Escan. mstep Hr2. pose proof (fs_step_sb _ _ _ _ Hst) as Esb.
    destruct (IH (b + BPB) k2 V H L c2) as (r & c' & k' & Hr & Hst' & Hres); rewrite ?Esb; try done.
    { by eapply fs_locks_step. }
    { change BPB with 8192 in *. lia. }
    { by apply Z.divide_add_r; [|apply Z.divide_refl]. }
    { fold s. change BPB with 8192 in *. lia. }
    { destruct fuel; [|lia]. change BPB with 8192 in *. lia. }
    assert (forall x, b <= x < b + BPB -> x < sb_size s -> used s V x = true) as Hall.
    { intros x Hx Hxs. apply Hbase; [done|]. apply Hscan; [rewrite Z2Nat.id by done; lia|lia]. }
    rewrite Esb in Hres. fold s in Hres. exists r, c', k'. split; [done|]. split; [by eapply fs_step_trans|].
    assert (0 < BPB) by done. destruct Hres as [(-> & Hv' & Hu)|(Hr1' & Hu & Hlo & Hv')]; [left|right]; split_and!; try done; try lia.
    + intros x Hx. destruct (decide (x < b + BPB)); [apply Hall|apply Hu]; lia.
    + intros x Hx. destruct (decide (x < b + BPB)); [apply Hall|apply Hlo]; lia.
Qed.

Lemma balloc_run k V H L c : let s := sb k in
  fs_locks (pid := pid) c -> fsv k V H L -> bitmap_ok s -> free_data s V H -> bitmap_closed s H ->
  Z.of_nat (size L + size H) + 1 < NBUF -> Z.of_nat (size L) + 1 < LOGBLOCKS ->
  exists r c' k', balloc dev c k = Ok r c' k' /\ fs_step c k c' k' /\
    ((r = 0 /\ fsv k' V H L /\ forall x, 0 <= x < sb_size s -> used s V x = true) \/
     (0 < r < sb_size s /\ used s V r = false /\ (forall x, 0 <= x < r -> used s V x = true) /\
      fsv k' (allocated s r V) H (L ∪ {[BBLOCK r s]} ∪ {[r]}))).
Proof.
  intros s Hc Hv Hs Hf Hcl Hn1 Hn2. unfold balloc. erewrite bind_ok; [|reflexivity]. fold s. pose proof (bm_size _ Hs).
  assert (0 <= sb_size s / BPB) by (apply Z.div_pos; [lia|done]).
  destruct (balloc_loop_run (Z.to_nat (sb_size s / BPB + 2)) 0 k V H L c) as (r & c' & k' & Hr & Hst & Hres); try done.
  { apply Z.divide_0_r. }
  { fold s. rewrite Z2Nat.id by lia. pose proof (Z.div_mod (sb_size s) BPB ltac:(done)). pose proof (Z.mod_pos_bound (sb_size s) BPB ltac:(done)). lia. }
  { lia. }
  exists r, c', k'. split; [done|]. split; [done|]. destruct Hres as [?|(Hr1 & Hr2 & Hr3 & Hr4)]; [by left|right].
  fold s in Hr1. destruct (Hf r Hr1 Hr2) as [[Hr0 _ _ _] _]. split_and!; [lia..|done|done|done].
Qed.

Lemma allocated_facts s r V : bitmap_ok s -> 0 <= r < sb_size s -> used s V r = false -> (forall b, length (V b) = Z.to_nat BSIZE) ->
  (forall y, 0 <= y < sb_size s -> BBLOCK y s <> r) ->
  allocated s r V r = zero_block /\ (forall x, x <> r -> x <> BBLOCK r s -> allocated s r V x = V x) /\
  forall x, 0 <= x < sb_size s -> used s (allocated s r V) x = bool_decide (x = r) || used s V x.
Proof.
  intros Hs Hr Hu Hl Hne. unfold allocated. split_and!.
  - apply vset_eq.
  - intros x H1 H2. by rewrite !vset_ne.
  - intros x Hx. rewrite <- (used_mark s V r x) by done. unfold used. by rewrite (vset_ne r) by by apply Hne.
Qed.

Lemma bfree_run k V H L b c : let s := sb k in
  fs_locks (pid := pid) c -> fsv k V H L -> bitmap_ok s -> bitmap_closed s H -> 0 <= b < sb_size s ->
  Z.of_nat (size L + size H) < NBUF -> Z.of_nat (size L) < LOGBLOCKS ->
  let bm := BBLOCK b s in
  if used s V b then
    exists c' k', bfree dev b c k = Ok tt c' k' /\ fs_step c k c' k' /\
      fsv k' (vset bm (clear_bit (V bm) (b mod BPB)) V) H (L ∪ {[bm]})
  else bfree dev b c k = Panic "freeing free block".
Proof.
  intros s Hc Hv Hs Hcl Hb Hn1 Hn2 bm. destruct (BBLOCK_eq s b Hs Hb) as (_ & Hbb & Hbl). fold bm in Hbb, Hbl.
  destruct (update_run k V H L bm (clear_bit (V bm) (b mod BPB)) c Hc Hv)
    as (h & c1 & k1 & c2 & k2 & c3 & k3 & Hr1 & Hd1 & Hr2 & Hr3 & Hst & Hv3);
    [rewrite length_clear_bit; by eapply fsv_len|done|done|by intros h; apply Hcl|lia|lia|].
  unfold bfree. rewrite (bind_ok _ _ c k s c k) by done. fold bm. rewrite (bind_ok _ _ _ _ _ _ _ Hr1), (bind_ok _ _ _ _ _ _ _ Hd1).
  cbv zeta. rewrite land_bit by (apply Z.mod_pos_bound; lia). fold (bit_of (V bm) (b mod BPB)). change (bit_of (V bm) (b mod BPB)) with (used s V b).
  destruct (used s V b); cbn [negb]; [|done]. exists c3, k3. split; [|done].
  rewrite (bind_ok _ _ c1 k1 tt c1 (with_data h (clear_bit (V bm) (b mod BPB)) k1)) by done. mstep Hr2. exact Hr3.
Qed.

(** C16: [balloc] returns the first block that the bitmap does not mark as in
    use, or 0 when every block is in use, with nothing changed. The block it
    returns reads as zeroes, it is marked, no other mark changes, and no block
    but it and its bitmap block changes; both are in the transaction. *)
Theorem balloc_spec k V H L c : let s := sb k in
  fs_locks (pid := pid) c -> fsv k V H L -> bitmap_ok s -> free_data s V H -> bitmap_closed s H ->
  Z.of_nat (size L + size H) + 1 < NBUF -> Z.of_nat (size L) + 1 < LOGBLOCKS ->
  exists r c' k', balloc dev c k = Ok r c' k' /\ fs_step c k c' k' /\
    ((r = 0 /\ fsv k' V H L /\ forall x, 0 <= x < sb_size s -> used s V x = true) \/
     (0 < r < sb_size s /\ used s V r = false /\ (forall x, 0 <= x < r -> used s V x = true) /\
      exists V', fsv k' V' H (L ∪ {[BBLOCK r s]} ∪ {[r]}) /\ V' r = zero_block /\
        (forall x, x <> r -> x <> BBLOCK r s -> V' x = V x) /\
        forall x, 0 <= x < sb_size s -> used s V' x = bool_decide (x = r) || used s V x)).
Proof.
  intros s Hc Hv Hs Hf Hcl Hn1 Hn2. destruct (balloc_run k V H L c Hc Hv Hs Hf Hcl Hn1 Hn2) as (r & c' & k' & Hr & Hst & Hres).
  exists r, c', k'. split; [done|]. split; [done|]. destruct Hres as [?|(H1 & H2 & H3 & H4)]; [by left|right].
  fold s in H1. split_and!; [lia..|done|done|]. exists (allocated s r V). split; [done|].
  apply allocated_facts; [done|lia|done|intros; by eapply fsv_len|apply (Hf r ltac:(lia)); done].
Qed.

(** [bfree] of a block in use clears its mark and no other, and changes no
    block but its bitmap block, which joins the transaction; on a block that is
    not in use it panics. *)
Theorem bfree_spec k V H L b c : let s := sb k in
  fs_locks (pid := pid) c -> fsv k V H L -> bitmap_ok s -> bitmap_closed s H -> 0 <= b < sb_size s ->
  Z.of_nat (size L + size H) < NBUF -> Z.of_nat (size L) < LOGBLOCKS ->
  (used s V b = true -> exists c' k' V', bfree dev b c k = Ok tt c' k' /\ fs_step c k c' k' /\
     fsv k' V' H (L ∪ {[BBLOCK b s]}) /\ (forall x, x <> BBLOCK b s -> V' x = V x) /\
     forall x, 0 <= x < sb_size s -> used s V' x = negb (bool_decide (x = b)) && used s V x) /\
  (used s V b = false -> bfree dev b c k = Panic "freeing free block").
Proof.
  intros s Hc Hv Hs Hcl Hb Hn1 Hn2. pose proof (bfree_run k V H L b c Hc Hv Hs Hcl Hb Hn1 Hn2) as Hr. cbv zeta in Hr. fold s in Hr.
  split; intros Hu; rewrite Hu in Hr; [|done]. destruct Hr as (c' & k' & Hr & Hst & Hv').
  eexists c', k', _. split_and!; [done..| |].
  - intros x Hx. by apply vset_ne.
  - intros x Hx. apply used_clear; try done. by eapply fsv_len.
Qed.
End alloc.
