(* ===== verification/FsInode.v ===== *)
(** * Inodes on disk

    [iupdate] and [ilock] of kernel/fs.c: the fields of an inode survive being
    written to its place in the inode blocks and read back, and the other
    inodes of the block are left alone. *)

From S2P Require Import Prelude Riscv Headers Mem Kalloc Vm Sleeplock Block Log LogSteps LogOps State Sched SchedProps Copy Fs FsBase FsAlloc.

(** ** Fields in a block *)

Lemma wr16_other o v l i : (i < o \/ o + 1 < i)%nat -> wr16 o v l !!! i = l !!! i.
Proof. intros H. unfold wr16. by rewrite !list_lookup_total_insert_ne by lia. Qed.
Lemma length_wr16 o v l : length (wr16 o v l) = length l.
Proof. unfold wr16. by rewrite !length_insert. Qed.

Lemma rd16_ext l l' o : l !!! o = l' !!! o -> l !!! (o + 1)%nat = l' !!! (o + 1)%nat -> rd16 l o = rd16 l' o.
Proof. intros H1 H2. unfold rd16. by rewrite H1, H2. Qed.
Lemma rd32_ext l l' o : (forall i, (o <= i < o + 4)%nat -> l !!! i = l' !!! i) -> rd32 l o = rd32 l' o.
Proof. intros H. unfold rd32. by rewrite !H by lia. Qed.

Lemma rd16_wr16_eq o v l : (o + 1 < length l)%nat -> - 2 ^ 15 <= v < 2 ^ 15 -> i16 (rd16 (wr16 o v l) o) = v.
Proof.
  intros Hl Hv. unfold rd16, wr16. rewrite list_lookup_total_insert_eq by (rewrite length_insert; lia).
  rewrite list_lookup_total_insert_ne by lia. rewrite list_lookup_total_insert_eq by lia.
  unfold i16, u8. change (2 ^ 8) with 256. change (2 ^ 15) with 32768 in *. change (2 ^ 16) with 65536. Z.div_mod_to_equations. lia.
Qed.

Lemma wr_addrs_other l : forall o d i, (i < o \/ o + 4 * length l <= i)%nat -> wr_addrs l o d !!! i = d !!! i.
Proof.
  induction l as [|a l IH]; intros o d i Hi; [done|]. cbn [wr_addrs length] in *. rewrite IH by lia. apply wr32_other. lia.
Qed.
Lemma length_wr_addrs l : forall o d, length (wr_addrs l o d) = length d.
Proof. induction l as [|a l IH]; intros o d; [done|]. cbn [wr_addrs]. by rewrite IH, length_wr32. Qed.

Lemma rd_wr_addrs l : forall o d j a, l !! j = Some a -> Forall (fun a => 0 <= a < 2 ^ 32) l -> (o + 4 * length l <= length d)%nat ->
  rd32 (wr_addrs l o d) (o + 4 * j) = a.
Proof.
  induction l as [|x l IH]; intros o d j a Hj Hl Ho; [done|]. cbn [wr_addrs length] in *. apply Forall_cons in Hl as [Hx Hl]. destruct j as [|j].
  - injection Hj as ->. rewrite Nat.mul_0_r, Nat.add_0_r. transitivity (rd32 (wr32 o a d) o); [|by apply rd32_wr32_eq; [lia|]].
    apply rd32_ext. intros i Hi. apply wr_addrs_other. lia.
  - replace (o + 4 * S j)%nat with (o + 4 + 4 * j)%nat by lia. apply IH; [done|done|]. rewrite length_wr32. lia.
Qed.

(** The fields of an inode are in the range of their C types. *)
Record inode_ok (i : inode) : Prop := {
  io_type : - 2 ^ 15 <= i_type i < 2 ^ 15;
  io_major : - 2 ^ 15 <= i_major i < 2 ^ 15;
  io_minor : - 2 ^ 15 <= i_minor i < 2 ^ 15;
  io_nlink : - 2 ^ 15 <= i_nlink i < 2 ^ 15;
  io_size : 0 <= i_size i < 2 ^ 32;
  io_len : length (i_addrs i) = 13%nat;
  io_addrs : Forall (fun a => 0 <= a < 2 ^ 32) (i_addrs i);
}.

(** The fields that are stored on disk. *)
Definition stored (i : inode) : Z * Z * Z * Z * Z * list Z := (i_type i, i_major i, i_minor i, i_nlink i, i_size i, i_addrs i).

Lemma put_dinode_other i o d x : length (i_addrs i) = 13%nat -> (x < o \/ o + 64 <= x)%nat -> put_dinode i o d !!! x = d !!! x.
Proof.
  intros Hl Hx. unfold put_dinode. rewrite wr_addrs_other, wr32_other, !wr16_other by lia. done.
Qed.
Lemma length_put_dinode i o d : length (put_dinode i o d) = length d.
Proof. unfold put_dinode. by rewrite length_wr_addrs, length_wr32, !length_wr16. Qed.

Lemma get_dinode_ext d d' o i : (forall x, (o <= x < o + 64)%nat -> d !!! x = d' !!! x) -> get_dinode d o i = get_dinode d' o i.
Proof.
  intros H. assert (forall p, (o <= p <= o + 62)%nat -> rd16 d p = rd16 d' p) as H16 by (intros; apply rd16_ext; apply H; lia).
  assert (forall p, (o <= p <= o + 60)%nat -> rd32 d p = rd32 d' p) as H32 by (intros; apply rd32_ext; intros; apply H; lia).
  unfold get_dinode, di_type, di_major, di_minor, di_nlink, di_size, di_addrs. rewrite !H16, H32 by lia. f_equal.
  apply list_fmap_ext. intros j x Hj. apply lookup_seq in Hj as [-> Hj]. apply H32. lia.
Qed.

Lemma get_put_dinode i j o d : inode_ok i -> (o + 64 <= length d)%nat ->
  stored (get_dinode (put_dinode i o d) o j) = stored i.
Proof.
  intros [H1 H2 H3 H4 H5 H6 H7] Ho. unfold stored, get_dinode. cbn [i_type i_major i_minor i_nlink i_size i_addrs].
  unfold di_type, di_major, di_minor, di_nlink, di_size, di_addrs, put_dinode.
  assert (forall p q, (q + 2 <= p \/ p + 2 <= q)%nat -> forall v l, rd16 (wr16 q v l) p = rd16 l p) as N16.
  { intros p q Hpq v l. apply rd16_ext; apply wr16_other; lia. }
  assert (forall p q, (q + 4 <= p \/ p + 2 <= q)%nat -> forall v l, rd16 (wr32 q v l) p = rd16 l p) as N32.
  { intros p q Hpq v l. apply rd16_ext; apply wr32_other; lia. }
  assert (forall p, (p + 2 <= o + 12)%nat -> forall l, rd16 (wr_addrs (i_addrs i) (o + 12) l) p = rd16 l p) as NA.
  { intros p Hp l. apply rd16_ext; apply wr_addrs_other; lia. }
  rewrite !NA, !N32 by lia. rewrite !(N16 o) by lia. rewrite !(N16 (o + 2)%nat) by lia. rewrite !(N16 (o + 4)%nat) by lia.
  rewrite !rd16_wr16_eq by (rewrite ?length_wr16; (done || lia)).
  set (D := wr16 (o + 6) _ _). assert (length D = length d) as HD by (unfold D; by rewrite !length_wr16).
  assert (rd32 (wr_addrs (i_addrs i) (o + 12) (wr32 (o + 8) (i_size i) D)) (o + 8) = i_size i) as ->.
  { rewrite (rd32_ext _ (wr32 (o + 8) (i_size i) D)); [apply rd32_wr32_eq; [lia|done]|]. intros x Hx. apply wr_addrs_other. lia. }
  f_equal. apply list_eq. intros t. rewrite list_lookup_fmap. destruct (decide (t < 13)%nat) as [Ht|Ht].
  - rewrite lookup_seq_lt by done. cbn [fmap option_fmap option_map]. destruct (i_addrs i !! t) as [a|] eqn:Ea.
    + f_equal. rewrite Nat.add_0_l. apply rd_wr_addrs; [done|done|]. rewrite length_wr32. lia.
    + apply lookup_ge_None in Ea. lia.
  - rewrite lookup_seq_ge by lia. symmetry. apply lookup_ge_None. lia.
Qed.

(** ** Where inodes are *)

Record inodes_ok (s : superblock) : Prop := {
  in_count : 0 <= sb_ninodes s;
  in_start : 0 <= sb_inodestart s /\ sb_inodestart s + sb_ninodes s / IPB < 2 ^ 31;
  in_nolog x : 0 <= x < sb_ninodes s -> ~ log_area s (sb_inodestart s + x / IPB);
}.
(** No one has an inode block open. *)
Definition inodes_closed (s : superblock) (H : gmap Z Z) : Prop :=
  forall y h, 0 <= y < sb_ninodes s -> H !! h <> Some (IBLOCK y s).

Lemma IBLOCK_eq s x : inodes_ok s -> 0 <= x < sb_ninodes s ->
  IBLOCK x s = sb_inodestart s + x / IPB /\ 0 <= IBLOCK x s < 2 ^ 31 /\ ~ log_area s (IBLOCK x s).
Proof.
  intros [H1 H2 H3] Hx. assert (0 <= x / IPB <= sb_ninodes s / IPB) by (split; [apply Z.div_pos|apply Z.div_le_mono]; (done || lia)).
  assert (IBLOCK x s = sb_inodestart s + x / IPB) as E by (unfold IBLOCK; rewrite u32_id; lia).
  rewrite E. split_and!; [done|lia|lia|by apply H3].
Qed.

Lemma di_off_le x : (di_off x + 64 <= Z.to_nat BSIZE)%nat.
Proof.
  unfold di_off. pose proof (Z.mod_pos_bound x IPB ltac:(done)). change IPB with 16 in *. change DINODE with 64. change BSIZE with 1024. lia.
Qed.
Lemma di_off_apart x y s : inodes_ok s -> 0 <= x < sb_ninodes s -> 0 <= y < sb_ninodes s -> x <> y -> IBLOCK x s = IBLOCK y s ->
  (di_off x + 64 <= di_off y \/ di_off y + 64 <= di_off x)%nat.
Proof.
  intros Hs Hx Hy Hne E. destruct (IBLOCK_eq s x Hs Hx) as (Ex & _), (IBLOCK_eq s y Hs Hy) as (Ey & _). rewrite Ex, Ey in E.
  unfold di_off. change IPB with 16 in *. change DINODE with 64.
  pose proof (Z.div_mod x 16 ltac:(lia)). pose proof (Z.div_mod y 16 ltac:(lia)).
  pose proof (Z.mod_pos_bound x 16 ltac:(lia)). pose proof (Z.mod_pos_bound y 16 ltac:(lia)). lia.
Qed.

(** ** Steps that change one entry of the inode table *)

Section steps.
Context {St : Type}.
Implicit Types k : kernel St.

Record in_frame (m ip : Z) k k' : Prop := {
  if_eq : k' = set_itab (itab k') (set_procs (procs k') (set_fsk (fsk k') k));
  if_other j : j <> ip -> inode_at k' j = inode_at k j;
  if_me : proc_at k' m = proc_at k m;
  if_procs q : proc_at k' q = proc_at k q \/ proc_at k' q = set_state RUNNABLE (proc_at k q);
}.
Definition in_step (ip : Z) (c : ctx) k (c' : ctx) k' : Prop := same_locks c c' /\ in_frame (me c) ip k k'.

Lemma in_step_fs ip c k c' k' : fs_step c k c' k' -> in_step ip c k c' k'.
Proof. intros [Hs [H1 H2 H3]]. split; [done|]. split; [by rewrite H1|by rewrite H1|done|done]. Qed.
Lemma in_step_trans ip c1 k1 c2 k2 c3 k3 : in_step ip c1 k1 c2 k2 -> in_step ip c2 k2 c3 k3 -> in_step ip c1 k1 c3 k3.
Proof.
  intros [Hs1 [H1 H2 H3 H4]] [Hs2 [H5 H6 H7 H8]]. split; [by eapply same_locks_trans|].
  assert (me c2 = me c1) as Em by apply Hs1. rewrite Em in H7.
  split; [rewrite H5, H1; done|intros j Hj; by rewrite H6, H2|congruence|]. intros q. by eapply runnable_twice.
Qed.
Lemma in_step_refl ip c k : in_step ip c k c k.
Proof. apply in_step_fs, fs_step_refl. Qed.

Lemma inode_upd k i f j : inode_at (upd_inode i f k) j = if decide (j = i) then f (inode_at k i) else inode_at k j.
Proof. unfold inode_at, upd_inode. cbn [itab set_itab]. case_decide; subst; by simplify_map_eq. Qed.
Lemma in_step_upd ip c k f : in_step ip c k c (upd_inode ip f k).
Proof.
  split; [done|]. split; [by destruct k|intros j Hj; by rewrite inode_upd, decide_False|done|by left].
Qed.
Lemma in_step_sb ip c k c' k' : in_step ip c k c' k' -> sb k' = sb k.
Proof. intros [_ [-> _ _ _]]. done. Qed.
Lemma in_step_locks ip c k c' k' : in_step ip c k c' k' -> same_locks c c'.
Proof. by intros []. Qed.
Lemma in_step_woke ip c k f c' k' : same_locks c c' -> woke (me c) (upd_inode ip f k) k' ->
  in_step ip c k c' k' /\ fsk k' = fsk k /\ inode_at k' ip = f (inode_at k ip).
Proof.
  intros Hs [H1 H2 H3]. unfold same_but_procs in H1.
  assert (forall j, inode_at k' j = inode_at (upd_inode ip f k) j) as Hi by (intros j; by rewrite H1).
  split; [|split; [by rewrite H1|by rewrite Hi, inode_upd, decide_True]].
  split; [done|]. split; [by rewrite H1|intros j Hj; by rewrite Hi, inode_upd, decide_False|done|done].
Qed.
End steps.

Section inode.
Context {W : Wakes} {St : Type} {BO : BlockOps St} {dev pid : Z} {BL : BlockLaws St dev pid}.
Implicit Types k : kernel St.

Lemma iupdate_run k V H L ip c : let i := inode_at k ip in let s := sb k in let ib := IBLOCK (i_inum i) s in
  fs_locks (pid := pid) c -> fsv k V H L -> i_dev i = dev -> inodes_ok s -> inodes_closed s H -> 0 <= i_inum i < sb_ninodes s ->
  Z.of_nat (size L + size H) < NBUF -> Z.of_nat (size L) < LOGBLOCKS ->
  exists c' k', iupdate ip c k = Ok tt c' k' /\ fs_step c k c' k' /\
    fsv k' (vset ib (put_dinode i (di_off (i_inum i)) (V ib)) V) H (L ∪ {[ib]}).
Proof.
  intros i s ib Hc Hv Hdev Hs Hcl Hi Hn1 Hn2. destruct (IBLOCK_eq s (i_inum i) Hs Hi) as (_ & Hb & Hl). fold ib in Hb, Hl.
  destruct (update_run k V H L ib (put_dinode i (di_off (i_inum i)) (V ib)) c Hc Hv)
    as (h & c1 & k1 & c2 & k2 & c3 & k3 & Hr1 & Hd1 & Hr2 & Hr3 & Hst & Hv3);
    [rewrite length_put_dinode; by eapply fsv_len|done|done|by intros h; apply Hcl|lia|lia|].
  exists c3, k3. split; [|done]. unfold iupdate. rewrite (bind_ok _ _ c k i c k), (bind_ok _ _ c k s c k) by done.
  rewrite Hdev. fold ib. mstep Hr1. mstep Hd1.
  rewrite (bind_ok _ _ c1 k1 tt c1 (with_data h (put_dinode i (di_off (i_inum i)) (V ib)) k1)) by done. mstep Hr2. exact Hr3.
Qed.

(** The first lock of an inode that has not been read yet. *)
Lemma ilock_run k V H L ip c : let i := inode_at k ip in let s := sb k in let d := V (IBLOCK (i_inum i) s) in let o := di_off (i_inum i) in
  fs_locks (pid := pid) c -> LInode ip ∉ held c -> fsv k V H L -> ip <> NULL -> 1 <= i_ref i -> sl_locked (i_lock i) = 0 ->
  i_valid i = false -> i_dev i = dev -> inodes_ok s -> inodes_closed s H -> 0 <= i_inum i < sb_ninodes s ->
  Z.of_nat (size L + size H) < NBUF ->
  if di_type d o =? 0 then ilock ip c k = Panic "ilock: no type"
  else exists c' k', ilock ip c k = Ok tt c' k' /\ in_step ip c k c' k' /\ fsv k' V H L /\
    inode_at k' ip = set_ivalid true (get_dinode d o (set_ilock (SleepLock 1 (mypid c)) i)).
Proof.
  intros i s d o Hc Hli Hv Hnull Href Hfree Hval Hdev Hs Hcl Hi Hn. destruct Hc as (Hc1 & Hc2 & Hc3).
  destruct (lift_ok (fun k => i_lock (inode_at k ip)) (fun l => upd_inode ip (set_ilock l)) (acquiresleep (LInode ip) (ChInodeLock ip)) c k tt
    (set_trace [] c) (SleepLock 1 (mypid c)) Hc3) as (c1 & k1 & Hr1 & Hs1 & Hw1); [exact (acquiresleep_free _ _ (set_trace [] c) _ Hli Hfree)|done|].
  destruct (in_step_woke ip c k _ c1 k1 Hs1 Hw1) as (Hst1 & Hf1 & Hi1). fold i in Hi1.
  assert (Hv1 : fsv k1 V H L) by (apply (fsv_ext k _ V); [done|by eapply in_step_sb|done|done]).
  assert (fs_locks (pid := pid) c1) as Hcc1 by (eapply fs_locks_same; [exact Hs1|by split_and!]).
  pose proof (in_step_sb _ _ _ _ _ Hst1) as Es1. fold s in Es1. set (i1 := set_ilock (SleepLock 1 (mypid c)) i) in *.
  destruct (IBLOCK_eq s (i_inum i) Hs Hi) as (_ & Hb & Hl).
  destruct (kbread_run k1 V H L (IBLOCK (i_inum i) s) c1 Hcc1 Hv1) as (h & c2 & k2 & Hr2 & Hst2 & Hh & Hv2);
    [lia|by rewrite Es1|by intros h'; apply Hcl|done|].
  pose proof (bdata_run k2 _ _ _ h (IBLOCK (i_inum i) s) c2 Hv2 ltac:(by rewrite lookup_insert_eq)) as Hd2. fold d in Hd2.
  set (k2' := upd_inode ip (get_dinode d o) k2).
  destruct (kbrelse_run k2' V (<[h := IBLOCK (i_inum i) s]> H) L h (IBLOCK (i_inum i) s) c2) as (c3 & k3 & Hr3 & Hst3 & Hv3);
    [by eapply fs_locks_step|by apply (fsv_ext k2 _ V)|by rewrite lookup_insert_eq|]. rewrite delete_insert_id in Hv3 by done.
  set (k4 := upd_inode ip (set_ivalid true) k3).
  assert (inode_at k4 ip = set_ivalid true (get_dinode d o i1)) as Hi4.
  { unfold k4. rewrite inode_upd, decide_True by done. rewrite (fs_step_inode _ _ _ _ _ Hst3). unfold k2'.
    rewrite inode_upd, decide_True by done. by rewrite (fs_step_inode _ _ _ _ _ Hst2), Hi1. }
  assert (ilock ip c k = (if i_type (inode_at k4 ip) =? 0 then panic "ilock: no type" else mret tt) c3 k4) as ->.
  { unfold ilock. rewrite (bind_ok _ _ c k (i_ref i) c k) by done.
    destruct (Z.eqb_spec ip NULL); [done|]. destruct (Z.ltb_spec (i_ref i) 1); [lia|]. cbn [orb].
    rewrite (bind_ok _ _ _ _ _ _ _ Hr1). rewrite (bind_ok _ _ c1 k1 i1 c1 k1) by (unfold the_inode, gets; by rewrite Hi1).
    change (i_valid i1) with (i_valid i). rewrite Hval. cbn [negb]. rewrite (bind_ok _ _ c1 k1 s c1 k1) by (unfold the_sb, gets; by rewrite Es1).
    change (i_dev i1) with (i_dev i). change (i_inum i1) with (i_inum i). rewrite Hdev. mstep Hr2. mstep Hd2.
    rewrite (bind_ok _ _ c2 k2 tt c2 k2') by done. mstep Hr3. rewrite (bind_ok _ _ c3 k3 tt c3 k4) by done. done. }
  rewrite Hi4. change (i_type _) with (di_type d o). destruct (di_type d o =? 0); [done|]. exists c3, k4. split; [done|].
  split; [|split; [by apply (fsv_ext k3 _ V)|done]]. eapply in_step_trans; [exact Hst1|]. eapply in_step_trans; [apply in_step_fs, Hst2|].
  eapply in_step_trans; [apply (in_step_upd ip c2 k2 (get_dinode d o))|]. eapply in_step_trans; [apply in_step_fs, Hst3|]. apply in_step_upd.
Qed.

(** C17: what [iupdate] writes, [ilock] reads back. [iupdate] changes the inode
    block of the inode and nothing else, and in that block no other inode. While
    the blocks stay as they are, the first [ilock] of any entry of the table
    that stands for the same inode, in any state, gives it the type, device
    numbers, link count, size and block addresses that were written, marks it
    valid and locks it. *)
Theorem iupdate_ilock k V H L ip c : let i := inode_at k ip in let s := sb k in
  fs_locks (pid := pid) c -> fsv k V H L -> i_dev i = dev -> inode_ok i -> i_type i <> 0 ->
  inodes_ok s -> inodes_closed s H -> 0 <= i_inum i < sb_ninodes s ->
  Z.of_nat (size L + size H) < NBUF -> Z.of_nat (size L) < LOGBLOCKS ->
  exists c1 k1 V1, iupdate ip c k = Ok tt c1 k1 /\ fs_step c k c1 k1 /\ fsv k1 V1 H (L ∪ {[IBLOCK (i_inum i) s]}) /\
    (forall b, b <> IBLOCK (i_inum i) s -> V1 b = V b) /\
    (forall x j, 0 <= x < sb_ninodes s -> x <> i_inum i ->
       get_dinode (V1 (IBLOCK x s)) (di_off x) j = get_dinode (V (IBLOCK x s)) (di_off x) j) /\
    forall k2 c2 H2 L2 jp, let j := inode_at k2 jp in
      fs_locks (pid := pid) c2 -> LInode jp ∉ held c2 -> fsv k2 V1 H2 L2 -> sb k2 = s -> inodes_closed s H2 ->
      Z.of_nat (size L2 + size H2) < NBUF -> jp <> NULL -> 1 <= i_ref j -> sl_locked (i_lock j) = 0 -> i_valid j = false ->
      i_dev j = dev -> i_inum j = i_inum i ->
      exists c3 k3, ilock jp c2 k2 = Ok tt c3 k3 /\ in_step jp c2 k2 c3 k3 /\ fsv k3 V1 H2 L2 /\
        stored (inode_at k3 jp) = stored i /\ i_valid (inode_at k3 jp) = true /\ i_lock (inode_at k3 jp) = SleepLock 1 (mypid c2).
Proof.
  intros i s Hc Hv Hdev Hok Hty Hs Hcl Hi Hn1 Hn2. set (ib := IBLOCK (i_inum i) s). set (o := di_off (i_inum i)).
  destruct (iupdate_run k V H L ip c Hc Hv Hdev Hs Hcl Hi Hn1 Hn2) as (c1 & k1 & Hr & Hst & Hv1).
  pose proof (fsv_len _ _ _ _ ib Hv) as Hlen. pose proof (di_off_le (i_inum i)) as Ho. fold o in Ho.
  exists c1, k1, (vset ib (put_dinode i o (V ib)) V). split_and!; [done|done|done|intros b Hb; by apply vset_ne| |].
  - intros x j Hx Hne. destruct (decide (IBLOCK x s = ib)) as [E|E]; [|by rewrite vset_ne]. rewrite E, vset_eq.
    apply get_dinode_ext. intros y Hy. apply put_dinode_other; [apply Hok|].
    pose proof (di_off_apart x (i_inum i) s Hs Hx Hi Hne E) as Hap. fold o in Hap. lia.
  - intros k2 c2 H2 L2 jp j Hc2 Hlj Hv2 Es2 Hcl2 Hn3 Hnull Href Hfree Hval Hdevj Einum.
    pose proof (ilock_run k2 _ H2 L2 jp c2 Hc2 Hlj Hv2 Hnull Href Hfree Hval Hdevj) as Hil. cbv zeta in Hil.
    rewrite Es2 in Hil. fold j in Hil. rewrite Einum in Hil. fold ib in Hil. fold o in Hil. specialize (Hil Hs Hcl2 Hi Hn3). rewrite vset_eq in Hil.
    assert (forall x, stored (get_dinode (put_dinode i o (V ib)) o x) = stored i) as Hst' by (intros x; apply get_put_dinode; [done|lia]).
    assert (di_type (put_dinode i o (V ib)) o = i_type i) as Ety by (specialize (Hst' j); by injection Hst').
    rewrite Ety in Hil. destruct (Z.eqb_spec (i_type i) 0); [done|]. destruct Hil as (c3 & k3 & Hr3 & Hst3 & Hv3 & Ei).
    exists c3, k3. rewrite Ei. split_and!; try done. apply (Hst' (set_ilock (SleepLock 1 (mypid c2)) j)).
Qed.
End inode.
