(* ===== verification/FsFile.v ===== *)
(** * Contents of files

    [bmap], [readi] and [writei] of kernel/fs.c in terms of the bytes of a
    file: mapping a block allocates it without changing what the file reads as,
    a write changes the bytes it covers and nothing else, in this file or in any
    other, and a read returns them. *)

From S2P Require Import Prelude Riscv Headers Mem Kalloc Vm Sleeplock Block Log LogSteps LogOps State Sched SchedProps Copy Fs FsBase FsAlloc FsInode.

(** ** The blocks of a file *)

(** The block that holds block [bn] of the file, or 0. *)
Definition file_blk (V : Z -> block) (i : inode) (bn : Z) : Z :=
  if bn <? NDIRECT then i_addrs i !!! Z.to_nat bn
  else
    let a := i_addrs i !!! Z.to_nat NDIRECT in
    if a =? 0 then 0 else rd32 (V a) (Z.to_nat (4 * (bn - NDIRECT))).
(** All blocks of a file; the indirect block counts as number [MAXFILE]. *)
Definition slot (V : Z -> block) (i : inode) (t : Z) : Z :=
  if t =? MAXFILE then i_addrs i !!! Z.to_nat NDIRECT else file_blk V i t.
(** Byte [x] of the file; what is not mapped reads as zero. *)
Definition fbyte (V : Z -> block) (i : inode) (x : Z) : Z :=
  let b := file_blk V i (x / BSIZE) in
  if b =? 0 then 0 else V b !!! Z.to_nat (x mod BSIZE).

Definition is_slot (t : Z) : Prop := 0 <= t <= MAXFILE.

(** The blocks of the file are data blocks in use, all different, and not open. *)
Record file_ok (s : superblock) (V : Z -> block) (H : gmap Z Z) (i : inode) : Prop := {
  fo_len : length (i_addrs i) = 13%nat;
  fo_data t : is_slot t -> slot V i t <> 0 ->
    data_block s (slot V i t) /\ used s V (slot V i t) = true /\ forall h, H !! h <> Some (slot V i t);
  fo_inj t u : is_slot t -> is_slot u -> slot V i t <> 0 -> slot V i t = slot V i u -> t = u;
}.

(** From [V] and [i] to [V'] and [i'], blocks may have been added to the file. *)
Record grow (s : superblock) (V : Z -> block) (i : inode) (V' : Z -> block) (i' : inode) : Prop := {
  g_slot t : is_slot t -> slot V i t <> 0 -> slot V' i' t = slot V i t;
  g_data t : is_slot t -> t <> MAXFILE -> slot V i t <> 0 -> V' (slot V i t) = V (slot V i t);
  g_zero t : is_slot t -> t <> MAXFILE -> slot V i t = 0 -> slot V' i' t = 0 \/ V' (slot V' i' t) = zero_block;
  g_new t : is_slot t -> slot V' i' t = slot V i t \/ (used s V (slot V' i' t) = false /\ data_block s (slot V' i' t));
  g_used x : 0 <= x < sb_size s -> used s V x = true -> used s V' x = true;
  g_keep x : data_block s x -> used s V x = true -> (forall t, is_slot t -> slot V i t <> x) -> V' x = V x;
}.

Lemma grow_refl s V i : grow s V i V i.
Proof. split; auto. Qed.

Lemma grow_trans s V1 i1 V2 i2 V3 i3 : grow s V1 i1 V2 i2 -> grow s V2 i2 V3 i3 -> grow s V1 i1 V3 i3.
Proof.
  intros [A1 A2 A3 A4 A5 A6] [B1 B2 B3 B4 B5 B6]. split.
  - intros t Ht Hn. rewrite B1, A1; try done. by rewrite A1.
  - intros t Ht Hm Hn. rewrite <- (A2 t), <- (A1 t) by done. apply B2; try done. by rewrite A1.
  - intros t Ht Hm Hn. destruct (decide (slot V2 i2 t = 0)) as [E|E]; [by apply B3|]. right.
    rewrite B1, B2 by done. destruct (A3 t Ht Hm Hn); done.
  - intros t Ht. destruct (B4 t Ht) as [->|[Hu Hd]]; [by apply A4|]. right. split; [|done].
    destruct (used s V1 (slot V3 i3 t)) eqn:E; [|done]. rewrite A5 in Hu; [done| |done]. pose proof (db_range _ _ Hd). lia.
  - intros x Hx Hu. by apply B5, A5.
  - intros x Hd Hu Hn. rewrite B6, A6; try done; [apply A5; [|done]; pose proof (db_range _ _ Hd); lia|].
    intros t Ht Ex. destruct (A4 t Ht) as [E|[Hf _]]; [by apply (Hn t); [|rewrite <- E]|]. rewrite Ex in Hf. congruence.
Qed.

(** Blocks added to a file do not change its contents. *)
Lemma file_slot t : t <> MAXFILE -> forall V i, slot V i t = file_blk V i t.
Proof. intros Ht V i. unfold slot. by destruct (Z.eqb_spec t MAXFILE). Qed.

Lemma zero_byte i : (i < Z.to_nat BSIZE)%nat -> zero_block !!! i = 0.
Proof. intros Hi. unfold zero_block. by apply list_lookup_total_correct, lookup_replicate. Qed.

Lemma byte_off x : (Z.to_nat (x mod BSIZE) < Z.to_nat BSIZE)%nat.
Proof. pose proof (Z.mod_pos_bound x BSIZE ltac:(done)). lia. Qed.

Lemma grow_fbyte s V i V' i' x : grow s V i V' i' -> 0 <= x < MAXFILE * BSIZE -> fbyte V' i' x = fbyte V i x.
Proof.
  intros [A1 A2 A3 A4 A5 A6] Hx. unfold fbyte.
  assert (0 <= x / BSIZE < MAXFILE) as Hb.
  { split; [apply Z.div_pos; [lia|done]|]. apply Z.div_lt_upper_bound; [done|]. rewrite Z.mul_comm. lia. }
  assert (is_slot (x / BSIZE)) as Ht by (unfold is_slot; lia). assert (x / BSIZE <> MAXFILE) as Hm by lia.
  rewrite <- !file_slot by done. destruct (Z.eqb_spec (slot V i (x / BSIZE)) 0) as [E|E].
  - destruct (A3 _ Ht Hm E) as [->| ->]; [done|]. destruct (_ =? 0); [done|]. apply zero_byte, byte_off.
  - rewrite A1 by done. destruct (Z.eqb_spec (slot V i (x / BSIZE)) 0); [done|]. by rewrite A2.
Qed.

(** ** Allocating a block and adding it *)

Section pure.
Context (s : superblock) (V : Z -> block) (H : gmap Z Z) (i : inode).
Hypothesis Hbm : bitmap_ok s.
Hypothesis Hlen : forall b, length (V b) = Z.to_nat BSIZE.
Hypothesis Hfree : free_data s V H.
Hypothesis Hfile : file_ok s V H i.

Section fresh.
Context (r : Z).
Hypothesis Hr : 0 < r < sb_size s.
Hypothesis Hur : used s V r = false.

Lemma fresh_data : data_block s r /\ forall h, H !! h <> Some r.
Proof using Hfree Hr Hur. apply Hfree; [lia|done]. Qed.

Lemma alloc_used x : 0 <= x < sb_size s -> used s (allocated s r V) x = bool_decide (x = r) || used s V x.
Proof using Hbm Hlen Hfree Hr Hur. apply allocated_facts; try done; [lia|apply fresh_data]. Qed.

Lemma alloc_other x : data_block s x -> used s V x = true -> allocated s r V x = V x.
Proof using Hr Hur.
  intros Hd Hu. unfold allocated. rewrite !vset_ne; [done| |].
  - intros ->. by apply (db_bitmap _ _ Hd r ltac:(lia)).
  - intros ->. congruence.
Qed.

Lemma alloc_slot t : is_slot t -> slot (allocated s r V) i t = slot V i t.
Proof using Hfile Hr Hur.
  intros Ht. unfold slot, file_blk. destruct (t =? MAXFILE); [done|]. destruct (t <? NDIRECT); [done|].
  destruct (Z.eqb_spec (i_addrs i !!! Z.to_nat NDIRECT) 0) as [?|E]; [done|].
  destruct (fo_data _ _ _ _ Hfile MAXFILE) as (Hd & Hu & _); [done|done|]. change (slot V i MAXFILE) with (i_addrs i !!! Z.to_nat NDIRECT) in *.
  by rewrite alloc_other.
Qed.

Lemma alloc_free : free_data s (allocated s r V) H.
Proof using Hbm Hlen Hfree Hr Hur.
  intros x Hx Hu. rewrite alloc_used in Hu by done. apply orb_false_iff in Hu as [_ Hu]. by apply Hfree.
Qed.

Lemma alloc_file : file_ok s (allocated s r V) H i.
Proof using All.
  destruct Hfile as [F1 F2 F3]. split; [done| |].
  - intros t Ht. rewrite alloc_slot by done. intros Hn. destruct (F2 t Ht Hn) as (Hd & Hu & Hh). split_and!; [done| |done].
    rewrite alloc_used, Hu by (pose proof (db_range _ _ Hd); lia). apply orb_true_r.
  - intros t u Ht Hu. rewrite !alloc_slot by done. by apply F3.
Qed.

Lemma alloc_grow : grow s V i (allocated s r V) i.
Proof using All.
  split.
  - intros t Ht _. by apply alloc_slot.
  - intros t Ht _ Hn. destruct (fo_data _ _ _ _ Hfile t Ht Hn) as (Hd & Hu & _). by apply alloc_other.
  - intros t Ht _ Hn. left. by rewrite alloc_slot.
  - intros t Ht. left. by apply alloc_slot.
  - intros x Hx Hu. rewrite alloc_used, Hu by done. apply orb_true_r.
  - intros x Hd Hu _. by apply alloc_other.
Qed.

Lemma fresh_slot t : is_slot t -> slot V i t <> r.
Proof using Hfile Hr Hur. intros Ht E. destruct (fo_data _ _ _ _ Hfile t Ht) as (_ & Hu & _); [lia|]. congruence. Qed.

(** Block [r] becomes block [t0] of the file. Besides what the allocation
    changed, only the indirect block may have been written. *)
Context (V' : Z -> block) (i' : inode) (t0 : Z).
Hypothesis Ht0 : is_slot t0.
Hypothesis Hs0 : slot V i t0 = 0.
Hypothesis Hlen' : length (i_addrs i') = 13%nat.
Hypothesis Hslot : forall t, is_slot t -> slot V' i' t = if decide (t = t0) then r else slot V i t.
Hypothesis HV' : forall x, x <> slot V i MAXFILE \/ slot V i MAXFILE = 0 -> V' x = allocated s r V x.

Lemma link_used x : 0 <= x < sb_size s -> used s V' x = bool_decide (x = r) || used s V x.
Proof using Hbm Hlen Hfree Hfile Hr Hur HV'.
  intros Hx. rewrite <- alloc_used by done. unfold used. rewrite HV'; [done|].
  destruct (decide (slot V i MAXFILE = 0)) as [E|E]; [by right|left].
  destruct (fo_data _ _ _ _ Hfile MAXFILE) as (Hd & _); [done|done|]. by apply (db_bitmap _ _ Hd).
Qed.

Lemma link_free : free_data s V' H.
Proof using Hbm Hlen Hfree Hfile Hr Hur HV'.
  intros x Hx Hu. rewrite link_used in Hu by done. apply orb_false_iff in Hu as [_ Hu]. by apply Hfree.
Qed.

Lemma link_file : file_ok s V' H i'.
Proof using All.
  destruct Hfile as [F1 F2 F3]. split; [done| |].
  - intros t Ht. rewrite Hslot by done. case_decide.
    + intros _. destruct fresh_data as [Hd Hh]; [done..|]. split_and!; [done| |done]. rewrite link_used by lia. by rewrite bool_decide_true.
    + intros Hn. destruct (F2 t Ht Hn) as (Hd & Hu & Hh). split_and!; [done| |done].
      rewrite link_used, Hu by (pose proof (db_range _ _ Hd); lia). apply orb_true_r.
  - intros t u Ht Hu. rewrite !Hslot by done. repeat case_decide; subst; try done.
    + intros _ E. exfalso. by apply (fresh_slot u).
    + intros _ E. exfalso. by apply (fresh_slot t).
    + by apply F3.
Qed.

Lemma link_grow : grow s V i V' i'.
Proof using All.
  assert (forall x, data_block s x -> used s V x = true -> x <> slot V i MAXFILE \/ slot V i MAXFILE = 0 -> V' x = V x) as Hk.
  { intros x Hd Hu Hx. rewrite HV' by done. by apply alloc_other. }
  split.
  - intros t Ht Hn. rewrite Hslot by done. case_decide; [by subst|done].
  - intros t Ht Hm Hn. destruct (fo_data _ _ _ _ Hfile t Ht Hn) as (Hd & Hu & _). apply Hk; [done..|].
    destruct (decide (slot V i t = slot V i MAXFILE)) as [E|E]; [|by left]. by apply (fo_inj _ _ _ _ Hfile) in E.
  - intros t Ht Hm Hn. rewrite Hslot by done. case_decide; [right|by left]. rewrite HV'.
    + unfold allocated. apply vset_eq.
    + left. intros E. by apply (fresh_slot MAXFILE).
  - intros t Ht. rewrite Hslot by done. case_decide; [right|by left]. split; [done|]. by apply fresh_data.
  - intros x Hx Hu. rewrite link_used, Hu by done. apply orb_true_r.
  - intros x Hd Hu Hn. apply Hk; [done..|]. left. intros E. by apply (Hn MAXFILE).
Qed.
End fresh.
End pure.

(** The three ways to add a block. *)
Lemma lookup_addrs (l : list Z) j (t : nat) r : (j < length l)%nat -> <[j := r]> l !!! t = if decide (t = j) then r else l !!! t.
Proof.
  intros Hj. case_decide; [subst; by apply list_lookup_total_insert_eq|]. by apply list_lookup_total_insert_ne.
Qed.

Lemma slot_direct V i r j t : length (i_addrs i) = 13%nat -> 0 <= j < NDIRECT -> is_slot t ->
  slot V (set_addrs (<[Z.to_nat j := r]> (i_addrs i)) i) t = if decide (t = j) then r else slot V i t.
Proof.
  intros Hl Hj Ht. unfold slot, file_blk, is_slot in *. cbn [i_addrs set_addrs]. change MAXFILE with 268 in *. change NDIRECT with 12 in *.
  rewrite !lookup_addrs by lia. rewrite (decide_False (P := Z.to_nat 12 = Z.to_nat j)) by lia.
  destruct (Z.eqb_spec t 268); [by rewrite decide_False by lia|]. destruct (Z.ltb_spec t 12).
  - destruct (decide (t = j)); [by rewrite decide_True by lia|by rewrite decide_False by lia].
  - by rewrite decide_False by lia.
Qed.

Lemma rd32_zero o : (o + 4 <= Z.to_nat BSIZE)%nat -> rd32 zero_block o = 0.
Proof. intros Ho. unfold rd32. by rewrite !zero_byte by lia. Qed.

Lemma slot_indirect V i r t : length (i_addrs i) = 13%nat -> slot V i MAXFILE = 0 -> r <> 0 -> V r = zero_block -> is_slot t ->
  slot V (set_addrs (<[Z.to_nat NDIRECT := r]> (i_addrs i)) i) t = if decide (t = MAXFILE) then r else slot V i t.
Proof.
  intros Hl Hs Hr HV Ht. unfold slot, file_blk, is_slot in *. cbn [i_addrs set_addrs]. change MAXFILE with 268 in *. change NDIRECT with 12 in *.
  change (268 =? 268) with true in Hs. cbn iota in Hs. rewrite !lookup_addrs by lia. rewrite (decide_True (P := Z.to_nat 12 = Z.to_nat 12)), Hs by done.
  destruct (Z.eqb_spec t 268); [by rewrite decide_True|]. rewrite (decide_False (P := t = 268)) by done. destruct (Z.ltb_spec t 12).
  - by rewrite decide_False by lia.
  - destruct (Z.eqb_spec r 0); [done|]. rewrite HV. apply rd32_zero. change BSIZE with 1024. lia.
Qed.

Lemma slot_entry V i a r j t : let o := Z.to_nat (4 * j) in slot V i MAXFILE = a -> a <> 0 -> length (V a) = Z.to_nat BSIZE ->
  0 <= j < NINDIRECT -> 0 <= r < 2 ^ 32 -> is_slot t ->
  slot (vset a (wr32 o r (V a)) V) i t = if decide (t = NDIRECT + j) then r else slot V i t.
Proof.
  intros o Hs Ha Hl Hj Hr Ht. unfold slot, file_blk, is_slot in *. change MAXFILE with 268 in *. change NDIRECT with 12 in *. change NINDIRECT with 256 in *.
  change (268 =? 268) with true in Hs. cbn iota in Hs. rewrite Hs. change (Z.to_nat BSIZE) with 1024%nat in Hl.
  destruct (Z.eqb_spec t 268); [by rewrite decide_False by lia|]. destruct (Z.ltb_spec t 12); [by rewrite decide_False by lia|].
  destruct (Z.eqb_spec a 0); [done|]. rewrite vset_eq. case_decide.
  - replace (t - 12) with j by lia. apply rd32_wr32_eq; [lia|done].
  - apply rd32_wr32_ne. lia.
Qed.

(** ** bmap *)

Section file.
Context {W : Wakes} {St : Type} {BO : BlockOps St} {dev pid : Z} {BL : BlockLaws St dev pid}.
Implicit Types k : kernel St.

(** A transaction works on the file of inode-table entry [ip]. *)
Record file_inv k (V : Z -> block) (H : gmap Z Z) (L : gset Z) (ip : Z) (c : ctx) : Prop := {
  fi_locks : fs_locks (pid := pid) c;
  fi_fsv : fsv k V H L;
  fi_bm : bitmap_ok (sb k);
  fi_free : free_data (sb k) V H;
  fi_closed : bitmap_closed (sb k) H;
  fi_file : file_ok (sb k) V H (inode_at k ip);
  fi_dev : i_dev (inode_at k ip) = dev;
}.

(** Every block is in use. *)
Definition disk_full (s : superblock) (V : Z -> block) : Prop := forall x, 0 <= x < sb_size s -> used s V x = true.

(** There is room for [n] more blocks in the log and in the cache. *)
Definition room (H : gmap Z Z) (L : gset Z) (n : Z) : Prop :=
  Z.of_nat (size L + size H) + n <= NBUF /\ Z.of_nat (size L) + n <= LOGBLOCKS.

Lemma fi_len k V H L ip c b : file_inv k V H L ip c -> length (V b) = Z.to_nat BSIZE.
Proof. intros Hi. eapply fsv_len, Hi. Qed.

Lemma file_inv_step k V H L ip c c' k' : fs_step c k c' k' -> fsv k' V H L -> file_inv k V H L ip c -> file_inv k' V H L ip c'.
Proof.
  intros Hst Hv [F1 F2 F3 F4 F5 F6 F7]. split; rewrite ?(fs_step_sb _ _ _ _ Hst), ?(fs_step_inode _ _ _ _ _ Hst); try done.
  by eapply fs_locks_step.
Qed.

(** What an operation on the blocks of the file may do. *)
Record extends (ip : Z) (c : ctx) k (V : Z -> block) (L : gset Z) (c' : ctx) k' (V' : Z -> block) (L' : gset Z) (H : gmap Z Z) (n : nat) : Prop := {
  ex_step : in_step ip c k c' k';
  ex_inv : file_inv k' V' H L' ip c';
  ex_size : (size L' <= size L + n)%nat;
  ex_grow : grow (sb k) V (inode_at k ip) V' (inode_at k' ip);
  ex_addrs : inode_at k' ip = set_addrs (i_addrs (inode_at k' ip)) (inode_at k ip);
}.

Lemma extends_step ip c k V L c' k' H n : fs_step c k c' k' -> fsv k' V H L -> file_inv k V H L ip c ->
  extends ip c k V L c' k' V L H n.
Proof.
  intros Hst Hv Hi. split; rewrite ?(fs_step_inode _ _ _ _ _ Hst).
  - by apply in_step_fs.
  - by eapply file_inv_step.
  - lia.
  - apply grow_refl.
  - by destruct (inode_at k ip).
Qed.

Lemma extends_trans ip c1 k1 V1 L1 c2 k2 V2 L2 c3 k3 V3 L3 H n m :
  extends ip c1 k1 V1 L1 c2 k2 V2 L2 H n -> extends ip c2 k2 V2 L2 c3 k3 V3 L3 H m -> extends ip c1 k1 V1 L1 c3 k3 V3 L3 H (n + m).
Proof.
  intros [A1 A2 A3 A4 A5] [B1 B2 B3 B4 B5]. rewrite (in_step_sb _ _ _ _ _ A1) in B4. split.
  - by eapply in_step_trans.
  - done.
  - lia.
  - by eapply grow_trans.
  - rewrite B5 at 1. rewrite A5. done.
Qed.
Lemma extends_weaken ip c1 k1 V1 L1 c2 k2 V2 L2 H n m :
  (n <= m)%nat -> extends ip c1 k1 V1 L1 c2 k2 V2 L2 H n -> extends ip c1 k1 V1 L1 c2 k2 V2 L2 H m.
Proof. intros Hn [A1 A2 A3 A4 A5]. split; try done. lia. Qed.

(** The entry of [addrs] that block number [j] of the inode is in. *)
Definition addr_slot (j : Z) : Z := if j =? NDIRECT then MAXFILE else j.

Lemma bmap_addr_run k V H L ip j c : file_inv k V H L ip c -> 0 <= j <= NDIRECT -> room H L 2 ->
  exists r c' k' V' L', bmap_addr ip j c k = Ok r c' k' /\ extends ip c k V L c' k' V' L' H 2 /\
    r = i_addrs (inode_at k' ip) !!! Z.to_nat j /\ (r = 0 -> disk_full (sb k) V').
Proof.
  intros Hi Hj [Hn1 Hn2]. set (i := inode_at k ip). set (s := sb k). unfold bmap_addr. rewrite (bind_ok _ _ c k i c k) by done.
  destruct (Z.eqb_spec (i_addrs i !!! Z.to_nat j) 0) as [E|E].
  2: { exists (i_addrs i !!! Z.to_nat j), c, k, V, L. split; [done|]. split; [|done].
       apply extends_step; [apply fs_step_refl|apply Hi|done]. }
  pose proof Hi as [F1 F2 F3 F4 F5 F6 F7]. fold i in F6, F7. fold s in F3, F4, F5, F6. rewrite F7.
  destruct (balloc_run k V H L c F1 F2 F3 F4 F5) as (r & c1 & k1 & Hr & Hst & Hres); [lia|lia|]. fold s in Hres.
  assert (sb k1 = s) as Es by (by apply (fs_step_sb _ _ _ _ Hst)). assert (inode_at k1 ip = i) as Ei by (by rewrite (fs_step_inode _ _ _ _ _ Hst)).
  mstep Hr. destruct Hres as [(-> & Hv1 & Hfull)|(Hr0 & Hu & _ & Hv1)].
  { exists 0, c1, k1, V, L. split; [done|]. split; [by apply extends_step|]. by rewrite Ei. }
  destruct (Z.eqb_spec r 0) as [?|_]; [lia|]. set (i' := set_addrs (<[Z.to_nat j := r]> (i_addrs i)) i).
  set (k2 := upd_inode ip (fun x => set_addrs (<[Z.to_nat j := r]> (i_addrs x)) x) k1).
  assert (inode_at k2 ip = i') as Ei2 by (unfold k2; rewrite inode_upd, decide_True by done; by rewrite Ei).
  pose proof (fo_len _ _ _ _ F6) as Hl13. change NDIRECT with 12 in Hj.
  assert (forall b, length (V b) = Z.to_nat BSIZE) as Hlen by (intros b; by eapply fi_len).
  set (V' := allocated s r V) in *. assert (V' r = zero_block) as HVr by apply vset_eq.
  assert (is_slot (addr_slot j) /\ slot V i (addr_slot j) = 0) as [Hts Hs0].
  { unfold addr_slot, is_slot. change MAXFILE with 268. change NDIRECT with 12. destruct (Z.eqb_spec j 12) as [->|?]; [done|].
    split; [lia|]. unfold slot, file_blk. change MAXFILE with 268. change NDIRECT with 12.
    destruct (Z.eqb_spec j 268); [lia|]. by destruct (Z.ltb_spec j 12); [|lia]. }
  assert (forall t, is_slot t -> slot V' i' t = if decide (t = addr_slot j) then r else slot V i t) as Hslot.
  { intros t Ht. rewrite <- (alloc_slot s V H i F6 r Hr0 Hu t Ht). fold V'. unfold addr_slot. change NDIRECT with 12. destruct (Z.eqb_spec j 12) as [->|?].
    - apply slot_indirect; [done| |lia|done|done]. unfold V'. rewrite (alloc_slot s V H i F6 r Hr0 Hu) by done. exact Hs0.
    - apply slot_direct; [done|change NDIRECT with 12; lia|done]. }
  assert (length (i_addrs i') = 13%nat) as Hl' by (cbn; by rewrite length_insert).
  exists r, c1, k2, V', (L ∪ {[BBLOCK r s]} ∪ {[r]}). split; [by rewrite (bind_ok _ _ c1 k1 tt c1 k2)|]. split.
  - split; rewrite ?Ei2; change (sb k2) with (sb k1); rewrite ?Es.
    + eapply in_step_trans; [by apply in_step_fs|]. apply in_step_upd.
    + split; change (sb k2) with (sb k1); rewrite ?Es, ?Ei2; try done.
      * by eapply fs_locks_step.
      * by apply (fsv_ext k1 _ V').
      * by eapply alloc_free.
      * by eapply (link_file s V H i F3 Hlen F4 F6 r Hr0 Hu V' i' (addr_slot j)).
    + pose proof (size_add_block L (BBLOCK r s)). pose proof (size_add_block (L ∪ {[BBLOCK r s]}) r). lia.
    + by apply (link_grow s V H i F3 Hlen F4 F6 r Hr0 Hu V' i' (addr_slot j)).
    + done.
  - split; [|lia]. rewrite Ei2. unfold i'. cbn [i_addrs set_addrs]. rewrite list_lookup_total_insert_eq; [done|lia].
Qed.

Lemma indirect_blk V i j : 0 <= j -> file_blk V i (NDIRECT + j) =
  (let a := i_addrs i !!! Z.to_nat NDIRECT in if a =? 0 then 0 else rd32 (V a) (Z.to_nat (4 * j))).
Proof.
  intros Hj. unfold file_blk. destruct (Z.ltb_spec (NDIRECT + j) NDIRECT); [lia|]. by replace (NDIRECT + j - NDIRECT) with j by lia.
Qed.

(** Entry [j] of the indirect block, held in buffer [h], is filled in. *)
Definition bmap_fill (h dv j : Z) : K St Z :=
  addr ← balloc dv;
  (if negb (addr =? 0) then
     d ← bdata h;
     set_bdata h (wr32 (Z.to_nat (4 * j)) addr d);;
     klog_write h
   else mret tt);;
  mret addr.
Definition bmap_entry (h dv j : Z) : K St Z :=
  d ← bdata h;
  let addr := rd32 d (Z.to_nat (4 * j)) in
  addr ← (if addr =? 0 then bmap_fill h dv j else mret addr);
  kbrelse h;;
  mret addr.

(** The indirect block [a] of the file is open in buffer [h]. *)
Section entry.
Context (k : kernel St) (V : Z -> block) (H : gmap Z Z) (L : gset Z) (ip : Z) (c : ctx) (h a j : Z).
Let i := inode_at k ip.
Let s := sb k.
Let H2 := <[h := a]> H.
Hypothesis Hc : fs_locks (pid := pid) c.
Hypothesis Hv : fsv k V H2 L.
Hypothesis Hh : H !! h = None.
Hypothesis Hbm : bitmap_ok s.
Hypothesis Hf : free_data s V H.
Hypothesis Hcl : bitmap_closed s H.
Hypothesis Hfile : file_ok s V H i.
Hypothesis Hdev : i_dev i = dev.
Hypothesis Ea : a = i_addrs i !!! Z.to_nat NDIRECT.
Hypothesis Ha : a <> 0.
Hypothesis Hj : 0 <= j < NINDIRECT.
Hypothesis Hroom : room H L 3.

Lemma entry_open : data_block s a /\ used s V a = true /\ H2 !! h = Some a.
Proof using Hfile Ea Ha.
  destruct (fo_data _ _ _ _ Hfile MAXFILE) as (Hda & Hua & _); [done|by change (slot V i MAXFILE) with (i_addrs i !!! Z.to_nat NDIRECT); rewrite <- Ea|].
  change (slot V i MAXFILE) with (i_addrs i !!! Z.to_nat NDIRECT) in *. rewrite <- Ea in *. split_and!; [done|done|apply lookup_insert_eq].
Qed.

Lemma entry_blk : file_blk V i (NDIRECT + j) = rd32 (V a) (Z.to_nat (4 * j)).
Proof using Ea Ha Hj. rewrite indirect_blk by lia. cbv zeta. rewrite <- Ea. by destruct (Z.eqb_spec a 0). Qed.

(** The state after the entry has been filled in with [r]. *)
Definition filled (r : Z) : Z -> block := vset a (wr32 (Z.to_nat (4 * j)) r (V a)) (allocated s r V).

Lemma bmap_fill_run : file_blk V i (NDIRECT + j) = 0 ->
  exists r c' k', bmap_fill h dev j c k = Ok r c' k' /\ fs_step c k c' k' /\
    ((r = 0 /\ fsv k' V H2 L /\ disk_full s V) \/
     (0 < r < sb_size s /\ used s V r = false /\ fsv k' (filled r) H2 (L ∪ {[BBLOCK r s]} ∪ {[r]} ∪ {[a]}))).
Proof using All.
  intros E. destruct entry_open as (Hda & Hua & Hh2). destruct Hroom as [Hn1 Hn2].
  assert (size H2 = S (size H)) as Hsz2 by (by apply map_size_insert_None).
  assert (free_data s V H2) as Hf2.
  { intros x Hx Hu. destruct (Hf x Hx Hu) as [Hd Ho]. split; [done|]. intros h'. unfold H2. rewrite lookup_insert. case_decide; [|done]. congruence. }
  assert (bitmap_closed s H2) as Hcl2.
  { intros y h' Hy. unfold H2. rewrite lookup_insert. case_decide; [|by apply Hcl]. intros [= E']. by apply (db_bitmap _ _ Hda y Hy). }
  destruct (balloc_run k V H2 L c Hc Hv Hbm Hf2 Hcl2) as (r & c1 & k1 & Hr1 & Hst1 & Hres); [lia|lia|]. fold s in Hres.
  unfold bmap_fill. mstep Hr1. destruct Hres as [(-> & Hv1 & Hfull)|(Hr0 & Hu & _ & Hv1)].
  { exists 0, c1, k1. split; [done|]. split; [done|]. by left. }
  destruct (Z.eqb_spec r 0) as [?|_]; [lia|]. cbn [negb]. pose proof (fs_locks_step _ _ _ _ Hst1 Hc) as Hc1.
  assert (allocated s r V a = V a) as Eva by (by apply alloc_other).
  pose proof (bdata_run k1 _ _ _ h a c1 Hv1 Hh2) as Hd1. rewrite Eva in Hd1.
  pose proof (size_add_block L (BBLOCK r s)). pose proof (size_add_block (L ∪ {[BBLOCK r s]}) r). pose proof (db_range _ _ Hda). pose proof (bm_size _ Hbm).
  destruct (klog_write_run k1 _ H2 _ h a (wr32 (Z.to_nat (4 * j)) r (V a)) c1 Hc1 Hv1 Hh2) as (c2 & k2 & Hr2 & Hst2 & Hv2);
    [rewrite length_wr32; by eapply fsv_len|lia|rewrite (fs_step_sb _ _ _ _ Hst1); by apply Hda|lia|].
  exists r, c2, k2. split.
  - rewrite (bind_ok _ _ c1 k1 tt c2 k2); [done|]. rewrite (bind_ok _ _ _ _ _ _ _ Hd1).
    rewrite (bind_ok _ _ c1 k1 tt c1 (with_data h (wr32 (Z.to_nat (4 * j)) r (V a)) k1)) by done. exact Hr2.
  - split; [by eapply fs_step_trans|]. right. split_and!; [lia..|done|exact Hv2].
Qed.

Lemma filled_link r : 0 < r < sb_size s -> used s V r = false -> file_blk V i (NDIRECT + j) = 0 ->
  file_ok s (filled r) H i /\ free_data s (filled r) H /\ grow s V i (filled r) i /\ file_blk (filled r) i (NDIRECT + j) = r.
Proof using All.
  intros Hr0 Hu E. destruct entry_open as (Hda & Hua & _). assert (slot V i MAXFILE = a) as Esl by (symmetry; exact Ea).
  assert (forall b, length (V b) = Z.to_nat BSIZE) as Hlen by (intros b; by eapply fsv_len). pose proof (bm_size _ Hbm).
  assert (is_slot (NDIRECT + j) /\ NDIRECT + j <> MAXFILE) as [Ht Hm].
  { unfold is_slot. change NDIRECT with 12. change MAXFILE with 268. change NINDIRECT with 256 in Hj. lia. }
  assert (slot V i (NDIRECT + j) = 0) as Hs0 by (by rewrite file_slot).
  assert (forall t, is_slot t -> slot (filled r) i t = if decide (t = NDIRECT + j) then r else slot V i t) as Hslot.
  { intros t Ht'. rewrite <- (alloc_slot s V H i Hfile r Hr0 Hu t Ht'). unfold filled.
    assert (allocated s r V a = V a) as <- by (by apply alloc_other).
    apply slot_entry; [by rewrite (alloc_slot s V H i Hfile r Hr0 Hu)|done| |done|lia|done].
    rewrite (alloc_other s V r Hr0 Hu a Hda Hua). apply Hlen. }
  assert (forall x, x <> slot V i MAXFILE \/ slot V i MAXFILE = 0 -> filled r x = allocated s r V x) as HV'.
  { intros x [Hx|Hx]; [|congruence]. unfold filled. rewrite vset_ne; [done|]. by rewrite <- Esl. }
  split_and!.
  - by apply (link_file s V H i Hbm Hlen Hf Hfile r Hr0 Hu _ i (NDIRECT + j)); try done; apply Hfile.
  - by eapply (link_free s V H i Hbm Hlen Hf Hfile r Hr0 Hu).
  - by apply (link_grow s V H i Hbm Hlen Hf Hfile r Hr0 Hu _ i (NDIRECT + j)); try done; apply Hfile.
  - rewrite <- file_slot by done. rewrite Hslot by done. by rewrite decide_True.
Qed.

Lemma bmap_entry_run : exists r c' k' V' L', bmap_entry h dev j c k = Ok r c' k' /\ extends ip c k V L c' k' V' L' H 3 /\
  r = file_blk V' (inode_at k' ip) (NDIRECT + j) /\ (r = 0 -> disk_full s V').
Proof using All.
  destruct entry_open as (Hda & Hua & Hh2).
  assert (forall k' V' L' c', fs_step c k c' k' -> fsv k' V' H L' -> free_data s V' H -> file_ok s V' H i -> grow s V i V' i ->
    (size L' <= size L + 3)%nat -> extends ip c k V L c' k' V' L' H 3) as Hext.
  { intros k' V' L' c' Hst Hv' Hf' Hfi' Hg Hsz. pose proof (fs_step_sb _ _ _ _ Hst) as Es. pose proof (fs_step_inode _ _ _ _ ip Hst) as Ei.
    split; rewrite ?Ei; try done; [by apply in_step_fs| |by destruct (inode_at k ip)].
    split; rewrite ?Es, ?Ei; try done. by eapply fs_locks_step. }
  assert (forall c1 k1 V1 L1, fs_step c k c1 k1 -> fsv k1 V1 H2 L1 -> exists c2 k2, kbrelse h c1 k1 = Ok tt c2 k2 /\ fs_step c k c2 k2 /\ fsv k2 V1 H L1) as Hrel.
  { intros c1 k1 V1 L1 Hst Hv1. destruct (kbrelse_run k1 _ _ _ h a c1 (fs_locks_step _ _ _ _ Hst Hc) Hv1 Hh2) as (c2 & k2 & Hr2 & Hst2 & Hv2).
    unfold H2 in Hv2. rewrite delete_insert_id in Hv2 by done. exists c2, k2. split_and!; [done| |done]. by eapply fs_step_trans. }
  unfold bmap_entry. rewrite (bind_ok _ _ _ _ _ _ _ (bdata_run k _ _ _ h a c Hv Hh2)). cbv zeta. rewrite <- entry_blk.
  destruct (Z.eqb_spec (file_blk V i (NDIRECT + j)) 0) as [E|E].
  - destruct (bmap_fill_run E) as (r & c1 & k1 & Hr1 & Hst1 & Hres). mstep Hr1.
    destruct Hres as [(-> & Hv1 & Hfull)|(Hr0 & Hu & Hv1)]; destruct (Hrel c1 k1 _ _ Hst1 Hv1) as (c2 & k2 & Hr2 & Hst2 & Hv2).
    + exists 0, c2, k2, V, L. split; [by mstep Hr2|]. rewrite (fs_step_inode _ _ _ _ ip Hst2). split; [|done].
      apply Hext; try done; [apply grow_refl|lia].
    + destruct (filled_link r Hr0 Hu E) as (Hfi & Hfr & Hg & Eb). eexists r, c2, k2, _, _. split; [by mstep Hr2|].
      rewrite (fs_step_inode _ _ _ _ ip Hst2). split; [|split; [done|lia]]. apply Hext; try done.
      pose proof (size_add_block L (BBLOCK r s)). pose proof (size_add_block (L ∪ {[BBLOCK r s]}) r).
      pose proof (size_add_block (L ∪ {[BBLOCK r s]} ∪ {[r]}) a). lia.
  - destruct (Hrel c k _ _ (fs_step_refl c k) Hv) as (c2 & k2 & Hr2 & Hst2 & Hv2).
    rewrite (bind_ok _ _ c k (file_blk V i (NDIRECT + j)) c k) by done. eexists _, c2, k2, V, L. split; [by mstep Hr2|].
    rewrite (fs_step_inode _ _ _ _ ip Hst2). split; [|done]. apply Hext; try done; [apply grow_refl|lia].
Qed.
End entry.

Lemma kbread_slot k V H L ip c t : file_inv k V H L ip c -> is_slot t -> slot V (inode_at k ip) t <> 0 -> room H L 1 ->
  let b := slot V (inode_at k ip) t in
  exists h c' k', kbread dev b c k = Ok h c' k' /\ fs_step c k c' k' /\ H !! h = None /\ fsv k' V (<[h := b]> H) L.
Proof.
  intros [F1 F2 F3 F4 F5 F6 F7] Ht Hn [Hn1 Hn2]. destruct (fo_data _ _ _ _ F6 t Ht Hn) as (Hd & _ & Ho).
  pose proof (db_range _ _ Hd). pose proof (bm_size _ F3). apply kbread_run; try done; [lia|apply Hd|lia].
Qed.

Lemma bmap_run k V H L ip bn c : file_inv k V H L ip c -> 0 <= bn < MAXFILE -> room H L 5 ->
  exists r c' k' V' L', bmap ip bn c k = Ok r c' k' /\ extends ip c k V L c' k' V' L' H 5 /\
    r = file_blk V' (inode_at k' ip) bn /\ (r = 0 -> disk_full (sb k) V').
Proof.
  intros Hi Hbn [Hn1 Hn2]. unfold bmap. destruct (Z.ltb_spec bn NDIRECT) as [Hlt|Hge].
  - destruct (bmap_addr_run k V H L ip bn c Hi) as (r & c' & k' & V' & L' & Hr & He & -> & Hfull); [lia|split; lia|].
    eexists _, c', k', V', L'. split; [done|]. split; [eapply extends_weaken; [|done]; lia|]. split; [|done]. unfold file_blk. by destruct (Z.ltb_spec bn NDIRECT); [|lia].
  - change MAXFILE with (NDIRECT + NINDIRECT) in Hbn. destruct (Z.ltb_spec (bn - NDIRECT) NINDIRECT) as [Hlt|]; [|lia].
    assert (0 <= NDIRECT <= NDIRECT) as Hnd by done.
    destruct (bmap_addr_run k V H L ip NDIRECT c Hi Hnd) as (a & c1 & k1 & V1 & L1 & Hr1 & He1 & Ea & Hfull1); [split; lia|]. mstep Hr1.
    pose proof (ex_size _ _ _ _ _ _ _ _ _ _ _ He1) as Hsz. pose proof (ex_inv _ _ _ _ _ _ _ _ _ _ _ He1) as Hi1.
    destruct (Z.eqb_spec a 0) as [E0|E0].
    { exists 0, c1, k1, V1, L1. split; [done|]. split; [eapply extends_weaken; [|done]; lia|].
      split; [|by intros _; apply Hfull1]. unfold file_blk. destruct (Z.ltb_spec bn NDIRECT); [lia|]. cbv zeta. by rewrite <- Ea, E0. }
    rewrite (bind_ok _ _ c1 k1 dev c1 k1) by (unfold the_inode, gets; by rewrite (fi_dev _ _ _ _ _ _ Hi1)).
    destruct (kbread_slot k1 V1 H L1 ip c1 MAXFILE Hi1) as (h & c2 & k2 & Hr2 & Hst2 & Hh & Hv2); [done| |split; lia|].
    { change (slot V1 (inode_at k1 ip) MAXFILE) with (i_addrs (inode_at k1 ip) !!! Z.to_nat NDIRECT). by rewrite <- Ea. }
    change (slot V1 (inode_at k1 ip) MAXFILE) with (i_addrs (inode_at k1 ip) !!! Z.to_nat NDIRECT) in Hr2, Hv2. rewrite <- Ea in Hr2, Hv2.
    pose proof (fs_step_sb _ _ _ _ Hst2) as Es2. pose proof (fs_step_inode _ _ _ _ ip Hst2) as Ei2. destruct Hi1 as [F1 F2 F3 F4 F5 F6 F7].
    destruct (bmap_entry_run k2 V1 H L1 ip c2 h a (bn - NDIRECT)) as (r & c3 & k3 & V3 & L3 & Hr3 & He3 & Er & Hfull3);
      rewrite ?Es2, ?Ei2; try done; [by eapply fs_locks_step|lia|split; lia|].
    replace (NDIRECT + (bn - NDIRECT)) with bn in Er by lia. exists r, c3, k3, V3, L3. split; [mstep Hr2; exact Hr3|].
    rewrite Es2, (in_step_sb _ _ _ _ _ (ex_step _ _ _ _ _ _ _ _ _ _ _ He1)) in Hfull3. split; [|done].
    change 5%nat with (2 + 3)%nat. eapply extends_trans; [exact He1|]. destruct He3 as [G1 G2 G3 G4 G5].
    rewrite Es2, Ei2 in G4. rewrite Ei2 in G5. split; try done. eapply in_step_trans; [by apply in_step_fs|done].
Qed.

(** A block that is mapped already. *)
Lemma bmap_hit k V H L ip bn c : let b := file_blk V (inode_at k ip) bn in
  file_inv k V H L ip c -> 0 <= bn < MAXFILE -> b <> 0 -> room H L 1 ->
  exists c' k', bmap ip bn c k = Ok b c' k' /\ fs_step c k c' k' /\ fsv k' V H L.
Proof.
  intros b Hi Hbn Hb Hr. unfold bmap. unfold b, file_blk in *. destruct (Z.ltb_spec bn NDIRECT) as [Hlt|Hge].
  - exists c, k. unfold bmap_addr. rewrite (bind_ok _ _ c k (inode_at k ip) c k) by done.
    destruct (Z.eqb_spec (i_addrs (inode_at k ip) !!! Z.to_nat bn) 0); [done|]. split_and!; [done|apply fs_step_refl|apply Hi].
  - change MAXFILE with (NDIRECT + NINDIRECT) in Hbn. destruct (Z.ltb_spec (bn - NDIRECT) NINDIRECT) as [Hlt|]; [|lia]. cbv zeta in *.
    set (a := i_addrs (inode_at k ip) !!! Z.to_nat NDIRECT) in *. destruct (Z.eqb_spec a 0) as [?|Ha]; [done|].
    assert (bmap_addr ip NDIRECT c k = Ok a c k) as Ha1.
    { unfold bmap_addr. rewrite (bind_ok _ _ c k (inode_at k ip) c k) by done. fold a. by destruct (Z.eqb_spec a 0). }
    mstep Ha1. destruct (Z.eqb_spec a 0) as [?|_]; [done|].
    rewrite (bind_ok _ _ c k dev c k) by (unfold the_inode, gets; by rewrite (fi_dev _ _ _ _ _ _ Hi)).
    destruct (kbread_slot k V H L ip c MAXFILE Hi) as (h & c2 & k2 & Hr2 & Hst2 & Hh & Hv2); [done..|].
    change (slot V (inode_at k ip) MAXFILE) with a in *. rewrite (bind_ok _ _ _ _ _ _ _ Hr2).
    assert (<[h := a]> H !! h = Some a) as Hh2 by apply lookup_insert_eq.
    rewrite (bind_ok _ _ _ _ _ _ _ (bdata_run k2 _ _ _ h a c2 Hv2 Hh2)). destruct (Z.eqb_spec (rd32 (V a) (Z.to_nat (4 * (bn - NDIRECT)))) 0); [done|].
    destruct (kbrelse_run k2 _ _ _ h a c2 (fs_locks_step _ _ _ _ Hst2 (fi_locks _ _ _ _ _ _ Hi)) Hv2 Hh2) as (c3 & k3 & Hr3 & Hst3 & Hv3).
    rewrite delete_insert_id in Hv3 by done. exists c3, k3. split; [|split; [by eapply fs_step_trans|done]].
    rewrite (bind_ok _ _ c2 k2 _ c2 k2) by done. by mstep Hr3.
Qed.
End file.
