(* ===== verification/FsRw.v ===== *)
(** * Reading and writing files

    [readi] and [writei] of kernel/fs.c, for buffers of the kernel: a read
    returns the bytes of the file, a write replaces those it covers. *)

From S2P Require Import Prelude Riscv Headers Mem Kalloc Vm Sleeplock Block Log LogSteps LogOps State Sched SchedProps Copy Fs FsBase FsAlloc FsInode FsFile.

(** Bytes [off .. off + n) of a file. *)
Definition fbytes (V : Z -> block) (i : inode) (off n : Z) : list Z := fbyte V i <$> seqZ off n.

Lemma fbytes_app V i off m n : 0 <= m -> 0 <= n -> fbytes V i off (m + n) = fbytes V i off m ++ fbytes V i (off + m) n.
Proof. intros Hm Hn. unfold fbytes. rewrite <- fmap_app. f_equal. by apply seqZ_app. Qed.
Lemma length_fbytes V i off n : length (fbytes V i off n) = Z.to_nat n.
Proof. unfold fbytes. by rewrite length_fmap, length_seqZ. Qed.
Lemma lookup_fbytes V i off n j : 0 <= j < n -> fbytes V i off n !! Z.to_nat j = Some (fbyte V i (off + j)).
Proof.
  intros Hj. unfold fbytes. rewrite list_lookup_fmap, (lookup_seqZ_lt _ _ (Z.to_nat j)) by lia. cbn. do 2 f_equal. lia.
Qed.
Lemma fbytes_ext V V' i i' off n : (forall x, off <= x < off + n -> fbyte V i x = fbyte V' i' x) -> fbytes V i off n = fbytes V' i' off n.
Proof.
  intros H. unfold fbytes. apply list_fmap_ext. intros j x Hx. apply lookup_seqZ in Hx as [-> Hx]. apply H. lia.
Qed.

(** Part of one block. *)
Lemma same_block off j : 0 <= off -> 0 <= j < BSIZE - off mod BSIZE -> (off + j) / BSIZE = off / BSIZE /\ (off + j) mod BSIZE = off mod BSIZE + j.
Proof.
  intros Ho Hj. pose proof (Z.mod_pos_bound off BSIZE ltac:(done)). pose proof (Z.div_mod off BSIZE ltac:(done)).
  assert (off + j = (off mod BSIZE + j) + (off / BSIZE) * BSIZE) as -> by lia.
  rewrite Z.div_add, Z.mod_add, Z.div_small, Z.mod_small by (done || lia). lia.
Qed.

Lemma slice_fbytes V i off m : let b := file_blk V i (off / BSIZE) in
  b <> 0 -> length (V b) = Z.to_nat BSIZE -> 0 <= off -> 0 <= m <= BSIZE - off mod BSIZE ->
  slice (off mod BSIZE) m (V b) = fbytes V i off m.
Proof.
  intros b Hb Hl Ho Hm. pose proof (Z.mod_pos_bound off BSIZE ltac:(done)). unfold slice. apply list_eq. intros j.
  destruct (decide (j < Z.to_nat m)%nat) as [Hj|Hj].
  - rewrite lookup_take_lt, lookup_drop by done. pose proof (lookup_fbytes V i off m (Z.of_nat j) ltac:(lia)) as E.
    rewrite Nat2Z.id in E. rewrite E. unfold fbyte. destruct (same_block off (Z.of_nat j) Ho ltac:(lia)) as [-> ->]. fold b.
    destruct (Z.eqb_spec b 0); [done|]. rewrite list_lookup_lookup_total_lt by lia. do 2 f_equal. lia.
  - rewrite !lookup_ge_None_2; [done|rewrite length_fbytes; lia|rewrite length_take; lia].
Qed.

(** Every block of the file up to byte [n] is there. *)
Definition mapped (V : Z -> block) (i : inode) (n : Z) : Prop := forall t, 0 <= t -> t * BSIZE < n -> file_blk V i t <> 0.

Section readi.
Context `{LK : Linker} {KD : KData} {W : Wakes} {St : Type} {BO : BlockOps St} {dev pid : Z} {BL : BlockLaws St dev pid}.
Implicit Types k : kernel St.

Lemma block_index off : 0 <= off < MAXFILE * BSIZE -> 0 <= off / BSIZE < MAXFILE.
Proof. intros Ho. split; [apply Z.div_pos; [lia|done]|]. apply Z.div_lt_upper_bound; [done|lia]. Qed.

Lemma readi_loop_run fuel : forall k V H L ip c tot n off acc, let i := inode_at k ip in
  file_inv (dev := dev) (pid := pid) k V H L ip c -> room H L 1 -> 0 <= off -> tot <= n -> off + (n - tot) <= MAXFILE * BSIZE ->
  mapped V i (off + (n - tot)) -> (0 < fuel)%nat -> (tot < n -> off mod BSIZE + (n - tot) <= (Z.of_nat fuel - 1) * BSIZE) ->
  exists c' k', readi_loop fuel ip PLocal tot n off acc c k = Ok (n, acc ++ fbytes V i off (n - tot)) c' k' /\
    fs_step c k c' k' /\ fsv k' V H L.
Proof.
  induction fuel as [|fuel IH]; intros k V H L ip c tot n off acc i Hi Hroom Ho Htot Hmax Hmap Hpos Hfuel; [lia|]. cbn [readi_loop].
  destruct (Z.ltb_spec tot n) as [Hlt|Hge].
  2: { exists c, k. replace (n - tot) with 0 by lia. cbn [fbytes seqZ]. rewrite app_nil_r. replace tot with n by lia.
       split_and!; [done|apply fs_step_refl|apply Hi]. }
  specialize (Hfuel Hlt). pose proof (Z.mod_pos_bound off BSIZE ltac:(done)) as Hmod. pose proof (Z.div_mod off BSIZE ltac:(done)).
  assert (file_blk V i (off / BSIZE) <> 0) as Hb by (apply Hmap; [apply Z.div_pos; [lia|done]|lia]).
  pose proof (block_index off ltac:(lia)) as Hbn. set (b := file_blk V i (off / BSIZE)) in *.
  destruct (bmap_hit k V H L ip (off / BSIZE) c Hi Hbn Hb Hroom) as (c1 & k1 & Hr1 & Hst1 & Hv1). fold i b in Hr1. mstep Hr1.
  destruct (Z.eqb_spec b 0) as [?|_]; [done|].
  pose proof (file_inv_step _ _ _ _ _ _ _ _ Hst1 Hv1 Hi) as Hi1. assert (inode_at k1 ip = i) as Ei1 by (by rewrite (fs_step_inode _ _ _ _ _ Hst1)).
  rewrite (bind_ok _ _ c1 k1 dev c1 k1) by (unfold the_inode, gets; by rewrite (fi_dev _ _ _ _ _ _ Hi1)).
  destruct (kbread_slot k1 V H L ip c1 (off / BSIZE) Hi1) as (h & c2 & k2 & Hr2 & Hst2 & Hh & Hv2); [unfold is_slot; lia|rewrite Ei1, file_slot; [done|lia]|done|].
  rewrite Ei1, file_slot in Hr2, Hv2 by lia. fold b in Hr2, Hv2. mstep Hr2.
  assert (<[h := b]> H !! h = Some b) as Hh2 by apply lookup_insert_eq.
  rewrite (bind_ok _ _ _ _ _ _ _ (bdata_run k2 _ _ _ h b c2 Hv2 Hh2)). set (m := Z.min (n - tot) (BSIZE - off mod BSIZE)).
  assert (0 < m <= n - tot /\ m <= BSIZE - off mod BSIZE) as [Hm1 Hm2] by lia.
  assert (slice (off mod BSIZE) m (V b) = fbytes V i off m) as -> by (apply slice_fbytes; first [done|lia|by eapply fsv_len]). cbn [either_copyout].
  rewrite (bind_ok _ _ c2 k2 0 c2 k2) by done. cbn [Z.eqb].
  destruct (kbrelse_run k2 V (<[h := b]> H) L h b c2) as (c3 & k3 & Hr3 & Hst3 & Hv3); [eapply fs_locks_step; [done|]; apply Hi1|done|done|].
  rewrite delete_insert_id in Hv3 by done. mstep Hr3. cbn [place_add].
  pose proof (fs_step_trans _ _ _ _ _ _ Hst1 (fs_step_trans _ _ _ _ _ _ Hst2 Hst3)) as Hst.
  assert (inode_at k3 ip = i) as Ei3 by (by rewrite (fs_step_inode _ _ _ _ _ Hst)).
  rewrite u32_id by (change MAXFILE with 268 in Hmax; change BSIZE with 1024 in *; lia).
  destruct (IH k3 V H L ip c3 (tot + m) n (off + m) (acc ++ fbytes V i off m)) as (c4 & k4 & Hr4 & Hst4 & Hv4); rewrite ?Ei3; try done; try lia.
  { by eapply file_inv_step. }
  { by replace (off + m + (n - (tot + m))) with (off + (n - tot)) by lia. }
  { change BSIZE with 1024 in *. lia. }
  { intros Hlt2. assert (m = BSIZE - off mod BSIZE) as Em by lia. rewrite Em. change BSIZE with 1024 in *.
    replace (off + (1024 - off mod 1024)) with (0 + (off / 1024 + 1) * 1024) by lia. rewrite Z.mod_add by done. change (0 mod 1024) with 0. lia. }
  exists c4, k4. split; [|split; [by eapply fs_step_trans|done]]. rewrite Hr4, Ei3, <- app_assoc, <- fbytes_app by lia. by replace (m + (n - (tot + m))) with (n - tot) by lia.
Qed.

(** [readi] into a buffer of the kernel. *)
Lemma readi_range k V H L ip off n c : let i := inode_at k ip in
  file_inv (dev := dev) (pid := pid) k V H L ip c -> room H L 1 -> 0 <= off -> 0 <= n -> off + n < 2 ^ 32 ->
  0 <= i_size i <= MAXFILE * BSIZE ->
  let m := if off <=? i_size i then Z.min n (i_size i - off) else 0 in (off <= i_size i -> mapped V i (off + m)) ->
  exists c' k', readi ip PLocal off n c k = Ok (m, fbytes V i off m) c' k' /\ fs_step c k c' k' /\ fsv k' V H L.
Proof.
  intros i Hi Hroom Ho Hn Hlt Hsz m Hmap. unfold readi. rewrite (bind_ok _ _ c k (i_size i) c k) by done.
  rewrite (u32_id (off + n)) by lia. destruct (Z.ltb_spec (off + n) off); [lia|]. unfold m in *. rewrite Z.leb_antisym in *.
  destruct (Z.ltb_spec (i_size i) off) as [Hgt|Hle]; cbn [orb negb].
  { exists c, k. split_and!; [done|apply fs_step_refl|apply Hi]. }
  cbn [negb] in Hmap. specialize (Hmap Hle).
  set (n' := if i_size i <? off + n then i_size i - off else n). assert (n' = Z.min n (i_size i - off)) as En.
  { unfold n'. destruct (Z.ltb_spec (i_size i) (off + n)); lia. }
  assert (0 <= n' <= i_size i - off) as Hn' by (unfold n'; destruct (Z.ltb_spec (i_size i) (off + n)); lia).
  pose proof (Z.mod_pos_bound off BSIZE ltac:(done)). pose proof (Z.mod_pos_bound n' BSIZE ltac:(done)). pose proof (Z.div_mod n' BSIZE ltac:(done)).
  assert (0 <= n' / BSIZE) by (apply Z.div_pos; [lia|done]).
  destruct (readi_loop_run (Z.to_nat (n' / BSIZE + 3)) k V H L ip c 0 n' off []) as (c' & k' & Hr & Hst & Hv); try done; try lia.
  { fold i. intros t Ht Hb. apply Hmap; [done|]. lia. }
  rewrite <- En.
  exists c', k'. mstep Hr. cbn [fst snd app]. rewrite Z.sub_0_r, i32_id by (change MAXFILE with 268 in Hsz; change BSIZE with 1024 in Hsz; lia). done.
Qed.

Lemma readi_run k V H L ip off n c : let i := inode_at k ip in
  file_inv (dev := dev) (pid := pid) k V H L ip c -> room H L 1 -> 0 <= off -> 0 <= n -> off + n < 2 ^ 32 ->
  0 <= i_size i <= MAXFILE * BSIZE -> mapped V i (i_size i) ->
  let m := if off <=? i_size i then Z.min n (i_size i - off) else 0 in
  exists c' k', readi ip PLocal off n c k = Ok (m, fbytes V i off m) c' k' /\ fs_step c k c' k' /\ fsv k' V H L.
Proof.
  intros i Hi Hroom Ho Hn Hlt Hsz Hmap. apply readi_range; try done. fold i. intros Hle t Ht Hb. apply Hmap; [done|].
  destruct (Z.leb_spec off (i_size i)); lia.
Qed.
End readi.

(** ** Writing *)

(** From [V] and [i] to [V'] and [i'], the file may have been written: its
    blocks stay where they are, new ones were free, and no block of another
    file changes. *)
Record touch (s : superblock) (V : Z -> block) (i : inode) (V' : Z -> block) (i' : inode) : Prop := {
  t_slot t : is_slot t -> slot V i t <> 0 -> slot V' i' t = slot V i t;
  t_new t : is_slot t -> slot V' i' t = slot V i t \/ (used s V (slot V' i' t) = false /\ data_block s (slot V' i' t));
  t_used x : 0 <= x < sb_size s -> used s V x = true -> used s V' x = true;
  t_keep x : data_block s x -> used s V x = true -> (forall t, is_slot t -> slot V i t <> x) -> V' x = V x;
}.

Lemma touch_grow s V i V' i' : grow s V i V' i' -> touch s V i V' i'.
Proof. intros [A1 A2 A3 A4 A5 A6]. by split. Qed.
Lemma touch_refl s V i : touch s V i V i.
Proof. apply touch_grow, grow_refl. Qed.

Lemma touch_trans s V1 i1 V2 i2 V3 i3 : touch s V1 i1 V2 i2 -> touch s V2 i2 V3 i3 -> touch s V1 i1 V3 i3.
Proof.
  intros [A1 A4 A5 A6] [B1 B4 B5 B6]. split.
  - intros t Ht Hn. rewrite B1, A1; try done. by rewrite A1.
  - intros t Ht. destruct (B4 t Ht) as [->|[Hu Hd]]; [by apply A4|]. right. split; [|done].
    destruct (used s V1 (slot V3 i3 t)) eqn:E; [|done]. rewrite A5 in Hu; [done| |done]. pose proof (db_range _ _ Hd). lia.
  - intros x Hx Hu. by apply B5, A5.
  - intros x Hd Hu Hn. rewrite B6, A6; try done; [apply A5; [|done]; pose proof (db_range _ _ Hd); lia|].
    intros t Ht Ex. destruct (A4 t Ht) as [E|[Hf _]]; [by apply (Hn t); [|rewrite <- E]|]. rewrite Ex in Hf. congruence.
Qed.

Lemma mapped_touch s V i V' i' n : touch s V i V' i' -> n <= MAXFILE * BSIZE -> mapped V i n -> mapped V' i' n.
Proof.
  intros Ht Hn Hm t H0 Hlt. assert (is_slot t /\ t <> MAXFILE) as [H1 H2] by (unfold is_slot; change BSIZE with 1024 in *; lia).
  rewrite <- file_slot by done. rewrite (t_slot _ _ _ _ _ Ht); rewrite ?file_slot by done; auto.
Qed.

(** A data block of the file is overwritten. *)
Section overwrite.
Context (s : superblock) (V : Z -> block) (H : gmap Z Z) (i : inode) (t : Z) (d : block).
Hypothesis Hfile : file_ok s V H i.
Hypothesis Ht : 0 <= t < MAXFILE.
Hypothesis Hb : slot V i t <> 0.
Let b := slot V i t.
Let V' := vset b d V.

Lemma over_is : is_slot t /\ t <> MAXFILE.
Proof using Ht. clear b V'. unfold is_slot. lia. Qed.
Lemma over_data : data_block s b /\ used s V b = true.
Proof using Hfile Ht Hb. destruct (fo_data _ _ _ _ Hfile t) as (? & ? & _); [apply over_is|done|done]. Qed.

Lemma over_slot u : slot V' i u = slot V i u.
Proof using Hfile Ht Hb.
  unfold slot at 1 2. destruct (u =? MAXFILE); [done|]. unfold file_blk. destruct (u <? NDIRECT); [done|]. cbv zeta.
  destruct (Z.eqb_spec (i_addrs i !!! Z.to_nat NDIRECT) 0) as [?|Hn]; [done|]. unfold V'. rewrite vset_ne; [done|].
  change (i_addrs i !!! Z.to_nat NDIRECT) with (slot V i MAXFILE) in *. intros E. destruct over_is as [Hs Hne].
  by apply Hne, (fo_inj _ _ _ _ Hfile).
Qed.
Lemma over_used x : 0 <= x < sb_size s -> used s V' x = used s V x.
Proof using Hfile Ht Hb.
  intros Hx. unfold used, V'. rewrite vset_ne; [done|]. destruct over_data as [Hd _]. by apply (db_bitmap _ _ Hd).
Qed.
Lemma over_free : free_data s V H -> free_data s V' H.
Proof using Hfile Ht Hb. intros Hf x Hx Hu. rewrite over_used in Hu by done. by apply Hf. Qed.
Lemma over_file : file_ok s V' H i.
Proof using Hfile Ht Hb.
  split; [apply Hfile| |].
  - intros u Hu. rewrite over_slot. intros Hn. destruct (fo_data _ _ _ _ Hfile u Hu Hn) as (Hd & Hus & Ho). split_and!; [done| |done].
    rewrite over_used; [done|]. pose proof (db_range _ _ Hd). lia.
  - intros u v Hu Hv. rewrite !over_slot. by apply Hfile.
Qed.
Lemma over_touch : touch s V i V' i.
Proof using Hfile Ht Hb.
  split.
  - intros u _ _. apply over_slot.
  - intros u _. left. apply over_slot.
  - intros x Hx Hu. by rewrite over_used.
  - intros x Hd Hu Hn. unfold V'. rewrite vset_ne; [done|]. intros ->. apply (Hn t); [apply over_is|done].
Qed.
Lemma over_fbyte x : 0 <= x < MAXFILE * BSIZE -> fbyte V' i x = if decide (x / BSIZE = t) then d !!! Z.to_nat (x mod BSIZE) else fbyte V i x.
Proof using Hfile Ht Hb.
  intros Hx. pose proof (block_index x Hx) as Hbn. unfold fbyte. rewrite <- !file_slot by lia. rewrite over_slot. case_decide as E.
  - rewrite E. fold b. destruct (Z.eqb_spec b 0); [done|]. unfold V'. by rewrite vset_eq.
  - destruct (Z.eqb_spec (slot V i (x / BSIZE)) 0) as [?|Hn]; [done|]. unfold V'. rewrite vset_ne; [done|].
    intros E'. apply E. destruct over_is as [Hs _]. apply (fo_inj _ _ _ _ Hfile); [unfold is_slot; lia|done|done|done].
Qed.
End overwrite.

(** An inode block is overwritten. *)
Section aside.
Context (s : superblock) (V : Z -> block) (H : gmap Z Z) (i : inode) (x0 : Z) (d : block).
Hypothesis Hfile : file_ok s V H i.
Hypothesis Hx0 : 0 <= x0 < sb_ninodes s.
Hypothesis Hapart : forall y, 0 <= y < sb_size s -> BBLOCK y s <> IBLOCK x0 s.
Let V' := vset (IBLOCK x0 s) d V.

Lemma aside_data x : data_block s x -> V' x = V x.
Proof using Hx0. intros Hd. unfold V'. rewrite vset_ne; [done|]. intros ->. by apply (db_inodes _ _ Hd x0). Qed.
Lemma aside_slot t : slot V' i t = slot V i t.
Proof using Hfile Hx0.
  unfold slot at 1 2. destruct (t =? MAXFILE); [done|]. unfold file_blk. destruct (t <? NDIRECT); [done|]. cbv zeta.
  destruct (Z.eqb_spec (i_addrs i !!! Z.to_nat NDIRECT) 0) as [?|Hn]; [done|].
  destruct (fo_data _ _ _ _ Hfile MAXFILE) as (Hd & _); [done|done|].
  change (slot V i MAXFILE) with (i_addrs i !!! Z.to_nat NDIRECT) in Hd. by rewrite aside_data.
Qed.
Lemma aside_used x : 0 <= x < sb_size s -> used s V' x = used s V x.
Proof using Hapart. intros Hx. unfold used, V'. rewrite vset_ne; [done|]. by apply Hapart. Qed.
Lemma aside_free : free_data s V H -> free_data s V' H.
Proof using Hapart. intros Hf x Hx Hu. rewrite aside_used in Hu by done. by apply Hf. Qed.
Lemma aside_file : file_ok s V' H i.
Proof using Hfile Hx0 Hapart.
  split; [apply Hfile| |].
  - intros u Hu. rewrite aside_slot. intros Hn. destruct (fo_data _ _ _ _ Hfile u Hu Hn) as (Hd & Hus & Ho). split_and!; [done| |done].
    rewrite aside_used; [done|]. pose proof (db_range _ _ Hd). lia.
  - intros u v Hu Hv. rewrite !aside_slot. by apply Hfile.
Qed.
Lemma aside_touch : touch s V i V' i.
Proof using Hfile Hx0 Hapart.
  split.
  - intros u _ _. apply aside_slot.
  - intros u _. left. apply aside_slot.
  - intros x Hx Hu. by rewrite aside_used.
  - intros x Hd _ _. by apply aside_data.
Qed.
Lemma aside_fbyte x : 0 <= x < MAXFILE * BSIZE -> fbyte V' i x = fbyte V i x.
Proof using Hfile Hx0.
  intros Hx. pose proof (block_index x Hx) as Hbn. unfold fbyte. rewrite <- !file_slot by lia. rewrite aside_slot.
  destruct (Z.eqb_spec (slot V i (x / BSIZE)) 0) as [?|Hn]; [done|].
  destruct (fo_data _ _ _ _ Hfile (x / BSIZE)) as (Hd & _); [unfold is_slot; lia|done|]. by rewrite aside_data.
Qed.
End aside.

(** Changes of the size alone. *)
Lemma slot_isize V i z t : slot V (set_isize z i) t = slot V i t.
Proof. done. Qed.
Lemma file_ok_isize s V H i z : file_ok s V H i -> file_ok s V H (set_isize z i).
Proof. intros [F1 F2 F3]. by split. Qed.

Lemma file_addrs_ok s V H i : bitmap_ok s -> file_ok s V H i -> Forall (fun a => 0 <= a < 2 ^ 32) (i_addrs i).
Proof.
  intros Hbm Hf. apply Forall_lookup. intros j a Ha. pose proof (bm_size _ Hbm).
  assert (exists t, is_slot t /\ slot V i t = a) as (t & Ht & E).
  { pose proof (lookup_lt_Some _ _ _ Ha) as Hj. rewrite (fo_len _ _ _ _ Hf) in Hj. apply list_lookup_total_correct in Ha.
    destruct (decide (j = 12%nat)) as [->|Hne]; [by exists MAXFILE|]. exists (Z.of_nat j). unfold is_slot, slot, file_blk.
    change MAXFILE with 268. change NDIRECT with 12. split; [lia|]. destruct (Z.eqb_spec (Z.of_nat j) 268); [lia|].
    destruct (Z.ltb_spec (Z.of_nat j) 12); [|lia]. by rewrite Nat2Z.id. }
  destruct (decide (a = 0)) as [->|Hn]; [lia|]. destruct (fo_data _ _ _ _ Hf t Ht) as (Hd & _); [congruence|].
  pose proof (db_range _ _ Hd). lia.
Qed.

Lemma length_splice o bs l : (o + length bs <= length l)%nat -> length (splice o bs l) = length l.
Proof. intros Hl. unfold splice. rewrite !length_app, length_take, length_drop. lia. Qed.
Lemma lookup_splice o bs l j : (o + length bs <= length l)%nat ->
  splice o bs l !!! j = if decide (o <= j < o + length bs)%nat then bs !!! (j - o)%nat else l !!! j.
Proof.
  intros Hl. unfold splice. case_decide as E; rewrite !list_lookup_total_alt; f_equal.
  - rewrite lookup_app_r by (rewrite length_take; lia). rewrite lookup_app_l by (rewrite length_take; lia).
    rewrite length_take. f_equal. lia.
  - destruct (decide (j < o)%nat).
    + rewrite lookup_app_l by (rewrite length_take; lia). by rewrite lookup_take_lt.
    + rewrite lookup_app_r by (rewrite length_take; lia). rewrite lookup_app_r by (rewrite length_take; lia).
      rewrite lookup_drop, length_take. f_equal. lia.
Qed.

Section writei.
Context `{LK : Linker} {KD : KData} {W : Wakes} {St : Type} {BO : BlockOps St} {dev pid : Z} {BL : BlockLaws St dev pid}.
Implicit Types k : kernel St.

(** The bytes [bs] have been written to the file from offset [off] on, adding
    at most [q] blocks to the log. *)
Record wrote (ip : Z) (H : gmap Z Z) (off : Z) (bs : list Z) (q : nat)
    (c : ctx) k (V : Z -> block) (L : gset Z) (c' : ctx) k' (V' : Z -> block) (L' : gset Z) : Prop := {
  wr_step : in_step ip c k c' k';
  wr_inv : file_inv (dev := dev) (pid := pid) k' V' H L' ip c';
  wr_size : (size L' <= size L + q)%nat;
  wr_touch : touch (sb k) V (inode_at k ip) V' (inode_at k' ip);
  wr_addrs : inode_at k' ip = set_addrs (i_addrs (inode_at k' ip)) (inode_at k ip);
  wr_bytes x : 0 <= x < MAXFILE * BSIZE ->
    fbyte V' (inode_at k' ip) x = if decide (off <= x < off + Z.of_nat (length bs)) then bs !!! Z.to_nat (x - off) else fbyte V (inode_at k ip) x;
  wr_mapped t : bs <> [] -> off / BSIZE <= t -> t * BSIZE < off + Z.of_nat (length bs) -> file_blk V' (inode_at k' ip) t <> 0;
}.

Lemma wrote_nil ip H off q c k V L c' k' V' L' : extends (dev := dev) (pid := pid) ip c k V L c' k' V' L' H q -> 0 <= off ->
  wrote ip H off [] q c k V L c' k' V' L'.
Proof.
  intros [E1 E2 E3 E4 E5] Ho. split; try done; [by apply touch_grow|].
  intros x Hx. rewrite decide_False by (cbn; lia). by eapply grow_fbyte.
Qed.

Lemma wrote_trans ip H off bs1 bs2 q1 q2 c1 k1 V1 L1 c2 k2 V2 L2 c3 k3 V3 L3 :
  0 <= off -> off + Z.of_nat (length bs1) + Z.of_nat (length bs2) <= MAXFILE * BSIZE ->
  wrote ip H off bs1 q1 c1 k1 V1 L1 c2 k2 V2 L2 -> wrote ip H (off + Z.of_nat (length bs1)) bs2 q2 c2 k2 V2 L2 c3 k3 V3 L3 ->
  wrote ip H off (bs1 ++ bs2) (q1 + q2) c1 k1 V1 L1 c3 k3 V3 L3.
Proof.
  intros Ho Hmax [A1 A2 A3 A4 A5 A6 A7] [B1 B2 B3 B4 B5 B6 B7]. rewrite (in_step_sb _ _ _ _ _ A1) in B4. split.
  - by eapply in_step_trans.
  - done.
  - lia.
  - by eapply touch_trans.
  - rewrite B5 at 1. rewrite A5. done.
  - intros x Hx. rewrite B6, A6, length_app by done. repeat case_decide; try lia.
    + rewrite lookup_total_app_r by lia. f_equal. lia.
    + by rewrite lookup_total_app_l by lia.
  - intros t Hne Ht Hb. rewrite length_app in Hb. destruct (decide (bs1 = [])) as [->|Hne1].
    { cbn [length] in *. rewrite Z.add_0_r in *. apply B7; [done|done|lia]. }
    destruct (decide (t * BSIZE < off + Z.of_nat (length bs1))) as [Hl|Hl].
    + assert (is_slot t /\ t <> MAXFILE) as [Hs Hm].
      { assert (0 <= off / BSIZE) by (apply Z.div_pos; [lia|done]). unfold is_slot. change BSIZE with 1024 in *. lia. }
      assert (slot V2 (inode_at k2 ip) t <> 0) as Hn2 by (rewrite file_slot by done; by apply A7).
      rewrite <- file_slot by done. by rewrite (t_slot _ _ _ _ _ B4).
    + apply B7; [|apply Z.div_le_upper_bound; [done|lia]|lia]. intros ->. cbn in Hb. lia.
Qed.

(** One block of a write. *)
Lemma write_block_run k V H L ip c off bs :
  file_inv (dev := dev) (pid := pid) k V H L ip c -> room H L 6 -> 0 <= off < MAXFILE * BSIZE -> bs <> [] ->
  Z.of_nat (length bs) <= BSIZE - off mod BSIZE ->
  exists r c1 k1 V1 L1, bmap ip (off / BSIZE) c k = Ok r c1 k1 /\ extends ip c k V L c1 k1 V1 L1 H 5 /\
    ((r = 0 /\ disk_full (sb k) V1) \/ exists h d c2 k2 c3 k3 c4 k4 V4 L4, r <> 0 /\ kbread dev r c1 k1 = Ok h c2 k2 /\ bdata h c2 k2 = Ok d c2 k2 /\
       length d = Z.to_nat BSIZE /\ klog_write h c2 (with_data h (splice (Z.to_nat (off mod BSIZE)) bs d) k2) = Ok tt c3 k3 /\
       kbrelse h c3 k3 = Ok tt c4 k4 /\ wrote ip H off bs 6 c k V L c4 k4 V4 L4).
Proof.
  intros Hi [Hn1 Hn2] Ho Hne Hlen. pose proof (block_index off Ho) as Hbn. pose proof (Z.mod_pos_bound off BSIZE ltac:(done)) as Hmod.
  destruct (bmap_run k V H L ip (off / BSIZE) c Hi Hbn) as (r & c1 & k1 & V1 & L1 & Hr1 & He & Er & Hfull); [split; lia|].
  exists r, c1, k1, V1, L1. split; [done|]. split; [done|]. destruct (decide (r = 0)) as [?|Hr0]; [left; auto|right].
  pose proof (ex_inv _ _ _ _ _ _ _ _ _ _ _ He) as Hi1. pose proof (ex_size _ _ _ _ _ _ _ _ _ _ _ He) as Hsz.
  pose proof (ex_step _ _ _ _ _ _ _ _ _ _ _ He) as Hst. pose proof (in_step_sb _ _ _ _ _ Hst) as Es1.
  rewrite <- file_slot in Er by lia. set (i1 := inode_at k1 ip) in *.
  destruct (kbread_slot k1 V1 H L1 ip c1 (off / BSIZE) Hi1) as (h & c2 & k2 & Hr2 & Hst2 & Hh & Hv2); [unfold is_slot; lia|fold i1; by rewrite <- Er|split; lia|].
  fold i1 in Hr2, Hv2. rewrite <- Er in Hr2, Hv2. assert (<[h := r]> H !! h = Some r) as Hh2 by apply lookup_insert_eq.
  set (d := V1 r). assert (length d = Z.to_nat BSIZE) as Hld by (by eapply fi_len).
  set (o := Z.to_nat (off mod BSIZE)). assert (o + length bs <= length d)%nat as Hob by lia.
  destruct Hi1 as [F1 F2 F3 F4 F5 F6 F7]. fold i1 in F6, F7.
  destruct (over_data (sb k1) V1 H i1 (off / BSIZE) F6 Hbn) as [Hdr _]; [by rewrite <- Er|]. rewrite <- Er in Hdr.
  pose proof (db_range _ _ Hdr). pose proof (bm_size _ F3).
  destruct (klog_write_run k2 V1 _ L1 h r (splice o bs d) c2 (fs_locks_step _ _ _ _ Hst2 F1) Hv2 Hh2) as (c3 & k3 & Hr3 & Hst3 & Hv3);
    [by rewrite length_splice|lia|rewrite (fs_step_sb _ _ _ _ Hst2); apply Hdr|lia|].
  destruct (kbrelse_run k3 _ _ _ h r c3 (fs_locks_step _ _ _ _ Hst3 (fs_locks_step _ _ _ _ Hst2 F1)) Hv3 Hh2) as (c4 & k4 & Hr4 & Hst4 & Hv4).
  rewrite delete_insert_id in Hv4 by done. pose proof (fs_step_trans _ _ _ _ _ _ Hst2 (fs_step_trans _ _ _ _ _ _ Hst3 Hst4)) as Hst24.
  exists h, d, c2, k2, c3, k3, c4, k4, (vset r (splice o bs d) V1), (L1 ∪ {[r]}). split; [done|]. split; [done|].
  split; [by apply (bdata_run k2 V1 (<[h := r]> H) L1)|]. split_and!; [done..|].
  pose proof (fs_step_sb _ _ _ _ Hst24) as Es4. pose proof (fs_step_inode _ _ _ _ ip Hst24) as Ei4. fold i1 in Ei4. rewrite Er.
  split; rewrite ?Ei4.
  - eapply in_step_trans; [exact Hst|]. by apply in_step_fs.
  - split; rewrite ?Es4, ?Ei4; try done.
    + by eapply fs_locks_step.
    + by rewrite <- Er.
    + apply over_free; try done. by rewrite <- Er.
    + apply over_file; try done. by rewrite <- Er.
  - pose proof (size_add_block L1 (slot V1 i1 (off / BSIZE))). lia.
  - eapply touch_trans; [apply touch_grow, He|]. fold i1. rewrite <- Es1. apply (over_touch _ _ H); try done. by rewrite <- Er.
  - fold i1. apply He.
  - intros x Hx. rewrite (over_fbyte (sb k1) V1 H) by (done || by rewrite <- Er).
    rewrite <- (grow_fbyte _ _ _ _ _ x (ex_grow _ _ _ _ _ _ _ _ _ _ _ He) Hx). fold i1.
    pose proof (Z.div_mod off BSIZE ltac:(done)). pose proof (Z.div_mod x BSIZE ltac:(done)). pose proof (Z.mod_pos_bound x BSIZE ltac:(done)).
    case_decide as Eb; [|rewrite decide_False; [done|]; intros Hin; apply Eb; symmetry; apply (Z.div_unique x BSIZE _ (x - BSIZE * (off / BSIZE))); lia].
    rewrite lookup_splice by done. rewrite Eb in *. destruct (decide (off <= x < off + Z.of_nat (length bs))) as [Hin|Hin].
    + rewrite decide_True by lia. f_equal. lia.
    + rewrite decide_False by lia. unfold fbyte. rewrite Eb, <- file_slot, <- Er by lia. by destruct (Z.eqb_spec r 0).
  - intros t _ Ht Hb'. assert (t = off / BSIZE) as ->.
    { pose proof (Z.div_mod off BSIZE ltac:(done)). change BSIZE with 1024 in *. lia. }
    rewrite <- file_slot by lia. rewrite (over_slot (sb k1) V1 H); try done; by rewrite <- Er.
Qed.

Lemma slice_length o m (d : block) : 0 <= o -> 0 <= m -> o + m <= Z.of_nat (length d) -> length (slice o m d) = Z.to_nat m.
Proof. intros Ho Hm Hl. unfold slice. rewrite length_take, length_drop. lia. Qed.

Lemma writei_loop_run fuel : forall q k V H L ip c tot n off bs,
  file_inv (dev := dev) (pid := pid) k V H L ip c -> room H L (6 * Z.of_nat q) -> 0 <= off -> off + (n - tot) <= MAXFILE * BSIZE ->
  Z.of_nat (length bs) = n - tot -> (q < fuel)%nat -> off mod BSIZE + (n - tot) <= Z.of_nat q * BSIZE \/ n = tot ->
  exists w c' k' V' L', writei_loop fuel ip (SLocal bs) tot n off c k = Ok (tot + Z.of_nat w, off + Z.of_nat w) c' k' /\
    (w <= length bs)%nat /\ wrote ip H off (take w bs) (6 * q) c k V L c' k' V' L' /\ ((w < length bs)%nat -> disk_full (sb k) V').
Proof.
  induction fuel as [|fuel IH]; intros q k V H L ip c tot n off bs Hi Hroom Ho Hmax Hlen Hq Hfuel; [lia|]. cbn [writei_loop].
  destruct (Z.ltb_spec tot n) as [Hlt|Hge].
  2: { exists 0%nat, c, k, V, L. rewrite !Z.add_0_r, take_0. split_and!; [done|lia| |lia]. apply wrote_nil; [|done].
       apply extends_step; [apply fs_step_refl|apply Hi|done]. }
  destruct Hfuel as [Hfuel|]; [|lia]. pose proof (Z.mod_pos_bound off BSIZE ltac:(done)) as Hmod. pose proof (Z.div_mod off BSIZE ltac:(done)) as Hdm.
  destruct q as [|q]; [lia|]. set (m := Z.min (n - tot) (BSIZE - off mod BSIZE)). set (b1 := take (Z.to_nat m) bs). set (b2 := drop (Z.to_nat m) bs).
  assert (0 < m <= n - tot /\ m <= BSIZE - off mod BSIZE) as [Hm1 Hm2] by lia.
  assert (length b1 = Z.to_nat m) as Hl1 by (unfold b1; rewrite length_take; lia).
  assert (b1 <> []) as Hne by (intros E; rewrite E in Hl1; cbn in Hl1; lia). destruct Hroom as [Hn1 Hn2].
  destruct (write_block_run k V H L ip c off b1 Hi) as (r & c1 & k1 & V1 & L1 & Hr1 & He & Hres); [split; lia|lia|done|lia|]. mstep Hr1.
  destruct Hres as [[-> Hfull]|(h & d & c2 & k2 & c3 & k3 & c4 & k4 & V4 & L4 & Hr0 & Hr2 & Hd2 & Hld & Hr3 & Hr4 & Hw1)].
  { exists 0%nat, c1, k1, V1, L1. rewrite !Z.add_0_r, take_0. split_and!; [done|lia| |done]. apply wrote_nil; [|done].
    eapply extends_weaken; [|exact He]. lia. }
  destruct (Z.eqb_spec r 0) as [?|_]; [done|]. pose proof (ex_inv _ _ _ _ _ _ _ _ _ _ _ He) as Hi1.
  rewrite (bind_ok _ _ c1 k1 dev c1 k1) by (unfold the_inode, gets; by rewrite (fi_dev _ _ _ _ _ _ Hi1)). mstep Hr2. mstep Hd2.
  cbn [either_copyin]. fold m. rewrite slice_length by lia. fold b1. rewrite (bind_ok _ _ c2 k2 (0, b1) c2 k2) by done. cbn [fst snd].
  rewrite (bind_ok _ _ c2 k2 tt c2 (with_data h (splice (Z.to_nat (off mod BSIZE)) b1 d) k2)) by done. cbn [Z.eqb]. mstep Hr3. mstep Hr4.
  cbn [source_add]. fold b2. rewrite u32_id by (change MAXFILE with 268 in Hmax; change BSIZE with 1024 in *; lia).
  pose proof (wr_size _ _ _ _ _ _ _ _ _ _ _ _ _ Hw1) as Hs1.
  assert (length b2 = length bs - Z.to_nat m)%nat as Hl2 by (unfold b2; by rewrite length_drop).
  destruct (IH q k4 V4 H L4 ip c4 (tot + m) n (off + m) b2) as (w & c' & k' & V' & L' & Hr & Hwl & Hw & Hfull);
    [apply Hw1|split; lia|lia|lia|lia|lia| |].
  { destruct (decide (m = n - tot)) as [E|E]; [right; lia|left]. assert (m = BSIZE - off mod BSIZE) as -> by lia. change BSIZE with 1024 in *.
    replace (off + (1024 - off mod 1024)) with (0 + (off / 1024 + 1) * 1024) by lia. rewrite Z.mod_add by done. change (0 mod 1024) with 0. lia. }
  exists (Z.to_nat m + w)%nat, c', k', V', L'. split; [rewrite Hr; do 2 f_equal; lia|]. split; [lia|]. split.
  - assert (take (Z.to_nat m + w) bs = b1 ++ take w b2) as -> by (unfold b1, b2; by rewrite take_take_drop).
    replace (6 * S q)%nat with (6 + 6 * q)%nat by lia.
    eapply wrote_trans; [done| |exact Hw1|]; rewrite Hl1; [rewrite length_take; lia|]. by rewrite Z2Nat.id by lia.
  - rewrite (in_step_sb _ _ _ _ _ (wr_step _ _ _ _ _ _ _ _ _ _ _ _ _ Hw1)) in Hfull. intros ?. apply Hfull. lia.
Qed.

(** The parts of the disk do not overlap. *)
Record layout_ok (s : superblock) : Prop := {
  lo_bitmap : bitmap_ok s;
  lo_inodes : inodes_ok s;
  lo_apart x y : 0 <= x < sb_ninodes s -> 0 <= y < sb_size s -> BBLOCK y s <> IBLOCK x s;
}.

(** The number of blocks that [n] bytes at [off] are spread over. *)
Definition nblocks (off n : Z) : Z := (off mod BSIZE + n + BSIZE - 1) / BSIZE.

Lemma nblocks_fuel off n : 0 <= n -> 0 <= nblocks off n /\ (Z.to_nat (nblocks off n) < Z.to_nat (n / BSIZE + 3))%nat /\
  off mod BSIZE + n <= nblocks off n * BSIZE.
Proof.
  intros Hn. unfold nblocks. pose proof (Z.mod_pos_bound off BSIZE ltac:(done)) as Hm. set (o := off mod BSIZE) in *. change BSIZE with 1024 in *.
  pose proof (Z.div_mod (o + n + 1024 - 1) 1024 ltac:(lia)). pose proof (Z.mod_pos_bound (o + n + 1024 - 1) 1024 ltac:(lia)).
  pose proof (Z.div_mod n 1024 ltac:(lia)). pose proof (Z.mod_pos_bound n 1024 ltac:(lia)). lia.
Qed.

(** The end of [writei]: the size is set and the inode written. *)
Lemma writei_finish k V H L ip c z : let i := inode_at k ip in let s := sb k in
  let i' := if i_size i <? z then set_isize z i else i in
  file_inv (dev := dev) (pid := pid) k V H L ip c -> layout_ok s -> inodes_closed s H -> 0 <= i_inum i < sb_ninodes s -> room H L 1 ->
  exists c' k', ((if i_size i <? z then mod_inode ip (set_isize z) else mret tt);; iupdate ip) c k = Ok tt c' k' /\
    in_step ip c k c' k' /\ inode_at k' ip = i' /\
    let V' := vset (IBLOCK (i_inum i) s) (put_dinode i' (di_off (i_inum i)) (V (IBLOCK (i_inum i) s))) V in
    file_inv (dev := dev) (pid := pid) k' V' H (L ∪ {[IBLOCK (i_inum i) s]}) ip c'.
Proof.
  intros i s i' Hi [Hb1 Hb2 Hb3] Hcl Hin [Hn1 Hn2]. pose proof Hi as [F1 F2 F3 F4 F5 F6 F7]. fold i s in F3, F4, F5, F6, F7.
  set (k1 := if i_size i <? z then upd_inode ip (set_isize z) k else k).
  assert (inode_at k1 ip = i' /\ sb k1 = s /\ fsk k1 = fsk k /\ in_step ip c k c k1) as (Ei1 & Es1 & Ef1 & Hst1).
  { unfold k1, i'. destruct (i_size i <? z); [|split_and!; [done..|apply in_step_refl]].
    split_and!; [by rewrite inode_upd, decide_True|done|done|apply in_step_upd]. }
  assert (((if i_size i <? z then mod_inode ip (set_isize z) else mret tt);; iupdate ip) c k = iupdate ip c k1) as ->.
  { unfold k1. destruct (i_size i <? z); by erewrite bind_ok. }
  assert (i_inum i' = i_inum i /\ i_dev i' = i_dev i /\ file_ok s V H i') as (En & Ed & Hf').
  { unfold i'. destruct (i_size i <? z); split_and!; try done. by apply file_ok_isize. }
  assert (fsv k1 V H L) as Hv1 by (by apply (fsv_ext k _ V)).
  destruct (iupdate_run k1 V H L ip c F1 Hv1) as (c' & k' & Hr & Hst & Hv'); rewrite ?Ei1, ?Es1, ?En, ?Ed; try done; [lia|lia|].
  rewrite Ei1, Es1, En in Hv'. pose proof (fs_step_sb _ _ _ _ Hst) as Es'. pose proof (fs_step_inode _ _ _ _ ip Hst) as Ei'. rewrite Es1 in Es'. rewrite Ei1 in Ei'.
  exists c', k'. split; [done|]. split; [eapply in_step_trans; [exact Hst1|by apply in_step_fs]|]. split; [done|]. cbv zeta.
  split; rewrite ?Es', ?Ei'; try done.
  - by eapply fs_locks_step.
  - apply aside_free; [|done]. intros y Hy. by apply Hb3.
  - apply aside_file; [done|done|]. intros y Hy. by apply Hb3.
  - by rewrite Ed.
Qed.

Lemma bytes_take (bs : list Z) w off x : off <= x < off + Z.of_nat (length (take w bs)) -> take w bs !!! Z.to_nat (x - off) = bs !!! Z.to_nat (x - off).
Proof. rewrite length_take. intros Hx. rewrite lookup_total_take. rewrite decide_True by lia. done. Qed.

(** The file after the write: [w] of the bytes [bs] are at [off]. *)
Record file_written (s : superblock) (V : Z -> block) (i : inode) (V' : Z -> block) (i' : inode) (off : Z) (bs : list Z) (w : Z) : Prop := {
  fw_range : 0 <= w <= Z.of_nat (length bs);
  fw_full : w < Z.of_nat (length bs) -> disk_full s V';
  fw_inode : i' = set_isize (Z.max (i_size i) (off + w)) (set_addrs (i_addrs i') i);
  fw_mapped : mapped V' i' (i_size i');
  fw_bytes x : 0 <= x < i_size i' -> fbyte V' i' x = if decide (off <= x < off + w) then bs !!! Z.to_nat (x - off) else fbyte V i x;
  fw_stored : stored (get_dinode (V' (IBLOCK (i_inum i) s)) (di_off (i_inum i)) i') = stored i';
  fw_others x : data_block s x -> used s V x = true -> (forall t, is_slot t -> slot V i t <> x) -> V' x = V x;
}.

Lemma file_written_intro s V1 V i i1 H off bs w ib : let i' := if i_size i <? off + w then set_isize (off + w) i1 else i1 in
  let V' := vset ib (put_dinode i' (di_off (i_inum i)) (V1 ib)) V1 in
  layout_ok s -> ib = IBLOCK (i_inum i) s -> 0 <= i_inum i < sb_ninodes s -> length (V1 ib) = Z.to_nat BSIZE -> inode_ok i ->
  file_ok s V1 H i1 -> touch s V i V1 i1 -> i1 = set_addrs (i_addrs i1) i ->
  0 <= off <= i_size i -> i_size i <= MAXFILE * BSIZE -> off + w <= MAXFILE * BSIZE -> 0 <= w <= Z.of_nat (length bs) -> mapped V i (i_size i) ->
  (w < Z.of_nat (length bs) -> disk_full s V1) ->
  (forall x, 0 <= x < MAXFILE * BSIZE -> fbyte V1 i1 x = if decide (off <= x < off + w) then bs !!! Z.to_nat (x - off) else fbyte V i x) ->
  (forall t, 0 < w -> off / BSIZE <= t -> t * BSIZE < off + w -> file_blk V1 i1 t <> 0) ->
  file_written s V i V' i' off bs w.
Proof.
  intros i' V' [Hb1 Hb2 Hb3] Eib Hin Hlen Hok Hf Ht Ei1 Ho Hsz Hmax Hw Hmap Hfull Hby Hnew.
  assert (MAXFILE * BSIZE < 2 ^ 31) as Hbig by done. pose proof Ht as [T1 T2 T3 T4].
  assert (forall y, 0 <= y < sb_size s -> BBLOCK y s <> IBLOCK (i_inum i) s) as Hap by (intros y Hy; by apply Hb3).
  assert (i' = set_isize (Z.max (i_size i) (off + w)) (set_addrs (i_addrs i1) i)) as Ei'.
  { unfold i'. destruct (Z.ltb_spec (i_size i) (off + w)).
    - rewrite Ei1 at 1. by replace (Z.max (i_size i) (off + w)) with (off + w) by lia.
    - rewrite Ei1 at 1. replace (Z.max (i_size i) (off + w)) with (i_size i) by lia. by destruct i. }
  assert (i_addrs i' = i_addrs i1) as Ea by (by rewrite Ei'). assert (i_size i' = Z.max (i_size i) (off + w)) as Es by (by rewrite Ei').
  assert (file_ok s V1 H i') as Hf' by (unfold i'; destruct (i_size i <? off + w); [by apply file_ok_isize|done]).
  assert (forall V t, file_blk V i' t = file_blk V i1 t) as Hfb by (intros; unfold file_blk; by rewrite Ea).
  unfold V'. rewrite Eib. split.
  - done.
  - intros Hlt x Hx. rewrite aside_used by done. by apply Hfull.
  - by rewrite Ea.
  - intros t Ht0 Htb. rewrite Es in Htb. assert (is_slot t /\ t <> MAXFILE) as [Hs Hm] by (unfold is_slot; change BSIZE with 1024 in *; lia).
    rewrite <- file_slot by done. rewrite (aside_slot s V1 H) by done. rewrite file_slot, Hfb by done.
    destruct (decide (t * BSIZE < i_size i)) as [Hlt|Hge].
    + pose proof (Hmap t Ht0 Hlt) as Hn. rewrite <- file_slot in Hn by done. rewrite <- file_slot by done. by rewrite T1.
    + apply Hnew; [lia| |lia]. apply Z.div_le_upper_bound; [done|lia].
  - intros x Hx. rewrite Es in Hx. rewrite (aside_fbyte s V1 H) by (done || lia). unfold fbyte at 1. rewrite Hfb. fold (fbyte V1 i1 x). apply Hby. lia.
  - rewrite vset_eq, <- Eib. apply get_put_dinode; [|pose proof (di_off_le (i_inum i)); lia].
    destruct Hok as [O1 O2 O3 O4 O5 O6 O7]. pose proof (file_addrs_ok s V1 H i1 Hb1 Hf) as Hadd.
    split; rewrite Ei'; cbn [i_type i_major i_minor i_nlink i_size i_addrs set_isize set_addrs]; try done; [lia|]. apply Hf.
  - intros x Hd Hu Hn. rewrite aside_data by done. by apply T4.
Qed.

Lemma writei_run k V H L ip c off bs : let i := inode_at k ip in let s := sb k in let n := Z.of_nat (length bs) in
  file_inv (dev := dev) (pid := pid) k V H L ip c -> inode_ok i -> layout_ok s -> inodes_closed s H -> 0 <= i_inum i < sb_ninodes s ->
  i_size i <= MAXFILE * BSIZE -> mapped V i (i_size i) ->
  0 <= off <= i_size i -> off + n <= MAXFILE * BSIZE -> room H L (6 * nblocks off n + 2) ->
  exists w c' k' V' L', writei ip (SLocal bs) off n c k = Ok w c' k' /\ in_step ip c k c' k' /\
    file_inv (dev := dev) (pid := pid) k' V' H L' ip c' /\ room H L' 1 /\ file_written s V i V' (inode_at k' ip) off bs w.
Proof.
  intros i s n Hi Hok Hlo Hcl Hin Hsz Hmap Ho Hmax [Hn1 Hn2]. destruct (nblocks_fuel off n ltac:(lia)) as (Hq0 & Hq1 & Hq2).
  assert (MAXFILE * BSIZE < 2 ^ 31) as Hbig by done.
  destruct (writei_loop_run (Z.to_nat (n / BSIZE + 3)) (Z.to_nat (nblocks off n)) k V H L ip c 0 n off bs Hi)
    as (wn & c1 & k1 & V1 & L1 & Hr1 & Hwl & Hw & Hfull); [split; lia|lia|lia|lia|done|left; rewrite Z2Nat.id by lia; lia|].
  set (w := Z.of_nat wn) in *. pose proof Hw as [W1 W2 W3 W4 W5 W6 W7]. fold i s in W4, W5, W6, Hfull. set (i1 := inode_at k1 ip) in *.
  pose proof (in_step_sb _ _ _ _ _ W1) as Es1. fold s in Es1.
  assert (Z.of_nat (length (take wn bs)) = w) as Elw by (rewrite length_take; lia). rewrite Elw in W6, W7.
  assert (i_inum i1 = i_inum i /\ i_size i1 = i_size i) as [Ein Eis] by (rewrite W5; done).
  destruct (writei_finish k1 V1 H L1 ip c1 (off + w) W2) as (c2 & k2 & Hr2 & Hst2 & Ei2 & Hi2); rewrite ?Es1; fold i1; rewrite ?Ein; try done; [split; lia|].
  fold i1 in Hr2, Ei2, Hi2. rewrite Es1, Ein in Hi2. rewrite Eis in Hr2, Ei2, Hi2. set (ib := IBLOCK (i_inum i) s) in *.
  eexists w, c2, k2, _, (L1 ∪ {[ib]}). split; [|split; [by eapply in_step_trans|split; [exact Hi2|split]]].
  - unfold writei. rewrite (bind_ok _ _ c k (i_size i) c k) by done. rewrite (u32_id (off + n)) by lia.
    destruct (Z.ltb_spec (i_size i) off); [lia|]. destruct (Z.ltb_spec (off + n) off); [lia|]. cbn [orb].
    destruct (Z.ltb_spec (MAXFILE * BSIZE) (off + n)); [lia|]. mstep Hr1. cbn [fst snd]. rewrite Z.add_0_l.
    rewrite (bind_ok _ _ c1 k1 (i_size i1) c1 k1) by done. rewrite Eis, (bind_bind_ok _ _ (fun _ => mret (i32 w)) _ _ _ _ _ Hr2). by rewrite i32_id by lia.
  - pose proof (size_add_block L1 ib). split; lia.
  - rewrite Ei2. eapply (file_written_intro s V1 V i i1 H off bs w ib); try done; [by eapply fi_len| |lia|lia|by intros; apply Hfull; lia| |].
    + rewrite <- Es1. apply W2.
    + intros x Hx. rewrite W6 by done. case_decide; [|done]. apply bytes_take. by rewrite Elw.
    + intros t Hw0. apply W7. intros E. rewrite E in Elw. cbn in Elw. lia.
Qed.

(** C15: a file holds what was written to it. [writei] of the bytes [bs] of a
    variable of the kernel (so that no copy from user space can fail) at [off]
    writes [w] of them, all unless every block of the disk is in use. After
    that the file is as long as it was or ends where the write ended; it reads
    as the written bytes there and as before elsewhere; the inode on disk is up to
    date; no block of any other file has changed; and [readi] of the written range
    returns exactly the bytes written. *)
Theorem writei_readi k V H L ip c off bs : let i := inode_at k ip in let s := sb k in let n := Z.of_nat (length bs) in
  file_inv (dev := dev) (pid := pid) k V H L ip c -> inode_ok i -> layout_ok s -> inodes_closed s H -> 0 <= i_inum i < sb_ninodes s ->
  i_size i <= MAXFILE * BSIZE -> mapped V i (i_size i) ->
  0 <= off <= i_size i -> off + n <= MAXFILE * BSIZE -> room H L (6 * nblocks off n + 2) ->
  exists w c' k' V' L', writei ip (SLocal bs) off n c k = Ok w c' k' /\ in_step ip c k c' k' /\
    file_inv (dev := dev) (pid := pid) k' V' H L' ip c' /\ 0 <= w <= n /\ (w < n -> disk_full s V') /\
    let i' := inode_at k' ip in
    i' = set_isize (Z.max (i_size i) (off + w)) (set_addrs (i_addrs i') i) /\ mapped V' i' (i_size i') /\
    (forall x, 0 <= x < i_size i' -> fbyte V' i' x = if decide (off <= x < off + w) then bs !!! Z.to_nat (x - off) else fbyte V i x) /\
    stored (get_dinode (V' (IBLOCK (i_inum i) s)) (di_off (i_inum i)) i') = stored i' /\
    (forall x, data_block s x -> used s V x = true -> (forall t, is_slot t -> slot V i t <> x) -> V' x = V x) /\
    exists c2 k2, readi ip PLocal off w c' k' = Ok (w, take (Z.to_nat w) bs) c2 k2.
Proof.
  intros i s n Hi Hok Hlo Hcl Hin Hsz Hmap Ho Hmax Hroom.
  destruct (writei_run k V H L ip c off bs Hi Hok Hlo Hcl Hin Hsz Hmap Ho Hmax Hroom) as (w & c' & k' & V' & L' & Hr & Hst & Hi' & Hroom' & Hfw).
  fold i s in Hfw. pose proof Hfw as [F1 F2 F3 F4 F5 F6 F7]. set (i' := inode_at k' ip) in *. exists w, c', k', V', L'. split_and!; try done; [lia..|]. cbv zeta. split_and!; try done.
  assert (i_size i' = Z.max (i_size i) (off + w)) as Es by (rewrite F3; done). assert (MAXFILE * BSIZE < 2 ^ 31) as Hbig by done.
  destruct (readi_run k' V' H L' ip off w c' Hi' Hroom') as (c2 & k2 & Hr2 & _ & _); fold i'; [lia|lia|lia|lia|done|].
  exists c2, k2. rewrite Hr2. fold i'. destruct (Z.leb_spec off (i_size i')); [|lia]. replace (Z.min w (i_size i' - off)) with w by lia.
  do 2 f_equal. apply list_eq. intros j. destruct (decide (j < Z.to_nat w)%nat) as [Hj|Hj].
  - pose proof (lookup_fbytes V' i' off w (Z.of_nat j) ltac:(lia)) as E. rewrite Nat2Z.id in E. rewrite E, F5, decide_True by lia.
    rewrite lookup_take_lt by done. rewrite list_lookup_lookup_total_lt by lia. do 2 f_equal. lia.
  - rewrite !lookup_ge_None_2; [done|rewrite length_take; lia|rewrite length_fbytes; lia].
Qed.
End writei.
