(* ===== verification/FsDir.v ===== *)
(** * The inode table and directories

    [iget], [iunlock], [iput] and [dirlookup] of kernel/fs.c: an inode is found
    in the table or takes the first free entry, a directory is searched from
    its beginning, and the entry that is found is the first with the name. *)

From S2P Require Import Prelude Riscv Headers Mem Kalloc Vm Sleeplock Block Log LogSteps LogOps State Sched SchedProps Copy Fs FsBase FsAlloc FsInode FsFile FsRw.

Section table.
Context {W : Wakes} {St : Type} {BO : BlockOps St}.
Implicit Types k : kernel St.

(** ** iget *)

(** Entry [j] of the table stands for the inode. *)
Definition cached k (dev inum j : Z) : Prop := 0 < i_ref (inode_at k j) /\ i_dev (inode_at k j) = dev /\ i_inum (inode_at k j) = inum.
Definition in_table (j : Z) : Prop := 0 <= j < NINODE.

Lemma cached_test k dev inum j :
  ((0 <? i_ref (inode_at k j)) && (i_dev (inode_at k j) =? dev) && (i_inum (inode_at k j) =? inum)) = true <-> cached k dev inum j.
Proof. unfold cached. rewrite !andb_true_iff, Z.ltb_lt, !Z.eqb_eq. tauto. Qed.

Lemma iget_scan_spec l dev inum k : forall empty, (forall j, j ∈ l -> in_table j) ->
  match iget_scan l empty dev inum k with
  | inl j => j ∈ l /\ cached k dev inum j
  | inr e => (forall j, j ∈ l -> ~ cached k dev inum j) /\
      if empty =? NULL then (e = NULL /\ (forall j, j ∈ l -> i_ref (inode_at k j) <> 0)) \/
        (exists l1 l2, l = l1 ++ e :: l2 /\ i_ref (inode_at k e) = 0 /\ forall j, j ∈ l1 -> i_ref (inode_at k j) <> 0) else e = empty
  end.
Proof.
  induction l as [|i l IH]; intros empty Hl; cbn [iget_scan].
  { split; [set_solver|]. destruct (Z.eqb_spec empty NULL); [left; set_solver|done]. }
  destruct (_ && _ && _) eqn:E; [split; [set_solver|by apply cached_test]|].
  assert (~ cached k dev inum i) as Hi by (rewrite <- cached_test, E; done).
  specialize (IH (if (empty =? NULL) && (i_ref (inode_at k i) =? 0) then i else empty) ltac:(set_solver)).
  destruct (iget_scan _ _ _ _ _) as [j|e]; [set_solver|]. destruct IH as [IH1 IH2].
  split; [intros j [->|Hj]%elem_of_cons; [done|by apply IH1]|]. assert (i <> NULL) as Hnull by (unfold NULL; assert (in_table i) as [? _] by set_solver; lia).
  destruct (Z.eqb_spec empty NULL) as [->|Hne]; cbn [andb] in IH2.
  2: { destruct (Z.eqb_spec empty NULL); [done|]. done. }
  destruct (Z.eqb_spec (i_ref (inode_at k i)) 0) as [Hr|Hr].
  - destruct (Z.eqb_spec i NULL); [done|]. subst e. right. exists [], l. split_and!; [done|done|]. by intros j ?%elem_of_nil.
  - change (NULL =? NULL) with true in IH2. destruct IH2 as [[-> IH2]|(IH2 & IH3 & IH4)]; [left|right]. 2: { exists (i :: IH2), IH3. destruct IH4 as (-> & Hr0 & Hb). split_and!; [done|done|].
      intros j [->|Hj]%elem_of_cons; [done|by apply Hb]. }
    split; [done|].
    intros j [->|Hj]%elem_of_cons; [done|by apply IH2].
Qed.

(** The numbers before [x] in a range. *)
Lemma seqZ_before a n x l1 l2 j : seqZ a n = l1 ++ x :: l2 -> a <= j < x -> j ∈ l1.
Proof.
  intros E Hj. assert (seqZ a n !! length l1 = Some x) as Hx by (rewrite E; by apply list_lookup_middle).
  apply lookup_seqZ in Hx as [-> Hn]. assert (seqZ a n !! Z.to_nat (j - a) = Some (a + Z.of_nat (Z.to_nat (j - a)))) as Hl by (apply lookup_seqZ; split; [done|lia]).
  rewrite E, lookup_app_l in Hl by lia. apply list_elem_of_lookup_2 in Hl. by replace (a + Z.of_nat (Z.to_nat (j - a))) with j in Hl by lia.
Qed.

(** The entry that [iget] returns. *)
Record got (k k' : kernel St) (c : ctx) (dev inum ip : Z) : Prop := {
  gt_table : in_table ip;
  gt_step : in_step ip c k c k';
  gt_fsk : fsk k' = fsk k;
  gt_entry : let i := inode_at k ip in let i' := inode_at k' ip in
    (cached k dev inum ip /\ i' = set_iref (i_ref i + 1) i) \/
    (i_ref i = 0 /\ (forall j, 0 <= j < ip -> i_ref (inode_at k j) <> 0) /\ (forall j, in_table j -> ~ cached k dev inum j) /\
     i' = Inode dev inum 1 (i_lock i) false (i_type i) (i_major i) (i_minor i) (i_nlink i) (i_size i) (i_addrs i));
}.

Lemma iget_run k dev inum c : LItable ∉ held c ->
  (exists ip k', iget dev inum c k = Ok ip c k' /\ got k k' c dev inum ip) \/
  ((forall j, in_table j -> ~ cached k dev inum j /\ i_ref (inode_at k j) <> 0) /\ iget dev inum c k = Panic "iget: no inodes").
Proof.
  intros Hl. unfold iget. mstep (acquire_ok LItable c k Hl).
  rewrite (bind_ok _ _ (hold LItable c) k (iget_scan (seqZ 0 NINODE) NULL dev inum k) (hold LItable c) k) by done.
  pose proof (iget_scan_spec (seqZ 0 NINODE) dev inum k NULL) as Hs. assert (forall j, j ∈ seqZ 0 NINODE <-> in_table j) as Hin.
  { intros j. rewrite elem_of_seqZ. unfold in_table. lia. }
  specialize (Hs ltac:(intros j; apply Hin)). destruct (iget_scan _ _ _ _ _) as [ip|ip].
  - destruct Hs as [Hj Hc]. left. eexists ip, _. split; [erewrite bind_ok by reflexivity; mstep (release_ok LItable c (upd_inode ip (fun i => set_iref (i_ref i + 1) i) k) Hl); reflexivity|].
    split; [by apply Hin|apply in_step_upd|done|]. cbv zeta. rewrite inode_upd, decide_True by done. by left.
  - change (NULL =? NULL) with true in Hs. destruct Hs as [Hnc [[-> Hr]|(l1 & l2 & El & Hr & Hfst)]].
    + right. split; [|done]. intros j Hj. split; [apply Hnc, Hin, Hj|apply Hr, Hin, Hj].
    + left. assert (in_table ip) as Ht by (apply Hin; rewrite El; apply elem_of_app; right; list_mem). destruct (Z.eqb_spec ip NULL) as [->|_]; [unfold in_table, NULL in Ht; lia|]. eexists ip, _. split.
      { erewrite bind_ok by reflexivity. mstep (release_ok LItable c (upd_inode ip (fun i => Inode dev inum 1 (i_lock i) false (i_type i) (i_major i) (i_minor i) (i_nlink i) (i_size i) (i_addrs i)) k) Hl). reflexivity. }
      split; [done|apply in_step_upd|done|]. cbv zeta. rewrite inode_upd, decide_True by done. right. split; [done|]. split; [|split; [|done]].
      * intros j Hj. apply Hfst. by apply (seqZ_before 0 NINODE ip l1 l2).
      * intros j Hjt. apply Hnc. by apply Hin.
Qed.
End table.

(** ** dirlookup *)

(** Entry number [j] of a directory. *)
Definition dir_entry (V : Z -> block) (i : inode) (j : Z) : list Z := fbytes V i (DIRENT * j) DIRENT.
(** The entry is in use and has the name. *)
Definition hit (name de : list Z) : bool := negb (de_inum de =? 0) && (namecmp name (de_name de) =? 0).

Section dir.
Context `{LK : Linker} {KD : KData} {W : Wakes} {St : Type} {BO : BlockOps St} {dev pid : Z} {BL : BlockLaws St dev pid}.
Implicit Types k : kernel St.

(** One entry is read. *)
Lemma entry_read k V H L dp c j : let i := inode_at k dp in
  file_inv (dev := dev) (pid := pid) k V H L dp c -> room H L 1 -> 0 <= j -> DIRENT * (j + 1) <= i_size i -> i_size i <= MAXFILE * BSIZE ->
  mapped V i (DIRENT * (j + 1)) ->
  exists c' k', readi dp PLocal (DIRENT * j) DIRENT c k = Ok (DIRENT, dir_entry V i j) c' k' /\ fs_step c k c' k' /\ fsv k' V H L.
Proof.
  intros i Hi Hroom Hj Hsz Hmax Hmap. change DIRENT with 16 in *. assert (MAXFILE * BSIZE = 274432) as Em by done.
  pose proof (readi_range k V H L dp (16 * j) 16 c Hi Hroom) as Hr. cbv zeta in Hr. fold i in Hr.
  destruct (Z.leb_spec (16 * j) (i_size i)); [|lia]. replace (Z.min 16 (i_size i - 16 * j)) with 16 in Hr by lia.
  apply Hr; [lia..|]. intros _. by replace (16 * j + 16) with (16 * (j + 1)) by lia.
Qed.

(** The loop goes past the entries that do not match. *)
Lemma dirlookup_skip n name V H L dp : forall fuel k c j, let i := inode_at k dp in let t := j + Z.of_nat n in
  file_inv (dev := dev) (pid := pid) k V H L dp c -> room H L 1 -> 0 <= j -> (n <= fuel)%nat ->
  DIRENT * t <= i_size i -> i_size i <= MAXFILE * BSIZE -> mapped V i (DIRENT * t) ->
  (forall u, j <= u < t -> hit name (dir_entry V i u) = false) ->
  exists c' k', dirlookup_loop fuel dp name (DIRENT * j) c k = dirlookup_loop (fuel - n) dp name (DIRENT * t) c' k' /\
    fs_step c k c' k' /\ fsv k' V H L.
Proof.
  induction n as [|n IH]; intros fuel k c j i t Hi Hroom Hj Hfuel Hsz Hmax Hmap Hno.
  { exists c, k. unfold t. rewrite Nat.sub_0_r, Z.add_0_r. split_and!; [done|apply fs_step_refl|apply Hi]. }
  destruct fuel as [|fuel]; [lia|]. assert (DIRENT = 16) as E16 by done. assert (MAXFILE * BSIZE = 274432) as Em by done.
  destruct (entry_read k V H L dp c j Hi Hroom Hj) as (c1 & k1 & Hr & Hst & Hv); fold i; [lia|done|intros b Hb Hlt; apply Hmap; [done|lia]|]. fold i in Hr.
  destruct (IH fuel k1 c1 (j + 1)) as (c2 & k2 & Hr2 & Hst2 & Hv2); rewrite ?(fs_step_inode _ _ _ _ _ Hst); fold i; try lia; try done.
  { by eapply file_inv_step. }
  { by replace (j + 1 + Z.of_nat n) with t by lia. }
  { intros u Hu. apply Hno. lia. }
  exists c2, k2. split; [|split; [by eapply fs_step_trans|done]]. replace (j + 1 + Z.of_nat n) with t in Hr2 by lia. cbn [Nat.sub]. rewrite <- Hr2.
  cbn [dirlookup_loop]. rewrite (bind_ok _ _ c k (i_size i) c k) by done. destruct (Z.ltb_spec (DIRENT * j) (i_size i)); [|lia].
  mstep Hr. cbn [fst snd]. change (DIRENT =? DIRENT) with true. cbn [negb]. specialize (Hno j ltac:(lia)). unfold hit in Hno.
  replace (u32 (DIRENT * j + DIRENT)) with (DIRENT * (j + 1)) by (rewrite u32_id by lia; lia).
  destruct (de_inum (dir_entry V i j) =? 0); [done|]. cbn [negb andb] in Hno. by rewrite Hno.
Qed.

Lemma dirlookup_found k V H L dp name c t : let i := inode_at k dp in
  file_inv (dev := dev) (pid := pid) k V H L dp c -> room H L 1 -> i_type i = T_DIR -> 0 <= t -> DIRENT * (t + 1) <= i_size i -> i_size i <= MAXFILE * BSIZE ->
  mapped V i (DIRENT * (t + 1)) -> (forall u, 0 <= u < t -> hit name (dir_entry V i u) = false) -> hit name (dir_entry V i t) = true ->
  exists c' k', dirlookup dp name c k = (ip ← iget dev (de_inum (dir_entry V i t)); mret (ip, DIRENT * t)) c' k' /\ fs_step c k c' k' /\ fsv k' V H L.
Proof.
  intros i Hi Hroom Hty Ht Hsz Hmax Hmap Hno Hyes. unfold dirlookup. rewrite (bind_ok _ _ c k i c k) by done. rewrite Hty. change (T_DIR =? T_DIR) with true. cbn [negb].
  assert (DIRENT = 16) as E16 by done. assert (MAXFILE * BSIZE = 274432) as Em by done.
  assert (t + 1 <= i_size i / DIRENT) as Hq by (apply Z.div_le_lower_bound; lia). set (fuel := Z.to_nat (i_size i / DIRENT + 2)).
  destruct (dirlookup_skip (Z.to_nat t) name V H L dp fuel k c 0) as (c1 & k1 & Hr1 & Hst1 & Hv1); rewrite ?Z.add_0_l, ?Z2Nat.id by lia; fold i; try done; try lia.
  { intros b Hb Hlt. apply Hmap; [done|lia]. }
  rewrite Z.mul_0_r, Z.add_0_l, Z2Nat.id in Hr1 by lia. rewrite Hr1. destruct (fuel - Z.to_nat t)%nat as [|f] eqn:Ef; [lia|].
  assert (inode_at k1 dp = i) as Ei by (apply (fs_step_inode _ _ _ _ _ Hst1)).
  destruct (entry_read k1 V H L dp c1 t) as (c2 & k2 & Hr2 & Hst2 & Hv2); rewrite ?Ei; try done; [by eapply file_inv_step|]. rewrite Ei in Hr2.
  exists c2, k2. split; [|split; [by eapply fs_step_trans|done]]. cbn [dirlookup_loop]. rewrite (bind_ok _ _ c1 k1 (i_size i) c1 k1) by (unfold the_inode, gets; by rewrite Ei).
  destruct (Z.ltb_spec (DIRENT * t) (i_size i)); [|lia]. mstep Hr2. cbn [fst snd]. change (DIRENT =? DIRENT) with true. cbn [negb].
  unfold hit in Hyes. apply andb_true_iff in Hyes as [Hy1 Hy2]. destruct (de_inum (dir_entry V i t) =? 0); [done|]. rewrite Hy2.
  rewrite (bind_ok _ _ c2 k2 dev c2 k2); [done|]. unfold the_inode, gets. rewrite (fs_step_inode _ _ _ _ _ Hst2), Ei. pose proof (fi_dev _ _ _ _ _ _ Hi) as Hdv. fold i in Hdv. by rewrite Hdv.
Qed.

Lemma dirlookup_none k V H L dp name c m : let i := inode_at k dp in
  file_inv (dev := dev) (pid := pid) k V H L dp c -> room H L 1 -> i_type i = T_DIR -> 0 <= m -> i_size i = DIRENT * m -> i_size i <= MAXFILE * BSIZE ->
  mapped V i (i_size i) -> (forall u, 0 <= u < m -> hit name (dir_entry V i u) = false) ->
  exists c' k', dirlookup dp name c k = Ok (NULL, 0) c' k' /\ fs_step c k c' k' /\ fsv k' V H L.
Proof.
  intros i Hi Hroom Hty Hm Hsz Hmax Hmap Hno. unfold dirlookup. rewrite (bind_ok _ _ c k i c k) by done. rewrite Hty. change (T_DIR =? T_DIR) with true. cbn [negb].
  assert (DIRENT = 16) as E16 by done. set (fuel := Z.to_nat (i_size i / DIRENT + 2)).
  assert (i_size i / DIRENT = m) as Hq by (rewrite Hsz, Z.mul_comm; by apply Z.div_mul).
  destruct (dirlookup_skip (Z.to_nat m) name V H L dp fuel k c 0) as (c1 & k1 & Hr1 & Hst1 & Hv1); rewrite ?Z.add_0_l, ?Z2Nat.id by lia; fold i; try done; try lia.
  { by rewrite <- Hsz. }
  rewrite Z.mul_0_r, Z.add_0_l, Z2Nat.id in Hr1 by lia. exists c1, k1. rewrite Hr1. split; [|done]. destruct (fuel - Z.to_nat m)%nat as [|f] eqn:Ef; [lia|].
  cbn [dirlookup_loop]. rewrite (bind_ok _ _ c1 k1 (i_size i) c1 k1) by (unfold the_inode, gets; by rewrite (fs_step_inode _ _ _ _ _ Hst1)).
  by destruct (Z.ltb_spec (DIRENT * m) (i_size i)); [lia|].
Qed.
End dir.

(** C18: [dirlookup] finds the first entry with the name. On a directory whose
    entries are all there it returns the offset of the first entry that is in
    use and has the name, and an entry of the inode table for its inode: the one
    the inode has already, with one more reference, or else the first free
    one; when the table has neither, [iget] panics. A directory without such an
    entry gives the null pointer. No block of the disk changes. *)
Theorem dirlookup_spec `{LK : Linker} {KD : KData} {W : Wakes} {St : Type} {BO : BlockOps St} {dev pid : Z} {BL : BlockLaws St dev pid}
  (k : kernel St) V H L dp name c : let i := inode_at k dp in let m := i_size i / DIRENT in
  file_inv (dev := dev) (pid := pid) k V H L dp c -> room H L 1 -> LItable ∉ held c -> i_type i = T_DIR ->
  i_size i = DIRENT * m -> 0 <= m -> i_size i <= MAXFILE * BSIZE -> mapped V i (i_size i) ->
  (forall t, 0 <= t < m -> (forall u, 0 <= u < t -> hit name (dir_entry V i u) = false) -> hit name (dir_entry V i t) = true ->
     exists c' k', fs_step c k c' k' /\ fsv k' V H L /\ let inum := de_inum (dir_entry V i t) in
       ((exists ip k2, dirlookup dp name c k = Ok (ip, DIRENT * t) c' k2 /\ got k' k2 c' dev inum ip) \/
        ((forall j, in_table j -> ~ cached k' dev inum j /\ i_ref (inode_at k' j) <> 0) /\ dirlookup dp name c k = Panic "iget: no inodes"))) /\
  ((forall u, 0 <= u < m -> hit name (dir_entry V i u) = false) ->
     exists c' k', dirlookup dp name c k = Ok (NULL, 0) c' k' /\ fs_step c k c' k' /\ fsv k' V H L).
Proof.
  intros i m Hi Hroom Hl Hty Hsz Hm Hmax Hmap. assert (DIRENT = 16) as E16 by done. split.
  - intros t Ht Hno Hyes. destruct (dirlookup_found k V H L dp name c t Hi Hroom Hty) as (c1 & k1 & Hr & Hst & Hv); fold i; try done; try lia.
    { intros b Hb Hlt. apply Hmap; [done|lia]. }
    fold i in Hr. exists c1, k1. split; [done|]. split; [done|]. cbv zeta. rewrite Hr. assert (LItable ∉ held c1) as Hl1 by (destruct Hst as [(-> & _) _]; done).
    destruct (iget_run k1 dev (de_inum (dir_entry V i t)) c1 Hl1) as [(ip & k2 & Hg & Hgot)|[Hfull Hp]]; [left|right].
    + exists ip, k2. split; [|done]. by mstep Hg.
    + split; [done|]. by apply bind_panic.
  - intros Hno. by apply (dirlookup_none k V H L dp name c m).
Qed.

(** ** Names *)

Lemma strncmp_eq n : forall s t, 0 ∉ s -> 0 ∉ t -> (length s <= n)%nat -> (length t <= n)%nat ->
  strncmp_bytes n s (t ++ replicate (n - length t) 0) = 0 <-> s = t.
Proof.
  induction n as [|n IH]; intros s t Hs Ht Ls Lt.
  { destruct s, t; cbn in *; (done || lia). }
  destruct s as [|a s], t as [|b t]; cbn [strncmp_bytes head tail default app length Nat.sub replicate id] in *; rewrite ?Nat.sub_0_r.
  - done.
  - cbn [negb Z.eqb andb]. apply not_elem_of_cons in Ht as [Hb _]. split; [lia|done].
  - apply not_elem_of_cons in Hs as [Ha _]. destruct (Z.eqb_spec a 0); [congruence|]. cbn [negb andb]. split; [lia|done].
  - apply not_elem_of_cons in Hs as [Ha Hs], Ht as [Hb Ht]. destruct (Z.eqb_spec a 0); [congruence|]. cbn [negb andb]. destruct (Z.eqb_spec a b) as [->|Hne].
    + rewrite IH by (done || lia). split; congruence.
    + split; [lia|congruence].
Qed.

(** An entry written with a name is hit by that name alone. *)
Lemma hit_dirent name inum name' : 0 ∉ name -> 0 ∉ name' -> Z.of_nat (length name) <= DIRSIZ -> Z.of_nat (length name') <= DIRSIZ -> 0 < inum < 2 ^ 16 ->
  de_inum (dirent inum name') = inum /\ hit name (dirent inum name') = bool_decide (name = name').
Proof.
  intros H1 H2 L1 L2 Hi. change DIRSIZ with 14 in *. assert (de_inum (dirent inum name') = inum) as E.
  { unfold de_inum, dirent, wr16, rd16. cbn. unfold u8. change (2 ^ 8) with 256. change (2 ^ 16) with 65536 in Hi. Z.div_mod_to_equations. lia. }
  split; [done|]. unfold hit. rewrite E. destruct (Z.eqb_spec inum 0); [lia|]. cbn [negb andb]. unfold namecmp.
  assert (de_name (dirent inum name') = name' ++ replicate (Z.to_nat DIRSIZ - length name') 0) as ->.
  { unfold de_name, dirent, strncpy_bytes. cbn [wr16 replicate insert list_insert app drop]. rewrite take_ge by (change DIRSIZ with 14; lia). done. }
  pose proof (strncmp_eq (Z.to_nat DIRSIZ) name name' H1 H2 ltac:(change DIRSIZ with 14; lia) ltac:(change DIRSIZ with 14; lia)) as Hc.
  apply eq_true_iff_eq. rewrite Z.eqb_eq, bool_decide_eq_true. exact Hc.
Qed.

(** ** Locking, unlocking and dropping *)

Section refs.
Context {W : Wakes} {St : Type} {BO : BlockOps St} {dev pid : Z} {BL : BlockLaws St dev pid}.
Implicit Types k : kernel St.

(** The inode with number [x] on the disk, in the entry [i]. *)
Definition on_disk_of (s : superblock) (V : Z -> block) (x : Z) (i : inode) : inode := get_dinode (V (IBLOCK x s)) (di_off x) i.

(** An unlocked entry, up to date if it is valid. *)
Record idle (V : Z -> block) (s : superblock) (i : inode) : Prop := {
  id_free : sl_locked (i_lock i) = 0;
  id_coherent : i_valid i = true -> stored i = stored (on_disk_of s V (i_inum i) i);
}.

(** An entry that [ilock] has locked. *)
Record locked_by (p : Z) (V : Z -> block) (s : superblock) (i i' : inode) : Prop := {
  lb_stored : stored i' = stored (on_disk_of s V (i_inum i) i);
  lb_valid : i_valid i' = true;
  lb_lock : i_lock i' = SleepLock 1 p;
  lb_same : i_dev i' = i_dev i /\ i_inum i' = i_inum i /\ i_ref i' = i_ref i;
}.

Lemma ilock_any k V H L ip c : let i := inode_at k ip in let s := sb k in
  fs_locks (pid := pid) c -> LInode ip ∉ held c -> fsv k V H L -> ip <> NULL -> 1 <= i_ref i -> idle V s i -> i_dev i = dev ->
  inodes_ok s -> inodes_closed s H -> 0 <= i_inum i < sb_ninodes s -> Z.of_nat (size L + size H) < NBUF ->
  i_type (on_disk_of s V (i_inum i) i) <> 0 ->
  exists c' k', ilock ip c k = Ok tt c' k' /\ in_step ip c k c' k' /\ fsv k' V H L /\ locked_by (mypid c) V s i (inode_at k' ip).
Proof.
  intros i s Hc Hli Hv Hnull Href [Hfree Hco] Hdev Hs Hcl Hi Hn Hty. destruct (i_valid i) eqn:Hval.
  2: { pose proof (ilock_run k V H L ip c Hc Hli Hv Hnull Href Hfree Hval Hdev Hs Hcl Hi Hn) as Hr. cbv zeta in Hr. fold i s in Hr.
       change (di_type (V (IBLOCK (i_inum i) s)) (di_off (i_inum i))) with (i_type (on_disk_of s V (i_inum i) i)) in Hr.
       destruct (Z.eqb_spec (i_type (on_disk_of s V (i_inum i) i)) 0); [done|]. destruct Hr as (c' & k' & Hr & Hst & Hv' & Ei).
       exists c', k'. split_and!; try done. rewrite Ei. by split. }
  destruct Hc as (Hc1 & Hc2 & Hc3).
  destruct (lift_ok (fun k => i_lock (inode_at k ip)) (fun l => upd_inode ip (set_ilock l)) (acquiresleep (LInode ip) (ChInodeLock ip)) c k tt
    (set_trace [] c) (SleepLock 1 (mypid c)) Hc3) as (c1 & k1 & Hr1 & Hs1 & Hw1); [exact (acquiresleep_free _ _ (set_trace [] c) _ Hli Hfree)|done|].
  destruct (in_step_woke ip c k _ c1 k1 Hs1 Hw1) as (Hst1 & Hf1 & Hi1). fold i in Hi1.
  exists c1, k1. split; [|split; [done|split]].
  - unfold ilock. rewrite (bind_ok _ _ c k (i_ref i) c k) by done. destruct (Z.eqb_spec ip NULL); [done|]. destruct (Z.ltb_spec (i_ref i) 1); [lia|]. cbn [orb].
    rewrite (bind_ok _ _ _ _ _ _ _ Hr1). rewrite (bind_ok _ _ c1 k1 (set_ilock (SleepLock 1 (mypid c)) i) c1 k1) by (unfold the_inode, gets; by rewrite Hi1).
    change (i_valid (set_ilock _ i)) with (i_valid i). by rewrite Hval.
  - apply (fsv_ext k _ V); [done|by eapply in_step_sb|done|done].
  - rewrite Hi1. split; try done. by rewrite <- Hco.
Qed.

Lemma iunlock_run k ip c : let i := inode_at k ip in
  (forall p, LProc p ∉ held c) -> LInode ip ∉ held c -> ip <> NULL -> i_lock i = SleepLock 1 (mypid c) -> 1 <= i_ref i ->
  exists c' k', iunlock ip c k = Ok tt c' k' /\ in_step ip c k c' k' /\ fsk k' = fsk k /\ inode_at k' ip = set_ilock (SleepLock 0 0) i.
Proof.
  intros i Hp Hli Hnull Hlk Href.
  destruct (lift_ok (fun k => i_lock (inode_at k ip)) (fun l => upd_inode ip (set_ilock l)) (holdingsleep (LInode ip)) c k true
    (set_trace [] c) (SleepLock 1 (mypid c)) Hp) as (c1 & k1 & Hr1 & Hs1 & Hw1); [|done|].
  { fold i. rewrite Hlk. rewrite (holdingsleep_run (LInode ip)) by done. cbn [set_trace mypid sl_locked sl_pid]. by rewrite Z.eqb_refl. }
  destruct (in_step_woke ip c k _ c1 k1 Hs1 Hw1) as (Hst1 & Hf1 & Hi1). fold i in Hi1.
  assert ((forall p, LProc p ∉ held c1) /\ LInode ip ∉ held c1) as [Hp1 Hli1] by (destruct Hs1 as (-> & _ & _); done).
  destruct (lift_ok (fun k => i_lock (inode_at k ip)) (fun l => upd_inode ip (set_ilock l)) (releasesleep (LInode ip) (ChInodeLock ip)) c1 k1 tt
    (Ctx (held c1) ([] ++ [EvWakeup (ChInodeLock ip)]) (me c1) (mypid c1)) (SleepLock 0 0) Hp1) as (c2 & k2 & Hr2 & Hs2 & Hw2); [|done|].
  { by apply releasesleep_run. }
  destruct (in_step_woke ip c1 k1 _ c2 k2 Hs2 Hw2) as (Hst2 & Hf2 & Hi2).
  exists c2, k2. split; [|split; [by eapply in_step_trans|split; [congruence|rewrite Hi2, Hi1; done]]].
  unfold iunlock. destruct (Z.eqb_spec ip NULL); [done|]. rewrite (bind_ok _ _ _ _ _ _ _ Hr1).
  rewrite (bind_ok _ _ c1 k1 (i_ref i) c1 k1) by (unfold the_inode, gets; by rewrite Hi1). cbn [negb orb].
  destruct (Z.ltb_spec (i_ref i) 1); [lia|]. exact Hr2.
Qed.

(** [iput] of an inode that has links or other references. *)
Lemma iput_keep k ip c : let i := inode_at k ip in LItable ∉ held c -> i_nlink i <> 0 ->
  exists k', iput ip c k = Ok tt c k' /\ in_step ip c k c k' /\ fsk k' = fsk k /\ inode_at k' ip = set_iref (i_ref i - 1) i.
Proof.
  intros i Hl Hn. exists (upd_inode ip (fun i => set_iref (i_ref i - 1) i) k). split; [|split; [apply in_step_upd|split; [done|by rewrite inode_upd, decide_True]]].
  unfold iput. mstep (acquire_ok LItable c k Hl). rewrite (bind_ok _ _ (hold LItable c) k i (hold LItable c) k) by done.
  destruct (Z.eqb_spec (i_nlink i) 0); [done|]. rewrite andb_false_r. erewrite bind_ok by reflexivity. erewrite bind_ok by reflexivity. by apply release_ok.
Qed.
End refs.
