(* ===== verification/FsName.v ===== *)
(** * Paths

    [namei] of kernel/fs.c on a file in the root directory: the inode table
    ends up with an unlocked entry for the inode that the directory gives the
    name, and the root directory with the references it had. *)

From S2P Require Import Prelude Riscv Headers Mem Kalloc Vm Sleeplock Block Log LogSteps LogOps State Sched SchedProps Copy Fs FsBase FsAlloc FsInode FsFile FsRw FsDir.

(** A path of one element. *)
Lemma split_elem_one name : slash ∉ name -> split_elem name = (name, []).
Proof.
  induction name as [|a name IH]; intros Hs; [done|]. apply not_elem_of_cons in Hs as [Ha Hs]. cbn [split_elem].
  destruct (Z.eqb_spec a slash); [congruence|]. by rewrite IH.
Qed.
Lemma skipelem_one name : name <> [] -> slash ∉ name -> Z.of_nat (length name) <= DIRSIZ -> skipelem (slash :: name) = Some (name, []).
Proof.
  intros Hne Hs Hl. unfold skipelem. assert (skip_slashes (slash :: name) = name) as ->.
  { cbn [skip_slashes]. change (slash =? slash) with true. cbn iota. destruct name as [|a name]; [done|]. cbn [skip_slashes].
    apply not_elem_of_cons in Hs as [Ha _]. destruct (Z.eqb_spec a slash); [congruence|done]. }
  destruct name as [|a name'] eqn:E; [done|]. rewrite <- E in *. rewrite split_elem_one by done. rewrite take_ge by (change DIRSIZ with 14 in *; lia). done.
Qed.

Lemma slot_same_addrs V i i' t : i_addrs i' = i_addrs i -> slot V i' t = slot V i t.
Proof. intros E. unfold slot, file_blk. by rewrite E. Qed.
Lemma file_ok_addrs s V H i i' : i_addrs i' = i_addrs i -> file_ok s V H i -> file_ok s V H i'.
Proof.
  intros E [F1 F2 F3]. split; [by rewrite E| |].
  - intros t. rewrite (slot_same_addrs V i i' t E). apply F2.
  - intros t u. rewrite (slot_same_addrs V i i' t E), (slot_same_addrs V i i' u E). apply F3.
Qed.
Lemma fbytes_addrs V i i' off n : i_addrs i' = i_addrs i -> fbytes V i' off n = fbytes V i off n.
Proof. intros E. apply fbytes_ext. intros x _. unfold fbyte, file_blk. by rewrite E. Qed.
Lemma mapped_addrs V i i' n : i_addrs i' = i_addrs i -> mapped V i n -> mapped V i' n.
Proof. intros E Hm t Ht Hlt. unfold file_blk. rewrite E. by apply Hm. Qed.

Lemma stored_eq i i' : stored i' = stored i ->
  i_type i' = i_type i /\ i_nlink i' = i_nlink i /\ i_size i' = i_size i /\ i_addrs i' = i_addrs i.
Proof. unfold stored. intros E. by injection E. Qed.

(** ** The inode table *)

Section table.
Context {St : Type}.
Implicit Types k : kernel St.

(** No entry is locked, and those in use agree with the disk. *)
Definition table_idle k (V : Z -> block) : Prop := forall j, in_table j -> let i := inode_at k j in
  0 <= i_ref i /\ sl_locked (i_lock i) = 0 /\ (0 < i_ref i -> idle V (sb k) i).

(** After [iget] the entry is idle. *)
Lemma got_idle k k' c V s dev inum ip : let i := inode_at k ip in let i' := inode_at k' ip in
  0 <= i_ref i /\ sl_locked (i_lock i) = 0 /\ (0 < i_ref i -> idle V s i) -> got k k' c dev inum ip ->
  idle V s i' /\ i_dev i' = dev /\ i_inum i' = inum /\ 1 <= i_ref i'.
Proof.
  intros i i' (Hr & Hl & Hid) [G1 G2 G3 G4]. unfold i, i' in *. cbv zeta in G4.
  destruct G4 as [[(C1 & C2 & C3) ->]|(E & _ & _ & ->)]; cbn [i_dev i_inum i_ref set_iref].
  - split_and!; [|done|done|lia]. destruct (Hid C1) as [I1 I2]. by split.
  - split_and!; [|done|done|lia]. by split.
Qed.
(** The other entries stay as they are. *)
Lemma got_other k k' c dev inum ip j : got k k' c dev inum ip -> j <> ip -> inode_at k' j = inode_at k j.
Proof. intros [_ [_ [_ G _ _]] _ _] Hj. by apply G. Qed.
End table.

(** ** namei *)

Section name.
Context `{LK : Linker} {KD : KData} {W : Wakes} {St : Type} {BO : BlockOps St} {pid : Z} {BL : BlockLaws St ROOTDEV pid}.
Implicit Types k : kernel St.

(** The locks that the file system takes are free. *)
Definition name_locks (c : ctx) : Prop := fs_locks (pid := pid) c /\ (LItable ∉ held c) /\ forall ip, LInode ip ∉ held c.

Lemma name_locks_same c c' : same_locks c c' -> name_locks c -> name_locks c'.
Proof. intros Hs (H1 & H2 & H3). split; [by eapply fs_locks_same|]. destruct Hs as (-> & _ & _). done. Qed.

(** The root directory on the disk, and its entry [t] as the first with [name]. *)
Record root_has (s : superblock) (V : Z -> block) (name : list Z) (t inum : Z) : Prop := {
  rh_type : i_type (on_disk_of s V ROOTINO inode0) = T_DIR;
  rh_nlink : i_nlink (on_disk_of s V ROOTINO inode0) <> 0;
  rh_size : 0 <= t /\ DIRENT * (t + 1) <= i_size (on_disk_of s V ROOTINO inode0) <= MAXFILE * BSIZE;
  rh_file : file_ok s V ∅ (on_disk_of s V ROOTINO inode0);
  rh_mapped : mapped V (on_disk_of s V ROOTINO inode0) (DIRENT * (t + 1));
  rh_first u : 0 <= u < t -> hit name (dir_entry V (on_disk_of s V ROOTINO inode0) u) = false;
  rh_hit : hit name (dir_entry V (on_disk_of s V ROOTINO inode0) t) = true;
  rh_inum : de_inum (dir_entry V (on_disk_of s V ROOTINO inode0) t) = inum;
}.

(** A root directory that [ilock] has just locked is searched. *)
Lemma root_lookup k V L rp c name t inum i0 : let i := inode_at k rp in let s := sb k in
  name_locks c -> fsv k V ∅ L -> room ∅ L 1 -> layout_ok s -> free_data s V ∅ -> root_has s V name t inum ->
  locked_by (mypid c) V s i0 i -> i_dev i0 = ROOTDEV -> i_inum i0 = ROOTINO ->
  (exists c1 k1, dirlookup rp name c k = (ip ← iget ROOTDEV inum; mret (ip, DIRENT * t)) c1 k1 /\ fs_step c k c1 k1 /\ fsv k1 V ∅ L).
Proof.
  intros i s (Hl1 & Hl2 & Hl3) Hv Hroom Hlo Hfree [R1 R2 [R3 R4] R5 R6 R7 R8 R9] [B1 B2 B3 (B4 & B5 & B6)] Hdev Hin.
  set (R := on_disk_of s V ROOTINO inode0) in *. assert (stored i = stored R) as Es by (rewrite B1, Hin; done). apply stored_eq in Es as (E1 & E4 & E5 & E6).
  assert (forall u, dir_entry V i u = dir_entry V R u) as Ede by (intros u; by apply fbytes_addrs).
  destruct (dirlookup_found (dev := ROOTDEV) (pid := pid) k V ∅ L rp name c t) as (c1 & k1 & Hr & Hst & Hv1); fold i; try done; rewrite ?E1, ?E5, ?Ede; try done; try lia.
  - split; fold i s; try done; [apply Hlo|by apply (file_ok_addrs _ _ _ R)|by rewrite B4].
  - by apply (mapped_addrs _ R).
  - intros u Hu. rewrite Ede. by apply R7.
  - fold i in Hr. rewrite Ede, R9 in Hr. by exists c1, k1.
Qed.

(** The end of a lookup: the directory is unlocked and dropped. *)
Lemma iunlockput_run k rp c : let i := inode_at k rp in name_locks c -> rp <> NULL -> i_lock i = SleepLock 1 (mypid c) -> 1 <= i_ref i -> i_nlink i <> 0 ->
  exists c' k', iunlockput rp c k = Ok tt c' k' /\ in_step rp c k c' k' /\ fsk k' = fsk k /\ i_ref (inode_at k' rp) = i_ref i - 1.
Proof.
  intros i (Hl1 & Hl2 & Hl3) Hnull Hlk Href Hn.
  destruct (iunlock_run k rp c) as (c1 & k1 & Hr1 & Hst1 & Hf1 & Hi1); try done; [apply Hl1|]. fold i in Hi1.
  destruct (iput_keep k1 rp c1) as (k2 & Hr2 & Hst2 & Hf2 & Hi2); [destruct Hst1 as [(-> & _ & _) _]; done|by rewrite Hi1|].
  exists c1, k2. split; [unfold iunlockput; by mstep Hr1|]. split; [by eapply in_step_trans|]. split; [congruence|]. by rewrite Hi2, Hi1.
Qed.

(** Two entries of the table are free. *)
Definition two_free k : Prop := exists a b, in_table a /\ in_table b /\ a <> b /\ i_ref (inode_at k a) = 0 /\ i_ref (inode_at k b) = 0.

(** The entry that [namei] returns. *)
Record named k k' (c c' : ctx) (V : Z -> block) (L : gset Z) (inum ip : Z) : Prop := {
  nm_locks : same_locks c c';
  nm_sb : sb k' = sb k;
  nm_fsv : fsv k' V ∅ L;
  nm_table : in_table ip;
  nm_idle : idle V (sb k) (inode_at k' ip);
  nm_inode : i_dev (inode_at k' ip) = ROOTDEV /\ i_inum (inode_at k' ip) = inum /\ 1 <= i_ref (inode_at k' ip);
  nm_refs j : j <> ip -> i_ref (inode_at k' j) = i_ref (inode_at k j);
}.

Section namei.
Context (k : kernel St) (V : Z -> block) (L : gset Z) (c : ctx) (name : list Z) (t inum : Z).
Local Abbreviation s := (sb k) (only parsing).
Hypothesis Hlk : name_locks c.
Hypothesis Hv : fsv k V ∅ L.
Hypothesis Hroom : room ∅ L 1.
Hypothesis Hlo : layout_ok s.
Hypothesis Hfree : free_data s V ∅.
Hypothesis Hroot : root_has s V name t inum.
Hypothesis Htab : table_idle k V.
Hypothesis Htwo : two_free k.
Hypothesis Hin : ROOTINO < sb_ninodes s.
Hypothesis Hne : inum <> ROOTINO.

(** The root directory is found and locked. *)
Lemma root_locked : exists rp k1 c2 k2, iget ROOTDEV ROOTINO c k = Ok rp c k1 /\ got k k1 c ROOTDEV ROOTINO rp /\
  ilock rp c k1 = Ok tt c2 k2 /\ in_step rp c k1 c2 k2 /\ fsv k2 V ∅ L /\ locked_by (mypid c) V s (inode_at k1 rp) (inode_at k2 rp).
Proof using All.
  destruct Hlk as (Hl1 & Hl2 & Hl3). destruct (iget_run k ROOTDEV ROOTINO c Hl2) as [(rp & k1 & Hr & Hg)|[Hfull _]].
  2: { destruct Htwo as (a & _ & Ha & _ & _ & Hz & _). by destruct (Hfull a Ha). }
  destruct (got_idle k k1 c V s ROOTDEV ROOTINO rp (Htab rp (gt_table _ _ _ _ _ _ Hg)) Hg) as (Hid & Hd & Hi & Href). pose proof (in_step_sb _ _ _ _ _ (gt_step _ _ _ _ _ _ Hg)) as Es.
  destruct Hroom as [Hn1 _]. pose proof Hroot as [R1 _ _ _ _ _ _ _].
  destruct (ilock_any (dev := ROOTDEV) (pid := pid) k1 V ∅ L rp c) as (c2 & k2 & Hr2 & Hst2 & Hv2 & Hlb); rewrite ?Es; try done.
  - apply (fsv_ext k _ V); [apply Hg|done|done|done].
  - destruct Hg as [[G _] _ _ _]. unfold NULL. lia.
  - apply Hlo.
  - rewrite Hi. unfold ROOTINO in *. lia.
  - lia.
  - rewrite Hi. change (i_type (on_disk_of s V ROOTINO inode0) <> 0). by rewrite R1.
  - rewrite Es in Hlb. by exists rp, k1, c2, k2.
Qed.

(** The state in which the directory has been searched, with the entry of the
    root directory and of the file. *)
Lemma root_searched : exists rp c2 k2 ip k4 c4 k1, iget ROOTDEV ROOTINO c k = Ok rp c k1 /\ ilock rp c k1 = Ok tt c2 k2 /\
  dirlookup rp name c2 k2 = Ok (ip, DIRENT * t) c4 k4 /\ ip <> rp /\ in_table rp /\ in_table ip /\ same_locks c c4 /\ sb k4 = s /\ fsv k4 V ∅ L /\
  i_type (inode_at k2 rp) = T_DIR /\ i_lock (inode_at k4 rp) = SleepLock 1 (mypid c) /\ i_ref (inode_at k4 rp) = i_ref (inode_at k rp) + 1 /\
  i_nlink (inode_at k4 rp) <> 0 /\ (forall j, j <> rp -> j <> ip -> inode_at k4 j = inode_at k j) /\
  idle V s (inode_at k4 ip) /\ i_dev (inode_at k4 ip) = ROOTDEV /\ i_inum (inode_at k4 ip) = inum /\ 1 <= i_ref (inode_at k4 ip).
Proof using All.
  destruct root_locked as (rp & k1 & c2 & k2 & Hr1 & Hg1 & Hr2 & Hst2 & Hv2 & Hlb). pose proof (gt_table _ _ _ _ _ _ Hg1) as Hrt.
  destruct (got_idle k k1 c V s ROOTDEV ROOTINO rp (Htab rp Hrt) Hg1) as (_ & Hd1 & Hi1 & Href1).
  pose proof (in_step_sb _ _ _ _ _ (gt_step _ _ _ _ _ _ Hg1)) as Es1. pose proof (in_step_sb _ _ _ _ _ Hst2) as Es2. rewrite Es1 in Es2.
  assert (name_locks c2) as Hlk2 by (eapply name_locks_same; [by apply Hst2|done]). assert (mypid c2 = mypid c) as Ep2 by apply Hst2.
  assert (forall j, j <> rp -> inode_at k2 j = inode_at k j) as Hoth2.
  { intros j Hj. destruct Hst2 as [_ [_ -> _ _]]; [|done]. by apply (got_other _ _ _ _ _ _ _ Hg1). }
  destruct (root_lookup k2 V L rp c2 name t inum (inode_at k1 rp)) as (c3 & k3 & Hr3 & Hst3 & Hv3); rewrite ?Es2, ?Ep2; try done.
  assert (forall j, inode_at k3 j = inode_at k2 j) as Ei3 by (intros j; apply (fs_step_inode _ _ _ _ _ Hst3)).
  pose proof Hlb as [B1 B2 B3 (B4 & B5 & B6)]. rewrite Hi1 in B5. assert (stored (inode_at k2 rp) = stored (on_disk_of s V ROOTINO inode0)) as Ests by (rewrite B1, Hi1; done).
  apply stored_eq in Ests as (T1 & T2 & _). destruct Hroot as [R1 R2 _ _ _ _ _ _].
  assert (i_ref (inode_at k1 rp) = i_ref (inode_at k rp) + 1) as Eref by (destruct (gt_entry _ _ _ _ _ _ Hg1) as [[_ ->]|(-> & _ & _ & ->)]; done).
  destruct (iget_run k3 ROOTDEV inum c3) as [(ip & k4 & Hr4 & Hg4)|[Hfull _]].
  { destruct Hst3 as [(-> & _ & _) _]. apply Hlk2. }
  2: { destruct Htwo as (a & b & Ha & Hb & Hab & Za & Zb). destruct (decide (a = rp)) as [->|Hna].
       - destruct (Hfull b Hb) as [_ Hz]. rewrite Ei3, Hoth2 in Hz by congruence. done.
       - destruct (Hfull a Ha) as [_ Hz]. rewrite Ei3, Hoth2 in Hz by done. done. }
  pose proof (gt_table _ _ _ _ _ _ Hg4) as Hit.
  assert (ip <> rp) as Hneq.
  { intros ->. destruct (gt_entry _ _ _ _ _ _ Hg4) as [[(_ & _ & C3) _]|(Z0 & _)]; [rewrite Ei3, B5 in C3; congruence|rewrite Ei3, B6 in Z0; lia]. }
  destruct (got_idle k3 k4 c3 V s ROOTDEV inum ip) as (Hid4 & Hd4 & Hi4 & Href4); [rewrite Ei3, Hoth2 by done; by apply Htab|done|].
  assert (inode_at k4 rp = inode_at k2 rp) as Erp by (rewrite (got_other _ _ _ _ _ _ _ Hg4) by congruence; apply Ei3).
  assert (same_locks c c3) as (S1 & S2 & S3) by (eapply same_locks_trans; [apply Hst2|apply Hst3]).
  exists rp, c2, k2, ip, k4, c3, k1. split_and!; try done.
  - rewrite Hr3. by mstep Hr4.
  - rewrite (in_step_sb _ _ _ _ _ (gt_step _ _ _ _ _ _ Hg4)), (fs_step_sb _ _ _ _ Hst3). done.
  - apply (fsv_ext k3 _ V); [apply Hg4|apply (in_step_sb _ _ _ _ _ (gt_step _ _ _ _ _ _ Hg4))|done|done].
  - by rewrite T1.
  - by rewrite Erp.
  - rewrite Erp, B6. done.
  - rewrite Erp, T2. done.
  - intros j J1 J2. by rewrite (got_other _ _ _ _ _ _ _ Hg4), Ei3, Hoth2 by done.
Qed.

Lemma namei_run : name <> [] -> slash ∉ name -> Z.of_nat (length name) <= DIRSIZ ->
  exists ip c' k', namei (slash :: name) c k = Ok ip c' k' /\ named k k' c c' V L inum ip.
Proof using All.
  intros Hn1 Hn2 Hn3. destruct root_searched as (rp & c2 & k2 & ip & k4 & c4 & k1 & Hr1 & Hr2 & Hr3 & Hneq & Hrt & Hit & Hs4 & Es4 & Hv4 & Hty & Hlk4 & Href4 & Hnl4 & Hoth & Hid & Hd & Hi & Href).
  assert (mypid c4 = mypid c) as Ep by apply Hs4. destruct (Htab rp Hrt) as (Href0 & _).
  assert (rp <> NULL /\ ip <> NULL) as [Hnull Hnull'] by (unfold in_table, NULL in *; lia).
  destruct (iunlockput_run k4 rp c4) as (c5 & k5 & Hr5 & Hst5 & Hf5 & Hi5); [by eapply name_locks_same|done|by rewrite Ep|lia|done|].
  assert (forall j, j <> rp -> inode_at k5 j = inode_at k4 j) as Hoth5 by (intros j Hj; destruct Hst5 as [_ [_ -> _ _]]; done).
  pose proof (in_step_sb _ _ _ _ _ Hst5) as Es5. exists ip, c5, k5. split.
  - unfold namei, namex. cbn [head]. rewrite bool_decide_true by done. rewrite (bind_ok _ _ c k (ip, name) c5 k5); [done|].
    mstep Hr1. cbn [length namex_loop]. rewrite skipelem_one by done. mstep Hr2.
    rewrite (bind_ok _ _ c2 k2 T_DIR c2 k2) by (unfold the_inode, gets; by rewrite Hty). change (T_DIR =? T_DIR) with true. cbn [negb andb].
    mstep Hr3. cbn [fst]. destruct (Z.eqb_spec ip NULL); [done|]. mstep Hr5. done.
  - split; rewrite ?Hoth5 by done; try done.
    + eapply same_locks_trans; [exact Hs4|apply Hst5].
    + congruence.
    + apply (fsv_ext k4 _ V); [done|done|done|done].
    + intros j Hj. destruct (decide (j = rp)) as [->|Hjr]; [rewrite Hi5, Href4; lia|]. by rewrite Hoth5, Hoth.
Qed.
End namei.
End name.
