(* ===== verification/FsDemo.v ===== *)
(** * The file system on the log and the buffer cache

    The hypotheses of the theorems on files hold in a state that the system
    reaches: a disk of 60 blocks with the log at block 2, inodes in block 33 and
    the bitmap in block 34, and an empty file with inode number 1. *)

From S2P Require Import Prelude Riscv Headers Mem Kalloc Vm Sleeplock Block Bio BioList BioRep BioProps.
From S2P Require Import Log LogSteps LogSafe LogCrash LogOps State Sched SchedProps Copy Fs FsBase FsAlloc FsInode FsFile FsRw.

Module Demo.
#[local] Instance fs_wakes : Wakes := {| wakes := 1 |}.
#[local] Instance fs_linker : Linker :=
  {| kend := PHYSTOP - 12 * PGSIZE; etext := KERNBASE + 16 * PGSIZE; trampoline := KERNBASE + PGSIZE |}.
#[local] Instance fs_kdata : KData := {| kdata := KERNBASE; st_pad := [] |}.

Definition lg : logst := Log 2 1 false 1 0 ∅.
Definition ct : ctx := Ctx ∅ [] 0 1.
Definition super : superblock := SuperBlock FSMAGIC 60 25 16 31 2 33 34.
(** Blocks 0 to 34 are in use. *)
Definition bitmap : block := [255; 255; 255; 255; 7] ++ replicate (Z.to_nat BSIZE - 5) 0.
Definition image : gmap Z block := {[34 := bitmap]}.
Definition node : inode := Inode 1 1 1 (SleepLock 0 0) true 2 0 0 1 0 (replicate 13 0).
Definition node' : inode := set_ivalid false node.
Definition kern (s : bcache) : kernel bcache :=
  Kernel (Pmem ∅ 0 ∅) (FsState lg s) super {[0 := node; 1 := node']} ∅ ∅ ∅ 2 None 0 (Console ∅ 0 0 0) (Uart false []) false.

Lemma fs_demo_locks : fs_locks (pid := 1) ct.
Proof. by split_and!. Qed.

Lemma image_len b : length (dblock image b) = Z.to_nat BSIZE.
Proof. unfold dblock, image. destruct (decide (b = 34)) as [->|?]; [by rewrite lookup_singleton_eq|]. by rewrite lookup_singleton_ne. Qed.

Lemma fs_demo : exists s, fsv (BL := bio_laws 1 1) (kern s) (dblock image) ∅ ∅.
Proof.
  destruct (binit_run 1 1 image ct) as (s & _ & _ & Ha); [done|exact image_len|]. exists s.
  exists (BState image [] ∅ ∅ ∅). split; try done.
  apply (log_inv_empty lg); try done. split; cbn; [unfold LOGBLOCKS, MAXOPBLOCKS; lia|unfold LOGBLOCKS, MAXOPBLOCKS; lia|lia|lia].
Qed.

Lemma area x : log_area super x <-> 2 <= x <= 32.
Proof. unfold log_area. change LOGBLOCKS with 30. change (sb_logstart super) with 2. lia. Qed.
Lemma bblock x : 0 <= x < 60 -> BBLOCK x super = 34.
Proof. intros Hx. unfold BBLOCK. change (sb_bmapstart super) with 34. rewrite Z.div_small by (change BPB with 8192; lia). done. Qed.
Lemma iblock x : 0 <= x < 16 -> IBLOCK x super = 33.
Proof. intros Hx. unfold IBLOCK. change (sb_inodestart super) with 33. rewrite Z.div_small by (change IPB with 16; lia). done. Qed.

Lemma super_layout : layout_ok super.
Proof.
  split.
  - split; change (sb_size super) with 60; change (sb_bmapstart super) with 34; [lia|done|].
    intros x Hx. rewrite area. rewrite Z.div_small by (change BPB with 8192; lia). lia.
  - split; change (sb_ninodes super) with 16; change (sb_inodestart super) with 33; [lia|done|].
    intros x Hx. rewrite area. rewrite Z.div_small by (change IPB with 16; lia). lia.
  - intros x y Hx Hy. rewrite bblock, iblock by done. done.
Qed.

Lemma image_used x : 0 <= x < 60 -> used super (dblock image) x = (x <? 35).
Proof.
  intros Hx. assert (Forall (fun x => used super (dblock image) x = (x <? 35)) (seqZ 0 60)) as Hall.
  { apply (bool_decide_unpack _). vm_compute. done. }
  rewrite Forall_forall in Hall. apply Hall. apply elem_of_seqZ. lia.
Qed.

Lemma image_free : free_data super (dblock image) ∅.
Proof.
  intros x Hx Hu. change (sb_size super) with 60 in Hx. rewrite image_used in Hu by done. apply Z.ltb_ge in Hu. split; [|done].
  split; [change (sb_size super) with 60; lia|rewrite area; lia| |].
  - intros y Hy. rewrite bblock by done. lia.
  - intros y Hy. rewrite iblock by done. lia.
Qed.

Lemma node_ok : inode_ok node.
Proof. split; cbn [node i_type i_major i_minor i_nlink i_size i_addrs]; try lia; [done|]. apply Forall_replicate. lia. Qed.

Lemma empty_slot V t : is_slot t -> slot V node t = 0.
Proof.
  intros Ht. assert (Forall (fun j => i_addrs node !!! Z.to_nat j = 0) (seqZ 0 13)) as Hall by (apply (bool_decide_unpack _); vm_compute; done).
  rewrite Forall_forall in Hall. unfold slot, file_blk. destruct (t =? MAXFILE); [done|]. unfold is_slot in Ht. change MAXFILE with 268 in Ht.
  destruct (Z.ltb_spec t NDIRECT) as [Hlt|_]; [|done]. change NDIRECT with 12 in Hlt. apply Hall, elem_of_seqZ. lia.
Qed.

Lemma node_file : file_ok super (dblock image) ∅ node.
Proof. split; [done| |]; intros t; [|intros u]; intros Ht; [|intros _]; by rewrite empty_slot. Qed.

Lemma balloc_spec_witness : exists s r c' k', balloc 1 ct (kern s) = Ok r c' k' /\ (r = 0 \/ 0 < r < 60).
Proof.
  destruct fs_demo as (s & Hv). destruct (balloc_spec (BL := bio_laws 1 1) (kern s) (dblock image) ∅ ∅ ct)
    as (r & c' & k' & Hr & _ & Hres); [exact fs_demo_locks|exact Hv|apply super_layout|exact image_free|done|done|done|].
  exists s, r, c', k'. split; [exact Hr|]. destruct Hres as [(-> & _)|(H & _)]; [by left|by right].
Defined.

Lemma bfree_spec_witness : exists s, (exists c' k', bfree 1 20 ct (kern s) = Ok tt c' k') /\ bfree 1 40 ct (kern s) = Panic "freeing free block".
Proof.
  destruct fs_demo as (s & Hv). exists s. split.
  - destruct (bfree_spec (BL := bio_laws 1 1) (kern s) (dblock image) ∅ ∅ 20 ct) as [H _]; [exact fs_demo_locks|exact Hv|apply super_layout|done|done|done|done|].
    destruct H as (c' & k' & V' & Hr & _); [by rewrite image_used|]. by exists c', k'.
  - apply (bfree_spec (BL := bio_laws 1 1) (kern s) (dblock image) ∅ ∅ 40 ct); [exact fs_demo_locks|exact Hv|apply super_layout|done|done|done|done|].
    by rewrite image_used.
Defined.

Lemma iupdate_ilock_witness : exists s c1 k1 c3 k3, iupdate 0 ct (kern s) = Ok tt c1 k1 /\ ilock 1 c1 k1 = Ok tt c3 k3 /\
  stored (inode_at k3 1) = stored node.
Proof.
  destruct fs_demo as (s & Hv). destruct (iupdate_ilock (BL := bio_laws 1 1) (kern s) (dblock image) ∅ ∅ 0 ct)
    as (c1 & k1 & V1 & Hr1 & Hst & Hv1 & _ & _ & Hil); [exact fs_demo_locks|exact Hv|done|exact node_ok|done|apply super_layout|done|done|done|done|].
  destruct (Hil k1 c1 ∅ (∅ ∪ {[IBLOCK 1 super]}) 1) as (c3 & k3 & Hr3 & _ & _ & Hs & _).
  - eapply fs_locks_step; [exact Hst|exact fs_demo_locks].
  - destruct Hst as [(-> & _) _]. done.
  - exact Hv1.
  - by rewrite (fs_step_sb _ _ _ _ Hst).
  - done.
  - rewrite union_empty_l_L, size_singleton. done.
  - done.
  - by rewrite (fs_step_inode _ _ _ _ _ Hst).
  - by rewrite (fs_step_inode _ _ _ _ _ Hst).
  - by rewrite (fs_step_inode _ _ _ _ _ Hst).
  - by rewrite (fs_step_inode _ _ _ _ _ Hst).
  - by rewrite (fs_step_inode _ _ _ _ _ Hst).
  - by exists s, c1, k1, c3, k3.
Defined.

Lemma writei_readi_witness : exists s w c' k' c2 k2, writei 0 (SLocal [104; 105; 10]) 0 3 ct (kern s) = Ok w c' k' /\
  readi 0 PLocal 0 w c' k' = Ok (w, take (Z.to_nat w) [104; 105; 10]) c2 k2.
Proof.
  destruct fs_demo as (s & Hv).
  destruct (writei_readi (BL := bio_laws 1 1) (kern s) (dblock image) ∅ ∅ 0 ct 0 [104; 105; 10])
    as (w & c' & k' & V' & L' & Hr & _ & _ & _ & _ & _ & _ & _ & _ & _ & c2 & k2 & Hr2).
  - split; [exact fs_demo_locks|exact Hv|apply super_layout|exact image_free|done|exact node_file|done].
  - exact node_ok.
  - exact super_layout.
  - done.
  - done.
  - done.
  - intros t Ht Hlt. change (i_size (inode_at (kern s) 0)) with 0 in Hlt. change BSIZE with 1024 in Hlt. lia.
  - done.
  - done.
  - done.
  - by exists s, w, c', k', c2, k2.
Defined.
End Demo.
