(* ===== verification/Console.v ===== *)
(** * The console: kernel/console.c and kernel/uart.c

    Input characters arrive by interrupt and are edited in a ring buffer until
    a line is complete; [consoleread] takes whole lines from it. Output goes to
    the transmitter of the UART. The device registers are the arguments of
    [uartintr]: whether the transmitter is idle, and the input characters that
    [uartgetc] returns before it returns -1. *)

From S2P Require Import Prelude Riscv Headers Mem Kalloc Vm Sleeplock Block Log State Sched Copy.

Definition BACKSPACE : Z := 0x100.
(** [C(x)], with characters by their codes. *)
Definition C_D : Z := 4.
Definition C_H : Z := 8.
Definition C_P : Z := 16.
Definition C_U : Z := 21.
Definition DEL : Z := 0x7f.
Definition newline : Z := 10.
Definition carriage_return : Z := 13.

Section console.
Context `{LK : Linker} {KD : KData} {W : Wakes} {St : Type}.

(** ** kernel/uart.c *)

(** [WriteReg(THR, c)] *)
Definition thr_write (ch : Z) : K St unit :=
  modify (fun k => set_uart (Uart (tx_busy (uart k)) (tx_sent (uart k) ++ [u8 ch])) k).
Definition set_busy (b : bool) : K St unit := modify (fun k => set_uart (Uart b (tx_sent (uart k))) k).

(** [while (tx_busy != 0) sleep(&tx_chan, &tx_lock);] *)
Fixpoint tx_wait (fuel : nat) : K St unit :=
  match fuel with
  | O => nofuel
  | S fuel =>
      b ← gets (fun k => tx_busy (uart k));
      if b : bool then sleep ChTx LTx;; tx_wait fuel else mret tt
  end.
Fixpoint uartwrite_loop (buf : list Z) : K St unit :=
  match buf with
  | [] => mret tt
  | ch :: buf =>
      tx_wait (S wakes);;
      thr_write ch;;
      set_busy true;;
      uartwrite_loop buf
  end.
Definition uartwrite (buf : list Z) : K St unit :=
  acquire LTx;;
  uartwrite_loop buf;;
  release LTx.

(** The byte that [uartputc_sync] sends. Its tests of [panicking] and [panicked]
    and the interrupt nesting around it are in file KPrintf: here a panic ends
    the run, so that neither flag is set. The spin for an idle transmitter ends
    when the device is idle. *)
Definition uartputc_sync (ch : Z) : K St unit := thr_write ch.

(** ** kernel/console.c *)

Definition consputc (c : Z) : K St unit :=
  if c =? BACKSPACE then
    uartputc_sync 8;;
    uartputc_sync 32;;
    uartputc_sync 8
  else uartputc_sync c.

Definition the_cons {A} (f : console -> A) : K St A := gets (fun k => f (cons k)).
Definition mod_cons (f : console -> console) : K St unit := modify (fun k => set_cons (f (cons k)) k).
Definition cons_at (x : console) (i : Z) : Z := default 0 (c_buf x !! (i mod INPUT_BUF_SIZE)).

Fixpoint consolewrite_loop (fuel : nat) (src : source) (i n : Z) : K St Z :=
  match fuel with
  | O => nofuel
  | S fuel =>
      if i <? n then
        let nn := Z.min 32 (n - i) in
        r ← either_copyin (replicate (Z.to_nat nn) 0) (source_add src i);
        if r.1 =? -1 then mret i
        else
          uartwrite r.2;;
          consolewrite_loop fuel src (i + nn) n
      else mret i
  end.
Definition consolewrite (src : source) (n : Z) : K St Z := consolewrite_loop (Z.to_nat (n / 32 + 2)) src 0 n.

(** [while (cons.r == cons.w)]: whether to go on, or to return -1. *)
Fixpoint cons_wait (fuel : nat) : K St bool :=
  match fuel with
  | O => nofuel
  | S fuel =>
      x ← the_cons id;
      if c_r x =? c_w x then
        p ← myproc;
        k ← killed p;
        if k : bool then
          release LCons;;
          mret false
        else
          sleep ChConsR LCons;;
          cons_wait fuel
      else mret true
  end.

(** The loop of [consoleread]; [None] is its early return of -1. *)
Fixpoint consoleread_loop (fuel : nat) (dst : place) (n target : Z) : K St (option Z) :=
  match fuel with
  | O => nofuel
  | S fuel =>
      if 0 <? n then
        go ← cons_wait (S wakes);
        if negb go then mret None
        else
          x ← the_cons id;
          let c := cons_at x (c_r x) in
          mod_cons (fun x => Console (c_buf x) (u32 (c_r x + 1)) (c_w x) (c_e x));;
          if c =? C_D then
            (if n <? target then mod_cons (fun x => Console (c_buf x) (u32 (c_r x - 1)) (c_w x) (c_e x)) else mret tt);;
            mret (Some n)
          else
            r ← either_copyout dst [c];
            if r =? -1 then mret (Some n)
            else if c =? newline then mret (Some (n - 1))
            else consoleread_loop fuel (place_add dst 1) (n - 1) target
      else mret (Some n)
  end.
Definition consoleread (dst : place) (n : Z) : K St Z :=
  acquire LCons;;
  r ← consoleread_loop (S (Z.to_nat n)) dst n n;
  match r with
  | None => mret (-1)
  | Some n' =>
      release LCons;;
      mret (n - n')
  end.

(** [case C('U')]: erase back to the start of the line. *)
Fixpoint kill_line (fuel : nat) : K St unit :=
  match fuel with
  | O => nofuel
  | S fuel =>
      x ← the_cons id;
      if negb (c_e x =? c_w x) && negb (cons_at x (u32 (c_e x - 1)) =? newline) then
        mod_cons (fun x => Console (c_buf x) (c_r x) (c_w x) (u32 (c_e x - 1)));;
        consputc BACKSPACE;;
        kill_line fuel
      else mret tt
  end.

(** At most [INPUT_BUF_SIZE] characters are being edited. *)
Definition consoleintr (c : Z) : K St unit :=
  acquire LCons;;
  (if c =? C_P then procdump
   else if c =? C_U then kill_line (S (Z.to_nat INPUT_BUF_SIZE))
   else if (c =? C_H) || (c =? DEL) then
     x ← the_cons id;
     if negb (c_e x =? c_w x) then
       mod_cons (fun x => Console (c_buf x) (c_r x) (c_w x) (u32 (c_e x - 1)));;
       consputc BACKSPACE
     else mret tt
   else
     x ← the_cons id;
     if negb (c =? 0) && (u32 (c_e x - c_r x) <? INPUT_BUF_SIZE) then
       let c := if c =? carriage_return then newline else c in
       consputc c;;
       mod_cons (fun x => Console (<[c_e x mod INPUT_BUF_SIZE := u8 c]> (c_buf x)) (c_r x) (c_w x) (u32 (c_e x + 1)));;
       x ← the_cons id;
       if (c =? newline) || (c =? C_D) || (u32 (c_e x - c_r x) =? INPUT_BUF_SIZE) then
         mod_cons (fun x => Console (c_buf x) (c_r x) (c_e x) (c_e x));;
         wakeup ChConsR
       else mret tt
     else mret tt);;
  release LCons.

(** [uartintr], with the registers of the device as arguments. *)
Definition uartintr (tx_idle : bool) (input : list Z) : K St unit :=
  acquire LTx;;
  (if tx_idle then
     set_busy false;;
     wakeup ChTx
   else mret tt);;
  release LTx;;
  for_each input consoleintr.
End console.
