(* ===== verification/Pipe.v ===== *)
(** * Pipes: kernel/pipe.c

    A pipe is a ring buffer of [PIPESIZE] bytes with counters of the bytes read
    and written, in a page of its own. [pipealloc] is in file File, with the
    table of open files. *)

From S2P Require Import Prelude Riscv Headers Mem Kalloc Vm Sleeplock Block Log State Sched Copy.

Definition set_nread (x : Z) (p : pipe) : pipe := Pipe (p_data p) x (p_nwrite p) (p_readopen p) (p_writeopen p).
Definition set_readopen (x : bool) (p : pipe) : pipe := Pipe (p_data p) (p_nread p) (p_nwrite p) x (p_writeopen p).
Definition set_writeopen (x : bool) (p : pipe) : pipe := Pipe (p_data p) (p_nread p) (p_nwrite p) (p_readopen p) x.

(** [pi->data[pi->nwrite++ % PIPESIZE] = ch] *)
Definition push (ch : Z) (p : pipe) : pipe :=
  Pipe (<[p_nwrite p mod PIPESIZE := ch]> (p_data p)) (p_nread p) (u32 (p_nwrite p + 1)) (p_readopen p) (p_writeopen p).

(** [pi->nwrite == pi->nread + PIPESIZE] *)
Definition full (p : pipe) : bool := p_nwrite p =? u32 (p_nread p + PIPESIZE).
Definition pipe_byte (p : pipe) (i : Z) : Z := default 0 (p_data p !! (i mod PIPESIZE)).

Section pipe.
Context `{LK : Linker} {KD : KData} {W : Wakes} {St : Type}.

Definition pipeclose (pi : Z) (writable : bool) : K St unit :=
  acquire (LPipe pi);;
  (if writable then
     mod_pipe pi (set_writeopen false);;
     wakeup (ChPipeR pi)
   else
     mod_pipe pi (set_readopen false);;
     wakeup (ChPipeW pi));;
  p ← the_pipe pi id;
  if negb (p_readopen p) && negb (p_writeopen p) then
    release (LPipe pi);;
    on_pm (kfree pi)
  else release (LPipe pi).

(** The loop of [pipewrite]; [None] is its early return of -1. Each turn writes
    a byte or waits for a reader. *)
Fixpoint pipewrite_loop (fuel : nat) (pi addr i n : Z) : K St (option Z) :=
  match fuel with
  | O => nofuel
  | S fuel =>
      if i <? n then
        pr ← myproc;
        p ← the_pipe pi id;
        dead ← (if negb (p_readopen p) then mret true else killed pr);
        if dead : bool then
          release (LPipe pi);;
          mret None
        else
          p ← the_pipe pi id;
          if full p then
            wakeup (ChPipeR pi);;
            sleep (ChPipeW pi) (LPipe pi);;
            pipewrite_loop fuel pi addr i n
          else
            pt ← the_proc pr p_pagetable;
            r ← copyin_bytes pt (u64 (addr + i)) [0];
            if r.1 =? -1 then mret (Some i)
            else
              mod_pipe pi (push (default 0 (head r.2)));;
              pipewrite_loop fuel pi addr (i + 1) n
      else mret (Some i)
  end.
Definition pipewrite (pi addr n : Z) : K St Z :=
  acquire (LPipe pi);;
  r ← pipewrite_loop (S (Z.to_nat n + wakes)) pi addr 0 n;
  match r with
  | None => mret (-1)
  | Some i =>
      wakeup (ChPipeR pi);;
      release (LPipe pi);;
      mret i
  end.

(** [while (pi->nread == pi->nwrite && pi->writeopen)]: whether to go on. *)
Fixpoint pipe_wait (fuel : nat) (pi : Z) : K St bool :=
  match fuel with
  | O => nofuel
  | S fuel =>
      p ← the_pipe pi id;
      if (p_nread p =? p_nwrite p) && p_writeopen p then
        pr ← myproc;
        k ← killed pr;
        if k : bool then
          release (LPipe pi);;
          mret false
        else
          sleep (ChPipeR pi) (LPipe pi);;
          pipe_wait fuel pi
      else mret true
  end.

(** [for (i = 0; i < n; i++)]; [k] counts the iterations left. *)
Fixpoint piperead_loop (k : nat) (pi addr i : Z) : K St Z :=
  match k with
  | O => mret i
  | S k =>
      p ← the_pipe pi id;
      if p_nread p =? p_nwrite p then mret i
      else
        let ch := pipe_byte p (p_nread p) in
        mod_pipe pi (fun p => set_nread (u32 (p_nread p + 1)) p);;
        pr ← myproc;
        pt ← the_proc pr p_pagetable;
        r ← copyout_bytes pt (u64 (addr + i)) [ch];
        if r =? -1 then mret i
        else piperead_loop k pi addr (i + 1)
  end.
Definition piperead (pi addr n : Z) : K St Z :=
  acquire (LPipe pi);;
  go ← pipe_wait (S wakes) pi;
  if negb go then mret (-1)
  else
    i ← piperead_loop (Z.to_nat n) pi addr 0;
    wakeup (ChPipeW pi);;
    release (LPipe pi);;
    mret i.
End pipe.
