(* ===== verification/PipeProps.v ===== *)
(** * Pipes are queues

    The ring buffer of a pipe represents a list of bytes; [pipewrite] appends
    user bytes to it and [piperead] takes them from its front, in order and
    across any number of sleeps. *)

From S2P Require Import Prelude Riscv Headers Mem Kalloc Vm VmTree VmInv VmOps VmCopy VmSafe VmProps Sleeplock Block Log State Sched SchedProps Copy UserMem Pipe.

(** ** The ring buffer *)

Definition qlen (q : list Z) : Z := Z.of_nat (length q).

(** Pipe [p] holds the bytes [q]. The counters are 32 bits wide and wrap; since
    [PIPESIZE] divides 2^32, the slots stay contiguous. *)
Record pipe_rep (p : pipe) (q : list Z) : Prop := {
  rep_nread : 0 <= p_nread p < 2 ^ 32;
  rep_nwrite : p_nwrite p = u32 (p_nread p + qlen q);
  rep_size : qlen q <= PIPESIZE;
  rep_bytes : Forall is_byte q;
  rep_data i x : q !! i = Some x -> p_data p !! ((p_nread p + Z.of_nat i) mod PIPESIZE) = Some x;
}.

Lemma u32_mod x : u32 x mod PIPESIZE = x mod PIPESIZE.
Proof. unfold u32, PIPESIZE. change (2 ^ 32) with (512 * 8388608). rewrite Z.rem_mul_r by lia. rewrite Z.mul_comm, Z.mod_add, Zmod_mod by lia. done. Qed.

Lemma qlen_cons x q : qlen (x :: q) = qlen q + 1.
Proof. unfold qlen. cbn [length]. lia. Qed.
Lemma qlen_snoc q x : qlen (q ++ [x]) = qlen q + 1.
Proof. unfold qlen. rewrite length_app. cbn [length]. lia. Qed.
Lemma qlen_nonneg q : 0 <= qlen q.
Proof. unfold qlen. lia. Qed.

Lemma full_rep p q : pipe_rep p q -> full p = bool_decide (qlen q = PIPESIZE).
Proof.
  intros [Hr Hw Hs _ _]. unfold full. rewrite Hw. pose proof (qlen_nonneg q). unfold u32, PIPESIZE in *.
  case_bool_decide as E; [rewrite E; apply Z.eqb_refl|]. apply Z.eqb_neq. intros Hm.
  apply E. Z.div_mod_to_equations. lia.
Qed.

Lemma empty_rep p q : pipe_rep p q -> (p_nread p =? p_nwrite p) = bool_decide (q = []).
Proof.
  intros [Hr Hw Hs _ _]. rewrite Hw. unfold u32, PIPESIZE in *. case_bool_decide as E.
  - subst q. apply Z.eqb_eq. unfold qlen. cbn [length]. rewrite Z.add_0_r, Z.mod_small by lia. done.
  - apply Z.eqb_neq. intros Hm. apply E. destruct q as [|x q]; [done|]. rewrite qlen_cons in *. pose proof (qlen_nonneg q).
    Z.div_mod_to_equations. lia.
Qed.

Lemma push_rep p q b : pipe_rep p q -> qlen q < PIPESIZE -> is_byte b -> pipe_rep (push b p) (q ++ [b]).
Proof.
  intros [Hr Hw Hs Hb Hd] Hl Hx. split; cbn [push p_data p_nread p_nwrite]; [done| | | |].
  - rewrite Hw, qlen_snoc. unfold u32. rewrite Zplus_mod_idemp_l. f_equal. lia.
  - rewrite qlen_snoc. lia.
  - apply Forall_app. split; [done|]. by apply Forall_singleton.
  - rewrite Hw, u32_mod. intros i x Hi. destruct (decide (i = length q)) as [->|Hne].
    + rewrite lookup_app_r, Nat.sub_diag in Hi by lia. injection Hi as <-. apply lookup_insert_eq.
    + assert (i < length q)%nat by (apply lookup_lt_Some in Hi; rewrite length_app in Hi; cbn in Hi; lia).
      rewrite lookup_app_l in Hi by done. rewrite lookup_insert_ne; [by apply Hd|].
      unfold qlen, PIPESIZE in *. intros Hm. Z.div_mod_to_equations. lia.
Qed.

Lemma pop_rep p x q : pipe_rep p (x :: q) ->
  pipe_byte p (p_nread p) = x /\ is_byte x /\ pipe_rep (set_nread (u32 (p_nread p + 1)) p) q.
Proof.
  intros [Hr Hw Hs Hb Hd]. apply Forall_cons in Hb as [Hx Hb]. rewrite qlen_cons in *. split_and!; [|done|].
  - unfold pipe_byte. specialize (Hd 0%nat x eq_refl). rewrite Z.add_0_r in Hd. by rewrite Hd.
  - split; cbn [set_nread p_data p_nread p_nwrite]; [apply u32_bound| |lia|done|].
    + rewrite Hw. unfold u32. rewrite Zplus_mod_idemp_l. f_equal. lia.
    + intros i y Hi. specialize (Hd (S i) y Hi). rewrite <- Hd. f_equal.
      rewrite <- (Zplus_mod_idemp_l (u32 _)), u32_mod, Zplus_mod_idemp_l. f_equal. lia.
Qed.

(** ** Reading and writing *)

Section rw.
Context `{LK : Linker} {LO : LinkerOk} {KD : KData} {W : Wakes} {St : Type}.
Context (ts : list ptree) (ex : Z -> Z).
(** The pipe, the slot of the process, its page table and size. *)
Context (pi p pt psz : Z).
Implicit Types k : kernel St.

Definition env (V : Z -> option Z) (k : kernel St) : Prop :=
  p_pagetable (proc_at k p) = pt /\ p_sz (proc_at k p) = psz /\ umem ts ex pt psz V (pm k).

(** No process but [p] sleeps on the channel. *)
Definition all_awake (ch : chan) (k : kernel St) : Prop :=
  forall q, 0 <= q < NPROC -> q <> p -> ~ (p_state (proc_at k q) = SLEEPING /\ p_chan (proc_at k q) = Some ch).

Lemma env_upd_proc V f k : (forall x, p_pagetable (f x) = p_pagetable x /\ p_sz (f x) = p_sz x) ->
  env V k -> env V (upd_proc p f k).
Proof. intros Hf (H1 & H2 & H3). unfold env. rewrite proc_upd_eq. destruct (Hf (proc_at k p)) as [-> ->]. done. Qed.

Lemma env_wake V m ch k : env V k -> env V (wake m ch k).
Proof.
  intros (H1 & H2 & H3). unfold env.
  assert (pm (wake m ch k) = pm k) as -> by (unfold wake; by rewrite (wake_list_same slots m ch k)).
  rewrite wake_proc. unfold woken. case_decide; [|done]. by destruct (_ && _).
Qed.
Lemma pipe_wake m ch k i : pipe_at (wake m ch k) i = pipe_at k i.
Proof. unfold wake. by rewrite (wake_list_same slots m ch k). Qed.
Lemma wake_awake ch k : all_awake ch (wake p ch k).
Proof.
  intros q Hq Hne. rewrite wake_proc, decide_True by done. unfold woken.
  destruct (bool_decide (p_state (proc_at k q) = SLEEPING)) eqn:E1, (bool_decide (p_chan (proc_at k q) = Some ch)) eqn:E2; cbn [andb];
    try apply bool_decide_eq_true in E1; try apply bool_decide_eq_true in E2;
    try apply bool_decide_eq_false in E1; try apply bool_decide_eq_false in E2; naive_solver.
Qed.

Lemma killed_at c k : held c = {[LPipe pi]} -> me c = p -> killed p c k = Ok (p_killed (proc_at k p)) c k.
Proof. intros Hc _. apply killed_run. rewrite Hc. by rewrite elem_of_singleton. Qed.
Lemma wakeup_at ch c k : held c = {[LPipe pi]} -> me c = p -> wakeup ch c k = Ok tt c (wake p ch k).
Proof. intros Hc <-. apply wakeup_run. intros q _. rewrite Hc. by rewrite elem_of_singleton. Qed.

Lemma release_single {S} l c (s : S) : held c = {[l]} -> release l c s = Ok tt (with_held ∅ c) s.
Proof.
  intros Hc. unfold release. rewrite decide_True by (rewrite Hc; by apply elem_of_singleton).
  unfold unhold, with_held. rewrite Hc. do 2 f_equal. set_solver.
Qed.

(** *** Writing *)

Section write.
Context (V : Z -> option Z) (addr n : Z).

(** The bytes that the process sees from [addr + i] on; memory not yet
    allocated reads as zeroes. *)
Definition user_bytes (i : Z) (bs : list Z) : Prop :=
  forall j b, bs !! j = Some b -> lazy_eq (V (u64 (addr + (i + Z.of_nat j)))) (Some b).

(** [copyin] has failed at byte [i]. *)
Definition in_fault (i : Z) : Prop :=
  exists c k k' x, env V k /\ copyin_bytes pt (u64 (addr + i)) [0] c k = Ok (-1, x) c k'.
(** No one will read: the read end is closed, or the writer has been killed. *)
Definition dead (k : kernel St) : Prop := p_readopen (pipe_at k pi) = false \/ p_killed (proc_at k p) = true.

(** How a write goes on from byte [i], with the pipe holding [q]: it appends
    some of the user's bytes and then ends with [post], or sleeps because the
    pipe is full, having woken the readers; when it is resumed, with whatever
    the pipe holds then, it goes on from where it was. [w] bounds the sleeps
    that are followed. *)
Fixpoint writes {A} (post : Z -> list Z -> A -> ctx -> kernel St -> Prop) (w : nat) (i : Z) (q : list Z)
    (o : outcome (kernel St) A) : Prop :=
  exists bs, user_bytes i bs /\
    let j := i + qlen bs in
    match o with
    | Ok a c k => post j (q ++ bs) a c k
    | Blocked WSched c k r =>
        pipe_rep (pipe_at k pi) (q ++ bs) /\ qlen (q ++ bs) = PIPESIZE /\ j < n /\
        held c = {[LProc p]} /\ me c = p /\ p_state (proc_at k p) = SLEEPING /\ p_chan (proc_at k p) = Some (ChPipeW pi) /\
        all_awake (ChPipeR pi) k /\
        match w with
        | O => True
        | S w => forall c' k' q', held c' = {[LProc p]} -> me c' = p -> env V k' -> pipe_rep (pipe_at k' pi) q' ->
                 writes post w j q' (r c' k')
        end
    | _ => False
    end.

Lemma writes_more {A} (post : Z -> list Z -> A -> ctx -> kernel St -> Prop) w i q b o :
  lazy_eq (V (u64 (addr + i))) (Some b) -> writes post w (i + 1) (q ++ [b]) o -> writes post w i q o.
Proof.
  intros Hb. destruct w; intros (bs & Hbs & Ho); exists (b :: bs);
    (replace (i + 1 + qlen bs) with (i + qlen (b :: bs)) in Ho by (rewrite qlen_cons; lia));
    rewrite <- app_assoc in Ho; cbn [app] in Ho; (split; [|exact Ho]);
    intros [|j] y Hy; cbn in Hy; simplify_eq; rewrite ?Z.add_0_r; [done| |done|];
    (replace (i + Z.of_nat (S j)) with (i + 1 + Z.of_nat j) by lia); by apply Hbs.
Qed.

Lemma writes_bind {A B} (f : A -> M (kernel St) B) post post' : forall w i q o,
  writes post w i q o ->
  (forall j q' a c k, post j q' a c k -> exists b c' k', f a c k = Ok b c' k' /\ post' j q' b c' k') ->
  writes post' w i q (obind f o).
Proof.
  induction w as [|w IH]; intros i q o (bs & Hbs & Ho) Hf; exists bs; (split; [done|]); destruct o as [a c k| |[] c k r|]; cbn [obind];
    try done; try (destruct (Hf _ _ _ _ _ Ho) as (b & c' & k' & -> & ?); done).
  destruct Ho as (H1 & H2 & H3 & H4 & H5 & H6 & H7 & H8 & H9). split_and!; try done.
  intros c' k' q' Hc' Hm' He Hp. apply IH; [|done]. by apply H9.
Qed.

Definition loop_post (j : Z) (q : list Z) (a : option Z) (c : ctx) (k : kernel St) : Prop :=
  env V k /\ pipe_rep (pipe_at k pi) q /\ me c = p /\
  match a with
  | Some j' => j' = j /\ held c = {[LPipe pi]} /\ (n <= j \/ in_fault j)
  | None => held c = ∅ /\ dead k
  end.

Lemma writes_stop {A} (post : Z -> list Z -> A -> ctx -> kernel St -> Prop) w i q a c k :
  post i q a c k -> writes post w i q (Ok a c k).
Proof.
  intros H. destruct w; exists []; (split; [by intros j b Hj|]); unfold qlen; cbn [length]; by rewrite Z.add_0_r, app_nil_r.
Qed.

Lemma pipe_asleep m ch k i : pipe_at (asleep m ch k) i = pipe_at k i.
Proof. done. Qed.

Lemma asleep_awake ch ch' k : all_awake ch k -> all_awake ch (asleep p ch' k).
Proof. intros H x Hx Hne. rewrite asleep_proc, decide_False by done. by apply H. Qed.

Lemma writes_sleep {A} (post : Z -> list Z -> A -> ctx -> kernel St -> Prop) w i q c k r :
  pipe_rep (pipe_at k pi) q -> qlen q = PIPESIZE -> i < n -> me c = p ->
  (forall w', w = S w' -> forall c' k' q', held c' = {[LProc p]} -> me c' = p -> env V k' -> pipe_rep (pipe_at k' pi) q' ->
     writes post w' i q' (r c' k')) ->
  writes post w i q (Blocked WSched (with_held {[LProc p]} c) (asleep p (ChPipeW pi) (wake p (ChPipeR pi) k)) r).
Proof.
  intros Hq Hl Hi Hm Hr.
  assert (Hp : proc_at (asleep p (ChPipeW pi) (wake p (ChPipeR pi) k)) p =
               set_state SLEEPING (set_chan (Some (ChPipeW pi)) (proc_at (wake p (ChPipeR pi) k) p)))
    by by rewrite asleep_proc, decide_True.
  pose proof (asleep_awake _ (ChPipeW pi) _ (wake_awake (ChPipeR pi) k)) as Ha.
  destruct w as [|w]; exists []; (split; [by intros j b Hj|]); cbv zeta;
    rewrite app_nil_r, pipe_asleep, pipe_wake, Hp; change (qlen []) with 0; rewrite Z.add_0_r;
    split_and!; try done. intros. by apply Hr.
Qed.

(** One turn of the loop, when there is something to write: the test whether
    anyone will read. *)
Lemma dead_run c k : held c = {[LPipe pi]} -> me c = p ->
  (if negb (p_readopen (pipe_at k pi)) then mret true else killed p) c k =
    Ok (negb (p_readopen (pipe_at k pi)) || p_killed (proc_at k p)) c k.
Proof. intros Hc Hm. destruct (p_readopen (pipe_at k pi)); [|done]. by apply killed_at. Qed.

Lemma upd_pipe_at f k i : pipe_at (upd_pipe i f k) i = f (pipe_at k i).
Proof. unfold pipe_at, upd_pipe. cbn [pipes set_pipes]. by rewrite lookup_insert_eq. Qed.

Lemma pipewrite_loop_run : forall fuel w i q c k, (Z.to_nat (n - i) + w < fuel)%nat ->
  held c = {[LPipe pi]} -> me c = p -> env V k -> pipe_rep (pipe_at k pi) q ->
  writes loop_post w i q (pipewrite_loop fuel pi addr i n c k).
Proof.
  induction fuel as [|fuel IH]; intros w i q c k Hf Hc Hm He Hq; [lia|]. cbn [pipewrite_loop].
  destruct (Z.ltb_spec i n) as [Hi|Hi].
  2: { apply writes_stop. split_and!; auto. }
  erewrite bind_ok; [|reflexivity]. rewrite Hm. erewrite bind_ok; [|reflexivity]. unfold id at 1.
  mstep (dead_run c k Hc Hm). destruct (negb _ || _) eqn:Ed.
  { assert (Hd : dead k).
    { apply orb_true_iff in Ed as [Ed|Ed]; [left; by apply negb_true_iff in Ed|by right]. }
    rewrite (bind_ok _ _ c k tt (with_held ∅ c) k) by by apply release_single. apply writes_stop. by split_and!. }
  erewrite bind_ok; [|reflexivity]. unfold id at 1. rewrite (full_rep _ _ Hq). case_bool_decide as Efull.
  - mstep (wakeup_at (ChPipeR pi) c k Hc Hm).
    destruct (sleep_run (ChPipeW pi) (LPipe pi) c (wake p (ChPipeR pi) k) Hc ltac:(done)) as (r & Hr & Hk). rewrite Hm in Hr, Hk.
    rewrite (bind_blocked _ _ _ _ _ _ _ _ Hr).
    apply writes_sleep; try done. intros w' -> c' k' q' Hc' Hm' He' Hq'. mstep (Hk c' k' Hc').
    apply IH; try done; [lia|]. by apply env_upd_proc.
  - erewrite bind_ok; [|reflexivity]. destruct He as (He1 & He2 & He3). rewrite He1.
    pose proof (rep_size _ _ Hq) as Hs.
    destruct (copyin_bytes_run ts ex pt V (u64 (addr + i)) [0] c k) as (r & bs & s' & Hrun & Hu & Hlen & Hby & Hr & Hv);
      [rewrite Hm; by rewrite He2|rewrite Hc; by rewrite elem_of_singleton|apply u64_bound|done|].
    mstep Hrun. cbn [fst snd]. destruct bs as [|b [|]]; try done.
    assert (He' : env V (set_pm s' k)) by (split_and!; [done..|]; by rewrite Hm, He2 in Hu).
    destruct Hr as [-> | ->]; cbn [Z.eqb].
    + erewrite bind_ok; [|reflexivity]. cbn [head default from_option]. unfold id.
      destruct (Hv eq_refl 0%nat b eq_refl) as [_ Hb]. rewrite Z.add_0_r in Hb.
      apply (writes_more _ _ _ _ b); [done|]. apply IH; try done; [lia|].
      rewrite upd_pipe_at. apply push_rep; [done|lia|]. by apply Forall_cons in Hby as [Hby _].
    + apply writes_stop. split_and!; try done. right. exists c, k, (set_pm s' k), [b]. by split_and!.
Qed.

(** How [pipewrite] ends. *)
Definition written (j : Z) (q : list Z) (ret : Z) (c : ctx) (k : kernel St) : Prop :=
  env V k /\ pipe_rep (pipe_at k pi) q /\ held c = ∅ /\
  ((ret = j /\ (n <= j \/ in_fault j) /\ all_awake (ChPipeR pi) k) \/ (ret = -1 /\ dead k)).

Lemma pipewrite_run q c k : held c = ∅ -> me c = p -> env V k -> pipe_rep (pipe_at k pi) q ->
  writes written wakes 0 q (pipewrite pi addr n c k).
Proof.
  intros Hc Hm He Hq. unfold pipewrite. mstep (acquire_ok (LPipe pi) c k ltac:(set_solver)).
  assert (Hh : held (hold (LPipe pi) c) = {[LPipe pi]}) by (cbn; set_solver).
  eapply writes_bind; [apply pipewrite_loop_run; try done; lia|].
  intros j q' [j'|] c' k' (He' & Hq' & Hm' & Ha).
  - destruct Ha as (-> & Hc' & Hj). mstep (wakeup_at (ChPipeR pi) c' k' Hc' Hm').
    rewrite (bind_ok _ _ c' _ tt (with_held ∅ c') (wake p (ChPipeR pi) k')) by by apply release_single.
    eexists _, _, _. split; [reflexivity|]. split_and!; [by apply env_wake|by rewrite pipe_wake|done|].
    left. split_and!; [done|done|apply wake_awake].
  - destruct Ha as [Hc' Hd]. eexists _, _, _. split; [reflexivity|]. split_and!; auto.
Qed.
End write.

(** *** Reading *)

Section read.
Context (V : Z -> option Z) (addr n : Z).

(** The user's memory after the bytes [bs] have been stored from [addr + i]. *)
Fixpoint store (V : Z -> option Z) (i : Z) (bs : list Z) : Z -> option Z :=
  match bs with
  | [] => V
  | b :: bs => store (put_bytes V (u64 (addr + i)) [b]) (i + 1) bs
  end.

(** [copyout] has failed at byte [i]. *)
Definition out_fault (i : Z) : Prop :=
  exists c k k' V' b, env V' k /\ copyout_bytes pt (u64 (addr + i)) [b] c k = Ok (-1) c k'.

(** How a read goes on, with the pipe holding [q]: it ends with [post], or
    sleeps because the pipe is empty and its write end open; when it is
    resumed, with whatever the pipe holds then, it goes on. [w] bounds the
    sleeps that are followed. *)
Fixpoint reads {A} (post : list Z -> A -> ctx -> kernel St -> Prop) (w : nat) (q : list Z)
    (o : outcome (kernel St) A) : Prop :=
  match o with
  | Ok a c k => post q a c k
  | Blocked WSched c k r =>
      q = [] /\ pipe_rep (pipe_at k pi) [] /\ p_writeopen (pipe_at k pi) = true /\
      held c = {[LProc p]} /\ me c = p /\ p_state (proc_at k p) = SLEEPING /\ p_chan (proc_at k p) = Some (ChPipeR pi) /\
      match w with
      | O => True
      | S w => forall c' k' q', held c' = {[LProc p]} -> me c' = p -> env V k' -> pipe_rep (pipe_at k' pi) q' ->
               reads post w q' (r c' k')
      end
  | _ => False
  end.

Lemma reads_bind {A B} (f : A -> M (kernel St) B) post post' : forall w q o,
  reads post w q o ->
  (forall q' a c k, post q' a c k -> exists b c' k', f a c k = Ok b c' k' /\ post' q' b c' k') ->
  reads post' w q (obind f o).
Proof.
  induction w as [|w IH]; intros q o Ho Hf; destruct o as [a c k| |[] c k r|]; cbn [obind reads] in *; try done;
    try (destruct (Hf _ _ _ _ Ho) as (b & c' & k' & -> & ?); done).
  destruct Ho as (H1 & H2 & H3 & H4 & H5 & H6 & H7 & H8). split_and!; try done.
  intros c' k' q' Hc' Hm' He Hp. apply IH; [|done]. by apply H8.
Qed.

Definition wait_post (q : list Z) (go : bool) (c : ctx) (k : kernel St) : Prop :=
  env V k /\ pipe_rep (pipe_at k pi) q /\ me c = p /\
  if go then held c = {[LPipe pi]} /\ (q = [] -> p_writeopen (pipe_at k pi) = false)
  else held c = ∅ /\ q = [] /\ p_killed (proc_at k p) = true.

Lemma pipe_wait_run : forall fuel w q c k, (w < fuel)%nat ->
  held c = {[LPipe pi]} -> me c = p -> env V k -> pipe_rep (pipe_at k pi) q ->
  reads wait_post w q (pipe_wait fuel pi c k).
Proof.
  induction fuel as [|fuel IH]; intros w q c k Hf Hc Hm He Hq; [lia|]. cbn [pipe_wait].
  erewrite bind_ok; [|reflexivity]. unfold id. rewrite (empty_rep _ _ Hq).
  destruct (p_writeopen (pipe_at k pi)) eqn:Ew.
  2: { rewrite andb_false_r. destruct w; split_and!; auto. }
  case_bool_decide as E; cbn [andb].
  2: { destruct w; split_and!; auto; done. }
  erewrite bind_ok; [|reflexivity]. rewrite Hm. mstep (killed_at c k Hc Hm). subst q.
  destruct (p_killed (proc_at k p)) eqn:Ek.
  { rewrite (bind_ok _ _ c k tt (with_held ∅ c) k) by by apply release_single. destruct w; by split_and!. }
  destruct (sleep_run (ChPipeR pi) (LPipe pi) c k Hc ltac:(done)) as (r & Hr & Hk). rewrite Hm in Hr, Hk.
  rewrite (bind_blocked _ _ _ _ _ _ _ _ Hr).
  assert (Hp : proc_at (asleep p (ChPipeR pi) k) p = set_state SLEEPING (set_chan (Some (ChPipeR pi)) (proc_at k p)))
    by by rewrite asleep_proc, decide_True.
  destruct w as [|w]; cbn [reads]; rewrite pipe_asleep, Hp; split_and!; try done.
  intros c' k' q' Hc' Hm' He' Hq'. mstep (Hk c' k' Hc'). apply IH; try done; [lia|]. by apply env_upd_proc.
Qed.
End read.

Lemma env_ext V V' k : (forall x, V x = V' x) -> env V k -> env V' k.
Proof. intros H (H1 & H2 & H3). split_and!; [done..|]. by eapply umem_ext. Qed.

Lemma piperead_loop_run addr : forall m V i q c k, held c = {[LPipe pi]} -> me c = p -> env V k -> pipe_rep (pipe_at k pi) q ->
  exists j k', piperead_loop m pi addr i c k = Ok (i + Z.of_nat j) c k' /\ env (store addr V i (take j q)) k' /\
    p_writeopen (pipe_at k' pi) = p_writeopen (pipe_at k pi) /\
    ((j = min m (length q) /\ pipe_rep (pipe_at k' pi) (drop j q)) \/
     ((j < min m (length q))%nat /\ out_fault addr (i + Z.of_nat j) /\ pipe_rep (pipe_at k' pi) (drop (S j) q))).
Proof.
  induction m as [|m IH]; intros V i q c k Hc Hm He Hq; cbn [piperead_loop].
  { exists 0%nat, k. rewrite Z.add_0_r. split_and!; try done. left. done. }
  erewrite bind_ok; [|reflexivity]. unfold id. rewrite (empty_rep _ _ Hq). case_bool_decide as E.
  { subst q. exists 0%nat, k. rewrite Z.add_0_r. split_and!; try done. left. done. }
  destruct q as [|x q]; [done|]. destruct (pop_rep _ _ _ Hq) as (Hx & Hbx & Hq'). rewrite Hx.
  erewrite bind_ok; [|reflexivity]. set (k1 := upd_pipe pi _ k). erewrite bind_ok; [|reflexivity]. rewrite Hm.
  erewrite bind_ok; [|reflexivity]. destruct He as (He1 & He2 & He3).
  change (p_pagetable (proc_at k1 p)) with (p_pagetable (proc_at k p)). rewrite He1.
  destruct (copyout_bytes_run ts ex pt V (u64 (addr + i)) [x] c k1) as (r & d & s' & Hrun & Hu & Hd & Hr);
    [rewrite Hm; change (proc_at k1 p) with (proc_at k p); by rewrite He2|rewrite Hc; by rewrite elem_of_singleton|
     apply u64_bound|done|by apply Forall_singleton|].
  mstep Hrun. rewrite Hm in Hu. change (p_sz (proc_at k1 p)) with (p_sz (proc_at k p)) in Hu. rewrite He2 in Hu.
  assert (Hpk : pipe_at (set_pm s' k1) pi = set_nread (u32 (p_nread (pipe_at k pi) + 1)) (pipe_at k pi)) by exact (upd_pipe_at (fun p => set_nread (u32 (p_nread p + 1)) p) k pi).
  destruct Hr as [[-> ->]|[-> Hd']]; cbn [Z.eqb].
  - cbn [length take] in Hu. destruct (IH (put_bytes V (u64 (addr + i)) [x]) (i + 1) q c (set_pm s' k1)) as (j & k' & Hj & Hej & Hwj & Hres);
      [done|done|done|by rewrite Hpk|]. rewrite Hpk in Hwj.
    exists (S j), k'. replace (i + Z.of_nat (S j)) with (i + 1 + Z.of_nat j) by lia. cbn [take store length drop Nat.min].
    split_and!; [done..|]. destruct Hres as [[-> Hres]|(H1 & H2 & H3)]; [left|right]; split_and!; try done. lia.
  - assert (d = 0%nat) as -> by (cbn in Hd'; lia). cbn [take] in Hu. exists 0%nat, (set_pm s' k1). rewrite Z.add_0_r.
    split_and!; [done| |by rewrite Hpk|].
    + split_and!; [done..|]. eapply umem_ext; [|exact Hu]. intros y. apply put_bytes_nil.
    + right. split_and!; [cbn; lia| |by rewrite Hpk]. exists c, k1, (set_pm s' k1), V, x. by split_and!.
Qed.

(** How [piperead] ends: with -1 for a killed process that found nothing; or
    with the number [j] of bytes that it has moved from the front of the pipe to
    the user's memory, as many as there were, up to [n]. It gives up early if
    [copyout] fails, and then the byte at which it failed is gone from the pipe
    too. When it found the pipe empty, the write end is closed. *)
Definition read_done (V : Z -> option Z) (addr n : Z) (q : list Z) (ret : Z) (c : ctx) (k : kernel St) : Prop :=
  held c = ∅ /\
  ((ret = -1 /\ q = [] /\ p_killed (proc_at k p) = true /\ env V k /\ pipe_rep (pipe_at k pi) q) \/
   exists j, ret = Z.of_nat j /\ env (store addr V 0 (take j q)) k /\ all_awake (ChPipeW pi) k /\
     (q = [] -> p_writeopen (pipe_at k pi) = false) /\
     ((j = min (Z.to_nat n) (length q) /\ pipe_rep (pipe_at k pi) (drop j q)) \/
      ((j < min (Z.to_nat n) (length q))%nat /\ out_fault addr ret /\ pipe_rep (pipe_at k pi) (drop (S j) q)))).

Lemma piperead_run V addr n q c k : held c = ∅ -> me c = p -> env V k -> pipe_rep (pipe_at k pi) q ->
  reads V (read_done V addr n) wakes q (piperead pi addr n c k).
Proof.
  intros Hc Hm He Hq. unfold piperead. mstep (acquire_ok (LPipe pi) c k ltac:(set_solver)).
  assert (Hh : held (hold (LPipe pi) c) = {[LPipe pi]}) by (cbn; set_solver).
  eapply reads_bind; [apply pipe_wait_run; try done; lia|].
  intros q' [] c' k' (He' & Hq' & Hm' & Ha); cbn [negb].
  - destruct Ha as [Hc' Hw]. destruct (piperead_loop_run addr (Z.to_nat n) V 0 q' c' k' Hc' Hm' He' Hq') as (j & k2 & Hrun & Hej & Hwo & Hres).
    mstep Hrun. mstep (wakeup_at (ChPipeW pi) c' k2 Hc' Hm').
    rewrite (bind_ok _ _ c' _ tt (with_held ∅ c') (wake p (ChPipeW pi) k2)) by by apply release_single.
    eexists _, _, _. split; [reflexivity|]. split; [done|]. right. exists j. rewrite pipe_wake, Hwo.
    split_and!; [done|by apply env_wake|apply wake_awake|done|done].
  - destruct Ha as (Hc' & Hq0 & Hkl). eexists _, _, _. split; [reflexivity|]. split; [done|]. left. by split_and!.
Qed.
End rw.

(** C30: [pipewrite] appends to the queue of the pipe the bytes that the process
    sees at [addr], in order, and nothing else. It sleeps only when the pipe is
    full, after waking the readers, and whatever the pipe holds when it is
    resumed, it goes on with the byte at which it stopped. It ends with the
    count of bytes written, which is [n] unless a byte could not be copied in,
    having woken the readers; or with -1, if no one will read or it was killed. In
    either case it holds no lock. *)
Theorem pipewrite_fifo `{LK : Linker} `{!LinkerOk} `{KD : KData} `{W : Wakes} {St} ts ex pi p pt psz V addr n q c (k : kernel St) :
  held c = ∅ -> me c = p -> env ts ex p pt psz V k -> pipe_rep (pipe_at k pi) q ->
  writes ts ex pi p pt psz V addr n (written ts ex pi p pt psz V addr n) wakes 0 q (pipewrite pi addr n c k).
Proof. apply pipewrite_run. Qed.

(** C31: [piperead] takes bytes from the front of the queue, in order, and stores
    them in the user's memory from [addr] on. It sleeps only when the pipe is
    empty and open for writing. It ends with the number of bytes it stored: as
    many as there were, up to [n], or fewer if one could not be copied out, and
    that one byte is lost; 0 for an empty pipe only if the write end is closed; or
    it ends with -1, if it was killed while the pipe was empty. *)
Theorem piperead_fifo `{LK : Linker} `{!LinkerOk} `{KD : KData} `{W : Wakes} {St} ts ex pi p pt psz V addr n q c (k : kernel St) :
  held c = ∅ -> me c = p -> env ts ex p pt psz V k -> pipe_rep (pipe_at k pi) q ->
  reads ts ex pi p pt psz V (read_done ts ex pi p pt psz V addr n) wakes q (piperead pi addr n c k).
Proof. apply piperead_run. Qed.

(** ** A pipe with two bytes, about to wrap around *)
Module Demo.
Import VmProps.Demo.
#[local] Existing Instance linker.
#[local] Existing Instance demo_linker_ok.
Definition data : KData := {| kdata := KERNBASE; st_pad := [] |}.
Definition wakes1 : Wakes := {| wakes := 1 |}.
#[local] Existing Instance data.
#[local] Existing Instance wakes1.

Definition ring : pipe := Pipe {[511 := 104; 0 := 105]} (2 ^ 32 - 1) 1 true true.
Definition kern (s : pmem) (pt : Z) : kernel unit :=
  Kernel s (FsState (Log.Log 0 0 false 0 0 ∅) tt) (SuperBlock 0 0 0 0 0 0 0 0) ∅ ∅ {[7 := ring]}
    {[0 := Proc RUNNING None false 0 1 None 0 4096 pt 0 (0, 0) ∅ NULL []]} 2 None 0 (Console ∅ 0 0 0) (Uart false []) false.

Lemma ring_rep : pipe_rep ring [104; 105].
Proof.
  split; cbn [ring p_nread p_nwrite p_data]; [lia|done|done|repeat constructor; lia|].
  intros [|[|i]] x Hx; by simplify_eq/=.
Qed.

Lemma demo_env : exists s t u V, env [u] none 0 (root t) 4096 V (kern s (root t)).
Proof.
  destruct two_spaces as (s & free & t & u & Hv & Et & _). exists s, t, u, (ubyte (mem s) t). split_and!; [done|done|].
  exists free, t. split_and!; [done|exact Hv|exact zero_nonneg|by apply empty_kernel_leaves|done| |].
  - intros x Hx. eapply kernel_kheld; [exact Hv|]. change kend with (PHYSTOP - 12 * PGSIZE). change kdata with KERNBASE in Hx. klia.
  - intros va _. by left.
Qed.

Lemma pipewrite_fifo_witness : exists s t u V, env [u] none 0 (root t) 4096 V (kern s (root t)) /\
  writes [u] none 7 0 (root t) 4096 V 4000 3 (written [u] none 7 0 (root t) 4096 V 4000 3) 1 0 [104; 105]
    (pipewrite 7 4000 3 c0 (kern s (root t))).
Proof.
  destruct demo_env as (s & t & u & V & He). exists s, t, u, V. split; [exact He|].
  exact (pipewrite_fifo [u] none 7 0 (root t) 4096 V 4000 3 [104; 105] c0 (kern s (root t)) eq_refl eq_refl He ring_rep).
Defined.

Lemma piperead_fifo_witness : exists s t u V, env [u] none 0 (root t) 4096 V (kern s (root t)) /\
  reads [u] none 7 0 (root t) 4096 V (read_done [u] none 7 0 (root t) 4096 V 4000 3) 1 [104; 105]
    (piperead 7 4000 3 c0 (kern s (root t))).
Proof.
  destruct demo_env as (s & t & u & V & He). exists s, t, u, V. split; [exact He|].
  exact (piperead_fifo [u] none 7 0 (root t) 4096 V 4000 3 [104; 105] c0 (kern s (root t)) eq_refl eq_refl He ring_rep).
Defined.
End Demo.
