(* ===== verification/FileTable.v ===== *)
(** * Open files: kernel/file.c, and [pipealloc] of kernel/pipe.c

    The table of open files with its reference counts, and reading and writing
    through a file of each type. The device switch has one entry with
    functions, the console's. *)

From S2P Require Import Prelude Riscv Headers Mem Kalloc Vm Sleeplock Block Log State Sched Copy Fs Console Pipe.

Section file.
Context `{LK : Linker} {KD : KData} {W : Wakes} {St : Type} {BO : BlockOps St}.

(** The scan of [filealloc]: the first entry with no reference. *)
Fixpoint filealloc_scan (l : list Z) (k : kernel St) : Z :=
  match l with
  | [] => NULL
  | f :: l => if f_ref (file_at k f) =? 0 then f else filealloc_scan l k
  end.
Definition filealloc : K St Z :=
  acquire LFtable;;
  f ← gets (filealloc_scan (seqZ 0 NFILE));
  (if f =? NULL then mret tt else mod_file f (set_fref 1));;
  release LFtable;;
  mret f.

Definition filedup (f : Z) : K St Z :=
  acquire LFtable;;
  r ← the_file f f_ref;
  if r <? 1 then panic "filedup"
  else
    mod_file f (set_fref (i32 (r + 1)));;
    release LFtable;;
    mret f.

Definition fileclose (f : Z) : K St unit :=
  acquire LFtable;;
  r ← the_file f f_ref;
  if r <? 1 then panic "fileclose"
  else
    mod_file f (set_fref (r - 1));;
    if 0 <? r - 1 then release LFtable
    else
      ff ← the_file f id;
      mod_file f (set_fref 0);;
      mod_file f (set_ftype FD_NONE);;
      release LFtable;;
      match f_type ff with
      | FD_PIPE => pipeclose (f_pipe ff) (f_writable ff)
      | FD_INODE | FD_DEVICE =>
          kbegin_op;;
          iput (f_ip ff);;
          kend_op
      | FD_NONE => mret tt
      end.

Definition filestat (f addr : Z) : K St Z :=
  p ← myproc;
  ff ← the_file f id;
  match f_type ff with
  | FD_INODE | FD_DEVICE =>
      ilock (f_ip ff);;
      i ← the_inode (f_ip ff) id;
      let st := stati i in
      iunlock (f_ip ff);;
      pt ← the_proc p p_pagetable;
      r ← copyout_bytes pt addr st;
      if r <? 0 then mret (-1) else mret 0
  | _ => mret (-1)
  end.

(** [f->major < 0 || f->major >= NDEV || !devsw[f->major].read] *)
Definition no_device (major : Z) : bool := (major <? 0) || (NDEV <=? major) || negb (major =? CONSOLE).

Definition fileread (f addr n : Z) : K St Z :=
  ff ← the_file f id;
  if negb (f_readable ff) then mret (-1)
  else
    match f_type ff with
    | FD_PIPE => piperead (f_pipe ff) addr n
    | FD_DEVICE => if no_device (f_major ff) then mret (-1) else consoleread (PUser addr) n
    | FD_INODE =>
        ilock (f_ip ff);;
        off ← the_file f f_off;
        r ← readi (f_ip ff) (PUser addr) off (u32 n);
        (if 0 <? r.1 then mod_file f (fun ff => set_foff (u32 (f_off ff + r.1)) ff) else mret tt);;
        iunlock (f_ip ff);;
        mret r.1
    | FD_NONE => panic "fileread"
    end.

(** The loop of [filewrite] over a few blocks at a time. *)
Fixpoint filewrite_loop (fuel : nat) (f addr i n : Z) : K St Z :=
  match fuel with
  | O => nofuel
  | S fuel =>
      if i <? n then
        let max := (MAXOPBLOCKS - 1 - 1 - 2) / 2 * BSIZE in
        let n1 := Z.min (n - i) max in
        ff ← the_file f id;
        kbegin_op;;
        ilock (f_ip ff);;
        off ← the_file f f_off;
        r ← writei (f_ip ff) (SUser (u64 (addr + i))) off n1;
        (if 0 <? r then mod_file f (fun ff => set_foff (u32 (f_off ff + r)) ff) else mret tt);;
        iunlock (f_ip ff);;
        kend_op;;
        if negb (r =? n1) then mret i
        else filewrite_loop fuel f addr (i + r) n
      else mret i
  end.

Definition filewrite (f addr n : Z) : K St Z :=
  ff ← the_file f id;
  if negb (f_writable ff) then mret (-1)
  else
    match f_type ff with
    | FD_PIPE => pipewrite (f_pipe ff) addr n
    | FD_DEVICE => if no_device (f_major ff) then mret (-1) else consolewrite (SUser addr) n
    | FD_INODE =>
        i ← filewrite_loop (Z.to_nat (n / BSIZE + 2)) f addr 0 n;
        mret (if i =? n then n else -1)
    | FD_NONE => panic "filewrite"
    end.

(** ** pipealloc *)

(** [bad:] of [pipealloc]. *)
Definition pipealloc_bad (pi f0 f1 : Z) : K St (Z * Z * Z) :=
  (if pi =? 0 then mret tt else on_pm (kfree pi));;
  (if f0 =? NULL then mret tt else fileclose f0);;
  (if f1 =? NULL then mret tt else fileclose f1);;
  mret (-1, f0, f1).

(** The result and the two files. *)
Definition pipealloc : K St (Z * Z * Z) :=
  f0 ← filealloc;
  if f0 =? NULL then pipealloc_bad 0 f0 NULL
  else
    f1 ← filealloc;
    if f1 =? NULL then pipealloc_bad 0 f0 f1
    else
      pi ← on_pm kalloc;
      if pi =? 0 then pipealloc_bad pi f0 f1
      else
        mod_pipe pi (fun p => Pipe (p_data p) 0 0 true true);;
        mod_file f0 (fun f => set_fpipe pi (set_rw true false (set_ftype FD_PIPE f)));;
        mod_file f1 (fun f => set_fpipe pi (set_rw false true (set_ftype FD_PIPE f)));;
        mret (0, f0, f1).
End file.
