(* ===== verification/Proc.v ===== *)
(** * Processes: kernel/proc.c

    Allocation and release of process slots, [kfork], [kexit] and [kwait]. The
    trap frame of a process is the page at [p->trapframe], read and written in
    memory. Scheduling is in file Sched. *)

From S2P Require Import Prelude Riscv Headers Mem Kalloc Vm Sleeplock Block Log State Sched Copy Fs Console Pipe FileTable.

(** Addresses of kernel code that the C code stores, as the linker places it. *)
Class Ksyms := {
  sym_forkret : Z;
  sym_usertrap : Z;
  sym_uservec : Z;
  sym_userret : Z;
  sym_kernelvec : Z;
}.

Section proc.
Context `{LK : Linker} {KS : Ksyms} {KD : KData} {W : Wakes} {St : Type} {BO : BlockOps St}.

Definition procinit : K St unit :=
  for_each slots (fun p =>
    mod_proc p (set_state UNUSED);;
    mod_proc p (set_kstack (KSTACK p))).

Definition allocpid : K St Z :=
  acquire LPid;;
  pid ← gets nextpid;
  modify (set_nextpid (i32 (pid + 1)));;
  release LPid;;
  mret pid.

Definition proc_pagetable (p : Z) : K St Z :=
  pt ← on_pm uvmcreate;
  if pt =? 0 then mret 0
  else
    r ← on_pm (mappages pt TRAMPOLINE PGSIZE trampoline (Z.lor PTE_R PTE_X));
    if r <? 0 then
      on_pm (uvmfree pt 0);;
      mret 0
    else
      tf ← the_proc p p_trapframe;
      r ← on_pm (mappages pt TRAPFRAME PGSIZE tf (Z.lor PTE_R PTE_W));
      if r <? 0 then
        on_pm (uvmunmap pt TRAMPOLINE 1 false);;
        on_pm (uvmfree pt 0);;
        mret 0
      else mret pt.

Definition proc_freepagetable (pagetable sz : Z) : K St unit :=
  on_pm (uvmunmap pagetable TRAMPOLINE 1 false);;
  on_pm (uvmunmap pagetable TRAPFRAME 1 false);;
  on_pm (uvmfree pagetable sz).

Definition freeproc (p : Z) : K St unit :=
  pp ← the_proc p id;
  (if negb (p_trapframe pp =? 0) then on_pm (kfree (p_trapframe pp)) else mret tt);;
  mod_proc p (set_trapframe 0);;
  (if negb (p_pagetable pp =? 0) then proc_freepagetable (p_pagetable pp) (p_sz pp) else mret tt);;
  mod_proc p (set_pagetable 0);;
  mod_proc p (set_sz 0);;
  mod_proc p (set_pid 0);;
  mod_proc p (set_parent None);;
  mod_proc p (set_name []);;
  mod_proc p (set_chan None);;
  mod_proc p (set_killed false);;
  mod_proc p (set_xstate 0);;
  mod_proc p (set_state UNUSED).

(** [found:] of [allocproc]. *)
Definition allocproc_found (p : Z) : K St Z :=
  pid ← allocpid;
  mod_proc p (set_pid pid);;
  mod_proc p (set_state USED);;
  tf ← on_pm kalloc;
  mod_proc p (set_trapframe tf);;
  if tf =? 0 then
    freeproc p;;
    release (LProc p);;
    mret NULL
  else
    pt ← proc_pagetable p;
    mod_proc p (set_pagetable pt);;
    if pt =? 0 then
      freeproc p;;
      release (LProc p);;
      mret NULL
    else
      ks ← the_proc p p_kstack;
      mod_proc p (set_context (sym_forkret, ks + PGSIZE));;
      mret p.

Fixpoint allocproc_loop (ps : list Z) : K St Z :=
  match ps with
  | [] => mret NULL
  | p :: ps =>
      acquire (LProc p);;
      st ← the_proc p p_state;
      if bool_decide (st = UNUSED) then allocproc_found p
      else
        release (LProc p);;
        allocproc_loop ps
  end.
Definition allocproc : K St Z := allocproc_loop slots.

Definition userinit : K St unit :=
  p ← allocproc;
  modify (set_initproc (Some p));;
  cwd ← namei [slash];
  mod_proc p (set_cwd cwd);;
  mod_proc p (set_state RUNNABLE);;
  release (LProc p).

Definition growproc (n : Z) : K St Z :=
  p ← myproc;
  pp ← the_proc p id;
  let sz := p_sz pp in
  if 0 <? n then
    sz' ← on_pm (uvmalloc (p_pagetable pp) sz (u64 (sz + n)) PTE_W);
    if sz' =? 0 then mret (-1)
    else
      mod_proc p (set_sz sz');;
      mret 0
  else
    sz' ← (if n <? 0 then on_pm (uvmdealloc (p_pagetable pp) sz (u64 (sz + n))) else mret sz);
    mod_proc p (set_sz sz');;
    mret 0.

(** [for (i = 0; i < NOFILE; i++) if (p->ofile[i]) np->ofile[i] = filedup(p->ofile[i]);] *)
Definition dup_files (p np : Z) : K St unit :=
  for_each (seqZ 0 NOFILE) (fun i =>
    fds ← the_proc p p_ofile;
    match fds !! i with
    | Some f =>
        f ← filedup f;
        mod_proc np (fun x => set_ofile (<[i := f]> (p_ofile x)) x)
    | None => mret tt
    end).

Definition kfork : K St Z :=
  p ← myproc;
  np ← allocproc;
  if np =? NULL then mret (-1)
  else
    pp ← the_proc p id;
    npp ← the_proc np id;
    r ← on_pm (uvmcopy (p_pagetable pp) (p_pagetable npp) (p_sz pp));
    if r <? 0 then
      freeproc np;;
      release (LProc np);;
      mret (-1)
    else
      mod_proc np (set_sz (p_sz pp));;
      on_pm (kmemmove (p_trapframe npp) (p_trapframe pp) TF_SIZE);;
      on_pm (store64 (p_trapframe npp + TF_a0) 0);;
      dup_files p np;;
      cwd ← idup (p_cwd pp);
      mod_proc np (set_cwd cwd);;
      mod_proc np (set_name (take 15 (p_name pp)));;
      pid ← the_proc np p_pid;
      release (LProc np);;
      acquire LWait;;
      mod_proc np (set_parent (Some p));;
      release LWait;;
      acquire (LProc np);;
      mod_proc np (set_state RUNNABLE);;
      release (LProc np);;
      mret pid.

Definition chan_of (p : option Z) : chan := ChProc (default NULL p).

Definition reparent (p : Z) : K St unit :=
  for_each slots (fun pp =>
    par ← the_proc pp p_parent;
    if bool_decide (par = Some p) then
      init ← gets initproc;
      mod_proc pp (set_parent init);;
      wakeup (chan_of init)
    else mret tt).

Definition close_files (p : Z) : K St unit :=
  for_each (seqZ 0 NOFILE) (fun fd =>
    fds ← the_proc p p_ofile;
    match fds !! fd with
    | Some f =>
        fileclose f;;
        mod_proc p (fun x => set_ofile (delete fd (p_ofile x)) x)
    | None => mret tt
    end).

Definition kexit (status : Z) : K St unit :=
  p ← myproc;
  init ← gets initproc;
  if bool_decide (Some p = init) then panic "init exiting"
  else
    close_files p;;
    kbegin_op;;
    cwd ← the_proc p p_cwd;
    iput cwd;;
    kend_op;;
    mod_proc p (set_cwd NULL);;
    acquire LWait;;
    reparent p;;
    par ← the_proc p p_parent;
    wakeup (chan_of par);;
    acquire (LProc p);;
    mod_proc p (set_xstate status);;
    mod_proc p (set_state ZOMBIE);;
    release LWait;;
    sched;;
    panic "zombie exit".

(** The scan of [kwait]: [inl] is a return, [inr] whether there are children. *)
Fixpoint kwait_scan (ps : list Z) (p addr : Z) (havekids : bool) : K St (Z + bool) :=
  match ps with
  | [] => mret (inr havekids)
  | q :: ps =>
      par ← the_proc q p_parent;
      if bool_decide (par = Some p) then
        acquire (LProc q);;
        pp ← the_proc q id;
        if bool_decide (p_state pp = ZOMBIE) then
          pt ← the_proc p p_pagetable;
          r ← (if addr =? 0 then mret 0 else copyout_bytes pt addr (wr32 0 (p_xstate pp) (replicate 4 0)));
          if r <? 0 then
            release (LProc q);;
            release LWait;;
            mret (inl (-1))
          else
            freeproc q;;
            release (LProc q);;
            release LWait;;
            mret (inl (p_pid pp))
        else
          release (LProc q);;
          kwait_scan ps p addr true
      else kwait_scan ps p addr havekids
  end.
Fixpoint kwait_loop (fuel : nat) (p addr : Z) : K St Z :=
  match fuel with
  | O => nofuel
  | S fuel =>
      r ← kwait_scan slots p addr false;
      match r with
      | inl pid => mret pid
      | inr havekids =>
          stop ← (if negb havekids then mret true else killed p);
          if stop : bool then
            release LWait;;
            mret (-1)
          else
            sleep (ChProc p) LWait;;
            kwait_loop fuel p addr
      end
  end.
Definition kwait (addr : Z) : K St Z :=
  p ← myproc;
  acquire LWait;;
  kwait_loop (S wakes) p addr.
End proc.
