(* ===== verification/Exec.v ===== *)
(** * Running a program: kernel/exec.c

    [kexec] builds a new address space from an ELF file, pushes the arguments
    and only then replaces the old address space; every error before that
    point goes to [bad], which frees the new one. Argument strings are given by
    their kernel addresses, as in C. *)

From S2P Require Import Prelude Riscv Headers Mem Kalloc Vm Sleeplock Block Log State Sched Copy Fs Console Pipe FileTable Proc.

(** ** kernel/elf.h *)

Definition ELF_MAGIC : Z := 0x464C457F.
Definition ELF_PROG_LOAD : Z := 1.
(** [sizeof(struct elfhdr)] and [sizeof(struct proghdr)]. *)
Definition ELFHDR : Z := 64.
Definition PROGHDR : Z := 56.

Definition elf_magic (h : block) : Z := rd32 h 0.
Definition elf_entry (h : block) : Z := rd64 h 24.
Definition elf_phoff (h : block) : Z := rd64 h 32.
Definition elf_phnum (h : block) : Z := rd16 h 56.

Definition ph_type (h : block) : Z := rd32 h 0.
Definition ph_flags (h : block) : Z := rd32 h 4.
Definition ph_off (h : block) : Z := rd64 h 8.
Definition ph_vaddr (h : block) : Z := rd64 h 16.
Definition ph_filesz (h : block) : Z := rd64 h 32.
Definition ph_memsz (h : block) : Z := rd64 h 40.

Definition flags2perm (flags : Z) : Z :=
  let perm := if flag flags 0x1 then PTE_X else 0 in
  if flag flags 0x2 then Z.lor perm PTE_W else perm.

(** The part of a path after its last slash. *)
Fixpoint last_elem (last s : list Z) : list Z :=
  match s with
  | [] => last
  | c :: s => last_elem (if c =? slash then s else last) s
  end.

Section exec.
Context `{LK : Linker} {KS : Ksyms} {KD : KData} {W : Wakes} {St : Type} {BO : BlockOps St}.

Fixpoint loadseg_loop (fuel : nat) (pagetable va ip offset sz i : Z) : K St Z :=
  match fuel with
  | O => nofuel
  | S fuel =>
      if i <? sz then
        pa ← on_pm (walkaddr pagetable (u64 (va + i)));
        if pa =? 0 then panic "loadseg: address should exist"
        else
          let n := if sz - i <? PGSIZE then sz - i else PGSIZE in
          r ← readi ip (PKernel pa) (u32 (offset + i)) n;
          if negb (r.1 =? n) then mret (-1)
          else loadseg_loop fuel pagetable va ip offset sz (i + PGSIZE)
      else mret 0
  end.
Definition loadseg (pagetable va ip offset sz : Z) : K St Z :=
  loadseg_loop (Z.to_nat (sz / PGSIZE + 2)) pagetable va ip offset sz 0.

(** One turn of the loop over program headers, on header [ph]: [inl] goes to
    [bad], [inr] is the new size. Either way the size so far is given. *)
Definition load_segment (pagetable ip sz : Z) (ph : block) : K St (Z + Z) :=
  if negb (ph_type ph =? ELF_PROG_LOAD) then mret (inr sz)
  else if ph_memsz ph <? ph_filesz ph then mret (inl sz)
  else if u64 (ph_vaddr ph + ph_memsz ph) <? ph_vaddr ph then mret (inl sz)
  else if negb (ph_vaddr ph mod PGSIZE =? 0) then mret (inl sz)
  else
    sz1 ← on_pm (uvmalloc pagetable sz (u64 (ph_vaddr ph + ph_memsz ph)) (flags2perm (ph_flags ph)));
    if sz1 =? 0 then mret (inl sz)
    else
      r ← loadseg pagetable (ph_vaddr ph) ip (u32 (ph_off ph)) (u32 (ph_filesz ph));
      if r <? 0 then mret (inl sz1) else mret (inr sz1).

(** [for (i = 0, off = elf.phoff; i < elf.phnum; i++, off += sizeof(ph))] *)
Fixpoint load_segments (k : nat) (off pagetable ip sz : Z) : K St (Z + Z) :=
  match k with
  | O => mret (inr sz)
  | S k =>
      r ← readi ip PLocal (u32 off) PROGHDR;
      if negb (r.1 =? PROGHDR) then mret (inl sz)
      else
        r ← load_segment pagetable ip sz r.2;
        match r with
        | inl sz => mret (inl sz)
        | inr sz => load_segments k (i32 (off + PROGHDR)) pagetable ip sz
        end
  end.

(** [strlen] of a kernel string; no argument is longer than a page. *)
Definition kstrlen (a : Z) : K St Z :=
  r ← on_pm (gets (fun s => strlen (S (Z.to_nat PGSIZE)) (mem s) a));
  match r with Some n => mret n | None => nofuel end.

(** The loop over the argument strings: [None] goes to [bad], otherwise the
    stack pointer and [ustack] are returned. *)
Fixpoint push_args (argv : list Z) (argc pagetable sp stackbase : Z) (ustack : list Z) : K St (option (Z * list Z)) :=
  match argv with
  | [] => mret (Some (sp, ustack))
  | a :: argv =>
      if MAXARG <=? argc then mret None
      else
        n ← kstrlen a;
        let sp := u64 (sp - (n + 1)) in
        let sp := sp - sp mod 16 in
        if sp <? stackbase then mret None
        else
          p ← myproc;
          psz ← the_proc p p_sz;
          r ← on_pm (copyout psz pagetable sp a (n + 1));
          if r <? 0 then mret None
          else push_args argv (argc + 1) pagetable sp stackbase (ustack ++ [sp])
  end.

(** [ustack] as bytes. *)
Definition words (l : list Z) : list Z := mjoin ((fun v => wr64 0 v (replicate 8 0)) <$> l).

Definition kexec_bad (pagetable sz ip : Z) : K St Z :=
  (if pagetable =? 0 then mret tt else proc_freepagetable pagetable sz);;
  (if ip =? NULL then mret tt
   else
     iunlockput ip;;
     kend_op);;
  mret (-1).

(** [kexec] after the program has been loaded: stack, arguments, commit. *)
Definition kexec_image (path : list Z) (argv : list Z) (pagetable sz entry : Z) : K St Z :=
  p ← myproc;
  oldsz ← the_proc p p_sz;
  let sz := PGROUNDUP sz in
  sz1 ← on_pm (uvmalloc pagetable sz (u64 (sz + (USERSTACK + 1) * PGSIZE)) PTE_W);
  if sz1 =? 0 then kexec_bad pagetable sz NULL
  else
    let sz := sz1 in
    on_pm (uvmclear pagetable (u64 (sz - (USERSTACK + 1) * PGSIZE)));;
    let stackbase := u64 (sz - USERSTACK * PGSIZE) in
    r ← push_args argv 0 pagetable sz stackbase [];
    match r with
    | None => kexec_bad pagetable sz NULL
    | Some (sp, ustack) =>
        let argc := Z.of_nat (length argv) in
        let sp := u64 (sp - (argc + 1) * 8) in
        let sp := sp - sp mod 16 in
        if sp <? stackbase then kexec_bad pagetable sz NULL
        else
          r ← copyout_bytes pagetable sp (words (ustack ++ [0]));
          if r <? 0 then kexec_bad pagetable sz NULL
          else
            pp ← the_proc p id;
            on_pm (store64 (p_trapframe pp + TF_a1) sp);;
            mod_proc p (set_name (take 15 (last_elem path path)));;
            mod_proc p (set_pagetable pagetable);;
            mod_proc p (set_sz sz);;
            on_pm (store64 (p_trapframe pp + TF_epc) entry);;
            on_pm (store64 (p_trapframe pp + TF_sp) sp);;
            proc_freepagetable (p_pagetable pp) oldsz;;
            mret argc
    end.

Definition kexec (path : list Z) (argv : list Z) : K St Z :=
  p ← myproc;
  kbegin_op;;
  ip ← namei path;
  if ip =? NULL then
    kend_op;;
    mret (-1)
  else
    ilock ip;;
    r ← readi ip PLocal 0 ELFHDR;
    let elf := r.2 in
    if negb (r.1 =? ELFHDR) then kexec_bad 0 0 ip
    else if negb (elf_magic elf =? ELF_MAGIC) then kexec_bad 0 0 ip
    else
      pagetable ← proc_pagetable p;
      if pagetable =? 0 then kexec_bad 0 0 ip
      else
        r ← load_segments (Z.to_nat (elf_phnum elf)) (i32 (elf_phoff elf)) pagetable ip 0;
        match r with
        | inl sz => kexec_bad pagetable sz ip
        | inr sz =>
            iunlockput ip;;
            kend_op;;
            kexec_image path argv pagetable sz (elf_entry elf)
        end.
End exec.
