(* ===== verification/Args.v ===== *)
(** * System call arguments: kernel/syscall.c

    Arguments are read from the trap frame; strings and words from user
    memory. *)

From S2P Require Import Prelude Riscv Headers Mem Kalloc Vm Sleeplock Block Log State Sched Copy Fs Console Pipe FileTable Proc Exec.

Section args.
Context `{LK : Linker} {KS : Ksyms} {KD : KData} {W : Wakes} {St : Type} {BO : BlockOps St}.

(** A field of the trap frame of the current process. *)
Definition tf_load (o : Z) : K St Z :=
  p ← myproc;
  tf ← the_proc p p_trapframe;
  on_pm (load64 (tf + o)).
Definition tf_store (o v : Z) : K St unit :=
  p ← myproc;
  tf ← the_proc p p_trapframe;
  on_pm (store64 (tf + o) (u64 v)).

(** The word at user address [addr]: the result and the word. *)
Definition fetchaddr (addr : Z) : K St (Z * Z) :=
  p ← myproc;
  pp ← the_proc p id;
  if (p_sz pp <=? addr) || (p_sz pp <? u64 (addr + 8)) then mret (-1, 0)
  else
    r ← copyin_bytes (p_pagetable pp) addr (replicate 8 0);
    if negb (r.1 =? 0) then mret (-1, 0) else mret (0, rd64 r.2 0).

Definition fetchstr (addr buf max : Z) : K St Z :=
  p ← myproc;
  pt ← the_proc p p_pagetable;
  r ← on_pm (copyinstr pt buf addr max);
  if r <? 0 then mret (-1) else kstrlen buf.

Definition argraw (n : Z) : K St Z :=
  match n with
  | 0 => tf_load TF_a0
  | 1 => tf_load TF_a1
  | 2 => tf_load TF_a2
  | 3 => tf_load TF_a3
  | 4 => tf_load TF_a4
  | 5 => tf_load TF_a5
  | _ => panic "argraw"
  end.

Definition argint (n : Z) : K St Z :=
  v ← argraw n;
  mret (i32 v).

Definition argaddr (n : Z) : K St Z := argraw n.

(** The string is copied to a local array; the result and its bytes. *)
Definition argstr (n max : Z) : K St (Z * list Z) :=
  addr ← argaddr n;
  r ← fetchstr addr kdata max;
  bs ← on_pm (gets (fun s => ldbytes (mem s) kdata (Z.to_nat r)));
  mret (r, bs).
End args.
