(* ===== verification/Sysfile.v ===== *)
(** * File-system system calls: kernel/sysfile.c

    Mostly argument checking: user code is not trusted, and the calls go on to
    the open-file table, the file system and [kexec]. Strings that the C code
    copies to local arrays are lists of bytes. *)

From S2P Require Import Prelude Riscv Headers Mem Kalloc Vm Sleeplock Block Log State Sched Copy Fs Console Pipe FileTable Proc Exec Args.

(** The strings ["."] and [".."]. *)
Definition dot : list Z := [46].
Definition dotdot : list Z := [46; 46].

Section sysfile.
Context `{LK : Linker} {KS : Ksyms} {KD : KData} {W : Wakes} {St : Type} {BO : BlockOps St}.

(** The result, the descriptor and the file. *)
Definition argfd (n : Z) : K St (option (Z * Z)) :=
  fd ← argint n;
  if (fd <? 0) || (NOFILE <=? fd) then mret None
  else
    p ← myproc;
    fds ← the_proc p p_ofile;
    mret ((fun f => (fd, f)) <$> fds !! fd).

Definition set_fd (p fd f : Z) : K St unit := mod_proc p (fun x => set_ofile (<[fd := f]> (p_ofile x)) x).
Definition clear_fd (p fd : Z) : K St unit := mod_proc p (fun x => set_ofile (delete fd (p_ofile x)) x).

(** The scan of [fdalloc]: the first descriptor not in use. *)
Fixpoint fdalloc_scan (l : list Z) (fds : gmap Z Z) : Z :=
  match l with
  | [] => -1
  | fd :: l => match fds !! fd with None => fd | Some _ => fdalloc_scan l fds end
  end.
Definition fdalloc (f : Z) : K St Z :=
  p ← myproc;
  fds ← the_proc p p_ofile;
  let fd := fdalloc_scan (seqZ 0 NOFILE) fds in
  (if fd <? 0 then mret tt else set_fd p fd f);;
  mret fd.

Definition sys_dup : K St Z :=
  r ← argfd 0;
  match r with
  | None => mret (-1)
  | Some (_, f) =>
      fd ← fdalloc f;
      if fd <? 0 then mret (-1)
      else
        _ ← filedup f;
        mret fd
  end.

Definition sys_read : K St Z :=
  p ← argaddr 1;
  n ← argint 2;
  r ← argfd 0;
  match r with
  | None => mret (-1)
  | Some (_, f) => fileread f p n
  end.

Definition sys_write : K St Z :=
  p ← argaddr 1;
  n ← argint 2;
  r ← argfd 0;
  match r with
  | None => mret (-1)
  | Some (_, f) => filewrite f p n
  end.

Definition sys_close : K St Z :=
  r ← argfd 0;
  match r with
  | None => mret (-1)
  | Some (fd, f) =>
      p ← myproc;
      clear_fd p fd;;
      fileclose f;;
      mret 0
  end.

Definition sys_fstat : K St Z :=
  st ← argaddr 1;
  r ← argfd 0;
  match r with
  | None => mret (-1)
  | Some (_, f) => filestat f st
  end.

(** [bad:] of [sys_link]. *)
Definition sys_link_bad (ip : Z) : K St Z :=
  ilock ip;;
  mod_inode ip (fun i => set_nlink (i16 (i_nlink i - 1)) i);;
  iupdate ip;;
  iunlockput ip;;
  kend_op;;
  mret (-1).

Definition sys_link : K St Z :=
  r ← argstr 0 MAXPATH;
  let old := r.2 in
  if r.1 <? 0 then mret (-1)
  else
    r ← argstr 1 MAXPATH;
    let new := r.2 in
    if r.1 <? 0 then mret (-1)
    else
      kbegin_op;;
      ip ← namei old;
      if ip =? NULL then
        kend_op;;
        mret (-1)
      else
        ilock ip;;
        t ← the_inode ip i_type;
        if t =? T_DIR then
          iunlockput ip;;
          kend_op;;
          mret (-1)
        else
          mod_inode ip (fun i => set_nlink (i16 (i_nlink i + 1)) i);;
          iupdate ip;;
          iunlock ip;;
          r ← nameiparent new;
          let '(dp, name) := r in
          if dp =? NULL then sys_link_bad ip
          else
            ilock dp;;
            d ← the_inode dp id;
            i ← the_inode ip id;
            r ← (if negb (i_dev d =? i_dev i) then mret (-1) else dirlink dp name (i_inum i));
            if r <? 0 then
              iunlockput dp;;
              sys_link_bad ip
            else
              iunlockput dp;;
              iput ip;;
              kend_op;;
              mret 0.

Fixpoint isdirempty_loop (fuel : nat) (dp off : Z) : K St bool :=
  match fuel with
  | O => nofuel
  | S fuel =>
      size ← the_inode dp i_size;
      if off <? size then
        r ← readi dp PLocal off DIRENT;
        if negb (r.1 =? DIRENT) then panic "isdirempty: readi"
        else if negb (de_inum r.2 =? 0) then mret false
        else isdirempty_loop fuel dp (off + DIRENT)
      else mret true
  end.
Definition isdirempty (dp : Z) : K St bool :=
  size ← the_inode dp i_size;
  isdirempty_loop (Z.to_nat (size / DIRENT + 2)) dp (2 * DIRENT).

(** [bad:] of [sys_unlink]. *)
Definition sys_unlink_bad (dp : Z) : K St Z :=
  iunlockput dp;;
  kend_op;;
  mret (-1).

(** [sys_unlink] from the point where [dp] and [ip] are locked. *)
Definition unlink_entry (dp ip off : Z) : K St Z :=
  i ← the_inode ip id;
  if i_nlink i <? 1 then panic "unlink: nlink < 1"
  else
    busy ← (if i_type i =? T_DIR then e ← isdirempty ip; mret (negb e) else mret false);
    if busy : bool then
      iunlockput ip;;
      sys_unlink_bad dp
    else
      r ← writei dp (SLocal (replicate (Z.to_nat DIRENT) 0)) off DIRENT;
      if negb (r =? DIRENT) then panic "unlink: writei"
      else
        t ← the_inode ip i_type;
        (if t =? T_DIR then
           mod_inode dp (fun d => set_nlink (i16 (i_nlink d - 1)) d);;
           iupdate dp
         else mret tt);;
        iunlockput dp;;
        mod_inode ip (fun i => set_nlink (i16 (i_nlink i - 1)) i);;
        iupdate ip;;
        iunlockput ip;;
        kend_op;;
        mret 0.

Definition sys_unlink : K St Z :=
  r ← argstr 0 MAXPATH;
  if r.1 <? 0 then mret (-1)
  else
    kbegin_op;;
    r ← nameiparent r.2;
    let '(dp, name) := r in
    if dp =? NULL then
      kend_op;;
      mret (-1)
    else
      ilock dp;;
      if (namecmp name dot =? 0) || (namecmp name dotdot =? 0) then sys_unlink_bad dp
      else
        r ← dirlookup dp name;
        let '(ip, off) := r in
        if ip =? NULL then sys_unlink_bad dp
        else
          ilock ip;;
          unlink_entry dp ip off.

(** [fail:] of [create]. *)
Definition create_fail (dp ip : Z) : K St Z :=
  mod_inode ip (set_nlink 0);;
  iupdate ip;;
  iunlockput ip;;
  iunlockput dp;;
  mret NULL.

(** [create] from the point where the name is known to be new. *)
Definition create_new (dp : Z) (name : list Z) (type major minor : Z) : K St Z :=
  dev ← the_inode dp i_dev;
  ip ← ialloc dev type;
  if ip =? NULL then
    iunlockput dp;;
    mret NULL
  else
    ilock ip;;
    mod_inode ip (fun i => set_nlink 1 (set_inodedev major minor i));;
    iupdate ip;;
    inum ← the_inode ip i_inum;
    pinum ← the_inode dp i_inum;
    r ← (if type =? T_DIR then
           r ← dirlink ip dot inum;
           if r <? 0 then mret r else dirlink ip dotdot pinum
         else mret 0);
    if r <? 0 then create_fail dp ip
    else
      r ← dirlink dp name inum;
      if r <? 0 then create_fail dp ip
      else
        (if type =? T_DIR then
           mod_inode dp (fun d => set_nlink (i16 (i_nlink d + 1)) d);;
           iupdate dp
         else mret tt);;
        iunlockput dp;;
        mret ip.

Definition create (path : list Z) (type major minor : Z) : K St Z :=
  r ← nameiparent path;
  let '(dp, name) := r in
  if dp =? NULL then mret NULL
  else
    ilock dp;;
    r ← dirlookup dp name;
    let ip := r.1 in
    if negb (ip =? NULL) then
      iunlockput dp;;
      ilock ip;;
      t ← the_inode ip i_type;
      if (type =? T_FILE) && ((t =? T_FILE) || (t =? T_DEVICE)) then mret ip
      else
        iunlockput ip;;
        mret NULL
    else create_new dp name type major minor.

(** [sys_open] from the point where the inode is found and locked. *)
Definition open_inode (ip omode : Z) : K St Z :=
  i ← the_inode ip id;
  if (i_type i =? T_DEVICE) && ((i_major i <? 0) || (NDEV <=? i_major i)) then
    iunlockput ip;;
    kend_op;;
    mret (-1)
  else
    f ← filealloc;
    fd ← (if f =? NULL then mret (-1) else fdalloc f);
    if fd <? 0 then
      (if f =? NULL then mret tt else fileclose f);;
      iunlockput ip;;
      kend_op;;
      mret (-1)
    else
      (if i_type i =? T_DEVICE then mod_file f (fun x => set_fmajor (i_major i) (set_ftype FD_DEVICE x))
       else mod_file f (fun x => set_foff 0 (set_ftype FD_INODE x)));;
      mod_file f (set_fip ip);;
      mod_file f (set_rw (negb (flag omode O_WRONLY)) (flag omode O_WRONLY || flag omode O_RDWR));;
      (if flag omode O_TRUNC && (i_type i =? T_FILE) then itrunc ip else mret tt);;
      iunlock ip;;
      kend_op;;
      mret fd.

Definition sys_open : K St Z :=
  omode ← argint 1;
  r ← argstr 0 MAXPATH;
  if r.1 <? 0 then mret (-1)
  else
    kbegin_op;;
    if flag omode O_CREATE then
      ip ← create r.2 T_FILE 0 0;
      if ip =? NULL then
        kend_op;;
        mret (-1)
      else open_inode ip omode
    else
      ip ← namei r.2;
      if ip =? NULL then
        kend_op;;
        mret (-1)
      else
        ilock ip;;
        t ← the_inode ip i_type;
        if (t =? T_DIR) && negb (omode =? O_RDONLY) then
          iunlockput ip;;
          kend_op;;
          mret (-1)
        else open_inode ip omode.

Definition sys_mkdir : K St Z :=
  kbegin_op;;
  r ← argstr 0 MAXPATH;
  ip ← (if r.1 <? 0 then mret NULL else create r.2 T_DIR 0 0);
  if ip =? NULL then
    kend_op;;
    mret (-1)
  else
    iunlockput ip;;
    kend_op;;
    mret 0.

Definition sys_mknod : K St Z :=
  kbegin_op;;
  major ← argint 1;
  minor ← argint 2;
  r ← argstr 0 MAXPATH;
  ip ← (if r.1 <? 0 then mret NULL else create r.2 T_DEVICE (i16 major) (i16 minor));
  if ip =? NULL then
    kend_op;;
    mret (-1)
  else
    iunlockput ip;;
    kend_op;;
    mret 0.

Definition sys_chdir : K St Z :=
  p ← myproc;
  kbegin_op;;
  r ← argstr 0 MAXPATH;
  ip ← (if r.1 <? 0 then mret NULL else namei r.2);
  if ip =? NULL then
    kend_op;;
    mret (-1)
  else
    ilock ip;;
    t ← the_inode ip i_type;
    if negb (t =? T_DIR) then
      iunlockput ip;;
      kend_op;;
      mret (-1)
    else
      iunlock ip;;
      cwd ← the_proc p p_cwd;
      iput cwd;;
      kend_op;;
      mod_proc p (set_cwd ip);;
      mret 0.

(** The loop of [sys_exec] over the argument pointers: whether it succeeded,
    and the pages allocated for the strings. *)
Fixpoint exec_args (k : nat) (i uargv : Z) (argv : list Z) : K St (bool * list Z) :=
  match k with
  | O => mret (false, argv)
  | S k =>
      r ← fetchaddr (u64 (uargv + 8 * i));
      if r.1 <? 0 then mret (false, argv)
      else if r.2 =? 0 then mret (true, argv)
      else
        a ← on_pm kalloc;
        if a =? 0 then mret (false, argv)
        else
          n ← fetchstr r.2 a PGSIZE;
          if n <? 0 then mret (false, argv ++ [a])
          else exec_args k (i + 1) uargv (argv ++ [a])
  end.

Definition sys_exec : K St Z :=
  uargv ← argaddr 1;
  r ← argstr 0 MAXPATH;
  if r.1 <? 0 then mret (-1)
  else
    let path := r.2 in
    r ← exec_args (Z.to_nat MAXARG) 0 uargv [];
    let '(ok, argv) := r in
    ret ← (if ok : bool then kexec path argv else mret (-1));
    for_each argv (fun a => on_pm (kfree a));;
    mret ret.

(** Descriptors are given up and the files closed. *)
Definition pipe_fail (rf wf : Z) : K St Z :=
  fileclose rf;;
  fileclose wf;;
  mret (-1).

Definition sys_pipe : K St Z :=
  p ← myproc;
  fdarray ← argaddr 0;
  r ← pipealloc;
  let '(r, rf, wf) := r in
  if r <? 0 then mret (-1)
  else
    fd0 ← fdalloc rf;
    fd1 ← (if fd0 <? 0 then mret (-1) else fdalloc wf);
    if fd1 <? 0 then
      (if 0 <=? fd0 then clear_fd p fd0 else mret tt);;
      pipe_fail rf wf
    else
      pt ← the_proc p p_pagetable;
      r ← copyout_bytes pt fdarray (wr32 0 fd0 (replicate 4 0));
      r ← (if r <? 0 then mret r else copyout_bytes pt (u64 (fdarray + 4)) (wr32 0 fd1 (replicate 4 0)));
      if r <? 0 then
        clear_fd p fd0;;
        clear_fd p fd1;;
        pipe_fail rf wf
      else mret 0.
End sysfile.
