(* ===== verification/Sysproc.v ===== *)
(** * Process system calls and the system call table: kernel/sysproc.c and
    [syscall] of kernel/syscall.c *)

From stdpp Require Import pretty.
From S2P Require Import Prelude Riscv Headers Mem Kalloc Vm Sleeplock Block Log State Sched Copy Fs Console Pipe FileTable Proc Exec Args Sysfile.

(** The numbers of kernel/syscall.h. *)
Inductive sysno :=
| SYS_fork | SYS_exit | SYS_wait | SYS_pipe | SYS_read | SYS_kill | SYS_exec | SYS_fstat | SYS_chdir | SYS_dup
| SYS_getpid | SYS_sbrk | SYS_pause | SYS_uptime | SYS_open | SYS_write | SYS_mknod | SYS_unlink | SYS_link
| SYS_mkdir | SYS_close.
Definition sysno_of (num : Z) : option sysno :=
  match num with
  | 1 => Some SYS_fork | 2 => Some SYS_exit | 3 => Some SYS_wait | 4 => Some SYS_pipe | 5 => Some SYS_read
  | 6 => Some SYS_kill | 7 => Some SYS_exec | 8 => Some SYS_fstat | 9 => Some SYS_chdir | 10 => Some SYS_dup
  | 11 => Some SYS_getpid | 12 => Some SYS_sbrk | 13 => Some SYS_pause | 14 => Some SYS_uptime | 15 => Some SYS_open
  | 16 => Some SYS_write | 17 => Some SYS_mknod | 18 => Some SYS_unlink | 19 => Some SYS_link | 20 => Some SYS_mkdir
  | 21 => Some SYS_close
  | _ => None
  end.

Section sysproc.
Context `{LK : Linker} {KS : Ksyms} {KD : KData} {W : Wakes} {St : Type} {BO : BlockOps St}.

Definition sys_exit : K St Z :=
  n ← argint 0;
  kexit n;;
  mret 0.

Definition sys_getpid : K St Z :=
  p ← myproc;
  the_proc p p_pid.

Definition sys_fork : K St Z := kfork.

Definition sys_wait : K St Z :=
  p ← argaddr 0;
  kwait p.

Definition sys_sbrk : K St Z :=
  n ← argint 0;
  t ← argint 1;
  p ← myproc;
  addr ← the_proc p p_sz;
  if (t =? SBRK_EAGER) || (n <? 0) then
    r ← growproc n;
    if r <? 0 then mret (-1) else mret addr
  else if u64 (addr + n) <? addr then mret (-1)
  else
    mod_proc p (fun x => set_sz (u64 (p_sz x + n)) x);;
    mret addr.

Fixpoint sys_pause_loop (fuel : nat) (ticks0 n : Z) : K St Z :=
  match fuel with
  | O => nofuel
  | S fuel =>
      t ← gets ticks;
      if u32 (t - ticks0) <? n then
        p ← myproc;
        k ← killed p;
        if k : bool then
          release LTicks;;
          mret (-1)
        else
          sleep ChTicks LTicks;;
          sys_pause_loop fuel ticks0 n
      else
        release LTicks;;
        mret 0
  end.
Definition sys_pause : K St Z :=
  n ← argint 0;
  let n := if n <? 0 then 0 else n in
  acquire LTicks;;
  ticks0 ← gets ticks;
  sys_pause_loop (S wakes) ticks0 n.

Definition sys_kill : K St Z :=
  pid ← argint 0;
  kkill pid.

Definition sys_uptime : K St Z :=
  acquire LTicks;;
  xticks ← gets ticks;
  release LTicks;;
  mret xticks.

(** The table of handlers. *)
Definition syscalls (n : sysno) : K St Z :=
  match n with
  | SYS_fork => sys_fork
  | SYS_exit => sys_exit
  | SYS_wait => sys_wait
  | SYS_pipe => sys_pipe
  | SYS_read => sys_read
  | SYS_kill => sys_kill
  | SYS_exec => sys_exec
  | SYS_fstat => sys_fstat
  | SYS_chdir => sys_chdir
  | SYS_dup => sys_dup
  | SYS_getpid => sys_getpid
  | SYS_sbrk => sys_sbrk
  | SYS_pause => sys_pause
  | SYS_uptime => sys_uptime
  | SYS_open => sys_open
  | SYS_write => sys_write
  | SYS_mknod => sys_mknod
  | SYS_unlink => sys_unlink
  | SYS_link => sys_link
  | SYS_mkdir => sys_mkdir
  | SYS_close => sys_close
  end.


Definition syscall : K St unit :=
  p ← myproc;
  num ← tf_load TF_a7;
  let num := i32 num in
  match sysno_of num with
  | Some n =>
      r ← syscalls n;
      tf_store TF_a0 r
  | None =>
      kprintf (pretty num +:+ ": unknown sys call");;
      tf_store TF_a0 (-1)
  end.
End sysproc.
