(* ===== verification/Trap.v ===== *)
(** * Traps: kernel/trap.c, kernel/plic.c and [forkret] of kernel/proc.c

    The supervisor registers of a hart, the interrupt controller and the input
    side of the UART are the hardware a trap handler sees. The kernel itself
    runs on its part of the machine. *)

From S2P Require Import Prelude Riscv Headers Mem Kalloc Vm Sleeplock Block Log State Sched Copy Fs Console Pipe FileTable Proc Exec Args Sysfile Sysproc.

(** The control registers trap.c reads and writes. *)
Record hart := Hart {
  sstatus : Z;
  stvec : Z;
  sepc : Z;
  scause : Z;
  stval : Z;
  satp : Z;
  tp : Z;
  rtime : Z;
  stimecmp : Z;
}.
Definition w_sstatus (v : Z) (h : hart) : hart := Hart v (stvec h) (sepc h) (scause h) (stval h) (satp h) (tp h) (rtime h) (stimecmp h).
Definition w_stvec (v : Z) (h : hart) : hart := Hart (sstatus h) v (sepc h) (scause h) (stval h) (satp h) (tp h) (rtime h) (stimecmp h).
Definition w_sepc (v : Z) (h : hart) : hart := Hart (sstatus h) (stvec h) v (scause h) (stval h) (satp h) (tp h) (rtime h) (stimecmp h).
Definition w_stimecmp (v : Z) (h : hart) : hart := Hart (sstatus h) (stvec h) (sepc h) (scause h) (stval h) (satp h) (tp h) (rtime h) v.

Definition intr_on (h : hart) : hart := w_sstatus (Z.lor (sstatus h) SSTATUS_SIE) h.
Definition intr_off (h : hart) : hart := w_sstatus (Z.land (sstatus h) (Z.lnot SSTATUS_SIE)) h.
Definition intr_get (h : hart) : bool := flag (sstatus h) SSTATUS_SIE.

(** [m_claims] are the interrupt numbers the controller hands out, [m_served]
    those it has been told are served; [m_idle] and [m_input] are what the
    UART's registers say. *)
Record machine (St : Type) := Machine {
  m_hart : hart;
  m_claims : list Z;
  m_served : list Z;
  m_idle : bool;
  m_input : list Z;
  m_kern : kernel St;
}.
Arguments Machine {St}. Arguments m_hart {St}. Arguments m_claims {St}. Arguments m_served {St}.
Arguments m_idle {St}. Arguments m_input {St}. Arguments m_kern {St}.

Definition scause_syscall : Z := 8.
Definition scause_load_fault : Z := 13.
Definition scause_store_fault : Z := 15.
Definition scause_external : Z := 0x8000000000000009.
Definition scause_timer : Z := 0x8000000000000005.

Section trap.
Context `{LK : Linker} {KS : Ksyms} {KD : KData} {W : Wakes} {St : Type} {BO : BlockOps St}.
Abbreviation T := (M (machine St)).

(** What [virtio_disk_intr] does to the kernel (file Virtio). *)
Variable virtio_disk_intr : K St unit.

Definition set_kern (k : kernel St) (m : machine St) : machine St :=
  Machine (m_hart m) (m_claims m) (m_served m) (m_idle m) (m_input m) k.
Definition on_kern {A} (m : K St A) : T A := zoom m_kern set_kern m.
Definition the_hart {A} (f : hart -> A) : T A := gets (fun m => f (m_hart m)).
Definition mod_hart (f : hart -> hart) : T unit :=
  modify (fun m => Machine (f (m_hart m)) (m_claims m) (m_served m) (m_idle m) (m_input m) (m_kern m)).

(** ** kernel/plic.c *)

Definition plic_claim : T Z := fun c m =>
  Ok (default 0 (head (m_claims m))) c
     (Machine (m_hart m) (tail (m_claims m)) (m_served m) (m_idle m) (m_input m) (m_kern m)).
Definition plic_complete (irq : Z) : T unit :=
  modify (fun m => Machine (m_hart m) (m_claims m) (m_served m ++ [irq]) (m_idle m) (m_input m) (m_kern m)).

(** ** Interrupts *)

(** [uartintr] with the registers of this machine; the input is consumed. *)
Definition uart_interrupt : T unit :=
  idle ← gets m_idle;
  input ← gets m_input;
  modify (fun m => Machine (m_hart m) (m_claims m) (m_served m) (m_idle m) [] (m_kern m));;
  on_kern (uartintr idle input).

Definition clockintr : T unit :=
  id ← the_hart tp;
  (if id =? 0 then
     on_kern (acquire LTicks;;
              modify (fun k => set_ticks (u32 (ticks k + 1)) k);;
              wakeup ChTicks;;
              release LTicks)
   else mret tt);;
  mod_hart (fun h => w_stimecmp (u64 (rtime h + 1000000)) h).

Definition devintr : T Z :=
  cause ← the_hart scause;
  if cause =? scause_external then
    irq ← plic_claim;
    (if irq =? UART0_IRQ then uart_interrupt
     else if irq =? VIRTIO0_IRQ then on_kern virtio_disk_intr
     else if negb (irq =? 0) then kprintf "unexpected interrupt irq=%d"
     else mret tt);;
    (if negb (irq =? 0) then plic_complete irq else mret tt);;
    mret 1
  else if cause =? scause_timer then
    clockintr;;
    mret 2
  else mret 0.

(** ** Traps from user space *)

Definition prepare_return : T unit :=
  p ← on_kern myproc;
  mod_hart intr_off;;
  mod_hart (w_stvec (TRAMPOLINE + (sym_uservec - trampoline)));;
  pp ← on_kern (the_proc p Datatypes.id);
  let tf := p_trapframe pp in
  h ← the_hart Datatypes.id;
  on_kern (on_pm (store64 (tf + TF_kernel_satp) (satp h)));;
  on_kern (on_pm (store64 (tf + TF_kernel_sp) (u64 (p_kstack pp + PGSIZE))));;
  on_kern (on_pm (store64 (tf + TF_kernel_trap) sym_usertrap));;
  on_kern (on_pm (store64 (tf + TF_kernel_hartid) (tp h)));;
  mod_hart (fun h => w_sstatus (Z.lor (Z.land (sstatus h) (Z.lnot SSTATUS_SPP)) SSTATUS_SPIE) h);;
  epc ← on_kern (on_pm (load64 (tf + TF_epc)));
  mod_hart (w_sepc epc).

Definition usertrap : T Z :=
  h ← the_hart Datatypes.id;
  if flag (sstatus h) SSTATUS_SPP then panic "usertrap: not from user mode"
  else
    mod_hart (w_stvec sym_kernelvec);;
    p ← on_kern myproc;
    on_kern (tf_store TF_epc (sepc h));;
    which_dev ←
      (if scause h =? scause_syscall then
         k ← on_kern (killed p);
         (if k : bool then on_kern (kexit (-1)) else mret tt);;
         epc ← on_kern (tf_load TF_epc);
         on_kern (tf_store TF_epc (epc + 4));;
         mod_hart intr_on;;
         on_kern syscall;;
         mret 0
       else
         which_dev ← devintr;
         if negb (which_dev =? 0) then mret which_dev
         else
           pp ← on_kern (the_proc p Datatypes.id);
           r ← (if (scause h =? scause_store_fault) || (scause h =? scause_load_fault)
                then on_kern (on_pm (vmfault (p_sz pp) (p_pagetable pp) (stval h) (scause h =? scause_load_fault)))
                else mret 0);
           if negb (r =? 0) then mret 0
           else
             kprintf "usertrap(): unexpected scause";;
             kprintf "            sepc stval";;
             on_kern (setkilled p);;
             mret 0);
    k ← on_kern (killed p);
    (if k : bool then on_kern (kexit (-1)) else mret tt);;
    (if which_dev =? 2 then on_kern yield else mret tt);;
    prepare_return;;
    pt ← on_kern (the_proc p p_pagetable);
    mret (MAKE_SATP pt).

(** ** Traps from the kernel; [running] says whether a process is. *)

Definition kerneltrap (running : bool) : T unit :=
  h ← the_hart Datatypes.id;
  if negb (flag (sstatus h) SSTATUS_SPP) then panic "kerneltrap: not from supervisor mode"
  else if intr_get h then panic "kerneltrap: interrupts enabled"
  else
    which_dev ← devintr;
    if which_dev =? 0 then panic "kerneltrap"
    else
      (if (which_dev =? 2) && running then on_kern yield else mret tt);;
      mod_hart (w_sepc (sepc h));;
      mod_hart (w_sstatus (sstatus h)).

(** ** The first return of a process to user space

    [init_str] is the address of the string ["/init"] in the kernel. *)
Definition init_path : list Z := [47; 105; 110; 105; 116].

Definition forkret (init_str : Z) : T Z :=
  p ← on_kern myproc;
  on_kern (release (LProc p));;
  first ← on_kern (gets kfirst);
  (if first : bool then
     on_kern (fsinit ROOTDEV);;
     on_kern (modify (set_kfirst false));;
     r ← on_kern (kexec init_path [init_str]);
     on_kern (tf_store TF_a0 r);;
     a0 ← on_kern (tf_load TF_a0);
     if a0 =? u64 (-1) then panic "exec" else mret tt
   else mret tt);;
  prepare_return;;
  pt ← on_kern (the_proc p p_pagetable);
  mret (MAKE_SATP pt).
End trap.
