(* ===== verification/Boot.v ===== *)
(** * Boot: kernel/start.c, kernel/main.c and the control registers of
    kernel/riscv.h

    Each hart enters [start] in machine mode, sets up its control registers and
    drops to [main] in supervisor mode. Hart 0 initialises the kernel; the
    others wait for [started] and then turn on paging, traps and interrupts for
    themselves. The harts are interleaved call by call; what an initialiser
    does to its own component is in the file of that component, and here are
    its effects on the control registers, the interrupt controller, the UART
    and the device switch. *)

From S2P Require Import Prelude Riscv Headers.

(** ** Control registers *)

Inductive csr :=
| mhartid | mstatus | mepc | sstatus | sie | mie | medeleg | mideleg | stvec | stimecmp | menvcfg | pmpcfg0 | pmpaddr0
| satp | mcounteren | time | tp.
#[export] Instance csr_eq_dec : EqDecision csr.
Proof. solve_decision. Defined.

(** The privilege modes, and the registers of a hart with its program counter. *)
Inductive privilege := User_mode | Supervisor | Machine.
Record hart := Hart { reg : csr -> Z; mode : privilege; pc : Z }.
Definition rd (r : csr) (h : hart) : Z := reg h r.
Definition wr (r : csr) (v : Z) (h : hart) : hart := Hart (fun r' => if decide (r' = r) then v else reg h r') (mode h) (pc h).

Definition r_mhartid : hart -> Z := rd mhartid.
Definition r_mstatus : hart -> Z := rd mstatus.
Definition w_mstatus : Z -> hart -> hart := wr mstatus.
Definition w_mepc : Z -> hart -> hart := wr mepc.
Definition r_sstatus : hart -> Z := rd sstatus.
Definition w_sstatus : Z -> hart -> hart := wr sstatus.
Definition r_sie : hart -> Z := rd sie.
Definition w_sie : Z -> hart -> hart := wr sie.
Definition r_mie : hart -> Z := rd mie.
Definition w_mie : Z -> hart -> hart := wr mie.
Definition w_medeleg : Z -> hart -> hart := wr medeleg.
Definition w_mideleg : Z -> hart -> hart := wr mideleg.
Definition w_stvec : Z -> hart -> hart := wr stvec.
Definition w_stimecmp : Z -> hart -> hart := wr stimecmp.
Definition r_menvcfg : hart -> Z := rd menvcfg.
Definition w_menvcfg : Z -> hart -> hart := wr menvcfg.
Definition w_pmpcfg0 : Z -> hart -> hart := wr pmpcfg0.
Definition w_pmpaddr0 : Z -> hart -> hart := wr pmpaddr0.
Definition w_satp : Z -> hart -> hart := wr satp.
Definition w_mcounteren : Z -> hart -> hart := wr mcounteren.
Definition r_mcounteren : hart -> Z := rd mcounteren.
Definition r_time : hart -> Z := rd time.
Definition r_tp : hart -> Z := rd tp.
Definition w_tp : Z -> hart -> hart := wr tp.

Definition intr_on (h : hart) : hart := w_sstatus (Z.lor (r_sstatus h) SSTATUS_SIE) h.
Definition intr_off (h : hart) : hart := w_sstatus (Z.land (r_sstatus h) (Z.lnot SSTATUS_SIE)) h.
Definition intr_get (h : hart) : bool := negb (Z.land (r_sstatus h) SSTATUS_SIE =? 0).

Definition MSTATUS_MPP_MASK : Z := Z.shiftl 3 11.
Definition MSTATUS_MPP_S : Z := Z.shiftl 1 11.
Definition SIE_SEIE : Z := Z.shiftl 1 9.
Definition SIE_STIE : Z := Z.shiftl 1 5.
Definition MIE_STIE : Z := Z.shiftl 1 5.

(** [mret]: to the mode in MPP, at [mepc]; the rest of the register is as the
    architecture leaves it. *)
Definition mret_ (h : hart) : hart :=
  let m := Z.shiftr (Z.land (r_mstatus h) MSTATUS_MPP_MASK) 11 in
  Hart (reg h) (if m =? 0 then User_mode else if m =? 1 then Supervisor else Machine) (rd mepc h).

(** ** start.c *)

Definition timerinit (h : hart) : hart :=
  let h := w_mie (Z.lor (r_mie h) MIE_STIE) h in
  let h := w_menvcfg (Z.lor (r_menvcfg h) (Z.shiftl 1 63)) h in
  let h := w_mcounteren (Z.lor (r_mcounteren h) 2) h in
  w_stimecmp (u64 (r_time h + 1000000)) h.

(** [main] is the address of the function. *)
Definition start (main : Z) (h : hart) : hart :=
  let x := r_mstatus h in
  let x := Z.land x (Z.lnot MSTATUS_MPP_MASK) in
  let x := Z.lor x MSTATUS_MPP_S in
  let h := w_mstatus x h in
  let h := w_mepc main h in
  let h := w_satp 0 h in
  let h := w_medeleg 0xffff h in
  let h := w_mideleg 0xffff h in
  let h := w_sie (Z.lor (Z.lor (r_sie h) SIE_SEIE) SIE_STIE) h in
  let h := w_pmpaddr0 0x3fffffffffffff h in
  let h := w_pmpcfg0 0xf h in
  let h := timerinit h in
  let id := i32 (r_mhartid h) in
  let h := w_tp id h in
  mret_ h.

(** ** Initialisers *)

Inductive init :=
| consoleinit | printfinit | kinit | kvminit | kvminithart | procinit | trapinit | trapinithart | plicinit | plicinithart
| binit | iinit | fileinit | virtio_disk_init | userinit.

#[export] Instance init_eq_dec : EqDecision init.
Proof. solve_decision. Defined.

Definition PLIC_SENABLE (hart : Z) : Z := PLIC + 0x2080 + hart * 0x100.
Definition PLIC_SPRIORITY (hart : Z) : Z := PLIC + 0x201000 + hart * 0x2000.

(** Shared state: the variable [kernel_pagetable], [started], the registers of
    the interrupt controller, the bytes written to the UART's registers, the
    device switch (which majors have functions), the initialisers that have run,
    the latest first, and the harts. *)
Inductive place := AtMain (rest : list init) | Waiting | Scheduling.
Record boot := Boot {
  kernel_pagetable : Z;
  started : bool;
  plic : gmap Z Z;
  uart : list (Z * Z);
  devsw : gset Z;
  ran : list init;
  harts : gmap Z (hart * place);
}.

Definition plicinit_writes (p : gmap Z Z) : gmap Z Z :=
  <[PLIC + VIRTIO0_IRQ * 4 := 1]> (<[PLIC + UART0_IRQ * 4 := 1]> p).
Definition plicinithart_writes (id : Z) (p : gmap Z Z) : gmap Z Z :=
  let p := <[PLIC_SENABLE id := Z.lor (Z.shiftl 1 UART0_IRQ) (Z.shiftl 1 VIRTIO0_IRQ)]> p in
  <[PLIC_SPRIORITY id := 0]> p.

(** [uartinit]: registers and the values written. *)
Definition uartinit_writes : list (Z * Z) :=
  let IER := 1 in let FCR := 2 in let LCR := 3 in
  [(IER, 0x00); (LCR, Z.shiftl 1 7); (0, 0x03); (1, 0x00); (LCR, Z.shiftl 3 0);
   (FCR, Z.lor (Z.shiftl 1 0) (Z.shiftl 3 1)); (IER, Z.lor (Z.shiftl 1 1) (Z.shiftl 1 0))].

Section main.
(** What [kvmmake] returns and the address of [kernelvec]. *)
Context (root kernelvec : Z).

(** An initialiser run by a hart: the registers of the hart, and the rest. *)
Definition do_init (i : init) (h : hart) (b : boot) : hart * boot :=
  let b := Boot (kernel_pagetable b) (started b) (plic b) (uart b) (devsw b) (i :: ran b) (harts b) in
  match i with
  | consoleinit =>
      (h, Boot (kernel_pagetable b) (started b) (plic b) (uart b ++ uartinit_writes) ({[CONSOLE]} ∪ devsw b) (ran b) (harts b))
  | kvminit => (h, Boot root (started b) (plic b) (uart b) (devsw b) (ran b) (harts b))
  | kvminithart => (w_satp (MAKE_SATP (kernel_pagetable b)) h, b)
  | trapinithart => (w_stvec kernelvec h, b)
  | plicinit => (h, Boot (kernel_pagetable b) (started b) (plicinit_writes (plic b)) (uart b) (devsw b) (ran b) (harts b))
  | plicinithart =>
      (h, Boot (kernel_pagetable b) (started b) (plicinithart_writes (r_tp h) (plic b)) (uart b) (devsw b) (ran b) (harts b))
  | _ => (h, b)
  end.

(** The calls of [main], on hart 0 and on the others. *)
Definition main0 : list init :=
  [consoleinit; printfinit; kinit; kvminit; kvminithart; procinit; trapinit; trapinithart; plicinit; plicinithart;
   binit; iinit; fileinit; virtio_disk_init; userinit].
Definition mainN : list init := [kvminithart; trapinithart; plicinithart].

Definition set_hart (id : Z) (h : hart) (p : place) (b : boot) : boot :=
  Boot (kernel_pagetable b) (started b) (plic b) (uart b) (devsw b) (ran b) (<[id := (h, p)]> (harts b)).
Definition set_started (b : boot) : boot :=
  Boot (kernel_pagetable b) true (plic b) (uart b) (devsw b) (ran b) (harts b).

(** A step of one hart, which [cpuid] tells from its [tp]. *)
Inductive step : boot -> boot -> Prop :=
| step_init b id h i rest h' b' :
    harts b !! id = Some (h, AtMain (i :: rest)) -> do_init i h b = (h', b') ->
    step b (set_hart id h' (AtMain rest) b')
| step_publish b id h :
    harts b !! id = Some (h, AtMain []) -> r_tp h = 0 ->
    step b (set_hart id h Scheduling (set_started b))
| step_started b id h :
    harts b !! id = Some (h, Waiting) -> started b = true ->
    step b (set_hart id h (AtMain mainN) b)
| step_scheduler b id h :
    harts b !! id = Some (h, AtMain []) -> r_tp h <> 0 ->
    step b (set_hart id h Scheduling b).

(** Power on: every hart through [start]. *)
Definition boot0 (main : Z) (hs : gmap Z hart) (p : gmap Z Z) : boot :=
  Boot 0 false p [] ∅ []
    ((fun h => let h := start main h in (h, if r_tp h =? 0 then AtMain main0 else Waiting)) <$> hs).

(** ** What the harts have done *)

Definition script (id : Z) : list init := if id =? 0 then main0 else mainN.
Definition progress (id : Z) (p : place) (did : list init) : Prop :=
  match p with
  | AtMain rest => script id = did ++ rest
  | Waiting => did = [] /\ id <> 0
  | Scheduling => did = script id
  end.

(** The registers a hart has set up. *)
Record hart_ok (b : boot) (id : Z) (h : hart) (did : list init) : Prop := {
  ho_id : r_tp h = id /\ 0 <= id < NCPU;
  ho_mode : mode h = Supervisor;
  ho_satp : kvminithart ∈ did -> rd satp h = MAKE_SATP root;
  ho_stvec : trapinithart ∈ did -> rd stvec h = kernelvec;
  ho_plic : plicinithart ∈ did -> plic b !! PLIC_SENABLE id = Some 0x402 /\ plic b !! PLIC_SPRIORITY id = Some 0 }.

Record boot_ok (b : boot) : Prop := {
  bo_harts : forall id h p, harts b !! id = Some (h, p) -> exists did, progress id p did /\ hart_ok b id h did /\
    (id = 0 -> forall i, i ∈ did -> i ∈ ran b) /\ (id <> 0 -> p <> Waiting -> started b = true);
  bo_kpt : kvminit ∈ ran b -> kernel_pagetable b = root;
  bo_started : started b = true -> forall i, i ∈ main0 -> i ∈ ran b }.

Lemma kvminit_first did rest : main0 = did ++ kvminithart :: rest -> kvminit ∈ did.
Proof.
  intros H. assert (main0 !! length did = Some kvminithart) as Hn by (rewrite H; by apply list_lookup_middle).
  assert (did = take (length did) main0) as -> by (rewrite H; by rewrite take_app_length). revert Hn. generalize (length did). clear.
  intros n Hn. do 15 (destruct n as [|n]; [try done; vm_compute; repeat constructor|]). done.
Qed.

Lemma plic_distinct id id' : 0 <= id < NCPU -> 0 <= id' < NCPU ->
  PLIC_SENABLE id <> PLIC_SPRIORITY id' /\ (id <> id' -> PLIC_SENABLE id <> PLIC_SENABLE id' /\ PLIC_SPRIORITY id <> PLIC_SPRIORITY id') /\
  PLIC_SENABLE id > PLIC + 64 /\ PLIC_SPRIORITY id > PLIC + 64.
Proof. unfold PLIC_SENABLE, PLIC_SPRIORITY, NCPU. lia. Qed.

(** What one initialiser leaves alone. *)
Lemma do_init_frame i h b h' b' : do_init i h b = (h', b') ->
  harts b' = harts b /\ ran b' = i :: ran b /\ started b' = started b /\ mode h' = mode h /\ r_tp h' = r_tp h /\
  (kernel_pagetable b' = kernel_pagetable b \/ i = kvminit) /\ (i = kvminit -> kernel_pagetable b' = root) /\
  rd satp h' = (if decide (i = kvminithart) then MAKE_SATP (kernel_pagetable b) else rd satp h) /\
  rd stvec h' = (if decide (i = trapinithart) then kernelvec else rd stvec h).
Proof. intros H. destruct i; injection H as <- <-; split_and!; first [done | by left | by right]. Qed.

Lemma do_init_plic i h b h' b' id : do_init i h b = (h', b') -> 0 <= r_tp h < NCPU -> 0 <= id < NCPU ->
  (plic b' !! PLIC_SENABLE id = (if decide (i = plicinithart /\ r_tp h = id) then Some 0x402 else plic b !! PLIC_SENABLE id)) /\
  (plic b' !! PLIC_SPRIORITY id = (if decide (i = plicinithart /\ r_tp h = id) then Some 0 else plic b !! PLIC_SPRIORITY id)).
Proof.
  intros H Ht Hid. destruct (plic_distinct id (r_tp h) Hid Ht) as (H1 & H2 & H3 & H4). destruct (plic_distinct (r_tp h) id Ht Hid) as (H5 & _ & _ & _).
  destruct i; injection H as <- <-; cbn [plic]; try (rewrite !decide_False by (intros [? ?]; done); done).
  - rewrite !decide_False by (intros [? ?]; done). unfold plicinit_writes. rewrite !lookup_insert_ne by (unfold UART0_IRQ, VIRTIO0_IRQ; lia). done.
  - unfold plicinithart_writes. destruct (decide (r_tp h = id)) as [<-|Hne].
    + rewrite !decide_True by done. rewrite lookup_insert_ne, !lookup_insert_eq by done. done.
    + rewrite !decide_False by (intros [? ?]; done). destruct (H2 ltac:(done)). rewrite !lookup_insert_ne by done. done.
Qed.

(** A hart that has not moved stays in order while another runs an
    initialiser. *)
Lemma hart_ok_other i h b h' b' id g did : do_init i h b = (h', b') -> 0 <= r_tp h < NCPU -> r_tp h <> id -> hart_ok b id g did -> hart_ok b' id g did.
Proof.
  intros H Ht Hne [[Hid Hb] Hm Hs Hv Hp]. constructor; try done. intros Hin. destruct (do_init_plic _ _ _ _ _ id H Ht Hb) as [-> ->].
  rewrite !decide_False by (intros [_ ?]; done). by apply Hp.
Qed.

(** The hart that runs it has done one more. *)
Lemma hart_ok_self i h b h' b' id did : do_init i h b = (h', b') -> hart_ok b id h did ->
  (i = kvminithart -> kernel_pagetable b = root) -> hart_ok b' id h' (did ++ [i]).
Proof.
  intros H [[Hid Hb] Hm Hs Hv Hp] Hk. destruct (do_init_frame _ _ _ _ _ H) as (_ & _ & _ & Em & Et & _ & _ & Es & Ev).
  destruct (do_init_plic _ _ _ _ _ id H ltac:(by rewrite Hid) Hb) as [E1 E2].
  constructor; [by rewrite Et|by rewrite Em|..]; intros Hin; apply elem_of_app in Hin as [Hin|<-%list_elem_of_singleton].
  - rewrite Es. destruct (decide (i = kvminithart)); [f_equal; by apply Hk|by apply Hs].
  - rewrite Es, decide_True by done. f_equal; by apply Hk.
  - rewrite Ev. destruct (decide (i = trapinithart)); [done|by apply Hv].
  - by rewrite Ev, decide_True.
  - rewrite E1, E2. destruct (decide (i = plicinithart /\ r_tp h = id)); [done|by apply Hp].
  - rewrite E1, E2, !decide_True by done. done.
Qed.

Lemma hart_ok_set b id h p j g did : hart_ok b j g did -> hart_ok (set_hart id h p b) j g did.
Proof. by intros []. Qed.
Lemma hart_ok_started b j g did : hart_ok b j g did -> hart_ok (set_started b) j g did.
Proof. by intros []. Qed.

Lemma boot_ok_init b id h i rest h' b' : boot_ok b -> harts b !! id = Some (h, AtMain (i :: rest)) -> do_init i h b = (h', b') ->
  boot_ok (set_hart id h' (AtMain rest) b').
Proof.
  intros [Hh Hk Hst] Hid H. destruct (do_init_frame _ _ _ _ _ H) as (Eh & Er & Est & _ & _ & Ek & Ek' & _).
  destruct (Hh id h _ Hid) as (did & Hp & Hok & Hran & Hw). cbn in Hp. pose proof (ho_id _ _ _ _ Hok) as [Htp Hb].
  assert (i = kvminithart -> kernel_pagetable b = root) as Hroot.
  { intros ->. apply Hk. destruct (decide (id = 0)) as [->|Hne].
    - apply Hran; [done|]. eapply kvminit_first. exact Hp.
    - apply Hst; [by apply Hw|]. repeat constructor. }
  constructor; cbn [harts set_hart ran kernel_pagetable started].
  - intros j g p. rewrite Eh, lookup_insert_Some. intros [[<- [= <- <-]]|[Hne Hj]].
    + exists (did ++ [i]). split_and!; [cbn; by rewrite <- app_assoc|apply hart_ok_set; by eapply hart_ok_self| |].
      * intros Hz k. rewrite Er. intros [Hin| ->%list_elem_of_singleton]%elem_of_app; [right; by apply Hran|left].
      * intros Hz _. rewrite Est. by apply Hw.
    + destruct (Hh j g p Hj) as (did' & Hp' & Hok' & Hran' & Hw'). exists did'. split_and!; [done| | |].
      * apply hart_ok_set. eapply hart_ok_other; [exact H|by rewrite Htp|by rewrite Htp|done].
      * intros Hz k Hin. rewrite Er. right. by apply Hran'.
      * rewrite Est. exact Hw'.
  - rewrite Er. intros [<-|Hin]%elem_of_cons; [by apply Ek'|]. destruct Ek as [-> | ->]; [by apply Hk|by apply Ek'].
  - rewrite Est, Er. intros Hs k Hin. right. by apply Hst.
Qed.

Lemma boot_ok_step b b' : boot_ok b -> step b b' -> boot_ok b'.
Proof.
  intros Hok Hs. destruct Hs as [b id h i rest h' b' Hid H|b id h Hid Ht|b id h Hid Hst|b id h Hid Ht]; [by eapply boot_ok_init|..];
    destruct (bo_harts _ Hok id h _ Hid) as (did & Hp & Hho & Hran & Hw); cbn [progress] in Hp; pose proof (ho_id _ _ _ _ Hho) as [Htp Hb]; destruct Hok as [Hh Hk Hst'].
  - assert (id = 0) as -> by congruence. constructor; cbn [harts set_hart set_started ran kernel_pagetable started].
    + intros j g p [[<- [= <- <-]]|[Hne Hj]]%lookup_insert_Some.
      * exists did. split_and!; [cbn [progress]; by rewrite Hp, app_nil_r|by apply hart_ok_set, hart_ok_started|done|done].
      * destruct (Hh j g p Hj) as (did' & ? & ? & ? & ?). exists did'. split_and!; [done|by apply hart_ok_set, hart_ok_started|done|done].
    + done.
    + intros _ i Hi. apply Hran; [done|]. rewrite app_nil_r in Hp. by rewrite <- Hp.
  - constructor; cbn [harts set_hart ran kernel_pagetable started]; [|done..].
    intros j g p [[<- [= <- <-]]|[Hne Hj]]%lookup_insert_Some; [|destruct (Hh j g p Hj) as (did' & ? & ? & ? & ?); exists did'; split_and!; try done; by apply hart_ok_set].
    destruct Hp as [-> Hne]. exists []. split_and!; [cbn; unfold script; by rewrite (proj2 (Z.eqb_neq id 0))|by apply hart_ok_set|done|done].
  - constructor; cbn [harts set_hart ran kernel_pagetable started]; [|done..].
    intros j g p [[<- [= <- <-]]|[Hne Hj]]%lookup_insert_Some; [|destruct (Hh j g p Hj) as (did' & ? & ? & ? & ?); exists did'; split_and!; try done; by apply hart_ok_set].
    exists did. split_and!; [cbn [progress]; by rewrite Hp, app_nil_r|by apply hart_ok_set|done|]. intros Hz _. by apply Hw.
Qed.

(** What [start] leaves in the registers. *)
Lemma start_regs main h : let h' := start main h in
  mode h' = Supervisor /\ pc h' = main /\ rd satp h' = 0 /\ rd medeleg h' = 0xffff /\ rd mideleg h' = 0xffff /\
  r_tp h' = i32 (rd mhartid h) /\ rd stimecmp h' = u64 (rd time h + 1000000) /\
  Z.testbit (rd sie h') 9 = true /\ Z.testbit (rd sie h') 5 = true /\ Z.testbit (rd mie h') 5 = true.
Proof.
  cbv zeta. split_and!; try done.
  - set (m := Z.shiftr (Z.land (Z.lor (Z.land (reg h mstatus) (Z.lnot MSTATUS_MPP_MASK)) MSTATUS_MPP_S) MSTATUS_MPP_MASK) 11).
    change ((if m =? 0 then User_mode else if m =? 1 then Supervisor else Machine) = Supervisor). assert (m = 1) as ->; [unfold m|done].
    apply Z.bits_inj'. intros n Hn. rewrite Z.shiftr_spec, Z.land_spec, Z.lor_spec, Z.land_spec, Z.lnot_spec by lia.
    change MSTATUS_MPP_MASK with (Z.shiftl (Z.ones 2) 11). change MSTATUS_MPP_S with (Z.shiftl 1 11). rewrite !Z.shiftl_spec by lia.
    replace (n + 11 - 11) with n by lia. destruct (decide (n < 2)).
    + rewrite Z.ones_spec_low by lia. cbn [negb]. rewrite andb_false_r, andb_true_r. done.
    + rewrite Z.ones_spec_high by lia. rewrite andb_false_r. symmetry. apply Z.bits_above_log2; [lia|cbn; lia].
  - change (Z.testbit (Z.lor (Z.lor (rd sie h) SIE_SEIE) SIE_STIE) 9 = true). rewrite !Z.lor_spec. change (Z.testbit SIE_SEIE 9) with true. by rewrite orb_true_r.
  - change (Z.testbit (Z.lor (Z.lor (rd sie h) SIE_SEIE) SIE_STIE) 5 = true). rewrite !Z.lor_spec. change (Z.testbit SIE_STIE 5) with true. by rewrite orb_true_r.
  - change (Z.testbit (Z.lor (rd mie h) MIE_STIE) 5 = true). rewrite !Z.lor_spec. change (Z.testbit MIE_STIE 5) with true. by rewrite orb_true_r.
Qed.

Lemma boot0_ok main hs p : (forall id h, hs !! id = Some h -> rd mhartid h = id /\ 0 <= id < NCPU) -> boot_ok (boot0 main hs p).
Proof.
  intros Hhs. constructor; cbn [boot0 harts started ran kernel_pagetable]; [|by intros []%not_elem_of_nil|done].
  intros id h q. rewrite lookup_fmap_Some. intros (h0 & [= <- <-] & Hid). destruct (Hhs id h0 Hid) as [Em Hb].
  destruct (start_regs main h0) as (Hmode & _ & _ & _ & _ & Htp & _).
  assert (r_tp (start main h0) = id) as Et by (rewrite Htp, Em; unfold i32, NCPU in *; rewrite Z.mod_small; lia).
  exists []. rewrite Htp in Et. change (i32 (reg h0 mhartid) = id) in Et. rewrite Et. split_and!.
  - unfold progress, script. destruct (Z.eqb_spec id 0); [done|by split].
  - constructor; try (by intros []%not_elem_of_nil); [|done]. by rewrite Htp.
  - by intros _ i []%not_elem_of_nil.
  - intros Hne. by rewrite (proj2 (Z.eqb_neq id 0)).
Qed.

(** C26: no hart schedules processes before the kernel is set up. Whatever the
    order in which the harts run, and whatever their registers held at power
    on, a hart that has reached the scheduler is in supervisor mode with the
    kernel page table in satp (never the null pointer that kernel_pagetable
    holds before kvminit), kernelvec as its trap vector and its own UART and
    disk interrupts enabled, and every initialiser of hart 0 has run. *)
Theorem boot_ready main hs p b id h : (forall id h, hs !! id = Some h -> rd mhartid h = id /\ 0 <= id < NCPU) ->
  rtc step (boot0 main hs p) b -> harts b !! id = Some (h, Scheduling) ->
  mode h = Supervisor /\ rd satp h = MAKE_SATP root /\ rd stvec h = kernelvec /\
  plic b !! PLIC_SENABLE id = Some (2 ^ UART0_IRQ + 2 ^ VIRTIO0_IRQ) /\ plic b !! PLIC_SPRIORITY id = Some 0 /\
  forall i, i ∈ main0 -> i ∈ ran b.
Proof.
  intros Hhs Hsteps Hid. assert (boot_ok b) as Hok.
  { pose proof (boot0_ok main hs p Hhs) as H0. induction Hsteps as [|x y z Hxy _ IH]; [done|]. apply IH; [done|]. by eapply boot_ok_step. }
  destruct (bo_harts _ Hok id h _ Hid) as (did & Hdid & [Htp Hmode Hsatp Hstvec Hplic] & Hran & Hst). cbn [progress] in Hdid. subst did.
  assert (kvminithart ∈ script id /\ trapinithart ∈ script id /\ plicinithart ∈ script id) as (H1 & H2 & H3).
  { unfold script. destruct (id =? 0); split_and!; vm_compute; repeat constructor. }
  destruct (Hplic H3) as [Hp1 Hp2]. split_and!; [done|exact (Hsatp H1)|exact (Hstvec H2)|exact Hp1|exact Hp2|].
  intros i Hi. destruct (decide (id = 0)) as [->|Hne]; [exact (Hran eq_refl i Hi)|]. apply (bo_started _ Hok); [|done]. by apply Hst.
Qed.
End main.

(** Left alone, a hart gets to the end of its calls. *)
Lemma init_steps root kernelvec id rest : forall b h, harts b !! id = Some (h, AtMain rest) ->
  exists b' h', rtc (step root kernelvec) b b' /\ harts b' !! id = Some (h', AtMain []) /\ r_tp h' = r_tp h.
Proof.
  induction rest as [|i rest IH]; intros b h Hid; [by exists b, h|].
  destruct (do_init root kernelvec i h b) as [h1 b1] eqn:E. pose proof (do_init_frame _ _ _ _ _ _ _ E) as (_ & _ & _ & _ & Et & _).
  destruct (IH (set_hart id h1 (AtMain rest) b1) h1) as (b' & h' & Hs & Hh & Ht); [cbn; by rewrite lookup_insert_eq|].
  exists b', h'. split_and!; [|done|by rewrite Ht]. eapply rtc_l; [|exact Hs]. by eapply step_init.
Qed.

Module Demo.
Definition h0 : hart := Hart (fun _ => 0) Machine 0.
Lemma boot_ready_witness : exists b h, rtc (step 0x87fff000 0x80005000) (boot0 0x80001000 {[ 0 := h0 ]} ∅) b /\
  harts b !! 0 = Some (h, Scheduling) /\ rd satp h = MAKE_SATP 0x87fff000.
Proof.
  destruct (init_steps 0x87fff000 0x80005000 0 main0 (boot0 0x80001000 {[ 0 := h0 ]} ∅) (start 0x80001000 h0)) as (b & h & Hs & Hh & Ht).
  { cbn [boot0 harts]. rewrite lookup_fmap, lookup_singleton_eq. reflexivity. }
  assert (rtc (step 0x87fff000 0x80005000) (boot0 0x80001000 {[ 0 := h0 ]} ∅) (set_hart 0 h Scheduling (set_started b))) as Hs'.
  { eapply rtc_r; [exact Hs|]. by apply step_publish; [|rewrite Ht]. }
  assert (harts (set_hart 0 h Scheduling (set_started b)) !! 0 = Some (h, Scheduling)) as Hh' by (cbn; by rewrite lookup_insert_eq).
  exists (set_hart 0 h Scheduling (set_started b)), h. split_and!; [done|done|].
  apply (boot_ready 0x87fff000 0x80005000 0x80001000 {[ 0 := h0 ]} ∅ _ 0 h) in Hs' as (_ & ? & _); [done| |done].
  intros id g [<- <-]%lookup_singleton_Some. split; [done|unfold NCPU; lia].
Defined.
End Demo.
