(* ===== verification/Grep.v ===== *)
(** * Searching: user/grep.c

    The pattern matcher, against a denotation of patterns, and the loop of
    [grep] over the blocks that [read] returns, against the list of matching
    lines. Strings are lists of bytes without their NUL. *)

From S2P Require Import Prelude.

Definition ch_caret : Z := 94.
Definition ch_dollar : Z := 36.
Definition ch_star : Z := 42.
Definition ch_dot : Z := 46.
Definition ch_nl : Z := 10.

(** ** The matcher *)

(** [matchstar(c, re, text)]; [m] is [matchhere] of the rest of the pattern. *)
Fixpoint matchstar (m : list Z -> bool) (c : Z) (text : list Z) : bool :=
  if m text then true
  else
    match text with
    | t :: text => if (t =? c) || (c =? ch_dot) then matchstar m c text else false
    | [] => false
    end.

Fixpoint matchhere (re : list Z) (text : list Z) : bool :=
  match re with
  | [] => true
  | c :: re1 =>
      let one :=
        if (c =? ch_dollar) && bool_decide (re1 = []) then bool_decide (text = [])
        else
          match text with
          | t :: text => if (c =? ch_dot) || (c =? t) then matchhere re1 text else false
          | [] => false
          end in
      match re1 with
      | s :: re2 => if s =? ch_star then matchstar (matchhere re2) c text else one
      | [] => one
      end
  end.

(** The [do] loop of [match]: every suffix of the text, the empty one included. *)
Fixpoint match_loop (re text : list Z) : bool :=
  if matchhere re text then true
  else
    match text with
    | _ :: text => match_loop re text
    | [] => false
    end.
Definition match_ (re text : list Z) : bool :=
  match re with
  | c :: re1 => if c =? ch_caret then matchhere re1 text else match_loop re text
  | [] => match_loop re text
  end.

(** ** The loop over the file *)

(** [strchr(p, '\n')]: the bytes before the newline and those after it; a NUL
    ends the search. *)
Fixpoint find_nl (p : list Z) : option (list Z * list Z) :=
  match p with
  | [] => None
  | c :: p =>
      if c =? 0 then None
      else if c =? ch_nl then Some ([], p)
      else (fun x => (c :: x.1, x.2)) <$> find_nl p
  end.

(** The inner loop: what is written, and the rest of the buffer. *)
Fixpoint grep_lines (fuel : nat) (pattern p : list Z) : option (list Z * list Z) :=
  match fuel with
  | O => None
  | S fuel =>
      match find_nl p with
      | Some (line, q) =>
          r ← grep_lines fuel pattern q;
          Some ((if match_ pattern line then line ++ [ch_nl] else []) ++ r.1, r.2)
      | None => Some ([], p)
      end
  end.

(** [sizeof(buf)] *)
Definition GREPBUF : nat := 1024.

(** [read] returns at least a byte and at most what is asked for, unless the
    file is at its end or nothing is asked for; [want] is how much it would
    return. *)
Definition chunk (want room : nat) (file : list Z) : list Z := take (Nat.min (Nat.max want 1) room) file.

(** The outer loop: [buf] holds the [m] bytes kept from before, [rd i] says
    what read number [i] would return. *)
Fixpoint grep_loop (fuel : nat) (pattern : list Z) (rd : nat -> nat) (i : nat) (buf file : list Z) : option (list Z) :=
  match fuel with
  | O => None
  | S fuel =>
      let new := chunk (rd i) (GREPBUF - length buf - 1) file in
      if bool_decide (new = []) then Some []
      else
        let buf := buf ++ new in
        r ← grep_lines (S (length buf)) pattern buf;
        out ← grep_loop fuel pattern rd (S i) r.2 (drop (length new) file);
        Some (r.1 ++ out)
  end.
Definition grep (pattern : list Z) (rd : nat -> nat) (file : list Z) : option (list Z) :=
  grep_loop (S (length file)) pattern rd 0 [] file.

(** ** What a pattern means *)

Inductive item := One (c : Z) | Star (c : Z) | End.

Fixpoint items (re : list Z) : list item :=
  match re with
  | [] => []
  | c :: re1 =>
      let one := if (c =? ch_dollar) && bool_decide (re1 = []) then [End] else One c :: items re1 in
      match re1 with
      | s :: re2 => if s =? ch_star then Star c :: items re2 else one
      | [] => one
      end
  end.

(** [sym c x]: character [c] of a pattern stands for byte [x]. *)
Definition sym (c x : Z) : Prop := c = ch_dot \/ c = x.

(** A pattern matches at the beginning of a text. *)
Inductive here : list item -> list Z -> Prop :=
| here_nil t : here [] t
| here_one c its x t : sym c x -> here its t -> here (One c :: its) (x :: t)
| here_star c its us t : Forall (sym c) us -> here its t -> here (Star c :: its) (us ++ t)
| here_end : here [End] [].

Lemma sym_eqb c x : (c =? ch_dot) || (c =? x) = true <-> sym c x.
Proof. unfold sym. rewrite orb_true_iff, !Z.eqb_eq. done. Qed.

Lemma matchstar_spec (m : list Z -> bool) (its : list item) c :
  (forall t, m t = true <-> here its t) -> forall t, matchstar m c t = true <-> here (Star c :: its) t.
Proof.
  intros Hm. induction t as [|x t IH]; cbn [matchstar].
  - destruct (m []) eqn:E.
    + split; [|done]. intros _. apply (here_star c its [] []); [done|]. by apply Hm.
    + split; [done|]. inversion 1 as [| |? ? us t' _ Ht Ee|]; subst. destruct us; [|done]. cbn in *; subst. apply Hm in Ht. congruence.
  - destruct (m (x :: t)) eqn:E.
    + split; [|done]. intros _. apply (here_star c its [] (x :: t)); [done|]. by apply Hm.
    + rewrite (orb_comm (x =? c)), (Z.eqb_sym x c).
      destruct ((c =? ch_dot) || (c =? x)) eqn:Es.
      * rewrite IH. apply sym_eqb in Es. split.
        -- inversion 1 as [| |? ? us t' Hus Ht Ee|]; subst. apply (here_star c its (x :: us) t'); [by constructor|done].
        -- inversion 1 as [| |? ? us t' Hus Ht Ee|]; subst. destruct us as [|u us]; cbn in *.
           ++ subst. apply Hm in Ht. congruence.
           ++ simplify_eq. apply Forall_cons in Hus as [_ Hus]. by constructor.
      * split; [done|]. inversion 1 as [| |? ? us t' Hus Ht Ee|]; subst. destruct us as [|u us]; cbn in *.
        -- subst. apply Hm in Ht. congruence.
        -- simplify_eq. apply Forall_cons in Hus as [Hu _]. apply sym_eqb in Hu. congruence.
Qed.

Lemma matchhere_run re : forall t, matchhere re t = true <-> here (items re) t.
Proof.
  induction re as [re IH] using (induction_ltof1 _ length). unfold ltof in IH. intros t.
  destruct re as [|c re1]; [split; [constructor|done]|].
  set (one_m := if (c =? ch_dollar) && bool_decide (re1 = []) then bool_decide (t = [])
        else match t with x :: t => if (c =? ch_dot) || (c =? x) then matchhere re1 t else false | [] => false end).
  set (one_i := if (c =? ch_dollar) && bool_decide (re1 = []) then [End] else One c :: items re1).
  assert (H1 : one_m = true <-> here one_i t).
  { unfold one_m, one_i. destruct (_ && _).
    - rewrite bool_decide_eq_true. split; [intros ->; constructor|by inversion 1].
    - destruct t as [|x t]; [split; [done|by inversion 1]|]. destruct (_ || _) eqn:E.
      + apply sym_eqb in E. rewrite IH by (cbn; lia). split; [by constructor|by inversion 1].
      + split; [done|]. inversion 1 as [|? ? ? ? Hs| |]; subst. apply sym_eqb in Hs. congruence. }
  cbn [matchhere items]. fold one_m one_i. destruct re1 as [|s re2]; [done|].
  destruct (s =? ch_star); [|done]. apply matchstar_spec. intros t'. apply IH. cbn. lia.
Qed.

Lemma match_loop_spec re t : match_loop re t = true <-> exists u v, t = u ++ v /\ here (items re) v.
Proof.
  induction t as [|x t IH]; cbn [match_loop].
  - destruct (matchhere re []) eqn:E.
    + split; [|done]. intros _. exists [], []. split; [done|]. by apply matchhere_run.
    + split; [done|]. intros (u & v & Hn & Hh). symmetry in Hn. apply app_nil in Hn as [-> ->]. apply matchhere_run in Hh. congruence.
  - destruct (matchhere re (x :: t)) eqn:E.
    + split; [|done]. intros _. exists [], (x :: t). split; [done|]. by apply matchhere_run.
    + rewrite IH. split.
      * intros (u & v & -> & Hh). by exists (x :: u), v.
      * intros (u & v & Hx & Hh). destruct u as [|y u]; cbn in Hx.
        -- subst v. apply matchhere_run in Hh. congruence.
        -- simplify_eq. by exists u, v.
Qed.

(** C37: [match] finds a pattern in a text exactly when the denotation of the
    pattern says so: at the start of the text for a pattern that begins with
    [^], and otherwise at the start of some suffix, where a dot stands for any
    byte, a starred character for any run of it, and a final [$] for the end
    of the text. *)
Theorem match_spec re t : match_ re t = true <->
  match re with
  | c :: re1 => if c =? ch_caret then here (items re1) t else exists u v, t = u ++ v /\ here (items re) v
  | [] => True
  end.
Proof.
  unfold match_. destruct re as [|c re1].
  - split; [done|]. intros _. by destruct t.
  - destruct (c =? ch_caret); [apply matchhere_run|apply match_loop_spec].
Qed.

(** ** The file as lines *)

Definition clean (l : list Z) : Prop := Forall (fun x => x <> 0 /\ x <> ch_nl) l.
Definition text_of (ls : list (list Z)) : list Z := mjoin ((fun l => l ++ [ch_nl]) <$> ls).
Definition matching (pattern : list Z) (ls : list (list Z)) : list Z := text_of (filter (fun l => match_ pattern l = true) ls).

Lemma text_of_cons l ls : text_of (l :: ls) = l ++ ch_nl :: text_of ls.
Proof. unfold text_of. cbn. by rewrite <- app_assoc. Qed.
Lemma text_of_app ls1 ls2 : text_of (ls1 ++ ls2) = text_of ls1 ++ text_of ls2.
Proof. unfold text_of. by rewrite fmap_app, join_app. Qed.
Lemma matching_app pattern ls1 ls2 : matching pattern (ls1 ++ ls2) = matching pattern ls1 ++ matching pattern ls2.
Proof. unfold matching. by rewrite filter_app, text_of_app. Qed.

Lemma matching_cons pattern l ls :
  matching pattern (l :: ls) = (if match_ pattern l then l ++ [ch_nl] else []) ++ matching pattern ls.
Proof.
  unfold matching. rewrite filter_cons. destruct (match_ pattern l); [rewrite decide_True by done|by rewrite decide_False].
  by rewrite text_of_cons, <- app_assoc.
Qed.

Lemma find_nl_line l q : clean l -> find_nl (l ++ ch_nl :: q) = Some (l, q).
Proof.
  induction 1 as [|x l [H0 H1] _ IH]; [done|]. cbn [app find_nl].
  rewrite IH. replace (x =? 0) with false by lia. by replace (x =? ch_nl) with false by (unfold ch_nl in *; lia).
Qed.
Lemma find_nl_none l : clean l -> find_nl l = None.
Proof.
  induction 1 as [|x l [H0 H1] _ IH]; [done|]. cbn [find_nl].
  rewrite IH. replace (x =? 0) with false by lia. by replace (x =? ch_nl) with false by (unfold ch_nl in *; lia).
Qed.

Lemma grep_lines_run pattern ls r : Forall clean ls -> clean r -> forall fuel, (length ls < fuel)%nat ->
  grep_lines fuel pattern (text_of ls ++ r) = Some (matching pattern ls, r).
Proof.
  intros Hls Hr. induction Hls as [|l ls Hl Hls IH]; intros fuel Hf; (destruct fuel as [|fuel]; [cbn in *; lia|]); cbn [grep_lines].
  - change (text_of [] ++ r) with r. by rewrite find_nl_none.
  - rewrite text_of_cons, <- app_assoc. cbn [app]. rewrite find_nl_line by done. cbn in Hf.
    rewrite IH by lia. unfold mbind, option_bind. cbn [fst snd]. by rewrite matching_cons.
Qed.

(** A prefix of a file ends inside a line or inside the unfinished last one. *)
Lemma prefix_lines (n : nat) tail : clean tail -> (length tail <= n)%nat ->
  forall ls p q, Forall clean ls -> Forall (fun l => length l <= n)%nat ls -> p ++ q = text_of ls ++ tail ->
  exists ls1 ls2 r, ls = ls1 ++ ls2 /\ p = text_of ls1 ++ r /\ r ++ q = text_of ls2 ++ tail /\ clean r /\ (length r <= n)%nat.
Proof.
  intros Ht Hn. induction ls as [|l ls IH]; intros p q Hc Hl Hp.
  - exists [], [], p. cbn in Hp. subst tail. apply Forall_app in Ht as [Ht _]. rewrite length_app in Hn. split_and!; try done. lia.
  - apply Forall_cons in Hc as [Hcl Hc]. apply Forall_cons in Hl as [Hll Hl]. rewrite text_of_cons, <- app_assoc in Hp. cbn [app] in Hp.
    apply app_eq_app in Hp as [x [[-> Hq]|[Hl' Hq]]].
    + destruct x as [|y x].
      * exists [], (l :: ls), l. rewrite app_nil_r, text_of_cons, <- app_assoc. cbn in *. split_and!; try done. by rewrite <- Hq.
      * cbn in Hq. injection Hq as <- Hq. destruct (IH x q Hc Hl (eq_sym Hq)) as (ls1 & ls2 & r & -> & -> & Hr & Hcr & Hlr).
        exists (l :: ls1), ls2, r. rewrite text_of_cons, <- app_assoc. done.
    + subst l. apply Forall_app in Hcl as [Hcl _]. rewrite length_app in Hll.
      exists [], ((p ++ x) :: ls), p. rewrite text_of_cons, <- !app_assoc. cbn. split_and!; try done; [|lia]. by rewrite Hq.
Qed.

Lemma text_of_clean ls r : clean r -> forall t, clean t -> r = text_of ls ++ t -> ls = [].
Proof.
  intros Hr t Ht E. destruct ls as [|l ls]; [done|]. exfalso. subst r. rewrite text_of_cons in Hr.
  unfold clean in Hr. rewrite !Forall_app, Forall_cons in Hr. naive_solver.
Qed.

Lemma length_text_of ls : (length ls <= length (text_of ls))%nat.
Proof. induction ls as [|l ls IH]; [done|]. rewrite text_of_cons, length_app. cbn. lia. Qed.

Lemma grep_loop_run pattern rd tail : clean tail -> (length tail <= GREPBUF - 2)%nat ->
  forall fuel i ls buf file, Forall clean ls -> Forall (fun l => length l <= GREPBUF - 2)%nat ls ->
    clean buf -> (length buf <= GREPBUF - 2)%nat -> buf ++ file = text_of ls ++ tail -> (length file < fuel)%nat ->
    grep_loop fuel pattern rd i buf file = Some (matching pattern ls).
Proof.
  intros Ht Htl. induction fuel as [|fuel IH]; intros i ls buf file Hc Hl Hb Hbl E Hf; [lia|].
  cbn [grep_loop]. cbv zeta. set (new := chunk (rd i) (GREPBUF - length buf - 1) file).
  assert (Hfile : file = new ++ drop (length new) file).
  { unfold new, chunk. set (k := Nat.min _ _). rewrite length_take. rewrite <- (take_drop k file) at 1.
    f_equal. destruct (decide (k <= length file)%nat).
    - by rewrite Nat.min_l by lia.
    - rewrite Nat.min_r by lia. by rewrite !drop_ge by lia. }
  case_bool_decide as En.
  - assert (file = []) as ->.
    { destruct file as [|x file]; [done|]. exfalso. unfold new, chunk in En. apply (f_equal length) in En.
      rewrite length_take in En. unfold GREPBUF in *. cbn [length] in En. lia. }
    rewrite app_nil_r in E. by rewrite (text_of_clean ls buf Hb tail Ht E).
  - rewrite Hfile, app_assoc in E.
    destruct (prefix_lines (GREPBUF - 2) tail Ht Htl ls (buf ++ new) (drop (length new) file) Hc Hl E)
      as (ls1 & ls2 & r & -> & Hp & Hr & Hcr & Hlr).
    apply Forall_app in Hc as [Hc1 Hc2]. apply Forall_app in Hl as [_ Hl2].
    rewrite Hp, grep_lines_run; [|done..|rewrite length_app; pose proof (length_text_of ls1); lia].
    unfold mbind, option_bind. cbn [fst snd]. rewrite (IH (S i) ls2); [by rewrite matching_app|done..|].
    rewrite Hfile, length_app in Hf. destruct new; [done|]. cbn in *. lia.
Qed.

(** [grep] writes exactly the lines that match, in order, whatever sizes
    the reads of the file return. The file is complete lines and a rest
    without a newline, no NUL bytes, and no line is longer than the buffer
    holds (1022 bytes and a newline). The rest is never searched, although it
    is a line of its own when the file does not end with a newline. *)
Theorem grep_spec pattern rd ls tail :
  Forall clean ls -> Forall (fun l => length l <= GREPBUF - 2)%nat ls -> clean tail -> (length tail <= GREPBUF - 2)%nat ->
  grep pattern rd (text_of ls ++ tail) = Some (matching pattern ls).
Proof.
  intros Hc Hl Ht Htl. apply (grep_loop_run pattern rd tail Ht Htl _ 0 ls []); try done; [constructor|cbn [length]; lia..].
Qed.

Module Demo.
(** Three lines and an unfinished fourth, of which the second and the fourth
    contain a "b", read one byte at a time. *)
Lemma grep_spec_witness : grep [98] (fun _ => 1%nat) [97; 10; 97; 98; 10; 99; 10; 98] = Some [97; 98; 10].
Proof.
  apply (grep_spec [98] (fun _ => 1%nat) [[97]; [97; 98]; [99]] [98]);
    repeat constructor; try (cbn; unfold GREPBUF; lia); discriminate.
Defined.
End Demo.
