(* ===== verification/Usys.v ===== *)
(** * User programs: user/usys.pl, user/user.h, user/ulib.c and the printing of
    user/printf.c

    A user program is the tree of its system calls: a call with what follows
    for each answer, the end of the process, or a value. The memory of the
    program is local to it and its functions are on byte strings, without
    their NUL; the functions of ulib.c that work in place are on byte memory.
    What the calls answer is up to an interpreter of the tree. *)

From S2P Require Import Prelude Riscv Headers Mem Printf.

(** ** System calls *)

Record ustat := UStat { ust_dev : Z; ust_ino : Z; ust_type : Z; ust_nlink : Z; ust_size : Z }.

(** The calls of user.h with the type of their answer: [wait] also answers the
    status, [read] the bytes, [pipe] the descriptors and [fstat] the structure,
    or nothing for -1. *)
Inductive sys : Type -> Type :=
| SFork : sys Z
| SWait : sys (Z * Z)
| SPipe : sys (option (Z * Z))
| SWrite (fd : Z) (bs : list Z) : sys Z
| SRead (fd n : Z) : sys (option (list Z))
| SClose (fd : Z) : sys Z
| SKill (pid : Z) : sys Z
| SExec (path : list Z) (argv : list (list Z)) : sys Z
| SOpen (path : list Z) (mode : Z) : sys Z
| SMknod (path : list Z) (major minor : Z) : sys Z
| SUnlink (path : list Z) : sys Z
| SFstat (fd : Z) : sys (option ustat)
| SLink (old new : list Z) : sys Z
| SMkdir (path : list Z) : sys Z
| SChdir (path : list Z) : sys Z
| SDup (fd : Z) : sys Z
| SGetpid : sys Z
| SSbrk (n type : Z) : sys Z
| SPause (n : Z) : sys Z
| SUptime : sys Z.

Inductive prog (A : Type) : Type :=
| Ret (a : A)
| Exit (status : Z)
| Call (B : Type) (c : sys B) (k : B -> prog A)
| OutOfFuel.
Arguments Ret {A}. Arguments Exit {A}. Arguments Call {A B}. Arguments OutOfFuel {A}.

Fixpoint pbind {A B} (f : A -> prog B) (p : prog A) : prog B :=
  match p with
  | Ret a => f a
  | Exit n => Exit n
  | Call c k => Call c (fun b => pbind f (k b))
  | OutOfFuel => OutOfFuel
  end.
#[export] Instance prog_ret : MRet prog := fun A => Ret.
#[export] Instance prog_bind : MBind prog := fun A B => pbind.

Definition call {B} (c : sys B) : prog B := Call c Ret.
Definition exit {A} (n : Z) : prog A := Exit n.

(** ** Printing *)

Definition putc (fd c : Z) : prog unit := _ ← call (SWrite fd [c]); mret ().
Fixpoint puts (fd : Z) (bs : list Z) : prog unit :=
  match bs with
  | [] => mret ()
  | b :: bs => putc fd b ≫= fun _ => puts fd bs
  end.

(** [fprintf]: the bytes of [vprintf], written one by one. *)
Definition fprintf (fd : Z) (fmt : list Z) (ap : list vararg) : prog unit :=
  match vprintf digits_upper fmt ap with
  | Some bs => puts fd bs
  | None => OutOfFuel
  end.
Definition uprintf (fmt : list Z) (ap : list vararg) : prog unit := fprintf 1 fmt ap.

(** ** ulib.c *)

(** [start] *)
Definition start (main : prog Z) : prog Z := r ← main; exit r.

Fixpoint strcpy (fuel : nat) (m : gmap Z Z) (s t : Z) : option (gmap Z Z) :=
  match fuel with
  | O => None
  | S fuel =>
      let c := ld8 m t in
      let m := st8 m s c in
      if c =? 0 then Some m else strcpy fuel m (s + 1) (t + 1)
  end.

(** Strings that end: a string is over where its list is. *)
Fixpoint strcmp (p q : list Z) : Z :=
  match p with
  | [] => 0 - default 0 (head q)
  | a :: p =>
      match q with
      | b :: q => if a =? b then strcmp p q else a - b
      | [] => a
      end
  end.

(** [memset(dst, c, n)] with its [int] counter. *)
Definition umemset (m : gmap Z Z) (dst c n : Z) : gmap Z Z := memset_loop m dst c 0 (Z.to_nat n).

Definition umemmove (m : gmap Z Z) (dst src n : Z) : gmap Z Z :=
  if dst <? src then copy_forward m dst src (Z.to_nat n)
  else copy_backward m (dst + n) (src + n) (Z.to_nat n).
Definition umemcpy (m : gmap Z Z) (dst src n : Z) : gmap Z Z := umemmove m dst src n.

Fixpoint umemcmp (m : gmap Z Z) (p1 p2 : Z) (n : nat) : Z :=
  match n with
  | O => 0
  | S n => if negb (ld8 m p1 =? ld8 m p2) then ld8 m p1 - ld8 m p2 else umemcmp m (p1 + 1) (p2 + 1) n
  end.

(** [while('0' <= *s && *s <= '9') n = n*10 + *s++ - '0';] *)
Fixpoint atoi_loop (s : list Z) (n : Z) : Z :=
  match s with
  | c :: s => if (48 <=? c) && (c <=? 57) then atoi_loop s (i32 (n * 10 + c - 48)) else n
  | [] => n
  end.
Definition atoi (s : list Z) : Z := atoi_loop s 0.

(** [for(i = 0; i+1 < max; )]; [k] is how many more bytes fit. The answer is
    the string in [buf]. *)
Fixpoint gets_loop (k : nat) (buf : list Z) : prog (list Z) :=
  match k with
  | O => mret buf
  | S k =>
      cc ← call (SRead 0 1);
      match cc with
      | Some (c :: _) =>
          let buf := buf ++ [c] in
          if (c =? 10) || (c =? 13) then mret buf else gets_loop k buf
      | _ => mret buf
      end
  end.
Definition gets (max : Z) : prog (list Z) := gets_loop (Z.to_nat (max - 1)) [].

Definition stat (n : list Z) : prog (option ustat) :=
  fd ← call (SOpen n O_RDONLY);
  if fd <? 0 then mret None
  else
    r ← call (SFstat fd);
    _ ← call (SClose fd);
    mret r.

Definition sbrk (n : Z) : prog Z := call (SSbrk n SBRK_EAGER).
Definition sbrklazy (n : Z) : prog Z := call (SSbrk n SBRK_LAZY).

(** ** Running a program of one process *)

Inductive result (A : Type) := Done (a : A) | Exited (status : Z) | Unfinished.
Arguments Done {A}. Arguments Exited {A}. Arguments Unfinished {A}.

Section run.
(** The world and what it answers. *)
Context {W : Type} (handle : forall B, sys B -> W -> B * W).

Fixpoint run {A} (p : prog A) (w : W) : result A * W :=
  match p with
  | Ret a => (Done a, w)
  | Exit n => (Exited n, w)
  | Call c k => let r := handle _ c w in run (k r.1) r.2
  | OutOfFuel => (Unfinished, w)
  end.

Lemma run_bind {A B} (p : prog A) (f : A -> prog B) : forall w, run (p ≫= f) w =
  match run p w with
  | (Done a, w') => run (f a) w'
  | (Exited n, w') => (Exited n, w')
  | (Unfinished, w') => (Unfinished, w')
  end.
Proof. induction p as [a|n|C c k IH|]; intros w; try done. cbn. apply IH. Qed.
Lemma run_call {A B} (c : sys B) (f : B -> prog A) w : run (call c ≫= f) w = let r := handle _ c w in run (f r.1) r.2.
Proof. done. Qed.
End run.
