(* ===== verification/User.v ===== *)
(** * User programs: cat.c, echo.c, wc.c, kill.c, ln.c, mkdir.c, rm.c, zombie.c,
    init.c, ls.c, grep.c (main), forktest.c, forphan.c, dorphan.c, stressfs.c and
    logstress.c of user/

    Each program is the tree of its system calls; [argv] is the list of its
    arguments, the name of the program first. Loops that go on for as long as
    there is input carry fuel. *)

From S2P Require Import Prelude Riscv Headers Mem Printf Usys.

(** A string argument of [printf]. *)
Definition vs (s : list Z) : vararg := VStr (Some s).
(** [for(i = 1; i < argc; i++)] *)
Fixpoint each (args : list (list Z)) (f : list Z -> prog unit) : prog unit :=
  match args with
  | [] => mret ()
  | a :: args => f a ≫= fun _ => each args f
  end.

(** ** cat.c *)

Fixpoint cat (fuel : nat) (fd : Z) : prog unit :=
  match fuel with
  | O => OutOfFuel
  | S fuel =>
      r ← call (SRead fd 512);
      match r with
      | Some [] => mret ()
      | Some bs =>
          n ← call (SWrite 1 bs);
          if negb (n =? Z.of_nat (length bs)) then fprintf 2 (str "cat: write error" ++ [10]) [] ≫= fun _ => exit 1
          else cat fuel fd
      | None => fprintf 2 (str "cat: read error" ++ [10]) [] ≫= fun _ => exit 1
      end
  end.

Definition cat_main (fuel : nat) (argv : list (list Z)) : prog Z :=
  if (length argv <=? 1)%nat then cat fuel 0 ≫= fun _ => exit 0
  else
    _ ← each (tail argv) (fun a =>
      fd ← call (SOpen a O_RDONLY);
      if fd <? 0 then fprintf 2 (str "cat: cannot open %s" ++ [10]) [vs a] ≫= fun _ => exit 1
      else
        _ ← cat fuel fd;
        _ ← call (SClose fd);
        mret ());
    exit 0.

(** ** echo.c *)

Fixpoint echo_loop (args : list (list Z)) : prog unit :=
  match args with
  | [] => mret ()
  | a :: args =>
      _ ← call (SWrite 1 a);
      _ ← call (SWrite 1 (if bool_decide (args = []) then [10] else [32]));
      echo_loop args
  end.
Definition echo_main (argv : list (list Z)) : prog Z := echo_loop (tail argv) ≫= fun _ => exit 0.

(** ** wc.c *)

(** [strchr(" \r\t\n\v", c)] *)
Definition is_space (c : Z) : bool := bool_decide (c ∈ [32; 13; 9; 10; 11]).

Record counts := Counts { wl : Z; ww : Z; wchars : Z; inword : bool }.
(** The body of the [for] loop. *)
Definition wc_byte (s : counts) (b : Z) : counts :=
  let c := i32 (wchars s + 1) in
  let l := if b =? 10 then i32 (wl s + 1) else wl s in
  if is_space b then Counts l (ww s) c false
  else if negb (inword s) then Counts l (i32 (ww s + 1)) c true
  else Counts l (ww s) c (inword s).

Fixpoint wc_loop (fuel : nat) (fd : Z) (s : counts) : prog counts :=
  match fuel with
  | O => OutOfFuel
  | S fuel =>
      r ← call (SRead fd 512);
      match r with
      | Some [] => mret s
      | Some bs => wc_loop fuel fd (foldl wc_byte s bs)
      | None => uprintf (str "wc: read error" ++ [10]) [] ≫= fun _ => exit 1
      end
  end.
Definition wc (fuel : nat) (fd : Z) (name : list Z) : prog unit :=
  s ← wc_loop fuel fd (Counts 0 0 0 false);
  uprintf (str "%d %d %d %s" ++ [10]) [VInt (wl s); VInt (ww s); VInt (wchars s); vs name].

Definition wc_main (fuel : nat) (argv : list (list Z)) : prog Z :=
  if (length argv <=? 1)%nat then wc fuel 0 [] ≫= fun _ => exit 0
  else
    _ ← each (tail argv) (fun a =>
      fd ← call (SOpen a O_RDONLY);
      if fd <? 0 then uprintf (str "wc: cannot open %s" ++ [10]) [vs a] ≫= fun _ => exit 1
      else
        _ ← wc fuel fd a;
        _ ← call (SClose fd);
        mret ());
    exit 0.

(** ** kill.c, ln.c, mkdir.c, rm.c, zombie.c *)

Definition kill_main (argv : list (list Z)) : prog Z :=
  if (length argv <? 2)%nat then fprintf 2 (str "usage: kill pid..." ++ [10]) [] ≫= fun _ => exit 1
  else
    _ ← each (tail argv) (fun a => _ ← call (SKill (atoi a)); mret ());
    exit 0.

Definition ln_main (argv : list (list Z)) : prog Z :=
  match argv with
  | [_; old; new] =>
      r ← call (SLink old new);
      _ ← (if r <? 0 then fprintf 2 (str "link %s %s: failed" ++ [10]) [vs old; vs new] else mret ());
      exit 0
  | _ => fprintf 2 (str "Usage: ln old new" ++ [10]) [] ≫= fun _ => exit 1
  end.

(** The loop of [mkdir] and [rm], which stops at the first failure. *)
Fixpoint until_failure (args : list (list Z)) (f : list Z -> sys Z) (msg : list Z) : prog unit :=
  match args with
  | [] => mret ()
  | a :: args =>
      r ← call (f a);
      if r <? 0 then fprintf 2 msg [vs a] else until_failure args f msg
  end.
Definition mkdir_main (argv : list (list Z)) : prog Z :=
  if (length argv <? 2)%nat then fprintf 2 (str "Usage: mkdir files..." ++ [10]) [] ≫= fun _ => exit 1
  else until_failure (tail argv) SMkdir (str "mkdir: %s failed to create" ++ [10]) ≫= fun _ => exit 0.
Definition rm_main (argv : list (list Z)) : prog Z :=
  if (length argv <? 2)%nat then fprintf 2 (str "Usage: rm files..." ++ [10]) [] ≫= fun _ => exit 1
  else until_failure (tail argv) SUnlink (str "rm: %s failed to delete" ++ [10]) ≫= fun _ => exit 0.

Definition zombie_main : prog Z :=
  pid ← call SFork;
  _ ← (if 0 <? pid then call (SPause 5) else mret 0);
  exit 0.

(** ** init.c *)

(** The inner loop: until the shell has exited. *)
Fixpoint init_wait (fuel : nat) (pid : Z) : prog unit :=
  match fuel with
  | O => OutOfFuel
  | S fuel =>
      r ← call SWait;
      if r.1 =? pid then mret ()
      else if r.1 <? 0 then uprintf (str "init: wait returned an error" ++ [10]) [] ≫= fun _ => exit 1
      else init_wait fuel pid
  end.
Fixpoint init_loop (fuel : nat) (waits : nat) : prog Z :=
  match fuel with
  | O => OutOfFuel
  | S fuel =>
      _ ← uprintf (str "init: starting sh" ++ [10]) [];
      pid ← call SFork;
      if pid <? 0 then uprintf (str "init: fork failed" ++ [10]) [] ≫= fun _ => exit 1
      else if pid =? 0 then
        _ ← call (SExec (str "sh") [str "sh"]);
        _ ← uprintf (str "init: exec sh failed" ++ [10]) [];
        exit 1
      else init_wait waits pid ≫= fun _ => init_loop fuel waits
  end.
Definition init_main (fuel waits : nat) : prog Z :=
  r ← call (SOpen (str "console") O_RDWR);
  _ ← (if r <? 0 then
         _ ← call (SMknod (str "console") CONSOLE 0);
         call (SOpen (str "console") O_RDWR)
       else mret 0);
  _ ← call (SDup 0);
  _ ← call (SDup 0);
  init_loop fuel waits.

(** ** ls.c *)

(** [for(p = path+strlen(path); p >= path && *p != '/'; p--)] and [p++]: what
    comes after the last slash. *)
Fixpoint after_slash (path : list Z) : list Z :=
  match path with
  | [] => []
  | c :: rest => if bool_decide (47 ∈ rest) then after_slash rest else if c =? 47 then rest else path
  end.
Definition fmtname (path : list Z) : list Z :=
  let p := after_slash path in
  if (Z.to_nat DIRSIZ <=? length p)%nat then p else p ++ replicate (Z.to_nat DIRSIZ - length p) 32.

(** The C string in a field of fixed size. *)
Fixpoint upto_nul (l : list Z) : list Z :=
  match l with
  | [] => []
  | c :: l => if c =? 0 then [] else c :: upto_nul l
  end.

Definition ls_line (path : list Z) (st : ustat) : prog unit :=
  uprintf (str "%s %d %d %d" ++ [10]) [vs (fmtname path); VInt (ust_type st); VInt (ust_ino st); VInt (i32 (ust_size st))].

(** The entries of a directory; [prefix] is the path with its slash. *)
Fixpoint ls_entries (fuel : nat) (fd : Z) (prefix : list Z) : prog unit :=
  match fuel with
  | O => OutOfFuel
  | S fuel =>
      r ← call (SRead fd 16);
      match r with
      | Some de =>
          if negb (length de =? 16)%nat then mret ()
          else if (default 0 (de !! 0%nat) =? 0) && (default 0 (de !! 1%nat) =? 0) then ls_entries fuel fd prefix
          else
            let buf := prefix ++ upto_nul (drop 2 de) in
            st ← stat buf;
            _ ← match st with
                | None => uprintf (str "ls: cannot stat %s" ++ [10]) [vs buf]
                | Some st => ls_line buf st
                end;
            ls_entries fuel fd prefix
      | None => mret ()
      end
  end.

Definition ls (fuel : nat) (path : list Z) : prog unit :=
  fd ← call (SOpen path O_RDONLY);
  if fd <? 0 then fprintf 2 (str "ls: cannot open %s" ++ [10]) [vs path]
  else
    st ← call (SFstat fd);
    match st with
    | None =>
        _ ← fprintf 2 (str "ls: cannot stat %s" ++ [10]) [vs path];
        _ ← call (SClose fd);
        mret ()
    | Some st =>
        _ ← (if (ust_type st =? T_DEVICE) || (ust_type st =? T_FILE) then ls_line path st
             else if ust_type st =? T_DIR then
               if (512 <? length path + 1 + Z.to_nat DIRSIZ + 1)%nat then uprintf (str "ls: path too long" ++ [10]) []
               else ls_entries fuel fd (path ++ [47])
             else mret ());
        _ ← call (SClose fd);
        mret ()
    end.
Definition ls_main (fuel : nat) (argv : list (list Z)) : prog Z :=
  if (length argv <? 2)%nat then ls fuel (str ".") ≫= fun _ => exit 0
  else each (tail argv) (ls fuel) ≫= fun _ => exit 0.

(** ** The test programs *)

Definition print (s : list Z) : prog unit := _ ← call (SWrite 1 s); mret ().

(** The first loop of [forktest]: how many forks succeeded before one failed. *)
Fixpoint forktest_forks (k : nat) (n : Z) : prog Z :=
  match k with
  | O => mret n
  | S k =>
      pid ← call SFork;
      if pid <? 0 then mret n
      else if pid =? 0 then exit 0
      else forktest_forks k (n + 1)
  end.
Fixpoint forktest_waits (n : nat) : prog unit :=
  match n with
  | O => mret ()
  | S n =>
      r ← call SWait;
      if r.1 <? 0 then print (str "wait stopped early" ++ [10]) ≫= fun _ => exit 1
      else forktest_waits n
  end.
Definition forktest : prog unit :=
  _ ← print (str "fork test" ++ [10]);
  n ← forktest_forks 1000 0;
  if n =? 1000 then print (str "fork claimed to work N times!" ++ [10]) ≫= fun _ => exit 1
  else
    _ ← forktest_waits (Z.to_nat n);
    r ← call SWait;
    if negb (r.1 =? -1) then print (str "wait got too many" ++ [10]) ≫= fun _ => exit 1
    else print (str "fork test OK" ++ [10]).
Definition forktest_main : prog Z := forktest ≫= fun _ => exit 0.

(** [for(;;) pause(1000);] *)
Fixpoint sit_around (fuel : nat) : prog Z :=
  match fuel with
  | O => OutOfFuel
  | S fuel => _ ← call (SPause 1000); sit_around fuel
  end.

Definition forphan_main (fuel : nat) (argv : list (list Z)) : prog Z :=
  let s := default [] (head argv) in
  let ff := str "file0" in
  fd ← call (SOpen ff (Z.lor O_CREATE O_WRONLY));
  if fd <? 0 then uprintf (str "%s: open failed" ++ [10]) [vs s] ≫= fun _ => exit 1
  else
    st ← call (SFstat fd);
    match st with
    | None => fprintf 2 (str "%s: cannot stat %s" ++ [10]) [vs s; vs (str "ff")] ≫= fun _ => exit 1
    | Some st =>
        r ← call (SUnlink ff);
        if r <? 0 then uprintf (str "%s: unlink failed" ++ [10]) [vs s] ≫= fun _ => exit 1
        else
          r ← call (SOpen ff O_RDONLY);
          if negb (r =? -1) then uprintf (str "%s: open successed" ++ [10]) [vs s] ≫= fun _ => exit 1
          else
            _ ← uprintf (str "wait for kill and reclaim %d" ++ [10]) [VInt (ust_ino st)];
            sit_around fuel
    end.

Definition dorphan_main (fuel : nat) (argv : list (list Z)) : prog Z :=
  let s := default [] (head argv) in
  r ← call (SMkdir (str "dd"));
  if negb (r =? 0) then uprintf (str "%s: mkdir dd failed" ++ [10]) [vs s] ≫= fun _ => exit 1
  else
    r ← call (SChdir (str "dd"));
    if negb (r =? 0) then uprintf (str "%s: chdir dd failed" ++ [10]) [vs s] ≫= fun _ => exit 1
    else
      r ← call (SUnlink (str "../dd"));
      if r <? 0 then uprintf (str "%s: unlink failed" ++ [10]) [vs s] ≫= fun _ => exit 1
      else
        _ ← uprintf (str "wait for kill and reclaim" ++ [10]) [];
        sit_around fuel.

Fixpoint times (k : nat) (p : prog unit) : prog unit :=
  match k with
  | O => mret ()
  | S k => p ≫= fun _ => times k p
  end.

(** [for(i = 0; i < 4; i++) if(fork() > 0) break;] *)
Fixpoint stressfs_forks (k : nat) (i : Z) : prog Z :=
  match k with
  | O => mret i
  | S k =>
      pid ← call SFork;
      if 0 <? pid then mret i else stressfs_forks k (i + 1)
  end.
Definition stressfs_main : prog Z :=
  let data := replicate 512 97 in
  _ ← uprintf (str "stressfs starting" ++ [10]) [];
  i ← stressfs_forks 4 0;
  _ ← uprintf (str "write %d" ++ [10]) [VInt i];
  let path := str "stressfs" ++ [48 + i] in
  fd ← call (SOpen path (Z.lor O_CREATE O_RDWR));
  _ ← times 20 (_ ← call (SWrite fd data); mret ());
  _ ← call (SClose fd);
  _ ← uprintf (str "read" ++ [10]) [];
  fd ← call (SOpen path O_RDONLY);
  _ ← times 20 (_ ← call (SRead fd 512); mret ());
  _ ← call (SClose fd);
  _ ← call SWait;
  exit 0.

(** The child of [logstress] for argument [i]. Its [memset] fills [SZ] bytes of
    a buffer of [BUFSZ], 1500 bytes beyond its end; the bytes it writes are
    those it has filled. *)
Definition BUFSZ : nat := 500.
Definition SZ : nat := 2000.
Definition logstress_child (name : list Z) (i : Z) (file : list Z) : prog Z :=
  fd ← call (SOpen file (Z.lor O_CREATE O_RDWR));
  if fd <? 0 then uprintf (str "%s: create %s failed" ++ [10]) [vs name; vs file] ≫= fun _ => exit 1
  else
    _ ← times 250 (
      n ← call (SWrite fd (replicate SZ (u8 (48 + i))));
      if negb (n =? Z.of_nat SZ) then uprintf (str "write failed %d" ++ [10]) [VInt n] ≫= fun _ => exit 1 else mret ());
    exit 0.
Fixpoint logstress_forks (name : list Z) (i : Z) (files : list (list Z)) : prog unit :=
  match files with
  | [] => mret ()
  | file :: files =>
      pid ← call SFork;
      if pid <? 0 then uprintf (str "%s: fork failed" ++ [10]) [vs name] ≫= fun _ => exit 1
      else if pid =? 0 then logstress_child name i file ≫= fun _ => exit 0
      else logstress_forks name (i + 1) files
  end.
Definition logstress_main (argv : list (list Z)) : prog Z :=
  _ ← logstress_forks (default [] (head argv)) 1 (tail argv);
  _ ← times (length argv - 1) (
    r ← call SWait;
    if negb (r.2 =? 0) then exit r.2 else mret ());
  mret 0.

(** ** Counting words *)

(** The files of the disk by their paths, what is left to read at each
    descriptor and what is written to each: [reads] says how many bytes each
    read would return, at least one and never more than asked for. *)
Record files := Files { disk : gmap (list Z) (list Z); inp : gmap Z (list Z); reads : list nat; out : gmap Z (list Z) }.

(** The lowest descriptor not in use, from 3: the first three are the standard
    ones, and a process has [NOFILE]. *)
Fixpoint newfd (n : nat) (fd : Z) (m : gmap Z (list Z)) : Z :=
  match n with
  | O => -1
  | S n => match m !! fd with None => fd | Some _ => newfd n (fd + 1) m end
  end.

Definition handle (B : Type) (c : sys B) : files -> B * files :=
  match c in sys B return files -> B * files with
  | SRead fd n => fun w =>
      match inp w !! fd with
      | Some l =>
          let k := Nat.min (Nat.max (default 1%nat (head (reads w))) 1) (Z.to_nat n) in
          (Some (take k l), Files (disk w) (<[fd := drop k l]> (inp w)) (tail (reads w)) (out w))
      | None => (None, w)
      end
  | SWrite fd bs => fun w => (Z.of_nat (length bs), Files (disk w) (inp w) (reads w) (<[fd := (out w !!! fd) ++ bs]> (out w)))
  | SOpen path _ => fun w =>
      match disk w !! path with
      | Some l =>
          let fd := newfd (Z.to_nat (NOFILE - 3)) 3 (inp w) in
          if fd <? 0 then (-1, w) else (fd, Files (disk w) (<[fd := l]> (inp w)) (reads w) (out w))
      | None => (-1, w)
      end
  | SClose fd => fun w => (0, Files (disk w) (delete fd (inp w)) (reads w) (out w))
  | SFork => fun w => (-1, w)
  | SWait => fun w => ((-1, 0), w)
  | SPipe => fun w => (None, w)
  | SFstat _ => fun w => (None, w)
  | SKill _ | SExec _ _ | SMknod _ _ _ | SUnlink _ | SLink _ _ | SMkdir _ | SChdir _ | SDup _ | SGetpid
  | SSbrk _ _ | SPause _ | SUptime => fun w => (-1, w)
  end.

(** What is counted: newlines, bytes that begin a word, and bytes. *)
Definition newlines (f : list Z) : nat := length (filter (fun b => b = 10) f).
Fixpoint word_starts (before : bool) (f : list Z) : nat :=
  match f with
  | [] => 0
  | b :: f => ((if negb (is_space b) && before then 1 else 0) + word_starts (is_space b) f)%nat
  end.

Lemma i32_small x : 0 <= x < 2 ^ 31 -> i32 x = x.
Proof. intros. unfold i32. rewrite Z.mod_small; lia. Qed.

(** The counts after a stretch of input, whatever the counts before. *)
Lemma wc_bytes f : forall s, 0 <= wl s -> 0 <= ww s -> 0 <= wchars s ->
  wl s + Z.of_nat (length f) < 2 ^ 31 -> ww s + Z.of_nat (length f) < 2 ^ 31 -> wchars s + Z.of_nat (length f) < 2 ^ 31 ->
  foldl wc_byte s f = Counts (wl s + Z.of_nat (newlines f)) (ww s + Z.of_nat (word_starts (negb (inword s)) f)) (wchars s + Z.of_nat (length f))
    (match last f with Some b => negb (is_space b) | None => inword s end).
Proof.
  induction f as [|b f IH]; intros [l w c i] Hl Hw Hc H1 H2 H3; cbn [foldl]; [cbn; f_equal; lia|].
  assert (wc_byte (Counts l w c i) b = Counts (if b =? 10 then l + 1 else l) (if negb (is_space b) && negb i then w + 1 else w) (c + 1) (negb (is_space b))) as E.
  { cbn in *. unfold wc_byte. cbn. rewrite !i32_small by lia. destruct (is_space b), i; done. }
  rewrite E. cbn [length wl ww wchars inword] in *. rewrite IH; cbn [wl ww wchars inword]; try (repeat case_match; lia).
  rewrite negb_involutive, last_cons. unfold newlines. rewrite filter_cons. cbn [word_starts].
  f_equal; [|destruct (negb (is_space b) && negb i); lia|lia|destruct (last f); done].
  destruct (Z.eqb_spec b 10); [rewrite decide_True by done; cbn; lia|rewrite decide_False by done; lia].
Qed.

(** The reading loop sees the whole file. *)
Lemma wc_loop_run fd : forall fuel l w s, inp w !! fd = Some l -> (length l < fuel)%nat ->
  exists w', run handle (wc_loop fuel fd s) w = (Done (foldl wc_byte s l), w') /\ out w' = out w.
Proof.
  induction fuel as [|fuel IH]; intros l w s Hl Hf; [lia|]. cbn [wc_loop]. rewrite run_call. cbn [handle]. rewrite Hl. cbn zeta.
  set (k := Nat.min (Nat.max (default 1%nat (head (reads w))) 1) (Z.to_nat 512)). assert (0 < k)%nat as Hk by (unfold k; lia). clearbody k. cbn [fst snd].
  destruct l as [|b l]; [rewrite take_nil; eexists; split; [done|done]|]. destruct k as [|k]; [lia|]. cbn [take drop firstn skipn].
  destruct (IH (drop k l) (Files (disk w) (<[fd := drop k l]> (inp w)) (tail (reads w)) (out w)) (foldl wc_byte s (b :: take k l))) as (w' & Hr & Ho).
  - cbn. by rewrite lookup_insert_eq.
  - rewrite length_drop. cbn in Hf. lia.
  - exists w'. split; [|exact Ho]. rewrite Hr, <- foldl_app. cbn [app]. by rewrite take_drop.
Qed.

Lemma puts_run fd bs : forall w, exists w', run handle (puts fd bs) w = (Done (), w') /\ out w' !!! fd = (out w !!! fd) ++ bs /\
  (forall fd', fd' <> fd -> out w' !!! fd' = out w !!! fd').
Proof.
  induction bs as [|b bs IH]; intros w; [exists w; by rewrite app_nil_r|]. cbn [puts]. rewrite run_bind. unfold putc. rewrite run_call. cbn [handle fst snd].
  destruct (IH (Files (disk w) (inp w) (reads w) (<[fd := (out w !!! fd) ++ [b]]> (out w)))) as (w' & Hr & Ho & Hne). exists w'. split_and!; [exact Hr| |].
  - rewrite Ho. cbn. rewrite lookup_total_insert_eq, <- app_assoc. done.
  - intros fd' Hfd. rewrite Hne by done. cbn. by rewrite lookup_total_insert_ne.
Qed.

(** ** Decimal numbers *)

Lemma decimal_run n : 0 <= n < 2 ^ 31 ->
  exists ds, printint digits_upper n 10 true = Some (digits_upper <$> reverse ds) /\ numeral 10 n ds /\ (length ds <= 10)%nat.
Proof.
  intros Hn. destruct (digits_loop_run digits_upper 10 ltac:(lia) 64 n 10) as (ds & Hd & Hnum & Hlen); [lia|lia|].
  exists ds. split_and!; [|done|done]. unfold printint, printint_buf. rewrite (proj2 (Z.ltb_ge n 0)) by lia. cbn [andb].
  rewrite u64_id by lia. rewrite Hd. cbn. by rewrite fmap_reverse.
Qed.

(** The digits read so far, and those to come. *)
Lemma atoi_loop_digits rest : forall ds acc, Forall (fun d => 0 <= d < 10) ds -> 0 <= acc -> acc * 10 ^ Z.of_nat (length ds) + value 10 (reverse ds) < 2 ^ 31 ->
  (match rest with c :: _ => (48 <=? c) && (c <=? 57) = false | [] => True end) ->
  atoi_loop ((digits_upper <$> ds) ++ rest) acc = acc * 10 ^ Z.of_nat (length ds) + value 10 (reverse ds).
Proof.
  assert (forall a b, value 10 (a ++ b) = value 10 a + 10 ^ Z.of_nat (length a) * value 10 b) as Happ.
  { intros a b. induction a as [|d a IH]; [change (value 10 b = 0 + 1 * value 10 b); lia|].
    change (d + 10 * value 10 (a ++ b) = d + 10 * value 10 a + 10 ^ Z.of_nat (S (length a)) * value 10 b).
    rewrite IH, Nat2Z.inj_succ, Z.pow_succ_r by lia. lia. }
  assert (forall l, Forall (fun d => 0 <= d < 10) l -> 0 <= value 10 l) as Hpos.
  { intros l Hl. induction Hl as [|d l Hd Hl IH]; [done|]. change (0 <= d + 10 * value 10 l). lia. }
  induction ds as [|d ds IH]; intros acc Hds Hacc Hb Hr; cbn [fmap list_fmap app].
  - cbn [length reverse] in *. change (value 10 (reverse [])) with 0. change (10 ^ Z.of_nat 0) with 1. destruct rest as [|c rest]; cbn [atoi_loop]; [lia|]. rewrite Hr. lia.
  - apply Forall_cons in Hds as [Hd Hds]. cbn [length] in *. rewrite Nat2Z.inj_succ, Z.pow_succ_r, reverse_cons, Happ, length_reverse in Hb |- * by lia.
    change (value 10 [d]) with (d + 10 * 0) in Hb |- *. pose proof (Hpos (reverse ds) ltac:(by apply Forall_reverse)) as Hv.
    assert (0 < 10 ^ Z.of_nat (length ds)) as Hp by lia. set (P := 10 ^ Z.of_nat (length ds)) in *.
    assert (0 <= acc * 10 + d < 2 ^ 31) as Hnew by nia.
    cbn [atoi_loop]. assert (digits_upper d = 48 + d) as -> by (unfold digits_upper; by rewrite (proj2 (Z.ltb_lt d 10)) by lia).
    rewrite (proj2 (Z.leb_le 48 (48 + d))), (proj2 (Z.leb_le (48 + d) 57)) by lia. cbn [andb].
    assert (i32 (acc * 10 + (48 + d) - 48) = acc * 10 + d) as -> by (rewrite i32_small; lia).
    rewrite IH; [fold P; nia|done|lia|fold P; nia|done].
Qed.

(** Atoi undoes printint: what printf prints for %d of a number that is
    not negative, followed by nothing or by a byte that is no digit, atoi turns
    into that number. *)
Theorem atoi_printint n rest : 0 <= n < 2 ^ 31 -> (match rest with c :: _ => (48 <=? c) && (c <=? 57) = false | [] => True end) ->
  exists bs, printint digits_upper n 10 true = Some bs /\ atoi (bs ++ rest) = n.
Proof.
  intros Hn Hr. destruct (decimal_run n Hn) as (ds & Hp & (Hv & Hf & _) & _). exists (digits_upper <$> reverse ds). split; [done|].
  unfold atoi. rewrite atoi_loop_digits; [|by apply Forall_reverse|lia| |done]; rewrite reverse_involutive, Hv; lia.
Qed.

(** The turns of [vprintf]. *)
Section turns.
Context (fmt : list Z) (i : nat).
Lemma next_chars_at c : fmt !! i = Some c -> exists c1 c2, next_chars fmt i = (c, c1, c2).
Proof. intros Hc. unfold next_chars. assert (fmt_at fmt i = c) as -> by (unfold fmt_at; by rewrite Hc). by eexists _, _. Qed.
Lemma vprintf_plain fuel c ap : fmt !! i = Some c -> c <> 0 -> c <> ch_percent ->
  vprintf_loop digits_upper (S fuel) fmt i false ap = (c ::.) <$> vprintf_loop digits_upper fuel fmt (S i) false ap.
Proof.
  intros Hc H0 Hp. cbn [vprintf_loop]. destruct (next_chars_at c Hc) as (c1 & c2 & ->). apply Z.eqb_neq in H0, Hp. by rewrite H0, Hp.
Qed.
Lemma vprintf_percent fuel ap : fmt !! i = Some ch_percent ->
  vprintf_loop digits_upper (S fuel) fmt i false ap = vprintf_loop digits_upper fuel fmt (S i) true ap.
Proof. intros Hc. cbn [vprintf_loop]. by destruct (next_chars_at _ Hc) as (c1 & c2 & ->). Qed.
Lemma vprintf_d fuel v ap bs : fmt !! i = Some ch_d -> printint digits_upper (i32 v) 10 true = Some bs ->
  vprintf_loop digits_upper (S fuel) fmt i true (VInt v :: ap) = (bs ++.) <$> vprintf_loop digits_upper fuel fmt (S i) false ap.
Proof.
  intros Hc Hp. cbn [vprintf_loop]. destruct (next_chars_at _ Hc) as (c1 & c2 & ->).
  change (ch_d =? 0) with false. cbn [negb]. unfold convert. change (ch_d =? ch_d) with true. unfold int_arg. rewrite Hp. cbn [mbind option_bind].
  by rewrite Nat.add_0_r.
Qed.
Lemma vprintf_s fuel t ap : fmt !! i = Some ch_s ->
  vprintf_loop digits_upper (S fuel) fmt i true (vs t :: ap) = (t ++.) <$> vprintf_loop digits_upper fuel fmt (S i) false ap.
Proof.
  intros Hc. cbn [vprintf_loop]. destruct (next_chars_at _ Hc) as (c1 & c2 & ->).
  change (ch_s =? 0) with false. cbn [negb]. unfold convert. change (ch_s =? ch_d) with false. change (ch_s =? ch_l) with false. change (ch_s =? ch_u) with false.
  change (ch_s =? ch_x) with false. change (ch_s =? ch_p) with false. change (ch_s =? ch_c) with false. change (ch_s =? ch_s) with true.
  cbn [andb mbind option_bind vs]. change (default null_str (Some t)) with t. by rewrite Nat.add_0_r.
Qed.
Lemma vprintf_end fuel percent ap : fmt !! i = None -> vprintf_loop digits_upper (S fuel) fmt i percent ap = Some [].
Proof. intros Hc. cbn [vprintf_loop]. unfold next_chars, fmt_at at 1. by rewrite Hc. Qed.
End turns.

(** The line that [wc] prints. *)
Lemma wc_line l w c name : 0 <= l < 2 ^ 31 -> 0 <= w < 2 ^ 31 -> 0 <= c < 2 ^ 31 ->
  exists ls ws cs, printint digits_upper l 10 true = Some ls /\ printint digits_upper w 10 true = Some ws /\ printint digits_upper c 10 true = Some cs /\
    vprintf digits_upper (str "%d %d %d %s" ++ [10]) [VInt l; VInt w; VInt c; vs name] = Some (ls ++ [32] ++ ws ++ [32] ++ cs ++ [32] ++ name ++ [10]).
Proof.
  intros Hl Hw Hc. destruct (decimal_run l Hl) as (dl & El & _), (decimal_run w Hw) as (dw & Ew & _), (decimal_run c Hc) as (dc & Ec & _).
  exists (digits_upper <$> reverse dl), (digits_upper <$> reverse dw), (digits_upper <$> reverse dc). split_and!; [done..|].
  change (str "%d %d %d %s" ++ [10]) with [37; 100; 32; 37; 100; 32; 37; 100; 32; 37; 115; 10]. unfold vprintf.
  rewrite <- (i32_small l) in El by lia. rewrite <- (i32_small w) in Ew by lia. rewrite <- (i32_small c) in Ec by lia.
  generalize dependent (digits_upper <$> reverse dl). generalize dependent (digits_upper <$> reverse dw). generalize dependent (digits_upper <$> reverse dc).
  intros cs Ec ws Ew ls El. cbn [length].
  rewrite vprintf_percent, (vprintf_d _ _ _ _ _ ls), (vprintf_plain _ _ _ 32) by done.
  rewrite vprintf_percent, (vprintf_d _ _ _ _ _ ws), (vprintf_plain _ _ _ 32) by done.
  rewrite vprintf_percent, (vprintf_d _ _ _ _ _ cs), (vprintf_plain _ _ _ 32) by done.
  rewrite vprintf_percent, vprintf_s, (vprintf_plain _ _ _ 10), vprintf_end by done. done.
Qed.

(** However the file comes in, wc prints its number of newlines, of words
    and of bytes: a word begins at each byte that is no white space and is
    first or follows white space, also when a read ends inside a word. *)
Theorem wc_spec fd name w f fuel : inp w !! fd = Some f -> Z.of_nat (length f) < 2 ^ 31 -> (length f < fuel)%nat ->
  exists ls ws cs w', printint digits_upper (Z.of_nat (newlines f)) 10 true = Some ls /\
    printint digits_upper (Z.of_nat (word_starts true f)) 10 true = Some ws /\
    printint digits_upper (Z.of_nat (length f)) 10 true = Some cs /\
    run handle (wc fuel fd name) w = (Done (), w') /\
    out w' !!! 1 = (out w !!! 1) ++ ls ++ [32] ++ ws ++ [32] ++ cs ++ [32] ++ name ++ [10].
Proof.
  intros Hin Hlen Hf. destruct (wc_loop_run fd fuel f w (Counts 0 0 0 false) Hin Hf) as (w1 & Hr & Ho).
  assert (newlines f <= length f)%nat as Hnl by apply length_filter.
  assert (word_starts true f <= length f)%nat as Hws.
  { clear. generalize true. induction f as [|b f IH]; intros x; [done|]. cbn. specialize (IH (is_space b)). destruct (negb (is_space b) && x); lia. }
  destruct (wc_line (Z.of_nat (newlines f)) (Z.of_nat (word_starts true f)) (Z.of_nat (length f)) name ltac:(lia) ltac:(lia) ltac:(lia))
    as (ls & ws & cs & El & Ew & Ec & Eline).
  destruct (puts_run 1 (ls ++ [32] ++ ws ++ [32] ++ cs ++ [32] ++ name ++ [10]) w1) as (w' & Hp & Hout & _).
  exists ls, ws, cs, w'. split_and!; [done..| |by rewrite Hout, Ho]. unfold wc. rewrite run_bind, Hr, wc_bytes by (cbn; lia).
  cbn [wl ww wchars inword negb Z.add]. unfold uprintf, fprintf. 
  rewrite !Z.add_0_l, Eline. exact Hp.
Qed.

Module Demo.
Definition world : files := Files ∅ {[ 3 := str "ab cd" ++ [10] ]} [4%nat; 1%nat] ∅.
Lemma wc_spec_witness : exists w', run handle (wc 7 3 (str "f")) world = (Done (), w') /\ out w' !!! 1 = str "1 2 6 f" ++ [10].
Proof.
  destruct (wc_spec 3 (str "f") world (str "ab cd" ++ [10]) 7) as (ls & ws & cs & w' & El & Ew & Ec & Hr & Ho); [done|cbn; lia|cbn; lia|].
  exists w'. split; [done|]. rewrite Ho. vm_compute in El, Ew, Ec. injection El as <-. injection Ew as <-. injection Ec as <-. done.
Defined.
Lemma atoi_printint_witness : exists bs, printint digits_upper 1234 10 true = Some bs /\ atoi (bs ++ [32]) = 1234.
Proof. apply (atoi_printint 1234 [32]); [lia|done]. Defined.
End Demo.
