(* ===== verification/GrepMain.v ===== *)
(** * The grep program: user/grep.c

    [grep] and [main] as programs of system calls, with the matcher and the
    line splitting of file Grep. A run on files of any contents does what the
    function [grep_loop] of file Grep computes; on text files the program
    writes the matching lines of each file in turn. *)

From S2P Require Import Prelude Riscv Headers Printf Usys User Grep.

(** ** The program *)

(** The inner loop; the answer is the rest of the buffer. *)
Fixpoint grep_write (fuel : nat) (pattern p : list Z) : prog (list Z) :=
  match fuel with
  | O => OutOfFuel
  | S fuel =>
      match find_nl p with
      | Some (line, q) =>
          _ ← (if match_ pattern line then _ ← call (SWrite 1 (line ++ [ch_nl])); mret () else mret ());
          grep_write fuel pattern q
      | None => mret p
      end
  end.

(** [grep(pattern, fd)]: [buf] holds the [m] bytes kept from before. *)
Fixpoint grep_fd (fuel : nat) (pattern : list Z) (fd : Z) (buf : list Z) : prog unit :=
  match fuel with
  | O => OutOfFuel
  | S fuel =>
      r ← call (SRead fd (Z.of_nat (GREPBUF - length buf - 1)));
      match r with
      | Some (c :: cs) =>
          let buf := buf ++ c :: cs in
          rest ← grep_write (S (length buf)) pattern buf;
          grep_fd fuel pattern fd rest
      | _ => mret ()
      end
  end.

Definition grep_main (fuel : nat) (argv : list (list Z)) : prog Z :=
  match argv with
  | _ :: pattern :: names =>
      if (length argv <=? 2)%nat then grep_fd fuel pattern 0 [] ≫= fun _ => exit 0
      else
        _ ← each names (fun name =>
          fd ← call (SOpen name O_RDONLY);
          if fd <? 0 then uprintf (str "grep: cannot open %s" ++ [10]) [vs name] ≫= fun _ => exit 1
          else
            _ ← grep_fd fuel pattern fd [];
            _ ← call (SClose fd);
            mret ());
        exit 0
  | _ => fprintf 2 (str "usage: grep pattern [file ...]" ++ [10]) [] ≫= fun _ => exit 1
  end.

(** ** One file *)

Definition printed (fd : Z) (bs : list Z) (w w' : files) : Prop :=
  disk w' = disk w /\ out w' !!! fd = (out w !!! fd) ++ bs /\ forall fd', fd' <> fd -> out w' !!! fd' = out w !!! fd'.

Lemma printed_nil fd w w' : disk w' = disk w -> out w' = out w -> printed fd [] w w'.
Proof. intros Hd Ho. unfold printed. by rewrite Hd, Ho, app_nil_r. Qed.
Lemma printed_trans fd b1 b2 w1 w2 w3 : printed fd b1 w1 w2 -> printed fd b2 w2 w3 -> printed fd (b1 ++ b2) w1 w3.
Proof.
  intros (D1 & O1 & N1) (D2 & O2 & N2). unfold printed. rewrite D2, D1, O2, O1, app_assoc. split_and!; [done..|].
  intros fd' Hne. by rewrite N2, N1.
Qed.
Lemma printed_write fd bs w : printed fd bs w (Files (disk w) (inp w) (reads w) (<[fd := (out w !!! fd) ++ bs]> (out w))).
Proof. split_and!; [done|by cbn; rewrite lookup_total_insert_eq|]. intros fd' Hne. cbn. by rewrite lookup_total_insert_ne. Qed.

(** The lines of the buffer are written as [grep_lines] says. *)
Lemma grep_write_run pattern : forall fuel p o rest w, grep_lines fuel pattern p = Some (o, rest) ->
  exists w', run handle (grep_write fuel pattern p) w = (Done rest, w') /\ printed 1 o w w' /\ inp w' = inp w /\ reads w' = reads w.
Proof.
  induction fuel as [|fuel IH]; intros p o rest w H; [done|]. cbn [grep_lines grep_write] in *.
  destruct (find_nl p) as [[line q]|]; [|simplify_eq; exists w; split_and!; try done; by apply printed_nil].
  apply bind_Some in H as ([o2 r2] & H2 & [= <- <-]). cbn [fst snd]. destruct (match_ pattern line).
  - rewrite run_bind, run_call. cbn [handle fst snd run mret prog_ret].
    edestruct (IH q o2 r2) as (w' & Hr & Hw & Hi & Hrd); [exact H2|]. exists w'. split_and!; [exact Hr| |exact Hi|exact Hrd].
    eapply printed_trans; [apply printed_write|exact Hw].
  - rewrite run_bind. cbn [run mret prog_ret]. exact (IH q o2 r2 w H2).
Qed.

(** What read number [i] and the following would return. *)
Definition wants (w : files) (i : nat) (rd : nat -> nat) : Prop := forall j, rd (i + j)%nat = default 1%nat (reads w !! j).

Lemma grep_fd_run pattern fd rd : forall fuel i buf file o w, grep_loop fuel pattern rd i buf file = Some o ->
  wants w i rd -> inp w !! fd = Some file ->
  exists w', run handle (grep_fd fuel pattern fd buf) w = (Done (), w') /\ printed 1 o w w' /\ delete fd (inp w') = delete fd (inp w).
Proof.
  induction fuel as [|fuel IH]; intros i buf file o w H Hrd Hf; [done|]. cbn [grep_loop grep_fd] in *. cbv zeta in H.
  rewrite run_call. cbn [handle]. rewrite Hf. cbn zeta. cbn [fst snd].
  assert (Hc : take (Nat.min (Nat.max (default 1%nat (head (reads w))) 1) (Z.to_nat (Z.of_nat (GREPBUF - length buf - 1)))) file
    = chunk (rd i) (GREPBUF - length buf - 1) file).
  { unfold chunk. specialize (Hrd 0%nat). rewrite Nat.add_0_r in Hrd. rewrite Hrd, Nat2Z.id. by destruct (reads w). }
  set (k := Nat.min _ _) in Hc |- *. rewrite Hc. set (new := chunk _ _ _) in *.
  case_bool_decide as En.
  { rewrite En. simplify_eq. eexists. split; [done|]. split; [by apply printed_nil|]. cbn. by rewrite delete_insert_eq. }
  destruct new as [|c cs] eqn:Enew; [done|]. apply bind_Some in H as ([o1 rest] & H1 & H). apply bind_Some in H as (o2 & H2 & [= <-]).
  cbn [fst snd] in *. rewrite run_bind.
  set (w1 := Files (disk w) (<[fd := drop k file]> (inp w)) (tail (reads w)) (out w)).
  destruct (grep_write_run pattern _ _ _ _ w1 H1) as (w2 & Hr1 & Hw1 & Hi1 & Hrd1). rewrite Hr1.
  assert (Hd : drop k file = drop (length (c :: cs)) file).
  { rewrite <- Hc, length_take. destruct (decide (k <= length file)%nat); [by rewrite Nat.min_l by lia|]. by rewrite !drop_ge by lia. }
  destruct (IH (S i) rest (drop (length (c :: cs)) file) o2 w2 H2) as (w3 & Hr2 & Hw2 & Hi2).
  - intros j. specialize (Hrd (S j)). rewrite Hrd1. cbn [reads w1]. replace (S i + j)%nat with (i + S j)%nat by lia. rewrite Hrd. by destruct (reads w).
  - rewrite Hi1. cbn. by rewrite lookup_insert_eq, Hd.
  - exists w3. split_and!; [exact Hr2| |].
    + eapply printed_trans; [|exact Hw2]. exact Hw1.
    + rewrite Hi2, Hi1. cbn. by rewrite delete_insert_eq.
Qed.

(** ** The files of the command line *)

(** A text file: complete lines and what follows the last newline, without NUL
    bytes, no line longer than the buffer holds. *)
Definition content (t : list (list Z) * list Z) : list Z := text_of t.1 ++ t.2.
Definition text (t : list (list Z) * list Z) : Prop :=
  Forall clean t.1 /\ Forall (fun l => length l <= GREPBUF - 2)%nat t.1 /\ clean t.2 /\ (length t.2 <= GREPBUF - 2)%nat.
Definition readable (fuel : nat) (t : list (list Z) * list Z) : Prop := text t /\ (length (content t) < fuel)%nat.

Lemma grep_fd_text fuel pattern fd t w : readable fuel t -> inp w !! fd = Some (content t) ->
  exists w', run handle (grep_fd fuel pattern fd []) w = (Done (), w') /\ printed 1 (matching pattern t.1) w w' /\ delete fd (inp w') = delete fd (inp w).
Proof.
  intros [(Hc & Hl & Ht & Htl) Hf] Hi. apply (grep_fd_run pattern fd (fun i => default 1%nat (reads w !! i)) fuel 0 [] (content t)); [|done|done].
  apply (grep_loop_run pattern _ t.2); try done; [constructor|cbn; lia].
Qed.

(** What [grep pattern names...] writes and its exit status: the matching lines
    of the files in turn, up to the first that does not exist. *)
Fixpoint answer (d : gmap (list Z) (list (list Z) * list Z)) (pattern : list Z) (names : list (list Z)) : list Z * Z :=
  match names with
  | [] => ([], 0)
  | name :: names =>
      match d !! name with
      | Some t => let r := answer d pattern names in (matching pattern t.1 ++ r.1, r.2)
      | None => (str "grep: cannot open " ++ name ++ [10], 1)
      end
  end.

Lemma printed_puts fd bs w : exists w', run handle (puts fd bs) w = (Done (), w') /\ printed fd bs w w'.
Proof.
  revert w. induction bs as [|b bs IH]; intros w; [exists w; split; [done|by apply printed_nil]|]. cbn [puts]. rewrite run_bind. unfold putc.
  rewrite run_call. cbn [handle fst snd run mret prog_ret].
  edestruct IH as (w' & Hr & Hw). exists w'. split; [exact Hr|]. change (b :: bs) with ([b] ++ bs). eapply printed_trans; [apply printed_write|exact Hw].
Qed.

Lemma open_some w name mode l : disk w !! name = Some l -> inp w !! 3 = None ->
  handle Z (SOpen name mode) w = (3, Files (disk w) (<[3 := l]> (inp w)) (reads w) (out w)).
Proof.
  intros Hd H3. cbn [handle]. rewrite Hd.
  change (newfd (Z.to_nat (NOFILE - 3)) 3 (inp w)) with (match inp w !! 3 with None => 3 | Some _ => newfd 12 4 (inp w) end). by rewrite H3.
Qed.
Lemma open_none w name mode : disk w !! name = None -> handle Z (SOpen name mode) w = (-1, w).
Proof. intros Hd. cbn [handle]. by rewrite Hd. Qed.

Section names.
Context (fuel : nat) (pattern : list Z) (d : gmap (list Z) (list (list Z) * list Z)).
Hypothesis (Hd : map_Forall (fun _ t => readable fuel t) d).

Lemma grep_names_run names : forall w, disk w = content <$> d -> inp w !! 3 = None ->
  exists w', run handle (_ ← each names (fun name =>
          fd ← call (SOpen name O_RDONLY);
          if fd <? 0 then uprintf (str "grep: cannot open %s" ++ [10]) [vs name] ≫= fun _ => exit 1
          else
            _ ← grep_fd fuel pattern fd [];
            _ ← call (SClose fd);
            mret ()); exit 0) w = (@Exited Z (answer d pattern names).2, w') /\ printed 1 (answer d pattern names).1 w w'.
Proof using Hd.
  induction names as [|name names IH]; intros w Hw H3; cbn [each answer]; [exists w; split; [done|by apply printed_nil]|].
  rewrite run_bind, run_bind, run_call. destruct (d !! name) as [t|] eqn:Et.
  - rewrite (open_some w name _ (content t)) by (rewrite ?Hw, ?lookup_fmap, ?Et; done). cbv zeta. cbn [fst snd]. change (3 <? 0) with false. cbv iota. rewrite run_bind.
    set (w1 := Files _ (<[3 := _]> _) _ _).
    destruct (grep_fd_text fuel pattern 3 t w1) as (w2 & Hr & Hwr & Hi); [by eapply Hd|by cbn; rewrite lookup_insert_eq|]. rewrite Hr, run_call.
    cbn [handle fst snd run mret prog_ret]. rewrite <- run_bind.
    destruct (IH (Files (disk w2) (delete 3 (inp w2)) (reads w2) (out w2))) as (w3 & Hr3 & Hw3).
    + cbn. by rewrite (proj1 Hwr).
    + cbn. by rewrite lookup_delete_eq.
    + exists w3. split; [exact Hr3|]. eapply printed_trans; [|exact Hw3]. exact Hwr.
  - rewrite open_none by (by rewrite Hw, lookup_fmap, Et). cbv zeta. cbn [fst snd]. change (-1 <? 0) with true. cbv iota. unfold uprintf, fprintf.
    replace (vprintf digits_upper (str "grep: cannot open %s" ++ [10]) [vs name]) with (Some (str "grep: cannot open " ++ name ++ [10])) by reflexivity.
    rewrite run_bind. destruct (printed_puts 1 (str "grep: cannot open " ++ name ++ [10]) w) as (w' & Hr & Hw'). rewrite Hr. exists w'. done.
Qed.
End names.

(** C36: The grep program, on every command line, where the files and the
    standard input are text without NUL bytes in lines of at most 1022 bytes.
    With files it writes the matching lines among those that end with a newline,
    file by file and in order, and exits with 0; at the first file that cannot
    be opened it says so on the standard output and exits with 1. Without files it
    searches the standard input, and without a pattern it prints its usage to
    descriptor 2 and exits with 1. A line is found however the reads split the
    file; what follows the last newline is not searched. *)
Theorem grep_main_spec (fuel : nat) (d : gmap (list Z) (list (list Z) * list Z)) (t : list (list Z) * list Z) (w : files) :
  disk w = content <$> d -> map_Forall (fun _ t => readable fuel t) d ->
  inp w !! 0 = Some (content t) -> readable fuel t -> inp w !! 3 = None ->
  forall argv, exists w', match argv with
    | _ :: pattern :: [] => run handle (grep_main fuel argv) w = (Exited 0, w') /\ printed 1 (matching pattern t.1) w w'
    | _ :: pattern :: names => run handle (grep_main fuel argv) w = (Exited (answer d pattern names).2, w') /\ printed 1 (answer d pattern names).1 w w'
    | _ => run handle (grep_main fuel argv) w = (Exited 1, w') /\ printed 2 (str "usage: grep pattern [file ...]" ++ [10]) w w'
    end.
Proof.
  intros Hw Hd H0 Ht H3 argv. destruct argv as [|a0 [|pattern [|name names]]].
  3: { destruct (grep_fd_text fuel pattern 0 t w Ht H0) as (w' & Hr & Hwr & _). exists w'. split; [|exact Hwr].
       cbn [grep_main length Nat.leb]. by rewrite run_bind, Hr. }
  3: exact (grep_names_run fuel pattern d Hd (name :: names) w Hw H3).
  all: destruct (printed_puts 2 (str "usage: grep pattern [file ...]" ++ [10]) w) as (w' & Hr & Hwr); exists w'; split; [|exact Hwr];
    cbn [grep_main]; unfold fprintf; replace (vprintf digits_upper _ []) with (Some (str "usage: grep pattern [file ...]" ++ [10])) by reflexivity;
    by rewrite run_bind, Hr.
Qed.

Module Demo.
(** Two files of which the second does not exist; the first is "ab", "c" and an
    unfinished "b", read two bytes at a time and then one. *)
Definition d1 : gmap (list Z) (list (list Z) * list Z) := {[ str "f" := ([str "ab"; str "c"], str "b") ]}.
Definition w1 : files := Files (content <$> d1) {[ 0 := [] ]} [2%nat; 2%nat] ∅.
Lemma grep_main_spec_witness : exists w', run handle (grep_main 9 [str "grep"; str "b"; str "f"; str "g"]) w1 = (Exited 1, w') /\
  printed 1 (str "ab" ++ [10] ++ str "grep: cannot open g" ++ [10]) w1 w'.
Proof.
  apply (grep_main_spec 9 d1 ([], []) w1) with (argv := [str "grep"; str "b"; str "f"; str "g"]); try reflexivity.
  - intros n t Hn. unfold d1 in Hn. apply lookup_singleton_Some in Hn as [_ <-]. unfold readable, text, clean. cbn. unfold GREPBUF, ch_nl.
    split_and!; repeat constructor; try discriminate; lia.
  - unfold readable, text, clean. cbn. unfold GREPBUF. split_and!; repeat constructor; lia.
Defined.
End Demo.
