(* ===== verification/Sh.v ===== *)
(** * The shell: user/sh.c

    The parser works on the bytes [buf] of a line; a [char*] into the line is
    an index, and the byte at the end of the line and beyond is NUL. A command
    node holds words of type [A]: pairs of indices (the start of a word and the
    byte after it) as the parser leaves them, byte strings once the words are
    terminated. Allocation of nodes is assumed to succeed. *)

From S2P Require Import Prelude Headers.

(** ** Commands *)

Inductive cmd (A : Type) :=
| execcmd (argv : list A)
| redircmd (c : cmd A) (file : A) (mode fd : Z)
| pipecmd (left right : cmd A)
| listcmd (left right : cmd A)
| backcmd (c : cmd A).
Arguments execcmd {A}. Arguments redircmd {A}. Arguments pipecmd {A}. Arguments listcmd {A}. Arguments backcmd {A}.

#[export] Instance cmd_fmap : FMap cmd := fun A B f =>
  fix go c :=
    match c with
    | execcmd argv => execcmd (f <$> argv)
    | redircmd c file mode fd => redircmd (go c) (f file) mode fd
    | pipecmd l r => pipecmd (go l) (go r)
    | listcmd l r => listcmd (go l) (go r)
    | backcmd c => backcmd (go c)
    end.

Definition MAXARGS : nat := 10.

(** The modes [parseredirs] puts in a node. *)
Definition M_READ : Z := O_RDONLY.
Definition M_TRUNC : Z := Z.lor (Z.lor O_WRONLY O_CREATE) O_TRUNC.
Definition M_APPEND : Z := Z.lor O_WRONLY O_CREATE.

(** ** Results of parsing: a panic of the shell is a syntax error; [PLeft] is the
    panic of [parsecmd], which first prints what is left of the line. *)

Inductive parsed (A : Type) := POk (a : A) | PPanic (msg : string) | PLeft (s : nat) | PFuel.
Arguments POk {A}. Arguments PPanic {A}. Arguments PLeft {A}. Arguments PFuel {A}.
#[export] Instance parsed_ret : MRet parsed := fun A => POk.
#[export] Instance parsed_bind : MBind parsed := fun A B f m =>
  match m with POk a => f a | PPanic msg => PPanic msg | PLeft s => PLeft s | PFuel => PFuel end.

(** ** Characters *)

Definition ch_space : Z := 32.
Definition ch_bar : Z := 124.
Definition ch_amp : Z := 38.
Definition ch_semi : Z := 59.
Definition ch_lt : Z := 60.
Definition ch_gt : Z := 62.
Definition ch_open : Z := 40.
Definition ch_close : Z := 41.
Definition ch_plus : Z := 43.
Definition ch_a : Z := 97.

Definition whitespace : list Z := [32; 9; 13; 10; 11].
Definition symbols : list Z := [ch_lt; ch_bar; ch_gt; ch_amp; ch_semi; ch_open; ch_close].

(** [strchr(toks, c)] as a test. *)
Definition strchr (toks : list Z) (c : Z) : bool := bool_decide (c ∈ toks).
Definition is_ws (c : Z) : bool := strchr whitespace c.
Definition is_word (c : Z) : bool := negb (strchr whitespace c) && negb (strchr symbols c).

(** ** The scanner *)

(** [while (s < es && ...) s++]; [n] is [es - s]. *)
Fixpoint scan (f : Z -> bool) (buf : list Z) (n s : nat) : nat :=
  match n with
  | O => s
  | S n => if f (default 0 (buf !! s)) then scan f buf n (S s) else s
  end.

Section parse.
Context (buf : list Z).

Definition chr (s : nat) : Z := default 0 (buf !! s).
(** The line ends at its first NUL. *)
Fixpoint strlen_from (l : list Z) : nat :=
  match l with
  | c :: l => if c =? 0 then O else S (strlen_from l)
  | [] => O
  end.
Definition es : nat := strlen_from buf.
Definition skip_ws (s : nat) : nat := scan is_ws buf (es - s) s.

(** [gettoken]: the token, its start [q] and end [eq], and the new position. *)
Definition gettoken (s : nat) : Z * nat * nat * nat :=
  let q := skip_ws s in
  let c := chr q in
  let r :=
    if c =? 0 then (0, q)
    else if strchr [ch_bar; ch_open; ch_close; ch_semi; ch_amp; ch_lt] c then (c, S q)
    else if c =? ch_gt then if chr (S q) =? ch_gt then (ch_plus, S (S q)) else (ch_gt, S q)
    else (ch_a, scan is_word buf (es - q) q) in
  (r.1, q, r.2, skip_ws r.2).

(** [peek]: the answer and the new position. *)
Definition peek (s : nat) (toks : list Z) : bool * nat :=
  let s := skip_ws s in
  (negb (chr s =? 0) && strchr toks (chr s), s).

Abbreviation word := (nat * nat)%type (only parsing).
Abbreviation pos := nat (only parsing).

Definition redir (tok : Z) (c : cmd word) (q eq : nat) : cmd word :=
  if tok =? ch_lt then redircmd c (q, eq) M_READ 0
  else if tok =? ch_gt then redircmd c (q, eq) M_TRUNC 1
  else if tok =? ch_plus then redircmd c (q, eq) M_APPEND 1
  else c.

(** [parseredirs]; what it does to the command is returned as a function,
    because [parseexec] goes on filling in the arguments of the node inside. *)
Fixpoint parseredirs (fuel : nat) (wrap : cmd word -> cmd word) (s : pos) : parsed ((cmd word -> cmd word) * pos) :=
  match fuel with
  | O => PFuel
  | S fuel =>
      let (p, s) := peek s [ch_lt; ch_gt] in
      if p : bool then
        let '(tok, _, _, s) := gettoken s in
        let '(t, q, eq, s) := gettoken s in
        if negb (t =? ch_a) then PPanic "missing file for redirection"
        else parseredirs fuel (fun c => redir tok (wrap c) q eq) s
      else POk (wrap, s)
  end.

(** The [while] loop of [parseexec]. *)
Fixpoint parseargs (fuel : nat) (argv : list word) (wrap : cmd word -> cmd word) (s : pos) : parsed (cmd word * pos) :=
  match fuel with
  | O => PFuel
  | S fuel =>
      let (p, s) := peek s [ch_bar; ch_close; ch_amp; ch_semi] in
      if p : bool then POk (wrap (execcmd argv), s)
      else
        let '(tok, q, eq, s) := gettoken s in
        if tok =? 0 then POk (wrap (execcmd argv), s)
        else if negb (tok =? ch_a) then PPanic "syntax"
        else
          let argv := argv ++ [(q, eq)] in
          if (MAXARGS <=? length argv)%nat then PPanic "too many args"
          else
            r ← parseredirs (S es) wrap s;
            parseargs fuel argv r.1 r.2
  end.

(** [while (peek(ps, es, "&"))] *)
Fixpoint parseback (fuel : nat) (c : cmd word) (s : pos) : parsed (cmd word * pos) :=
  match fuel with
  | O => PFuel
  | S fuel =>
      let (p, s) := peek s [ch_amp] in
      if p : bool then parseback fuel (backcmd c) (gettoken s).2 else POk (c, s)
  end.

Fixpoint parseline (fuel : nat) (s : pos) : parsed (cmd word * pos) :=
  match fuel with
  | O => PFuel
  | S fuel =>
      r ← parsepipe fuel s;
      r ← parseback (S es) r.1 r.2;
      let (p, s) := peek r.2 [ch_semi] in
      if p : bool then
        r' ← parseline fuel (gettoken s).2;
        mret (listcmd r.1 r'.1, r'.2)
      else mret (r.1, s)
  end
with parsepipe (fuel : nat) (s : pos) : parsed (cmd word * pos) :=
  match fuel with
  | O => PFuel
  | S fuel =>
      r ← parseexec fuel s;
      let (p, s) := peek r.2 [ch_bar] in
      if p : bool then
        r' ← parsepipe fuel (gettoken s).2;
        mret (pipecmd r.1 r'.1, r'.2)
      else mret (r.1, s)
  end
with parseexec (fuel : nat) (s : pos) : parsed (cmd word * pos) :=
  match fuel with
  | O => PFuel
  | S fuel =>
      let (p, s) := peek s [ch_open] in
      if p : bool then parseblock fuel s
      else
        r ← parseredirs (S es) id s;
        parseargs (S es) [] r.1 r.2
  end
with parseblock (fuel : nat) (s : pos) : parsed (cmd word * pos) :=
  match fuel with
  | O => PFuel
  | S fuel =>
      let (p, s) := peek s [ch_open] in
      if negb p then PPanic "parseblock"
      else
        r ← parseline fuel (gettoken s).2;
        let (p, s) := peek r.2 [ch_close] in
        if negb p then PPanic "syntax - missing )"
        else
          r' ← parseredirs (S es) id (gettoken s).2;
          mret (r'.1 r.1, r'.2)
  end.

(** [*p = 0] *)
Definition nul (p : nat) (b : list Z) : list Z := <[p := 0]> b.

(** [nulterminate]: the line with the words terminated. *)
Fixpoint nulterminate (c : cmd word) (b : list Z) : list Z :=
  match c with
  | execcmd argv => foldl (fun b w => nul w.2 b) b argv
  | redircmd c file _ _ => nul file.2 (nulterminate c b)
  | pipecmd l r => nulterminate r (nulterminate l b)
  | listcmd l r => nulterminate r (nulterminate l b)
  | backcmd c => nulterminate c b
  end.

(** Every step of the recursion takes up at most five calls per byte. *)
Definition parse_fuel : nat := 5 * es + 5.

Definition parsecmd (s : pos) : parsed (cmd word * list Z) :=
  r ← parseline parse_fuel s;
  let (_, s) := peek r.2 [] in
  if negb (s =? es)%nat then PLeft s
  else mret (r.1, nulterminate r.1 buf).
End parse.
