(* ===== verification/ShParse.v ===== *)
(** * The parser of the shell terminates, and reads back what is printed

    Termination of the mutually recursive parser by the length of the line;
    that terminating the words in place spoils none of them; and that every
    command can be written down and is parsed to itself. *)

From S2P Require Import Prelude Sh.

(** ** Outcomes *)

(** The parser returns something that satisfies [P], or reports an error. *)
Definition total {A} (P : A -> Prop) (m : parsed A) : Prop :=
  match m with POk a => P a | PPanic _ | PLeft _ => True | PFuel => False end.

Lemma total_bind {A B} (P : A -> Prop) (Q : B -> Prop) m (f : A -> parsed B) :
  total P m -> (forall a, P a -> total Q (f a)) -> total Q (m ≫= f).
Proof. destruct m; cbn; auto. Qed.
Lemma total_mono {A} (P Q : A -> Prop) m : total P m -> (forall a, P a -> Q a) -> total Q m.
Proof. destruct m; cbn; auto. Qed.

Section scan.
Context (buf : list Z).
Abbreviation es := (es buf).
Abbreviation chr := (chr buf).

Lemma strlen_le l : (strlen_from l <= length l)%nat.
Proof. induction l as [|c l IH]; [done|]. cbn. destruct (c =? 0); lia. Qed.
Lemma strlen_nul l : default 0 (l !! strlen_from l) = 0.
Proof. induction l as [|c l IH]; [done|]. cbn. destruct (Z.eqb_spec c 0); [by subst|done]. Qed.
Lemma strlen_lt l p : (p < strlen_from l)%nat -> default 0 (l !! p) <> 0.
Proof.
  revert p. induction l as [|c l IH]; intros p Hp; [cbn in Hp; lia|]. cbn in Hp. destruct (Z.eqb_spec c 0); [lia|].
  destruct p as [|p]; [done|]. cbn. apply IH. lia.
Qed.
Lemma chr_es : chr es = 0.
Proof. apply strlen_nul. Qed.
Lemma chr_in s : (s < es)%nat -> chr s <> 0.
Proof. apply strlen_lt. Qed.
Lemma chr_lt s : (s <= es)%nat -> chr s <> 0 -> (s < es)%nat.
Proof. intros Hs Hc. destruct (decide (s = es)) as [->|]; [by rewrite chr_es in Hc|lia]. Qed.

(** The scanning loop stops at the end or at the first byte that fails. *)
Lemma scan_spec f n : forall s, let r := scan f buf n s in
  (s <= r <= s + n)%nat /\ (forall p, (s <= p < r)%nat -> f (chr p) = true) /\ (r = s + n \/ f (chr r) = false)%nat.
Proof.
  induction n as [|n IH]; intros s; cbn [scan]; [split_and!; [lia..|intros; lia|left; lia]|].
  fold (chr s). destruct (f (chr s)) eqn:E; [|split_and!; [lia..|intros; lia|by right]].
  destruct (IH (S s)) as ([H1 H2] & H3 & H4). split_and!; [lia..| |destruct H4; [left; lia|by right]].
  intros p Hp. destruct (decide (p = s)) as [->|]; [done|]. apply H3. lia.
Qed.

Lemma skip_spec s : (s <= es)%nat -> let r := skip_ws buf s in
  (s <= r <= es)%nat /\ (r = es \/ is_ws (chr r) = false).
Proof.
  intros Hs r. destruct (scan_spec is_ws (es - s) s) as (H1 & _ & H3). unfold r, skip_ws.
  split; [lia|]. destruct H3; [left; lia|by right].
Qed.

(** A word: bytes that are neither blanks nor symbols, up to one that is. *)
Definition is_token (w : nat * nat) : Prop :=
  (w.1 < w.2 <= es)%nat /\ (forall p, (w.1 <= p < w.2)%nat -> is_word (chr p) = true) /\ (w.2 = es \/ is_word (chr w.2) = false).

Lemma word_char c : c <> 0 -> is_ws c = false -> strchr [ch_bar; ch_open; ch_close; ch_semi; ch_amp; ch_lt] c = false -> c <> ch_gt ->
  is_word c = true.
Proof.
  unfold is_word, is_ws, strchr. intros _ -> Hs Hg. cbn [negb andb]. apply bool_decide_eq_false in Hs.
  apply negb_true_iff, bool_decide_eq_false. unfold symbols. set_solver.
Qed.

Lemma gettoken_spec s : (s <= es)%nat ->
  let '(t, q, eq, s') := gettoken buf s in
  (s <= q <= eq /\ eq <= s' <= es)%nat /\ (t <> 0 -> (q < eq)%nat) /\ (t = ch_a -> is_token (q, eq)) /\ (t = 0 -> q = es).
Proof.
  intros Hs. unfold gettoken. destruct (skip_spec s Hs) as [H1 H2]. set (q := skip_ws buf s) in *. cbv zeta.
  assert (forall r, (q <= r <= es)%nat -> (r <= skip_ws buf r <= es)%nat) as Hsk by (intros r Hr; apply skip_spec; lia).
  destruct (Z.eqb_spec (chr q) 0) as [E|E].
  { cbn [fst snd]. pose proof (Hsk q ltac:(lia)). assert (q = es) by (destruct (decide (q < es)%nat); [by apply chr_in in E|lia]).
    split_and!; try lia; try done. }
  pose proof (chr_lt q ltac:(lia) E) as Hq. assert (is_ws (chr q) = false) as Hw by (destruct H2; [lia|done]).
  destruct (strchr [ch_bar; ch_open; ch_close; ch_semi; ch_amp; ch_lt] (chr q)) eqn:Es.
  { cbn [fst snd]. pose proof (Hsk (S q) ltac:(lia)). split_and!; try lia. intros Ea. rewrite Ea in Es. done. }
  destruct (Z.eqb_spec (chr q) ch_gt) as [Eg|Eg].
  { destruct (Z.eqb_spec (chr (S q)) ch_gt) as [Eg2|Eg2]; cbn [fst snd].
    - assert (S q < es)%nat by (apply chr_lt; [lia|by rewrite Eg2]). pose proof (Hsk (S (S q)) ltac:(lia)). split_and!; try lia; try done.
    - pose proof (Hsk (S q) ltac:(lia)). split_and!; try lia; try done. }
  cbn [fst snd]. destruct (scan_spec is_word (es - q) q) as (H3 & H4 & H5). set (r := scan is_word buf (es - q) q) in *.
  assert (q < r)%nat as Hqr.
  { destruct (decide (q = r)) as [Er|]; [|lia]. destruct H5 as [?|H5]; [lia|]. rewrite <- Er, word_char in H5; done. }
  pose proof (Hsk r ltac:(lia)). split_and!; try lia; [|done]. intros _. split; [cbn; lia|]. split; [done|]. cbn. destruct H5; [left; lia|by right].
Qed.

Lemma peek_spec s toks : (s <= es)%nat -> let '(p, s') := peek buf s toks in (s <= s' <= es)%nat /\ (p = true -> (s' < es)%nat).
Proof.
  intros Hs. unfold peek. destruct (skip_spec s Hs) as [H1 _]. split; [done|]. intros Hp. apply andb_true_iff in Hp as [Hp _].
  apply negb_true_iff, Z.eqb_neq in Hp. apply chr_lt; [lia|done].
Qed.

(** After a peek that found something, [gettoken] moves on. *)
Lemma peek_gettoken s toks s' : (s <= es)%nat -> peek buf s toks = (true, s') ->
  let '(t, q, eq, s2) := gettoken buf s' in (s < s2 <= es)%nat /\ t <> 0.
Proof.
  intros Hs Hp. pose proof (peek_spec s toks Hs) as Hpk. rewrite Hp in Hpk. destruct Hpk as [H1 H2]. specialize (H2 eq_refl).
  pose proof (gettoken_spec s' ltac:(lia)) as Hg. destruct (gettoken buf s') as [[[t q] eq] s2] eqn:Et. destruct Hg as (H3 & H4 & _ & H5).
  assert (t <> 0) as Ht.
  { intros ->. specialize (H5 eq_refl). assert (skip_ws buf s' = s') as Esk.
    { unfold peek in Hp. injection Hp as _ <-. unfold skip_ws at 1.
      destruct (skip_spec s Hs) as [_ [Hw|Hw]]; [rewrite Hw in H2; lia|].
      assert (es - skip_ws buf s = S (es - skip_ws buf s - 1))%nat as -> by (unfold peek in *; lia). cbn [scan]. fold (chr (skip_ws buf s)). by rewrite Hw. }
    unfold gettoken in Et. rewrite Esk in Et. injection Et as _ <- _ _. lia. }
  split; [|done]. specialize (H4 Ht). lia.
Qed.

(** ** Termination *)

Fixpoint words {A} (c : cmd A) : list A :=
  match c with
  | execcmd argv => argv
  | redircmd c file _ _ => words c ++ [file]
  | pipecmd l r | listcmd l r => words l ++ words r
  | backcmd c => words c
  end.
Definition tokens (c : cmd (nat * nat)) : Prop := Forall is_token (words c).
(** What [parseredirs] makes of a command keeps its words words. *)
Definition keeps (wrap : cmd (nat * nat) -> cmd (nat * nat)) : Prop := forall c, tokens c -> tokens (wrap c).
Definition parses {A} (P : A -> Prop) (s : nat) (r : A * nat) : Prop := P r.1 /\ (s <= r.2 <= es)%nat.

Lemma redir_keeps wrap tok q eq : keeps wrap -> is_token (q, eq) -> keeps (fun c => redir tok (wrap c) q eq).
Proof.
  intros Hk Ht c Hc. unfold redir. repeat case_match; try by apply Hk.
  all: unfold tokens; cbn [words]; apply Forall_app; split; [by apply Hk|by constructor].
Qed.

Lemma parseredirs_total fuel : forall wrap s, (s <= es)%nat -> (es - s < fuel)%nat -> keeps wrap ->
  total (parses keeps s) (parseredirs buf fuel wrap s).
Proof.
  induction fuel as [|fuel IH]; intros wrap s Hs Hf Hk; [lia|]. cbn [parseredirs].
  destruct (peek buf s [ch_lt; ch_gt]) as [p s1] eqn:Ep. pose proof (peek_spec s [ch_lt; ch_gt] Hs) as Hp. rewrite Ep in Hp.
  destruct p; [|split; [done|cbn; lia]].
  pose proof (peek_gettoken _ _ _ Hs Ep) as Hg. destruct (gettoken buf s1) as [[[tok q0] eq0] s2]. destruct Hg as [Hg _].
  pose proof (gettoken_spec s2 ltac:(lia)) as Hg2. destruct (gettoken buf s2) as [[[t q] eq] s3]. destruct Hg2 as (H1 & _ & H2 & _).
  destruct (Z.eqb_spec t ch_a) as [E|]; [|done]. cbn [negb].
  eapply total_mono; [apply IH; [lia..|]|].
  - apply redir_keeps; [done|by apply H2].
  - intros r [? ?]. split; [done|lia].
Qed.

Lemma parseargs_total fuel : forall argv wrap s, (s <= es)%nat -> (es - s < fuel)%nat -> keeps wrap -> Forall is_token argv ->
  total (parses tokens s) (parseargs buf fuel argv wrap s).
Proof.
  induction fuel as [|fuel IH]; intros argv wrap s Hs Hf Hk Ha; [lia|]. cbn [parseargs].
  pose proof (peek_spec s [ch_bar; ch_close; ch_amp; ch_semi] Hs) as Hp. destruct (peek buf s _) as [p s1]. destruct p; [split; [by apply Hk|cbn; lia]|].
  pose proof (gettoken_spec s1 ltac:(lia)) as Hg. destruct (gettoken buf s1) as [[[tok q] eq] s2]. destruct Hg as (H1 & H2 & H3 & _).
  destruct (Z.eqb_spec tok 0) as [|E]; [split; [by apply Hk|cbn; lia]|]. specialize (H2 E).
  destruct (Z.eqb_spec tok ch_a) as [Ea|]; [|done]. cbn [negb]. destruct (_ <=? _)%nat; [done|].
  eapply total_bind; [apply (parseredirs_total (S es)); [lia|lia|done]|].
  intros r [? ?]. eapply total_mono; [apply IH; [lia|lia|done|]|].
  - apply Forall_app; split; [done|]. constructor; [by apply H3|done].
  - intros r' [? ?]. split; [done|lia].
Qed.

Lemma parseback_total fuel : forall c s, (s <= es)%nat -> (es - s < fuel)%nat -> tokens c -> total (parses tokens s) (parseback buf fuel c s).
Proof.
  induction fuel as [|fuel IH]; intros c s Hs Hf Hc; [lia|]. cbn [parseback].
  destruct (peek buf s [ch_amp]) as [p s1] eqn:Ep. pose proof (peek_spec s [ch_amp] Hs) as Hp. rewrite Ep in Hp.
  destruct p; [|split; [done|cbn; lia]].
  pose proof (peek_gettoken _ _ _ Hs Ep) as Hg. destruct (gettoken buf s1) as [[[tok q] eq] s2]. destruct Hg as [Hg _]. cbn [snd].
  eapply total_mono; [apply IH; [lia|lia|done]|]. intros r [? ?]. split; [done|lia].
Qed.

(** Each of the four parsers ends with the fuel its position needs. *)
Definition ends (d : nat) (f : nat -> nat -> parsed (cmd (nat * nat) * nat)) (fuel : nat) : Prop :=
  forall s, (s <= es)%nat -> (4 * (es - s) + d <= fuel)%nat -> total (parses tokens s) (f fuel s).

(** [peek] for a separator, and the rest of the line after it. *)
Lemma peek_then (f : nat -> parsed (cmd (nat * nat) * nat)) (mk : cmd (nat * nat) -> cmd (nat * nat)) c s s0 toks :
  (s0 <= s <= es)%nat -> tokens c -> (forall c', tokens c' -> tokens (mk c')) ->
  (forall s', (s < s' <= es)%nat -> total (parses tokens s') (f s')) ->
  total (parses tokens s0)
    (let (p, s) := peek buf s toks in
     if p : bool then r' ← f (gettoken buf s).2; mret (mk r'.1, r'.2) else mret (c, s)).
Proof.
  intros Hs Hc Hmk Hf. destruct (peek buf s toks) as [p s1] eqn:Ep. pose proof (peek_spec s toks ltac:(lia)) as Hp. rewrite Ep in Hp.
  destruct p; [|split; [done|cbn; lia]].
  pose proof (peek_gettoken s _ _ ltac:(lia) Ep) as Hg. destruct (gettoken buf s1) as [[[tok q] eq] s2]. destruct Hg as [Hg _].
  eapply total_bind; [apply Hf; cbn; lia|]. intros r [? ?]. split; [by apply Hmk|cbn in *; lia].
Qed.

Lemma tokens_app l r : tokens l -> tokens r -> Forall is_token (words l ++ words r).
Proof. intros. apply Forall_app. by split. Qed.

Lemma parseblock_total fuel s : (s <= es)%nat -> (4 * (es - s) + 1 <= fuel)%nat ->
  (forall n, (n < fuel)%nat -> ends 4 (parseline buf) n) -> total (parses tokens s) (parseblock buf fuel s).
Proof.
  intros Hs Hf IH. destruct fuel as [|fuel]; [lia|]. cbn [parseblock].
  destruct (peek buf s [ch_open]) as [p s1] eqn:Ep. destruct p; [|done]. cbn [negb].
  pose proof (peek_gettoken _ _ _ Hs Ep) as Hg. destruct (gettoken buf s1) as [[[tok q] eq] s2]. destruct Hg as [Hg _]. cbn [snd].
  eapply total_bind; [apply (IH fuel); lia|]. intros r [Ht Hr].
  destruct (peek buf r.2 [ch_close]) as [p s3] eqn:Ep3. destruct p; [|done]. cbn [negb].
  pose proof (peek_gettoken r.2 _ _ ltac:(lia) Ep3) as Hg3. destruct (gettoken buf s3) as [[[tok' q'] eq'] s4]. destruct Hg3 as [Hg3 _]. cbn [snd].
  eapply total_bind; [apply (parseredirs_total (S es)); [lia|lia|by intros ?]|].
  intros r' [Hk ?]. split; [by apply Hk|cbn; lia].
Qed.

Lemma parseexec_total fuel s : (s <= es)%nat -> (4 * (es - s) + 2 <= fuel)%nat ->
  (forall n, (n < fuel)%nat -> ends 4 (parseline buf) n) -> total (parses tokens s) (parseexec buf fuel s).
Proof.
  intros Hs Hf IH. destruct fuel as [|fuel]; [lia|]. cbn [parseexec].
  pose proof (peek_spec s [ch_open] Hs) as Hp. destruct (peek buf s [ch_open]) as [p s1]. destruct p.
  - eapply total_mono; [apply parseblock_total; [lia|lia|intros; apply IH; lia]|]. intros r [? ?]. split; [done|lia].
  - eapply total_bind; [apply (parseredirs_total (S es)); [lia|lia|by intros ?]|].
    intros r [? ?]. eapply total_mono; [apply parseargs_total; [lia|lia|done|done]|]. intros r' [? ?]. split; [done|lia].
Qed.

Lemma parsepipe_total fuel : (forall n, (n < fuel)%nat -> ends 4 (parseline buf) n) -> ends 3 (parsepipe buf) fuel.
Proof.
  induction fuel as [|fuel IHf]; intros IH s Hs Hf; [lia|]. cbn [parsepipe].
  eapply total_bind; [apply parseexec_total; [lia|lia|intros; apply IH; lia]|]. intros r [Ht Hr].
  apply (peek_then _ (pipecmd r.1)); [lia|done|intros; by apply tokens_app|].
  intros s' Hs'. apply IHf; [intros; apply IH; lia|lia|lia].
Qed.

Lemma parseline_total fuel : ends 4 (parseline buf) fuel.
Proof.
  induction fuel as [fuel IH] using lt_wf_ind. intros s Hs Hf. destruct fuel as [|fuel]; [lia|]. cbn [parseline].
  eapply total_bind; [apply parsepipe_total; [intros; apply IH; lia|lia|lia]|]. intros r [Ht Hr].
  eapply total_bind; [apply parseback_total; [lia|lia|done]|]. intros r' [Ht' Hr'].
  apply (peek_then _ (listcmd r'.1)); [lia|done|intros; by apply tokens_app|]. intros s' Hs'. apply IH; lia.
Qed.

Lemma parsecmd_total s : (s <= es)%nat -> total (fun r => tokens r.1 /\ r.2 = nulterminate r.1 buf) (parsecmd buf s).
Proof.
  intros Hs. unfold parsecmd. eapply total_bind; [apply parseline_total; [done|unfold parse_fuel; lia]|]. intros r [Ht _].
  destruct (peek buf r.2 []). by case_match.
Qed.
End scan.

(** ** The words after termination *)

(** The bytes of a word, and the C string at an index. *)
Definition slice (buf : list Z) (w : nat * nat) : list Z := chr buf <$> seq w.1 (w.2 - w.1).
Definition cstr (b : list Z) (q : nat) : list Z := chr b <$> seq q (strlen_from (drop q b)).

Lemma strlen_eq l n : (forall p, (p < n)%nat -> default 0 (l !! p) <> 0) -> default 0 (l !! n) = 0 -> strlen_from l = n.
Proof.
  intros Hn H0. destruct (decide (n < strlen_from l)%nat) as [H|H]; [by apply strlen_lt in H|].
  destruct (decide (strlen_from l < n)%nat) as [H2|H2]; [|lia]. apply Hn in H2. by rewrite strlen_nul in H2.
Qed.

Lemma nul_chr e b p : chr (nul e b) p = if decide (p = e) then 0 else chr b p.
Proof.
  unfold chr, nul. case_decide as E; [subst|by rewrite list_lookup_insert_ne by done].
  destruct (decide (e < length b)%nat); [by rewrite list_lookup_insert_eq|].
  by rewrite lookup_ge_None_2 by (rewrite length_insert; lia).
Qed.
Lemma nul_words_chr (argv : list (nat * nat)) : forall b p,
  chr (foldl (fun b w => nul w.2 b) b argv) p = if decide (p ∈ argv.*2) then 0 else chr b p.
Proof.
  induction argv as [|w argv IH]; intros b p; [done|]. cbn [foldl]. rewrite IH, nul_chr, fmap_cons. repeat case_decide; set_solver.
Qed.

(** [nulterminate] clears the byte after each word and no other. *)
Lemma nulterminate_chr c : forall b p, chr (nulterminate c b) p = if decide (p ∈ (words c).*2) then 0 else chr b p.
Proof.
  induction c as [argv|c IH f m fd|l IHl r IHr|l IHl r IHr|c IH]; intros b p; cbn [nulterminate words]; [apply nul_words_chr|..|done].
  - rewrite nul_chr, IH, fmap_app. repeat case_decide; set_solver.
  - rewrite IHr, IHl, fmap_app. repeat case_decide; set_solver.
  - rewrite IHr, IHl, fmap_app. repeat case_decide; set_solver.
Qed.

Lemma is_token_word buf w p e : is_token buf w -> (w.1 <= p < w.2)%nat -> is_token buf e -> p <> e.2.
Proof. intros (H1 & H2 & _) Hp (H3 & _ & H4) ->. specialize (H2 _ Hp). destruct H4 as [H4|H4]; [lia|congruence]. Qed.

(** A terminated word reads as its bytes. *)
Lemma nulterminate_cstr buf c w : tokens buf c -> w ∈ words c -> cstr (nulterminate c buf) w.1 = slice buf w.
Proof.
  intros Hc Hw. pose proof (proj1 (Forall_forall _ _) Hc) as Ht. destruct (Ht w Hw) as (H1 & H2 & _).
  assert (forall p, (w.1 <= p < w.2)%nat -> chr (nulterminate c buf) p = chr buf p) as Hin.
  { intros p Hp. rewrite nulterminate_chr, decide_False; [done|]. intros ((e & e2) & -> & He)%list_elem_of_fmap.
    by apply (is_token_word buf w _ (e, e2) (Ht w Hw) Hp (Ht _ He)). }
  unfold cstr, slice. rewrite (strlen_eq _ (w.2 - w.1)).
  - apply list_fmap_ext. intros i p Hp. apply lookup_seq in Hp as [-> Hi]. apply Hin. lia.
  - intros p Hp. rewrite lookup_drop. fold (chr (nulterminate c buf) (w.1 + p)). rewrite Hin by lia. apply chr_in. lia.
  - rewrite lookup_drop. replace (w.1 + (w.2 - w.1))%nat with w.2 by lia. fold (chr (nulterminate c buf) w.2).
    rewrite nulterminate_chr, decide_True; [done|]. apply list_elem_of_fmap. by exists w.
Qed.

(** C22: parsecmd terminates on every line: it reports a syntax error or
    returns a command, never running out of the calls the length of the line
    allows. The words of the command are non-empty runs of bytes of the line
    free of blanks and of symbols, and in the line nulterminate leaves every
    word reads, as a C string, as its own bytes: the NUL that ends one word
    destroys no other. *)
Theorem parsecmd_words buf s : (s <= es buf)%nat ->
  match parsecmd buf s with
  | POk (c, b) => forall w, w ∈ words c ->
      (w.1 < w.2 <= es buf)%nat /\ Forall (fun ch => is_word ch = true) (slice buf w) /\ cstr b w.1 = slice buf w
  | PPanic _ | PLeft _ => True
  | PFuel => False
  end.
Proof.
  intros Hs. pose proof (parsecmd_total buf s Hs) as H. destruct (parsecmd buf s) as [[c b]| | |]; [|done..].
  destruct H as [Hc Hb]; cbn [fst snd] in Hc, Hb; subst b. intros w Hw. destruct (proj1 (Forall_forall _ _) Hc w Hw) as (H1 & H2 & _).
  split_and!; [lia..| |by apply nulterminate_cstr].
  apply Forall_fmap, Forall_seq. intros p Hp. apply H2. lia.
Qed.

(** ** Printing commands *)

Definition redir_op (m : Z) : list Z :=
  if m =? M_READ then [ch_lt] else if m =? M_TRUNC then [ch_gt] else [ch_gt; ch_gt].

(** A command written with every compound command in parentheses. *)
Fixpoint show (c : cmd (list Z)) : list Z :=
  match c with
  | execcmd argv => concat ((fun w => w ++ [ch_space]) <$> argv)
  | redircmd c f m _ => ch_open :: show c ++ ch_close :: redir_op m ++ f
  | pipecmd l r => ch_open :: show l ++ ch_close :: ch_bar :: ch_open :: show r ++ [ch_close]
  | listcmd l r => ch_open :: show l ++ ch_close :: ch_semi :: ch_open :: show r ++ [ch_close]
  | backcmd c => ch_open :: show c ++ [ch_close; ch_amp]
  end.

Definition word_ok (w : list Z) : Prop := w <> [] /\ Forall (fun c => c <> 0 /\ is_word c = true) w.

(** The commands the language can express: proper words, fewer than
    [MAXARGS] of them in a row, and the three redirections. *)
Fixpoint expressible (c : cmd (list Z)) : Prop :=
  match c with
  | execcmd argv => Forall word_ok argv /\ (length argv < MAXARGS)%nat
  | redircmd c f m fd => expressible c /\ word_ok f /\ (m, fd) ∈ [(M_READ, 0); (M_TRUNC, 1); (M_APPEND, 1)]
  | pipecmd l r | listcmd l r => expressible l /\ expressible r
  | backcmd c => expressible c
  end.

Lemma show_nonzero c : expressible c -> Forall (fun ch => ch <> 0) (show c).
Proof.
  assert (forall w, word_ok w -> Forall (fun ch => ch <> 0) w) as Hword.
  { intros w [_ Hw]. eapply Forall_impl; [exact Hw|]. by intros ? []. }
  induction c as [argv|c IH f m fd|l IHl r IHr|l IHl r IHr|c IH]; cbn [expressible show].
  - intros [Ha _]. induction Ha as [|w argv Hw _ IH]; cbn; [done|].
    rewrite !Forall_app. split_and!; [by apply Hword|by repeat constructor|done].
  - intros (Hc & Hf & _). constructor; [done|]. apply Forall_app; split; [by apply IH|]. constructor; [done|].
    apply Forall_app; split; [|by apply Hword]. unfold redir_op. repeat case_match; by repeat constructor.
  - intros [Hl Hr]. constructor; [done|]. apply Forall_app; split; [by apply IHl|]. repeat (constructor; [done|]).
    apply Forall_app; split; [by apply IHr|by repeat constructor].
  - intros [Hl Hr]. constructor; [done|]. apply Forall_app; split; [by apply IHl|]. repeat (constructor; [done|]).
    apply Forall_app; split; [by apply IHr|by repeat constructor].
  - intros Hc. constructor; [done|]. apply Forall_app; split; [by apply IH|by repeat constructor].
Qed.

Section reparse.
Context (buf : list Z) (Hbuf : Forall (fun ch => ch <> 0) buf).

(** [l] is the rest of the line at [p]. *)
Definition at_pos (p : nat) (l : list Z) : Prop := drop p buf = l /\ (p <= length buf)%nat.
Definition stops (f : Z -> bool) (l : list Z) : Prop := match l with [] => True | c :: _ => f c = false end.

Lemma es_length : es buf = length buf.
Proof using Hbuf.
  apply strlen_eq; [|by rewrite lookup_ge_None_2 by lia]. intros p Hp. apply lookup_lt_is_Some_2 in Hp as [c Hc]. rewrite Hc.
  exact (proj1 (Forall_lookup _ _) Hbuf _ _ Hc).
Qed.
Lemma at_length p l : at_pos p l -> (p + length l = length buf)%nat.
Proof. intros [<- Hp]. rewrite length_drop. lia. Qed.
Lemma at_app p a l : at_pos p (a ++ l) -> at_pos (p + length a) l.
Proof.
  intros H. pose proof (at_length _ _ H) as Hl. rewrite length_app in Hl. destruct H as [H _]. split; [|lia].
  rewrite <- drop_drop, H. by apply drop_app_length.
Qed.
Lemma at_tail p c l : at_pos p (c :: l) -> at_pos (S p) l.
Proof. intros H. apply (at_app p [c]) in H. cbn in H. by rewrite Nat.add_1_r in H. Qed.
Lemma chr_at p l : at_pos p l -> chr buf p = default 0 (head l).
Proof. intros [<- _]. unfold chr. by rewrite head_lookup, lookup_drop, Nat.add_0_r. Qed.

Lemma scan_at f a : forall p l, at_pos p (a ++ l) -> Forall (fun c => f c = true) a -> stops f l ->
  scan f buf (es buf - p) p = (p + length a)%nat.
Proof using Hbuf.
  rewrite es_length. induction a as [|c a IH]; intros p l Hat Ha Hl.
  - cbn in *. rewrite Nat.add_0_r. destruct l as [|c l].
    { apply at_length in Hat. cbn in Hat. by assert (length buf - p = 0)%nat as -> by lia. }
    pose proof (at_length _ _ Hat) as E. cbn in E. assert (length buf - p = S (length l))%nat as -> by lia. cbn [scan].
    fold (chr buf p). rewrite (chr_at _ _ Hat). cbn. by rewrite Hl.
  - apply Forall_cons in Ha as [Hc Ha]. cbn [app] in Hat. pose proof (at_length _ _ Hat) as E. cbn in E.
    assert (length buf - p = S (length buf - S p))%nat as -> by lia. cbn [scan].
    fold (chr buf p). rewrite (chr_at _ _ Hat). cbn [head default from_option]. cbn. rewrite Hc, (IH (S p) l); [lia| |done|done]. by eapply at_tail.
Qed.

Lemma skip_at p l : at_pos p l -> stops is_ws l -> skip_ws buf p = p.
Proof using Hbuf. intros Hat Hl. unfold skip_ws. rewrite (scan_at is_ws [] p l); [cbn; lia|done..]. Qed.

Lemma peek_at p l toks : at_pos p l -> stops is_ws l ->
  peek buf p toks = (match l with [] => false | c :: _ => strchr toks c end, p).
Proof using Hbuf.
  intros Hat Hl. unfold peek. rewrite (skip_at _ _ Hat Hl), (chr_at _ _ Hat). destruct l as [|c l]; [done|]. cbn.
  assert (c <> 0) as Hc; [|by apply Z.eqb_neq in Hc as ->].
  apply (proj1 (Forall_forall _ _) Hbuf). destruct Hat as [Hd _]. apply (list_elem_of_lookup_2 _ p).
  rewrite <- (Nat.add_0_r p), <- lookup_drop, Hd. done.
Qed.

Lemma token_symbol p c l : at_pos p (c :: l) -> strchr [ch_bar; ch_open; ch_close; ch_semi; ch_amp; ch_lt] c = true -> stops is_ws l ->
  gettoken buf p = (c, p, S p, S p).
Proof using Hbuf.
  intros Hat Hc Hl. assert (is_ws c = false /\ c <> 0) as [Hw H0].
  { unfold strchr in Hc. apply bool_decide_eq_true in Hc. clear -Hc. set_unfold in Hc. by destruct_or! Hc; subst. }
  unfold gettoken. rewrite (skip_at _ _ Hat Hw), (chr_at _ _ Hat). cbn [head default from_option].
  cbn. apply Z.eqb_neq in H0. rewrite H0, Hc. cbn. by rewrite (skip_at _ _ (at_tail _ _ _ Hat) Hl).
Qed.

Lemma token_word p w sp l : at_pos p (w ++ sp ++ l) -> word_ok w -> stops is_word (sp ++ l) -> Forall (fun c => is_ws c = true) sp -> stops is_ws l ->
  gettoken buf p = (ch_a, p, p + length w, p + length w + length sp)%nat.
Proof using Hbuf.
  intros Hat [Hn Hw] Hs Hsp Hl. assert (Forall (fun c => is_word c = true) w) as Hw' by (eapply Forall_impl; [exact Hw|]; by intros ? []).
  pose proof (scan_at is_word w p _ Hat Hw' Hs) as Hscan.
  pose proof (scan_at is_ws sp _ l (at_app _ _ _ Hat) Hsp Hl) as Hskip.
  destruct w as [|c w]; [done|]. apply Forall_cons in Hw as [[H0 Hc] _].
  assert (is_ws c = false /\ strchr symbols c = false) as [Hcw Hcs].
  { unfold is_word in Hc. apply andb_true_iff in Hc as [H1 H2]. by split; apply negb_true_iff. }
  unfold gettoken. cbn [app] in Hat. rewrite (skip_at _ _ Hat Hcw), (chr_at _ _ Hat). cbn [head].
  change (default 0 (Some c)) with c. apply Z.eqb_neq in H0. rewrite H0.
  unfold strchr, symbols in Hcs. apply bool_decide_eq_false in Hcs.
  assert (strchr [ch_bar; ch_open; ch_close; ch_semi; ch_amp; ch_lt] c = false) as -> by (apply bool_decide_eq_false; set_solver).
  assert ((c =? ch_gt) = false) as -> by (apply Z.eqb_neq; set_solver).
  cbn [fst snd]. rewrite Hscan. unfold skip_ws. by rewrite Hskip.
Qed.

(** What can follow a printed command, and what is no redirection. *)
Definition closes (l : list Z) : Prop := match l with [] => True | c :: _ => c = ch_close end.
Definition plain (l : list Z) : Prop := match l with [] => True | c :: _ => is_ws c = false /\ c <> ch_lt /\ c <> ch_gt end.
Lemma closes_plain l : closes l -> plain l.
Proof. destruct l; [done|]. by intros ->. Qed.
Lemma plain_stops l : plain l -> stops is_ws l.
Proof. destruct l; [done|]. by intros []. Qed.
Lemma word_head c w : word_ok (c :: w) -> is_ws c = false /\ c ∉ symbols.
Proof.
  intros [_ [[_ Hc] _]%Forall_cons]. unfold is_word in Hc. apply andb_true_iff in Hc as [H1%negb_true_iff H2%negb_true_iff].
  split; [done|]. by apply bool_decide_eq_false in H2.
Qed.
Lemma word_plain w l : word_ok w -> plain (w ++ l).
Proof. destruct w as [|c w]; [by intros []|]. intros [H1 H2]%word_head. unfold symbols in H2. cbn. set_solver. Qed.
Lemma show_plain c l : expressible c -> plain l -> plain (show c ++ l).
Proof.
  destruct c as [[|w argv]| | | |]; cbn [show fmap list_fmap concat app]; [done| |done..].
  intros [[Hw _]%Forall_cons _] _. rewrite <- !app_assoc. by apply word_plain.
Qed.

Lemma slice_at p w l : at_pos p (w ++ l) -> slice buf (p, (p + length w)%nat) = w.
Proof.
  intros [Hd _]. unfold slice. cbn [fst snd]. apply list_eq. intros i. rewrite list_lookup_fmap.
  destruct (decide (i < length w)%nat) as [Hi|Hi].
  - rewrite lookup_seq_lt by lia. cbn. unfold chr. rewrite <- lookup_drop, Hd, lookup_app_l by done.
    by apply lookup_lt_is_Some_2 in Hi as [c ->].
  - rewrite lookup_ge_None_2 by (rewrite length_seq; lia). by rewrite lookup_ge_None_2 by lia.
Qed.

(** *** Redirections and arguments *)

Lemma redirs_none n wrap p l : at_pos p l -> plain l -> parseredirs buf (S n) wrap p = POk (wrap, p).
Proof using Hbuf.
  intros Hat Hl. cbn [parseredirs]. rewrite (peek_at _ _ _ Hat (plain_stops _ Hl)). destruct l as [|c l]; [done|].
  destruct Hl as (_ & H1 & H2). assert (strchr [ch_lt; ch_gt] c = false) as ->; [|done]. apply bool_decide_eq_false. set_solver.
Qed.

Lemma token_redir p m fd l : (m, fd) ∈ [(M_READ, 0); (M_TRUNC, 1); (M_APPEND, 1)] ->
  let op := redir_op m in
  at_pos p (op ++ l) -> plain l ->
  exists tok, (forall toks, peek buf p toks = (strchr toks (hd 0 op), p)) /\ strchr [ch_lt; ch_gt] (hd 0 op) = true /\
    gettoken buf p = (tok, p, p + length op, p + length op)%nat /\
    (forall c q eq, redir tok c q eq = redircmd c (q, eq) m fd).
Proof using Hbuf.
  intros Hm op Hat Hl. pose proof (plain_stops _ Hl) as Hs.
  assert (stops is_ws (op ++ l)) as Hop by (unfold op, redir_op; by repeat case_match).
  pose proof (at_app _ _ _ Hat) as Hnext. pose proof (skip_at _ _ Hat Hop) as Hsk. pose proof (skip_at _ _ Hnext Hs) as Hsk2.
  pose proof (chr_at _ _ Hat) as Hch. pose proof (fun toks => peek_at _ _ toks Hat Hop) as Hpk.
  set_unfold in Hm. destruct_or! Hm; injection Hm as -> ->; subst op.
  - change (redir_op M_READ) with [ch_lt] in *. cbn [app length hd] in *. cbn in Hch.
    exists ch_lt. split_and!; [done|done| |done]. unfold gettoken. rewrite Hsk, Hch. cbn [length] in *. rewrite Nat.add_1_r in *.
    change (strchr [ch_bar; ch_open; ch_close; ch_semi; ch_amp; ch_lt] ch_lt) with true. cbn. by rewrite Hsk2.
  - change (redir_op M_TRUNC) with [ch_gt] in *. cbn [app length hd] in *. cbn in Hch.
    exists ch_gt. split_and!; [done|done| |done]. unfold gettoken. rewrite Hsk, Hch. cbn [length] in *. rewrite Nat.add_1_r in *.
    change (strchr [ch_bar; ch_open; ch_close; ch_semi; ch_amp; ch_lt] ch_gt) with false. cbn.
    rewrite (chr_at _ _ Hnext). destruct l as [|d l]; cbn; [change (0 =? ch_gt) with false; cbn; by rewrite Hsk2|]. destruct Hl as (_ & _ & Hd). apply Z.eqb_neq in Hd. rewrite Hd. cbn. by rewrite Hsk2.
  - change (redir_op M_APPEND) with [ch_gt; ch_gt] in *. cbn [app length hd] in *. cbn in Hch.
    exists ch_plus. split_and!; [done|done| |done]. unfold gettoken. rewrite Hsk, Hch. cbn [length] in *.
    change (strchr [ch_bar; ch_open; ch_close; ch_semi; ch_amp; ch_lt] ch_gt) with false. cbn.
    rewrite (chr_at _ _ (at_tail _ _ _ Hat)). cbn. assert (S (S p) = p + 2)%nat as -> by lia. by rewrite Hsk2.
Qed.

Lemma redirs_one p m fd f post : (m, fd) ∈ [(M_READ, 0); (M_TRUNC, 1); (M_APPEND, 1)] -> word_ok f -> closes post ->
  let op := redir_op m in
  at_pos p (op ++ f ++ post) ->
  exists wrap, parseredirs buf (S (es buf)) id p = POk (wrap, p + length op + length f)%nat /\
    forall c, slice buf <$> wrap c = redircmd (slice buf <$> c) f m fd.
Proof using Hbuf.
  intros Hm Hf Hp op Hat. destruct (token_redir p m fd (f ++ post) Hm Hat (word_plain _ _ Hf)) as (tok & H1 & H2 & H3 & H4). fold op in H1, H2, H3.
  pose proof (at_app _ _ _ Hat) as Hat2. pose proof (at_app _ _ _ Hat2) as Hat3. pose proof (slice_at _ _ _ Hat2) as Hsl.
  assert (gettoken buf (p + length op) = (ch_a, p + length op, p + length op + length f, p + length op + length f))%nat as Hg.
  { pose proof (token_word (p + length op) f [] post Hat2 Hf) as H. cbn [length app] in H. rewrite Nat.add_0_r in H.
    apply H; [|done|apply plain_stops; by apply closes_plain]. destruct post; [done|]. by cbn in Hp; subst. }
  assert (exists k, es buf = S k) as [k Hk].
  { pose proof (at_length _ _ Hat2) as E. rewrite length_app in E. rewrite es_length. destruct f; [by destruct Hf|]. cbn in E. exists (length buf - 1)%nat. lia. }
  eexists. split.
  - rewrite Hk. cbn [parseredirs]. rewrite H1, H2, H3, Hg. cbn [negb Z.eqb]. rewrite Z.eqb_refl. cbn [negb].
    by apply (redirs_none k _ _ post); [|apply closes_plain].
  - intros c. cbn [id]. rewrite H4. exact (f_equal (fun x => redircmd (slice buf <$> c) x m fd) Hsl).
Qed.

Lemma token_end p : at_pos p [] -> gettoken buf p = (0, p, p, p).
Proof using Hbuf.
  intros Hat. unfold gettoken. pose proof (skip_at _ _ Hat I) as Hs. rewrite Hs, (chr_at _ _ Hat). cbn. by rewrite Hs.
Qed.

Lemma parseargs_show argv : forall acc p post fuel,
  at_pos p (show (execcmd argv) ++ post) -> closes post -> Forall word_ok argv ->
  (length acc + length argv < MAXARGS)%nat -> (length argv < fuel)%nat ->
  exists ws, parseargs buf fuel acc id p = POk (execcmd (acc ++ ws), p + length (show (execcmd argv)))%nat /\ slice buf <$> ws = argv.
Proof using Hbuf.
  induction argv as [|w argv IH]; intros acc p post fuel Hat Hp Hw Hn Hf; (destruct fuel as [|fuel]; [cbn in Hf; lia|]); cbn [parseargs].
  - cbn in Hat. exists []. rewrite app_nil_r. change (length (show (execcmd []))) with 0%nat. rewrite Nat.add_0_r. split; [|done].
    rewrite (peek_at _ _ _ Hat (plain_stops _ (closes_plain _ Hp))). destruct post as [|c post]; [|by cbn in Hp; subst]. by rewrite (token_end _ Hat).
  - apply Forall_cons in Hw as [Hw Hws].
    assert (show (execcmd (w :: argv)) = w ++ [ch_space] ++ show (execcmd argv)) as Esh by (cbn; by rewrite <- app_assoc).
    rewrite Esh in Hat |- *. rewrite <- !app_assoc in Hat. set (l := show (execcmd argv) ++ post) in *.
    assert (plain l) as Hl by (apply show_plain; [split; [done|cbn in Hn; lia]|by apply closes_plain]).
    rewrite (peek_at _ _ _ Hat (plain_stops _ (word_plain _ _ Hw))).
    assert (match w ++ [ch_space] ++ l with [] => false | c :: _ => strchr [ch_bar; ch_close; ch_amp; ch_semi] c end = false) as ->.
    { destruct w as [|c w]; [by destruct Hw|]. apply word_head in Hw as [_ Hc]. apply bool_decide_eq_false. unfold symbols in Hc. set_solver. }
    rewrite (token_word p w [ch_space] l Hat Hw); [|done|by repeat constructor|by apply plain_stops]. rewrite Z.eqb_refl. cbn [negb Z.eqb ch_a].
    assert ((MAXARGS <=? length (acc ++ [(p, p + length w)]))%nat = false) as -> by (apply Nat.leb_gt; rewrite length_app; cbn in Hn |- *; lia).
    pose proof (at_app _ _ _ (at_app _ _ _ Hat)) as Hat2. rewrite (redirs_none _ _ _ _ Hat2 Hl). cbn [mbind parsed_bind fst snd].
    destruct (IH (acc ++ [(p, p + length w)]%nat) _ post fuel Hat2 Hp Hws) as (ws & -> & Ews); [rewrite length_app; cbn in *; lia|cbn in *; lia|].
    exists ((p, p + length w)%nat :: ws). rewrite <- app_assoc. split; [by rewrite !length_app, !Nat.add_assoc|].
    rewrite fmap_cons, Ews. by rewrite (slice_at _ _ _ Hat).
Qed.

(** *** Commands *)

Definition reparses (c : cmd (list Z)) : Prop := forall p post fuel,
  at_pos p (show c ++ post) -> closes post -> (5 * length (show c) + 3 <= fuel)%nat ->
  exists cw, parseline buf fuel p = POk (cw, p + length (show c))%nat /\ slice buf <$> cw = c.

(** A command in parentheses; what follows it may be redirections. *)
Lemma block_at c p post fuel : reparses c -> expressible c -> at_pos p (ch_open :: show c ++ ch_close :: post) -> stops is_ws post ->
  (5 * length (show c) + 3 <= fuel)%nat ->
  exists cw, slice buf <$> cw = c /\
    parseexec buf (S (S fuel)) p = (r' ← parseredirs buf (S (es buf)) id (p + length (show c) + 2)%nat; mret (r'.1 cw, r'.2)).
Proof using Hbuf.
  intros IH Hc Hat Hpost Hf. pose proof (at_tail _ _ _ Hat) as Hat1. assert (plain (show c ++ ch_close :: post)) as Hpl by by apply show_plain.
  destruct (IH (S p) (ch_close :: post) fuel Hat1 eq_refl Hf) as (cw & Hline & Hcw). exists cw. split; [done|].
  pose proof (at_app _ _ _ Hat1) as Hat2. cbn [parseexec parseblock].
  rewrite (peek_at p _ [ch_open] Hat eq_refl). change (strchr [ch_open] ch_open) with true. cbn [parseblock].
  rewrite (peek_at p _ [ch_open] Hat eq_refl). change (strchr [ch_open] ch_open) with true. cbn [negb].
  rewrite (token_symbol p _ _ Hat eq_refl (plain_stops _ Hpl)). cbn [snd]. rewrite Hline. cbn [mbind parsed_bind fst snd].
  rewrite (peek_at _ _ _ Hat2 eq_refl). change (strchr [ch_close] ch_close) with true. cbn [negb].
  rewrite (token_symbol _ _ _ Hat2 eq_refl Hpost). cbn [snd]. by replace (S (S p + length (show c))) with (p + length (show c) + 2)%nat by lia.
Qed.

(** The same with no redirection. *)
Lemma block_plain c p post fuel : reparses c -> expressible c -> at_pos p (ch_open :: show c ++ ch_close :: post) -> plain post ->
  (5 * length (show c) + 5 <= fuel)%nat ->
  exists cw, slice buf <$> cw = c /\ parseexec buf fuel p = POk (cw, p + length (show c) + 2)%nat /\ at_pos (p + length (show c) + 2) post.
Proof using Hbuf.
  intros IH Hc Hat Hpost Hf. destruct fuel as [|[|fuel]]; [lia..|].
  destruct (block_at c p post fuel IH Hc Hat (plain_stops _ Hpost) ltac:(lia)) as (cw & Hcw & He). exists cw. split; [done|].
  assert (at_pos (p + length (show c) + 2) post) as Hat2.
  { change (at_pos p ([ch_open] ++ show c ++ [ch_close] ++ post)) in Hat. apply at_app, at_app, at_app in Hat. cbn in Hat.
    by replace (p + length (show c) + 2)%nat with (p + 1 + length (show c) + 1)%nat by lia. }
  split; [|done]. by rewrite He, (redirs_none _ _ _ _ Hat2 Hpost).
Qed.

(** The separator that does not follow. *)
Lemma pipe_of_exec f p cw p' l : parseexec buf f p = POk (cw, p') -> at_pos p' l -> plain l -> head l <> Some ch_bar ->
  parsepipe buf (S f) p = POk (cw, p').
Proof using Hbuf.
  intros He Hat Hl Hb. cbn [parsepipe]. rewrite He. cbn [mbind parsed_bind fst snd]. rewrite (peek_at _ _ _ Hat (plain_stops _ Hl)).
  destruct l as [|c l]; [done|]. assert (strchr [ch_bar] c = false) as ->; [|done]. apply bool_decide_eq_false. set_solver.
Qed.
Lemma line_of_pipe f p cw p' l : parsepipe buf f p = POk (cw, p') -> at_pos p' l -> closes l -> parseline buf (S f) p = POk (cw, p').
Proof using Hbuf.
  intros He Hat Hl. cbn [parseline parseback]. rewrite He. cbn [mbind parsed_bind fst snd].
  pose proof (plain_stops _ (closes_plain _ Hl)) as Hs. rewrite (peek_at _ _ _ Hat Hs). destruct l as [|c l]; [|cbn in Hl; subst c].
  - cbn [mbind parsed_bind fst snd]. by rewrite (peek_at _ _ _ Hat Hs).
  - change (strchr [ch_amp] ch_close) with false. cbn [mbind parsed_bind fst snd]. by rewrite (peek_at _ _ _ Hat Hs).
Qed.
Lemma line_of_exec f p cw p' l : parseexec buf f p = POk (cw, p') -> at_pos p' l -> closes l -> parseline buf (S (S f)) p = POk (cw, p').
Proof using Hbuf.
  intros He Hat Hl. eapply line_of_pipe; [|done..]. eapply pipe_of_exec; [done..|by apply closes_plain|]. destruct l; [done|]. by cbn in Hl; subst.
Qed.

Lemma reparses_exec argv : expressible (execcmd argv) -> reparses (execcmd argv).
Proof using Hbuf.
  intros [Hw Hn] p post fuel Hat Hp Hf. set (sh := show (execcmd argv)) in *. destruct fuel as [|[|[|fuel]]]; [lia..|].
  assert (length argv <= es buf)%nat as Hle.
  { rewrite es_length. apply at_length in Hat. rewrite length_app in Hat. assert (length argv <= length sh)%nat; [|lia].
    unfold sh. cbn [show]. clear. induction argv as [|w argv IH]; [done|]. cbn. rewrite !length_app. cbn in *. lia. }
  assert (plain (sh ++ post)) as Hpl by (apply show_plain; [done|by apply closes_plain]).
  destruct (parseargs_show argv [] p post (S (es buf)) Hat Hp Hw) as (ws & Ha & Hws); [cbn; lia|lia|].
  exists (execcmd ws). split; [|exact (f_equal execcmd Hws)].
  eapply line_of_exec; [|by apply at_app|done]. cbn [parseexec]. rewrite (peek_at _ _ _ Hat (plain_stops _ Hpl)).
  assert (match sh ++ post with [] => false | c :: _ => strchr [ch_open] c end = false) as ->.
  { unfold sh. destruct argv as [|w argv]; [destruct post; [done|]; by cbn in Hp; subst|].
    apply Forall_cons in Hw as [Hw _]. destruct w as [|c w]; [by destruct Hw|]. apply word_head in Hw as [_ Hc].
    apply bool_decide_eq_false. unfold symbols in Hc. set_solver. }
  rewrite (redirs_none _ _ _ _ Hat Hpl). exact Ha.
Qed.

Lemma reparses_redir c f m fd : reparses c -> expressible (redircmd c f m fd) -> reparses (redircmd c f m fd).
Proof using Hbuf.
  intros IH (Hc & Hf & Hm) p post fuel Hat Hp Hfu. cbn [show] in *. rewrite !length_cons, length_app, length_cons, length_app in Hfu |- *.
  destruct fuel as [|[|[|[|fuel]]]]; [lia..|]. cbn [app] in Hat. rewrite <- app_assoc in Hat. cbn [app] in Hat. rewrite <- app_assoc in Hat.
  destruct (block_at c p _ fuel IH Hc Hat) as (cw & Hcw & He); [unfold redir_op; by repeat case_match|lia|].
  assert (at_pos (p + length (show c) + 2) (redir_op m ++ f ++ post)) as Hat2.
  { change (at_pos p ([ch_open] ++ show c ++ [ch_close] ++ redir_op m ++ f ++ post)) in Hat. apply at_app, at_app, at_app in Hat. cbn in Hat.
    by replace (p + length (show c) + 2)%nat with (p + 1 + length (show c) + 1)%nat by lia. }
  destruct (redirs_one _ m fd f post Hm Hf Hp Hat2) as (wrap & Hr & Hwrap).
  exists (wrap cw). split; [|by rewrite Hwrap, Hcw].
  eapply (line_of_exec (S (S fuel)) p _ _ post); [|apply at_app, at_app in Hat2|done].
  - rewrite He, Hr. cbn. do 2 f_equal. lia.
  - by replace (p + S (length (show c) + S (length (redir_op m) + length f)))%nat with (p + length (show c) + 2 + length (redir_op m) + length f)%nat by lia.
Qed.

(** One call of [parsepipe] and of [parseline]. *)
Lemma parsepipe_eq f p : parsepipe buf (S f) p =
  (r ← parseexec buf f p;
   let (b, s) := peek buf r.2 [ch_bar] in
   if b : bool then r' ← parsepipe buf f (gettoken buf s).2; mret (pipecmd r.1 r'.1, r'.2) else mret (r.1, s)).
Proof. done. Qed.
Lemma parseline_eq f p : parseline buf (S f) p =
  (r ← parsepipe buf f p;
   r ← parseback buf (S (es buf)) r.1 r.2;
   let (b, s) := peek buf r.2 [ch_semi] in
   if b : bool then r' ← parseline buf f (gettoken buf s).2; mret (listcmd r.1 r'.1, r'.2) else mret (r.1, s)).
Proof. done. Qed.

Lemma reparses_pipe l r : reparses l -> reparses r -> expressible (pipecmd l r) -> reparses (pipecmd l r).
Proof using Hbuf.
  intros IHl IHr [Hl Hr] p post fuel Hat Hp Hf. cbn [show] in *. rewrite length_cons, length_app, !length_cons, length_app in Hf |- *. cbn [length] in Hf |- *.
  destruct fuel as [|[|[|fuel]]]; [lia..|]. cbn [app] in Hat. rewrite <- app_assoc in Hat. cbn [app] in Hat. rewrite <- app_assoc in Hat. cbn [app] in Hat.
  destruct (block_plain l p _ (S fuel) IHl Hl Hat ltac:(done) ltac:(lia)) as (lw & Hlw & Hel & Hat1).
  pose proof (at_tail _ _ _ Hat1) as Hat2.
  destruct (block_plain r _ _ fuel IHr Hr Hat2 (closes_plain _ Hp) ltac:(lia)) as (rw & Hrw & Her & Hat3).
  exists (pipecmd lw rw). split; [|exact (f_equal2 pipecmd Hlw Hrw)].
  replace (p + S (length (show l) + S (S (S (length (show r) + 1)))))%nat with (S (p + length (show l) + 2) + length (show r) + 2)%nat by lia.
  eapply line_of_pipe; [|exact Hat3|done]. rewrite parsepipe_eq, Hel. cbn [mbind parsed_bind fst snd].
  rewrite (peek_at _ _ _ Hat1 eq_refl). change (strchr [ch_bar] ch_bar) with true. rewrite (token_symbol _ _ _ Hat1 eq_refl eq_refl). cbn [snd].
  rewrite (pipe_of_exec fuel _ rw _ _ Her Hat3 (closes_plain _ Hp)); [done|]. destruct post; [done|]. by cbn in Hp; subst.
Qed.

Lemma reparses_list l r : reparses l -> reparses r -> expressible (listcmd l r) -> reparses (listcmd l r).
Proof using Hbuf.
  intros IHl IHr [Hl Hr] p post fuel Hat Hp Hf. cbn [show] in *. rewrite length_cons, length_app, !length_cons, length_app in Hf |- *. cbn [length] in Hf |- *.
  destruct fuel as [|[|[|fuel]]]; [lia..|]. cbn [app] in Hat. rewrite <- app_assoc in Hat. cbn [app] in Hat. rewrite <- app_assoc in Hat. cbn [app] in Hat.
  destruct (block_plain l p _ (S fuel) IHl Hl Hat ltac:(done) ltac:(lia)) as (lw & Hlw & Hel & Hat1).
  pose proof (at_tail _ _ _ Hat1) as Hat2.
  destruct (block_plain r _ _ fuel IHr Hr Hat2 (closes_plain _ Hp) ltac:(lia)) as (rw & Hrw & Her & Hat3).
  exists (listcmd lw rw). split; [|exact (f_equal2 listcmd Hlw Hrw)].
  replace (p + S (length (show l) + S (S (S (length (show r) + 1)))))%nat with (S (p + length (show l) + 2) + length (show r) + 2)%nat by lia.
  pose proof (pipe_of_exec (S fuel) _ lw _ _ Hel Hat1 ltac:(done) ltac:(done)) as Hpl.
  rewrite parseline_eq, Hpl. cbn [mbind parsed_bind fst snd parseback].
  rewrite (peek_at _ _ _ Hat1 eq_refl). change (strchr [ch_amp] ch_semi) with false. cbn [mbind parsed_bind fst snd].
  rewrite (peek_at _ _ _ Hat1 eq_refl). change (strchr [ch_semi] ch_semi) with true. rewrite (token_symbol _ _ _ Hat1 eq_refl eq_refl). cbn [snd].
  by rewrite (line_of_exec fuel _ rw _ _ Her Hat3 Hp).
Qed.

Lemma reparses_back c : reparses c -> expressible c -> reparses (backcmd c).
Proof using Hbuf.
  intros IH Hc p post fuel Hat Hp Hf. cbn [show] in *. rewrite length_cons, length_app in Hf |- *. cbn [length] in Hf |- *.
  destruct fuel as [|[|fuel]]; [lia..|]. cbn [app] in Hat. rewrite <- app_assoc in Hat. cbn [app] in Hat.
  destruct (block_plain c p _ fuel IH Hc Hat ltac:(done) ltac:(lia)) as (cw & Hcw & He & Hat1).
  pose proof (at_tail _ _ _ Hat1) as Hat2. pose proof (plain_stops _ (closes_plain _ Hp)) as Hs.
  exists (backcmd cw). split; [|exact (f_equal backcmd Hcw)].
  replace (p + S (length (show c) + 2))%nat with (S (p + length (show c) + 2)) by lia.
  pose proof (pipe_of_exec fuel _ cw _ _ He Hat1 ltac:(done) ltac:(done)) as Hpl.
  assert (exists n, es buf = S n) as [n Hn].
  { apply at_length in Hat1. cbn in Hat1. rewrite es_length. exists (length buf - 1)%nat. lia. }
  rewrite parseline_eq, Hpl, Hn. cbn [mbind parsed_bind fst snd parseback].
  rewrite (peek_at _ _ _ Hat1 eq_refl). change (strchr [ch_amp] ch_amp) with true. rewrite (token_symbol _ _ _ Hat1 eq_refl Hs). cbn [snd].
  rewrite !(peek_at _ _ _ Hat2 Hs). destruct post as [|d post]; [|cbn in Hp; subst d].
  - cbn [mbind parsed_bind fst snd]. by rewrite (peek_at _ _ _ Hat2 Hs).
  - change (strchr [ch_amp] ch_close) with false. cbn [mbind parsed_bind fst snd]. by rewrite (peek_at _ _ _ Hat2 Hs).
Qed.

Lemma reparses_all c : expressible c -> reparses c.
Proof using Hbuf.
  induction c as [argv|c IH f m fd|l IHl r IHr|l IHl r IHr|c IH]; intros Hc.
  - by apply reparses_exec.
  - apply reparses_redir; [apply IH, Hc|done].
  - apply reparses_pipe; [apply IHl, Hc|apply IHr, Hc|done].
  - apply reparses_list; [apply IHl, Hc|apply IHr, Hc|done].
  - apply reparses_back; [apply IH, Hc|done].
Qed.
End reparse.

Lemma cmd_fmap_ext {A B} (f g : A -> B) (c : cmd A) : (forall w, w ∈ words c -> f w = g w) -> f <$> c = g <$> c.
Proof.
  induction c as [argv|c IH w m fd|l IHl r IHr|l IHl r IHr|c IH]; intros H; cbn [words] in H.
  - change (execcmd (f <$> argv) = execcmd (g <$> argv)). f_equal. apply list_fmap_ext. intros i w Hw. apply H. by eapply list_elem_of_lookup_2.
  - change (redircmd (f <$> c) (f w) m fd = redircmd (g <$> c) (g w) m fd). rewrite IH by set_solver. rewrite (H w); [done|]. set_solver.
  - change (pipecmd (f <$> l) (f <$> r) = pipecmd (g <$> l) (g <$> r)). rewrite IHl, IHr by set_solver. done.
  - change (listcmd (f <$> l) (f <$> r) = listcmd (g <$> l) (g <$> r)). rewrite IHl, IHr by set_solver. done.
  - change (backcmd (f <$> c) = backcmd (g <$> c)). by rewrite IH.
Qed.

Lemma parsecmd_show_run c : expressible c ->
  exists cw b, parsecmd (show c) 0 = POk (cw, b) /\ (fun w : nat * nat => cstr b w.1) <$> cw = c.
Proof.
  intros Hc. pose proof (show_nonzero c Hc) as Hnz. pose proof (es_length _ Hnz) as Hes.
  assert (at_pos (show c) 0 (show c ++ [])) as Hat by (split; [by rewrite app_nil_r|lia]).
  destruct (reparses_all _ Hnz c Hc 0%nat [] (parse_fuel (show c)) Hat I) as (cw & Hl & Hcw); [unfold parse_fuel; lia|].
  pose proof (at_app _ _ _ _ Hat) as Hend.
  assert (parsecmd (show c) 0 = POk (cw, nulterminate cw (show c))) as Hp.
  { unfold parsecmd. rewrite Hl. cbn [mbind parsed_bind fst snd]. rewrite (peek_at _ Hnz _ _ _ Hend I), Hes. cbn [Nat.add]. by rewrite Nat.eqb_refl. }
  exists cw, (nulterminate cw (show c)). split; [done|]. transitivity (slice (show c) <$> cw); [|done]. apply cmd_fmap_ext. intros w Hw.
  pose proof (parsecmd_total (show c) 0 ltac:(lia)) as Ht. rewrite Hp in Ht. by apply nulterminate_cstr; [apply Ht|].
Qed.

(** C23: every command whose words are proper words, with fewer than MAXARGS
    arguments to each program, can be written down, and parsecmd on that line
    returns exactly that command: the same tree, and the words, read as C
    strings in the line nulterminate leaves, the same words. *)
Theorem parsecmd_show c : expressible c ->
  exists cw b, parsecmd (show c) 0 = POk (cw, b) /\ (fun w : nat * nat => cstr b w.1) <$> cw = c.
Proof. apply parsecmd_show_run. Qed.

Module Demo.
(** [((cat f )>>o)|(wc )] and [(ls )&], one after the other. *)
Definition line : cmd (list Z) :=
  listcmd (pipecmd (redircmd (execcmd [[99; 97; 116]; [102]]) [111] M_APPEND 1) (execcmd [[119; 99]])) (backcmd (execcmd [[108; 115]])).

Lemma line_expressible : expressible line.
Proof. vm_compute. repeat first [split | constructor | discriminate]. Qed.

Lemma parsecmd_show_witness : exists cw b, parsecmd (show line) 0 = POk (cw, b) /\ (fun w : nat * nat => cstr b w.1) <$> cw = line.
Proof. exact (parsecmd_show line line_expressible). Defined.

(** [ls >x;] *)
Lemma parsecmd_words_witness : exists c b, parsecmd [108; 115; 32; 62; 120; 59; 0] 0 = POk (c, b) /\
  forall w, w ∈ words c -> cstr b w.1 = slice [108; 115; 32; 62; 120; 59; 0] w.
Proof.
  pose proof (parsecmd_words [108; 115; 32; 62; 120; 59; 0] 0 ltac:(cbn; lia)) as H.
  destruct (parsecmd [108; 115; 32; 62; 120; 59; 0] 0) as [[c b]| | |] eqn:E; [|vm_compute in E; discriminate..].
  exists c, b. split; [done|]. intros w Hw. apply (H w Hw).
Defined.
End Demo.
