(* ===== verification/ShGrammar.v ===== *)
(** * The language of the shell

    The grammar that the parser of user/sh.c implements, as syntax trees with
    the tokens they are written with and the command they mean, and that
    [parsecmd] on any line spelled with those tokens, however they are spaced,
    returns that command. The grammar is that of a list of background pipelines:
<<
      line  ::= pipe '&'* [';' line]
      pipe  ::= exec ['|' pipe]
      exec  ::= redir* (word redir* )*  |  '(' line ')' redir*
      redir ::= ('<' | '>' | '>>') word
>> *)

From S2P Require Import Prelude Sh ShParse.

(** ** Tokens *)

Inductive token := TSym (c : Z) | TRedir (m fd : Z) | TWord (w : list Z).

Definition chars (t : token) : list Z := match t with TSym c => [c] | TRedir m _ => redir_op m | TWord w => w end.
Definition token_ok (t : token) : Prop :=
  match t with
  | TSym c => c ∈ [ch_bar; ch_open; ch_close; ch_semi; ch_amp]
  | TRedir m fd => (m, fd) ∈ [(M_READ, 0); (M_TRUNC, 1); (M_APPEND, 1)]
  | TWord w => word_ok w
  end.

(** What may follow a token directly: a word ends at a blank or a symbol, and
    [>] is not followed by another. *)
Definition apart (t : token) (text : list Z) : Prop :=
  match t with
  | TSym _ => True
  | TRedir m _ => m = M_TRUNC -> head text <> Some ch_gt
  | TWord _ => stops is_word text
  end.

Abbreviation blank := (Forall (fun c => is_ws c = true)) (only parsing).

(** The text of a sequence of tokens, with white space around them. *)
Inductive spelled : list token -> list Z -> Prop :=
  | sp_end w : blank w -> spelled [] w
  | sp_token w t ts text : blank w -> token_ok t -> apart t text -> spelled ts text -> spelled (t :: ts) (w ++ chars t ++ text).

(** ** Syntax trees *)

Record rdr := Rdr { r_file : list Z; r_mode : Z; r_fd : Z }.

Inductive gline :=
  | LEnd (p : gpipe) (amps : nat)
  | LSeq (p : gpipe) (amps : nat) (l : gline)
with gpipe :=
  | PEnd (e : gexec)
  | PSeq (e : gexec) (p : gpipe)
with gexec :=
  | Simple (rs : list rdr) (args : list (list Z * list rdr))
  | Group (l : gline) (rs : list rdr).

Scheme gline_mind := Induction for gline Sort Prop
  with gpipe_mind := Induction for gpipe Sort Prop
  with gexec_mind := Induction for gexec Sort Prop.
Combined Scheme grammar_ind from gline_mind, gpipe_mind, gexec_mind.

Definition rtoks (rs : list rdr) : list token := rs ≫= fun r => [TRedir (r_mode r) (r_fd r); TWord (r_file r)].
Definition atoks (args : list (list Z * list rdr)) : list token := args ≫= fun a => TWord a.1 :: rtoks a.2.

Fixpoint line_toks (l : gline) : list token :=
  match l with
  | LEnd p n => pipe_toks p ++ replicate n (TSym ch_amp)
  | LSeq p n l => pipe_toks p ++ replicate n (TSym ch_amp) ++ TSym ch_semi :: line_toks l
  end
with pipe_toks (p : gpipe) : list token :=
  match p with
  | PEnd e => exec_toks e
  | PSeq e p => exec_toks e ++ TSym ch_bar :: pipe_toks p
  end
with exec_toks (e : gexec) : list token :=
  match e with
  | Simple rs args => rtoks rs ++ atoks args
  | Group l rs => TSym ch_open :: line_toks l ++ TSym ch_close :: rtoks rs
  end.

(** The command: later redirections are around earlier ones. *)
Definition redirected (rs : list rdr) (c : cmd (list Z)) : cmd (list Z) :=
  foldl (fun c r => redircmd c (r_file r) (r_mode r) (r_fd r)) c rs.

Fixpoint line_cmd (l : gline) : cmd (list Z) :=
  match l with
  | LEnd p n => Nat.iter n backcmd (pipe_cmd p)
  | LSeq p n l => listcmd (Nat.iter n backcmd (pipe_cmd p)) (line_cmd l)
  end
with pipe_cmd (p : gpipe) : cmd (list Z) :=
  match p with
  | PEnd e => exec_cmd e
  | PSeq e p => pipecmd (exec_cmd e) (pipe_cmd p)
  end
with exec_cmd (e : gexec) : cmd (list Z) :=
  match e with
  | Simple rs args => redirected (rs ++ concat args.*2) (execcmd args.*1)
  | Group l rs => redirected rs (line_cmd l)
  end.

(** Every program has fewer than [MAXARGS] arguments. *)
Fixpoint line_fits (l : gline) : Prop :=
  match l with LEnd p _ => pipe_fits p | LSeq p _ l => pipe_fits p /\ line_fits l end
with pipe_fits (p : gpipe) : Prop :=
  match p with PEnd e => exec_fits e | PSeq e p => exec_fits e /\ pipe_fits p end
with exec_fits (e : gexec) : Prop :=
  match e with Simple _ args => (length args < MAXARGS)%nat | Group l _ => line_fits l end.

(** ** Outcomes: what is returned satisfies [P], unless the fuel runs out *)

Definition gives {A} (P : A -> Prop) (m : parsed A) : Prop :=
  match m with POk a => P a | PFuel => True | PPanic _ | PLeft _ => False end.

Lemma gives_bind {A B} (P : A -> Prop) (Q : B -> Prop) m (f : A -> parsed B) :
  gives P m -> (forall a, P a -> gives Q (f a)) -> gives Q (m ≫= f).
Proof. destruct m; cbn; auto. Qed.

Lemma gives_mono {A} (P Q : A -> Prop) m : gives P m -> (forall a, P a -> Q a) -> gives Q m.
Proof. destruct m; cbn; auto. Qed.

Section grammar.
Context (buf : list Z) (Hbuf : Forall (fun ch => ch <> 0) buf).

(** The tokens [ts] are the rest of the line at [p]. *)
Definition reads (p : nat) (ts : list token) : Prop := exists text, at_pos buf p text /\ spelled ts text.

Lemma token_head t : token_ok t -> exists c l, chars t = c :: l /\ is_ws c = false /\ c <> 0.
Proof.
  destruct t as [c|m fd|w]; cbn [token_ok chars].
  - intros Hc. exists c, []. set_unfold in Hc. destruct_or! Hc; by subst.
  - intros Hm. set_unfold in Hm. destruct_or! Hm; injection Hm as -> ->; by eexists _, _.
  - intros Hw. destruct w as [|c w]; [by destruct Hw|]. exists c, w. split; [done|]. destruct (word_head _ _ Hw).
    split; [done|]. destruct Hw as [_ [[? _] _]%Forall_cons]. done.
Qed.

Lemma blank_tight w text : blank w -> stops is_ws text -> forall p, at_pos buf p (w ++ text) ->
  skip_ws buf p = (p + length w)%nat /\ at_pos buf (p + length w) text.
Proof using Hbuf. intros Hw Ht p Hp. split; [|by apply at_app]. unfold skip_ws. by apply (scan_at buf Hbuf is_ws w p text). Qed.

(** The next token starts where the white space ends. *)
Lemma reads_cons p t ts : reads p (t :: ts) -> token_ok t /\
  exists text, at_pos buf (skip_ws buf p) (chars t ++ text) /\ apart t text /\ spelled ts text.
Proof using Hbuf.
  intros (text & Hp & Hs). inversion Hs as [|w t' ts' text' Hw Ht Ha Hs']; subst. split; [done|]. exists text'.
  destruct (token_head t Ht) as (c & l & E & Hc & _).
  destruct (blank_tight w (chars t ++ text') Hw) with p as [-> Hat]; [by rewrite E|done|]. done.
Qed.
Lemma reads_nil p : reads p [] -> at_pos buf (skip_ws buf p) [].
Proof using Hbuf.
  intros (text & Hp & Hs). inversion Hs as [w Hw|]; subst. rewrite <- (app_nil_r text) in Hp.
  by destruct (blank_tight text [] Hw I p Hp) as [-> Hat].
Qed.
Lemma reads_skip p ts : reads p ts -> reads (skip_ws buf p) ts.
Proof using Hbuf.
  intros H. destruct ts as [|t ts].
  - exists []. split; [by apply reads_nil|by constructor].
  - apply reads_cons in H as (Ht & text & Hat & Ha & Hs). exists ([] ++ chars t ++ text). split; [done|]. by constructor.
Qed.

(** The first byte of the next token. *)
Definition first (ts : list token) (toks : list Z) : bool :=
  match ts with [] => false | t :: _ => strchr toks (default 0 (head (chars t))) end.

Lemma peek_reads p ts toks : reads p ts -> peek buf p toks = (first ts toks, skip_ws buf p).
Proof using Hbuf.
  intros H. unfold peek. f_equal. destruct ts as [|t ts].
  - by rewrite (chr_at buf _ _ (reads_nil p H)).
  - apply reads_cons in H as (Ht & text & Hat & _). destruct (token_head t Ht) as (c & l & E & _ & H0).
    rewrite (chr_at buf _ _ Hat). unfold first. rewrite E. cbn [app head]. change (default 0 (Some c)) with c. apply Z.eqb_neq in H0. by rewrite H0.
Qed.

Definition code (t : token) : Z :=
  match t with
  | TSym c => c
  | TRedir m _ => if m =? M_READ then ch_lt else if m =? M_TRUNC then ch_gt else ch_plus
  | TWord _ => ch_a
  end.

Lemma skip_skip p : (p <= es buf)%nat -> skip_ws buf (skip_ws buf p) = skip_ws buf p.
Proof using.
  intros Hp. destruct (skip_spec buf p Hp) as [H1 H2]. unfold skip_ws at 1. set (q := skip_ws buf p) in *.
  destruct (es buf - q)%nat eqn:E; [done|]. cbn [scan]. fold (chr buf q). destruct H2 as [H2|H2]; [lia|]. by rewrite H2.
Qed.
Lemma reads_le p ts : reads p ts -> (p <= es buf)%nat.
Proof using Hbuf. intros (text & [_ Hp] & _). by rewrite (es_length buf Hbuf). Qed.

Lemma gettoken_reads p t ts : reads p (t :: ts) -> exists e,
  gettoken buf p = (code t, skip_ws buf p, e, skip_ws buf e) /\ reads e ts /\
  forall w, t = TWord w -> slice buf (skip_ws buf p, e) = w.
Proof using Hbuf.
  intros H. apply reads_cons in H as (Ht & text & Hat & Ha & Hs). set (q := skip_ws buf p) in *.
  assert (reads (q + length (chars t)) ts) as Hr by (exists text; split; [by apply at_app|done]).
  exists (q + length (chars t))%nat. unfold gettoken. fold q. rewrite (chr_at buf _ _ Hat).
  destruct t as [c|m fd|w]; cbn [token_ok chars code apart] in *.
  - cbn [app head length] in *. rewrite Nat.add_1_r. split_and!; [|by rewrite Nat.add_1_r in Hr|done].
    set_unfold in Ht. destruct_or! Ht; by subst c.
  - split_and!; [|done|done]. set_unfold in Ht. destruct_or! Ht; injection Ht as -> ->; cbn [redir_op] in *.
    + change (redir_op M_READ) with [ch_lt] in *. cbn [app head length]. by rewrite Nat.add_1_r.
    + change (redir_op M_TRUNC) with [ch_gt] in *. cbn [app head length]. cbn. cbn [app] in Hat. rewrite (chr_at buf _ _ (at_tail buf _ _ _ Hat)).
      specialize (Ha eq_refl). rewrite Nat.add_1_r. destruct (Z.eqb_spec (default 0 (head text)) ch_gt) as [E|_]; [|done].
      destruct text; [done|]. cbn in E. by subst.
    + change (redir_op M_APPEND) with [ch_gt; ch_gt] in *. cbn [app] in Hat. cbn. rewrite (chr_at buf _ _ (at_tail buf _ _ _ Hat)). cbn.
      by replace (q + 2)%nat with (S (S q)) by lia.
  - split_and!; [|done|intros w' [= <-]; by apply (slice_at buf q w text)].
    destruct Ht as [Hn Hw]. pose proof (Forall_impl _ (fun c => is_word c = true) _ Hw ltac:(by intros ? [])) as Hw'.
    pose proof (scan_at buf Hbuf is_word w q text Hat Hw' Ha) as Hscan.
    destruct w as [|c w]; [done|]. destruct (word_head c w (conj Hn Hw)) as [_ Hsym]. apply Forall_cons in Hw as [[H0 _] _].
    cbn [app head]. change (default 0 (Some c)) with c. apply Z.eqb_neq in H0. rewrite H0. unfold symbols in Hsym.
    assert (strchr [ch_bar; ch_open; ch_close; ch_semi; ch_amp; ch_lt] c = false) as -> by (apply bool_decide_eq_false; set_solver).
    assert ((c =? ch_gt) = false) as -> by (apply Z.eqb_neq; set_solver). cbn [fst snd]. by rewrite Hscan.
Qed.
Lemma gettoken_end p : reads p [] -> (gettoken buf p).1.1.1 = 0 /\ reads (gettoken buf p).2 [].
Proof using Hbuf.
  intros H. pose proof (reads_skip _ _ H) as H1. apply reads_nil in H. unfold gettoken. rewrite (chr_at buf _ _ H). cbn. split; [done|].
  by apply reads_skip.
Qed.
(** A symbol that was peeked at is taken. *)
Lemma take_symbol p c ts : reads p (TSym c :: ts) -> reads (gettoken buf (skip_ws buf p)).2 ts.
Proof using Hbuf.
  intros H. destruct (gettoken_reads _ _ _ (reads_skip _ _ H)) as (e & -> & He & _). by apply reads_skip.
Qed.

(** ** The parser on a spelled line *)

(** A command of the parser with its words read. *)
Abbreviation img := (fmap (M := cmd) (slice buf)) (only parsing).

Definition follows (toks : list Z) (ts : list token) : Prop := ts = [] \/ first ts toks = true.

Lemma first_in ts toks toks' : first ts toks = true -> (forall c, c ∈ toks -> c ∈ toks') -> first ts toks' = true.
Proof. destruct ts as [|t ts]; [done|]. unfold first, strchr. rewrite !bool_decide_eq_true. auto. Qed.
Lemma first_sub ts toks toks' : first ts toks' = false -> (forall c, c ∈ toks -> c ∈ toks') -> first ts toks = false.
Proof. intros H Hs. destruct (first ts toks) eqn:E; [|done]. by rewrite (first_in _ _ _ E Hs) in H. Qed.
Lemma first_out ts toks toks' : first ts toks = true -> (forall c, c ∈ toks -> c ∉ toks') -> first ts toks' = false.
Proof. destruct ts as [|t ts]; [done|]. unfold first, strchr. rewrite bool_decide_eq_true, bool_decide_eq_false. auto. Qed.
Lemma follows_out ts toks toks' : follows toks ts -> (forall c, c ∈ toks -> c ∉ toks') -> first ts toks' = false.
Proof. intros [->|H] Hd; [done|]. by eapply first_out. Qed.
Lemma follows_in ts toks toks' : follows toks ts -> (forall c, c ∈ toks -> c ∈ toks') -> follows toks' ts.
Proof. intros [->|H] Hd; [by left|right]. by eapply first_in. Qed.

(** A token read at [p] is a proper one. *)
Lemma reads_ok p t ts : reads p (t :: ts) -> token_ok t.
Proof. intros (text & _ & Hs). by inversion Hs. Qed.

Lemma redirected_app rs rs' c : redirected (rs ++ rs') c = redirected rs' (redirected rs c).
Proof. apply foldl_app. Qed.

Lemma parseredirs_reads fuel : forall rs wrap p rest, reads p (rtoks rs ++ rest) -> first rest [ch_lt; ch_gt] = false ->
  gives (fun r => reads r.2 rest /\ forall c, img (r.1 c) = redirected rs (img (wrap c))) (parseredirs buf fuel wrap p).
Proof using Hbuf.
  induction fuel as [|fuel IH]; intros rs wrap p rest H Hrest; [done|]. cbn [parseredirs]. rewrite (peek_reads p _ _ H).
  destruct rs as [|[f m fd] rs].
  - change (rtoks [] ++ rest) with rest in *. rewrite Hrest. split; [by apply reads_skip|done].
  - change (rtoks (Rdr f m fd :: rs) ++ rest) with (TRedir m fd :: TWord f :: rtoks rs ++ rest) in *.
    pose proof (reads_ok _ _ _ H) as Hm. cbn [token_ok] in Hm.
    assert (first (TRedir m fd :: TWord f :: rtoks rs ++ rest) [ch_lt; ch_gt] = true) as ->.
    { set_unfold in Hm. destruct_or! Hm; by injection Hm as -> ->. }
    destruct (gettoken_reads _ _ _ (reads_skip _ _ H)) as (e & -> & He & _).
    destruct (gettoken_reads _ _ _ (reads_skip _ _ He)) as (e2 & -> & He2 & Hw). change (negb (code (TWord f) =? ch_a)) with false. cbn iota.
    pose proof (IH rs (fun c => redir (code (TRedir m fd)) (wrap c) (skip_ws buf (skip_ws buf e)) e2) _ rest (reads_skip _ _ He2) Hrest) as IHr.
    destruct (parseredirs _ _ _ _) as [[w p']| | |]; try done. destruct IHr as [H1 H2]. split; [done|]. intros c. rewrite H2. cbn [redirected foldl r_file r_mode r_fd].
    fold (redirected rs). f_equal. specialize (Hw f eq_refl). set_unfold in Hm. rewrite <- Hw. destruct_or! Hm; by injection Hm as -> ->.
Qed.
Abbreviation after_exec := ([ch_bar; ch_close; ch_amp; ch_semi]) (only parsing).
Abbreviation after_pipe := ([ch_close; ch_amp; ch_semi]) (only parsing).

Lemma word_first w ts : word_ok w -> first (TWord w :: ts) symbols = false.
Proof.
  destruct w as [|c w]; [by intros []|]. intros [_ Hs]%word_head. by apply bool_decide_eq_false.
Qed.
Lemma args_plain args rest : Forall (fun a : list Z * list rdr => word_ok a.1) args -> follows after_exec rest ->
  first (atoks args ++ rest) [ch_lt; ch_gt] = false.
Proof.
  intros Ha Hr. destruct args as [|[w rs] args]; [eapply follows_out; [exact Hr|]; set_solver|].
  apply Forall_cons in Ha as [Hw _]. cbn [fst] in Hw. destruct w as [|c w]; [by destruct Hw|]. apply word_head in Hw as [_ Hs].
  change (strchr [ch_lt; ch_gt] c = false). apply bool_decide_eq_false. unfold symbols in Hs. set_solver.
Qed.

(** Words come from tokens, so they are proper. *)
Lemma spelled_ok ts text : spelled ts text -> Forall token_ok ts.
Proof. induction 1; by constructor. Qed.
Lemma reads_tokens p ts : reads p ts -> Forall token_ok ts.
Proof. intros (text & _ & Hs). by eapply spelled_ok. Qed.
Lemma args_ok args : Forall token_ok (atoks args) -> Forall (fun a : list Z * list rdr => word_ok a.1) args.
Proof.
  intros Hs. apply Forall_forall. intros [w rs] Hin.
  rewrite Forall_forall in Hs. apply (Hs (TWord w)). unfold atoks. apply list_elem_of_bind. exists (w, rs). split; [|done]. list_mem.
Qed.

Lemma parseargs_reads fuel : forall args argv wrap W p rest, reads p (atoks args ++ rest) -> follows after_exec rest ->
  (forall c, img (wrap c) = W (img c)) -> (length argv + length args < MAXARGS)%nat ->
  gives (fun r => reads r.2 rest /\ img r.1 = redirected (concat args.*2) (W (execcmd ((slice buf <$> argv) ++ args.*1))))
    (parseargs buf fuel argv wrap p).
Proof using Hbuf.
  induction fuel as [|fuel IH]; intros args argv wrap W p rest H Hrest HW Hn; [done|]. cbn [parseargs]. rewrite (peek_reads p _ _ H).
  pose proof (reads_tokens _ _ H) as [Hok%args_ok _]%Forall_app. destruct args as [|[w rs] args].
  - change (atoks [] ++ rest) with rest in *. cbn [fmap list_fmap concat]. rewrite app_nil_r.
    destruct Hrest as [->|Hf].
    + cbn [first]. pose proof (gettoken_end _ (reads_skip _ _ H)) as [Ht Hr]. destruct (gettoken buf (skip_ws buf p)) as [[[t q] e] p']. cbn [fst snd] in *.
      subst t. cbn. split; [done|]. by rewrite HW.
    + rewrite Hf. cbn. split; [by apply reads_skip|]. by rewrite HW.
  - change (atoks ((w, rs) :: args) ++ rest) with ((TWord w :: rtoks rs ++ atoks args) ++ rest) in *. cbn [app] in *. rewrite <- app_assoc in *.
    apply Forall_cons in Hok as [Hw Hok]. cbn [fst] in Hw.
    rewrite (first_sub _ after_exec symbols) by (by apply word_first || (unfold symbols; set_solver)).
    destruct (gettoken_reads _ _ _ (reads_skip _ _ H)) as (e & -> & He & Hsl). change (code (TWord w) =? 0) with false. change (negb (code (TWord w) =? ch_a)) with false.
    cbn iota. cbn [length] in Hn. rewrite length_app. cbn [length]. rewrite (proj2 (Nat.leb_gt _ _)) by lia.
    eapply gives_bind; [apply (parseredirs_reads _ rs wrap _ _ (reads_skip _ _ He)); by apply args_plain|].
    intros [wr p'] [Hr Hwr]. cbn [fst snd] in *.
    pose proof (IH args (argv ++ [(skip_ws buf (skip_ws buf p), e)]) wr (fun c => redirected rs (W c)) p' rest Hr Hrest) as IHa.
    eapply gives_mono; [apply IHa; [intros c; by rewrite Hwr, HW|rewrite length_app; cbn [length]; lia]|].
    intros r [Hr1 Hr2]. split; [done|]. rewrite Hr2. cbn [fmap list_fmap concat snd fst]. rewrite redirected_app. do 3 f_equal.
    rewrite fmap_app, <- app_assoc. cbn [fmap list_fmap app]. by rewrite (Hsl w eq_refl).
Qed.

Lemma parseback_reads fuel : forall n c p rest, reads p (replicate n (TSym ch_amp) ++ rest) -> follows [ch_close; ch_semi] rest ->
  gives (fun r => reads r.2 rest /\ img r.1 = Nat.iter n backcmd (img c)) (parseback buf fuel c p).
Proof using Hbuf.
  induction fuel as [|fuel IH]; intros n c p rest H Hrest; [done|]. cbn [parseback]. rewrite (peek_reads p _ _ H). destruct n as [|n].
  - cbn [replicate app] in *. rewrite (follows_out _ _ _ Hrest) by set_solver. split; [by apply reads_skip|done].
  - cbn [replicate app] in *. change (first (TSym ch_amp :: replicate n (TSym ch_amp) ++ rest) [ch_amp]) with true. cbn iota.
    eapply gives_mono; [apply (IH n (backcmd c) _ rest (take_symbol _ _ _ H) Hrest)|]. intros r [Hr1 Hr2]. split; [done|].
    rewrite Hr2. change (img (backcmd c)) with (backcmd (img c)). by rewrite <- Nat.iter_succ_r.
Qed.

(** One level of the recursive-descent parser on what it should read. *)
Definition accepts {T} (toks : T -> list token) (mean : T -> cmd (list Z)) (fits : T -> Prop) (after : list Z)
    (f : nat -> parsed (cmd (nat * nat) * nat)) : Prop :=
  forall t p rest, reads p (toks t ++ rest) -> follows after rest -> fits t ->
    gives (fun r => reads r.2 rest /\ img r.1 = mean t) (f p).

Lemma parseexec_eq f p : parseexec buf (S f) p =
  let (b, s) := peek buf p [ch_open] in
  if b : bool then parseblock buf f s else r ← parseredirs buf (S (es buf)) id s; parseargs buf (S (es buf)) [] r.1 r.2.
Proof. done. Qed.
Lemma parseblock_eq f p : parseblock buf (S f) p =
  let (b, s) := peek buf p [ch_open] in
  if negb b then PPanic "parseblock"
  else
    r ← parseline buf f (gettoken buf s).2;
    let (b, s) := peek buf r.2 [ch_close] in
    if negb b then PPanic "syntax - missing )"
    else r' ← parseredirs buf (S (es buf)) id (gettoken buf s).2; mret (r'.1 r.1, r'.2).
Proof. done. Qed.

Lemma parseblock_reads fuel l rs p rest :
  (forall n, (n < fuel)%nat -> accepts line_toks line_cmd line_fits [ch_close] (parseline buf n)) ->
  reads p (exec_toks (Group l rs) ++ rest) -> follows after_exec rest -> line_fits l ->
  gives (fun r => reads r.2 rest /\ img r.1 = redirected rs (line_cmd l)) (parseblock buf fuel p).
Proof using Hbuf.
  intros IH H Hrest Hf. destruct fuel as [|fuel]; [done|]. rewrite parseblock_eq. cbn [exec_toks app] in H. rewrite <- app_assoc in H. cbn [app] in H.
  rewrite (peek_reads p _ _ H). change (first (TSym ch_open :: _) [ch_open]) with true. cbn [negb].
  eapply gives_bind; [apply (IH fuel ltac:(lia) l _ _ (take_symbol _ _ _ H)); [by right|done]|].
  intros [c p1] [H1 Hc]. cbn [fst snd] in *. rewrite (peek_reads p1 _ _ H1). change (first (TSym ch_close :: _) [ch_close]) with true. cbn [negb].
  eapply gives_bind; [apply (parseredirs_reads _ rs id _ rest (take_symbol _ _ _ H1)); eapply follows_out; [exact Hrest|set_solver]|].
  intros [w p2] [H2 Hw]. cbn [fst snd] in *. split; [done|]. cbn. by rewrite Hw, <- Hc.
Qed.

Lemma parseexec_reads fuel :
  (forall n, (n < fuel)%nat -> accepts line_toks line_cmd line_fits [ch_close] (parseline buf n)) ->
  accepts exec_toks exec_cmd exec_fits after_exec (parseexec buf fuel).
Proof using Hbuf.
  intros IH e p rest H Hrest Hf. destruct fuel as [|fuel]; [done|]. rewrite parseexec_eq, (peek_reads p _ _ H). destruct e as [rs args|l rs].
  - cbn [exec_toks] in *. rewrite <- app_assoc in *.
    assert (first (rtoks rs ++ atoks args ++ rest) [ch_open] = false) as ->.
    { destruct rs as [|[f m fd] rs].
      - change (rtoks [] ++ atoks args ++ rest) with (atoks args ++ rest) in *. destruct args as [|[w rs] args]; [eapply follows_out; [exact Hrest|set_solver]|].
        pose proof (reads_ok _ _ _ H) as Hw. eapply first_sub; [by apply word_first|]. unfold symbols. set_solver.
      - pose proof (reads_ok _ _ _ H) as Hm. cbn [token_ok] in Hm. set_unfold in Hm. destruct_or! Hm; by injection Hm as -> ->. }
    apply reads_skip in H. pose proof (reads_tokens _ _ H) as [_ [Hok%args_ok _]%Forall_app]%Forall_app.
    eapply gives_bind; [apply (parseredirs_reads _ rs id _ _ H); by apply args_plain|]. intros [w p1] [H1 Hw]. cbn [fst snd] in *.
    eapply gives_mono; [apply (parseargs_reads _ args [] w (redirected rs) p1 rest H1 Hrest Hw Hf)|].
    intros r [H2 Hr]. split; [done|]. rewrite Hr. cbn [exec_cmd]. by rewrite redirected_app.
  - change (first (exec_toks (Group l rs) ++ rest) [ch_open]) with true. cbn iota.
    apply (parseblock_reads fuel l rs _ rest); [intros n Hn; apply IH; lia|by apply reads_skip|done..].
Qed.

Lemma parsepipe_reads fuel :
  (forall n, (n < fuel)%nat -> accepts line_toks line_cmd line_fits [ch_close] (parseline buf n)) ->
  accepts pipe_toks pipe_cmd pipe_fits after_pipe (parsepipe buf fuel).
Proof using Hbuf.
  induction fuel as [|fuel IHf]; intros IH e p rest H Hrest; [done|]. specialize (IHf (fun n Hn => IH n (Nat.lt_lt_succ_r _ _ Hn))).
  pose proof (parseexec_reads fuel (fun n Hn => IH n (Nat.lt_lt_succ_r _ _ Hn))) as Hexec. rewrite parsepipe_eq. destruct e as [e|e q]; cbn [pipe_toks pipe_cmd pipe_fits] in *.
  - intros Hf. eapply gives_bind; [apply (Hexec e p rest H); [eapply follows_in; [exact Hrest|set_solver]|done]|].
    intros [c p1] [H1 Hc]. cbn [fst snd] in *. rewrite (peek_reads _ _ _ H1), (follows_out _ _ _ Hrest) by set_solver. split; [by apply reads_skip|done].
  - intros [Hf1 Hf2]. rewrite <- app_assoc in H. cbn [app] in H. eapply gives_bind; [apply (Hexec e p _ H); [by right|done]|].
    intros [c p1] [H1 Hc]. cbn [fst snd] in *. rewrite (peek_reads _ _ _ H1). change (first (TSym ch_bar :: _) [ch_bar]) with true. cbn iota.
    eapply gives_bind; [apply (IHf q _ rest (take_symbol _ _ _ H1) Hrest Hf2)|]. intros [c2 p2] [H2 Hc2]. cbn [fst snd] in *.
    split; [done|]. cbn. by rewrite <- Hc, <- Hc2.
Qed.

Lemma parseline_reads fuel : accepts line_toks line_cmd line_fits [ch_close] (parseline buf fuel).
Proof using Hbuf.
  induction fuel as [fuel IH] using lt_wf_ind. destruct fuel as [|fuel]; intros l p rest H Hrest; [done|]. rewrite parseline_eq.
  pose proof (parsepipe_reads fuel (fun n Hn => IH n (Nat.lt_lt_succ_r _ _ Hn))) as Hpipe. destruct l as [q n|q n l]; cbn [line_toks line_cmd line_fits] in *.
  - intros Hf. rewrite <- app_assoc in H. assert (follows [ch_close; ch_semi] rest) as Hr2 by (eapply follows_in; [exact Hrest|set_solver]).
    eapply gives_bind; [apply (Hpipe q p _ H); [|done]|].
    { destruct n; [|by right]. eapply follows_in; [exact Hrest|set_solver]. }
    intros [c p1] [H1 Hc]. cbn [fst snd] in *. eapply gives_bind; [apply (parseback_reads _ n c p1 rest H1 Hr2)|].
    intros [c2 p2] [H2 Hc2]. cbn [fst snd] in *. rewrite (peek_reads _ _ _ H2), (follows_out _ _ _ Hrest) by set_solver.
    split; [by apply reads_skip|]. cbn [fst snd]. by rewrite Hc2, Hc.
  - intros [Hf1 Hf2]. rewrite <- !app_assoc in H. cbn [app] in H. eapply gives_bind; [apply (Hpipe q p _ H); [|done]|].
    { destruct n; by right. }
    intros [c p1] [H1 Hc]. cbn [fst snd] in *. eapply gives_bind; [apply (parseback_reads _ n c p1 _ H1); by right|].
    intros [c2 p2] [H2 Hc2]. cbn [fst snd] in *. rewrite (peek_reads _ _ _ H2). change (first (TSym ch_semi :: _) [ch_semi]) with true. cbn iota.
    eapply gives_bind; [apply (IH fuel ltac:(lia) l _ rest (take_symbol _ _ _ H2) Hrest Hf2)|]. intros [c3 p3] [H3 Hc3]. cbn [fst snd] in *.
    split; [done|]. cbn. by rewrite <- Hc3, <- Hc, <- Hc2.
Qed.

Lemma parsecmd_reads l p : reads p (line_toks l) -> line_fits l ->
  exists cw b, parsecmd buf p = POk (cw, b) /\ (fun w : nat * nat => cstr b w.1) <$> cw = line_cmd l.
Proof using Hbuf.
  intros H Hf. pose proof (parsecmd_total buf p (reads_le _ _ H)) as Ht.
  assert (gives (fun r : cmd (nat * nat) * list Z => img r.1 = line_cmd l /\ r.2 = nulterminate r.1 buf) (parsecmd buf p)) as Hg.
  { rewrite <- (app_nil_r (line_toks l)) in H. eapply gives_bind; [apply (parseline_reads _ l p [] H); [by left|done]|].
    intros [c p1] [H1 Hc]. cbn [fst snd] in *. rewrite (peek_reads _ _ _ H1).
    pose proof (at_length buf _ _ (reads_nil _ H1)) as El. cbn [length] in El.
    assert (skip_ws buf p1 = es buf) as -> by (rewrite (es_length buf Hbuf); lia). rewrite Nat.eqb_refl. done. }
  destruct (parsecmd buf p) as [[cw b]| | |]; try done. destruct Ht as [Htok Hb], Hg as [Hi _]. cbn [fst snd] in *.
  exists cw, b. split; [done|]. rewrite <- Hi. apply cmd_fmap_ext. intros w Hw. subst b. by apply nulterminate_cstr.
Qed.
End grammar.
