(* ===== verification/ShRun.v ===== *)
(** * The shell at work: runcmd, getcmd and main of user/sh.c

    [runcmd] as a tree of system calls, and what it comes to: which programs
    are executed, by which process and with which open files. *)

From S2P Require Import Prelude Riscv Headers Printf Usys User Sh ShParse ShGrammar.

(** ** user/sh.c *)

Definition sh_panic {A} (s : list Z) : prog A := fprintf 2 (str "%s" ++ [10]) [vs s] ≫= fun _ => exit 1.

Definition fork1 : prog Z :=
  pid ← call SFork;
  if pid =? -1 then sh_panic (str "fork") else mret pid.

Fixpoint runcmd (c : cmd (list Z)) : prog unit :=
  match c with
  | execcmd argv =>
      match argv with
      | [] => exit 1
      | path :: _ =>
          _ ← call (SExec path argv);
          _ ← fprintf 2 (str "exec %s failed" ++ [10]) [vs path];
          exit 0
      end
  | redircmd c file mode fd =>
      _ ← call (SClose fd);
      r ← call (SOpen file mode);
      if r <? 0 then fprintf 2 (str "open %s failed" ++ [10]) [vs file] ≫= fun _ => exit 1
      else runcmd c
  | listcmd l r =>
      pid ← fork1;
      if pid =? 0 then runcmd l
      else
        _ ← call SWait;
        runcmd r
  | pipecmd l r =>
      p ← call SPipe;
      match p with
      | None => sh_panic (str "pipe")
      | Some (p0, p1) =>
          pid ← fork1;
          if pid =? 0 then
            _ ← call (SClose 1);
            _ ← call (SDup p1);
            _ ← call (SClose p0);
            _ ← call (SClose p1);
            runcmd l
          else
            pid ← fork1;
            if pid =? 0 then
              _ ← call (SClose 0);
              _ ← call (SDup p0);
              _ ← call (SClose p0);
              _ ← call (SClose p1);
              runcmd r
            else
              _ ← call (SClose p0);
              _ ← call (SClose p1);
              _ ← call SWait;
              _ ← call SWait;
              exit 0
      end
  | backcmd c =>
      pid ← fork1;
      if pid =? 0 then runcmd c else exit 0
  end.

(** [getcmd]: the line, or nothing at the end of the input. *)
Definition getcmd (nbuf : Z) : prog (option (list Z)) :=
  _ ← call (SWrite 2 (str "$ "));
  buf ← gets nbuf;
  if default 0 (head buf) =? 0 then mret None else mret (Some buf).

(** [while((fd = open("console", O_RDWR)) >= 0)] *)
Fixpoint open_console (fuel : nat) : prog unit :=
  match fuel with
  | O => OutOfFuel
  | S fuel =>
      fd ← call (SOpen (str "console") O_RDWR);
      if fd <? 0 then mret ()
      else if 3 <=? fd then _ ← call (SClose fd); mret ()
      else open_console fuel
  end.

(** [runcmd(parsecmd(cmd))] *)
Definition run_line (buf : list Z) (s : nat) : prog unit :=
  match parsecmd buf s with
  | POk (c, b) => runcmd ((fun w : nat * nat => cstr b w.1) <$> c)
  | PPanic msg => sh_panic (str msg)
  | PLeft s => _ ← fprintf 2 (str "leftovers: %s" ++ [10]) [vs (cstr buf s)]; sh_panic (str "syntax")
  | PFuel => OutOfFuel
  end.

Definition is_blank (c : Z) : bool := (c =? 32) || (c =? 9).

(** The directory of a line [cd dir]: its last byte is chopped off. *)
Definition cd_dir (buf : list Z) (cmd : nat) : list Z :=
  let line := cstr buf cmd in drop 3 (take (length line - 1) line).

Fixpoint sh_loop (fuel : nat) : prog unit :=
  match fuel with
  | O => OutOfFuel
  | S fuel =>
      r ← getcmd 100;
      match r with
      | None => exit 0
      | Some buf =>
          let cmd := scan is_blank buf (length buf) 0 in
          if chr buf cmd =? 10 then sh_loop fuel
          else if (chr buf cmd =? 99) && (chr buf (cmd + 1) =? 100) && (chr buf (cmd + 2) =? 32) then
            r ← call (SChdir (cd_dir buf cmd));
            _ ← (if r <? 0 then fprintf 2 (str "cannot cd %s" ++ [10]) [vs (cd_dir buf cmd)] else mret ());
            sh_loop fuel
          else
            pid ← fork1;
            if pid =? 0 then run_line buf cmd
            else
              _ ← call SWait;
              sh_loop fuel
      end
  end.
Definition sh_main (fuel : nat) : prog unit := _ ← open_console 16; sh_loop fuel.

(** ** Processes and descriptors *)

(** What a descriptor is open on; a pipe is named after the process that made
    it and the number of pipes it had made before. *)
Inductive desc := DStart (n : Z) | DFile (path : list Z) (mode : Z) | DPipe (owner : list nat) (n : nat) (writing : bool).

(** A process by its place in the tree: the number of its ancestors' and its
    own fork. *)
Record pst := Pst { fds : gmap Z desc; who : list nat; kids : nat; npipes : nat }.
(** [fdalloc] takes the lowest free descriptor. *)
Definition lowest (T : gmap Z desc) : option Z := snd <$> list_find (fun i => T !! i = None) (seqZ 0 NOFILE).

Definition set_fds (T : gmap Z desc) (s : pst) : pst := Pst T (who s) (kids s) (npipes s).
Definition forked (s : pst) : pst := Pst (fds s) (who s) (S (kids s)) (npipes s).
Definition child (s : pst) : pst := Pst (fds s) (who s ++ [kids s]) 0 0.
Definition piped (T : gmap Z desc) (s : pst) : pst := Pst T (who s) (kids s) (S (npipes s)).

(** A program executed: by whom, its arguments and its open files. *)
Definition execution : Type := list nat * list (list Z) * gmap Z desc.

Section tree.
(** Which opens succeed, which forks, and which programs can be loaded. *)
Context (opens : list Z -> Z -> bool) (forks : list nat -> nat -> bool) (loads : list Z -> bool).

(** The programs executed by a process and its descendants. [pipe] and [dup]
    fail for lack of a descriptor only. *)
Fixpoint execs {A} (p : prog A) (s : pst) : list execution :=
  match p with
  | Ret _ | Exit _ | OutOfFuel => []
  | Call c k =>
      match c in sys B return (B -> pst -> list execution) -> list execution with
      | SFork => fun k =>
          if forks (who s) (kids s) then k 0 (child s) ++ k 1 (forked s) else k (-1) (forked s)
      | SExec path argv => fun k => (who s, argv, fds s) :: if loads path then [] else k (-1) s
      | SPipe => fun k =>
          match lowest (fds s) with
          | Some r =>
              let T := <[r := DPipe (who s) (npipes s) false]> (fds s) in
              match lowest T with
              | Some w => k (Some (r, w)) (piped (<[w := DPipe (who s) (npipes s) true]> T) s)
              | None => k None s
              end
          | None => k None s
          end
      | SOpen path mode => fun k =>
          match lowest (fds s) with
          | Some fd => if opens path mode then k fd (set_fds (<[fd := DFile path mode]> (fds s)) s) else k (-1) s
          | None => k (-1) s
          end
      | SClose fd => fun k => k (if bool_decide (is_Some (fds s !! fd)) then 0 else -1) (set_fds (delete fd (fds s)) s)
      | SDup fd => fun k =>
          match fds s !! fd, lowest (fds s) with
          | Some d, Some fd' => k fd' (set_fds (<[fd' := d]> (fds s)) s)
          | _, _ => k (-1) s
          end
      | SWait => fun k => k (1, 0) s
      | SWrite _ bs => fun k => k (Z.of_nat (length bs)) s
      | SRead _ _ => fun k => k None s
      | SFstat _ => fun k => k None s
      | SKill _ | SMknod _ _ _ | SUnlink _ | SLink _ _ | SMkdir _ | SChdir _ | SGetpid | SSbrk _ _ | SPause _ | SUptime => fun k => k 0 s
      end (fun b s => execs (k b) s)
  end.

(** ** What a command means *)

(** The programs a command stands for, with their files: a redirection
    replaces a descriptor, the sides of a pipe have its ends for standard output
    and standard input and nothing else of it. *)
Fixpoint plumb (c : cmd (list Z)) (s : pst) : list execution :=
  match c with
  | execcmd [] => []
  | execcmd argv => [(who s, argv, fds s)]
  | redircmd c f m fd => if opens f m then plumb c (set_fds (<[fd := DFile f m]> (fds s)) s) else []
  | listcmd l r => if forks (who s) (kids s) then plumb l (child s) ++ plumb r (forked s) else []
  | pipecmd l r =>
      let p := DPipe (who s) (npipes s) in
      if forks (who s) (kids s) then
        plumb l (child (set_fds (<[1 := p true]> (fds s)) s)) ++
        (if forks (who s) (S (kids s)) then plumb r (child (forked (set_fds (<[0 := p false]> (fds s)) s))) else [])
      else []
  | backcmd c => if forks (who s) (kids s) then plumb c (child s) else []
  end.

(** The standard descriptors are open and two others are free. *)
Definition ready (T : gmap Z desc) : Prop :=
  is_Some (T !! 0) /\ is_Some (T !! 1) /\ is_Some (T !! 2) /\
  exists r w, 3 <= r < 16 /\ 3 <= w < 16 /\ r <> w /\ T !! r = None /\ T !! w = None.
(** Redirections are of standard input and output. *)
Fixpoint std_redirs (c : cmd (list Z)) : Prop :=
  match c with
  | execcmd _ => True
  | redircmd c _ _ fd => (fd = 0 \/ fd = 1) /\ std_redirs c
  | listcmd l r | pipecmd l r => std_redirs l /\ std_redirs r
  | backcmd c => std_redirs c
  end.

Lemma lowest_is T i : 0 <= i < 16 -> T !! i = None -> (forall j, 0 <= j < i -> is_Some (T !! j)) -> lowest T = Some i.
Proof.
  intros Hi Hn Hlow. unfold lowest. change NOFILE with 16.
  assert (list_find (fun i => T !! i = None) (seqZ 0 16) = Some (Z.to_nat i, i)) as ->; [|done].
  apply list_find_Some. split_and!; [rewrite lookup_seqZ_lt by lia; f_equal; lia|done|].
  intros j y [-> _]%lookup_seqZ Hj E. destruct (Hlow (0 + Z.of_nat j) ltac:(lia)). congruence.
Qed.
Lemma lowest_free T i : 3 <= i < 16 -> T !! i = None -> is_Some (T !! 0) -> is_Some (T !! 1) -> is_Some (T !! 2) ->
  exists r, lowest T = Some r /\ 3 <= r < 16 /\ T !! r = None.
Proof.
  intros Hi Hn [d0 H0] [d1 H1] [d2 H2]. unfold lowest. change NOFILE with 16.
  destruct (list_find_elem_of (fun i => T !! i = None) (seqZ 0 16) i) as [[k r] E]; [apply elem_of_seqZ; lia|done|].
  rewrite E. apply list_find_Some in E as (Hk & Hr & _). apply lookup_seqZ in Hk as [-> Hk]. eexists. split; [done|]. cbn [snd].
  split; [|done]. assert (0 + Z.of_nat k <> 0 /\ 0 + Z.of_nat k <> 1 /\ 0 + Z.of_nat k <> 2); [|lia].
  split_and!; intros Ek; rewrite Ek in Hr; congruence.
Qed.

(** The two descriptors of a pipe. *)
Lemma pipe_fds T d : ready T -> exists r w, lowest T = Some r /\ lowest (<[r := d]> T) = Some w /\
  3 <= r < 16 /\ 3 <= w < 16 /\ r <> w /\ T !! r = None /\ T !! w = None.
Proof.
  intros (H0 & H1 & H2 & a & b & Ha & Hb & Hab & Na & Nb). destruct (lowest_free T a Ha Na H0 H1 H2) as (r & Er & Hr & Nr).
  assert (exists c, 3 <= c < 16 /\ <[r := d]> T !! c = None) as (c & Hc & Nc).
  { destruct (decide (a = r)) as [->|]; [exists b|exists a]; by rewrite lookup_insert_ne by congruence. }
  destruct (lowest_free (<[r := d]> T) c Hc Nc) as (w & Ew & Hw & Nw); [by rewrite lookup_insert_ne by lia..|].
  assert (r <> w) as Hrw by (intros ->; by rewrite lookup_insert_eq in Nw). rewrite lookup_insert_ne in Nw by done.
  exists r, w. split_and!; (done || lia).
Qed.

Lemma ready_insert T fd d : fd = 0 \/ fd = 1 -> ready T -> ready (<[fd := d]> T).
Proof.
  intros Hfd (H0 & H1 & H2 & a & b & Ha & Hb & Hab & Na & Nb). unfold ready.
  assert (forall i, is_Some (T !! i) -> is_Some (<[fd := d]> T !! i)) as Hin.
  { intros i Hi. destruct (decide (i = fd)) as [->|]; [by rewrite lookup_insert_eq|by rewrite lookup_insert_ne]. }
  split_and!; [by apply Hin..|].
  exists a, b. rewrite !lookup_insert_ne by lia. split_and!; (done || lia).
Qed.

(** Closing and opening puts a file in the place of another. *)
Lemma reopen T fd : fd = 0 \/ fd = 1 -> is_Some (T !! 0) -> lowest (delete fd T) = Some fd.
Proof.
  intros Hfd H0. apply lowest_is; [lia|by rewrite lookup_delete_eq|]. intros j Hj. assert (j = 0) as -> by lia. by rewrite lookup_delete_ne by lia.
Qed.

(** The descriptors of a side of a pipe: [fd] is the end [d], the pipe is
    closed otherwise. *)
Lemma pipe_side (T : gmap Z desc) fd r w (d dr dw : desc) : fd = 0 \/ fd = 1 -> 3 <= r -> 3 <= w -> T !! r = None -> T !! w = None ->
  delete w (delete r (<[fd := d]> (delete fd (<[w := dw]> (<[r := dr]> T))))) = <[fd := d]> T.
Proof.
  intros Hfd Hr Hw Nr Nw. apply map_eq. intros i. destruct (decide (i = w)) as [->|]; [by rewrite lookup_delete_eq, lookup_insert_ne by lia|].
  rewrite lookup_delete_ne by done. destruct (decide (i = r)) as [->|]; [by rewrite lookup_delete_eq, lookup_insert_ne by lia|].
  rewrite lookup_delete_ne by done. destruct (decide (i = fd)) as [->|]; [by rewrite !lookup_insert_eq|].
  by rewrite !lookup_insert_ne, lookup_delete_ne, !lookup_insert_ne by done.
Qed.

(** Messages execute nothing. *)
Lemma execs_message {A} fd fmt ap n s : execs (fprintf fd fmt ap ≫= fun _ => @exit A n) s = [].
Proof.
  unfold fprintf. destruct (vprintf digits_upper fmt ap) as [bs|]; [|done]. induction bs as [|b bs IH]; [done|]. exact IH.
Qed.
Lemma execs_panic {A B} fd fmt ap n (f : B -> prog A) s : execs ((fprintf fd fmt ap ≫= fun _ => exit n) ≫= f) s = [].
Proof.
  unfold fprintf. destruct (vprintf digits_upper fmt ap) as [bs|]; [|done]. induction bs as [|b bs IH]; [done|]. exact IH.
Qed.
Lemma execs_fork {A} (f : Z -> prog A) s : execs (fork1 ≫= f) s =
  if forks (who s) (kids s) then execs (f 0) (child s) ++ execs (f 1) (forked s) else [].
Proof. cbn. destruct (forks (who s) (kids s)); [done|]. apply execs_panic. Qed.

(** One system call. *)
Lemma execs_close {A} fd (f : Z -> prog A) s :
  execs (call (SClose fd) ≫= f) s = execs (f (if bool_decide (is_Some (fds s !! fd)) then 0 else -1)) (set_fds (delete fd (fds s)) s).
Proof. done. Qed.
Lemma execs_dup {A} fd (f : Z -> prog A) s d fd' : fds s !! fd = Some d -> lowest (fds s) = Some fd' ->
  execs (call (SDup fd) ≫= f) s = execs (f fd') (set_fds (<[fd' := d]> (fds s)) s).
Proof. intros Hd Hl. cbn. by rewrite Hd, Hl. Qed.
Lemma execs_open {A} path mode (f : Z -> prog A) s fd : lowest (fds s) = Some fd ->
  execs (call (SOpen path mode) ≫= f) s = if opens path mode then execs (f fd) (set_fds (<[fd := DFile path mode]> (fds s)) s) else execs (f (-1)) s.
Proof. intros Hl. cbn. by rewrite Hl. Qed.

Lemma execs_exec {A} path argv (f : Z -> prog A) s :
  execs (call (SExec path argv) ≫= f) s = (who s, argv, fds s) :: if loads path then [] else execs (f (-1)) s.
Proof. done. Qed.
Lemma execs_pipe {A} (f : option (Z * Z) -> prog A) s r w : lowest (fds s) = Some r ->
  lowest (<[r := DPipe (who s) (npipes s) false]> (fds s)) = Some w ->
  execs (call SPipe ≫= f) s =
  execs (f (Some (r, w))) (piped (<[w := DPipe (who s) (npipes s) true]> (<[r := DPipe (who s) (npipes s) false]> (fds s))) s).
Proof. intros Hr Hw. cbn. by rewrite Hr, Hw. Qed.

(** A child of the pipe case takes its end of the pipe. *)
Lemma execs_side {A} fd r w e (p : prog A) s (dr dw : desc) (T : gmap Z desc) : fd = 0 \/ fd = 1 -> is_Some (T !! 0) -> 3 <= r -> 3 <= w -> r <> w ->
  T !! r = None -> T !! w = None -> fds s = <[w := dw]> (<[r := dr]> T) -> e = r \/ e = w ->
  execs (_ ← call (SClose fd); _ ← call (SDup e); _ ← call (SClose r); _ ← call (SClose w); p) s =
  execs p (set_fds (<[fd := if bool_decide (e = w) then dw else dr]> T) s).
Proof.
  intros Hfd H0 Hr Hw Hrw Nr Nw Hs He. rewrite execs_close, Hs.
  rewrite (execs_dup e _ _ (if bool_decide (e = w) then dw else dr) fd); cbn [fds set_fds].
  - rewrite !execs_close. unfold set_fds. cbn [fds who kids npipes]. by rewrite pipe_side.
  - rewrite lookup_delete_ne by lia. destruct He as [->| ->]; [rewrite lookup_insert_ne, lookup_insert_eq by done; by rewrite bool_decide_eq_false_2|].
    by rewrite lookup_insert_eq, bool_decide_eq_true_2.
  - apply reopen; [done|]. by rewrite !lookup_insert_ne by lia.
Qed.

(** [runcmd] executes what the command means, whichever forks and opens fail. *)
Lemma runcmd_run c s : std_redirs c -> ready (fds s) -> execs (runcmd c) s = plumb c s.
Proof.
  revert s. induction c as [argv|c IH f m fd|l IHl r IHr|l IHl r IHr|c IH]; intros s Hc Hs; cbn [runcmd plumb].
  - destruct argv as [|path argv]; [done|]. rewrite execs_exec.
    rewrite execs_message. by destruct (loads path).
  - destruct Hc as [Hfd Hc]. pose proof Hs as (H0 & _). rewrite execs_close, (execs_open _ _ _ _ fd) by (by apply reopen). cbn [fds set_fds].
    destruct (opens f m); [|apply execs_message]. rewrite (proj2 (Z.ltb_ge fd 0)) by lia. unfold set_fds at 1 2. cbn [fds who kids npipes].
    rewrite insert_delete_eq. rewrite <- IH; [done|done|by apply ready_insert].
  - destruct Hc as [Hl Hr]. destruct (pipe_fds (fds s) (DPipe (who s) (npipes s) false) Hs) as (a & b & Ea & Eb & Ha & Hb & Hab & Na & Nb).
    pose proof Hs as (H0 & _).
    rewrite (execs_pipe _ _ a b Ea Eb). cbn beta iota. rewrite execs_fork. cbn [piped who kids].
    destruct (forks (who s) (kids s)); [|done]. f_equal.
    + change (0 =? 0) with true. cbn iota. rewrite (execs_side 1 a b b _ _ (DPipe (who s) (npipes s) false) (DPipe (who s) (npipes s) true) (fds s)) by (done || lia || (by left) || (by right)).
      rewrite bool_decide_eq_true_2 by done. rewrite IHl; [done|done|]. apply ready_insert; [by right|done].
    + change (1 =? 0) with false. cbn iota. rewrite execs_fork. cbn [forked piped who kids]. destruct (forks (who s) (S (kids s))); [|done].
      change (0 =? 0) with true. change (1 =? 0) with false. cbn iota. rewrite app_nil_r.
      rewrite (execs_side 0 a b a _ _ (DPipe (who s) (npipes s) false) (DPipe (who s) (npipes s) true) (fds s)) by (done || lia || (by left) || (by right)).
      rewrite bool_decide_eq_false_2 by done. rewrite IHr; [done|done|]. apply ready_insert; [by left|done].
  - destruct Hc as [Hl Hr]. rewrite execs_fork. destruct (forks (who s) (kids s)); [|done]. f_equal; [by apply IHl|by apply IHr].
  - rewrite execs_fork. destruct (forks (who s) (kids s)); [|done]. change (execs (if 1 =? 0 then runcmd c else exit 0) (forked s)) with (@nil execution).
    rewrite app_nil_r. by apply IH.
Qed.

Lemma std_redirected rs c : Forall token_ok (rtoks rs) -> std_redirs c -> std_redirs (redirected rs c).
Proof.
  revert c. induction rs as [|[f m fd] rs IH]; intros c Hr Hc; [done|].
  change (Forall token_ok (TRedir m fd :: TWord f :: rtoks rs)) in Hr. apply Forall_cons in Hr as [Hm [_ Hr]%Forall_cons].
  apply (IH (redircmd c f m fd) Hr). split; [|done]. cbn [token_ok] in Hm. set_unfold in Hm. destruct_or! Hm; injection Hm as _ ->; tauto.
Qed.
Lemma std_back n c : std_redirs c -> std_redirs (Nat.iter n backcmd c).
Proof. intros Hc. by induction n. Qed.
Lemma atoks_redirs args : Forall token_ok (atoks args) -> Forall token_ok (rtoks (concat args.*2)).
Proof.
  induction args as [|[w rs] args IH]; [done|]. change (Forall token_ok (TWord w :: rtoks rs ++ atoks args) -> Forall token_ok (rtoks (rs ++ concat args.*2))).
  intros [_ [H1 H2]%Forall_app]%Forall_cons. unfold rtoks in *. rewrite bind_app. apply Forall_app. split; [done|by apply IH].
Qed.

(** The redirections of a line are those of its tokens. *)
Lemma line_std :
  (forall l, Forall token_ok (line_toks l) -> std_redirs (line_cmd l)) /\
  (forall p, Forall token_ok (pipe_toks p) -> std_redirs (pipe_cmd p)) /\
  (forall e, Forall token_ok (exec_toks e) -> std_redirs (exec_cmd e)).
Proof.
  apply grammar_ind; cbn [line_toks pipe_toks exec_toks line_cmd pipe_cmd exec_cmd].
  - intros p IH n [Hp _]%Forall_app. by apply std_back, IH.
  - intros p IH n l IHl [Hp [_ [_ Hl]%Forall_cons]%Forall_app]%Forall_app. split; [by apply std_back, IH|by apply IHl].
  - done.
  - intros e IHe p IHp [He [_ Hp]%Forall_cons]%Forall_app. split; [by apply IHe|by apply IHp].
  - intros rs args [Hr Ha]%Forall_app. apply std_redirected; [|done]. unfold rtoks in *. rewrite bind_app. apply Forall_app. split; [done|by apply atoks_redirs].
  - intros l IHl rs [_ [Hl [_ Hr]%Forall_cons]%Forall_app]%Forall_cons. by apply std_redirected, IHl.
Qed.

(** C21: a command line does what it says. The line is any text of the grammar,
    spaced in any way, that has no NUL and fewer than [MAXARGS] arguments to a
    program; the process has its three standard descriptors open and two
    more to spare. Then the programs that are executed by the process and its
    descendants when it parses and runs the line are exactly those the command
    stands for: each by the process meant to, with the arguments given, and with
    descriptors that are those of the shell but for the files redirected to and
    the end of the pipe. No end of a pipe stays open where it is not standard
    input or output, so a reader sees the end of the data once the writer is
    done. This holds whichever forks, opens and executions fail. *)
Theorem run_line_spec buf p l s : 0 ∉ buf -> (p <= length buf)%nat -> spelled (line_toks l) (drop p buf) -> line_fits l ->
  ready (fds s) -> execs (run_line buf p) s = plumb (line_cmd l) s.
Proof.
  intros H0 Hp Hl Hf Hs. assert (Forall (fun ch => ch <> 0) buf) as Hbuf by (apply Forall_forall; intros ch Hch ->; done).
  destruct (parsecmd_reads buf Hbuf l p) as (cw & b & Hpc & Hcw); [by exists (drop p buf)|done|]. unfold run_line. rewrite Hpc, Hcw.
  apply runcmd_run; [|done]. apply line_std. by eapply spelled_ok.
Qed.
End tree.

Module Demo.
Definition shell : pst := Pst {[ 0 := DStart 0; 1 := DStart 1; 2 := DStart 2 ]} [] 0 0.

(** The line [ls -l >f | wc;cat<g &], a newline at its end. *)
Definition text : list Z := str "ls -l >f | wc;cat<g &" ++ [10].
Definition tree : gline :=
  LSeq (PSeq (Simple [] [(str "ls", []); (str "-l", [Rdr (str "f") M_TRUNC 1])]) (PEnd (Simple [] [(str "wc", [])]))) 0
    (LEnd (PEnd (Simple [] [(str "cat", [Rdr (str "g") M_READ 0])])) 1).

Lemma shell_ready : ready (fds shell).
Proof. split_and!; [by eexists..|]. exists 3, 4. split_and!; done. Qed.

(** One token after the blanks [w]. *)
Ltac spell w := apply (sp_token w); [by repeat constructor|by (vm_compute; repeat first [split | constructor | discriminate])|by vm_compute|].

Lemma text_spelled : spelled (line_toks tree) text.
Proof.
  change (spelled (line_toks tree) ([] ++ str "ls" ++ [32] ++ str "-l" ++ [32] ++ [62] ++ [] ++ str "f" ++ [32] ++ [124] ++ [32] ++ str "wc" ++
    [] ++ [59] ++ [] ++ str "cat" ++ [] ++ [60] ++ [] ++ str "g" ++ [32] ++ [38] ++ [10])).
  spell (@nil Z). spell [32]. spell [32]. spell (@nil Z). spell [32]. spell [32]. spell (@nil Z). spell (@nil Z). spell (@nil Z). spell (@nil Z). spell [32].
  constructor. by repeat constructor.
Qed.

Lemma run_line_spec_witness : execs (fun _ _ => true) (fun _ _ => true) (fun _ => true) (run_line text 0) shell =
  [([0; 0]%nat, [str "ls"; str "-l"], <[1 := DFile (str "f") M_TRUNC]> (<[1 := DPipe [0%nat] 0 true]> (fds shell)));
   ([0; 1]%nat, [str "wc"], <[0 := DPipe [0%nat] 0 false]> (fds shell));
   ([1]%nat, [str "cat"], <[0 := DFile (str "g") M_READ]> (fds shell))].
Proof.
  rewrite (run_line_spec _ _ _ text 0 tree shell); [reflexivity| |cbn; lia|exact text_spelled|vm_compute; repeat split; lia|exact shell_ready].
  by apply (bool_decide_unpack _).
Defined.
End Demo.
