(* ===== verification/Umalloc.v ===== *)
(** * The user memory allocator: user/umalloc.c

    A circular list of free blocks in order of address, threaded through
    headers of sixteen bytes; [malloc] takes the first block that fits, [free]
    merges neighbours. Memory is what the allocator uses of it: the header at
    an address. Distinct headers do not overlap: blocks are whole numbers of
    headers long and apart, and [base] is a variable of its own. *)

From S2P Require Import Prelude.

Record header := Header { hd_ptr : Z; hd_size : Z }.
#[export] Instance header_inhabited : Inhabited header := populate (Header 0 0).

Record ustate := UState { hdr : gmap Z header; freep : Z; brk : Z }.

Definition hptr (st : ustate) (p : Z) : Z := hd_ptr (hdr st !!! p).
Definition hsize (st : ustate) (p : Z) : Z := hd_size (hdr st !!! p).
Definition set_hdr (p : Z) (h : header) (st : ustate) : ustate := UState (<[p := h]> (hdr st)) (freep st) (brk st).
Definition set_ptr (p v : Z) (st : ustate) : ustate := set_hdr p (Header v (hsize st p)) st.
Definition set_size (p v : Z) (st : ustate) : ustate := set_hdr p (Header (hptr st p) v) st.
Definition set_freep (p : Z) (st : ustate) : ustate := UState (hdr st) p (brk st).

(** [p + n] for [Header *p]. *)
Definition padd (p n : Z) : Z := u64 (p + n * 16).

(** ** free *)

Fixpoint free_search (fuel : nat) (bp p : Z) (st : ustate) : option Z :=
  match fuel with
  | O => None
  | S fuel =>
      let n := hptr st p in
      if (p <? bp) && (bp <? n) then Some p
      else if (n <=? p) && ((p <? bp) || (bp <? n)) then Some p
      else free_search fuel bp n st
  end.

Definition free (fuel : nat) (ap : Z) (st : ustate) : option ustate :=
  let bp := padd ap (-1) in
  p ← free_search fuel bp (freep st) st;
  let st :=
    if padd bp (hsize st bp) =? hptr st p then
      let st := set_size bp (u32 (hsize st bp + hsize st (hptr st p))) st in
      set_ptr bp (hptr st (hptr st p)) st
    else set_ptr bp (hptr st p) st in
  let st :=
    if padd p (hsize st p) =? bp then
      let st := set_size p (u32 (hsize st p + hsize st bp)) st in
      set_ptr p (hptr st bp) st
    else set_ptr p bp st in
  Some (set_freep p st).

(** ** malloc *)

Section malloc.
(** The address of the variable [base], and whether the kernel moves the
    break [b] by [n]. *)
Context (base : Z) (grant : Z -> Z -> bool).

(** [sbrk(int n)] *)
Definition sbrk (n : Z) (st : ustate) : option (Z * ustate) :=
  let n := i32 n in
  if grant (brk st) n then Some (brk st, UState (hdr st) (freep st) (brk st + n)) else None.

(** The end of the last page of the heap. A store beyond it kills the process. *)
Definition heap_end (b : Z) : Z := (b + 4095) / 4096 * 4096.

(** [None] when the store to the new header is beyond the heap. *)
Definition morecore (fuel : nat) (nu : Z) (st : ustate) : option (Z * ustate) :=
  let nu := if nu <? 4096 then 4096 else nu in
  match sbrk (nu * 16) st with
  | None => Some (0, st)
  | Some (p, st) =>
      if heap_end (brk st) <? p + 16 then None
      else
        st ← free fuel (padd p 1) (set_size p nu st);
        Some (freep st, st)
  end.

(** The block [p] fits and follows [prevp]. *)
Definition take_block (nunits prevp p : Z) (st : ustate) : Z * ustate :=
  let '(p, st) :=
    if hsize st p =? nunits then (p, set_ptr prevp (hptr st p) st)
    else
      let st := set_size p (u32 (hsize st p - nunits)) st in
      let p := padd p (hsize st p) in
      (p, set_size p nunits st) in
  (padd p 1, set_freep prevp st).

Fixpoint malloc_loop (fuel : nat) (nunits prevp p : Z) (st : ustate) : option (Z * ustate) :=
  match fuel with
  | O => None
  | S fuel =>
      if nunits <=? hsize st p then Some (take_block nunits prevp p st)
      else if p =? freep st then
        r ← morecore fuel nunits st;
        let '(p, st) := r in
        if p =? 0 then Some (0, st) else malloc_loop fuel nunits p (hptr st p) st
      else malloc_loop fuel nunits p (hptr st p) st
  end.

Definition units_for (nbytes : Z) : Z := u32 ((nbytes + 16 - 1) / 16 + 1).

Definition malloc (fuel : nat) (nbytes : Z) (st : ustate) : option (Z * ustate) :=
  let nunits := units_for nbytes in
  let st := if freep st =? 0 then set_size base 0 (set_freep base (set_ptr base base st)) else st in
  malloc_loop fuel nunits (freep st) (hptr st (freep st)) st.
End malloc.

(** ** Blocks in order of address *)

(** A block is its address and its length in headers. *)
Definition apart (a n b m : Z) : Prop := a + 16 * n <= b \/ b + 16 * m <= a.
(** Blocks in increasing order, none touching the next, from above [lo] to [hi]. *)
Fixpoint sep (lo : Z) (L : list (Z * Z)) (hi : Z) : Prop :=
  match L with
  | [] => lo <= hi
  | (a, s) :: L => lo < a /\ 0 < s /\ sep (a + 16 * s) L hi
  end.
Definition end_of (lo : Z) (L : list (Z * Z)) : Z := match last L with Some (a, s) => a + 16 * s | None => lo end.
Definition units (L : list (Z * Z)) : Z := foldr (fun b t => b.2 + t) 0 L.

Lemma sep_bounds L : forall lo hi, sep lo L hi -> lo <= hi /\ forall a s, (a, s) ∈ L -> lo < a /\ 0 < s /\ a + 16 * s <= hi.
Proof.
  induction L as [|[b t] L IH]; intros lo hi; cbn [sep]; [intros Hlo; split; [done|]; intros a s H; by apply not_elem_of_nil in H|].
  intros (H1 & H2 & H3). destruct (IH _ _ H3) as [H4 H5]. split; [lia|]. intros a s [[= -> ->]|H]%elem_of_cons; [lia|]. specialize (H5 a s H). lia.
Qed.
Lemma end_of_block_cons lo a s L : end_of lo ((a, s) :: L) = end_of (a + 16 * s) L.
Proof. unfold end_of. rewrite last_cons. by destruct (last L) as [[]|]. Qed.
Lemma end_of_block_snoc lo L p s : end_of lo (L ++ [(p, s)]) = p + 16 * s.
Proof. unfold end_of. by rewrite last_snoc. Qed.
Lemma sep_app L1 : forall lo L2 hi, sep lo (L1 ++ L2) hi <-> sep lo L1 (end_of lo L1) /\ sep (end_of lo L1) L2 hi.
Proof.
  induction L1 as [|[a s] L1 IH]; intros lo L2 hi; [cbn; unfold end_of; cbn; split; [|tauto]; intros; split; [lia|done]|].
  cbn [app sep]. rewrite end_of_block_cons, IH. tauto.
Qed.
Lemma sep_weaken lo lo' L hi : sep lo L hi -> lo' <= lo -> sep lo' L hi.
Proof. destruct L as [|[a s] L]; cbn; [lia|]. intros (? & ? & ?) ?. split_and!; [lia|lia|done]. Qed.
Lemma sep_hi L : forall lo hi hi', sep lo L hi -> hi <= hi' -> sep lo L hi'.
Proof. induction L as [|[a s] L IH]; cbn; [lia|]. intros lo hi hi' (? & ? & ?) ?. split_and!; [lia|lia|by eapply IH]. Qed.
Lemma units_app L1 L2 : units (L1 ++ L2) = units L1 + units L2.
Proof. induction L1 as [|b L1 IH]; [done|]. change (b.2 + units (L1 ++ L2) = b.2 + units L1 + units L2). lia. Qed.
Lemma units_cons b L : units (b :: L) = b.2 + units L.
Proof. done. Qed.

Lemma units_pos L : (forall a s, (a, s) ∈ L -> 0 < s) -> 0 <= units L.
Proof.
  induction L as [|[a s] L IH]; intros H; [done|]. rewrite units_cons. cbn. pose proof (H a s ltac:(left)).
  assert (0 <= units L) by (apply IH; intros; eapply H; by right). lia.
Qed.
Lemma sep_units L : forall lo hi, sep lo L hi -> 0 <= 16 * units L <= hi - lo.
Proof. induction L as [|[a s] L IH]; intros lo hi; [cbn; lia|]. intros (? & ? & H). apply IH in H. rewrite units_cons. cbn. lia. Qed.

(** Where a block that overlaps none of a list belongs in it. *)
Lemma sep_split bp n L : forall lo hi, sep lo L hi -> 0 < n -> (forall a s, (a, s) ∈ L -> apart bp n a s) ->
  exists L1 L2, L = L1 ++ L2 /\ (forall a s, (a, s) ∈ L1 -> a + 16 * s <= bp) /\ (forall a s, (a, s) ∈ L2 -> bp + 16 * n <= a).
Proof.
  induction L as [|[b t] L IH]; intros lo hi Hs Hn Hap.
  { exists [], []. split_and!; [done|intros a s H; by apply not_elem_of_nil in H..]. }
  destruct Hs as (H1 & H2 & H3). destruct (Hap b t ltac:(by left)) as [Hab|Hab].
  - exists [], ((b, t) :: L). split_and!; [done|intros a s H; by apply not_elem_of_nil in H|].
    intros a s [[= -> ->]|H]%elem_of_cons; [lia|]. destruct (sep_bounds _ _ _ H3) as [_ H4]. specialize (H4 a s H). lia.
  - destruct (IH _ _ H3 Hn) as (L1 & L2 & -> & H4 & H5); [intros; apply Hap; by right|].
    exists ((b, t) :: L1), L2. split_and!; [done| |done]. intros a s [[= -> ->]|H]%elem_of_cons; [lia|by apply H4].
Qed.

(** ** Linked blocks *)

Fixpoint lseg (h : gmap Z header) (x : Z) (L : list (Z * Z)) (y : Z) : Prop :=
  match L with
  | [] => x = y
  | (a, s) :: L => x = a /\ hd_size (h !!! a) = s /\ lseg h (hd_ptr (h !!! a)) L y
  end.
Lemma lseg_app h L1 : forall x L2 y, lseg h x (L1 ++ L2) y <-> exists z, lseg h x L1 z /\ lseg h z L2 y.
Proof.
  induction L1 as [|[a s] L1 IH]; intros x L2 y; cbn [app lseg]; [split; [by exists x|by intros (z & -> & ?)]|].
  rewrite IH. split; [intros (? & ? & z & ? & ?); exists z; tauto|intros (z & (? & ? & ?) & ?); split_and!; [done..|by exists z]].
Qed.
Lemma lseg_insert h a v L : forall x y, a ∉ L.*1 -> lseg h x L y -> lseg (<[a := v]> h) x L y.
Proof.
  induction L as [|[b s] L IH]; intros x y Ha; [done|]. rewrite fmap_cons in Ha. apply not_elem_of_cons in Ha as [Hab Ha]. cbn [fst] in Hab.
  cbn [lseg]. rewrite !lookup_total_insert_ne by done. intros (? & ? & ?). split_and!; [done..|by apply IH].
Qed.
Lemma lseg_head h x L y b : lseg h x (b :: L) y -> x = b.1.
Proof. destruct b. by intros [-> _]. Qed.

(** Addresses in increasing order. *)
Fixpoint incr (lo : Z) (L : list (Z * Z)) : Prop := match L with [] => True | (a, _) :: L => lo < a /\ incr a L end.
Lemma sep_incr L : forall lo lo' hi, sep lo L hi -> lo' <= lo -> incr lo' L.
Proof. induction L as [|[a s] L IH]; intros lo lo' hi; [done|]. cbn. intros (? & ? & ?) ?. split; [lia|]. eapply IH; [done|lia]. Qed.
Lemma incr_prefix X : forall lo Y, incr lo (X ++ Y) -> incr lo X.
Proof. induction X as [|[a s] X IH]; intros lo Y; [done|]. cbn. intros [? H]. split; [done|by eapply IH]. Qed.
Lemma incr_suffix X : forall lo Y, incr lo (X ++ Y) -> exists lo', lo <= lo' /\ incr lo' Y.
Proof.
  induction X as [|[a s] X IH]; intros lo Y; [intros; by exists lo|]. cbn. intros [Ha H].
  destruct (IH _ _ H) as (lo' & ? & ?). exists lo'. split; [lia|done].
Qed.
Lemma elem_mid (X : list (Z * Z)) a t Y : a ∈ (X ++ (a, t) :: Y).*1.
Proof. apply list_elem_of_fmap. exists (a, t). split; [done|]. apply elem_of_app. right. left. Qed.
Lemma incr_above L : forall lo a, incr lo L -> a ∈ L.*1 -> lo < a.
Proof.
  induction L as [|[b s] L IH]; intros lo a; cbn [incr fmap list_fmap]; [by intros _ ?%not_elem_of_nil|].
  intros [H1 H2] [->|H]%elem_of_cons; [done|]. specialize (IH _ _ H2 H). lia.
Qed.
Lemma incr_not_in X p s Y lo : incr lo (X ++ (p, s) :: Y) -> (p ∉ X.*1) /\ (p ∉ Y.*1).
Proof.
  revert lo. induction X as [|[b t] X IH]; intros lo; cbn [app incr].
  - intros [_ H]. split; [apply not_elem_of_nil|]. intros Hp. pose proof (incr_above _ _ _ H Hp). lia.
  - intros [H1 H2]. destruct (IH _ H2) as [H3 H4]. split; [|done]. rewrite fmap_cons. apply not_elem_of_cons. split; [|done].
    cbn. intros ->. pose proof (incr_above _ _ b H2 (elem_mid X b s Y)). lia.
Qed.

(** ** The search of [free] *)

Section search.
Context (st : ustate) (base bp : Z) (Hbase : base < bp).

Lemma search_low Y : forall lo x p s z fuel, lseg (hdr st) x (Y ++ [(p, s)]) z -> incr lo (Y ++ [(p, s)]) -> p < bp ->
  bp < z \/ z = base -> base <= p -> (length Y < fuel)%nat -> free_search fuel bp x st = Some p.
Proof using Hbase.
  induction Y as [|[a t] Y IH]; intros lo x p s z fuel Hseg Hi Hp Hz Hbp Hf; (destruct fuel as [|fuel]; [cbn in Hf; lia|]); cbn [free_search].
  - destruct Hseg as (-> & _ & Hn). cbn in Hn. unfold hptr. rewrite Hn. destruct Hz as [Hz| ->].
    + by rewrite (proj2 (Z.ltb_lt p bp)), (proj2 (Z.ltb_lt bp z)) by lia.
    + rewrite (proj2 (Z.ltb_lt p bp)), (proj2 (Z.ltb_ge bp base)), (proj2 (Z.leb_le base p)) by lia. done.
  - destruct Hseg as (-> & _ & Hn). destruct Hi as [_ Hi].
    assert (a < hptr st a <= p) as Hnext.
    { unfold hptr. destruct Y as [|[b u] Y]; [cbn in Hi; destruct Hn as [-> _]; lia|].
      destruct Hn as [-> _]. cbn [app incr] in Hi. destruct Hi as [Hb Hi]. split; [lia|].
      pose proof (incr_above _ _ p Hi (elem_mid Y p s [])). lia. }
    rewrite (proj2 (Z.ltb_lt a bp)), (proj2 (Z.ltb_ge bp (hptr st a))), (proj2 (Z.leb_gt (hptr st a) a)) by lia. cbn [andb].
    apply (IH a _ p s z); [exact Hn|done..|cbn in Hf; lia].
Qed.

Lemma search_high Y : forall lo x k r, lseg (hdr st) x Y base -> incr lo Y -> bp <= lo ->
  free_search k bp base st = Some r -> free_search (length Y + k) bp x st = Some r.
Proof using Hbase.
  induction Y as [|[a t] Y IH]; intros lo x k r Hseg Hi Hlo Hr; [by cbn in Hseg; subst x|]. cbn [length Nat.add free_search].
  destruct Hseg as (-> & _ & Hn). destruct Hi as [Ha Hi].
  assert (((a <? bp) && (bp <? hptr st a) = false) /\ ((hptr st a <=? a) && ((a <? bp) || (bp <? hptr st a)) = false)) as [-> ->].
  { rewrite (proj2 (Z.ltb_ge a bp)) by lia. split; [done|]. cbn [orb]. unfold hptr. destruct Y as [|[b u] Y].
    - cbn in Hn. rewrite Hn, (proj2 (Z.ltb_ge bp base)) by lia. apply andb_false_r.
    - destruct Hn as [-> _]. destruct Hi as [Hb _]. by rewrite (proj2 (Z.leb_gt b a)) by lia. }
  apply (IH a); [exact Hn|done|lia|done].
Qed.

(** From any node the search ends at the last node below [bp]. *)
Lemma search_run N0 p s F2 fp fuel : lseg (hdr st) base ((N0 ++ [(p, s)]) ++ F2) base -> incr (base - 1) ((N0 ++ [(p, s)]) ++ F2) ->
  p < bp -> incr bp F2 -> fp ∈ ((N0 ++ [(p, s)]) ++ F2).*1 -> (length N0 + length F2 + 1 <= fuel)%nat ->
  free_search fuel bp fp st = Some p.
Proof using Hbase.
  intros Hseg Hi Hp H2 Hfp Hf. pose proof Hseg as Hseg'. apply lseg_app in Hseg' as (z & Hlow & Hhigh). apply incr_prefix in Hi.
  assert (base <= p) as Hbp by (pose proof (incr_above _ _ p Hi (elem_mid N0 p s [])); lia).
  assert (bp < z \/ z = base) as Hz.
  { destruct F2 as [|[q t] F2]; [by right|left]. destruct Hhigh as [-> _]. by destruct H2. }
  assert (forall k, (length N0 < k)%nat -> free_search k bp base st = Some p) as Hbs.
  { intros k Hk. by eapply (search_low N0 (base - 1)). }
  rewrite fmap_app in Hfp. apply elem_of_app in Hfp as [Hfp|Hfp]; apply list_elem_of_fmap in Hfp as ([a t] & -> & Hin); cbn [fst].
  - apply list_elem_of_split in Hin as (X & Y & HXY). rewrite HXY in Hlow, Hi. apply lseg_app in Hlow as (w & _ & Hw).
    pose proof (lseg_head _ _ _ _ _ Hw) as ->. cbn [fst] in Hw. apply incr_suffix in Hi as (lo & _ & Hi).
    assert (exists Y0, (a, t) :: Y = Y0 ++ [(p, s)] /\ (length Y0 <= length N0)%nat) as (Y0 & EY & HY0).
    { destruct (exists_last (l := (a, t) :: Y)) as (Y0 & b & EY); [done|]. rewrite EY, app_assoc in HXY.
      apply app_inj_2 in HXY as [-> [= <-]]; [|done]. exists Y0. split; [done|]. rewrite length_app. lia. }
    rewrite EY in Hw, Hi. eapply (search_low Y0 lo); [exact Hw|done..|lia].
  - apply list_elem_of_split in Hin as (X & Y & ->). apply lseg_app in Hhigh as (w & _ & Hw). pose proof (lseg_head _ _ _ _ _ Hw) as ->. cbn [fst] in Hw.
    apply incr_suffix in H2 as (lo & Hlo & HiY).
    rewrite !length_app in Hf. cbn [length] in Hf. replace fuel with (length ((a, t) :: Y) + (fuel - length ((a, t) :: Y)))%nat by (cbn; lia).
    eapply (search_high ((a, t) :: Y)); [exact Hw|exact HiY|lia|]. apply Hbs. cbn. lia.
Qed.
End search.

(** ** What [free] writes *)

Lemma hptr_set p v st x : hptr (set_ptr p v st) x = if decide (x = p) then v else hptr st x.
Proof. unfold hptr, set_ptr, set_hdr. cbn. case_decide; [subst; by rewrite lookup_total_insert_eq|by rewrite lookup_total_insert_ne]. Qed.
Lemma hptr_set_size p v st x : hptr (set_size p v st) x = hptr st x.
Proof.
  unfold hptr, set_size, set_hdr. cbn. destruct (decide (x = p)); [subst; by rewrite lookup_total_insert_eq|by rewrite lookup_total_insert_ne].
Qed.
Lemma hsize_set p v st x : hsize (set_ptr p v st) x = hsize st x.
Proof.
  unfold hsize, set_ptr, set_hdr. cbn. destruct (decide (x = p)); [subst; by rewrite lookup_total_insert_eq|by rewrite lookup_total_insert_ne].
Qed.
Lemma hsize_set_size p v st x : hsize (set_size p v st) x = if decide (x = p) then v else hsize st x.
Proof. unfold hsize, set_size, set_hdr. cbn. case_decide; [subst; by rewrite lookup_total_insert_eq|by rewrite lookup_total_insert_ne]. Qed.
Lemma set_ptr_size p v n st : set_ptr p v (set_size p n st) = set_hdr p (Header v n) st.
Proof. unfold set_ptr, set_size, set_hdr, hsize. cbn. by rewrite lookup_total_insert_eq, insert_insert_eq. Qed.
Lemma padd_eq p n : 0 <= p + 16 * n < 2 ^ 64 -> padd p n = p + 16 * n.
Proof. intros H. unfold padd, u64. rewrite Z.mod_small; lia. Qed.

(** The headers of the block given back and of the node before it. *)
Definition new_block (bp n q : Z) (st : ustate) : header :=
  if bp + 16 * n =? q then Header (hptr st q) (u32 (n + hsize st q)) else Header q n.
Definition new_node (p s bp : Z) (hb : header) : header :=
  if p + 16 * s =? bp then Header (hd_ptr hb) (u32 (s + hd_size hb)) else Header bp s.

Lemma free_writes fuel bp p n s q st :
  0 <= bp < 2 ^ 60 -> 0 <= n < 2 ^ 32 -> 0 <= p < 2 ^ 60 -> 0 <= s < 2 ^ 32 -> p <> bp -> q <> bp ->
  free_search fuel bp (freep st) st = Some p -> hsize st bp = n -> hsize st p = s -> hptr st p = q ->
  let hb := new_block bp n q st in
  free fuel (bp + 16) st = Some (UState (<[p := new_node p s bp hb]> (<[bp := hb]> (hdr st))) p (brk st)).
Proof.
  intros Hbp Hn Hp Hs Hne Hq Hfs En Es Eq hb. unfold free. rewrite (padd_eq (bp + 16) (-1)) by lia.
  replace (bp + 16 + 16 * -1) with bp by lia. rewrite Hfs. cbn [mbind option_bind].
  set (st1 := if padd bp (hsize st bp) =? hptr st p then _ else _).
  assert (st1 = set_hdr bp hb st) as E1.
  { unfold st1, hb, new_block. rewrite En, Eq, padd_eq by lia. case_match; [|unfold set_ptr; by rewrite En].
    rewrite set_ptr_size, !hptr_set_size, Eq. done. }
  clearbody st1. subst st1.
  assert (hsize (set_hdr bp hb st) p = s) as Es1 by (unfold hsize, set_hdr; cbn; by rewrite lookup_total_insert_ne).
  assert (hdr (set_hdr bp hb st) !!! bp = hb) as Eb by (unfold set_hdr; cbn; by rewrite lookup_total_insert_eq).
  rewrite Es1, padd_eq by lia. unfold new_node. destruct (Z.eqb_spec (p + 16 * s) bp) as [E|E].
  - rewrite set_ptr_size. unfold set_freep, set_hdr. cbn. unfold hptr, hsize, set_size, set_hdr. cbn.
    rewrite !lookup_total_insert_ne by done. rewrite lookup_total_insert_eq. done.
  - unfold set_ptr, set_freep, set_hdr in *. rewrite Es1. done.
Qed.

(** ** The state of the allocator *)

(** No heap is larger: it is allocated page by page from 128MB. *)
Definition HEAPMAX : Z := 2 ^ 35.

Section heap.
Context (base : Z).

(** [F] are the free blocks and [A] the blocks handed out, by address of
    their header: the free list is the circular list of [F] and [base] in
    order of address, no two free blocks touch, no two blocks overlap, and the
    header of a block handed out holds its size. *)
Record heap_ok (st : ustate) (F : list (Z * Z)) (A : gmap Z Z) : Prop := {
  h_ring : lseg (hdr st) base ((base, 0) :: F) base;
  h_freep : freep st ∈ ((base, 0) :: F).*1;
  h_sep : sep base F (brk st);
  h_used : forall a n, A !! a = Some n -> hsize st a = n /\ 0 < n /\ base < a /\ a + 16 * n <= brk st;
  h_apart : forall a n b m, A !! a = Some n -> A !! b = Some m -> a <> b -> apart a n b m;
  h_free : forall a n b m, A !! a = Some n -> (b, m) ∈ F -> apart a n b m;
  h_bounds : 0 < base < brk st /\ brk st <= HEAPMAX }.

Lemma heap_incr st F A : heap_ok st F A -> incr (base - 1) ((base, 0) :: F).
Proof. intros H. split; [lia|]. eapply sep_incr; [apply H|lia]. Qed.

(** Nothing inside the blocks handed out is a header of the free list. *)
Definition kept (A : gmap Z Z) (st st' : ustate) : Prop :=
  forall a n x, A !! a = Some n -> a <= x < a + 16 * n -> hdr st' !! x = hdr st !! x.
Lemma kept_trans A st1 st2 st3 : kept A st1 st2 -> kept A st2 st3 -> kept A st1 st3.
Proof. intros H1 H2 a n x Ha Hx. rewrite (H2 a n x Ha Hx). by apply (H1 a n x). Qed.

(** Merging a block with what follows it. *)
Definition merge_right (bp n : Z) (F2 : list (Z * Z)) : Z * list (Z * Z) :=
  match F2 with
  | (q, s) :: F2' => if bp + 16 * n =? q then (n + s, F2') else (n, F2)
  | [] => (n, [])
  end.
Lemma merge_right_sep bp n F2 hi : sep (bp + 16 * n - 1) F2 hi -> 0 < n -> bp + 16 * n <= hi ->
  let '(m, F2r) := merge_right bp n F2 in
  n <= m /\ sep (bp + 16 * m) F2r hi /\ m + units F2r = n + units F2 /\ (length F2r <= length F2)%nat /\ (exists X, F2 = X ++ F2r) /\
  (forall a s, (a, s) ∈ F2r -> bp < a).
Proof.
  destruct F2 as [|[q s] F2]; cbn [merge_right].
  { intros ? ? ?. split_and!; [lia|done|done|done|by exists []|intros a s Hin; by apply not_elem_of_nil in Hin]. }
  intros (H1 & H2 & H3) Hn Hhi. destruct (Z.eqb_spec (bp + 16 * n) q) as [E|E].
  - destruct (sep_bounds _ _ _ H3) as [_ Hb]. split_and!; [lia|by replace (bp + 16 * (n + s)) with (q + 16 * s) by lia|rewrite units_cons; cbn; lia|cbn; lia|by exists [(q, s)]|].
    intros a t H. specialize (Hb a t H). lia.
  - assert (sep (bp + 16 * n) ((q, s) :: F2) hi) as Hs by (split_and!; [lia|done|done]). destruct (sep_bounds _ _ _ Hs) as [_ Hb].
    split_and!; [lia|done|done|done|by exists []|]. intros a t H. specialize (Hb a t H). lia.
Qed.

Lemma merge_right_link st bp n F2 q : lseg (hdr st) q F2 base -> base < bp -> n + units F2 < 2 ^ 32 -> 0 < n ->
  (forall a s, (a, s) ∈ F2 -> 0 < s) ->
  let '(m, F2r) := merge_right bp n F2 in
  hd_size (new_block bp n q st) = m /\ lseg (hdr st) (hd_ptr (new_block bp n q st)) F2r base.
Proof.
  intros Hseg Hb Hu Hn Hpos. unfold merge_right, new_block. destruct F2 as [|[x s] F2].
  - cbn in Hseg. subst q. rewrite (proj2 (Z.eqb_neq _ _)) by lia. done.
  - pose proof Hseg as (-> & Es & Hn2). destruct (Z.eqb_spec (bp + 16 * n) x); [|done]. cbn. fold (hsize st x) in Es. split; [|done].
    rewrite Es. unfold u32. rewrite units_cons in Hu. cbn in Hu. pose proof (Hpos x s ltac:(left)).
    assert (0 <= units F2) by (apply units_pos; intros; eapply Hpos; by right). by rewrite Z.mod_small by lia.
Qed.

Lemma snoc_cases (L : list (Z * Z)) : L = [] \/ exists L0 b, L = L0 ++ [b].
Proof. destruct L as [|b L]; [by left|right]. destruct (exists_last (l := b :: L)) as (L0 & c & E); [done|]. by exists L0, c. Qed.

(** A free block added between [F1] and [F2]. *)
Definition insert_block (F1 : list (Z * Z)) (bp n : Z) (F2 : list (Z * Z)) : list (Z * Z) :=
  let '(m, F2r) := merge_right bp n F2 in
  match last F1 with
  | Some (p, s) => if p + 16 * s =? bp then take (length F1 - 1) F1 ++ (p, s + m) :: F2r else F1 ++ (bp, m) :: F2r
  | None => (bp, m) :: F2r
  end.
Lemma insert_block_nil bp n F2 : insert_block [] bp n F2 = let '(m, F2r) := merge_right bp n F2 in (bp, m) :: F2r.
Proof. done. Qed.
Lemma insert_block_snoc F0 p s bp n F2 : insert_block (F0 ++ [(p, s)]) bp n F2 =
  let '(m, F2r) := merge_right bp n F2 in
  if p + 16 * s =? bp then F0 ++ (p, s + m) :: F2r else F0 ++ (p, s) :: (bp, m) :: F2r.
Proof.
  unfold insert_block. rewrite last_snoc, length_app, Nat.add_sub, take_app_length. destruct (merge_right bp n F2). by rewrite <- app_assoc.
Qed.

(** A block that touches neither of two lists of pieces. *)
Definition clear_of (a k : Z) (L : list (Z * Z)) : Prop := forall b m, (b, m) ∈ L -> apart a k b m.
Lemma clear_of_app a k L1 L2 : clear_of a k (L1 ++ L2) <-> clear_of a k L1 /\ clear_of a k L2.
Proof. unfold clear_of. split; [intros H; split; intros; apply H, elem_of_app; tauto|intros [H1 H2] b m [?|?]%elem_of_app; auto]. Qed.
Lemma clear_of_cons a k b m L : clear_of a k ((b, m) :: L) <-> apart a k b m /\ clear_of a k L.
Proof.
  unfold clear_of. split; [intros H; split; [apply H; left|intros; apply H; by right]|].
  intros [H1 H2] c l [[= -> ->]|?]%elem_of_cons; auto.
Qed.

Lemma merge_right_clear bp n F2 a k : 0 < n -> 0 < k -> (forall b s, (b, s) ∈ F2 -> 0 < s) -> apart bp n a k -> clear_of a k F2 ->
  let '(m, F2r) := merge_right bp n F2 in apart bp m a k /\ clear_of a k F2r.
Proof.
  intros Hn Hk Hp Hb Hc. destruct F2 as [|[q s] F2]; [done|]. cbn [merge_right]. pose proof Hc as [Hq Hc2]%clear_of_cons.
  pose proof (Hp q s ltac:(left)). destruct (Z.eqb_spec (bp + 16 * n) q); [|done]. split; [unfold apart in *; lia|done].
Qed.

Lemma insert_block_clear F1 bp n F2 a k lo : 0 < n -> 0 < k -> sep lo F1 bp -> (forall b s, (b, s) ∈ F2 -> 0 < s) -> apart bp n a k ->
  clear_of a k (F1 ++ F2) -> clear_of a k (insert_block F1 bp n F2).
Proof.
  intros Hn Hk Hs Hp Hb [H1 H2]%clear_of_app. pose proof (merge_right_clear bp n F2 a k Hn Hk Hp Hb H2) as Hm.
  assert (forall m, apart bp m a k -> apart a k bp m) as Hsym by (unfold apart; tauto).
  destruct (snoc_cases F1) as [->|(F0 & [p s] & ->)].
  - rewrite insert_block_nil. destruct (merge_right bp n F2) as [m F2r]. destruct Hm. apply clear_of_cons. auto.
  - rewrite insert_block_snoc. apply clear_of_app in H1 as [H0 [H1 _]%clear_of_cons].
    assert (0 < s) by (apply sep_bounds in Hs as [_ Hs]; specialize (Hs p s ltac:(set_solver)); lia).
    pose proof (merge_right_sep bp n F2) as Hms. destruct (merge_right bp n F2) as [m F2r] eqn:Em. destruct Hm as [Hm Hr].
    assert (0 < m). { clear Hms. unfold merge_right in Em. destruct F2 as [|[q t] F2]; [injection Em as <- _; lia|].
      pose proof (Hp q t ltac:(left)). destruct (_ =? q); injection Em as <- _; lia. }
    destruct (Z.eqb_spec (p + 16 * s) bp); rewrite !clear_of_app, !clear_of_cons; split_and!; auto. unfold apart in *; lia.
Qed.

Lemma insert_block_sep F1 bp n F2 hi : sep base F1 (end_of base F1) -> end_of base F1 <= bp -> base < bp ->
  sep (bp + 16 * n - 1) F2 hi -> 0 < n -> bp + 16 * n <= hi ->
  let F' := insert_block F1 bp n F2 in
  sep base F' hi /\ units F' = units F1 + n + units F2 /\ (exists b m, (b, m) ∈ F' /\ n <= m) /\ (length F' <= S (length F1 + length F2))%nat.
Proof.
  intros H1 He Hb H2 Hn Hhi. pose proof (merge_right_sep bp n F2 hi H2 Hn Hhi) as Hm.
  destruct (snoc_cases F1) as [->|(F0 & [p s] & ->)].
  - rewrite insert_block_nil. destruct (merge_right bp n F2) as [m F2r]. destruct Hm as (Hnm & Hs & Hu & Hl & _ & _). cbv zeta.
    rewrite !units_cons. cbn [sep]. split_and!; [lia|lia|done|cbn in *; lia|exists bp, m; split; [left|lia]|cbn; lia].
  - rewrite insert_block_snoc, !units_app, units_cons. rewrite end_of_block_snoc in *. apply sep_app in H1 as [H0 (Hp & Hps & _)].
    destruct (merge_right bp n F2) as [m F2r]. destruct Hm as (Hnm & Hs & Hu & Hl & _ & _). rewrite length_app. cbn [length snd] in *. cbv zeta.
    destruct (Z.eqb_spec (p + 16 * s) bp) as [E|E]; rewrite units_app, !units_cons, length_app, sep_app; cbn [sep snd length].
    + split_and!; [done|lia|lia|by replace (p + 16 * (s + m)) with (bp + 16 * m) by lia|cbn; lia|exists p, (s + m); split; [set_solver|lia]|lia].
    + split_and!; [done|lia|lia|lia|lia|done|cbn; lia|exists bp, m; split; [set_solver|lia]|lia].
Qed.

(** The free list after the writes of [free]. *)
Lemma insert_block_link st F1 bp n F2 N0 p s q :
  (base, 0) :: F1 = N0 ++ [(p, s)] -> lseg (hdr st) base ((N0 ++ [(p, s)]) ++ F2) base -> incr (base - 1) ((N0 ++ [(p, s)]) ++ F2) ->
  p < bp -> incr bp F2 -> base < bp -> 0 <= s -> s + n + units F2 < 2 ^ 32 -> 0 < n -> (forall a t, (a, t) ∈ F2 -> 0 < t) -> hptr st p = q ->
  let hb := new_block bp n q st in
  lseg (<[p := new_node p s bp hb]> (<[bp := hb]> (hdr st))) base ((base, 0) :: insert_block F1 bp n F2) base.
Proof.
  intros HN Hseg Hi Hp Hi2 Hb Hs Hu Hn Hpos Hq hb. apply lseg_app in Hseg as (z & Hlow & Hhigh).
  apply lseg_app in Hlow as (w & H0 & (-> & Es & Ez)). fold (hptr st p) in Ez. cbn in Ez. rewrite Hq in Ez. subst z.
  pose proof (merge_right_link st bp n F2 q Hhigh Hb ltac:(lia) Hn Hpos) as Hlink. fold hb in Hlink.
  pose proof (merge_right_sep bp n F2) as _. pose proof (incr_prefix _ _ _ Hi) as Hi1.
  rewrite <- app_assoc in Hi. destruct (incr_not_in _ _ _ _ _ Hi) as [HpN HpF].
  assert (forall L X, F2 = X ++ L -> (p ∉ L.*1) /\ (bp ∉ L.*1)) as Hout.
  { intros L X ->. cbn [app] in HpF. rewrite fmap_app in HpF. apply not_elem_of_app in HpF as [_ ?]. split; [done|].
    intros Hin. destruct (incr_suffix _ _ _ Hi2) as (lo & ? & Hlo). pose proof (incr_above _ _ _ Hlo Hin). lia. }
  assert (bp ∉ N0.*1) as HbN.
  { intros Hin. pose proof (incr_above _ _ _ (incr_prefix _ _ _ Hi1) Hin). apply list_elem_of_fmap in Hin as ([c u] & -> & Hin). cbn [fst] in *.
    apply list_elem_of_split in Hin as (X & Y & ->). rewrite <- app_assoc in Hi1. apply incr_suffix in Hi1 as (lo & _ & Hi1). cbn in Hi1.
    pose proof (incr_above _ _ p (proj2 Hi1) (elem_mid Y p s [])). lia. }
  destruct (merge_right bp n F2) as [m F2r] eqn:Em. destruct Hlink as [Hm Hl].
  assert (exists X, F2 = X ++ F2r) as [X HX].
  { unfold merge_right in Em. destruct F2 as [|[x t] F2]; [injection Em as _ <-; by exists []|]. destruct (_ =? x); injection Em as _ <-; [by exists [(x, t)]|by exists []]. }
  destruct (Hout F2r X HX) as [HpR HbR].
  assert (0 <= units F2r < 2 ^ 32 /\ s + m < 2 ^ 32 /\ 0 <= m) as (_ & Hsm & Hm0).
  { assert (0 <= units F2r). { apply units_pos. intros a t Hin. apply (Hpos a t). rewrite HX. apply elem_of_app. by right. }
    unfold merge_right in Em. destruct F2 as [|[x t] F2]; [injection Em as <- <-; cbn in *; lia|]. rewrite units_cons in Hu. cbn in Hu.
    pose proof (Hpos x t ltac:(left)). destruct (_ =? x); injection Em as <- <-; [lia|]. rewrite units_cons in *. cbn in *. lia. }
  assert ((base, 0) :: insert_block F1 bp n F2 = N0 ++ (if p + 16 * s =? bp then (p, s + m) :: F2r else (p, s) :: (bp, m) :: F2r)) as ->.
  { destruct (snoc_cases F1) as [->|(F0 & [p' s'] & ->)].
    - rewrite insert_block_nil, Em. apply (app_inj_2 [] N0 [(base, 0)] [(p, s)]) in HN as [<- [= <- <-]]; [|done]. rewrite (proj2 (Z.eqb_neq _ _)) by lia. done.
    - rewrite insert_block_snoc, Em. rewrite app_comm_cons in HN. apply app_inj_2 in HN as [<- [= -> ->]]; [|done]. by destruct (_ =? bp). }
  apply lseg_app. exists p. split; [by apply lseg_insert, lseg_insert|]. unfold new_node.
  destruct (p + 16 * s =? bp); cbn [lseg]; rewrite lookup_total_insert_eq; cbn [hd_ptr hd_size].
  - rewrite Hm. unfold u32. rewrite Z.mod_small by lia. split_and!; [done..|]. by apply lseg_insert, lseg_insert.
  - rewrite lookup_total_insert_ne, lookup_total_insert_eq by lia. split_and!; [done..|]. by apply lseg_insert, lseg_insert.
Qed.

(** The node before a block, and what is on either side. *)
Record place (st : ustate) (F : list (Z * Z)) (bp n : Z) (F1 F2 N0 : list (Z * Z)) (p s : Z) : Prop := {
  pl_split : F = F1 ++ F2;
  pl_node : (base, 0) :: F1 = N0 ++ [(p, s)];
  pl_below : end_of base F1 = p + 16 * s /\ end_of base F1 <= bp /\ p < bp;
  pl_low : sep base F1 (end_of base F1);
  pl_high : sep (bp + 16 * n - 1) F2 (brk st);
  pl_size : 0 <= s < 2 ^ 32 /\ base <= p }.

Lemma place_exists st F A bp n : heap_ok st F A -> 0 < n -> base < bp -> bp + 16 * n <= brk st -> clear_of bp n F ->
  exists F1 F2 N0 p s, place st F bp n F1 F2 N0 p s.
Proof.
  intros Hok Hn Hb Hbrk Hc. pose proof (h_sep _ _ _ Hok) as Hs. destruct (h_bounds _ _ _ Hok) as [Hb0 Hmax]. unfold HEAPMAX in Hmax.
  destruct (sep_split bp n F _ _ Hs Hn Hc) as (F1 & F2 & -> & H1 & H2). apply sep_app in Hs as [Hs1 Hs2].
  assert (sep (bp + 16 * n - 1) F2 (brk st)) as Hs3.
  { destruct F2 as [|[q t] F2]; [cbn; lia|]. destruct Hs2 as (? & ? & ?). specialize (H2 q t ltac:(left)). split_and!; [lia|done|done]. }
  destruct (snoc_cases F1) as [->|(F0 & [p s] & ->)].
  - exists [], F2, [], base, 0. constructor; [done|done|unfold end_of; cbn; lia|done|done|lia].
  - exists (F0 ++ [(p, s)]), F2, ((base, 0) :: F0), p, s. specialize (H1 p s ltac:(set_solver)).
    destruct (sep_bounds _ _ _ Hs1) as [_ Hbd]. specialize (Hbd p s ltac:(set_solver)). rewrite end_of_block_snoc in *.
    constructor; [done|done|rewrite end_of_block_snoc; lia|by rewrite end_of_block_snoc|done|lia].
Qed.

(** The headers [free] writes are outside the blocks handed out. *)
Lemma place_safe st F A bp n F1 F2 N0 p s : heap_ok st F A -> place st F bp n F1 F2 N0 p s ->
  (forall a k, A !! a = Some k -> apart bp n a k) -> 0 < n ->
  forall a k, A !! a = Some k -> 0 < k /\ a <> p /\ a <> bp /\ (forall x, a <= x < a + 16 * k -> x <> p /\ x <> bp).
Proof.
  intros Hok [-> HN _ Hlow _ _] HA Hn a k Ha. destruct (h_used _ _ _ Hok a k Ha) as (_ & Hk & Hba & _). pose proof (HA a k Ha) as Hap.
  assert ((apart a k p s /\ 0 < s) \/ p = base) as Hpp.
  { destruct (snoc_cases F1) as [->|(F0 & [p' s'] & ->)].
    - right. apply (app_inj_2 [] N0 [(base, 0)] [(p, s)]) in HN as [<- [= <- <-]]; done.
    - rewrite app_comm_cons in HN. apply app_inj_2 in HN as [_ [= -> ->]]; [|done]. left. split; [apply (h_free _ _ _ Hok a k p s Ha); set_solver|].
      destruct (sep_bounds _ _ _ Hlow) as [_ Hbd]. specialize (Hbd p s ltac:(set_solver)). lia. }
  unfold apart in *. split_and!; [lia|lia|lia|]. intros x Hx. lia.
Qed.

Lemma insert_block_node F1 bp n F2 N0 p s : (base, 0) :: F1 = N0 ++ [(p, s)] -> p ∈ ((base, 0) :: insert_block F1 bp n F2).*1.
Proof.
  intros HN. rewrite fmap_cons. destruct (snoc_cases F1) as [->|(F0 & [p' s'] & ->)].
  - apply (app_inj_2 [] N0 [(base, 0)] [(p, s)]) in HN as [<- [= <- <-]]; [left|done].
  - rewrite app_comm_cons in HN. apply app_inj_2 in HN as [_ [= -> ->]]; [|done]. right. rewrite insert_block_snoc.
    destruct (merge_right bp n F2). case_match; apply elem_mid.
Qed.

Lemma free_run st F A bp n fuel : heap_ok st F A -> hsize st bp = n -> 0 < n -> base < bp -> bp + 16 * n <= brk st ->
  clear_of bp n F -> (forall a k, A !! a = Some k -> apart bp n a k) -> (length F + 1 <= fuel)%nat ->
  exists F' st', free fuel (bp + 16) st = Some st' /\ heap_ok st' F' A /\ units F' = units F + n /\ brk st' = brk st /\
    (exists b m, (b, m) ∈ F' /\ n <= m) /\ (length F' <= S (length F))%nat /\ kept A st st'.
Proof.
  intros Hok En Hn Hb Hbrk Hc HA Hf. destruct (place_exists st F A bp n Hok Hn Hb Hbrk Hc) as (F1 & F2 & N0 & p & s & Hpl).
  pose proof (pl_split _ _ _ _ _ _ _ _ _ Hpl) as ->.
  pose proof Hpl as [_ HN (He & Hle & Hp) Hlow Hhigh [Hs Hbp]]. destruct (h_bounds _ _ _ Hok) as [Hb0 Hmax]. unfold HEAPMAX in Hmax.
  pose proof (h_ring _ _ _ Hok) as Hring. pose proof (heap_incr _ _ _ Hok) as Hi. pose proof (h_freep _ _ _ Hok) as Hfp.
  rewrite app_comm_cons, HN in Hring, Hi, Hfp.
  assert (incr bp F2) as Hi2 by (eapply sep_incr; [exact Hhigh|lia]).
  assert (free_search fuel bp (freep st) st = Some p) as Hfs.
  { apply (search_run st base bp Hb N0 p s F2); try done. apply (f_equal length) in HN. rewrite length_app in HN, Hf. cbn in HN. lia. }
  pose proof Hring as Hr. apply lseg_app in Hr as (z & Hr & Hz). apply lseg_app in Hr as (w & _ & (-> & Es & Ez)). cbn in Ez.
  fold (hsize st p) in Es. fold (hptr st p) in Ez.
  assert (z <> bp) as Hzb.
  { destruct F2 as [|[q t] F2]; [cbn in Hz; lia|]. destruct Hz as [-> _]. destruct Hi2. lia. }
  assert (0 <= n < 2 ^ 32) as Hn32 by lia.
  pose proof (free_writes fuel bp p n s z st ltac:(lia) Hn32 ltac:(lia) Hs ltac:(lia) Hzb Hfs En Es Ez) as Hfree.
  destruct (insert_block_sep F1 bp n F2 (brk st) Hlow Hle Hb Hhigh Hn Hbrk) as (Hsep & Hu & Hbig & Hlen).
  pose proof (sep_bounds _ _ _ Hhigh) as [_ Hpos2]. pose proof (sep_units _ _ _ Hhigh) as Hu2.
  assert (forall a t, (a, t) ∈ F2 -> 0 < t) as Hpos by (intros a t Hin; by apply (Hpos2 a t)).
  pose proof (place_safe st (F1 ++ F2) A bp n F1 F2 N0 p s Hok Hpl HA Hn) as Hsafe.
  eexists (insert_block F1 bp n F2), _. split; [exact Hfree|]. split; [|rewrite units_app; split_and!; try done; [lia|by rewrite length_app|]].
  - constructor; cbn [hdr freep brk].
    + apply (insert_block_link st F1 bp n F2 N0 p s z); try done; lia.
    + by eapply insert_block_node.
    + done.
    + intros a k Ha. destruct (h_used _ _ _ Hok a k Ha) as (Hsz & ? & ? & ?). destruct (Hsafe a k Ha) as (_ & ? & ? & _). split_and!; [|done..].
      unfold hsize. cbn. rewrite !lookup_total_insert_ne by done. exact Hsz.
    + apply Hok.
    + intros a k b m Ha. apply (insert_block_clear F1 bp n F2 a k base); [done|by apply (Hsafe a k Ha)|by eapply sep_hi|done|by apply HA|].
      intros c l Hin. by apply (h_free _ _ _ Hok a k c l Ha).
    + unfold HEAPMAX. lia.
  - intros a k x Ha Hx. destruct (Hsafe a k Ha) as (_ & _ & _ & Hsx). destruct (Hsx x Hx). cbn [hdr]. by rewrite !lookup_insert_ne by done.
Qed.

(** ** The search of [malloc] *)

Lemma lseg_next h x N y i a s : lseg h x N y -> N !! i = Some (a, s) ->
  hd_size (h !!! a) = s /\ hd_ptr (h !!! a) = match N !! S i with Some (b, _) => b | None => y end.
Proof.
  revert x i. induction N as [|[c t] N IH]; intros x i; [done|]. intros (-> & Hs & Hn) Hi. destruct i as [|i]; [|by eapply IH].
  injection Hi as -> ->. split; [done|]. destruct N as [|[b u] N]; [done|]. by destruct Hn as [-> _].
Qed.

Lemma lookup_addr (L : list (Z * Z)) i a s : L !! i = Some (a, s) -> a ∈ L.*1.
Proof. intros H. apply list_elem_of_fmap. exists (a, s). split; [done|]. by eapply list_elem_of_lookup_2. Qed.
Lemma incr_lookup L : forall lo i j a s b t, incr lo L -> L !! i = Some (a, s) -> L !! j = Some (b, t) -> a = b -> i = j.
Proof.
  induction L as [|[c u] L IH]; intros lo i j a s b t; [done|]. intros [_ Hi] Ha Hb E.
  destruct i as [|i], j as [|j]; [done|..|f_equal; by eapply IH].
  - injection Ha as -> ->. pose proof (incr_above _ _ b Hi (lookup_addr L j b t Hb)). lia.
  - injection Hb as -> ->. pose proof (incr_above _ _ a Hi (lookup_addr L i a s Ha)). lia.
Qed.

(** Two nodes of the list do not have the same successor. *)
Lemma pred_unique st F A a b s t : heap_ok st F A -> (a, s) ∈ (base, 0) :: F -> (b, t) ∈ (base, 0) :: F -> hptr st a = hptr st b -> a = b.
Proof.
  intros Hok [i Hi]%list_elem_of_lookup [j Hj]%list_elem_of_lookup E. pose proof (h_ring _ _ _ Hok) as Hr. pose proof (heap_incr _ _ _ Hok) as Hinc.
  destruct (lseg_next _ _ _ _ _ _ _ Hr Hi) as [_ Ea]. destruct (lseg_next _ _ _ _ _ _ _ Hr Hj) as [_ Eb]. unfold hptr in E.
  assert (i = j) as ->; [|congruence].
  assert (((base, 0) :: F) !! 0%nat = Some (base, 0)) as H0 by done.
  destruct (((base, 0) :: F) !! S i) as [[c u]|] eqn:Ei, (((base, 0) :: F) !! S j) as [[d v]|] eqn:Ej.
  - assert (S i = S j); [eapply (incr_lookup _ _ _ _ c u d v); [exact Hinc|done|done|congruence]|lia].
  - assert (S i = 0)%nat; [eapply (incr_lookup _ _ _ _ c u base 0); [exact Hinc|done|done|congruence]|lia].
  - assert (0 = S j)%nat; [eapply (incr_lookup _ _ _ _ base 0 d v); [exact Hinc|done|done|congruence]|lia].
  - apply lookup_ge_None in Ei, Ej. apply lookup_lt_Some in Hi, Hj. lia.
Qed.

Section pass.
Context (grant : Z -> Z -> bool) (nunits : Z) (st : ustate).

(** One trip round the list, from the node after [x] to [freep]. *)
Lemma malloc_pass V : forall x s k, lseg (hdr st) (hptr st x) (V ++ [(freep st, s)]) (hptr st (freep st)) -> freep st ∉ V.*1 ->
  (exists V1 p t V2, V ++ [(freep st, s)] = V1 ++ (p, t) :: V2 /\ nunits <= t /\
     exists prev, prev ∈ x :: V1.*1 /\ hptr st prev = p /\
     malloc_loop grant (length V + S k) nunits x (hptr st x) st = Some (take_block nunits prev p st)) \/
  ((forall b t, (b, t) ∈ V ++ [(freep st, s)] -> t < nunits) /\
   malloc_loop grant (length V + S k) nunits x (hptr st x) st =
     (r ← morecore grant k nunits st;
      let '(p, st) := r in
      if p =? 0 then Some (0, st) else malloc_loop grant k nunits p (hptr st p) st)).
Proof.
  induction V as [|[a t] V IH]; intros x s k Hseg Hf; cbn [app length Nat.add malloc_loop].
  - destruct Hseg as (E & Es & _). rewrite E. fold (hsize st (freep st)) in Es. rewrite Es. destruct (Z.leb_spec nunits s).
    + left. exists [], (freep st), s, []. split_and!; [done|lia|]. exists x. split_and!; [left|done|done].
    + right. rewrite Z.eqb_refl. split; [|done]. intros b u [[= -> ->]|[]%not_elem_of_nil]%elem_of_cons. lia.
  - destruct Hseg as (E & Es & Hn). rewrite fmap_cons in Hf. apply not_elem_of_cons in Hf as [Hfa Hf]. cbn in Hfa.
    rewrite E. fold (hsize st a) in Es. fold (hptr st a) in Hn. rewrite Es. destruct (Z.leb_spec nunits t).
    + left. exists [], a, t, (V ++ [(freep st, s)]). split_and!; [done|lia|]. exists x. split_and!; [left|done|done].
    + rewrite (proj2 (Z.eqb_neq a (freep st))) by done. destruct (IH a s k Hn Hf) as [(V1 & p & u & V2 & EV & Hu & prev & Hin & Hp & ->)|[Hall ->]].
      * left. exists ((a, t) :: V1), p, u, V2. split_and!; [by rewrite EV|done|]. exists prev. split_and!; [|done|done].
        rewrite fmap_cons. by right.
      * right. split; [|done]. intros b u [[= -> ->]|Hb]%elem_of_cons; [lia|by apply (Hall b u)].
Qed.

(** A free block and the node before it. *)
Definition follows (F F1 : list (Z * Z)) (p s : Z) (F2 N0 : list (Z * Z)) (p0 s0 : Z) : Prop :=
  F = F1 ++ (p, s) :: F2 /\ (base, 0) :: F1 = N0 ++ [(p0, s0)].
Lemma follows_exists F p s : (p, s) ∈ F -> exists F1 F2 N0 p0 s0, follows F F1 p s F2 N0 p0 s0.
Proof.
  intros (F1 & F2 & ->)%list_elem_of_split. destruct (snoc_cases F1) as [->|(F0 & [q t] & ->)].
  - by exists [], F2, [], base, 0.
  - by exists (F0 ++ [(q, t)]), F2, ((base, 0) :: F0), q, t.
Qed.
Lemma follows_ring F A F1 p s F2 N0 p0 s0 : heap_ok st F A -> follows F F1 p s F2 N0 p0 s0 ->
  lseg (hdr st) base N0 p0 /\ hsize st p0 = s0 /\ hptr st p0 = p /\ hsize st p = s /\ lseg (hdr st) (hptr st p) F2 base /\
  incr (base - 1) (N0 ++ [(p0, s0)] ++ (p, s) :: F2).
Proof.
  intros Hok [-> HN]. pose proof (h_ring _ _ _ Hok) as Hr. pose proof (heap_incr _ _ _ Hok) as Hi.
  rewrite app_comm_cons, HN, <- app_assoc in Hr, Hi. apply lseg_app in Hr as (z & H0 & Hr). cbn [app lseg] in Hr.
  destruct Hr as (-> & H1 & H2 & H3 & H4). by split_and!.
Qed.

Lemma malloc_search F A k : heap_ok st F A -> 0 < nunits ->
  let r := malloc_loop grant (length F + S k) nunits (freep st) (hptr st (freep st)) st in
  (exists F1 p s F2 N0 p0 s0, follows F F1 p s F2 N0 p0 s0 /\ nunits <= s /\ r = Some (take_block nunits p0 p st)) \/
  ((forall b t, (b, t) ∈ F -> t < nunits) /\
   r = (r ← morecore grant k nunits st;
        let '(p, st) := r in
        if p =? 0 then Some (0, st) else malloc_loop grant k nunits p (hptr st p) st)).
Proof.
  intros Hok Hn r. pose proof (h_freep _ _ _ Hok) as Hfp. apply list_elem_of_fmap in Hfp as ([fp s] & Efp & Hin). cbn in Efp.
  apply list_elem_of_split in Hin as (X & Y & HN). pose proof (h_ring _ _ _ Hok) as Hr. pose proof (heap_incr _ _ _ Hok) as Hi.
  rewrite HN in Hr, Hi. apply lseg_app in Hr as (z & HX & (-> & _ & HY)). destruct (incr_not_in _ _ _ _ _ Hi) as [HfX HfY]. subst fp.
  assert (lseg (hdr st) (hptr st (freep st)) ((Y ++ X) ++ [(freep st, s)]) (hptr st (freep st))) as HV.
  { rewrite <- app_assoc. apply lseg_app. exists base. split; [exact HY|]. apply lseg_app. exists (freep st). split; [done|]. cbn. split_and!; [done| |done].
    destruct (lseg_next _ _ _ _ (length X) (freep st) s (h_ring _ _ _ Hok)) as [? _]; [|done]. rewrite HN. by apply list_lookup_middle. }
  assert (length (Y ++ X) = length F) as Hlen by (apply (f_equal length) in HN; rewrite length_app in HN |- *; cbn in HN; lia).
  assert (forall b, b ∈ (Y ++ X) ++ [(freep st, s)] <-> b ∈ (base, 0) :: F) as Hmem.
  { intros b. rewrite HN. set_solver. }
  destruct (malloc_pass (Y ++ X) (freep st) s k HV) as [(V1 & p & t & V2 & EV & Ht & prev & Hprev & Hp & Er)|[Hall Er]];
    [rewrite fmap_app; by apply not_elem_of_app| |]; rewrite Hlen in Er; fold r in Er.
  - left. assert ((p, t) ∈ F) as HpF.
    { assert ((p, t) ∈ (base, 0) :: F) as H by (apply Hmem; rewrite EV; apply elem_of_app; right; left).
      apply elem_of_cons in H as [[= -> ->]|H]; [lia|done]. }
    destruct (follows_exists F p t HpF) as (F1 & F2 & N0 & p0 & s0 & Hfol). exists F1, p, t, F2, N0, p0, s0. split_and!; [done|lia|].
    destruct (follows_ring F A _ _ _ _ _ _ _ Hok Hfol) as (_ & _ & Hp0 & _).
    assert (exists u, (prev, u) ∈ (base, 0) :: F) as [u Hu].
    { apply elem_of_cons in Hprev as [->|Hprev]; [exists s; apply Hmem; set_solver|]. apply list_elem_of_fmap in Hprev as ([c u] & -> & Hc).
      exists u. apply Hmem. rewrite EV. apply elem_of_app. by left. }
    assert ((p0, s0) ∈ (base, 0) :: F) as Hp0F.
    { destruct Hfol as [-> HN0]. rewrite app_comm_cons, HN0. apply elem_of_app. left. apply elem_of_app. right. left. }
    assert (prev = p0) as ->; [|done]. eapply (pred_unique st F A); [done..|congruence].
  - right. split; [|done]. intros b t Hb. apply (Hall b t), Hmem. by right.
Qed.
End pass.

(** ** Taking a block *)

(** A block cut out of the free blocks becomes one handed out. *)
Lemma heap_take st st' F F' A a n : heap_ok st F A -> lseg (hdr st') base ((base, 0) :: F') base -> freep st' ∈ ((base, 0) :: F').*1 ->
  sep base F' (brk st') -> brk st' = brk st -> hsize st' a = n -> 0 < n -> base < a -> a + 16 * n <= brk st ->
  (forall b k, A !! b = Some k -> apart b k a n /\ clear_of b k F') -> clear_of a n F' -> kept A st st' ->
  A !! a = None /\ heap_ok st' F' (<[a := n]> A).
Proof.
  intros Hok Hring Hfp Hsep Hbrk Hsz Hn Hba Hend HA Hclear Hkept.
  assert (A !! a = None) as Ha.
  { destruct (A !! a) as [k|] eqn:E; [|done]. destruct (h_used _ _ _ Hok a k E) as (_ & ? & _). destruct (HA a k E) as [Hap _]. unfold apart in Hap. lia. }
  split; [done|]. constructor; try done.
  - intros b k [[<- <-]|[Hne Hb]]%lookup_insert_Some; [by rewrite Hbrk|]. destruct (h_used _ _ _ Hok b k Hb) as (Hs & Hk & ?). rewrite Hbrk. split; [|done].
    unfold hsize in *. rewrite !lookup_total_alt in *. by rewrite (Hkept b k b Hb ltac:(lia)).
  - intros b k c m [[<- <-]|[Hne Hb]]%lookup_insert_Some [[<- <-]|[Hne' Hc]]%lookup_insert_Some Hbc; [done|..|by apply (h_apart _ _ _ Hok)].
    + destruct (HA c m Hc) as [H _]. unfold apart in *. lia.
    + by destruct (HA b k Hb) as [H _].
  - intros b k c m [[<- <-]|[Hne Hb]]%lookup_insert_Some Hc; [by apply Hclear|]. by apply (HA b k Hb).
  - rewrite Hbrk. apply Hok.
Qed.

Section take.
Context (st : ustate) (F : list (Z * Z)) (A : gmap Z Z) (Hok : heap_ok st F A).
Context (F1 : list (Z * Z)) (p s : Z) (F2 N0 : list (Z * Z)) (p0 s0 : Z) (Hfol : follows F F1 p s F2 N0 p0 s0).

Lemma take_facts : base < p /\ 0 < s /\ p + 16 * s <= brk st /\ base <= p0 < p /\ clear_of p s (F1 ++ F2) /\
  (forall b k, A !! b = Some k -> 0 < k /\ apart b k p s /\ clear_of b k F) /\ (p0 = base \/ (p0, s0) ∈ F1).
Proof using Hok Hfol.
  destruct (follows_ring st F A _ _ _ _ _ _ _ Hok Hfol) as (_ & _ & _ & _ & _ & Hi). destruct Hfol as [EF HN].
  pose proof (h_sep _ _ _ Hok) as Hs. rewrite EF in Hs. destruct (sep_bounds _ _ _ Hs) as [_ Hb]. specialize (Hb p s ltac:(set_solver)).
  assert (p0 = base \/ (p0, s0) ∈ F1) as Hp0.
  { assert ((p0, s0) ∈ (base, 0) :: F1) as H by (rewrite HN; set_solver). apply elem_of_cons in H as [[= -> ->]|?]; [by left|by right]. }
  split_and!; [lia|lia|lia| | | | |done].
  - pose proof (incr_above _ _ p0 Hi (elem_mid N0 p0 s0 _)). lia.
  - apply incr_suffix in Hi as (lo & _ & Hi). cbn in Hi. lia.
  - apply sep_app in Hs as [Hs1 (Hs2 & _ & Hs3)]. intros b m [H|H]%elem_of_app; unfold apart.
    + destruct (sep_bounds _ _ _ Hs1) as [_ Hb1]. specialize (Hb1 b m H). lia.
    + destruct (sep_bounds _ _ _ Hs3) as [_ Hb3]. specialize (Hb3 b m H). lia.
  - intros b k Hbk. destruct (h_used _ _ _ Hok b k Hbk) as (_ & ? & _). split_and!; [done|apply (h_free _ _ _ Hok b k p s Hbk); rewrite EF; set_solver|].
    intros c m. by apply (h_free _ _ _ Hok).
Qed.

(** What [take_block] may write is not inside a block handed out. *)
Lemma take_kept x : x = p0 \/ p <= x < p + 16 * s -> forall b k y, A !! b = Some k -> b <= y < b + 16 * k -> x <> y.
Proof using Hok Hfol.
  destruct take_facts as (H1 & H2 & H3 & H4 & _ & HA & Hp0). intros Hx b k y Hb Hy. destruct (HA b k Hb) as (Hk & Hap & Hcl).
  destruct (h_used _ _ _ Hok b k Hb) as (_ & _ & Hbb & _). destruct Hx as [->|Hx]; [|unfold apart in Hap; lia].
  destruct Hp0 as [->|Hp0]; [lia|]. destruct Hfol as [-> _]. specialize (Hcl p0 s0 ltac:(set_solver)).
  destruct (sep_bounds _ _ _ (h_sep _ _ _ Hok)) as [_ Hbd]. specialize (Hbd p0 s0 ltac:(set_solver)). unfold apart in Hcl. lia.
Qed.

Definition took (n : Z) (r : Z * ustate) : Prop :=
  exists F' a st', r = (a + 16, st') /\ base < a /\ A !! a = None /\ heap_ok st' F' (<[a := n]> A) /\ units F' + n = units F /\
    brk st' = brk st /\ kept A st st'.

(** The whole block. *)
Lemma take_exact : took s (take_block s p0 p st).
Proof using Hok Hfol.
  destruct (follows_ring st F A _ _ _ _ _ _ _ Hok Hfol) as (H0 & Es0 & Ep0 & Es & H2 & Hi). pose proof take_facts as (Hbp & Hs & Hend & Hp0 & Hcl & HA & Hp0F).
  destruct (h_bounds _ _ _ Hok) as [Hb Hmax]. unfold HEAPMAX in Hmax. pose proof Hfol as [EF HN].
  unfold took, take_block. rewrite Es, Z.eqb_refl, padd_eq by lia. set (st' := set_freep p0 (set_ptr p0 (hptr st p) st)).
  assert (kept A st st') as Hkept.
  { intros b k y Hb' Hy. unfold st'. cbn. rewrite lookup_insert_ne; [done|]. exact (take_kept p0 (or_introl eq_refl) b k y Hb' Hy). }
  destruct (incr_not_in _ _ _ _ _ Hi) as [HpN HpF]. cbn [app] in HpF. rewrite fmap_cons in HpF. apply not_elem_of_cons in HpF as [_ HpF].
  destruct (heap_take st st' F (F1 ++ F2) A p s Hok) as [Ha Hok']; try done.
  - rewrite app_comm_cons, HN, <- app_assoc. apply lseg_app. exists p0. unfold st'. cbn. split; [by apply lseg_insert|].
    rewrite lookup_total_insert_eq. cbn. split_and!; [done|done|by apply lseg_insert].
  - unfold st'. cbn [freep set_freep]. rewrite app_comm_cons, HN, <- app_assoc. apply elem_mid.
  - pose proof (h_sep _ _ _ Hok) as Hsep. rewrite EF in Hsep. apply sep_app in Hsep as [Hs1 (? & ? & Hs2)]. apply sep_app. split; [done|].
    eapply sep_weaken; [done|]. lia.
  - unfold st'. change (hsize (set_ptr p0 (hptr st p) st) p = s). by rewrite hsize_set.
  - intros b k Hbk. destruct (HA b k Hbk) as (_ & Hap & Hclr). split; [done|]. rewrite EF in Hclr.
    apply clear_of_app in Hclr as [? [_ ?]%clear_of_cons]. by apply clear_of_app.
  - exists (F1 ++ F2), p, st'. split_and!; try done. rewrite EF, !units_app, units_cons. cbn. lia.
Qed.

(** Its end. *)
Lemma take_tail n : 0 < n < s -> took n (take_block n p0 p st).
Proof using Hok Hfol.
  intros Hn.
  destruct (follows_ring st F A _ _ _ _ _ _ _ Hok Hfol) as (H0 & Es0 & Ep0 & Es & H2 & Hi). pose proof take_facts as (Hbp & Hs & Hend & Hp0 & Hcl & HA & Hp0F).
  destruct (h_bounds _ _ _ Hok) as [Hb Hmax]. unfold HEAPMAX in Hmax. pose proof Hfol as [EF HN].
  unfold took, take_block. rewrite Es, (proj2 (Z.eqb_neq s n)) by lia.
  unfold u32. rewrite Z.mod_small, hsize_set_size, decide_True, (padd_eq p) by (done || lia). set (a := p + 16 * (s - n)). rewrite padd_eq by lia.
  set (st' := set_freep p0 (set_size a n (set_size p (s - n) st))).
  assert (hdr st' = <[a := Header (hptr st a) n]> (<[p := Header (hptr st p) (s - n)]> (hdr st))) as Eh.
  { unfold st', set_freep, set_size at 1, set_hdr. cbn. by rewrite hptr_set_size. }
  assert (kept A st st') as Hkept.
  { intros b k y Hb' Hy. rewrite Eh, !lookup_insert_ne; [done|exact (take_kept p ltac:(lia) b k y Hb' Hy)|exact (take_kept a ltac:(lia) b k y Hb' Hy)]. }
  rewrite app_assoc in Hi. destruct (incr_not_in _ _ _ _ _ Hi) as [HpN HpF]. rewrite fmap_app in HpN. apply not_elem_of_app in HpN as [HpN Hpp0].
  pose proof (h_sep _ _ _ Hok) as Hsep. rewrite EF in Hsep. pose proof Hsep as [Hs1 (Hs2 & _ & Hs3)]%sep_app.
  assert (forall b, b ∈ (base, 0) :: F1 \/ b ∈ F2 -> b.1 <> a) as Hout.
  { intros [b m] [[[= -> ->]|Hin]%elem_of_cons|Hin]; cbn; [lia|specialize (Hcl b m ltac:(set_solver))..]; unfold apart in Hcl;
      [destruct (sep_bounds _ _ _ Hs1) as [_ Hbd]|destruct (sep_bounds _ _ _ Hs3) as [_ Hbd]]; specialize (Hbd b m Hin); lia. }
  assert (forall L, (forall b, b ∈ L -> b ∈ (base, 0) :: F1 \/ b ∈ F2) -> a ∉ L.*1) as HaL.
  { intros L HL ([b m] & E & Hin)%list_elem_of_fmap. by apply (Hout (b, m) (HL _ Hin)). }
  destruct (heap_take st st' F (F1 ++ (p, s - n) :: F2) A a n Hok) as [Ha Hok']; try done; try lia.
  - rewrite app_comm_cons, HN, <- app_assoc. rewrite Eh. apply lseg_app. exists p0. split.
    + apply lseg_insert; [apply HaL; intros b Hb'; left; rewrite HN; set_solver|]. by apply lseg_insert.
    + assert (p0 <> a /\ p <> a) as [? ?] by lia. cbn [app lseg]. rewrite (lookup_total_insert_ne _ a p0), (lookup_total_insert_ne _ p p0) by lia.
      rewrite (lookup_total_insert_ne _ a p), lookup_total_insert_eq by lia. cbn.
      split_and!; [done|done|done|done|]. apply lseg_insert; [apply HaL; tauto|]. by apply lseg_insert.
  - unfold st'. cbn [freep set_freep]. rewrite app_comm_cons, HN, <- app_assoc. apply elem_mid.
  - apply sep_app. split; [done|]. split_and!; [done|lia|]. eapply sep_weaken; [done|]. lia.
  - unfold hsize. rewrite Eh, lookup_total_insert_eq. done.
  - intros b k Hbk. destruct (HA b k Hbk) as (Hk & Hap & Hclr). split; [unfold apart in *; lia|]. rewrite EF in Hclr.
    apply clear_of_app in Hclr as [? [? ?]%clear_of_cons]. apply clear_of_app. split; [done|]. apply clear_of_cons. split; [unfold apart in *; lia|done].
  - apply clear_of_app in Hcl as [Hc1 Hc2]. apply clear_of_app. split; [|apply clear_of_cons; split; [unfold apart; lia|]].
    + intros b m Hin. specialize (Hc1 b m Hin). destruct (sep_bounds _ _ _ Hs1) as [_ Hbd]. specialize (Hbd b m Hin). unfold apart in *. lia.
    + intros b m Hin. specialize (Hc2 b m Hin). destruct (sep_bounds _ _ _ Hs3) as [_ Hbd]. specialize (Hbd b m Hin). unfold apart in *. lia.
  - exists (F1 ++ (p, s - n) :: F2), a, st'. split_and!; try done; [lia|]. rewrite EF, !units_app, !units_cons. cbn. lia.
Qed.
End take.

(** ** Growing the heap *)

Lemma heap_above st F A a : heap_ok st F A -> brk st <= a -> (a ∉ ((base, 0) :: F).*1) /\ A !! a = None /\ clear_of a 1 F.
Proof.
  intros Hok Ha. destruct (h_bounds _ _ _ Hok) as [Hb _]. destruct (sep_bounds _ _ _ (h_sep _ _ _ Hok)) as [_ Hbd]. split_and!.
  - intros ([b s] & -> & [[= -> ->]|Hin]%elem_of_cons)%list_elem_of_fmap; cbn in Ha; [lia|]. specialize (Hbd b s Hin). lia.
  - destruct (A !! a) as [n|] eqn:E; [|done]. destruct (h_used _ _ _ Hok a n E) as (_ & ? & _ & ?). lia.
  - intros b m Hin. specialize (Hbd b m Hin). unfold apart. lia.
Qed.

Lemma heap_grow st F A h m : heap_ok st F A -> 0 < m -> brk st + 16 * m <= HEAPMAX ->
  heap_ok (UState (<[brk st := h]> (hdr st)) (freep st) (brk st + 16 * m)) F A.
Proof.
  intros Hok Hm Hmax. destruct (heap_above st F A (brk st) Hok ltac:(lia)) as (Hnf & Hna & _). constructor; cbn [hdr freep brk].
  - apply lseg_insert; [done|apply Hok].
  - apply Hok.
  - eapply sep_hi; [apply Hok|lia].
  - intros a n Ha. destruct (h_used _ _ _ Hok a n Ha) as (Hs & ? & ? & ?). split_and!; [|lia..]. unfold hsize in *. cbn.
    rewrite lookup_total_insert_ne; [done|]. congruence.
  - apply Hok.
  - apply Hok.
  - destruct (h_bounds _ _ _ Hok). lia.
Qed.

Section core.
Context (grant : Z -> Z -> bool) (Hgrant : forall b n, grant b n = true -> b + n <= HEAPMAX).

Lemma morecore_run st F A nu fuel : heap_ok st F A -> 0 < nu < 2 ^ 27 -> (length F + 1 <= fuel)%nat ->
  let m := Z.max 4096 nu in
  (grant (brk st) (16 * m) = false /\ morecore grant fuel nu st = Some (0, st)) \/
  exists F' st', morecore grant fuel nu st = Some (freep st', st') /\ heap_ok st' F' A /\ units F' = units F + m /\ brk st' = brk st + 16 * m /\
    (exists b k, (b, k) ∈ F' /\ nu <= k) /\ (length F' <= S (length F))%nat /\ kept A st st'.
Proof using Hgrant.
  intros Hok Hnu Hf m. destruct (h_bounds _ _ _ Hok) as [Hb Hmax].
  assert (morecore grant fuel nu st = match sbrk grant (16 * m) st with
    | None => Some (0, st) | Some (p, st) => if heap_end (brk st) <? p + 16 then None else st ← free fuel (padd p 1) (set_size p m st); Some (freep st, st) end) as ->.
  { unfold morecore. assert ((if nu <? 4096 then 4096 else nu) = m) as -> by (unfold m; destruct (Z.ltb_spec nu 4096); lia). by rewrite (Z.mul_comm m 16). }
  unfold sbrk. assert (i32 (16 * m) = 16 * m) as -> by (unfold i32; rewrite Z.mod_small; lia).
  destruct (grant (brk st) (16 * m)) eqn:Hg; [right|by left]. specialize (Hgrant _ _ Hg). unfold HEAPMAX in Hgrant.
  cbn [brk]. destruct (Z.ltb_spec (heap_end (brk st + 16 * m)) (brk st + 16)) as [Hover|_].
  { unfold heap_end in Hover. Z.div_mod_to_equations. lia. }
  rewrite padd_eq by lia. set (st1 := set_size (brk st) m _).
  assert (heap_ok st1 F A) as Hok1 by (apply (heap_grow st F A); [done|lia|unfold HEAPMAX; lia]).
  destruct (free_run st1 F A (brk st) m fuel Hok1) as (F' & st' & Hfree & Hok' & Hu & Hbrk & (b & k & Hin & Hk) & Hlen & Hkept); try (cbn; lia).
  - unfold st1. rewrite hsize_set_size. by rewrite decide_True.
  - intros a k Hin. destruct (sep_bounds _ _ _ (h_sep _ _ _ Hok)) as [_ Hbd]. specialize (Hbd a k Hin). unfold apart. lia.
  - intros a k Ha. destruct (h_used _ _ _ Hok a k Ha) as (_ & _ & _ & ?). unfold apart. lia.
  - exists F', st'. rewrite Z.mul_1_r, Hfree. split_and!; try done; [exists b, k; split; [done|lia]|].
    eapply kept_trans; [|done]. intros a n x Ha Hx. destruct (h_used _ _ _ Hok a n Ha) as (_ & _ & _ & ?). unfold st1. cbn. by rewrite lookup_insert_ne by lia.
Qed.

(** A block of [n] units, out of what was free and what the heap grew by. *)
Definition gave (st : ustate) (F : list (Z * Z)) (A : gmap Z Z) (n : Z) (r : Z) (st' : ustate) : Prop :=
  exists F', base < r - 16 /\ A !! (r - 16) = None /\ heap_ok st' F' (<[r - 16 := n]> A) /\
    16 * (units F' + n) = 16 * units F + (brk st' - brk st) /\ kept A st st'.

Lemma take_run st F A F1 p s F2 N0 p0 s0 n : heap_ok st F A -> follows F F1 p s F2 N0 p0 s0 -> 0 < n <= s ->
  exists r st', take_block n p0 p st = (r, st') /\ gave st F A n r st'.
Proof.
  intros Hok Hfol Hn. assert (took st F A n (take_block n p0 p st)) as (F' & a & st' & -> & Hba & Ha & Hok' & Hu & Hbrk & Hkept).
  { destruct (decide (n = s)) as [->|]; [by eapply take_exact|eapply take_tail; [done..|lia]]. }
  exists (a + 16), st'. split; [done|]. exists F'. replace (a + 16 - 16) with a by lia. split_and!; try done. lia.
Qed.

Lemma malloc_run st F A n fuel : heap_ok st F A -> 0 < n < 2 ^ 27 -> (2 * length F + 3 <= fuel)%nat ->
  exists r st', malloc_loop grant fuel n (freep st) (hptr st (freep st)) st = Some (r, st') /\
    (gave st F A n r st' \/
     r = 0 /\ st' = st /\ (forall b t, (b, t) ∈ F -> t < n) /\ grant (brk st) (16 * Z.max 4096 n) = false).
Proof using Hgrant.
  intros Hok Hn Hf. replace fuel with (length F + S (fuel - length F - 1))%nat by lia.
  destruct (malloc_search grant n st F A (fuel - length F - 1) Hok ltac:(lia)) as [(F1 & p & s & F2 & N0 & p0 & s0 & Hfol & Hs & ->)|[Hall ->]].
  { destruct (take_run st F A F1 p s F2 N0 p0 s0 n Hok Hfol ltac:(lia)) as (r & st' & -> & Hgave). exists r, st'. split; [done|by left]. }
  destruct (morecore_run st F A n (fuel - length F - 1) Hok Hn ltac:(lia)) as [[Hg ->]|(F' & st1 & -> & Hok1 & Hu & Hbrk & (b & t & Hin & Ht) & Hlen & Hkept)].
  { exists 0, st. split; [done|]. by right. }
  cbn [mbind option_bind]. assert (freep st1 <> 0) as Hne.
  { pose proof (h_freep _ _ _ Hok1) as Hfp. pose proof (incr_above _ _ _ (heap_incr _ _ _ Hok1) Hfp). destruct (h_bounds _ _ _ Hok1). lia. }
  rewrite (proj2 (Z.eqb_neq _ _) Hne). replace (fuel - length F - 1)%nat with (length F' + S (fuel - length F - 2 - length F'))%nat by lia.
  destruct (malloc_search grant n st1 F' A (fuel - length F - 2 - length F') Hok1 ltac:(lia)) as [(F1 & p & s & F2 & N0 & p0 & s0 & Hfol & Hs & ->)|[Hno _]];
    [|specialize (Hno b t Hin); lia].
  destruct (take_run st1 F' A F1 p s F2 N0 p0 s0 n Hok1 Hfol ltac:(lia)) as (r & st' & -> & (F'' & ? & ? & ? & Hu2 & Hk2)).
  exists r, st'. split; [done|]. left. exists F''. split_and!; try done; [lia|by eapply kept_trans].
Qed.
End core.
End heap.

(** ** Results *)

(** Before the first call: the variables are zero. *)
Definition fresh (base : Z) (st : ustate) : Prop := freep st = 0 /\ 0 < base < brk st /\ brk st <= HEAPMAX.
Definition start (base : Z) (st : ustate) : ustate := set_size base 0 (set_freep base (set_ptr base base st)).
Lemma start_ok base st : fresh base st -> heap_ok base (start base st) [] ∅.
Proof.
  intros (Hf & Hb & Hmax). constructor; try done; cbn; try lia.
  - unfold hsize, hptr. cbn. rewrite !lookup_total_insert_eq. done.
  - apply elem_of_cons. by left.
Qed.
Lemma units_for_bounds nbytes : 0 <= nbytes < 2 ^ 31 - 64 -> 0 < units_for nbytes < 2 ^ 27 /\ nbytes <= 16 * (units_for nbytes - 1) < nbytes + 16.
Proof.
  intros H. unfold units_for. pose proof (Z.div_mod (nbytes + 16 - 1) 16 ltac:(lia)). pose proof (Z.mod_pos_bound (nbytes + 16 - 1) 16 ltac:(lia)).
  unfold u32. rewrite Z.mod_small by lia. lia.
Qed.

(** C24: malloc returns a block of its own. On its first call or on any heap in
    order, with a kernel that grants no more than [HEAPMAX] (2^35 bytes) and for a
    request below 2^31 - 64 bytes, so that the argument of [sbrk] fits an int, it
    terminates, and it returns either the address after
    the header of a block that has room for the bytes asked for and no more
    than a header's worth over, overlaps no block handed out or free, and is
    paid for exactly by the free blocks and the growth of the heap; or 0, and
    then no free block was large enough and the kernel refused, and the heap
    is as before. No header inside a block handed out changes. *)
Theorem malloc_spec base grant st F A nbytes fuel :
  (forall b n, grant b n = true -> b + n <= HEAPMAX) ->
  heap_ok base st F A \/ fresh base st /\ F = [] /\ A = ∅ ->
  0 <= nbytes < 2 ^ 31 - 64 -> (2 * length F + 3 <= fuel)%nat ->
  exists r st', malloc base grant fuel nbytes st = Some (r, st') /\
    ((exists n, nbytes <= 16 * (n - 1) < nbytes + 16 /\ gave base st F A n r st') \/
     (r = 0 /\ heap_ok base st' F A /\ (forall b t, (b, t) ∈ F -> 16 * (t - 1) < nbytes) /\
      grant (brk st) (16 * Z.max 4096 (units_for nbytes)) = false /\ kept A st st')).
Proof.
  intros Hg Hst Hn Hf. destruct (units_for_bounds nbytes Hn) as [Hu Hub]. unfold malloc.
  set (st0 := if freep st =? 0 then _ else _).
  assert (heap_ok base st0 F A /\ brk st0 = brk st /\ kept A st st0) as (Hok & Hbrk & Hk).
  { destruct Hst as [Hok|(Hfr & -> & ->)].
    - assert (freep st <> 0) as Hne.
      { pose proof (incr_above _ _ _ (heap_incr _ _ _ _ Hok) (h_freep _ _ _ _ Hok)). destruct (h_bounds _ _ _ _ Hok). lia. }
      unfold st0. rewrite (proj2 (Z.eqb_neq _ _) Hne). split_and!; [done..|by intros ?].
    - pose proof (proj1 Hfr) as E. unfold st0. rewrite E. split_and!; [by apply start_ok|done|by intros ?]. }
  clearbody st0. destruct (malloc_run base grant Hg st0 F A (units_for nbytes) fuel Hok Hu Hf) as (r & st' & -> & Hr). exists r, st'. split; [done|].
  destruct Hr as [(F' & H1 & H2 & H3 & H4 & H5)|(-> & -> & H1 & H2)]; [left|right].
  - exists (units_for nbytes). split; [done|]. exists F'. rewrite <- Hbrk. split_and!; try done. by eapply kept_trans.
  - rewrite Hbrk in H2. split_and!; try done. intros b t Hin. specialize (H1 b t Hin). lia.
Qed.

(** C25: free gives back exactly the block that was handed out: on a heap in
    order it terminates wherever in the circle the search starts, the block is
    no longer among those handed out, the free units grow by its size, the free
    blocks are again in order with no two touching (neighbours have been
    merged), and no header inside another block handed out changes. *)
Theorem free_spec base st F A a n fuel : heap_ok base st F A -> A !! a = Some n -> (length F + 1 <= fuel)%nat ->
  exists F' st', free fuel (a + 16) st = Some st' /\ heap_ok base st' F' (delete a A) /\ units F' = units F + n /\ brk st' = brk st /\
    kept (delete a A) st st'.
Proof.
  intros Hok Ha Hf. destruct (h_used _ _ _ _ Hok a n Ha) as (Hsz & Hn & Hb & Hend).
  assert (heap_ok base st F (delete a A)) as Hok'.
  { destruct Hok as [H1 H2 H3 H4 H5 H6 H7]. constructor; try done.
    - intros b m [_ Hm]%lookup_delete_Some. by apply H4.
    - intros b m c k [_ Hm]%lookup_delete_Some [_ Hk]%lookup_delete_Some. by apply H5.
    - intros b m c k [_ Hm]%lookup_delete_Some. by apply H6. }
  destruct (free_run base st F (delete a A) a n fuel Hok' Hsz Hn Hb Hend) as (F' & st' & H1 & H2 & H3 & H4 & _ & _ & H5); [| |done|by exists F', st'].
  - intros b m Hin. by apply (h_free _ _ _ _ Hok a n b m Ha).
  - intros b m [Hne Hm]%lookup_delete_Some. by apply (h_apart _ _ _ _ Hok a n b m Ha Hm).
Qed.

Module Demo.
Definition grant (b n : Z) : bool := b + n <=? HEAPMAX.
Definition st0 : ustate := UState ∅ 0 8192.
Lemma grant_ok b n : grant b n = true -> b + n <= HEAPMAX.
Proof. unfold grant. by rewrite Z.leb_le. Qed.
Lemma st0_fresh : fresh 4096 st0.
Proof. split_and!; [done|cbn; lia|cbn; lia|]. unfold HEAPMAX. cbn. lia. Qed.

Lemma malloc_spec_witness : exists r st', malloc 4096 grant 3 24 st0 = Some (r, st') /\ 4096 < r - 16.
Proof.
  destruct (malloc_spec 4096 grant st0 [] ∅ 24 3 grant_ok) as (r & st' & E & [(n & _ & F' & H & _)|(_ & _ & _ & H & _)]);
    [right; split_and!; [apply st0_fresh|done|done]|lia|done| |].
  - by exists r, st'.
  - vm_compute in H. discriminate.
Defined.

Lemma free_spec_witness : exists a F A st F' st', A !! a = Some 3 /\ heap_ok 4096 st F A /\ free (S (length F)) (a + 16) st = Some st' /\
  units F' = units F + 3 /\ heap_ok 4096 st' F' (delete a A).
Proof.
  destruct (malloc_run 4096 grant grant_ok (start 4096 st0) [] ∅ 3 3 (start_ok _ _ st0_fresh)) as (r & st & _ & [(F & _ & _ & Hok & _)|(_ & _ & _ & H)]);
    [lia|done| |vm_compute in H; discriminate].
  destruct (free_spec 4096 st F (<[r - 16 := 3]> ∅) (r - 16) 3 (S (length F)) Hok) as (F' & st' & H1 & H2 & H3 & _);
    [by rewrite lookup_insert_eq|lia|].
  exists (r - 16), F, (<[r - 16 := 3]> ∅), st, F', st'. split_and!; [by rewrite lookup_insert_eq|done..].
Defined.
End Demo.
