(* ===== verification/Mkfs.v ===== *)
(** * Making a file system: mkfs/mkfs.c

    The image file is a sequence of sectors, which the program reads and writes
    through [lseek], [read] and [write]; reading past its end ends the program,
    seeking and writing succeed.
    A run returns the image or the way it failed. The host is little-endian. The
    host's files are a parameter: opening a name fails or gives the chunks that
    [read] returns, one call after the other, until it returns 0 or fails. *)

From S2P Require Import Prelude Riscv Headers Mem Kalloc Vm Sleeplock Block Log State Sched Copy Fs FsBase FsAlloc.

(** ** Layout *)

Definition NINODES : Z := 200.
Definition nbitmap : Z := FSSIZE / BPB + 1.
Definition ninodeblocks : Z := NINODES / IPB + 1.
Definition nlog : Z := LOGBLOCKS + 1.
Definition nmeta : Z := 2 + nlog + ninodeblocks + nbitmap.
Definition nblocks : Z := FSSIZE - nmeta.

(** [xshort], [xint]: the bytes of [y] are stored from the lowest of [x]. *)
Definition xshort (x : Z) : Z := u8 x + 256 * u8 (Z.shiftr x 8).
Definition xint (x : Z) : Z :=
  u8 x + 256 * u8 (Z.shiftr x 8) + 65536 * u8 (Z.shiftr x 16) + 16777216 * u8 (Z.shiftr x 24).

(** The assignments to [sb] in [main]. *)
Definition mkfs_sb : superblock :=
  SuperBlock FSMAGIC (xint FSSIZE) (xint nblocks) (xint NINODES) (xint nlog) (xint 2) (xint (2 + nlog))
    (xint (2 + nlog + ninodeblocks)).

(** [memmove(buf, &sb, sizeof(sb))] into a block of zeroes. *)
Definition sb_block (s : superblock) : block :=
  wr32 0 (sb_magic s) (wr32 4 (sb_size s) (wr32 8 (sb_nblocks s) (wr32 12 (sb_ninodes s) (wr32 16 (sb_nlog s)
    (wr32 20 (sb_logstart s) (wr32 24 (sb_inodestart s) (wr32 28 (sb_bmapstart s) zero_block))))))).

(** ** Runs *)

Inductive failure := Die (s : string) | DieName (s : list Z) | Assert (s : string) | Usage | NoFuel.

(** The sectors of the image, how many there are, and the globals that change. *)
Record image := Image { sects : Z -> block; nsect : Z; freeinode : Z; freeblock : Z }.

Definition mk (A : Type) : Type := image -> failure + A * image.
#[export] Instance mk_ret : MRet mk := fun A a im => inr (a, im).
#[export] Instance mk_bind : MBind mk := fun A B f m im =>
  match m im with inl e => inl e | inr (a, im) => f a im end.

Definition fail {A} (e : failure) : mk A := fun _ => inl e.
Definition assert_ (b : bool) (s : string) : mk unit := if b then mret tt else fail (Assert s).
(** [freeblock++] and [freeinode++]. *)
Definition next_block : mk Z := fun im => inr (freeblock im, Image (sects im) (nsect im) (freeinode im) (u32 (freeblock im + 1))).
Definition next_inode : mk Z := fun im => inr (freeinode im, Image (sects im) (nsect im) (u32 (freeinode im + 1)) (freeblock im)).

(** ** Sectors *)

(** The sector at byte offset [sec * BSIZE], an unsigned product. *)
Definition sector (sec : Z) : Z := u32 (sec * BSIZE) / BSIZE.

Definition wsect (sec : Z) (buf : block) : mk unit := fun im =>
  inr (tt, Image (vset (sector sec) buf (sects im)) (Z.max (nsect im) (sector sec + 1)) (freeinode im) (freeblock im)).

Definition rsect (sec : Z) : mk block := fun im =>
  if sector sec <? nsect im then inr (sects im (sector sec), im) else inl (Die "read").

(** ** Inodes

    A [struct dinode] is an inode whose fields that are not on disk are zero. *)

Definition winode (inum : Z) (ip : inode) : mk unit :=
  let bn := IBLOCK inum mkfs_sb in
  buf ← rsect bn;
  wsect bn (put_dinode ip (di_off inum) buf).

Definition rinode (inum : Z) : mk inode :=
  let bn := IBLOCK inum mkfs_sb in
  buf ← rsect bn;
  mret (get_dinode buf (di_off inum) inode0).

Definition ialloc (type : Z) : mk Z :=
  inum ← next_inode;
  winode inum (Inode 0 0 0 (SleepLock 0 0) false (xshort type) 0 0 (xshort 1) (xint 0) (replicate 13 0));;
  mret inum.

(** Marks in the bitmap the first [used] blocks. *)
Definition balloc (used : Z) : mk unit :=
  assert_ (used <? BPB) "used < BPB";;
  wsect (sb_bmapstart mkfs_sb) (foldl set_bit zero_block (seqZ 0 used)).

(** ** Appending to a file *)

(** [din.addrs[j]], allocated if it is 0. *)
Definition addr (din : inode) (j : nat) : mk inode :=
  if xint (i_addrs din !!! j) =? 0 then
    b ← next_block;
    mret (set_addrs (<[j := xint b]> (i_addrs din)) din)
  else mret din.

(** [indirect[fbn - NDIRECT]] of the indirect block [a], allocated if it is 0. *)
Definition indirect_entry (a fbn : Z) : mk Z :=
  let o := Z.to_nat (4 * (fbn - NDIRECT)) in
  indirect ← rsect a;
  indirect ←
    (if rd32 indirect o =? 0 then
       b ← next_block;
       let indirect := wr32 o (xint b) indirect in
       wsect a indirect;;
       mret indirect
     else mret indirect);
  mret (xint (rd32 indirect o)).

(** The sector [x] of block [fbn] of the file. *)
Definition iappend_block (din : inode) (fbn : Z) : mk (inode * Z) :=
  if fbn <? NDIRECT then
    din ← addr din (Z.to_nat fbn);
    mret (din, xint (i_addrs din !!! Z.to_nat fbn))
  else
    din ← addr din (Z.to_nat NDIRECT);
    x ← indirect_entry (xint (i_addrs din !!! Z.to_nat NDIRECT)) fbn;
    mret (din, x).

(** [while(n > 0)]; [p] has the [n] bytes left. *)
Fixpoint iappend_loop (fuel : nat) (din : inode) (off : Z) (p : list Z) : mk (inode * Z) :=
  let n := Z.of_nat (length p) in
  if 0 <? n then
    match fuel with
    | O => fail NoFuel
    | S fuel =>
        let fbn := off / BSIZE in
        assert_ (fbn <? MAXFILE) "fbn < MAXFILE";;
        r ← iappend_block din fbn;
        let n1 := Z.min n ((fbn + 1) * BSIZE - off) in
        buf ← rsect r.2;
        wsect r.2 (splice (Z.to_nat (off - fbn * BSIZE)) (take (Z.to_nat n1) p) buf);;
        iappend_loop fuel r.1 (u32 (off + n1)) (drop (Z.to_nat n1) p)
    end
  else mret (din, off).

(** Every turn takes at least one byte. *)
Definition iappend (inum : Z) (p : list Z) : mk unit :=
  din ← rinode inum;
  r ← iappend_loop (length p) din (xint (i_size din)) p;
  winode inum (set_isize (xint r.2) r.1).

(** ** main *)

Definition user_prefix : list Z := [117; 115; 101; 114; 47].
Definition underscore : Z := 95.

(** Without "user/". *)
Definition shortname (name : list Z) : list Z :=
  if bool_decide (take 5 name = user_prefix) then drop 5 name else name.
(** Without a leading underscore. *)
Definition strip_underscore (name : list Z) : list Z :=
  match name with
  | c :: rest => if c =? underscore then rest else name
  | [] => []
  end.

Section main.
(** [open] of a host file and the [read]s after it. *)
Context (host : list Z -> option (list (list Z))).

Fixpoint copy_chunks (inum : Z) (chunks : list (list Z)) : mk unit :=
  match chunks with
  | [] => mret tt
  | c :: chunks => iappend inum c;; copy_chunks inum chunks
  end.

Definition add_file (rootino : Z) (arg : list Z) : mk unit :=
  let short := shortname arg in
  assert_ (negb (bool_decide (slash ∈ short))) "index(shortname, '/') == 0";;
  match host arg with
  | None => fail (DieName arg)
  | Some chunks =>
      let short := strip_underscore short in
      assert_ (Z.of_nat (length short) <=? DIRSIZ) "strlen(shortname) <= DIRSIZ";;
      inum ← ialloc T_FILE;
      iappend rootino (dirent (xshort inum) short);;
      copy_chunks inum chunks
  end.

Fixpoint add_files (rootino : Z) (args : list (list Z)) : mk unit :=
  match args with
  | [] => mret tt
  | arg :: args => add_file rootino arg;; add_files rootino args
  end.

Fixpoint zero_sectors (n : nat) (i : Z) : mk unit :=
  match n with
  | O => mret tt
  | S n => wsect i zero_block;; zero_sectors n (i + 1)
  end.

(** [img] tells whether [open] of the image succeeds; it truncates it. *)
Definition mkfs (img : bool) : list (list Z) -> mk unit := fun argv =>
  match argv with
  | _ :: argv1 :: args =>
      assert_ (BSIZE mod DINODE =? 0) "(BSIZE % sizeof(struct dinode)) == 0";;
      assert_ (BSIZE mod DIRENT =? 0) "(BSIZE % sizeof(struct dirent)) == 0";;
      if negb img then fail (DieName argv1)
      else
        zero_sectors (Z.to_nat FSSIZE) 0;;
        wsect 1 (sb_block mkfs_sb);;
        rootino ← ialloc T_DIR;
        assert_ (rootino =? ROOTINO) "rootino == ROOTINO";;
        iappend rootino (dirent (xshort rootino) [46]);;
        iappend rootino (dirent (xshort rootino) [46; 46]);;
        add_files rootino args;;
        din ← rinode rootino;
        let off := u32 ((xint (i_size din) / BSIZE + 1) * BSIZE) in
        winode rootino (set_isize (xint off) din);;
        fb ← (fun im => inr (freeblock im, im));
        balloc fb
  | _ => fail Usage
  end.

(** The program starts with an empty image and the initial values of its
    globals; [freeblock] is set before the first use. *)
Definition image0 : image := Image (fun _ => zero_block) 0 1 nmeta.
Definition main (img : bool) (argv : list (list Z)) : failure + unit * image := mkfs img argv image0.
End main.
