(* ===== verification/MkfsImage.v ===== *)
(** * The files of an image

    What mkfs keeps true of the blocks of the files it is writing: every block
    belongs to one place of one file, blocks that have not been given out are
    zero, and each file reads as what was appended to it. *)

From S2P Require Import Prelude Riscv Headers Mem Kalloc Vm Sleeplock Block Log State Sched Copy Fs FsBase FsAlloc FsInode FsFile Mkfs.

(** [D] with [i] as inode [x]. *)
Definition dset (x : Z) (i : inode) (D : Z -> inode) : Z -> inode := fun y => if decide (y = x) then i else D y.
Lemma dset_eq x i D : dset x i D x = i.
Proof. unfold dset. by rewrite decide_True. Qed.
Lemma dset_ne x i D y : y <> x -> dset x i D y = D y.
Proof. intros. unfold dset. by rewrite decide_False. Qed.

(** The inodes are [D y] for [1 <= y < n]; the blocks from [fb] on are free. *)
Record lay (V : Z -> block) (D : Z -> inode) (n fb : Z) : Prop := {
  ly_len b : length (V b) = Z.to_nat BSIZE;
  ly_zero b : fb <= b -> V b = zero_block;
  ly_fb : nmeta <= fb;
  ly_addrs y : 1 <= y < n -> length (i_addrs (D y)) = 13%nat;
  ly_range y t : 1 <= y < n -> is_slot t -> slot V (D y) t <> 0 -> nmeta <= slot V (D y) t < fb;
  ly_inj y z t u : 1 <= y < n -> 1 <= z < n -> is_slot t -> is_slot u -> slot V (D y) t <> 0 ->
    slot V (D y) t = slot V (D z) u -> y = z /\ t = u;
}.

(** From [V] and [D] to [V'] and [D'], blocks may have been added to file [x]. *)
Record ext (x n : Z) (V : Z -> block) (D : Z -> inode) (V' : Z -> block) (D' : Z -> inode) : Prop := {
  xt_other y t : 1 <= y < n -> y <> x -> is_slot t -> slot V' (D' y) t = slot V (D y) t;
  xt_bytes y z : 1 <= y < n -> 0 <= z < MAXFILE * BSIZE -> fbyte V' (D' y) z = fbyte V (D y) z;
  xt_meta b : b < nmeta -> V' b = V b;
}.

Lemma ext_refl x n V D : ext x n V D V D.
Proof. by split. Qed.
Lemma ext_trans x n V1 D1 V2 D2 V3 D3 : ext x n V1 D1 V2 D2 -> ext x n V2 D2 V3 D3 -> ext x n V1 D1 V3 D3.
Proof.
  intros [A1 A2 A3] [B1 B2 B3]. split.
  - intros. by rewrite B1, A1.
  - intros. by rewrite B2, A2.
  - intros. by rewrite B3, A3.
Qed.

Lemma max_slot : is_slot MAXFILE.
Proof. done. Qed.
Lemma file_index z : 0 <= z < MAXFILE * BSIZE -> is_slot (z / BSIZE) /\ z / BSIZE <> MAXFILE.
Proof.
  intros Hz. assert (0 <= z / BSIZE < MAXFILE); [|unfold is_slot; lia].
  split; [apply Z.div_pos; [lia|done]|]. apply Z.div_lt_upper_bound; [done|lia].
Qed.

Lemma slot_frame V V' i t : (slot V i MAXFILE <> 0 -> V' (slot V i MAXFILE) = V (slot V i MAXFILE)) ->
  slot V' i t = slot V i t.
Proof.
  change (slot V i MAXFILE) with (i_addrs i !!! Z.to_nat NDIRECT). intros E. unfold slot, file_blk. destruct (t =? MAXFILE); [done|].
  destruct (t <? NDIRECT); [done|]. destruct (Z.eqb_spec (i_addrs i !!! Z.to_nat NDIRECT) 0); [done|]. by rewrite E.
Qed.

Lemma fbyte_frame V V' i i' z : 0 <= z < MAXFILE * BSIZE -> let t := z / BSIZE in slot V' i' t = slot V i t ->
  (slot V i t <> 0 -> V' (slot V i t) = V (slot V i t)) -> fbyte V' i' z = fbyte V i z.
Proof.
  intros Hz t. unfold fbyte. fold t. destruct (file_index z Hz) as [_ Hm]. rewrite <- !file_slot by done. intros -> E.
  destruct (Z.eqb_spec (slot V i t) 0); [done|]. by rewrite E.
Qed.

Section lay.
Context (V : Z -> block) (D : Z -> inode) (n fb x : Z).
Hypothesis Hlay : lay V D n fb.
Hypothesis Hx : 1 <= x < n.

(** Block [fb] becomes block [t0] of file [x]; of the blocks in use only the
    indirect block of the file may have been written. *)
Section link.
Context (V' : Z -> block) (i' : inode) (t0 : Z).
Hypothesis Ht0 : is_slot t0.
Hypothesis Hs0 : slot V (D x) t0 = 0.
Hypothesis Hlen : forall b, length (V' b) = Z.to_nat BSIZE.
Hypothesis Hlen' : length (i_addrs i') = 13%nat.
Hypothesis Hslot : forall t, is_slot t -> slot V' i' t = if decide (t = t0) then fb else slot V (D x) t.
Hypothesis HV' : forall b, b <> slot V (D x) MAXFILE \/ slot V (D x) MAXFILE = 0 -> V' b = V b.
Local Abbreviation D' := (dset x i' D) (only parsing).

Lemma link_block y t : 1 <= y < n -> is_slot t -> slot V (D y) t <> 0 -> y <> x \/ t <> MAXFILE -> V' (slot V (D y) t) = V (slot V (D y) t).
Proof using Hlay Hx HV'.
  intros Hy Ht Hn Hor. apply HV'. destruct (decide (slot V (D x) MAXFILE = 0)) as [?|Hm]; [by right|left].
  intros E. destruct (ly_inj _ _ _ _ Hlay y x t MAXFILE) as [-> ->]; try done. tauto.
Qed.

Lemma link_other y t : 1 <= y < n -> y <> x -> is_slot t -> slot V' (D' y) t = slot V (D y) t.
Proof using Hlay Hx HV'.
  intros Hy Hne Ht. rewrite dset_ne by done. apply slot_frame. intros Hn. apply link_block; auto using max_slot.
Qed.

Lemma link_lay : lay V' D' n (fb + 1).
Proof using All.
  pose proof Hlay as [L1 L2 L3 L4 L5 L6]. assert (nmeta = 47) as Em by done.
  assert (forall t, is_slot t -> slot V' (D' x) t = if decide (t = t0) then fb else slot V (D x) t) as Hself.
  { intros t Ht. rewrite dset_eq. by apply Hslot. }
  assert (forall y t, 1 <= y < n -> is_slot t -> slot V (D y) t <> fb) as Hfresh.
  { intros y t Hy Ht E. destruct (L5 y t) as [_ ?]; [done|done|lia|lia]. }
  split; [done| |lia| | |].
  - intros b Hb. rewrite HV'; [apply L2; lia|]. destruct (decide (slot V (D x) MAXFILE = 0)) as [?|Hm]; [by right|left].
    apply L5 in Hm; [lia|done|done].
  - intros y Hy. unfold dset. case_decide; [done|by apply L4].
  - intros y t Hy Ht. destruct (decide (y = x)) as [->|Hne].
    + rewrite Hself by done. case_decide; [lia|]. intros Hn. specialize (L5 x t Hy Ht Hn). lia.
    + rewrite link_other by done. intros Hn. specialize (L5 y t Hy Ht Hn). lia.
  - intros y z t u Hy Hz Ht Hu. destruct (decide (y = x)) as [->|Hny], (decide (z = x)) as [->|Hnz];
      rewrite ?Hself, ?link_other by done; repeat case_decide; subst; try done.
    all: try (intros _ E; exfalso; by eapply Hfresh; [| |exact E]).
    all: try (intros _ E; exfalso; by eapply Hfresh; [| |symmetry; exact E]).
    all: by apply L6.
Qed.

Lemma link_ext : ext x n V D V' D'.
Proof using All.
  pose proof Hlay as [L1 L2 L3 L4 L5 L6]. assert (nmeta = 47) as Em by done. split; [intros; by apply link_other| |].
  - intros y z Hy Hz. destruct (file_index z Hz) as [Ht Hm]. destruct (decide (y = x)) as [->|Hne].
    2: { apply fbyte_frame; [done|by apply link_other|]. intros Hn. apply link_block; auto. }
    rewrite dset_eq. pose proof (Hslot _ Ht) as Es. case_decide as E.
    + unfold fbyte. rewrite <- !file_slot by done. rewrite Es, E, Hs0. destruct (Z.eqb_spec fb 0); [lia|]. cbn.
      rewrite HV', L2 by (lia || (destruct (decide (slot V (D x) MAXFILE = 0)) as [?|Hk]; [by right|left; apply L5 in Hk; [lia|done|done]])).
      apply zero_byte, byte_off.
    + apply fbyte_frame; [done|done|]. intros Hn. apply link_block; auto.
  - intros b Hb. apply HV'. destruct (decide (slot V (D x) MAXFILE = 0)) as [?|Hm]; [by right|left].
    apply L5 in Hm; [lia|done|done].
Qed.
End link.

(** A block of data of file [x] is overwritten. *)
Section write.
Context (t : Z) (d : block).
Hypothesis Ht : is_slot t.
Hypothesis Hm : t <> MAXFILE.
Hypothesis Hn : slot V (D x) t <> 0.
Hypothesis Hd : length d = Z.to_nat BSIZE.
Local Abbreviation V' := (vset (slot V (D x) t) d V) (only parsing).

Lemma write_slot y u : 1 <= y < n -> is_slot u -> slot V' (D y) u = slot V (D y) u.
Proof using Hlay Hx Ht Hm Hn.
  intros Hy Hu. apply slot_frame. intros Hk. apply vset_ne. intros E.
  destruct (ly_inj _ _ _ _ Hlay y x MAXFILE t) as [_ E']; try done.
Qed.
Lemma write_lay : lay V' D n fb.
Proof using All.
  pose proof Hlay as [L1 L2 L3 L4 L5 L6]. split; [| |done|done| |].
  - intros b. unfold vset. by case_decide.
  - intros b Hb. rewrite vset_ne; [by apply L2|]. intros ->. apply L5 in Hn; [lia|done|done].
  - intros y u Hy Hu. rewrite write_slot by done. by apply L5.
  - intros y z u v Hy Hz Hu Hv. rewrite !write_slot by done. by apply L6.
Qed.
Lemma write_bytes y z : 1 <= y < n -> 0 <= z < MAXFILE * BSIZE ->
  fbyte V' (D y) z = if decide (y = x /\ z / BSIZE = t) then d !!! Z.to_nat (z mod BSIZE) else fbyte V (D y) z.
Proof using All.
  intros Hy Hz. destruct (file_index z Hz) as [Hi Hj]. case_decide as E.
  - destruct E as [-> E]. unfold fbyte. rewrite <- !file_slot, E, write_slot by done.
    destruct (Z.eqb_spec (slot V (D x) t) 0); [done|]. by rewrite vset_eq.
  - apply fbyte_frame; [done|by apply write_slot|]. intros Hk. apply vset_ne. intros E'. apply E.
    by apply (ly_inj _ _ _ _ Hlay y x (z / BSIZE) t).
Qed.
Lemma write_meta b : b < nmeta -> V' b = V b.
Proof using All. intros Hb. apply vset_ne. intros ->. apply (ly_range _ _ _ _ Hlay) in Hn; [lia|done|done]. Qed.
End write.
End lay.

(** ** Contents *)

(** The blocks that [k] bytes take up, and with the indirect block. *)
Definition nb (k : Z) : Z := (k + BSIZE - 1) / BSIZE.
Definition blocks_of (k : Z) : Z := nb k + (if NDIRECT <? nb k then 1 else 0).

(** The file reads as [l] and zeroes after it. *)
Definition reads (V : Z -> block) (i : inode) (l : list Z) : Prop :=
  forall z, 0 <= z < MAXFILE * BSIZE -> fbyte V i z = default 0 (l !! Z.to_nat z).
(** It has its first [m] blocks, and the indirect block if that is needed. *)
Definition maps (V : Z -> block) (i : inode) (m : Z) : Prop :=
  (forall t, 0 <= t < MAXFILE -> slot V i t <> 0 <-> t < m) /\ (slot V i MAXFILE <> 0 <-> NDIRECT < m).

(** The files have the contents [cs], file [x] with its first [m] blocks and
    the others with as many as they need. *)
Record part (V : Z -> block) (D : Z -> inode) (cs : list (list Z)) (x m fb : Z) : Prop := {
  pt_lay : lay V D (1 + Z.of_nat (length cs)) fb;
  pt_reads j l : cs !! j = Some l -> reads V (D (1 + Z.of_nat j)) l;
  pt_maps j l : cs !! j = Some l -> maps V (D (1 + Z.of_nat j)) (if decide (1 + Z.of_nat j = x) then m else nb (Z.of_nat (length l)));
}.
Definition whole (V : Z -> block) (D : Z -> inode) (cs : list (list Z)) (fb : Z) : Prop := part V D cs 0 0 fb.

Lemma whole_part V D cs fb j l : cs !! j = Some l ->
  whole V D cs fb <-> part V D cs (1 + Z.of_nat j) (nb (Z.of_nat (length l))) fb.
Proof.
  intros Hj. split; intros [P1 P2 P3]; split; try done; intros j' l' Hj'; specialize (P3 j' l' Hj').
  - rewrite decide_False in P3 by lia. case_decide; [|done]. assert (j' = j) as -> by lia. congruence.
  - rewrite decide_False by lia. case_decide; [|done]. assert (j' = j) as -> by lia. congruence.
Qed.

Lemma part_ext V D cs V' D' j l m m' fb fb' : let x := 1 + Z.of_nat j in cs !! j = Some l -> part V D cs x m fb ->
  ext x (1 + Z.of_nat (length cs)) V D V' D' -> lay V' D' (1 + Z.of_nat (length cs)) fb' -> maps V' (D' x) m' ->
  part V' D' cs x m' fb'.
Proof.
  intros x Hj [P1 P2 P3] [X1 X2 X3] Hl Hm. assert (forall j' l', cs !! j' = Some l' -> 1 <= 1 + Z.of_nat j' < 1 + Z.of_nat (length cs)) as Hr.
  { intros j' l' E. apply lookup_lt_Some in E. lia. }
  split; [done| |].
  - intros j' l' E z Hz. rewrite X2 by eauto. by eapply P2.
  - intros j' l' E. specialize (P3 j' l' E). specialize (Hr j' l' E). case_decide as Ex; [by rewrite Ex|]. destruct P3 as [P4 P5]. split.
    + intros t Ht. rewrite X1; [by apply P4|done|done|unfold is_slot; lia].
    + by rewrite X1.
Qed.

(** ** Arithmetic of blocks *)

Lemma nb_cases k : 0 <= k -> (k mod BSIZE = 0 /\ nb k = k / BSIZE) \/ (k mod BSIZE <> 0 /\ nb k = k / BSIZE + 1).
Proof. intros Hk. unfold nb. change BSIZE with 1024. Z.div_mod_to_equations. lia. Qed.
Lemma nb_add k p : 0 <= k -> 0 < p <= BSIZE - k mod BSIZE -> nb (k + p) = k / BSIZE + 1.
Proof. intros Hk Hp. unfold nb. change BSIZE with 1024 in *. Z.div_mod_to_equations. lia. Qed.
Lemma nb_mono k p : 0 <= k -> 0 <= p -> nb k <= nb (k + p).
Proof. intros Hk Hp. unfold nb. apply Z.div_le_mono; [done|lia]. Qed.
Lemma nb_nonneg k : 0 <= k -> 0 <= nb k.
Proof. intros Hk. unfold nb. change BSIZE with 1024. Z.div_mod_to_equations. lia. Qed.
Lemma blocks_mono k p : 0 <= k -> 0 <= p -> blocks_of k <= blocks_of (k + p).
Proof.
  intros Hk Hp. pose proof (nb_mono k p Hk Hp). unfold blocks_of. destruct (Z.ltb_spec NDIRECT (nb k)), (Z.ltb_spec NDIRECT (nb (k + p))); lia.
Qed.
Lemma blocks_nonneg k : 0 <= k -> 0 <= blocks_of k.
Proof. intros Hk. pose proof (nb_nonneg k Hk). unfold blocks_of. destruct (_ <? _); lia. Qed.

Lemma xint_id x : 0 <= x < 2 ^ 32 -> xint x = x.
Proof.
  intros Hx. unfold xint, u8. rewrite !Z.shiftr_div_pow2 by lia. change (2 ^ 8) with 256. change (2 ^ 16) with 65536. change (2 ^ 24) with 16777216.
  change (2 ^ 32) with 4294967296 in Hx. Z.div_mod_to_equations. lia.
Qed.
Lemma xshort_id x : 0 <= x < 2 ^ 16 -> xshort x = x.
Proof.
  intros Hx. unfold xshort, u8. rewrite !Z.shiftr_div_pow2 by lia. change (2 ^ 8) with 256. change (2 ^ 16) with 65536 in Hx.
  Z.div_mod_to_equations. lia.
Qed.
Lemma sector_id s : 0 <= s < 2 ^ 22 -> sector s = s.
Proof.
  intros Hs. unfold sector. change (2 ^ 22) with 4194304 in Hs. rewrite u32_id by (change BSIZE with 1024; change (2 ^ 32) with 4294967296; lia).
  by apply Z.div_mul.
Qed.

(** ** Sectors *)

Lemma mk_bind_eq {A B} (m : mk A) (f : A -> mk B) im a im' : m im = inr (a, im') -> (m ≫= f) im = f a im'.
Proof. intros E. unfold mbind, mk_bind. by rewrite E. Qed.
Lemma mk_bind_err {A B} (m : mk A) (f : A -> mk B) im e : m im = inl e -> (m ≫= f) im = inl e.
Proof. intros E. unfold mbind, mk_bind. by rewrite E. Qed.

Lemma rsect_ok s im : 0 <= s < nsect im -> nsect im = FSSIZE -> rsect s im = inr (sects im s, im).
Proof.
  intros Hs Hn. unfold rsect. rewrite Hn in *. change FSSIZE with 2000 in *. rewrite sector_id by lia. by destruct (Z.ltb_spec s 2000); [|lia].
Qed.
Lemma rsect_die s im : FSSIZE <= s < 2 ^ 22 -> nsect im = FSSIZE -> rsect s im = inl (Die "read").
Proof.
  intros Hs Hn. unfold rsect. rewrite Hn in *. change FSSIZE with 2000 in *. rewrite sector_id by lia. by destruct (Z.ltb_spec s 2000); [lia|].
Qed.
(** The image with other sectors or another first free block. *)
Definition with_sects (V : Z -> block) (im : image) : image := Image V (nsect im) (freeinode im) (freeblock im).
Definition with_free (fb : Z) (im : image) : image := Image (sects im) (nsect im) (freeinode im) fb.

Lemma wsect_ok s b im : 0 <= s < nsect im -> nsect im = FSSIZE -> wsect s b im = inr (tt, with_sects (vset s b (sects im)) im).
Proof.
  intros Hs Hn. unfold wsect, with_sects. rewrite Hn in *. change FSSIZE with 2000 in *. rewrite sector_id by lia. do 3 f_equal. lia.
Qed.
