(* ===== verification/MkfsAppend.v ===== *)
(** * Appending to a file of the image

    [iappend_loop] of mkfs/mkfs.c: every turn finds the block of the next byte or
    adds one, and with it the indirect block, and fills it; the program ends
    when the image has no block left. *)

From S2P Require Import Prelude Riscv Headers Mem Kalloc Vm Sleeplock Block Log State Sched Copy Fs FsBase FsAlloc FsInode FsFile FsRw Mkfs MkfsImage.

(** ** Finding or adding the block of a file *)

(** [addrs] entry number [j], as a place of the file. *)
Lemma addrs_slot V i j : 0 <= j <= NDIRECT -> i_addrs i !!! Z.to_nat j = slot V i (addr_slot j) /\ is_slot (addr_slot j).
Proof.
  intros Hj. change NDIRECT with 12 in Hj. unfold addr_slot, slot, file_blk, is_slot. change MAXFILE with 268. change NDIRECT with 12.
  destruct (Z.eqb_spec j 12) as [->|?]; [done|]. destruct (Z.eqb_spec j 268); [lia|]. destruct (Z.ltb_spec j 12); [|lia]. split; [done|lia].
Qed.

Lemma set_addrs_twice a b i : set_addrs a (set_addrs b i) = set_addrs a i.
Proof. done. Qed.
Lemma set_addrs_same i : set_addrs (i_addrs i) i = i.
Proof. by destruct i. Qed.

(** ** The indirect block *)

Lemma indirect_slot V i fbn : NDIRECT <= fbn < MAXFILE -> slot V i MAXFILE <> 0 ->
  rd32 (V (slot V i MAXFILE)) (Z.to_nat (4 * (fbn - NDIRECT))) = slot V i fbn.
Proof.
  intros Hf Ha. rewrite (file_slot fbn) by lia. unfold file_blk. change (slot V i MAXFILE) with (i_addrs i !!! Z.to_nat NDIRECT) in *.
  destruct (Z.ltb_spec fbn NDIRECT); [lia|]. by destruct (Z.eqb_spec (i_addrs i !!! Z.to_nat NDIRECT) 0).
Qed.

Lemma entry_hit im i fbn : let a := slot (sects im) i MAXFILE in NDIRECT <= fbn < MAXFILE -> nsect im = FSSIZE -> 0 < a < FSSIZE ->
  0 < slot (sects im) i fbn < FSSIZE -> indirect_entry a fbn im = inr (slot (sects im) i fbn, im).
Proof.
  intros a Hf Hn Ha Hs. unfold indirect_entry. erewrite mk_bind_eq by (apply rsect_ok; lia). unfold a at 1. rewrite indirect_slot by lia.
  destruct (Z.eqb_spec (slot (sects im) i fbn) 0); [lia|]. erewrite mk_bind_eq by done. unfold a. rewrite indirect_slot, xint_id by (change FSSIZE with 2000 in *; lia). done.
Qed.

Section entry.
Context (im : image) (D : Z -> inode) (n x : Z) (i : inode) (fbn : Z).
Local Abbreviation V := (sects im) (only parsing).
Local Abbreviation fb := (freeblock im) (only parsing).
Local Abbreviation a := (slot (sects im) i MAXFILE) (only parsing).
Hypothesis Hlay : lay V D n fb.
Hypothesis Hx : 1 <= x < n.
Hypothesis Hi : D x = i.
Hypothesis Hf : NDIRECT <= fbn < MAXFILE.
Hypothesis Hn : nsect im = FSSIZE.
Hypothesis Hfb : fb <= FSSIZE.
Hypothesis Ha : 0 < a < FSSIZE.
Hypothesis Hs : slot V i fbn = 0.
Local Abbreviation V' := (vset a (wr32 (Z.to_nat (4 * (fbn - NDIRECT))) fb (V a)) V) (only parsing).

Lemma entry_miss : indirect_entry a fbn im = inr (fb, with_free (fb + 1) (with_sects V' im)).
Proof using All.
  pose proof (ly_fb _ _ _ _ Hlay). assert (nmeta = 47) by done.
  assert (0 <= fbn - NDIRECT < 256) by (change NDIRECT with 12 in *; change MAXFILE with 268 in *; lia).
  unfold indirect_entry. erewrite mk_bind_eq by (apply rsect_ok; lia). rewrite (indirect_slot V i fbn Hf ltac:(lia)), Hs. cbn [Z.eqb].
  change FSSIZE with 2000 in *. erewrite mk_bind_eq.
  2: { erewrite mk_bind_eq by reflexivity. rewrite (xint_id fb) by lia. erewrite mk_bind_eq; [reflexivity|]. apply wsect_ok; cbn [nsect]; [lia|done]. }
  rewrite rd32_wr32_eq, xint_id by (rewrite ?(ly_len _ _ _ _ Hlay); change BSIZE with 1024; lia).
  unfold mret, mk_ret, with_free, with_sects. cbn. by rewrite u32_id by lia.
Qed.

Lemma entry_slot t : is_slot t -> slot V' i t = if decide (t = fbn) then fb else slot V i t.
Proof using All.
  intros Ht. pose proof (ly_fb _ _ _ _ Hlay). assert (nmeta = 47) by done. change FSSIZE with 2000 in *.
  rewrite (slot_entry V i a fb (fbn - NDIRECT) t) by (done || lia || apply (ly_len _ _ _ _ Hlay) || (change NINDIRECT with 256; change NDIRECT with 12 in *; change MAXFILE with 268 in *; lia)).
  replace (NDIRECT + (fbn - NDIRECT)) with fbn by lia. done.
Qed.

Lemma entry_link : lay V' (dset x i D) n (fb + 1) /\ ext x n V D V' (dset x i D).
Proof using All.
  assert (is_slot fbn) by (change NDIRECT with 12 in *; unfold is_slot; lia).
  assert (forall b, length (V' b) = Z.to_nat BSIZE) by (intros b; unfold vset; case_decide; [rewrite length_wr32|]; apply (ly_len _ _ _ _ Hlay)).
  assert (length (i_addrs i) = 13%nat) by (rewrite <- Hi; by apply (ly_addrs _ _ _ _ Hlay)).
  assert (forall b, b <> slot V (D x) MAXFILE \/ slot V (D x) MAXFILE = 0 -> V' b = V b) by (intros b; rewrite Hi; intros [?|?]; [by apply vset_ne|lia]).
  split; [eapply link_lay|eapply link_ext]; eauto; rewrite ?Hi; try done; apply entry_slot.
Qed.
End entry.

Lemma maps_add V V' i i' m b : maps V i m -> 0 <= m < MAXFILE -> b <> 0 ->
  (forall t, 0 <= t < MAXFILE -> slot V' i' t = if decide (t = m) then b else slot V i t) ->
  (slot V' i' MAXFILE <> 0 <-> NDIRECT < m + 1) -> maps V' i' (m + 1).
Proof.
  intros [H1 H2] Hm Hb Hs HM. split; [|done]. intros t Ht. rewrite Hs by done. case_decide; [lia|]. rewrite H1 by done. lia.
Qed.

Section append.
Context (D : Z -> inode) (cs : list (list Z)) (j : nat) (l : list Z).
Hypothesis Hj : cs !! j = Some l.
Local Abbreviation x := (1 + Z.of_nat j) (only parsing).
Local Abbreviation n := (1 + Z.of_nat (length cs)) (only parsing).
Local Abbreviation k := (Z.of_nat (length l)) (only parsing).

Lemma x_range : 1 <= x < n.
Proof using Hj. apply lookup_lt_Some in Hj. lia. Qed.

(** The image of a run in which [iappend] works on the inode [din]. *)
Record working (im : image) (D : Z -> inode) (din : inode) (cs : list (list Z)) (m : Z) : Prop := {
  wk_part : part (sects im) D cs x m (freeblock im);
  wk_din : D x = din;
  wk_nsect : nsect im = FSSIZE;
}.

(** What it changes. *)
Record changes (im : image) (D : Z -> inode) (din : inode) (im' : image) (D' : Z -> inode) (din' : inode) : Prop := {
  ch_meta b : b < nmeta -> sects im' b = sects im b;
  ch_inode : freeinode im' = freeinode im;
  ch_other y : y <> x -> D' y = D y;
  ch_din : din' = set_addrs (i_addrs din') din;
}.

Lemma changes_refl im D0 din : changes im D0 din im D0 din.
Proof using. split; try done. by rewrite set_addrs_same. Qed.
Lemma changes_trans im1 D1 i1 im2 D2 i2 im3 D3 i3 : changes im1 D1 i1 im2 D2 i2 -> changes im2 D2 i2 im3 D3 i3 -> changes im1 D1 i1 im3 D3 i3.
Proof using.
  intros [A1 A2 A3 A4] [B1 B2 B3 B4]. split; [intros; by rewrite B1, A1|congruence|intros; by rewrite B3, A3|].
  rewrite B4 at 1. by rewrite A4.
Qed.

Context (im : image) (din : inode).
Local Abbreviation V := (sects im) (only parsing).
Local Abbreviation fb := (freeblock im) (only parsing).
Hypothesis Hw : working im D din cs (nb k).
Hypothesis Hfb : fb <= FSSIZE.

Lemma w_lay : lay V D n fb.
Proof using Hw. apply Hw. Qed.
Lemma w_slot t : is_slot t -> slot V din t = 0 \/ (nmeta <= slot V din t < fb /\ 0 < slot V din t < FSSIZE).
Proof using Hj Hw Hfb.
  intros Ht. destruct (decide (slot V din t = 0)) as [?|Hn]; [by left|right]. rewrite <- (wk_din _ _ _ _ _ Hw) in *.
  pose proof (ly_range _ _ _ _ w_lay x t x_range Ht Hn). assert (nmeta = 47) by done. lia.
Qed.
Lemma w_xint i : 0 <= i <= NDIRECT -> xint (i_addrs din !!! Z.to_nat i) = slot V din (addr_slot i).
Proof using Hj Hw Hfb.
  intros Hi. destruct (addrs_slot V din i Hi) as [-> Ht]. apply xint_id. change FSSIZE with 2000 in *. destruct (w_slot _ Ht); lia.
Qed.
Lemma w_len : length (i_addrs din) = 13%nat.
Proof using Hj Hw. rewrite <- (wk_din _ _ _ _ _ Hw). apply (ly_addrs _ _ _ _ w_lay), x_range. Qed.
Lemma w_maps : maps V din (nb k).
Proof using Hj Hw. pose proof (pt_maps _ _ _ _ _ _ (wk_part _ _ _ _ _ Hw) j l Hj) as H. rewrite decide_True in H by done. by rewrite (wk_din _ _ _ _ _ Hw) in H. Qed.

(** [addr] when there is a block and when there is none. *)
Lemma addr_hit i : 0 <= i <= NDIRECT -> slot V din (addr_slot i) <> 0 -> addr din (Z.to_nat i) im = inr (din, im).
Proof using Hj Hw Hfb. intros Hi Hn. unfold addr. rewrite w_xint by done. by destruct (Z.eqb_spec (slot V din (addr_slot i)) 0). Qed.
Lemma addr_miss i : 0 <= i <= NDIRECT -> slot V din (addr_slot i) = 0 ->
  addr din (Z.to_nat i) im = inr (set_addrs (<[Z.to_nat i := fb]> (i_addrs din)) din, with_free (fb + 1) im).
Proof using Hj Hw Hfb.
  intros Hi Hn. unfold addr. rewrite w_xint, Hn by done. cbn [Z.eqb]. pose proof (ly_fb _ _ _ _ w_lay). assert (nmeta = 47) by done.
  change FSSIZE with 2000 in Hfb. unfold next_block, mbind, mk_bind. rewrite u32_id, xint_id by lia. done.
Qed.

(** What finding the block of byte number [k] leads to. *)
Local Abbreviation fbn := (k / BSIZE) (only parsing).
Local Abbreviation need := (blocks_of (k + 1) - blocks_of k) (only parsing).
Record placed (D' : Z -> inode) (din' : inode) (b : Z) (im' : image) : Prop := {
  pl_work : working im' D' din' cs (nb (k + 1));
  pl_changes : changes im D din im' D' din';
  pl_slot : slot (sects im') din' fbn = b;
  pl_free : freeblock im' = fb + need;
  pl_fits : b < FSSIZE <-> freeblock im' <= FSSIZE;
  pl_range : 0 < b < 2 ^ 22;
}.
Definition block_result (r : failure + (inode * Z) * image) : Prop :=
  (exists D' din' b im', r = inr ((din', b), im') /\ placed D' din' b im') \/ (r = inl (Die "read") /\ FSSIZE < fb + need).

Hypothesis Hf : fbn < MAXFILE.

Lemma fbn_pos : 0 <= fbn.
Proof using. apply Z.div_pos; [lia|done]. Qed.
Lemma fbn_slot : is_slot fbn /\ fbn <> MAXFILE.
Proof using Hf. pose proof fbn_pos. unfold is_slot. lia. Qed.
Lemma nb_next : nb (k + 1) = fbn + 1.
Proof using. apply nb_add; [lia|]. pose proof (Z.mod_pos_bound k BSIZE ltac:(done)). lia. Qed.

Lemma block_hit : k mod BSIZE <> 0 -> block_result (iappend_block din fbn im).
Proof using All.
  intros Hm. pose proof fbn_pos. destruct fbn_slot as [Ht Hne]. destruct (nb_cases k) as [[? _]|[_ Hb]]; [lia|done|].
  destruct w_maps as [M1 M2]. assert (slot V din fbn <> 0) as Hn by (apply M1; lia).
  destruct (w_slot fbn Ht) as [?|[Hr Hr']]; [done|]. left. exists D, din, (slot V din fbn), im. split.
  - unfold iappend_block. destruct (Z.ltb_spec fbn NDIRECT).
    + assert (addr_slot fbn = fbn) as Ea by (unfold addr_slot; by destruct (Z.eqb_spec fbn NDIRECT); [lia|]).
      erewrite mk_bind_eq by (apply addr_hit; [lia|by rewrite Ea]). rewrite w_xint, Ea by lia. done.
    + assert (slot V din MAXFILE <> 0) as Hk by (apply M2; lia). destruct (w_slot MAXFILE) as [?|[_ Ha]]; [done|done|].
      erewrite mk_bind_eq by (by apply addr_hit). rewrite w_xint by done. change (addr_slot NDIRECT) with MAXFILE.
      erewrite mk_bind_eq by (apply entry_hit; [done|apply Hw|done|done]). done.
  - assert (nb (k + 1) = nb k) as En by (rewrite nb_next; lia).
    assert (need = 0) as Ez by (unfold blocks_of; rewrite En; lia). assert (nmeta = 47) by done. change FSSIZE with 2000 in *.
    split; rewrite ?En; auto using changes_refl; change FSSIZE with 2000; lia.
Qed.

(** The file gets one more block, number [fbn], which is block [b]. *)
Lemma block_placed D' din' b im' : k mod BSIZE = 0 -> lay (sects im') D' n (freeblock im') -> ext x n V D (sects im') D' ->
  D' x = din' -> nsect im' = FSSIZE -> changes im D din im' D' din' -> freeblock im' = b + 1 -> freeblock im' = fb + need ->
  (forall t, 0 <= t < MAXFILE -> slot (sects im') din' t = if decide (t = fbn) then b else slot V din t) ->
  (slot (sects im') din' MAXFILE <> 0 <-> NDIRECT < fbn + 1) -> placed D' din' b im'.
Proof using All.
  intros Hm Hl He Hd Hn Hc Hb Hfr Hs HM. pose proof fbn_pos. destruct (nb_cases k) as [[_ Hk]|[? _]]; [lia| |done].
  pose proof (ly_fb _ _ _ _ w_lay). assert (nmeta = 47) by done. change FSSIZE with 2000 in *.
  assert (0 <= need <= 2) as Hneed. { unfold blocks_of. rewrite nb_next, Hk. destruct (Z.ltb_spec NDIRECT (fbn + 1)), (Z.ltb_spec NDIRECT fbn); lia. }
  assert (b <> 0) as Hb0. { intros ->. rewrite Hfr in Hb. lia. }
  split; [|done|by rewrite Hs, decide_True by lia|done|lia|lia].
  split; [|done|done]. rewrite nb_next. eapply part_ext; [done|apply Hw|done|done|]. rewrite Hd.
  eapply maps_add; [|lia|exact Hb0|done|done]. rewrite <- Hk. apply w_maps.
Qed.

Section new.
Hypothesis Hm : k mod BSIZE = 0.

Lemma new_nb : nb k = fbn.
Proof using Hm. destruct (nb_cases k) as [[_ ?]|[? _]]; [lia|done|done]. Qed.
Lemma new_slot : slot V din fbn = 0.
Proof using Hj Hw Hf Hm.
  destruct w_maps as [M1 _]. rewrite new_nb in M1. pose proof fbn_pos. destruct (decide (slot V din fbn = 0)) as [?|Hn]; [done|]. apply M1 in Hn; lia.
Qed.
Lemma new_max : slot V din MAXFILE <> 0 <-> NDIRECT < fbn.
Proof using Hj Hw Hm. rewrite <- new_nb. apply w_maps. Qed.
Lemma new_need : need = if decide (fbn = NDIRECT) then 2 else 1.
Proof using Hm. unfold blocks_of. rewrite nb_next, new_nb. destruct (Z.ltb_spec NDIRECT (fbn + 1)), (Z.ltb_spec NDIRECT fbn); case_decide; lia. Qed.

(** A new block in [addrs]. *)
Section addrs.
Context (i : Z).
Hypothesis Hi : 0 <= i <= NDIRECT.
Hypothesis Hn : slot V din (addr_slot i) = 0.
Local Abbreviation din' := (set_addrs (<[Z.to_nat i := fb]> (i_addrs din)) din) (only parsing).

Lemma addrs_len : length (i_addrs din') = 13%nat.
Proof using Hj Hw. cbn [i_addrs set_addrs]. rewrite length_insert. apply w_len. Qed.
Lemma addrs_eq : xint (i_addrs din' !!! Z.to_nat i) = fb.
Proof using Hj Hw Hfb Hi.
  cbn [i_addrs set_addrs]. rewrite list_lookup_total_insert_eq by (rewrite w_len; change NDIRECT with 12 in *; lia).
  pose proof (ly_fb _ _ _ _ w_lay). assert (nmeta = 47) by done. change FSSIZE with 2000 in *. apply xint_id. lia.
Qed.
Lemma addrs_new t : is_slot t -> slot V din' t = if decide (t = addr_slot i) then fb else slot V din t.
Proof using Hj Hw Hi Hn.
  intros Ht. pose proof (ly_fb _ _ _ _ w_lay). assert (nmeta = 47) by done. revert Hn. unfold addr_slot.
  destruct (Z.eqb_spec i NDIRECT) as [->|Hne]; intros Hn'.
  - apply slot_indirect; [apply w_len|done|lia|apply (ly_zero _ _ _ _ w_lay); lia|done].
  - apply slot_direct; [apply w_len|lia|done].
Qed.
Lemma addrs_link : lay V (dset x din' D) n (fb + 1) /\ ext x n V D V (dset x din' D).
Proof using Hj Hw Hi Hn.
  destruct (addrs_slot V din i Hi) as [_ Hs]. pose proof (wk_din _ _ _ _ _ Hw) as Hd. pose proof x_range. pose proof addrs_len.
  assert (forall b, length (V b) = Z.to_nat BSIZE) by apply (ly_len _ _ _ _ w_lay).
  split; [eapply link_lay|eapply link_ext]; eauto using w_lay; rewrite ?Hd; try done; apply addrs_new.
Qed.
End addrs.

Lemma block_direct : fbn < NDIRECT -> block_result (iappend_block din fbn im).
Proof using All.
  intros Hd. pose proof fbn_pos. pose proof new_slot as Hs. assert (addr_slot fbn = fbn) as Ea by (unfold addr_slot; by destruct (Z.eqb_spec fbn NDIRECT); [lia|]).
  destruct (addrs_link fbn) as [Hl He]; [lia|by rewrite Ea|]. pose proof (new_max) as HM. left.
  set (din' := set_addrs (<[Z.to_nat fbn := fb]> (i_addrs din)) din) in *. exists (dset x din' D), din', fb, (with_free (fb + 1) im).
  split.
  - unfold iappend_block. destruct (Z.ltb_spec fbn NDIRECT); [|lia]. erewrite mk_bind_eq by (apply addr_miss; [lia|by rewrite Ea]). fold din'. unfold din' at 2.
    by rewrite addrs_eq by lia.
  - apply block_placed; try done; cbn [sects with_free freeblock nsect].
    + by rewrite dset_eq.
    + apply Hw.
    + split; [done|done|intros; by apply dset_ne|done].
    + rewrite new_need, decide_False by lia. done.
    + intros t Ht. unfold din'. rewrite addrs_new, Ea by (rewrite ?Ea; unfold is_slot; (done || lia)). done.
    + unfold din'. rewrite addrs_new, Ea by (rewrite ?Ea; unfold is_slot; (done || lia)). rewrite decide_False by lia. rewrite HM. lia.
Qed.

Lemma block_indirect : NDIRECT < fbn -> block_result (iappend_block din fbn im).
Proof using All.
  intros Hd. pose proof fbn_pos. pose proof new_slot as Hs. assert (slot V din MAXFILE <> 0) as HM by (by apply new_max).
  destruct (w_slot MAXFILE) as [?|[_ Ha]]; [done|done|]. pose proof x_range as Hx. pose proof Hw as [Hp Hdin Hns].
  assert (NDIRECT <= fbn < MAXFILE) as Hf' by lia.
  destruct (entry_link im D n x din fbn w_lay Hx Hdin Hf' Hns Hfb Ha Hs) as [Hl He].
  pose proof (entry_miss im D n x din fbn w_lay Hx Hdin Hf' Hns Hfb Ha Hs) as Hr.
  pose proof (entry_slot im D n x din fbn w_lay Hx Hdin Hf' Hns Hfb Ha Hs) as Hsl.
  left. eexists (dset x din D), din, fb, _. split.
  - unfold iappend_block. destruct (Z.ltb_spec fbn NDIRECT); [lia|]. erewrite mk_bind_eq by (by apply addr_hit). rewrite w_xint by done.
    erewrite mk_bind_eq by exact Hr. done.
  - apply block_placed; try done; cbn [sects with_free with_sects freeblock nsect].
    + by rewrite dset_eq.
    + split; [apply (xt_meta _ _ _ _ _ _ He)|done|intros; by apply dset_ne|by rewrite set_addrs_same].
    + rewrite new_need, decide_False by lia. done.
    + intros t Ht. apply Hsl. unfold is_slot. lia.
    + rewrite Hsl, decide_False by (done || lia). split; [lia|done].
Qed.

Lemma block_first : fbn = NDIRECT -> block_result (iappend_block din fbn im).
Proof using All.
  intros Hd. pose proof new_slot as Hs. pose proof new_need as Hneed. rewrite decide_True in Hneed by done.
  assert (slot V din MAXFILE = 0) as HM by (destruct (decide (slot V din MAXFILE = 0)) as [?|Hn]; [done|apply new_max in Hn; lia]).
  destruct (addrs_link NDIRECT) as [Hl1 He1]; [done|done|]. pose proof (addrs_new NDIRECT ltac:(done) HM) as Hsl1. pose proof (addrs_eq NDIRECT ltac:(done)) as Hx1.
  pose proof (addr_miss NDIRECT ltac:(done) HM) as Hr1. change (addr_slot NDIRECT) with MAXFILE in *.
  set (din1 := set_addrs (<[Z.to_nat NDIRECT := fb]> (i_addrs din)) din) in *. set (D1 := dset x din1 D) in *. set (im1 := with_free (fb + 1) im) in *.
  unfold iappend_block. rewrite Hd. change (NDIRECT <? NDIRECT) with false. cbn iota. rewrite (mk_bind_eq _ _ _ _ _ Hr1), Hx1. rewrite <- Hd.
  assert (slot (sects im1) din1 MAXFILE = fb) as Ha by (change (sects im1) with V; by rewrite Hsl1, decide_True).
  pose proof (ly_fb _ _ _ _ w_lay). assert (nmeta = 47) by done. pose proof (wk_nsect _ _ _ _ _ Hw) as Hns.
  destruct (decide (fb = FSSIZE)) as [Efull|Hroom].
  { right. split; [|lia]. apply mk_bind_err. unfold indirect_entry. apply mk_bind_err, rsect_die; [|done]. rewrite Efull. done. }
  assert (slot (sects im1) din1 fbn = 0) as Hs1 by (change (sects im1) with V; rewrite Hsl1, decide_False; [done|apply fbn_slot|apply fbn_slot]).
  assert (D1 x = din1) as HD1 by (unfold D1; by rewrite dset_eq). pose proof x_range as Hx. assert (NDIRECT <= fbn < MAXFILE) as Hf' by lia.
  assert (freeblock im1 <= FSSIZE) as Hfb1 by (cbn; lia). assert (0 < slot (sects im1) din1 MAXFILE < FSSIZE) as Ha1 by lia.
  destruct (entry_link im1 D1 n x din1 fbn Hl1 Hx HD1 Hf' Hns Hfb1 Ha1 Hs1) as [Hl He].
  pose proof (entry_miss im1 D1 n x din1 fbn Hl1 Hx HD1 Hf' Hns Hfb1 Ha1 Hs1) as Hr.
  pose proof (entry_slot im1 D1 n x din1 fbn Hl1 Hx HD1 Hf' Hns Hfb1 Ha1 Hs1) as Hsl.
  left. eexists (dset x din1 D1), din1, (fb + 1), _. rewrite Ha in Hr, Hl, He, Hsl. split; [erewrite mk_bind_eq by exact Hr; reflexivity|].
  apply block_placed; try done.
  - eapply ext_trans; [exact He1|exact He].
  - by rewrite dset_eq.
  - split; [|done|intros; unfold D1; by rewrite !dset_ne|done]. intros b Hb. exact (xt_meta _ _ _ _ _ _ He b Hb).
  - cbn. lia.
  - intros t Ht. cbn [sects with_free with_sects]. rewrite Hsl by (unfold is_slot; lia). case_decide; [done|].
    change (sects im1) with V. rewrite Hsl1, decide_False by (unfold is_slot; lia). done.
  - cbn [sects with_free with_sects]. rewrite Hsl, decide_False by (done || lia). lia.
Qed.
End new.

Lemma iappend_block_run : block_result (iappend_block din fbn im).
Proof using All.
  destruct (decide (k mod BSIZE = 0)) as [Hm|Hm]; [|by apply block_hit].
  destruct (Z.lt_trichotomy fbn NDIRECT) as [H|[H|H]]; [by apply block_direct|by apply block_first|by apply block_indirect].
Qed.
End append.

(** ** Writing into the block *)

Section write.
Context (V : Z -> block) (D : Z -> inode) (cs : list (list Z)) (j : nat) (l q : list Z) (fb : Z).
Local Abbreviation x := (1 + Z.of_nat j) (only parsing).
Local Abbreviation k := (Z.of_nat (length l)) (only parsing).
Local Abbreviation b := (slot V (D x) (k / BSIZE)) (only parsing).
Local Abbreviation o := (Z.to_nat (k mod BSIZE)) (only parsing).
Local Abbreviation V' := (vset b (splice o q (V b)) V) (only parsing).
Hypothesis Hj : cs !! j = Some l.
Hypothesis Hp : part V D cs x (nb (k + 1)) fb.
Hypothesis Hk : k / BSIZE < MAXFILE.
Hypothesis Hb : b <> 0.
Hypothesis Hq : Z.of_nat (length q) <= BSIZE - k mod BSIZE.

Lemma splice_len : (o + length q <= length (V b))%nat.
Proof using Hp Hq.
  pose proof (Z.mod_pos_bound k BSIZE ltac:(done)). rewrite (ly_len _ _ _ _ (pt_lay _ _ _ _ _ _ Hp)). lia.
Qed.

Lemma write_reads z : 0 <= z < MAXFILE * BSIZE -> fbyte V (D x) z = default 0 (l !! Z.to_nat z) ->
  (if decide (z / BSIZE = k / BSIZE) then splice o q (V b) !!! Z.to_nat (z mod BSIZE) else fbyte V (D x) z) = default 0 ((l ++ q) !! Z.to_nat z).
Proof using Hp Hq Hk Hb.
  intros Hz E. pose proof (Z.mod_pos_bound k BSIZE ltac:(done)). pose proof (Z.mod_pos_bound z BSIZE ltac:(done)).
  pose proof (Z.div_mod k BSIZE ltac:(done)) as Ek. pose proof (Z.div_mod z BSIZE ltac:(done)) as Ez. rewrite lookup_app. case_decide as Ed.
  - rewrite lookup_splice by apply splice_len. rewrite Ed in Ez. case_decide as Ei.
    + rewrite lookup_ge_None_2 by lia. rewrite list_lookup_total_alt. replace (Z.to_nat z - length l)%nat with (Z.to_nat (z mod BSIZE) - o)%nat by lia.
      destruct (q !! _) eqn:Eq; [done|]. apply lookup_ge_None in Eq. lia.
    + assert (V b !!! Z.to_nat (z mod BSIZE) = fbyte V (D x) z) as ->.
      { unfold fbyte. rewrite Ed, <- !file_slot by lia. by destruct (Z.eqb_spec b 0). }
      rewrite E. destruct (l !! Z.to_nat z) eqn:El; [done|]. rewrite lookup_ge_None_2; [done|]. apply lookup_ge_None in El. lia.
  - rewrite E. destruct (l !! Z.to_nat z) eqn:El; [done|]. rewrite lookup_ge_None_2; [done|]. apply lookup_ge_None in El.
    assert (k / BSIZE <= z / BSIZE) by (apply Z.div_le_mono; [done|lia]). assert (k / BSIZE + 1 <= z / BSIZE) as Hd by lia.
    apply (Z.mul_le_mono_nonneg_l _ _ BSIZE ltac:(done)) in Hd. lia.
Qed.

Lemma write_part : part V' D (<[j := l ++ q]> cs) x (nb (k + 1)) fb.
Proof using All.
  pose proof Hp as [P1 P2 P3]. pose proof (lookup_lt_Some _ _ _ Hj) as Hlt. assert (1 <= x < 1 + Z.of_nat (length cs)) as Hx by lia.
  assert (0 <= k / BSIZE) by (apply Z.div_pos; [lia|done]). assert (is_slot (k / BSIZE) /\ k / BSIZE <> MAXFILE) as [Ht Hm] by (unfold is_slot; lia).
  assert (length (splice o q (V b)) = Z.to_nat BSIZE) as Hl by (rewrite length_splice by apply splice_len; apply P1).
  split; rewrite ?length_insert.
  - by apply write_lay.
  - intros j' l' Ej z Hz. assert (1 <= 1 + Z.of_nat j' < 1 + Z.of_nat (length cs)) as Hy by (apply lookup_lt_Some in Ej; rewrite length_insert in Ej; lia).
    rewrite (write_bytes V D _ fb x P1 Hx _ _ Ht Hm Hb Hl _ z Hy Hz). apply list_lookup_insert_Some in Ej as [(<- & <- & _)|[Hne Ej]].
    + rewrite <- write_reads; [|done|by apply P2]. repeat case_decide; tauto.
    + rewrite decide_False by lia. by apply P2.
  - intros j' l' Ej. assert (1 <= 1 + Z.of_nat j' < 1 + Z.of_nat (length cs)) as Hy by (apply lookup_lt_Some in Ej; rewrite length_insert in Ej; lia).
    assert (forall m, maps V (D (1 + Z.of_nat j')) m -> maps V' (D (1 + Z.of_nat j')) m) as Hmaps.
    { intros m [M1 M2]. split; [intros t Ht'|]; erewrite write_slot by (eauto; unfold is_slot; lia); [by apply M1|done]. }
    apply Hmaps. apply list_lookup_insert_Some in Ej as [(<- & <- & _)|[Hne Ej]]; [|by apply P3].
    specialize (P3 j l Hj). by rewrite decide_True in P3 |- * by done.
Qed.
End write.

(** ** iappend *)

(** A run that either needs no more than the image has, and satisfies [P], or
    ends because it reads past the end of the image. *)
Definition fits {A} (fb : Z) (r : failure + A * image) (P : A -> image -> Prop) : Prop :=
  (fb <= FSSIZE /\ exists a im, r = inr (a, im) /\ P a im) \/ (FSSIZE < fb /\ r = inl (Die "read")).

Lemma blocks_add k p : 0 <= k -> 0 < p <= BSIZE - k mod BSIZE -> blocks_of (k + p) = blocks_of (k + 1).
Proof. intros Hk Hp. unfold blocks_of. rewrite !nb_add by lia. done. Qed.

(** One turn of the loop. *)
Lemma iappend_turn fuel j im D din cs l p : let k := Z.of_nat (length l) in
  let n1 := Z.min (Z.of_nat (length p)) ((k / BSIZE + 1) * BSIZE - k) in
  cs !! j = Some l -> working j im D din cs (nb k) -> freeblock im <= FSSIZE -> 0 < Z.of_nat (length p) -> k / BSIZE < MAXFILE ->
  (exists D1 din1 im1, iappend_loop (S fuel) din k p im = iappend_loop fuel din1 (u32 (k + n1)) (drop (Z.to_nat n1) p) im1 /\
     working j im1 D1 din1 (<[j := l ++ take (Z.to_nat n1) p]> cs) (nb (k + n1)) /\ changes j im D din im1 D1 din1 /\
     freeblock im1 = freeblock im + (blocks_of (k + n1) - blocks_of k) /\ freeblock im1 <= FSSIZE) \/
  (iappend_loop (S fuel) din k p im = inl (Die "read") /\ FSSIZE < freeblock im + (blocks_of (k + 1) - blocks_of k)).
Proof.
  intros k n1 Hj Hw Hfb Hpos Hf. cbn [iappend_loop]. destruct (Z.ltb_spec 0 (Z.of_nat (length p))); [|lia].
  destruct (Z.ltb_spec (k / BSIZE) MAXFILE) as [_|?]; [|lia]. change (assert_ true "fbn < MAXFILE") with (mret tt : mk unit). rewrite (mk_bind_eq (mret tt) _ _ _ _ eq_refl).
  pose proof (Z.mod_pos_bound k BSIZE ltac:(done)) as Hmod. pose proof (Z.div_mod k BSIZE ltac:(done)) as Hdiv.
  destruct (iappend_block_run D cs j l Hj im din Hw Hfb Hf) as [(D1 & din1 & b & im1 & Hr & [W1 C1 S1 F1 B1 R1])|[Hr Hover]].
  2: { right. split; [by apply mk_bind_err|done]. }
  fold k in W1, S1, F1. rewrite (mk_bind_eq _ _ _ _ _ Hr). cbn [fst snd]. pose proof W1 as [P1 E1 N1].
  destruct (decide (b < FSSIZE)) as [Hb|Hb].
  2: { right. split; [|lia]. apply mk_bind_err, rsect_die; [lia|done]. }
  left. erewrite mk_bind_eq by (apply rsect_ok; [lia|done]). erewrite mk_bind_eq by (apply wsect_ok; [lia|done]).
  fold n1. assert (0 < n1 <= BSIZE - k mod BSIZE /\ n1 <= Z.of_nat (length p)) as [Hn1 Hn1'] by lia.
  replace (Z.to_nat (k - k / BSIZE * BSIZE)) with (Z.to_nat (k mod BSIZE)) by (f_equal; lia).
  pose proof (write_part (sects im1) D1 cs j l (take (Z.to_nat n1) p) (freeblock im1) Hj) as Hwp. cbn zeta in Hwp. fold k in Hwp. rewrite E1, S1 in Hwp.
  specialize (Hwp P1 Hf ltac:(lia) ltac:(rewrite length_take; lia)). eexists D1, din1, _. split; [reflexivity|].
  cbn [freeblock with_sects]. rewrite !(nb_add k n1), <- (nb_add k 1), blocks_add by lia.
  split_and!; [by split|destruct C1 as [C1 C2 C3 C4]; split; [|done..]|done|by apply B1].
  intros b' Hb'. cbn [sects with_sects]. rewrite <- C1 by done. apply vset_ne. rewrite <- S1, <- E1.
  assert (is_slot (k / BSIZE)) by (assert (0 <= k / BSIZE) by (apply Z.div_pos; [lia|done]); unfold is_slot; lia).
  apply lookup_lt_Some in Hj. pose proof (ly_range _ _ _ _ (pt_lay _ _ _ _ _ _ P1) (1 + Z.of_nat j) (k / BSIZE) ltac:(lia)) as Hr0.
  rewrite E1, S1 in *. specialize (Hr0 ltac:(done) ltac:(lia)). lia.
Qed.

Lemma iappend_loop_run fuel j : forall im D din cs l p, let k := Z.of_nat (length l) in let k' := k + Z.of_nat (length p) in
  cs !! j = Some l -> working j im D din cs (nb k) -> freeblock im <= FSSIZE -> (length p <= fuel)%nat -> k' <= MAXFILE * BSIZE ->
  let fb' := freeblock im + (blocks_of k' - blocks_of k) in
  fits fb' (iappend_loop fuel din k p im) (fun r im' => exists D', r.2 = k' /\ working j im' D' r.1 (<[j := l ++ p]> cs) (nb k') /\
    changes j im D din im' D' r.1 /\ freeblock im' = fb').
Proof.
  induction fuel as [|fuel IH]; intros im D din cs l p k k' Hj Hw Hfb Hlen Hmax fb'.
  all: destruct p as [|c p0]; [|cbn [length] in Hlen; try lia].
  1, 2: left; assert (k' = k) as Ek by (unfold k'; cbn; lia); assert (fb' = freeblock im) as Ef by (unfold fb'; rewrite Ek; lia); rewrite Ef, Ek;
    split; [lia|]; exists (din, k), im; split; [done|]; exists D; rewrite app_nil_r, list_insert_id by done; split; [done|]; split; [done|];
    split; [apply changes_refl|done].
  assert (0 < Z.of_nat (length (c :: p0))) as Hpos by (cbn; lia). change (S (length p0)) with (length (c :: p0)) in Hlen.
  remember (c :: p0) as p eqn:Ep. clear Ep c p0. assert (k / BSIZE < MAXFILE) as Hf by (apply Z.div_lt_upper_bound; [done|lia]).
  pose proof (Z.mod_pos_bound k BSIZE ltac:(done)) as Hmod. pose proof (Z.div_mod k BSIZE ltac:(done)) as Hdiv.
  set (n1 := Z.min (Z.of_nat (length p)) ((k / BSIZE + 1) * BSIZE - k)). assert (0 < n1 <= Z.of_nat (length p)) as Hn1 by lia.
  assert (forall m, 0 <= m <= Z.of_nat (length p) -> blocks_of (k + m) <= blocks_of k') as Hbl.
  { intros m Hm. replace k' with (k + m + (Z.of_nat (length p) - m)) by lia. apply blocks_mono; lia. }
  destruct (iappend_turn fuel j im D din cs l p Hj Hw Hfb Hpos Hf) as [(D1 & din1 & im1 & Hr & W1 & C1 & F1 & Hfb1)|[Hr Hover]].
  2: { right. split; [|exact Hr]. specialize (Hbl 1 ltac:(lia)). unfold fb', k in *. lia. }
  fold k n1 in Hr, W1, F1. rewrite Hr. assert (Z.of_nat (length (l ++ take (Z.to_nat n1) p)) = k + n1) as Hlq by (rewrite length_app, length_take; lia).
  change (MAXFILE * BSIZE) with 274432 in *. rewrite u32_id by lia. rewrite <- Hlq in W1, F1 |- *.
  pose proof (IH im1 D1 din1 (<[j := l ++ take (Z.to_nat n1) p]> cs) (l ++ take (Z.to_nat n1) p) (drop (Z.to_nat n1) p)) as Hi. cbn zeta in Hi.
  rewrite F1, length_drop, list_insert_insert_eq, <- app_assoc, take_drop in Hi.
  replace (Z.of_nat (length (l ++ take (Z.to_nat n1) p)) + Z.of_nat (length p - Z.to_nat n1)) with k' in Hi by lia.
  replace (freeblock im + (blocks_of (Z.of_nat (length (l ++ take (Z.to_nat n1) p))) - blocks_of k) + (blocks_of k' - blocks_of (Z.of_nat (length (l ++ take (Z.to_nat n1) p))))) with fb' in Hi by lia.
  destruct Hi as [(Hle & [din' off'] & im' & -> & D' & Ho & W' & C' & F')|[Hover ->]].
  { apply list_lookup_insert_eq. by eapply lookup_lt_Some. }
  { done. }
  { rewrite <- F1. done. }
  { lia. }
  { lia. }
  - left. split; [done|]. eexists _, _. split; [reflexivity|]. exists D'. split_and!; [done|done|by eapply changes_trans|done].
  - by right.
Qed.
