(* ===== verification/MkfsProps.v ===== *)
(** * What mkfs makes

    The image that [main] of mkfs/mkfs.c leaves is a file system that satisfies
    the invariants of kernel/fs.c and holds the files it was given; a run that
    needs more blocks than the image has ends with an error. *)

From S2P Require Import Prelude Riscv Headers Mem Kalloc Vm Sleeplock Block Log State Sched Copy Fs FsBase FsAlloc FsInode FsFile FsRw Mkfs MkfsImage MkfsAppend.

(** ** The layout *)

Lemma mkfs_sb_eq : mkfs_sb = SuperBlock FSMAGIC 2000 1953 200 31 2 33 46.
Proof. reflexivity. Qed.

Lemma mkfs_log_area b : log_area mkfs_sb b <-> 2 <= b < 33.
Proof. rewrite mkfs_sb_eq. unfold log_area. cbn [sb_logstart]. change LOGBLOCKS with 30. lia. Qed.

Lemma mkfs_bitmap_ok : bitmap_ok mkfs_sb.
Proof.
  split; [done|done|]. intros x Hx. rewrite mkfs_log_area. rewrite mkfs_sb_eq in *. cbn [sb_bmapstart sb_size] in *.
  change BPB with 8192. rewrite Z.div_small by lia. lia.
Qed.
Lemma mkfs_inodes_ok : inodes_ok mkfs_sb.
Proof.
  split; [done|done|]. intros x Hx. rewrite mkfs_log_area. rewrite mkfs_sb_eq in *. cbn [sb_inodestart sb_ninodes] in *.
  assert (0 <= x / IPB) by (apply Z.div_pos; [lia|done]). lia.
Qed.

Lemma mkfs_iblock y : 0 <= y < NINODES -> 33 <= IBLOCK y mkfs_sb < 46.
Proof.
  intros Hy. destruct (IBLOCK_eq mkfs_sb y mkfs_inodes_ok Hy) as [-> _]. rewrite mkfs_sb_eq. cbn [sb_inodestart].
  change NINODES with 200 in Hy. change IPB with 16. Z.div_mod_to_equations. lia.
Qed.
Lemma mkfs_bblock x : 0 <= x < FSSIZE -> BBLOCK x mkfs_sb = 46.
Proof.
  intros Hx. destruct (BBLOCK_eq mkfs_sb x mkfs_bitmap_ok Hx) as [-> _]. rewrite mkfs_sb_eq. cbn [sb_bmapstart].
  change FSSIZE with 2000 in Hx. change BPB with 8192. rewrite Z.div_small by lia. done.
Qed.

Lemma mkfs_data_block x : nmeta <= x < FSSIZE -> data_block mkfs_sb x.
Proof.
  change nmeta with 47. intros Hx. change FSSIZE with 2000 in Hx. split.
  - rewrite mkfs_sb_eq. cbn [sb_size]. lia.
  - rewrite mkfs_log_area. lia.
  - intros y Hy. rewrite mkfs_bblock by done. lia.
  - intros y Hy. pose proof (mkfs_iblock y Hy). lia.
Qed.

Lemma wr32_read s o o' v d : (o' + 3 < o \/ o + 3 < o')%nat -> rd32 d o = s -> rd32 (wr32 o' v d) o = s.
Proof. intros Ho <-. apply rd32_wr32_ne. lia. Qed.
Lemma sb_of_block : sb_of (sb_block mkfs_sb) = mkfs_sb.
Proof.
  rewrite mkfs_sb_eq. unfold sb_of, sb_block. cbn [sb_magic sb_size sb_nblocks sb_ninodes sb_nlog sb_logstart sb_inodestart sb_bmapstart].
  f_equal; repeat (apply wr32_read; [lia|]); (apply rd32_wr32_eq; [rewrite ?length_wr32, zero_block_len; change BSIZE with 1024; lia|done]).
Qed.

(** ** Inodes on the image *)

Definition dino (V : Z -> block) (y : Z) : inode := get_dinode (V (IBLOCK y mkfs_sb)) (di_off y) inode0.

(** The inode is all on disk. *)
Definition on_disk (i : inode) : Prop :=
  i = Inode 0 0 0 (SleepLock 0 0) false (i_type i) (i_major i) (i_minor i) (i_nlink i) (i_size i) (i_addrs i).

Lemma get_put_eq i o d : on_disk i -> inode_ok i -> (o + 64 <= length d)%nat -> get_dinode (put_dinode i o d) o inode0 = i.
Proof.
  intros Hd Hi Ho. pose proof (get_put_dinode i inode0 o d Hi Ho) as E. unfold stored in E. injection E as E1 E2 E3 E4 E5 E6.
  unfold on_disk in Hd. etransitivity; [|symmetry; exact Hd]. unfold get_dinode in *. cbn [i_type i_major i_minor i_nlink i_size i_addrs] in *. by rewrite E1, E2, E3, E4, E5, E6.
Qed.

(** The effect of [winode]. *)
Record inode_set (x : Z) (i : inode) (V V' : Z -> block) : Prop := {
  is_self : dino V' x = i;
  is_other y : 0 <= y < NINODES -> y <> x -> dino V' y = dino V y;
  is_rest b : b < 33 \/ 46 <= b -> V' b = V b;
  is_len b : length (V b) = Z.to_nat BSIZE -> length (V' b) = Z.to_nat BSIZE;
}.

Lemma winode_run im x i : nsect im = FSSIZE -> (forall b, length (sects im b) = Z.to_nat BSIZE) -> 0 <= x < NINODES -> on_disk i -> inode_ok i ->
  exists V', winode x i im = inr (tt, with_sects V' im) /\ inode_set x i (sects im) V'.
Proof.
  intros Hn Hl Hx Hd Hi. pose proof (mkfs_iblock x Hx) as Hb. change NINODES with 200 in *. change FSSIZE with 2000 in *.
  eexists. split; [unfold winode; erewrite mk_bind_eq by (apply rsect_ok; [lia|done]); apply wsect_ok; [lia|done]|].
  pose proof (di_off_le x) as Ho. split.
  - unfold dino. rewrite vset_eq. apply get_put_eq; [done..|]. by rewrite Hl.
  - intros y Hy Hne. unfold dino, vset. case_decide as E; [|done]. rewrite <- E. apply get_dinode_ext. intros z Hz. apply put_dinode_other; [apply Hi|].
    destruct (di_off_apart x y mkfs_sb mkfs_inodes_ok) as [?|?]; try lia; done.
  - intros b Hb'. apply vset_ne. lia.
  - intros b E. unfold vset. case_decide; [|done]. by rewrite length_put_dinode.
Qed.

Lemma rinode_run im x : nsect im = FSSIZE -> 0 <= x < NINODES -> rinode x im = inr (dino (sects im) x, im).
Proof.
  intros Hn Hx. pose proof (mkfs_iblock x Hx). change FSSIZE with 2000 in *. unfold rinode. erewrite mk_bind_eq by (apply rsect_ok; [lia|done]). done.
Qed.

Lemma slot_addrs V i i' t : i_addrs i' = i_addrs i -> slot V i' t = slot V i t.
Proof. intros E. unfold slot, file_blk. by rewrite E. Qed.

(** Only the first blocks and fields other than [addrs] have changed. *)
Lemma whole_meta V D V' D' cs fb : whole V D cs fb -> (forall b, nmeta <= b -> V' b = V b) -> (forall b, length (V' b) = Z.to_nat BSIZE) ->
  (forall y, 1 <= y < 1 + Z.of_nat (length cs) -> i_addrs (D' y) = i_addrs (D y)) -> whole V' D' cs fb.
Proof.
  intros [[L1 L2 L3 L4 L5 L6] P2 P3] HV Hl HD.
  assert (forall y t, 1 <= y < 1 + Z.of_nat (length cs) -> is_slot t -> slot V' (D' y) t = slot V (D y) t) as Hs.
  { intros y t Hy Ht. rewrite (slot_addrs _ (D y)) by auto. apply slot_frame. intros Hn. apply HV. by apply L5. }
  assert (forall j l, cs !! j = Some l -> 1 <= 1 + Z.of_nat j < 1 + Z.of_nat (length cs)) as Hr by (intros j l E; apply lookup_lt_Some in E; lia).
  split; [split|..]; try done.
  - intros b Hb. rewrite HV by lia. by apply L2.
  - intros y Hy. rewrite HD by done. by apply L4.
  - intros y t Hy Ht. rewrite Hs by done. by apply L5.
  - intros y z t u Hy Hz Ht Hu. rewrite !Hs by done. by apply L6.
  - intros j l E z Hz. rewrite <- (P2 j l E z Hz). destruct (file_index z Hz) as [Ht _]. apply fbyte_frame; [done|apply Hs; eauto|].
    intros Hn. apply HV. apply L5; eauto.
  - intros j l E. destruct (P3 j l E) as [M1 M2]. split; [intros t Ht|]; rewrite Hs by (eauto using max_slot; unfold is_slot; lia); [by apply M1|done].
Qed.

(** ** The image between two calls *)

(** A file: its type, the size in its inode, its contents. *)
Record entry := Entry { e_type : Z; e_size : Z; e_data : list Z }.
Definition e_len (e : entry) : Z := Z.of_nat (length (e_data e)).

Record described (i : inode) (e : entry) : Prop := {
  ds_type : i_type i = e_type e /\ 0 <= e_type e < 2 ^ 15;
  ds_dev : i_major i = 0 /\ i_minor i = 0;
  ds_nlink : i_nlink i = 1;
  ds_size : i_size i = e_size e /\ 0 <= e_size e < 2 ^ 32;
}.

(** The blocks that all the files take up. *)
Fixpoint total (fi : list entry) : Z :=
  match fi with
  | [] => 0
  | e :: fi => blocks_of (e_len e) + total fi
  end.

(** Inode number [1 + j] is the one of entry [j]. *)
Record disk_ok (im : image) (fi : list entry) : Prop := {
  dk_whole : whole (sects im) (dino (sects im)) (e_data <$> fi) (freeblock im);
  dk_inode j e : fi !! j = Some e -> described (dino (sects im) (1 + Z.of_nat j)) e;
  dk_none y : y = 0 \/ 1 + Z.of_nat (length fi) <= y < NINODES -> i_type (dino (sects im) y) = 0;
  dk_next : freeinode im = 1 + Z.of_nat (length fi);
  dk_count : 1 + Z.of_nat (length fi) <= NINODES;
  dk_nsect : nsect im = FSSIZE;
  dk_fb : freeblock im = nmeta + total fi;
  dk_sb : sects im 1 = sb_block mkfs_sb;
  dk_log b : 2 <= b < 33 -> sects im b = zero_block;
}.

Lemma total_entries_nonneg fi : 0 <= total fi.
Proof. induction fi as [|e fi IH]; [done|]. cbn [total]. pose proof (blocks_nonneg (e_len e)). unfold e_len in *. lia. Qed.
Lemma total_entries_app fi fi' : total (fi ++ fi') = total fi + total fi'.
Proof. induction fi as [|e fi IH]; [done|]. cbn [total app]. lia. Qed.
Lemma total_insert fi j e e' : fi !! j = Some e -> total (<[j := e']> fi) = total fi + (blocks_of (e_len e') - blocks_of (e_len e)).
Proof.
  revert j. induction fi as [|e0 fi IH]; intros [|j] Hj; [done|done| |].
  - injection Hj as ->. cbn. lia.
  - cbn [insert list_insert total] in *. change (total (<[j := e']> fi)) with (total (<[j := e']> fi)). rewrite (IH j Hj). lia.
Qed.

Lemma dk_len im fi b : disk_ok im fi -> length (sects im b) = Z.to_nat BSIZE.
Proof. intros Hd. apply (pt_lay _ _ _ _ _ _ (dk_whole _ _ Hd)). Qed.
Lemma dk_data im fi j e : disk_ok im fi -> fi !! j = Some e -> (e_data <$> fi) !! j = Some (e_data e).
Proof. intros _ Hj. by rewrite list_lookup_fmap, Hj. Qed.
Lemma dk_range im fi j e : disk_ok im fi -> fi !! j = Some e -> 1 <= 1 + Z.of_nat j < 1 + Z.of_nat (length fi) /\ 0 <= 1 + Z.of_nat j < NINODES.
Proof. intros Hd Hj. pose proof (dk_count _ _ Hd). apply lookup_lt_Some in Hj. lia. Qed.

(** The block numbers in an inode of the image are in range. *)
Lemma addrs_ok V D cs x m fb y : part V D cs x m fb -> fb <= FSSIZE -> 1 <= y < 1 + Z.of_nat (length cs) ->
  Forall (fun a => 0 <= a < 2 ^ 32) (i_addrs (D y)).
Proof.
  intros [L _ _] Hfb Hy. pose proof (ly_addrs _ _ _ _ L y Hy) as Hl. apply Forall_lookup. intros i a Hi. pose proof (lookup_lt_Some _ _ _ Hi) as Hlt.
  destruct (addrs_slot V (D y) (Z.of_nat i)) as [Ea Ht]; [change NDIRECT with 12; lia|]. rewrite Nat2Z.id, (list_lookup_total_correct _ _ _ Hi) in Ea.
  subst a. assert (nmeta = 47) by done. change FSSIZE with 2000 in Hfb. destruct (decide (slot V (D y) (addr_slot (Z.of_nat i)) = 0)) as [E|E]; [lia|].
  pose proof (ly_range _ _ _ _ L y _ Hy Ht E). lia.
Qed.

Lemma dk_inode_ok im fi j e : disk_ok im fi -> freeblock im <= FSSIZE -> fi !! j = Some e -> inode_ok (dino (sects im) (1 + Z.of_nat j)).
Proof.
  intros Hd Hfb Hj. destruct (dk_inode _ _ Hd j e Hj) as [[E1 H1] [E2 E3] E4 [E5 H5]]. destruct (dk_range _ _ _ _ Hd Hj) as [Hr _].
  change (2 ^ 15) with 32768 in H1. rewrite <- E1, <- E5 in *. split; rewrite ?E2, ?E3, ?E4; try lia; [done|].
  eapply addrs_ok; [apply Hd|done|]. by rewrite length_fmap.
Qed.

Lemma described_update i e sz a l : described i e -> 0 <= sz < 2 ^ 32 -> length a = 13%nat -> Forall (fun a => 0 <= a < 2 ^ 32) a ->
  inode_ok (set_isize sz (set_addrs a i)) /\ described (set_isize sz (set_addrs a i)) (Entry (e_type e) sz l).
Proof.
  intros [[E1 H1] [E2 E3] E4 _] Hsz Hl Ha. change (2 ^ 15) with 32768 in H1.
  split; split; cbn [set_isize set_addrs i_type i_major i_minor i_nlink i_size i_addrs e_type e_size]; rewrite ?E1, ?E2, ?E3, ?E4; (done || lia).
Qed.

Lemma dino_meta V V' y : 0 <= y < NINODES -> (forall b, b < nmeta -> V' b = V b) -> dino V' y = dino V y.
Proof. intros Hy HV. pose proof (mkfs_iblock y Hy). unfold dino. rewrite HV; [done|]. change nmeta with 47. lia. Qed.

(** Putting an inode back that differs in its size and its blocks. *)
Section put.
Context (im im1 : image) (fi : list entry) (j : nat) (e : entry) (l : list Z) (D1 : Z -> inode) (i1 : inode) (sz : Z).
Local Abbreviation x := (1 + Z.of_nat j) (only parsing).
Local Abbreviation fi' := (<[j := Entry (e_type e) sz l]> fi) (only parsing).
Hypothesis Hd : disk_ok im fi.
Hypothesis Hj : fi !! j = Some e.
Hypothesis Hw : working j im1 D1 i1 (<[j := l]> (e_data <$> fi)) (nb (Z.of_nat (length l))).
Hypothesis Hc : changes j im (dino (sects im)) (dino (sects im) x) im1 D1 i1.
Hypothesis Hsz : 0 <= sz < 2 ^ 32.
Hypothesis Hfb : freeblock im1 = nmeta + total fi'.
Hypothesis Hroom : freeblock im1 <= FSSIZE.

Lemma put_fields : inode_ok (set_isize sz i1) /\ on_disk (set_isize sz i1) /\ described (set_isize sz i1) (Entry (e_type e) sz l).
Proof using All.
  destruct Hw as [P1 E1 _], Hc as [_ _ _ C4]. pose proof (lookup_lt_Some _ _ _ Hj) as Hlt.
  assert (1 <= x < 1 + Z.of_nat (length (<[j := l]> (e_data <$> fi)))) as Hr by (rewrite length_insert, length_fmap; lia).
  destruct (described_update _ e sz (i_addrs i1) l (dk_inode _ _ Hd j e Hj) Hsz) as [H1 H2].
  - rewrite <- E1. by apply (ly_addrs _ _ _ _ (pt_lay _ _ _ _ _ _ P1)).
  - rewrite <- E1. by eapply addrs_ok.
  - rewrite <- C4 in H1, H2. split_and!; [done| |done]. by rewrite C4.
Qed.

Lemma put_disk V' : inode_set x (set_isize sz i1) (sects im1) V' -> disk_ok (with_sects V' im1) fi'.
Proof using All.
  intros [S1 S2 S3 S4]. destruct put_fields as (_ & _ & Hdesc). destruct Hw as [P1 E1 N1], Hc as [C1 C2 C3 _].
  pose proof Hd as [W I F X C N B S L]. pose proof (lookup_lt_Some _ _ _ Hj) as Hlt. assert (nmeta = 47) as Em by done.
  assert (length (<[j := l]> (e_data <$> fi)) = length fi) as Hlen by (by rewrite length_insert, length_fmap).
  assert (<[j := l]> (e_data <$> fi) !! j = Some l) as Hjl by (apply list_lookup_insert_eq; by rewrite length_fmap).
  assert (forall y, 0 <= y < NINODES -> y <> x -> dino V' y = dino (sects im) y) as Hother.
  { intros y Hy Hne. rewrite S2 by done. by apply dino_meta. }
  split; cbn [sects freeblock freeinode nsect with_sects]; rewrite ?length_insert, ?C2; try done.
  - rewrite list_fmap_insert. cbn [e_data]. eapply whole_meta; [by apply (whole_part _ _ _ _ _ _ Hjl)|intros; apply S3; lia|intros; apply S4, P1|].
    rewrite Hlen. intros y Hy. destruct (decide (y = x)) as [->|Hne]; [by rewrite S1, E1|]. rewrite Hother, C3 by (done || lia). done.
  - intros j' e' Hj'. apply list_lookup_insert_Some in Hj' as [(<- & <- & _)|[Hne Hj']]; [by rewrite S1|].
    rewrite Hother by (apply lookup_lt_Some in Hj'; lia). by apply I.
  - intros y Hy. rewrite Hother by lia. by apply F.
  - rewrite S3, C1 by lia. done.
  - intros b Hb. rewrite S3, C1 by lia. by apply L.
Qed.

Lemma put_run : exists im', winode x (set_isize sz i1) im1 = inr (tt, im') /\ disk_ok im' fi'.
Proof using All.
  destruct put_fields as (Hok & Hod & _). destruct Hw as [P1 E1 N1]. destruct (dk_range _ _ _ _ Hd Hj) as [_ Hr].
  destruct (winode_run im1 x (set_isize sz i1) N1) as (V' & Hw' & Hs); [apply P1|done|done|done|].
  exists (with_sects V' im1). split; [done|]. by apply put_disk.
Qed.
End put.

(** ** The functions *)

(** [iappend] appends, or there are not enough blocks. *)
Lemma iappend_run im fi j e p : let k' := e_len e + Z.of_nat (length p) in let fi' := <[j := Entry (e_type e) k' (e_data e ++ p)]> fi in
  disk_ok im fi -> freeblock im <= FSSIZE -> fi !! j = Some e -> e_size e = e_len e -> k' <= MAXFILE * BSIZE ->
  fits (nmeta + total fi') (iappend (1 + Z.of_nat j) p im) (fun _ im' => disk_ok im' fi').
Proof.
  intros k' fi' Hd Hfb Hj Hsz Hmax. destruct (dk_range _ _ _ _ Hd Hj) as [_ Hr]. destruct (dk_inode _ _ Hd j e Hj) as [_ _ _ [E5 H5]].
  unfold iappend. rewrite (mk_bind_eq _ _ _ _ _ (rinode_run im _ (dk_nsect _ _ Hd) Hr)). rewrite E5, xint_id, Hsz by done.
  assert (e_len (Entry (e_type e) k' (e_data e ++ p)) = k') as El by (unfold e_len; cbn [e_data]; rewrite length_app; unfold k', e_len; lia).
  pose proof (total_insert fi j e (Entry (e_type e) k' (e_data e ++ p)) Hj) as Ht. fold fi' in Ht. rewrite El in Ht. pose proof (dk_fb _ _ Hd) as Efb.
  assert (working j im (dino (sects im)) (dino (sects im) (1 + Z.of_nat j)) (e_data <$> fi) (nb (e_len e))) as Hw.
  { split; [|done|apply Hd]. apply (whole_part _ _ _ _ _ (e_data e)); [by eapply dk_data|apply Hd]. }
  pose proof (iappend_loop_run (length p) j im _ _ _ (e_data e) p (dk_data _ _ _ _ Hd Hj) Hw Hfb ltac:(done) Hmax) as Hl. cbn zeta in Hl. fold (e_len e) k' in Hl.
  replace (freeblock im + (blocks_of k' - blocks_of (e_len e))) with (nmeta + total fi') in Hl by lia.
  destruct Hl as [(Hle & [i1 o1] & im1 & Hr1 & D1 & Ho & W1 & C1 & F1)|[Hover Hr1]]; [left|right; split; [done|by apply mk_bind_err]].
  split; [done|]. cbn [fst snd] in *. subst o1. rewrite (mk_bind_eq _ _ _ _ _ Hr1). cbn [fst snd].
  assert (0 <= k' < 2 ^ 32) as Hk by (change (MAXFILE * BSIZE) with 274432 in Hmax; unfold k', e_len in *; lia). rewrite xint_id by done.
  destruct (put_run im im1 fi j e (e_data e ++ p) D1 i1 k' Hd Hj) as (im' & Hw' & Hd'); [|done|done|by rewrite F1|by rewrite F1|by exists tt, im'].
  rewrite <- El in W1. exact W1.
Qed.

(** A new inode has no blocks. *)
Lemma slot_empty V i t : i_addrs i = replicate 13 0 -> is_slot t -> slot V i t = 0.
Proof.
  intros E Ht. unfold is_slot in Ht. change MAXFILE with 268 in Ht. unfold slot, file_blk. rewrite E. change NDIRECT with 12. change MAXFILE with 268.
  change (replicate 13 0 !!! Z.to_nat 12) with 0. destruct (t =? 268); [done|]. destruct (Z.ltb_spec t 12); [|done].
  apply list_lookup_total_correct, lookup_replicate. split; [done|lia].
Qed.

Lemma whole_snoc V D cs fb : whole V D cs fb -> i_addrs (D (1 + Z.of_nat (length cs))) = replicate 13 0 -> whole V D (cs ++ [[]]) fb.
Proof.
  intros [[L1 L2 L3 L4 L5 L6] P2 P3] E. set (z := 1 + Z.of_nat (length cs)) in *.
  assert (forall t, is_slot t -> slot V (D z) t = 0) as Hz by (intros; by apply slot_empty).
  assert (forall y, 1 <= y < 1 + Z.of_nat (length (cs ++ [[]])) -> y = z \/ 1 <= y < z) as Hy by (intros y; rewrite length_app; cbn; lia).
  split; [split|..]; try done.
  - intros y [->|Hr]%Hy; [by rewrite E|by apply L4].
  - intros y t [->|Hr]%Hy Ht; [by rewrite Hz|by apply L5].
  - intros y y' t u [->|Hr]%Hy Hr' Ht Hu; [by rewrite Hz|]. intros Hn. apply Hy in Hr' as [->|Hr']; [by rewrite Hz|by apply L6].
  - intros j l Hj w Hw. apply lookup_snoc_Some in Hj as [[Hlt Hj]|[-> <-]]; [by eapply P2|]. fold z. unfold fbyte.
    destruct (file_index w Hw) as [Ht Hm]. rewrite <- file_slot, Hz by done. done.
  - intros j l Hj. apply lookup_snoc_Some in Hj as [[Hlt Hj]|[-> <-]]; [by apply P3|]. fold z. rewrite decide_False by lia.
    change (nb (Z.of_nat (length []))) with 0. split; [intros t Ht|]; rewrite Hz by (done || (unfold is_slot; lia)); [lia|done].
Qed.

Lemma ialloc_run im fi ty : disk_ok im fi -> 1 + Z.of_nat (length fi) < NINODES -> 0 <= ty < 2 ^ 15 ->
  exists im', ialloc ty im = inr (1 + Z.of_nat (length fi), im') /\ disk_ok im' (fi ++ [Entry ty 0 []]).
Proof.
  intros Hd Hn Hty. pose proof Hd as [W I F X C N B S L]. set (x := 1 + Z.of_nat (length fi)) in *. change NINODES with 200 in *.
  change (2 ^ 15) with 32768 in Hty. unfold ialloc, next_inode. erewrite mk_bind_eq by reflexivity. rewrite X, u32_id, xshort_id by lia.
  change (xshort 1) with 1. change (xint 0) with 0. set (i := Inode 0 0 0 (SleepLock 0 0) false ty 0 0 1 0 (replicate 13 0)).
  destruct (winode_run (Image (sects im) (nsect im) (x + 1) (freeblock im)) x i N) as (V' & Hw & [S1 S2 S3 S4]).
  { intros b. exact (dk_len _ _ b Hd). } { change NINODES with 200. lia. } { done. }
  { split; cbn; (lia || done || by repeat constructor). }
  cbn [sects] in S2, S3, S4. rewrite (mk_bind_eq _ _ _ _ _ Hw). eexists. split; [reflexivity|].
  assert (forall y, 0 <= y < 200 -> y <> x -> dino V' y = dino (sects im) y) as Hother by (intros; by apply S2).
  split; cbn [sects nsect freeinode freeblock with_sects]; rewrite ?length_app; cbn [length].
  - rewrite fmap_app. apply whole_snoc; [|rewrite length_fmap; fold x; by rewrite S1].
    eapply whole_meta; [exact W|intros; apply S3; assert (nmeta = 47) by done; lia|intros; apply S4; exact (dk_len _ _ _ Hd)|].
    rewrite length_fmap. intros y Hy. by rewrite Hother by lia.
  - intros j e Hj. apply lookup_snoc_Some in Hj as [[Hlt Hj]|[-> <-]]; [rewrite Hother by lia; by apply I|]. fold x. rewrite S1. split; cbn; done || lia.
  - intros y Hy. change NINODES with 200 in Hy. rewrite Hother by lia. apply F. change NINODES with 200. lia.
  - lia.
  - change NINODES with 200. lia.
  - done.
  - rewrite total_entries_app. change (total [Entry ty 0 []]) with 0. lia.
  - rewrite S3 by lia. done.
  - intros b Hb. rewrite S3 by lia. by apply L.
Qed.

Lemma fits_bind {A B} fb1 fb2 (m : mk A) (f : A -> mk B) im P Q : fits fb1 (m im) P -> fb1 <= fb2 ->
  (forall a im', fb1 <= FSSIZE -> P a im' -> fits fb2 (f a im') Q) -> fits fb2 ((m ≫= f) im) Q.
Proof.
  intros [(Hle & a & im' & E & HP)|[Hover E]] Hfb Hf.
  - rewrite (mk_bind_eq _ _ _ _ _ E). by apply Hf.
  - right. split; [lia|]. by apply mk_bind_err.
Qed.

Lemma total_grow fi j e e' : fi !! j = Some e -> e_len e <= e_len e' -> total fi <= total (<[j := e']> fi).
Proof.
  intros Hj Hle. rewrite (total_insert fi j e e' Hj). pose proof (blocks_mono (e_len e) (e_len e' - e_len e)) as Hm.
  replace (e_len e + (e_len e' - e_len e)) with (e_len e') in Hm by lia. unfold e_len in *. lia.
Qed.

Definition append_entry (e : entry) (p : list Z) : entry := Entry (e_type e) (e_len e + Z.of_nat (length p)) (e_data e ++ p).
Lemma append_len e p : e_len (append_entry e p) = e_len e + Z.of_nat (length p).
Proof. unfold e_len, append_entry. cbn. rewrite length_app. lia. Qed.

Lemma copy_chunks_run chunks : forall im fi j e, let fi' := <[j := append_entry e (concat chunks)]> fi in
  disk_ok im fi -> freeblock im <= FSSIZE -> fi !! j = Some e -> e_size e = e_len e -> e_len e + Z.of_nat (length (concat chunks)) <= MAXFILE * BSIZE ->
  fits (nmeta + total fi') (copy_chunks (1 + Z.of_nat j) chunks im) (fun _ im' => disk_ok im' fi').
Proof.
  induction chunks as [|p chunks IH]; intros im fi j e fi' Hd Hfb Hj Hsz Hmax; cbn [copy_chunks concat] in *.
  - assert (fi' = fi) as ->. { unfold fi'. apply list_insert_id. rewrite Hj. f_equal. unfold append_entry. rewrite app_nil_r. destruct e; cbn in *. f_equal. lia. }
    left. rewrite <- (dk_fb _ _ Hd). split; [done|]. by exists tt, im.
  - rewrite length_app in Hmax. pose proof (iappend_run im fi j e p Hd Hfb Hj Hsz ltac:(lia)) as H1. cbn zeta in H1. fold (append_entry e p) in H1.
    assert (<[j := append_entry e p]> fi !! j = Some (append_entry e p)) as Hj1 by (apply list_lookup_insert_eq; by eapply lookup_lt_Some).
    assert (fi' = <[j := append_entry (append_entry e p) (concat chunks)]> (<[j := append_entry e p]> fi)) as ->.
    { rewrite list_insert_insert_eq. unfold fi'. f_equal. unfold append_entry at 1 2. rewrite append_len. cbn. rewrite app_assoc, length_app. f_equal. lia. }
    eapply fits_bind; [exact H1| |].
    + apply Z.add_le_mono_l. eapply total_grow; [exact Hj1|]. rewrite !append_len. lia.
    + intros [] im' Hle Hd'. apply IH; [done| |done| |].
      * by rewrite (dk_fb _ _ Hd').
      * by rewrite append_len.
      * rewrite append_len. lia.
Qed.

(** ** Adding the files *)

Definition file_name (arg : list Z) : list Z := strip_underscore (shortname arg).
Definition dir (d : list Z) : entry := Entry T_DIR (Z.of_nat (length d)) d.

Lemma total_dir d de fs fs' : total fs <= total fs' -> total (dir d :: fs) <= total (dir (d ++ de) :: fs').
Proof.
  intros Hle. cbn [total]. pose proof (blocks_mono (e_len (dir d)) (Z.of_nat (length de))) as Hm. unfold e_len, dir in *. cbn [e_data] in *.
  rewrite length_app, Nat2Z.inj_add. lia.
Qed.

(** Appending to the root directory. *)
Lemma iappend_root im d fs de : disk_ok im (dir d :: fs) -> freeblock im <= FSSIZE -> Z.of_nat (length d) + Z.of_nat (length de) <= MAXFILE * BSIZE ->
  fits (nmeta + total (dir (d ++ de) :: fs)) (iappend 1 de im) (fun _ im' => disk_ok im' (dir (d ++ de) :: fs)).
Proof.
  intros Hd Hfb Hmax. pose proof (iappend_run im (dir d :: fs) 0 (dir d) de Hd Hfb eq_refl eq_refl Hmax) as H. cbn zeta in H. cbn [insert list_insert] in H.
  assert (Entry (e_type (dir d)) (e_len (dir d) + Z.of_nat (length de)) (e_data (dir d) ++ de) = dir (d ++ de)) as Ed.
  { unfold dir. cbn [e_type e_data]. f_equal. unfold e_len. cbn [e_data]. rewrite length_app. lia. }
  by rewrite Ed in H.
Qed.

Section files.
Context (host : list Z -> option (list (list Z))).

Definition contents (arg : list Z) : list Z := concat (default [] (host arg)).
Definition file_entry (arg : list Z) : entry := Entry T_FILE (Z.of_nat (length (contents arg))) (contents arg).
(** The directory entries of [args], whose inodes are numbered from [inum]. *)
Fixpoint dir_bytes (inum : Z) (args : list (list Z)) : list Z :=
  match args with
  | [] => []
  | arg :: args => dirent inum (file_name arg) ++ dir_bytes (inum + 1) args
  end.

(** An argument the program accepts. *)
Record arg_ok (arg : list Z) : Prop := {
  ao_slash : slash ∉ shortname arg;
  ao_open : is_Some (host arg);
  ao_name : Z.of_nat (length (file_name arg)) <= DIRSIZ;
  ao_size : Z.of_nat (length (contents arg)) <= MAXFILE * BSIZE;
}.

Lemma length_dirent inum name : length (dirent inum name) = 16%nat.
Proof. unfold dirent, strncpy_bytes. rewrite !length_app, length_wr16, length_take, !length_replicate. change (Z.to_nat DIRSIZ) with 14%nat. lia. Qed.

Lemma add_file_run im d fs arg : let fi' := dir (d ++ dirent (2 + Z.of_nat (length fs)) (file_name arg)) :: fs ++ [file_entry arg] in
  disk_ok im (dir d :: fs) -> freeblock im <= FSSIZE -> 2 + Z.of_nat (length fs) < NINODES -> arg_ok arg ->
  Z.of_nat (length d) + 16 <= MAXFILE * BSIZE ->
  fits (nmeta + total fi') (add_file host 1 arg im) (fun _ im' => disk_ok im' fi').
Proof.
  intros fi' Hd Hfb Hn [A1 [chunks A2] A3 A4] Hdir. unfold contents in A4. assert (contents arg = concat chunks) as Ec by (unfold contents; by rewrite A2).
  rewrite A2 in A4. cbn [default] in A4. unfold add_file. rewrite bool_decide_false by done. erewrite mk_bind_eq by reflexivity. rewrite A2.
  fold (file_name arg). destruct (Z.leb_spec (Z.of_nat (length (file_name arg))) DIRSIZ); [|lia]. erewrite mk_bind_eq by reflexivity.
  destruct (ialloc_run im (dir d :: fs) T_FILE Hd) as (im1 & Hr1 & Hd1); [cbn [length]; lia|done|]. rewrite (mk_bind_eq _ _ _ _ _ Hr1).
  assert (freeblock im1 = freeblock im) as Ef. { rewrite (dk_fb _ _ Hd), (dk_fb _ _ Hd1), total_entries_app. change (total [Entry T_FILE 0 []]) with 0. lia. }
  replace (1 + Z.of_nat (length (dir d :: fs))) with (2 + Z.of_nat (length fs)) by (cbn [length]; lia).
  change NINODES with 200 in Hn. rewrite xshort_id by lia. set (de := dirent (2 + Z.of_nat (length fs)) (file_name arg)) in *.
  assert (length de = 16%nat) as Ede by apply length_dirent.
  eapply fits_bind; [apply (iappend_root im1 d (fs ++ [Entry T_FILE 0 []]) de Hd1); lia| |].
  - apply Z.add_le_mono_l. unfold fi'. cbn [total]. apply Z.add_le_mono_l. rewrite !total_entries_app. apply Z.add_le_mono_l. cbn [total].
    change (blocks_of (e_len (Entry T_FILE 0 []))) with 0. pose proof (blocks_nonneg (e_len (file_entry arg))). unfold e_len in *. lia.
  - intros [] im2 Hle Hd2. cbn beta in Hd2. pose proof (copy_chunks_run chunks im2 _ (S (length fs)) (Entry T_FILE 0 []) Hd2) as H3. cbn zeta in H3.
    replace (1 + Z.of_nat (S (length fs))) with (2 + Z.of_nat (length fs)) in H3 by lia.
    assert (<[S (length fs) := append_entry (Entry T_FILE 0 []) (concat chunks)]> (dir (d ++ de) :: fs ++ [Entry T_FILE 0 []]) = fi') as E3.
    { unfold fi'. cbn [insert list_insert]. f_equal. change (<[length fs := append_entry (Entry T_FILE 0 []) (concat chunks)]> (fs ++ [Entry T_FILE 0 []]) = fs ++ [file_entry arg]).
      rewrite insert_app_r_alt by lia. rewrite Nat.sub_diag. unfold file_entry. by rewrite Ec. }
    rewrite E3 in H3. apply H3; [by rewrite (dk_fb _ _ Hd2)| |done|done].
    change ((fs ++ [Entry T_FILE 0 []]) !! length fs = Some (Entry T_FILE 0 [])). apply list_lookup_middle. done.
Qed.

Lemma add_files_run args : forall im d fs, let fi' := dir (d ++ dir_bytes (2 + Z.of_nat (length fs)) args) :: fs ++ (file_entry <$> args) in
  disk_ok im (dir d :: fs) -> freeblock im <= FSSIZE -> 2 + Z.of_nat (length fs) + Z.of_nat (length args) <= NINODES -> Forall arg_ok args ->
  Z.of_nat (length d) + 16 * Z.of_nat (length args) <= MAXFILE * BSIZE ->
  fits (nmeta + total fi') (add_files host 1 args im) (fun _ im' => disk_ok im' fi').
Proof.
  induction args as [|arg args IH]; intros im d fs fi' Hd Hfb Hn Hargs Hdir; cbn [add_files].
  - unfold fi'. cbn [dir_bytes fmap list_fmap]. rewrite !app_nil_r. left. rewrite <- (dk_fb _ _ Hd). split; [done|]. by exists tt, im.
  - apply Forall_cons in Hargs as [Ha Hargs]. cbn [length] in Hn, Hdir. pose proof (add_file_run im d fs arg Hd Hfb ltac:(lia) Ha ltac:(lia)) as H1. cbn zeta in H1.
    set (de := dirent (2 + Z.of_nat (length fs)) (file_name arg)) in *. assert (length de = 16%nat) as Ede by apply length_dirent.
    assert (fi' = dir ((d ++ de) ++ dir_bytes (2 + Z.of_nat (length (fs ++ [file_entry arg]))) args) :: (fs ++ [file_entry arg]) ++ (file_entry <$> args)) as Efi.
    { unfold fi'. cbn [dir_bytes fmap list_fmap]. fold de. rewrite <- !app_assoc, length_app. cbn [length app]. by replace (2 + Z.of_nat (length fs + 1)) with (2 + Z.of_nat (length fs) + 1) by lia. }
    rewrite Efi. eapply fits_bind; [exact H1| |].
    + apply Z.add_le_mono_l, total_dir. rewrite !total_entries_app. pose proof (total_entries_nonneg (file_entry <$> args)). lia.
    + intros [] im' Hle Hd'. apply IH; [done|by rewrite (dk_fb _ _ Hd')|rewrite length_app; cbn [length]; lia|done|rewrite length_app, Ede; lia].
Qed.
End files.

(** ** The beginning and the end of main *)

Lemma zero_sectors_run n : forall i im, 0 <= i -> i + Z.of_nat n <= FSSIZE -> (forall b, sects im b = zero_block) -> nsect im = i ->
  exists V, zero_sectors n i im = inr (tt, Image V (i + Z.of_nat n) (freeinode im) (freeblock im)) /\ forall b, V b = zero_block.
Proof.
  induction n as [|n IH]; intros i im Hi Hn Hz Hs; cbn [zero_sectors].
  - exists (sects im). split; [|done]. rewrite Z.add_0_r, <- Hs. by destruct im.
  - change FSSIZE with 2000 in Hn. unfold wsect at 1. erewrite mk_bind_eq by reflexivity. rewrite sector_id by lia.
    destruct (IH (i + 1) (Image (vset i zero_block (sects im)) (Z.max (nsect im) (i + 1)) (freeinode im) (freeblock im))) as (V & -> & HV).
    + lia.
    + change FSSIZE with 2000. lia.
    + intros b. cbn [sects]. unfold vset. by case_decide.
    + cbn [nsect]. lia.
    + exists V. split; [|done]. cbn [freeinode freeblock]. do 3 f_equal. lia.
Qed.

Lemma dino_zero V y : V (IBLOCK y mkfs_sb) = zero_block -> i_type (dino V y) = 0.
Proof.
  intros E. unfold dino. rewrite E. cbn [get_dinode i_type]. pose proof (di_off_le y) as Ho. change (Z.to_nat BSIZE) with 1024%nat in Ho.
  unfold di_type, rd16. by rewrite !zero_byte by (change BSIZE with 1024; lia).
Qed.

Lemma sb_block_len s : length (sb_block s) = Z.to_nat BSIZE.
Proof. unfold sb_block. by rewrite !length_wr32, zero_block_len. Qed.

(** The image before the first inode. *)
Lemma blank_disk V : (forall b, V b = zero_block) -> disk_ok (Image (vset 1 (sb_block mkfs_sb) V) FSSIZE 1 nmeta) [].
Proof.
  intros HV. assert (nmeta = 47) as Em by done. split; cbn [sects nsect freeinode freeblock length total]; try done.
  - split; [split|..]; try done; rewrite ?Em.
    + intros b. unfold vset. case_decide; [apply sb_block_len|by rewrite HV, zero_block_len].
    + intros b Hb. rewrite vset_ne by lia. apply HV.
    + intros y t Hy. cbn in Hy. lia.
    + intros y z t u Hy. cbn in Hy. lia.
  - intros y Hy. change NINODES with 200 in Hy. assert (0 <= y < NINODES) as Hr by (change NINODES with 200; lia). pose proof (mkfs_iblock y Hr).
    apply dino_zero. rewrite vset_ne by lia. apply HV.
  - intros b Hb. rewrite vset_ne by lia. apply HV.
Qed.

(** The bitmap. *)
Lemma bitmap_bits n : forall x, (n <= Z.to_nat BPB)%nat -> 0 <= x < BPB ->
  length (foldl set_bit zero_block (seqZ 0 (Z.of_nat n))) = Z.to_nat BSIZE /\
  bit_of (foldl set_bit zero_block (seqZ 0 (Z.of_nat n))) x = bool_decide (x < Z.of_nat n).
Proof.
  induction n as [|n IH]; intros x Hn Hx.
  - cbn [seqZ]. rewrite bool_decide_false by lia. split; [apply zero_block_len|]. unfold bit_of. cbn. rewrite zero_byte by (by apply byte_index). apply Z.bits_0.
  - rewrite Nat2Z.inj_succ, <- Z.add_1_r, seqZ_app by lia. rewrite foldl_app. cbn [seqZ]. rewrite Z.add_0_l. change (seqZ (Z.of_nat n) 1) with [Z.of_nat n].
    cbn [foldl]. destruct (IH x) as [Hl Hb]; [lia|done|]. destruct (IH (Z.of_nat n)) as [_ Hb']; [lia|lia|].
    rewrite bool_decide_false in Hb' by lia. rewrite length_set_bit. split; [done|]. rewrite bit_set, Hb by (done || lia).
    apply eq_true_iff_eq. rewrite orb_true_iff, !bool_decide_eq_true. lia.
Qed.

Definition marked (V : Z -> block) (fb : Z) : Prop := forall x, 0 <= x < FSSIZE -> used mkfs_sb V x = bool_decide (x < fb).

Lemma mkfs_balloc_run im fi : disk_ok im fi -> freeblock im <= FSSIZE ->
  exists im', balloc (freeblock im) im = inr (tt, im') /\ disk_ok im' fi /\ marked (sects im') (freeblock im).
Proof.
  intros Hd Hfb. pose proof Hd as [W I F X C N B S L]. assert (nmeta = 47) as Em by done. pose proof (total_entries_nonneg fi). change FSSIZE with 2000 in *.
  unfold balloc. destruct (Z.ltb_spec (freeblock im) BPB) as [_|H']; [|change BPB with 8192 in H'; lia]. erewrite mk_bind_eq by reflexivity.
  change (sb_bmapstart mkfs_sb) with 46. set (d := foldl set_bit zero_block (seqZ 0 (freeblock im))).
  assert (length d = Z.to_nat BSIZE /\ forall x, 0 <= x < BPB -> bit_of d x = bool_decide (x < freeblock im)) as [Hl Hbits].
  { unfold d. rewrite <- (Z2Nat.id (freeblock im)) by lia. split; [apply (bitmap_bits _ 0)|intros x Hx; apply bitmap_bits; [|done]]; change BPB with 8192; lia. }
  exists (with_sects (vset 46 d (sects im)) im). split; [apply wsect_ok; [lia|done]|]. split.
  - split; cbn [sects nsect freeinode freeblock with_sects]; try done.
    + eapply whole_meta; [exact W|intros b Hb; apply vset_ne; lia| |].
      * intros b. unfold vset. case_decide; [done|]. exact (dk_len _ _ b Hd).
      * rewrite length_fmap. intros y Hy. unfold dino. pose proof (mkfs_iblock y ltac:(lia)). by rewrite vset_ne by lia.
    + intros j e Hj. unfold dino. destruct (dk_range _ _ _ _ Hd Hj) as [_ Hr]. pose proof (mkfs_iblock _ Hr). rewrite vset_ne by lia. by apply I.
    + intros y Hy. unfold dino. pose proof (mkfs_iblock y ltac:(change NINODES with 200 in *; lia)). rewrite vset_ne by lia. by apply F.
    + intros b Hb. rewrite vset_ne by lia. by apply L.
  - intros x Hx. unfold used. rewrite mkfs_bblock by done. cbn [sects with_sects]. rewrite vset_eq.
    change FSSIZE with 2000 in Hx. rewrite Z.mod_small by (change BPB with 8192; lia). apply Hbits. change BPB with 8192. lia.
Qed.

(** ** main *)

Section main.
Context (host : list Z -> option (list (list Z))).

Definition root_data (args : list (list Z)) : list Z := dirent ROOTINO [46] ++ dirent ROOTINO [46; 46] ++ dir_bytes 2 args.
(** The size [main] gives the root directory. *)
Definition root_size (args : list (list Z)) : Z := (Z.of_nat (length (root_data args)) / BSIZE + 1) * BSIZE.
Definition files (args : list (list Z)) : list entry := Entry T_DIR (root_size args) (root_data args) :: (file_entry host <$> args).

Lemma length_dir_bytes args : forall inum, Z.of_nat (length (dir_bytes inum args)) = 16 * Z.of_nat (length args).
Proof using. induction args as [|arg args IH]; intros inum; [done|]. cbn [dir_bytes length]. rewrite length_app, length_dirent, Nat2Z.inj_add, IH. lia. Qed.
Lemma length_root args : Z.of_nat (length (root_data args)) = 32 + 16 * Z.of_nat (length args).
Proof using. unfold root_data. rewrite !length_app, !length_dirent, !Nat2Z.inj_add, length_dir_bytes. lia. Qed.

(** The end of [main]. *)
Lemma finish_run im args : disk_ok im (dir (root_data args) :: (file_entry host <$> args)) -> freeblock im <= FSSIZE -> 2 + Z.of_nat (length args) <= NINODES ->
  exists im', (din ← rinode ROOTINO;
               winode ROOTINO (set_isize (xint (u32 ((xint (i_size din) / BSIZE + 1) * BSIZE))) din);;
               fb ← (fun im => inr (freeblock im, im)); balloc fb) im = inr (tt, im') /\
    disk_ok im' (files args) /\ marked (sects im') (freeblock im').
Proof using.
  intros Hd Hfb Hn. pose proof (length_root args) as Hlen. change NINODES with 200 in Hn.
  set (fi := dir (root_data args) :: (file_entry host <$> args)) in *. assert (fi !! 0%nat = Some (dir (root_data args))) as Hj by done.
  erewrite mk_bind_eq by (apply rinode_run; [apply Hd|done]). pose proof (ds_size _ _ (dk_inode _ _ Hd 0 _ Hj)) as [Es _]. change (1 + Z.of_nat 0) with ROOTINO in Es.
  rewrite Es. change (e_size (dir (root_data args))) with (Z.of_nat (length (root_data args))). rewrite (xint_id (Z.of_nat _)) by lia. fold (root_size args).
  assert (0 <= root_size args < 2 ^ 32) as Hsz. { unfold root_size. rewrite Hlen. change BSIZE with 1024. Z.div_mod_to_equations. lia. }
  rewrite u32_id, xint_id by done.
  assert (<[0%nat := root_data args]> (e_data <$> fi) = e_data <$> fi) as Ei by (apply list_insert_id; done).
  destruct (put_run im im fi 0 (dir (root_data args)) (root_data args) (dino (sects im)) (dino (sects im) 1) (root_size args) Hd Hj) as (im1 & Hw & Hd1); [|apply changes_refl|done| |done|].
  { rewrite Ei. split; [|done|apply Hd]. apply (whole_part _ _ _ _ 0%nat (root_data args)); [done|apply Hd]. }
  { rewrite (dk_fb _ _ Hd). done. }
  change (1 + Z.of_nat 0) with ROOTINO in Hw. change (dino (sects im) 1) with (dino (sects im) ROOTINO) in Hw. rewrite (mk_bind_eq _ _ _ _ _ Hw).
  erewrite mk_bind_eq by reflexivity. destruct (mkfs_balloc_run im1 _ Hd1) as (im' & Hr & Hd' & Hm).
  { rewrite (dk_fb _ _ Hd1). change (nmeta + total fi <= FSSIZE). by rewrite <- (dk_fb _ _ Hd). }
  exists im'. split; [done|]. split; [done|]. rewrite (dk_fb _ _ Hd'), <- (dk_fb _ _ Hd1). done.
Qed.

Lemma main_run a0 img args : Forall (arg_ok host) args -> 2 + Z.of_nat (length args) <= NINODES ->
  fits (nmeta + total (files args)) (main host true (a0 :: img :: args)) (fun _ im => disk_ok im (files args) /\ marked (sects im) (freeblock im)).
Proof using.
  intros Hargs Hn. unfold main, mkfs. erewrite mk_bind_eq by reflexivity. erewrite mk_bind_eq by reflexivity. cbn [negb].
  destruct (zero_sectors_run (Z.to_nat FSSIZE) 0 image0) as (V & Hz & HV); [done|done|done|done|]. rewrite (mk_bind_eq _ _ _ _ _ Hz). clear Hz.
  change (Image V (0 + Z.of_nat (Z.to_nat FSSIZE)) (freeinode image0) (freeblock image0)) with (Image V FSSIZE 1 nmeta).
  rewrite (mk_bind_eq _ _ _ _ _ (wsect_ok 1 (sb_block mkfs_sb) (Image V FSSIZE 1 nmeta) (conj Z.le_0_1 eq_refl) eq_refl)).
  unfold with_sects. cbn [sects nsect freeinode freeblock].
  destruct (ialloc_run _ [] T_DIR (blank_disk V HV)) as (im1 & Hr1 & Hd1); [reflexivity|by split; [|reflexivity]|].
  rewrite (mk_bind_eq _ _ _ _ _ Hr1).
  change (1 + Z.of_nat (length [])) with ROOTINO. erewrite mk_bind_eq by reflexivity. change (xshort ROOTINO) with ROOTINO.
  cbn [app] in Hd1. change (Entry T_DIR 0 []) with (dir []) in Hd1. change NINODES with 200 in Hn. pose proof (total_entries_nonneg (file_entry host <$> args)) as Ht.
  assert (freeblock im1 <= FSSIZE) as Hfb1 by (rewrite (dk_fb _ _ Hd1); done).
  eapply fits_bind; [apply (iappend_root im1 [] [] _ Hd1 Hfb1); by rewrite length_dirent| |].
  { apply Z.add_le_mono_l. unfold files. apply (total_dir (dirent ROOTINO [46]) (dirent ROOTINO [46; 46] ++ dir_bytes 2 args) [] (file_entry host <$> args)). done. }
  intros [] im2 Hle2 Hd2. eapply fits_bind; [apply (iappend_root im2 _ [] _ Hd2); [by rewrite (dk_fb _ _ Hd2)|by rewrite app_nil_l, !length_dirent]| |].
  { apply Z.add_le_mono_l. unfold files, root_data. rewrite app_nil_l, app_assoc. by apply (total_dir _ (dir_bytes 2 args) [] (file_entry host <$> args)). }
  intros [] im3 Hle3 Hd3. cbn beta in Hd3. rewrite app_nil_l in Hd3, Hle3.
  eapply fits_bind; [apply (add_files_run host args im3 _ [] Hd3); [by rewrite (dk_fb _ _ Hd3)|change NINODES with 200; cbn; lia|done|]| |].
  { rewrite length_app, !length_dirent. change (MAXFILE * BSIZE) with 274432. lia. }
  { cbn [length app]. rewrite <- app_assoc. reflexivity. }
  intros [] im4 Hle4 Hd4. cbn beta in Hd4. cbn [length app] in Hd4, Hle4. rewrite <- app_assoc in Hd4, Hle4.
  destruct (finish_run im4 args Hd4) as (im' & Hr & Hd' & Hm); [by rewrite (dk_fb _ _ Hd4)|done|].
  left. split; [exact Hle4|]. by exists tt, im'.
Qed.
End main.

(** ** The file system on the image *)

(** The image as a disk. *)
Definition disk_of (im : image) : gmap Z block := list_to_map ((fun b => (b, sects im b)) <$> seqZ 0 (nsect im)).

Lemma disk_of_block im b : dblock (disk_of im) b = if decide (0 <= b < nsect im) then sects im b else zero_block.
Proof.
  unfold dblock, disk_of. assert (((fun b => (b, sects im b)) <$> seqZ 0 (nsect im)).*1 = seqZ 0 (nsect im)) as E1.
  { rewrite <- list_fmap_compose. etransitivity; [|apply list_fmap_id]. by apply list_fmap_ext. }
  case_decide as E.
  - erewrite elem_of_list_to_map_1; [done|rewrite E1; apply NoDup_seqZ|]. apply list_elem_of_fmap. exists b. split; [done|]. apply elem_of_seqZ. lia.
  - rewrite not_elem_of_list_to_map_1; [done|]. rewrite E1. intros Hin. apply elem_of_seqZ in Hin. lia.
Qed.

(** [V] is a file system as kernel/fs.c expects it, in which inode [1 + j] is
    [fi !! j] and the blocks before [fb] are in use. *)
Record formatted (V : Z -> block) (fi : list entry) (fb : Z) : Prop := {
  fm_len b : length (V b) = Z.to_nat BSIZE;
  fm_sb : sb_of (V 1) = mkfs_sb;
  fm_log b : log_area mkfs_sb b -> V b = zero_block;
  fm_used : marked V fb;
  fm_free : free_data mkfs_sb V ∅;
  fm_inode j e : fi !! j = Some e -> let i := dino V (1 + Z.of_nat j) in
    described i e /\ inode_ok i /\ file_ok mkfs_sb V ∅ i /\ mapped V i (e_len e) /\
    forall x, 0 <= x < MAXFILE * BSIZE -> fbyte V i x = default 0 (e_data e !! Z.to_nat x);
  fm_blocks j e t : fi !! j = Some e -> 0 <= t < MAXFILE -> file_blk V (dino V (1 + Z.of_nat j)) t <> 0 <-> t * BSIZE < e_len e;
  fm_apart y z t u : 1 <= y < 1 + Z.of_nat (length fi) -> 1 <= z < 1 + Z.of_nat (length fi) -> y <> z -> is_slot t -> is_slot u ->
    slot V (dino V y) t <> 0 -> slot V (dino V y) t <> slot V (dino V z) u;
  fm_none y : y = 0 \/ 1 + Z.of_nat (length fi) <= y < NINODES -> i_type (dino V y) = 0;
}.

Section formatted.
Context (im : image) (fi : list entry).
Hypothesis Hd : disk_ok im fi.
Hypothesis Hfb : freeblock im <= FSSIZE.
Hypothesis Hm : marked (sects im) (freeblock im).
Local Abbreviation V := (dblock (disk_of im)) (only parsing).

Lemma disk_in b : 0 <= b < FSSIZE -> V b = sects im b.
Proof using Hd. intros Hb. rewrite disk_of_block, (dk_nsect _ _ Hd). by rewrite decide_True. Qed.
Lemma disk_len b : length (V b) = Z.to_nat BSIZE.
Proof using Hd. rewrite disk_of_block. case_decide; [exact (dk_len _ _ b Hd)|apply zero_block_len]. Qed.
Lemma disk_dino y : 0 <= y < NINODES -> dino V y = dino (sects im) y.
Proof using Hd. intros Hy. pose proof (mkfs_iblock y Hy). unfold dino. rewrite disk_in; [done|]. change FSSIZE with 2000. lia. Qed.

Lemma disk_whole : whole V (dino V) (e_data <$> fi) (freeblock im).
Proof using Hd Hfb.
  eapply whole_meta; [apply Hd| |apply disk_len|].
  - assert (nmeta = 47) by done. intros b Hb. rewrite disk_of_block, (dk_nsect _ _ Hd). case_decide; [done|].
    symmetry. apply (ly_zero _ _ _ _ (pt_lay _ _ _ _ _ _ (dk_whole _ _ Hd))). lia.
  - rewrite length_fmap. intros y Hy. pose proof (dk_count _ _ Hd). by rewrite disk_dino by lia.
Qed.
Lemma disk_marked : marked V (freeblock im).
Proof using Hd Hm.
  intros x Hx. rewrite <- Hm by done. unfold used. rewrite mkfs_bblock, disk_in by done. done.
Qed.

Hypothesis Hmax : forall j e, fi !! j = Some e -> e_len e <= MAXFILE * BSIZE.

Lemma disk_file j e : fi !! j = Some e -> file_ok mkfs_sb V ∅ (dino V (1 + Z.of_nat j)) /\ mapped V (dino V (1 + Z.of_nat j)) (e_len e).
Proof using All.
  intros Hj. destruct disk_whole as [[L1 L2 L3 L4 L5 L6] P2 P3]. destruct (dk_range _ _ _ _ Hd Hj) as [Hr _].
  rewrite length_fmap in L4, L5, L6. assert (nmeta = 47) by done. split.
  - split; [by apply L4| |].
    + intros t Ht Hn. pose proof (L5 _ t Hr Ht Hn) as Hs. split_and!; [apply mkfs_data_block; lia| |done].
      rewrite disk_marked by lia. apply bool_decide_true. lia.
    + intros t u Ht Hu Hn E. by destruct (L6 _ _ t u Hr Hr Ht Hu Hn E).
  - destruct (P3 j (e_data e)) as [M1 M2]; [by eapply dk_data|]. rewrite decide_False in M1, M2 by lia. fold (e_len e) in M1, M2.
    intros t Ht0 Ht. specialize (Hmax j e Hj). assert (t < MAXFILE) by (change BSIZE with 1024 in *; lia).
    rewrite <- file_slot by lia. apply M1; [lia|]. unfold nb. change BSIZE with 1024 in *. Z.div_mod_to_equations. lia.
Qed.

Lemma disk_blocks j e t : fi !! j = Some e -> 0 <= t < MAXFILE -> file_blk V (dino V (1 + Z.of_nat j)) t <> 0 <-> t * BSIZE < e_len e.
Proof using Hd Hfb.
  intros Hj Ht. destruct disk_whole as [_ _ P3]. destruct (P3 j (e_data e)) as [M1 M2]; [by eapply dk_data|].
  rewrite decide_False in M1, M2 by lia. fold (e_len e) in M1, M2. rewrite <- file_slot by lia.
  assert (t < nb (e_len e) <-> t * BSIZE < e_len e) as <- by (unfold nb; change BSIZE with 1024; Z.div_mod_to_equations; lia).
  rewrite M1 by lia. done.
Qed.

Lemma disk_formatted : formatted V fi (freeblock im).
Proof using All.
  pose proof Hd as [W I F X C N B S L]. pose proof disk_whole as Hw. assert (nmeta = 47) as Em by done. pose proof (total_entries_nonneg fi).
  assert (freeblock im = nmeta + total fi) as Ef by done. split.
  - exact disk_len.
  - by rewrite disk_in, S, sb_of_block.
  - intros b Hb. rewrite mkfs_log_area in Hb. rewrite disk_in by (change FSSIZE with 2000; lia). by apply L.
  - exact disk_marked.
  - intros x Hx. change (sb_size mkfs_sb) with FSSIZE in Hx. rewrite disk_marked by done. intros Hge. apply bool_decide_eq_false in Hge.
    split; [|done]. apply mkfs_data_block. lia.
  - intros j e Hj i. destruct (disk_file j e Hj) as [Hf Hmp]. destruct (dk_range _ _ _ _ Hd Hj) as [_ Hr]. unfold i. split_and!; [| |done|done|].
    + rewrite disk_dino by done. by apply I.
    + rewrite disk_dino by done. by eapply dk_inode_ok.
    + apply (pt_reads _ _ _ _ _ _ Hw). by eapply dk_data.
  - intros j e t. apply disk_blocks.
  - intros y z t u Hy Hz Hne Ht Hu Hn E. apply Hne. destruct Hw as [L0 _ _]. rewrite <- (length_fmap e_data fi) in Hy, Hz.
    by apply (ly_inj _ _ _ _ L0 y z t u).
  - intros y Hy. rewrite disk_dino by (change NINODES with 200 in *; lia). by apply F.
Qed.
End formatted.

Lemma mkfs_layout : layout_ok mkfs_sb.
Proof. split; [apply mkfs_bitmap_ok|apply mkfs_inodes_ok|]. intros x y Hx Hy. rewrite mkfs_bblock by done. pose proof (mkfs_iblock x Hx). lia. Qed.

Lemma files_max host args j e : Forall (arg_ok host) args -> 2 + Z.of_nat (length args) <= NINODES -> files host args !! j = Some e ->
  e_len e <= MAXFILE * BSIZE.
Proof.
  intros Ha Hn Hj. change NINODES with 200 in Hn. unfold files in Hj. destruct j as [|j].
  - injection Hj as <-. unfold e_len. cbn [e_data]. rewrite length_root. change (MAXFILE * BSIZE) with 274432. lia.
  - change ((file_entry host <$> args) !! j = Some e) in Hj. rewrite list_lookup_fmap in Hj. destruct (args !! j) as [arg|] eqn:E; [|done]. injection Hj as <-.
    rewrite Forall_lookup in Ha. apply (Ha j arg E).
Qed.

Lemma mkfs_run host a0 img args : Forall (arg_ok host) args -> 2 + Z.of_nat (length args) <= NINODES ->
  fits (nmeta + total (files host args)) (main host true (a0 :: img :: args))
    (fun _ im => formatted (dblock (disk_of im)) (files host args) (nmeta + total (files host args)) /\ nsect im = FSSIZE).
Proof.
  intros Ha Hn. destruct (main_run host a0 img args Ha Hn) as [(Hle & [] & im & Hr & Hd & Hm)|[Hover Hr]]; [left|right; split; [exact Hover|exact Hr]].
  split; [exact Hle|]. exists tt, im. split; [exact Hr|]. clear Hr. split; [|apply Hd]. rewrite <- (dk_fb _ _ Hd).
  apply disk_formatted; [done|by rewrite (dk_fb _ _ Hd)|done|]. intros j e. by apply files_max.
Qed.

(** The size of the root directory is rounded up to the next block, also when
    its entries fill the last one: then it covers a block that is not there. *)
Lemma root_blocks host args V fb : formatted V (files host args) fb -> 2 + Z.of_nat (length args) <= NINODES ->
  i_size (dino V ROOTINO) = root_size args /\ (mapped V (dino V ROOTINO) (root_size args) <-> Z.of_nat (length (root_data args)) mod BSIZE <> 0).
Proof.
  intros Hf Hn. destruct (fm_inode _ _ _ Hf 0%nat _ eq_refl) as ([_ _ _ [D4 _]] & _). split; [exact D4|].
  assert (forall t, 0 <= t < MAXFILE -> file_blk V (dino V ROOTINO) t <> 0 <-> t * BSIZE < Z.of_nat (length (root_data args))) as Hb.
  { intros t Ht. exact (fm_blocks _ _ _ Hf 0%nat _ t eq_refl Ht). }
  pose proof (length_root args) as Hl. change NINODES with 200 in Hn. unfold mapped, root_size. change MAXFILE with 268 in Hb. change BSIZE with 1024 in *.
  set (n := Z.of_nat (length (root_data args))) in *. split.
  - intros Hm E. specialize (Hm (n / 1024)). rewrite Hb in Hm by (Z.div_mod_to_equations; lia). Z.div_mod_to_equations. lia.
  - intros Hne t Ht0 Ht. rewrite Hb by (Z.div_mod_to_equations; lia). Z.div_mod_to_equations. lia.
Qed.

(** C19: mkfs makes a file system. The arguments are files of the host, each of
    at most [MAXFILE] blocks and with a name that fits an entry, and no more
    than there are inodes for. Then the run ends with an image or with the error
    of a read past the end of the image, and it is the image exactly when the
    files with their indirect blocks and the directory fit. The image has the
    size and the superblock the kernel expects; its log is empty; the bitmap marks
    the blocks that are in use and no others; every inode is well formed,
    with blocks that are its own, exactly those of its contents, and reads as the
    file of the host or as the directory of their names; and all other inodes
    are free. The size of the root directory is that of its blocks, except
    that it covers one block too many when the entries fill their blocks. *)
Theorem mkfs_spec host a0 img args : Forall (arg_ok host) args -> 2 + Z.of_nat (length args) <= NINODES ->
  let fi := files host args in let fb := nmeta + total fi in
  layout_ok mkfs_sb /\
  ((fb <= FSSIZE /\ exists im, main host true (a0 :: img :: args) = inr (tt, im) /\ nsect im = FSSIZE /\ formatted (dblock (disk_of im)) fi fb /\
      let V := dblock (disk_of im) in
      i_size (dino V ROOTINO) = root_size args /\ (mapped V (dino V ROOTINO) (root_size args) <-> Z.of_nat (length (root_data args)) mod BSIZE <> 0)) \/
   (FSSIZE < fb /\ main host true (a0 :: img :: args) = inl (Die "read"))).
Proof.
  intros Ha Hn fi fb. split; [exact mkfs_layout|]. destruct (mkfs_run host a0 img args Ha Hn) as [(Hle & [] & im & Hr & Hf & Hs)|[Hover Hr]]; [left|right].
  - split; [exact Hle|]. exists im. split; [exact Hr|]. split; [exact Hs|]. split; [exact Hf|]. clear Hr. exact (root_blocks host args _ _ Hf Hn).
  - split; [exact Hover|exact Hr].
Qed.
