(* ===== verification/MkfsBoot.v ===== *)
(** * The kernel on an image of mkfs

    The file system that mkfs/mkfs.c makes, as kernel/fs.c finds it: a path names
    the file that was put there under that name, and reading it gives the bytes
    of the host's file. *)

From S2P Require Import Prelude Riscv Headers Mem Kalloc Vm Sleeplock Block Log LogSteps LogOps State Sched SchedProps Copy Fs FsBase FsAlloc FsInode FsFile FsRw FsDir FsName.
From S2P Require Import Bio BioList BioRep BioProps LogSafe LogCrash Mkfs MkfsImage MkfsAppend MkfsProps.

(** ** The root directory *)

Fixpoint dir_list (inum : Z) (args : list (list Z)) : list (list Z) :=
  match args with
  | [] => []
  | arg :: args => dirent inum (file_name arg) :: dir_list (inum + 1) args
  end.
Definition root_list (args : list (list Z)) : list (list Z) := dirent ROOTINO [46] :: dirent ROOTINO [46; 46] :: dir_list 2 args.

Lemma dir_bytes_concat args : forall inum, dir_bytes inum args = concat (dir_list inum args).
Proof. induction args as [|arg args IH]; intros inum; [done|]. cbn. by rewrite IH. Qed.
Lemma root_data_concat args : root_data args = concat (root_list args).
Proof. unfold root_data, root_list. by rewrite dir_bytes_concat. Qed.

Lemma dir_list_lookup args : forall inum j arg, args !! j = Some arg -> dir_list inum args !! j = Some (dirent (inum + Z.of_nat j) (file_name arg)).
Proof.
  induction args as [|arg0 args IH]; intros inum [|j] arg Hj; try done.
  - injection Hj as ->. cbn. by rewrite Z.add_0_r.
  - cbn [dir_list]. change ((dir_list (inum + 1) args) !! j = Some (dirent (inum + Z.of_nat (S j)) (file_name arg))).
    rewrite (IH _ _ arg Hj). do 2 f_equal. lia.
Qed.
Lemma dir_list_16 args : forall inum, Forall (fun de => length de = 16%nat) (dir_list inum args).
Proof. induction args as [|arg args IH]; intros inum; constructor; [apply length_dirent|apply IH]. Qed.

Lemma length_dir_list args : forall inum, length (dir_list inum args) = length args.
Proof. induction args as [|arg args IH]; intros inum; [done|]. cbn. by rewrite IH. Qed.

(** The pieces of a concatenation of pieces of the same length. *)
Lemma concat_chunk {A} (l : list (list A)) w : forall u x, Forall (fun c => length c = w) l -> l !! u = Some x ->
  take w (drop (w * u) (concat l)) = x.
Proof.
  induction l as [|c l IH]; intros [|u] x Hl Hu; [done|done| |]; apply Forall_cons in Hl as [Hc Hl]; cbn [concat].
  - injection Hu as ->. rewrite Nat.mul_0_r, drop_0, take_app_le, take_ge by lia. done.
  - replace (w * S u)%nat with (length c + w * u)%nat by lia. rewrite drop_app_add. by apply IH.
Qed.

(** What a file that reads as [l] has at an offset. *)
Lemma fbytes_reads V i l off n : (forall x, 0 <= x < MAXFILE * BSIZE -> fbyte V i x = default 0 (l !! Z.to_nat x)) ->
  0 <= off -> 0 <= n -> off + n <= Z.of_nat (length l) -> Z.of_nat (length l) <= MAXFILE * BSIZE ->
  fbytes V i off n = take (Z.to_nat n) (drop (Z.to_nat off) l).
Proof.
  intros Hr Ho Hn Hlen Hmax. apply list_eq. intros j. destruct (decide (j < Z.to_nat n)%nat) as [Hj|Hj].
  - pose proof (lookup_fbytes V i off n (Z.of_nat j) ltac:(lia)) as E. rewrite Nat2Z.id in E. rewrite E, Hr by lia.
    rewrite lookup_take_lt, lookup_drop by done. replace (Z.to_nat (off + Z.of_nat j)) with (Z.to_nat off + j)%nat by lia.
    destruct (lookup_lt_is_Some_2 l (Z.to_nat off + j)) as [x ->]; [lia|done].
  - rewrite !lookup_ge_None_2; [done|rewrite length_take; lia|rewrite length_fbytes; lia].
Qed.

Lemma root_entry V i args u de : (forall x, 0 <= x < MAXFILE * BSIZE -> fbyte V i x = default 0 (root_data args !! Z.to_nat x)) ->
  2 + Z.of_nat (length args) <= NINODES -> 0 <= u -> root_list args !! Z.to_nat u = Some de -> dir_entry V i u = de.
Proof.
  intros Hr Hn Hu Hde. pose proof (length_root args) as Hlen. change NINODES with 200 in Hn.
  assert (length (root_list args) = 2 + length args)%nat as Hll.
  { unfold root_list. cbn [length]. by rewrite length_dir_list. }
  pose proof (lookup_lt_Some _ _ _ Hde) as Hlt. unfold dir_entry. change DIRENT with 16.
  rewrite (fbytes_reads V i (root_data args)) by (done || lia || (change (MAXFILE * BSIZE) with 274432; lia)).
  rewrite root_data_concat. change (Z.to_nat 16) with 16%nat. replace (Z.to_nat (16 * u)) with (16 * Z.to_nat u)%nat by lia.
  apply concat_chunk; [|done]. constructor; [apply length_dirent|]. constructor; [apply length_dirent|]. apply dir_list_16.
Qed.

(** ** Names *)

Lemma file_name_sub arg x : x ∈ file_name arg -> x ∈ arg.
Proof.
  assert (forall l : list Z, x ∈ strip_underscore l -> x ∈ l) as Hs.
  { intros [|a l]; [done|]. cbn [strip_underscore]. destruct (a =? underscore); [|done]. apply list_elem_of_further. }
  unfold file_name. intros Hx%Hs. unfold shortname in Hx. destruct (bool_decide _); [|done]. rewrite <- (take_drop 5 arg). apply elem_of_app. by right.
Qed.

Lemma shortname_sub arg : slash ∉ shortname arg -> slash ∉ file_name arg.
Proof.
  unfold file_name. destruct (shortname arg) as [|a l]; [done|]. cbn [strip_underscore]. destruct (a =? underscore); [|done].
  intros H Hin. apply H. by apply list_elem_of_further.
Qed.

(** The arguments, as C strings that mkfs accepts; [arg] is the first with its name,
    and the name is neither empty nor one of the two that every directory has. *)
Record names_file (host : list Z -> option (list (list Z))) (args : list (list Z)) (j : nat) (arg : list Z) : Prop := {
  nf_args : Forall (arg_ok host) args;
  nf_nul : Forall (fun a => 0 ∉ a) args;
  nf_count : 2 + Z.of_nat (length args) <= NINODES;
  nf_lookup : args !! j = Some arg;
  nf_first j' a : args !! j' = Some a -> (j' < j)%nat -> file_name a <> file_name arg;
  nf_name : file_name arg <> [] /\ file_name arg <> [46] /\ file_name arg <> [46; 46];
}.

Section names.
Context (host : list Z -> option (list (list Z))) (args : list (list Z)) (j : nat) (arg : list Z).
Hypothesis Hn : names_file host args j arg.
Local Abbreviation name := (file_name arg) (only parsing).
Local Abbreviation inum := (2 + Z.of_nat j) (only parsing).

Lemma nf_arg a j' : args !! j' = Some a -> arg_ok host a /\ (0 ∉ file_name a) /\ Z.of_nat j' < 198.
Proof using Hn.
  intros Hj. destruct Hn as [N1 N2 N3 _ _ _]. rewrite Forall_lookup in N1, N2. split; [by eapply N1|]. split.
  - intros Hin. apply (N2 j' a Hj). by apply file_name_sub.
  - apply lookup_lt_Some in Hj. change NINODES with 200 in N3. lia.
Qed.

Lemma nf_hit u de : root_list args !! Z.to_nat u = Some de -> 0 <= u <= inum -> hit name de = bool_decide (u = inum).
Proof using Hn.
  intros Hu Hle. pose proof Hn as [N1 N2 N3 N4 N5 (N6 & N7 & N8)]. destruct (nf_arg arg j N4) as ([_ _ A3 _] & A5 & A6).
  destruct (decide (u = 0)) as [->|Hu0]; [|destruct (decide (u = 1)) as [->|Hu1]].
  - change (Some (dirent ROOTINO [46]) = Some de) in Hu. injection Hu as <-. destruct (hit_dirent name ROOTINO [46]) as [_ ->]; try done; [set_solver|].
    rewrite !bool_decide_false by (done || lia). done.
  - change (Some (dirent ROOTINO [46; 46]) = Some de) in Hu. injection Hu as <-. destruct (hit_dirent name ROOTINO [46; 46]) as [_ ->]; try done; [set_solver|].
    rewrite !bool_decide_false by (done || lia). done.
  - replace (Z.to_nat u) with (S (S (Z.to_nat (u - 2)))) in Hu by lia. change (dir_list 2 args !! Z.to_nat (u - 2) = Some de) in Hu.
    destruct (lookup_lt_is_Some_2 args (Z.to_nat (u - 2))) as [a Ha]; [apply lookup_lt_Some in N4; lia|].
    rewrite (dir_list_lookup args 2 _ a Ha) in Hu. injection Hu as <-. destruct (nf_arg a _ Ha) as ([_ _ B3 _] & B5 & B6).
    destruct (hit_dirent name (2 + Z.of_nat (Z.to_nat (u - 2))) (file_name a)) as [_ ->]; [done..|lia|].
    apply bool_decide_ext. split.
    + intros E. destruct (decide (u = inum)) as [|Hne]; [done|]. exfalso. by apply (N5 (Z.to_nat (u - 2)) a Ha); [lia|].
    + intros ->. replace (Z.to_nat (inum - 2)) with j in Ha by lia. congruence.
Qed.

Context (V : Z -> block) (fb : Z).
Hypothesis Hf : formatted V (files host args) fb.

Lemma nf_root : root_has mkfs_sb V name inum inum.
Proof using Hn Hf.
  pose proof Hn as [N1 N2 N3 N4 N5 _]. change NINODES with 200 in N3. pose proof (lookup_lt_Some _ _ _ N4) as Hlt.
  destruct (fm_inode _ _ _ Hf 0 (Entry T_DIR (root_size args) (root_data args)) eq_refl) as ([[D1 _] _ D3 [D4 _]] & _ & F1 & F2 & F3).
  change (dino V (1 + Z.of_nat 0)) with (on_disk_of mkfs_sb V ROOTINO inode0) in *. cbn [e_type e_size] in *.
  pose proof (length_root args) as Hlen. change (e_len (Entry T_DIR (root_size args) (root_data args))) with (Z.of_nat (length (root_data args))) in F2.
  assert (forall u, 0 <= u <= inum -> exists de, root_list args !! Z.to_nat u = Some de /\ dir_entry V (on_disk_of mkfs_sb V ROOTINO inode0) u = de) as Hent.
  { intros u Hu. destruct (lookup_lt_is_Some_2 (root_list args) (Z.to_nat u)) as [de Hde]; [unfold root_list; cbn [length]; rewrite length_dir_list; lia|].
    exists de. split; [done|]. by apply (root_entry V _ args u de F3); [change NINODES with 200; lia|lia|]. }
  assert (DIRENT * (inum + 1) <= Z.of_nat (length (root_data args))) as Hin by (change DIRENT with 16; lia).
  assert (Z.of_nat (length (root_data args)) <= root_size args <= 4096) as Hsz.
  { unfold root_size. rewrite Hlen. change BSIZE with 1024. Z.div_mod_to_equations. lia. }
  split; try done.
  - by rewrite D3.
  - rewrite D4. change (MAXFILE * BSIZE) with 274432. lia.
  - intros b Hb Hlt'. apply F2; [done|lia].
  - intros u Hu. destruct (Hent u) as (de & H1 & ->); [lia|]. rewrite (nf_hit u de H1) by lia. rewrite bool_decide_false by lia. done.
  - destruct (Hent inum) as (de & H1 & ->); [lia|]. rewrite (nf_hit _ de H1) by lia. by rewrite bool_decide_true.
  - destruct (Hent inum) as (de & H1 & ->); [lia|]. replace (Z.to_nat inum) with (S (S j)) in H1 by lia.
    change (dir_list 2 args !! j = Some de) in H1. rewrite (dir_list_lookup args 2 j arg N4) in H1. injection H1 as <-.
    destruct (nf_arg arg j N4) as ([_ _ A3 _] & A5 & A6). by destruct (hit_dirent name inum name) as [-> _]; try done; lia.
Qed.
End names.

(** ** Reading the files *)

Lemma mkfs_made host a0 img args im : Forall (arg_ok host) args -> 2 + Z.of_nat (length args) <= NINODES ->
  main host true (a0 :: img :: args) = inr (tt, im) -> formatted (dblock (disk_of im)) (files host args) (nmeta + total (files host args)).
Proof.
  intros Ha Hn Hm. destruct (mkfs_run host a0 img args Ha Hn) as [(_ & [] & im' & Hr & Hf & _)|[_ Hr]]; pose proof (eq_trans (eq_sym Hr) Hm) as E; clear Hr Hm.
  - injection E as ->. exact Hf.
  - discriminate.
Qed.

(** An idle entry of the table for inode [1 + j] is locked and read. *)
Lemma entry_reads `{LK : Linker} {KD : KData} {W : Wakes} {St : Type} {BO : BlockOps St} {pid : Z} {BL : BlockLaws St ROOTDEV pid}
  (k : kernel St) V L fi fb c ip j e : let i := inode_at k ip in formatted V fi fb -> fi !! j = Some e -> e_type e <> 0 -> e_size e = e_len e -> e_len e <= MAXFILE * BSIZE ->
  Z.of_nat (length fi) < NINODES ->
  name_locks (pid := pid) c -> fsv k V ∅ L -> sb k = mkfs_sb -> room ∅ L 1 -> in_table ip -> idle V mkfs_sb i ->
  i_dev i = ROOTDEV -> i_inum i = 1 + Z.of_nat j -> 1 <= i_ref i ->
  exists c2 k2 c3 k3, ilock ip c k = Ok tt c2 k2 /\ i_type (inode_at k2 ip) = e_type e /\ i_size (inode_at k2 ip) = e_len e /\
    readi ip PLocal 0 (e_len e) c2 k2 = Ok (e_len e, e_data e) c3 k3 /\ fsv k3 V ∅ L.
Proof.
  intros i Hf Hj Hty Hsz Hmax Hcnt Hlk Hv Esb [Hn1 Hn2] Hit Hid Hdev Hin Href. pose proof (lookup_lt_Some _ _ _ Hj) as Hlt. change NINODES with 200 in Hcnt.
  destruct (fm_inode _ _ _ Hf j e Hj) as ([[D1 _] _ D3 [D4 _]] & _ & F1 & F2 & F3). set (D := dino V (1 + Z.of_nat j)) in *.
  destruct (ilock_any (dev := ROOTDEV) (pid := pid) k V ∅ L ip c) as (c2 & k2 & Hr2 & Hst2 & Hv2 & Hlb); fold i; rewrite ?Esb, ?Hin; try done; try lia.
  { apply Hlk. } { apply Hlk. } { unfold in_table, NULL in *. lia. } { apply mkfs_inodes_ok. } { change (sb_ninodes mkfs_sb) with 200. lia. }
  { change (i_type D <> 0). by rewrite D1. }
  fold i in Hlb. rewrite Esb in Hlb. pose proof Hlb as [B1 _ _ (B4 & _ & _)]. rewrite Hin in B1.
  assert (stored (inode_at k2 ip) = stored D) as (E1 & _ & E3 & E4)%stored_eq by (rewrite B1; done).
  pose proof (in_step_sb _ _ _ _ _ Hst2) as Es2. rewrite Esb in Es2.
  assert (file_inv (dev := ROOTDEV) (pid := pid) k2 V ∅ L ip c2) as Hfi.
  { split; rewrite ?Es2; try done; [by eapply fs_locks_same; [apply Hst2|apply Hlk]|apply mkfs_bitmap_ok|apply Hf|by apply (file_ok_addrs _ _ _ D)|by rewrite B4]. }
  assert (0 <= e_len e) as H0 by (unfold e_len; lia). change (MAXFILE * BSIZE) with 274432 in *.
  pose proof (readi_run (dev := ROOTDEV) (pid := pid) k2 V ∅ L ip 0 (e_len e) c2 Hfi) as Hr. cbv zeta in Hr. rewrite E3, D4, Hsz in Hr.
  destruct Hr as (c3 & k3 & Hr3 & _ & Hv3); [by split|lia|lia|lia|by split| |].
  { by apply (mapped_addrs _ D). }
  exists c2, k2, c3, k3. rewrite E1, E3, D1, D4. split_and!; try done. rewrite Hr3. destruct (Z.leb_spec 0 (e_len e)); [|lia].
  rewrite Z.sub_0_r, Z.min_id. do 2 f_equal. rewrite (fbytes_addrs V D) by done.
  rewrite (fbytes_reads V D (e_data e)) by (done || unfold e_len in *; lia). rewrite drop_0. apply take_ge. unfold e_len. lia.
Qed.

(** C20: the kernel reads what mkfs wrote. On a disk with the image that mkfs has
    made, and with the superblock read from it, [namei] of the name of a file
    in the root directory returns an entry of the inode table for its inode,
    with the references of the other entries as they were; after [ilock] of
    that entry its type and its size are those of the file, and [readi] returns
    the bytes of the host's file, however [read] split it while mkfs copied it. *)
Theorem mkfs_namei `{LK : Linker} {KD : KData} {W : Wakes} {St : Type} {BO : BlockOps St} {pid : Z} {BL : BlockLaws St ROOTDEV pid}
  host a0 img args im j arg (k : kernel St) L c : let V := dblock (disk_of im) in let data := contents host arg in let n := Z.of_nat (length data) in
  names_file host args j arg -> main host true (a0 :: img :: args) = inr (tt, im) ->
  name_locks (pid := pid) c -> fsv k V ∅ L -> sb k = sb_of (V 1) -> room ∅ L 1 -> table_idle k V -> two_free k ->
  exists ip c1 k1 c2 k2 c3 k3, namei (slash :: file_name arg) c k = Ok ip c1 k1 /\ named k k1 c c1 V L (2 + Z.of_nat j) ip /\
    ilock ip c1 k1 = Ok tt c2 k2 /\ i_type (inode_at k2 ip) = T_FILE /\ i_size (inode_at k2 ip) = n /\
    readi ip PLocal 0 n c2 k2 = Ok (n, data) c3 k3 /\ fsv k3 V ∅ L.
Proof.
  intros V data n Hn Hm Hlk Hv Esb Hroom Htab Htwo. pose proof Hn as [N1 N2 N3 N4 N5 (N6 & _)].
  pose proof (mkfs_made host a0 img args im N1 N3 Hm) as Hf. clear Hm. fold V in Hf. rewrite (fm_sb _ _ _ Hf) in Esb.
  destruct (nf_arg host args j arg Hn arg j N4) as ([A1 _ A3 A4] & _ & A6).
  destruct (namei_run k V L c (file_name arg) (2 + Z.of_nat j) (2 + Z.of_nat j)) as (ip & c1 & k1 & Hr1 & Hnm); rewrite ?Esb; try done.
  { exact mkfs_layout. } { apply Hf. } { eapply nf_root; [exact Hn|exact Hf]. } { unfold ROOTINO. lia. } { by apply shortname_sub. }
  pose proof Hnm as [M1 M2 M3 M4 M5 (M6 & M7 & M8) M9]. rewrite Esb in M2, M5.
  assert (files host args !! S j = Some (file_entry host arg)) as Hfile.
  { change ((file_entry host <$> args) !! j = Some (file_entry host arg)). by rewrite list_lookup_fmap, N4. }
  destruct (entry_reads k1 V L _ _ c1 ip (S j) _ Hf Hfile) as (c2 & k2 & c3 & k3 & Hr2 & E1 & E2 & Hr3 & Hv3); try done.
  { cbn [files length]. rewrite length_fmap. lia. } { by eapply name_locks_same. } { rewrite M7. lia. }
  by exists ip, c1, k1, c2, k2, c3, k3.
Qed.

(** ** An image with one file *)

Module Demo.
#[local] Instance mkfs_wakes : Wakes := {| wakes := 1 |}.
#[local] Instance mkfs_linker : Linker :=
  {| kend := PHYSTOP - 12 * PGSIZE; etext := KERNBASE + 16 * PGSIZE; trampoline := KERNBASE + PGSIZE |}.
#[local] Instance mkfs_kdata : KData := {| kdata := KERNBASE; st_pad := [] |}.

(** [mkfs fs.img user/_a], where the file is read in two pieces. *)
Definition the_host (name : list Z) : option (list (list Z)) := Some [[104]; [105; 10]].
Definition the_arg : list Z := user_prefix ++ [underscore; 97].
Definition the_argv : list (list Z) := [[]; []; the_arg].

Lemma the_args_ok : Forall (arg_ok the_host) [the_arg].
Proof.
  constructor; [|constructor]. change (shortname the_arg) with [underscore; 97]. split; [|by eexists|done|done].
  apply (bool_decide_unpack _). done.
Qed.
Lemma the_file_named : names_file the_host [the_arg] 0 the_arg.
Proof.
  split; [exact the_args_ok|constructor; [apply (bool_decide_unpack _); done|constructor]|done|done|intros j' a _ Hlt; lia|done].
Qed.

Lemma mkfs_spec_witness : exists im, main the_host true the_argv = inr (tt, im) /\
  formatted (dblock (disk_of im)) (files the_host [the_arg]) (nmeta + total (files the_host [the_arg])).
Proof.
  destruct (mkfs_spec the_host [] [] [the_arg] the_args_ok ltac:(done)) as [_ [(_ & im & Hr & _ & Hf & _)|[Hover _]]]; [exists im; split; [exact Hr|exact Hf]|].
  exfalso. revert Hover. apply Z.le_ngt. apply Z.leb_le. reflexivity.
Defined.

Lemma the_image : exists im, main the_host true the_argv = inr (tt, im) /\ formatted (dblock (disk_of im)) (files the_host [the_arg]) (nmeta + total (files the_host [the_arg])).
Proof.
  destruct (mkfs_run the_host [] [] [the_arg] the_args_ok ltac:(done)) as [(_ & [] & im & Hr & Hf & _)|[Hover _]]; [exists im; split; [exact Hr|exact Hf]|].
  exfalso. revert Hover. apply Z.le_ngt. apply Z.leb_le. reflexivity.
Qed.

(** The kernel on that disk, inside a transaction, with inode-table entries [t]. *)
Definition the_log : logst := Log 2 1 false 1 0 ∅.
Definition the_ctx : ctx := Ctx ∅ [] 0 1.
Definition kern (t : gmap Z inode) (s : bcache) : kernel bcache :=
  Kernel (Pmem ∅ 0 ∅) (FsState the_log s) mkfs_sb t ∅ ∅ ∅ 2 None 0 (Console ∅ 0 0 0) (Uart false []) false.

Lemma the_locks : name_locks (pid := 1) the_ctx.
Proof. by split_and!. Qed.

Lemma kern_fsv t (d : gmap Z block) : (forall b, length (dblock d b) = Z.to_nat BSIZE) -> exists s, fsv (BL := bio_laws 1 1) (kern t s) (dblock d) ∅ ∅.
Proof.
  intros Hl. destruct (binit_run 1 1 d the_ctx) as (s & _ & _ & Ha); [done|exact Hl|]. exists s. exists (BState d [] ∅ ∅ ∅). split; try done.
  apply (log_inv_empty the_log); try done. split; cbn; [unfold LOGBLOCKS, MAXOPBLOCKS; lia|unfold LOGBLOCKS, MAXOPBLOCKS; lia|lia|lia].
Qed.

Lemma mkfs_namei_witness : exists s ip c1 k1 c2 k2 c3 k3, namei [slash; 97] the_ctx (kern ∅ s) = Ok ip c1 k1 /\ ilock ip c1 k1 = Ok tt c2 k2 /\
  readi ip PLocal 0 3 c2 k2 = Ok (3, [104; 105; 10]) c3 k3.
Proof.
  destruct the_image as (im & Hm & Hf). destruct (kern_fsv ∅ (disk_of im) (fm_len _ _ _ Hf)) as [s Hv].
  destruct (mkfs_namei (BL := bio_laws 1 1) the_host [] [] [the_arg] im 0 the_arg (kern ∅ s) ∅ the_ctx the_file_named Hm)
    as (ip & c1 & k1 & c2 & k2 & c3 & k3 & H1 & _ & H2 & _ & _ & H3 & _); clear Hm.
  - exact the_locks.
  - exact Hv.
  - rewrite (fm_sb _ _ _ Hf). reflexivity.
  - by split.
  - intros j Hj. by split_and!.
  - by exists 0, 1.
  - exists s, ip, c1, k1, c2, k2, c3, k3. split; [exact H1|]. split; [exact H2|exact H3].
Defined.

(** The root directory, in entry 0 of the table. *)
Lemma dirlookup_spec_witness : exists k ip c1 k1, dirlookup (St := bcache) 0 [97] the_ctx k = Ok (ip, 32) c1 k1 /\ i_inum (inode_at k1 ip) = 2.
Proof.
  destruct the_image as (im & _ & Hf). set (V := dblock (disk_of im)) in *. destruct (fm_inode _ _ _ Hf 0 _ eq_refl) as (D & _ & F1 & F2 & F3).
  pose proof (nf_root the_host [the_arg] 0 the_arg the_file_named V _ Hf) as Hroot. change (file_name the_arg) with [97] in Hroot.
  change (1 + Z.of_nat 0) with ROOTINO in *. set (R := on_disk_of mkfs_sb V ROOTINO inode0) in *. change (dino V ROOTINO) with R in *.
  destruct D as [[D1 _] _ D3 [D4 _]]. set (i := Inode 1 1 1 (SleepLock 0 0) true (i_type R) (i_major R) (i_minor R) (i_nlink R) (i_size R) (i_addrs R)).
  destruct (kern_fsv {[0 := i]} (disk_of im) (fm_len _ _ _ Hf)) as [s Hv]. fold V in Hv. set (k := kern {[0 := i]} s) in *.
  assert (inode_at k 0 = i) as Ei by done. assert (forall u, dir_entry V i u = dir_entry V R u) as Ede by (intros u; by apply fbytes_addrs).
  change (e_size (Entry T_DIR (root_size [the_arg]) (root_data [the_arg]))) with 1024 in D4.
  change (e_len (Entry T_DIR (root_size [the_arg]) (root_data [the_arg]))) with 48 in F2. cbn [e_type] in D1.
  destruct (dirlookup_spec (BL := bio_laws 1 1) k V ∅ ∅ 0 [97] the_ctx) as [Hfound _]; rewrite ?Ei.
  - split; try done; [apply mkfs_bitmap_ok|apply Hf|by apply (file_ok_addrs _ _ _ R)].
  - by split.
  - done.
  - exact D1.
  - change (i_size i) with (i_size R). by rewrite D4.
  - change (i_size i) with (i_size R). by rewrite D4.
  - change (i_size i) with (i_size R). by rewrite D4.
  - change (i_size i) with (i_size R). rewrite D4. apply (mapped_addrs _ R); [done|]. intros t Ht Hlt. apply F2; [done|]. change BSIZE with 1024 in *. lia.
  - rewrite Ei in Hfound. change (i_size i) with (i_size R) in Hfound. rewrite D4 in Hfound.
    destruct (Hfound 2) as (c1 & k1 & Hst & _ & Hres); [done|intros u Hu; rewrite Ede; by apply Hroot|rewrite Ede; apply Hroot|].
    cbv zeta in Hres. rewrite Ede in Hres. pose proof (rh_inum _ _ _ _ _ Hroot) as Hinum. fold R in Hinum. change (2 + Z.of_nat 0) with 2 in Hinum. rewrite Hinum in Hres. destruct Hres as [(ip & k2 & Hr & Hg)|[Hfull _]].
    + exists k, ip, c1, k2. split; [exact Hr|]. destruct (gt_entry _ _ _ _ _ _ Hg) as [[(_ & _ & C) ->]|(_ & _ & _ & ->)]; [exact C|done].
    + exfalso. destruct (Hfull 1 ltac:(done)) as [_ Hz]. apply Hz. by rewrite (fs_step_inode _ _ _ _ _ Hst).
Defined.
End Demo.
